(* ===== verification/_CoqProject ===== *)
-Q . S2P
Prelude.v
Float64.v
Memory.v
Virtqueue.v
VirtioMmio.v
Devices.v
Net.v
Vsock.v
Gicv2.v
Pl011.v
Proto.v
KvmGic.v
Machine.v
Hvf.v
KvmVcpu.v
SnapFile.v
Cpio.v
Fs.v
Flatten.v
Registry.v
Text.v
Dtb.v
Image.v
Bootstrap.v
Lockdown.v
UserNet.v
Daemon.v
Exec.v
Serve.v
Amberd.v
Cli.v
Agent.v
Uds.v
Fuzz.v
Commands.v
Worker.v
NetHost.v
Limiter.v
Manifest.v
Monitor.v
KvmHost.v
HvfHost.v
Run.v
