(* ===== verification/Prelude.v ===== *)
(** * A verification development for amber

    amber is a microVM monitor for arm64 guests. One process per VM
    (crates/amber-core over crates/amber-hvf or crates/amber-kvm) owns the
    guest's RAM, decodes the vcpu's exits and serves them from emulated
    devices; a daemon, amberd (crates/amber), admits VMs under a RAM budget,
    keeps warm workers in pools, and forks, pauses and controls them over
    pipes; an agent inside the guest (agent/src/main.rs) runs commands for
    it; images come from a registry (crates/amber-image), and a guest's
    network is proxied in user space (crates/amber-net). This library models
    the core of each part as executable functions over explicit state, and
    proves what makes them correct.

    ** How the parts interact

    An exit that is a data abort is decoded ([Machine.decode_data_abort]) and
    routed ([Machine.dispatch_mmio]) to the console UART ([Pl011]) or to one
    virtio-mmio transport ([VirtioMmio]); the transport keeps the queue
    registers and walks the rings in guest RAM ([Virtqueue] over [Memory]);
    the device behind it ([Devices], [Net], [Vsock]) handles each chain. The
    transport raises its line at the interrupt controller ([Gicv2] in
    software, [KvmGic] for the in-kernel one's snapshots). The exits come
    from a backend ([Hvf], [KvmVcpu]; [HvfHost] and [KvmHost] create and drop
    their VMs). [Monitor] is a VM's run over one,
    from the start to its end; [Run] is its threads: vcpu loops, pause gate, snapshot barrier and control channel; a
    snapshot goes to a directory through [SnapFile]. Before the guest runs,
    [Dtb] describes the prepared machine to it and [Lockdown] gives up what
    the process no longer needs. [UserNet] is the network
    behind [Net], configured by [NetHost], and [Uds] the host's sockets behind
    [Vsock]. [Daemon] is amberd's registry and pool, whose control
    frames end in [Run]; [Serve] is what it does with a connection; [Proto] is
    the framing of its socket, whose file and rights are in [Amberd]; [Exec]
    is a command's way from client to agent and back, [Agent] the agent around
    it. An image is fetched ([Registry]), flattened ([Flatten] over the
    host's files, [Fs]), packed and cached ([Image]); [Bootstrap] writes the
    initramfs that starts a command in it ([Cpio] is its format), and [Cli]
    puts a worker's configuration together from these. [Worker] is a VM
    process on its terminal.

    ** The files

    - [Prelude]: integers at their width, byte strings, lists, budgeted loops.
    - [Float64]: binary64 as the standard library specifies it, with what
      rounding, comparison and conversion guarantee; [Text]: the parsing,
      trimming, words and UTF-8 of [str].
    - [Memory] (amber-core/src/memory.rs): [GuestRam], the bounds-checked view
      through which devices see guest RAM, and [GuestMemory], the owner of the
      region. One state: base address and bytes. A rejected access reads zero
      or writes nothing, as in the source. [ram_at] is the abstract memory.
    - [Virtqueue] (amber-core/src/virtio.rs: collect_chain, push_used,
      next_rx_capacity, inject_one): the split-ring mechanics.
    - [VirtioMmio] (virtio.rs: VirtioMmio; snapshot.rs: the captured
      registers): the [VirtioDevice] trait as a class, its promises as
      [VirtioDeviceLaws], and the transport proved against them: mmio_read,
      mmio_write, process, pump_rx, reset, capture, restore. [mm_step] is
      everything that can happen to a transport.
    - [Devices] (virtio.rs: BlkDevice, RngDevice, BalloonDevice), [Net]
      (net.rs), [Vsock] (vsock.rs: VsockDevice and its connections): each
      defines a device and discharges [VirtioDeviceLaws]; [Uds] (vsock.rs:
      UdsBackend) is the backend of [Vsock].
    - [Fuzz] (virtio.rs, vsock.rs: the fuzz targets).
    - [Gicv2] (amber-hvf/src/gicv2.rs): distributor, cpu interfaces, capture
      and restore; [gic_step] is any guest or host operation on it.
    - [KvmGic] (amber-kvm/src/gic.rs): the vGIC register list and blob.
    - [Pl011] (amber-core/src/bus.rs): the UART and its readiness marker.
    - [Proto] (amber/src/proto.rs): frames and control messages.
    - [Machine] (amber-core/src/lib.rs, loader.rs, hypervisor.rs, vm.rs):
      address map, kernel loading, abort decoding, prepare, restore_from,
      dispatch_mmio, pump_all; [machine_step] is any event of a running VM.
    - [Hvf] (amber-hvf/src/lib.rs, ffi.rs, sysregs.rs; amber-core/src/cpu.rs):
      the vcpu over Hypervisor.framework: run loop, PSCI, traps, aborts to the
      software GIC, timer, capture and restore; [hvf_step] interleaves vcpus.
    - [KvmVcpu] (amber-kvm/src/backend.rs): the vcpu over /dev/kvm.
    - [HvfHost] (amber-hvf/src/lib.rs, ffi.rs): creation, the in-kernel GIC and
      the Drops, as a log of the framework's calls; [KvmHost] (backend.rs,
      gic.rs): creation, the kick, the self tests, and KVM as an instance of
      [Monitor]'s backend.
    - [SnapFile] (amber-core/src/snapshot.rs): the snapshot directory.
    - [Cpio] (amber-image/src/cpio.rs): the archive writer and a reader.
    - [Fs]: the host's files as a map from real paths, with what the source
      calls of std::fs; [Flatten] (flatten.rs): layers onto a root.
    - [Registry] (registry.rs): references, the token flow, manifests and the
      blob cache; [Image] (lib.rs, pack.rs): the image cache, builds from a
      registry or a local tar, the reference map.
    - [Dtb] (dtb.rs; vm.rs: the boot branch of run): the device tree as calls
      to the vm-fdt writer, the tree they make, and a checker of the rules of
      device trees.
    - [Lockdown] (lockdown.rs; vm.rs: the policy of run): the seccomp program
      with the machine that runs it, Landlock's calls with what a ruleset
      means, and the seatbelt profile with a reader of profiles.
    - [Bootstrap] (amber/src/main.rs: build_bootstrap, sh_quote, asset): the
      init script, with a reader of shell text, and the initramfs.
    - [UserNet] (amber-net/src/lib.rs): egress policy, flows, address
      translation, bridging, DNS and inbound connections; [NetHost] (lib.rs):
      the port forwards, the resolver and the frame queues.
    - [Daemon] (amber/src/daemon.rs, manifest.rs): reserve, eviction,
      spawn_paused, control operations, fork, warm-pool refill, supervision;
      [world_step] interleaves the locked sections of all its threads.
    - [Exec] (agent/src/main.rs; daemon.rs: exec_relay and its callers);
      [Agent] (agent/src/main.rs): the dial, the shell and the reports.
    - [Amberd] (daemon.rs): locks, resident memory, the descriptor limit, what
      a worker inherits, the wait for an agent, and the socket.
    - [Serve] (daemon.rs): connections, console relays, one-shot runs, exec,
      logs, and the client ends of each request.
    - [Cli] (amber/src/main.rs): arguments, environment, a worker's
      configuration, disk images and exit statuses; [Commands] (main.rs;
      daemon.rs: clients): each command as a plan of requests and output, run
      against a daemon's state by [perform]; [Worker] (main.rs; the two lib.rs:
      Display): the raw terminal, the ends of the commands, error texts.
    - [Limiter] (limiter.rs): the token bucket, and as the rate limiter of the
      devices; [Manifest] (amber/src/manifest.rs): sizes and amber.toml.
    - [Monitor] (vm.rs: Vm::run on its first vcpu, console_reader;
      hypervisor.rs): the backend as a class with laws, the start, a turn and
      the loop over it; Hypervisor.framework's vcpu of [Hvf] is an instance.
    - [Run] (vm.rs: the threads of Vm::run; daemon.rs: the other end of the
      control channel).

    ** What the theorems show

    - Safety against the guest. [Memory.ram_offset_exact] and
      [Memory.ram_write_refines] for single accesses;
      [Virtqueue.collect_chain_safe] for descriptor chains;
      [VirtioMmio.transport_invariant] for a transport under any driver; and
      [Machine.machine_safe] for a whole VM, from [prepare] through any
      events, including that a read-only disk never changes.
    - Function of the rings and devices. [VirtioMmio.process_serves],
      [VirtioMmio.pump_rx_drains], [Virtqueue.collect_chain_complete],
      [Virtqueue.inject_one_delivers]; disk reads and writes in [Devices];
      frames in [Net]; flow control, bounded buffers and port allocation in
      [Vsock].
    - Interrupts. Selection is optimal, acknowledge and end nest, the running
      stack is bounded, snapshots are lossless ([Gicv2], [KvmGic]).
    - The machine. Disjoint address map, exact routing, exact abort decoding,
      exact kernel loading, and [Machine.fork_restores]: a snapshot of any
      reachable state restores to the same devices, rings and RAM.
    - Booting and confinement. [Dtb.build_describes], [Dtb.build_typed] and
      [Dtb.boot_describes_machine]: the tree is built, well formed, and says
      what dispatch does; [Lockdown.bpf_returns], [Lockdown.seccomp_filter],
      [Lockdown.landlock_confines], [Lockdown.landlock_closes] and
      [Lockdown.seatbelt_confines] for each mechanism,
      [Lockdown.vm_confined] for a prepared VM.
    - The run. [Monitor.run_refines]: a run is a boot and then steps of the
      machine; [Monitor.confined_first]: no guest instruction before the
      lockdown and the pool's release; [Monitor.snapshot_resumes]: from a
      snapshot that is due to the run that resumes it;
      [Monitor.run_outcome], [Monitor.park_bounded] and
      [Monitor.console_delivers].
    - Backends. [Hvf.cpu_on_lifecycle] and [Hvf.data_abort_routed] for the
      vcpus and their exits; [Hvf.vcpu_restore_resumes] and
      [KvmVcpu.kvm_restore_registers] for snapshots of registers;
      [KvmVcpu.kvm_vcpus_once] for the hand-out of vcpus;
      [KvmHost.create_accepted] and [HvfHost.create_spec] for creation,
      [HvfHost.teardown] for the end, [KvmHost.kick_reaches] for the kick,
      [KvmHost.kvm_resumes] and [HvfHost.hw_gic_roundtrip] for restored VMs,
      [KvmHost.gic_selftest_passes] and [KvmHost.selftest_passes];
      [SnapFile.snapshot_files_roundtrip] for the directory.
    - Images. [Flatten.flatten_contained]: an image whose whiteouts name plain
      files stays in its root; [Flatten.flatten_writes_file] and
      [Flatten.flatten_budget]; [Registry.requests_expected],
      [Registry.realm_internal_refused] and [Registry.fetch_blob_verified];
      [Image.finish_build_loads] and [Image.refs_roundtrip];
      [Cpio.cpio_roundtrip].
    - From a request to the guest. [Bootstrap.init_runs_argv] and
      [Bootstrap.bootstrap_archive] for script and initramfs;
      [Cli.worker_args_exact] and [Cli.template_env_overrides] for arguments
      and environment; [Cli.guest_runs_request] composes them.
    - At the terminal. [Worker.terminal_restored] and [Worker.error_texts];
      [Commands.control_commands] from arguments to the
      worker's control channel; [Commands.ps_lines] for what ps prints, in a
      pipe and on a terminal; [Commands.up_waits];
      [Commands.probe_finds_leaks] for the lockdown's self test.
    - Rates. [Limiter.rate_conforms]: what a bucket lets through, with the
      rounding accounted for; [Limiter.bucket_invariant];
      [Manifest.parse_size_exact] and [Manifest.template_rate]: from the
      manifest to the bucket.
    - The network. [UserNet.usernet_policy], [UserNet.nat_roundtrip] and
      [UserNet.dns_drained]; [NetHost.ports_forwarded],
      [NetHost.resolver_usable], [NetHost.resolver_first] and
      [NetHost.bridge_fifo] for what it takes from the host.
    - The host's sockets. [Uds.connect_delivers], [Uds.peers_reach_guest] and
      [Uds.exec_meets]; [Fuzz.chains_fuzzed] and [Fuzz.packets_fuzzed] are what
      the fuzz targets look for, for every input.
    - The daemon as a process. [Amberd.serve_private] for its socket,
      [Amberd.worker_fds], [Amberd.statm_reading], [Amberd.fd_limit_raised] and
      [Amberd.accept_waits].
    - The agent. [Agent.dial_bounded]; [Agent.agent_serves] from its template
      to a served command.
    - Concurrency. [Daemon.budget_never_exceeded] and
      [Daemon.worker_exclusive] hold in every interleaving of the daemon's
      locked sections, [Run.snapshot_consistent] in every interleaving of a
      VM's threads; [Run.stop_ends]: a VM told to stop, and not paused, ends
      under every schedule.
    - Protocols. Frames, control frames and the exec stream round-trip, and
      truncated or oversized streams are errors ([Proto], [Run], [Exec]);
      [Serve.handle_guarded] says who may change the daemon, and
      [Serve.interactive_exact] what a terminal gets.
    - Behaviour that departs from the code's intent is stated as theorems
      too: [Run.paused_orphan_stuck], [Run.pause_releases_pooled],
      [Daemon.spawn_paused_effect] (the leaked reservation),
      [Vsock.vsock_leftover_oversized], [Gicv2.restore_cpu_count],
      [Devices.rng_reports_capacity], [Net.net_tx_debt_last],
      [Proto.oversized_frame_unreadable], [Hvf.xzr_store_sends_pc],
      [Hvf.gic_placement], [KvmVcpu.kvm_restore_registers] (secondaries stay
      off), [SnapFile.torn_write_mixes], [Flatten.whiteout_escapes],
      [UserNet.bridge_streams], [UserNet.eph_comes_around],
      [Registry.fetch_blob_unchecked], [Registry.realm_internal_accepted],
      [Registry.tag_and_digest], [Registry.concurrent_fetch_corrupts],
      [Image.local_tar_poisons], [Image.refs_lost_update],
      [Serve.one_shot_loses_output], [Serve.silent_guest_orphaned],
      [Serve.logs_limited], [Cli.exec_status], [Cli.ram_charged],
      [Dtb.low_kernel_overwritten], [Lockdown.profile_injected],
      [Limiter.debt_forgotten], [Limiter.batch_pays_last],
      [Limiter.oversized_frame_stalls], [Commands.down_claims],
      [Amberd.serve_steals], [Uds.silent_peer_blocks], [Uds.line_exact],
      [KvmHost.kick_lost], [HvfHost.create_leaks], [Worker.run_error_raw].

    ** Bounds and fuel

    Integers are [Z] at their width: [u8] to [u64] wrap, [wadd16],
    [wadd32] and [wadd64] are the wrapping sums, [fits w] is the range. [iter_until]
    runs a loop body on a binary budget, and every loop of the source that is
    bounded by a 16-bit ring index or a 32-bit counter has that bound as its
    budget; [VirtioMmio.process_serves] shows the service loop ends by itself.
    [VirtioMmio.pump_rx] takes fuel, and [VirtioMmio.pump_rx_drains] shows
    that any fuel above the number of payloads the device can still produce
    is enough. Loops over a stream carry the stream's length.
    [Hvf.run_loop] takes fuel, one unit for each exit; [Monitor.loop] takes
    a turn for each of its inputs. Resolving a path
    follows at most 40 symbolic links, as the host does; the DNS queue is
    walked once per entry.
    [Daemon.reserve_with_evict] has one round per pooled worker and one more,
    which [Daemon.reserve_with_evict_spec] shows is enough;
    [Amberd.accept_waits] shows how many turns the wait for an agent takes, and
    the agent's dial has the source's 100 tries.

    ** What is a parameter

    Code outside the repository's sources appears as classes with laws, each
    with a concrete instance used by the witnesses: disk files, the entropy
    source and madvise ([Devices]), the network backend ([Net]), host sockets
    and their backend ([Vsock]), the kernel's vGIC ([KvmGic]), JSON encoding
    ([Proto]), Hypervisor.framework's and KVM's vcpus ([Hvf], [KvmVcpu]), the
    in-kernel GIC of the former ([HvfHost]),
    smoltcp's stack and packets ([UserNet]), the vm-fdt writer ([Dtb]), JSON values and sha256
    ([Registry]). The answers of HTTP servers, the tar and gzip readers,
    mksquashfs and the host's clock are function arguments. [Fs] states what
    the file system does; in [Bootstrap] the reader of shell text is the
    specification of the script, and in [Lockdown] the filter machine, the
    meaning of a ruleset and the reader of profiles that of what is installed.
    In [KvmHost] and [HvfHost] the kernel and the framework answer as they
    like; a state of their own says which calls their documentation allows.
    [Machine.Host] is what the host answers when a VM opens its
    files, and [Daemon]'s outcomes of spawning are arguments. To the devices
    the rate limiter is a class ([RateLimiter]) without laws, so that they are
    proved for every answer it may give, and to the daemon and the command
    line the size parser is an argument; [Limiter] and [Manifest] are the
    instances.

    [Run] and [Daemon] interleave atomic steps, one per locked section or
    shared access; relaxed atomics are treated as sequentially consistent, and
    amberd's id counter is unbounded.

    ** What is not modelled

    The netstack's own configuration, libproc on macOS, starting processes and
    threads, and logging: they are calls into code outside the repository with
    nothing of its own around them. What pull prints: std's debug formatting.
    The mapping of KVM's run page and the signal handler's installation, but
    for their place in [KvmHost.create_calls]. How the scheduler and the
    timeouts of condition variables choose among enabled steps: the models
    leave it open, so liveness is stated for every schedule
    ([Run.stop_ends], [KvmHost.kick_lost]) and not for fair ones; that a vcpu
    comes back from the guest when kicked is left to the backends. Panics are modelled
    where a file says so ([Limiter], [Gicv2], the locks of [Amberd]).

    ** This file

    Shared vocabulary: w-bit integers kept as [Z] with
    their wrap-around written out, little-endian byte strings, the slice
    operations Rust performs on byte buffers, and a loop combinator with a
    binary iteration budget. *)

From stdpp Require Export base tactics numbers list list_numbers option fin_maps gmap strings.
From Stdlib Require Export ZArith Lia Bool.

#[global] Open Scope Z_scope.

(** ** Fixed-width unsigned integers *)

(** [x as u8], [x as u16], ... of a non-negative integer. *)
Definition u8 (x : Z) : Z := x mod 2 ^ 8.
Definition u16 (x : Z) : Z := x mod 2 ^ 16.
Definition u32 (x : Z) : Z := x mod 2 ^ 32.
Definition u64 (x : Z) : Z := x mod 2 ^ 64.

(** [wrapping_add], [wrapping_sub] and [wrapping_mul] at the widths used. *)
Definition wadd16 (a b : Z) : Z := u16 (a + b).
Definition wadd32 (a b : Z) : Z := u32 (a + b).
Definition wsub32 (a b : Z) : Z := u32 (a - b).
Definition wadd64 (a b : Z) : Z := u64 (a + b).
Definition wmul64 (a b : Z) : Z := u64 (a * b).
(** [saturating_sub]. *)
Definition ssub (a b : Z) : Z := Z.max 0 (a - b).

(** [x] is a w-bit unsigned integer. *)
Abbreviation fits w x := (0 <= x < 2 ^ w).

Definition is_byte (b : Z) : Prop := 0 <= b < 256.
Abbreviation bytes_wf bs := (Forall is_byte bs).

(** Rust's [bool as u8] and [x != 0]. *)
Definition b2z (b : bool) : Z := if b then 1 else 0.
Definition nz (x : Z) : bool := negb (x =? 0).

(** ** Byte strings *)

Definition zlen {A} (l : list A) : Z := Z.of_nat (length l).

(** The [n] bytes of [l] from offset [off]. *)
Definition slice {A} (off n : Z) (l : list A) : list A :=
  take (Z.to_nat n) (drop (Z.to_nat off) l).

(** [l] with the bytes from [off] on overwritten by [bs]
    ([copy_nonoverlapping] into a buffer large enough). *)
Definition splice {A} (off : Z) (bs l : list A) : list A :=
  take (Z.to_nat off) l ++ bs ++ drop (Z.to_nat off + length bs) l.

(** [v.to_le_bytes()] at [n] bytes, and [uN::from_le_bytes]. *)
Fixpoint le_bytes (n : nat) (v : Z) : list Z :=
  match n with
  | O => []
  | S n' => v mod 256 :: le_bytes n' (v / 256)
  end.

Fixpoint of_le_bytes (bs : list Z) : Z :=
  match bs with
  | [] => 0
  | b :: bs' => b + 256 * of_le_bytes bs'
  end.

(** [vec![0u8; n]]. *)
Definition zeros (n : Z) : list Z := replicate (Z.to_nat n) 0.

(** ** Loops with an iteration budget

    [iter_until p step s] runs [step] at most [p] times from [s] and stops
    at the first [inl]; the budget is binary, so a budget of 2^32 costs
    nothing once the loop has stopped. *)
Fixpoint iter_until {S R} (p : positive) (step : S -> R + S) (s : S) : R + S :=
  match p with
  | xH => step s
  | xO q =>
      match iter_until q step s with
      | inl r => inl r
      | inr s1 => iter_until q step s1
      end
  | xI q =>
      match step s with
      | inl r => inl r
      | inr s1 =>
          match iter_until q step s1 with
          | inl r => inl r
          | inr s2 => iter_until q step s2
          end
      end
  end.

(** The same loop with a unary budget, the reference [iter_until] is
    proved equal to. *)
Fixpoint iter_nat {S R} (n : nat) (step : S -> R + S) (s : S) : R + S :=
  match n with
  | O => inr s
  | Datatypes.S n' =>
      match step s with
      | inl r => inl r
      | inr s1 => iter_nat n' step s1
      end
  end.

(** ** Tactics *)

(** Case analysis on every comparison of integers in sight. *)
Ltac zcases :=
  repeat match goal with
  | |- context [?a <? ?b] => destruct (Z.ltb_spec a b)
  | |- context [?a <=? ?b] => destruct (Z.leb_spec a b)
  | |- context [?a =? ?b] => destruct (Z.eqb_spec a b)
  | H : context [?a <? ?b] |- _ => destruct (Z.ltb_spec a b)
  | H : context [?a <=? ?b] |- _ => destruct (Z.leb_spec a b)
  | H : context [?a =? ?b] |- _ => destruct (Z.eqb_spec a b)
  end.

(** Unfold the fixed-width operations and close a linear goal. *)
Ltac wsolve :=
  unfold wadd16, wadd32, wsub32, wadd64, wmul64, u8, u16, u32, u64, ssub, is_byte, zlen in *;
  change (2 ^ 8) with 256 in *; change (2 ^ 16) with 65536 in *;
  change (2 ^ 32) with 4294967296 in *;
  change (2 ^ 64) with 18446744073709551616 in *;
  Z.to_euclidean_division_equations; lia.

Create HintDb amber.
Create Rewrite HintDb amber_len.

(** ** Lemmas on widths *)

Lemma u8_range x : fits 8 (u8 x).
Proof. apply Z.mod_pos_bound. lia. Qed.
Lemma u16_range x : fits 16 (u16 x).
Proof. apply Z.mod_pos_bound. lia. Qed.
Lemma u32_range x : fits 32 (u32 x).
Proof. apply Z.mod_pos_bound. lia. Qed.
Lemma u64_range x : fits 64 (u64 x).
Proof. apply Z.mod_pos_bound. lia. Qed.
Lemma u8_id x : fits 8 x -> u8 x = x.
Proof. apply Z.mod_small. Qed.
Lemma u16_id x : fits 16 x -> u16 x = x.
Proof. apply Z.mod_small. Qed.
Lemma u32_id x : fits 32 x -> u32 x = x.
Proof. apply Z.mod_small. Qed.
Lemma u64_id x : fits 64 x -> u64 x = x.
Proof. apply Z.mod_small. Qed.

#[export] Hint Resolve u8_range u16_range u32_range u64_range : amber.

(** Bitwise operations stay within a width. *)
Lemma land_ldiff_split a b : a = Z.land a b + Z.ldiff a b.
Proof.
  rewrite Z.add_nocarry_lxor; apply Z.bits_inj'; intros n Hn;
    rewrite ?Z.lxor_spec, !Z.land_spec, Z.ldiff_spec, ?Z.bits_0;
    by destruct (Z.testbit a n), (Z.testbit b n).
Qed.

Lemma land_range w a b : fits w a -> 0 <= b -> fits w (Z.land a b).
Proof.
  intros Ha Hb. pose proof (land_ldiff_split a b).
  assert (0 <= Z.ldiff a b) by (apply Z.ldiff_nonneg; lia).
  assert (0 <= Z.land a b) by (apply Z.land_nonneg; lia). lia.
Qed.

Lemma ldiff_range w a b : fits w a -> fits w (Z.ldiff a b).
Proof.
  intros Ha. pose proof (land_ldiff_split a b).
  assert (0 <= Z.ldiff a b) by (apply Z.ldiff_nonneg; lia).
  assert (0 <= Z.land a b) by (apply Z.land_nonneg; lia). lia.
Qed.

Lemma lor_range w a b : 0 <= w -> fits w a -> fits w b -> fits w (Z.lor a b).
Proof.
  intros Hw Ha Hb. split; [apply Z.lor_nonneg; lia|].
  destruct (Z.eqb_spec (Z.lor a b) 0) as [->|Hne]; [lia|].
  assert (0 <= Z.lor a b) by (apply Z.lor_nonneg; lia).
  apply Z.log2_lt_pow2; [lia|].
  rewrite Z.log2_lor by lia.
  assert (Hl : forall x, fits w x -> x <> 0 -> Z.log2 x < w)
    by (intros x Hx Hx0; apply Z.log2_lt_pow2; lia).
  destruct (Z.eqb_spec a 0) as [->|]; destruct (Z.eqb_spec b 0) as [->|].
  - rewrite Z.lor_0_l in Hne. lia.
  - specialize (Hl b Hb). cbn. pose proof (Z.log2_nonneg b). lia.
  - specialize (Hl a Ha). pose proof (Z.log2_nonneg a). cbn. lia.
  - pose proof (Hl a Ha). pose proof (Hl b Hb). lia.
Qed.

#[export] Hint Resolve land_range ldiff_range lor_range : amber.

(** ** Lemmas on byte strings *)

Lemma zlen_nonneg {A} (l : list A) : 0 <= zlen l.
Proof. unfold zlen. lia. Qed.
Lemma zlen_app {A} (l k : list A) : zlen (l ++ k) = zlen l + zlen k.
Proof. unfold zlen. rewrite length_app. lia. Qed.
Lemma zlen_nil {A} : zlen (@nil A) = 0.
Proof. done. Qed.
Lemma zlen_cons {A} (x : A) l : zlen (x :: l) = 1 + zlen l.
Proof. unfold zlen. simpl. lia. Qed.
Lemma length_zeros n : length (zeros n) = Z.to_nat n.
Proof. apply length_replicate. Qed.
Lemma zlen_zeros n : 0 <= n -> zlen (zeros n) = n.
Proof. intros. unfold zlen. rewrite length_zeros. lia. Qed.

Lemma length_le_bytes n v : length (le_bytes n v) = n.
Proof. revert v. induction n as [|n IH]; intros v; simpl; auto. Qed.
Lemma zlen_le_bytes n v : zlen (le_bytes n v) = Z.of_nat n.
Proof. unfold zlen. by rewrite length_le_bytes. Qed.

#[export] Hint Rewrite @zlen_app @zlen_nil @zlen_cons zlen_le_bytes length_le_bytes
  length_zeros @length_app @length_take @length_drop : amber_len.

Lemma length_slice {A} off n (l : list A) :
  0 <= off -> 0 <= n -> off + n <= zlen l -> length (slice off n l) = Z.to_nat n.
Proof. unfold slice, zlen. rewrite length_take, length_drop. lia. Qed.

Lemma length_splice {A} off (bs l : list A) :
  0 <= off -> off + zlen bs <= zlen l -> length (splice off bs l) = length l.
Proof. unfold splice, zlen. rewrite !length_app, length_take, length_drop. lia. Qed.

Lemma slice_splice_same {A} off (bs l : list A) :
  0 <= off -> off + zlen bs <= zlen l -> slice off (zlen bs) (splice off bs l) = bs.
Proof.
  unfold slice, splice, zlen. intros H0 H1.
  rewrite drop_app_length', Nat2Z.id by (rewrite length_take; lia).
  by rewrite take_app_length.
Qed.

(** Lookup in an overwritten buffer: the new bytes inside the window, the
    old ones outside. *)
Lemma lookup_splice {A} off (bs l : list A) i :
  0 <= off -> off + zlen bs <= zlen l ->
  splice off bs l !! i =
    if (Z.to_nat off <=? i)%nat && (i <? Z.to_nat off + length bs)%nat
    then bs !! (i - Z.to_nat off)%nat else l !! i.
Proof.
  unfold splice, zlen. intros H0 H1.
  destruct (Nat.leb_spec (Z.to_nat off) i); simpl.
  - rewrite lookup_app_r by (rewrite length_take; lia).
    rewrite length_take, Nat.min_l by lia.
    destruct (Nat.ltb_spec i (Z.to_nat off + length bs)).
    + by rewrite lookup_app_l by lia.
    + rewrite lookup_app_r, lookup_drop by lia. f_equal. lia.
  - rewrite lookup_app_l by (rewrite length_take; lia).
    by rewrite lookup_take_lt by lia.
Qed.

Lemma lookup_slice {A} off n (l : list A) i :
  0 <= off -> 0 <= n ->
  slice off n l !! i = if (i <? Z.to_nat n)%nat then l !! (Z.to_nat off + i)%nat else None.
Proof.
  unfold slice. intros. destruct (Nat.ltb_spec i (Z.to_nat n)).
  - by rewrite lookup_take_lt, lookup_drop by lia.
  - apply lookup_take_ge. lia.
Qed.

Lemma slice_splice_disjoint {A} o n off (bs l : list A) :
  0 <= off -> off + zlen bs <= zlen l -> 0 <= o -> 0 <= n ->
  o + n <= off \/ off + zlen bs <= o ->
  slice o n (splice off bs l) = slice o n l.
Proof.
  intros. apply list_eq; intros i. rewrite !lookup_slice by lia.
  destruct (Nat.ltb_spec i (Z.to_nat n)); [|done].
  rewrite lookup_splice by lia.
  destruct (Nat.leb_spec (Z.to_nat off) (Z.to_nat o + i));
    destruct (Nat.ltb_spec (Z.to_nat o + i) (Z.to_nat off + length bs)); simpl; try done.
  unfold zlen in *. lia.
Qed.

Lemma splice_wf off bs l : bytes_wf bs -> bytes_wf l -> bytes_wf (splice off bs l).
Proof.
  intros. unfold splice.
  apply Forall_app; split; [by apply Forall_take|].
  apply Forall_app; split; [done|by apply Forall_drop].
Qed.

Lemma slice_wf off n l : bytes_wf l -> bytes_wf (slice off n l).
Proof. intros. by apply Forall_take, Forall_drop. Qed.

Lemma zeros_wf n : bytes_wf (zeros n).
Proof. apply Forall_replicate. unfold is_byte. lia. Qed.

Lemma le_bytes_wf n v : bytes_wf (le_bytes n v).
Proof.
  revert v. induction n as [|n IH]; intros v; constructor; auto.
  apply (Z.mod_pos_bound v 256). lia.
Qed.

#[export] Hint Resolve splice_wf slice_wf zeros_wf le_bytes_wf : amber.

Lemma pow256_S n : 256 ^ Z.of_nat (S n) = 256 * 256 ^ Z.of_nat n.
Proof. rewrite Nat2Z.inj_succ, Z.pow_succ_r by lia. done. Qed.

Lemma of_le_bytes_range bs : bytes_wf bs -> 0 <= of_le_bytes bs < 256 ^ zlen bs.
Proof.
  unfold zlen. induction 1 as [|b bs Hb _ IH]; [simpl; lia|].
  change (length (b :: bs)) with (S (length bs)).
  rewrite pow256_S. cbn [of_le_bytes]. unfold is_byte in Hb. lia.
Qed.

(** [from_le_bytes] after [to_le_bytes]: the value modulo the width. *)
Lemma of_le_bytes_le_bytes n v : of_le_bytes (le_bytes n v) = v mod 256 ^ Z.of_nat n.
Proof.
  revert v. induction n as [|n IH]; intros v.
  - simpl. by rewrite Z.mod_1_r.
  - cbn [le_bytes of_le_bytes]. rewrite IH, pow256_S.
    rewrite Z.rem_mul_r by (try apply Z.pow_nonzero; lia). done.
Qed.

Lemma of_le_bytes_le_bytes_id n v :
  0 <= v < 256 ^ Z.of_nat n -> of_le_bytes (le_bytes n v) = v.
Proof. intros. rewrite of_le_bytes_le_bytes. by apply Z.mod_small. Qed.

(** [to_le_bytes] after [from_le_bytes]. *)
Lemma le_bytes_of_le_bytes bs :
  bytes_wf bs -> le_bytes (length bs) (of_le_bytes bs) = bs.
Proof.
  induction 1 as [|b bs Hb _ IH]; [done|]. cbn [length le_bytes of_le_bytes].
  unfold is_byte in Hb. f_equal.
  - rewrite Z.mul_comm, Z.mod_add by lia. by apply Z.mod_small.
  - rewrite Z.mul_comm, Z.div_add, Z.div_small by lia. done.
Qed.

(** ** Lemmas on bounded loops *)

Lemma iter_nat_add {S R} n m (step : S -> R + S) s :
  iter_nat (n + m) step s =
    match iter_nat n step s with inl r => inl r | inr s1 => iter_nat m step s1 end.
Proof. revert s. induction n as [|n IH]; intros s; simpl; [done|]. by destruct (step s). Qed.

Lemma iter_until_nat {S R} p (step : S -> R + S) s :
  iter_until p step s = iter_nat (Pos.to_nat p) step s.
Proof.
  revert s. induction p as [p IH|p IH|]; intros s; cbn [iter_until].
  - rewrite Pos2Nat.inj_xI. cbn [iter_nat]. destruct (step s) as [r|s1]; [done|].
    replace (2 * Pos.to_nat p)%nat with (Pos.to_nat p + Pos.to_nat p)%nat by lia.
    rewrite iter_nat_add, IH. destruct (iter_nat _ _ _); [done|]. apply IH.
  - rewrite Pos2Nat.inj_xO.
    replace (2 * Pos.to_nat p)%nat with (Pos.to_nat p + Pos.to_nat p)%nat by lia.
    rewrite iter_nat_add, IH. destruct (iter_nat _ _ _); [done|]. apply IH.
  - change (Pos.to_nat 1) with 1%nat. cbn [iter_nat]. by destruct (step s).
Qed.


(** An invariant of the body holds of whatever a bounded loop returns. *)
Lemma iter_nat_inv {S R} (P : S -> Prop) (Q : R -> Prop) (step : S -> R + S) n s :
  (forall x, P x -> match step x with inl r => Q r | inr y => P y end) ->
  P s -> match iter_nat n step s with inl r => Q r | inr y => P y end.
Proof.
  intros Hstep. revert s. induction n as [|n IH]; intros s Hs; simpl; [done|].
  specialize (Hstep s Hs). destruct (step s); [done|by apply IH].
Qed.

Lemma iter_until_inv {S R} (P : S -> Prop) (Q : R -> Prop) (step : S -> R + S) p s :
  (forall x, P x -> match step x with inl r => Q r | inr y => P y end) ->
  P s -> match iter_until p step s with inl r => Q r | inr y => P y end.
Proof. intros. rewrite iter_until_nat. by apply iter_nat_inv. Qed.

(** A loop whose body decreases a measure stops within that many steps
    (plus one). *)
Lemma iter_nat_terminates {S R} (P : S -> Prop) (m : S -> nat) (step : S -> R + S) n s :
  (forall x, P x -> match step x with inl r => True | inr y => P y /\ (m y < m x)%nat end) ->
  P s -> (m s < n)%nat -> exists r, iter_nat n step s = inl r.
Proof.
  intros Hstep. revert s. induction n as [|n IH]; intros s Hs Hm; [lia|]. simpl.
  specialize (Hstep s Hs). destruct (step s) as [r|s1]; [eauto|].
  destruct Hstep. apply IH; [done|lia].
Qed.

(** ** Lemmas on lists *)

Lemma list_find_first {A} (f : A -> bool) (l : list A) :
  match List.find f l with
  | Some x => f x = true /\ In x l
  | None => forall y, In y l -> f y = false
  end.
Proof.
  destruct (List.find f l) eqn:E.
  - apply List.find_some in E. tauto.
  - by apply List.find_none.
Qed.

Lemma sum_list_Z_nonneg (l : list Z) : Forall (Z.le 0) l -> 0 <= foldr Z.add 0 l.
Proof. induction 1; simpl; lia. Qed.

Lemma sum_list_Z_bound k (l : list Z) :
  Forall (fun x => 0 <= x <= k) l -> 0 <= foldr Z.add 0 l <= k * zlen l.
Proof.
  induction 1 as [|x l Hx _ IH]; [unfold zlen; simpl; lia|]. rewrite zlen_cons. simpl. nia.
Qed.
