(* ===== verification/Float64.v ===== *)
(** * Float64: what the source computes in [f64]

    The floats are those of the standard library's specification of binary64
    ([SpecFloat]): exact mantissas and exponents, rounded to the nearest with
    ties to even. This file proves about them what the rate limiter and the
    size parser rely on: every operation that does not overflow is within one
    unit in the last place of the exact result ([rounds]), keeps its sign, and
    is exact on integers that fit the mantissa; and comparisons are those of
    the values. *)

From Stdlib Require Import QArith Qpower Qabs Qround Lqa SpecFloat.
From S2P Require Import Prelude.
#[local] Open Scope Z_scope.

(** ** Operations *)

#[local] Abbreviation prec := 53.
#[local] Abbreviation emax := 1024.

Definition f64 : Type := spec_float.
(** [n as f64]. *)
Definition of_Z (n : Z) : f64 := binary_normalize prec emax n 0 false.
Definition fadd (x y : f64) : f64 := SFadd prec emax x y.
Definition fsub (x y : f64) : f64 := SFsub prec emax x y.
Definition fmul (x y : f64) : f64 := SFmul prec emax x y.
Definition fdiv (x y : f64) : f64 := SFdiv prec emax x y.
Definition fneg (x : f64) : f64 := SFopp x.
Definition flt (x y : f64) : bool := SFltb x y.
Definition fle (x y : f64) : bool := SFleb x y.
(** [f64::min]: of a NaN and a number, the number. *)
Definition fmin (x y : f64) : f64 :=
  match x, y with
  | S754_nan, _ => y
  | _, S754_nan => x
  | _, _ => if flt y x then y else x
  end.
Definition is_finite (x : f64) : bool := match x with S754_zero _ | S754_finite _ _ _ => true | _ => false end.
(** [x as usize]: towards zero, saturating, and 0 for a NaN. *)
Definition to_u64 (x : f64) : Z :=
  match x with
  | S754_finite false m e => Z.min (2 ^ 64 - 1) (if 0 <=? e then Zpos m * 2 ^ e else Zpos m / 2 ^ (- e))
  | S754_infinity false => 2 ^ 64 - 1
  | _ => 0
  end.

(** ** Digits and shifts *)

#[local] Abbreviation digits := Zdigits2.
#[local] Abbreviation fe := (fexp prec emax).

Lemma fe_eq e : fe e = Z.max (e - 53) (-1074).
Proof. done. Qed.

Lemma digits_pos p : digits (Zpos p) = Z.log2 (Zpos p) + 1.
Proof.
  assert (E : forall q, digits2_pos q = Pos.size q) by (induction q; cbn; congruence).
  cbn [Zdigits2]. rewrite E. destruct p; cbn [Z.log2 Pos.size]; lia.
Qed.

Lemma digits_bounds m : 0 < m -> 2 ^ (digits m - 1) <= m < 2 ^ digits m.
Proof.
  intros P. destruct m as [|p|p]; [lia| |lia]. rewrite digits_pos. replace (Z.log2 (Zpos p) + 1 - 1) with (Z.log2 (Zpos p)) by lia.
  rewrite Z.add_1_r. by apply Z.log2_spec.
Qed.

Lemma digits_nonneg m : 0 <= digits m.
Proof. destruct m; cbn; lia. Qed.

Lemma digits_unique m d : 0 < d -> 2 ^ (d - 1) <= m < 2 ^ d -> digits m = d.
Proof.
  intros D B. assert (0 < 2 ^ (d - 1)) by (apply Z.pow_pos_nonneg; lia). destruct m as [|p|p]; [lia| |lia].
  rewrite digits_pos. rewrite (Z.log2_unique (Zpos p) (d - 1)); [lia|lia|]. by replace (Z.succ (d - 1)) with d by lia.
Qed.

Lemma digits_le m d : 0 <= m -> 0 <= d -> m < 2 ^ d -> digits m <= d.
Proof.
  intros M D B. destruct (Z.eq_dec m 0) as [->|N]; [done|]. destruct (digits_bounds m) as [L _]; [lia|].
  assert (digits m - 1 < d); [|lia]. apply (Z.pow_lt_mono_r_iff 2); lia.
Qed.

Lemma digits_ge m d : 0 < d -> 2 ^ (d - 1) <= m -> d <= digits m.
Proof.
  intros D B. assert (0 < 2 ^ (d - 1)) by (apply Z.pow_pos_nonneg; lia). destruct (digits_bounds m) as [_ U]; [lia|].
  assert (d - 1 < digits m); [|lia]. apply (Z.pow_lt_mono_r_iff 2); [lia|apply digits_nonneg|lia].
Qed.

Lemma digits_shift m j : 0 < m -> 0 <= j -> digits (m * 2 ^ j) = digits m + j.
Proof.
  intros M J. destruct (digits_bounds m M) as [L U]. pose proof (digits_ge m 1 eq_refl) as G.
  assert (1 <= digits m) by (apply G; cbn; lia). apply digits_unique; [lia|].
  replace (digits m + j - 1) with (digits m - 1 + j) by lia. rewrite !Z.pow_add_r by lia.
  pose proof (Z.pow_pos_nonneg 2 j). nia.
Qed.

Lemma shr_1_spec m r s : 0 <= m -> exists r', shr_1 (Build_shr_record m r s) = Build_shr_record (m / 2) r' (r || s)
  /\ (m mod 2 = 0 -> r' = false).
Proof.
  intros M. destruct m as [|[p|p|]|p]; [| | | |lia]; cbn [shr_1].
  - by exists false.
  - exists true. replace (Zpos p~1 / 2) with (Zpos p) by (apply (Z.div_unique _ _ _ 1); lia). split; [done|].
    intros E. exfalso. revert E. rewrite Pos2Z.inj_xI. Z.to_euclidean_division_equations. lia.
  - exists false. rewrite Pos2Z.inj_xO, (Z.mul_comm 2), Z.div_mul by lia. done.
  - exists true. done.
Qed.

Lemma iter_nat_pos {A} (f : A -> A) p x : SpecFloat.iter_pos f p x = Nat.iter (Pos.to_nat p) f x.
Proof.
  revert x. induction p as [p IH|p IH|]; intros x; cbn [SpecFloat.iter_pos]; [| |done].
  - rewrite !IH, <- Nat.iter_add, <- Nat.iter_succ_r. f_equal. lia.
  - rewrite !IH, <- Nat.iter_add, Pos2Nat.inj_xO. f_equal. lia.
Qed.

(** Shifting right divides, and is exact when the division is. *)
Lemma shr_iter n m r s : 0 <= m -> exists r' s',
  Nat.iter n shr_1 (Build_shr_record m r s) = Build_shr_record (m / 2 ^ Z.of_nat n) r' s'
  /\ (r = false -> s = false -> m mod 2 ^ Z.of_nat n = 0 -> r' = false /\ s' = false).
Proof.
  intros M. induction n as [|n (r1 & s1 & E & X)]; [exists r, s; cbn; by rewrite Z.div_1_r|].
  cbn [Nat.iter nat_rect]. change (nat_rect _ _ _ n) with (Nat.iter n shr_1 (Build_shr_record m r s)). rewrite E.
  assert (P : 0 < 2 ^ Z.of_nat n) by (apply Z.pow_pos_nonneg; lia).
  destruct (shr_1_spec (m / 2 ^ Z.of_nat n) r1 s1) as (r2 & E2 & X2); [apply Z.div_pos; lia|]. exists r2, (r1 || s1).
  rewrite E2, Nat2Z.inj_succ, Z.pow_succ_r by lia. split; [by rewrite (Z.mul_comm 2), <- Z.div_div by lia|].
  intros R S0 D. apply Z.mod_divide in D as [q ->]; [|lia].
  replace (q * (2 * 2 ^ Z.of_nat n)) with (q * 2 * 2 ^ Z.of_nat n) in * by ring.
  destruct X as [-> ->]; [done|done|by apply Z_mod_mult|]. split; [|done]. apply X2.
  rewrite Z.div_mul by lia. by apply Z_mod_mult.
Qed.

Lemma loc_back m l : loc_of_shr_record (shr_record_of_loc m l) = l.
Proof. by destruct l as [|[]]. Qed.

Lemma shr_fexp_spec m e l : 0 <= m -> let k := Z.max 0 (fe (digits m + e) - e) in
  exists rec, shr_fexp prec emax m e l = (rec, e + k) /\ shr_m rec = m / 2 ^ k
  /\ (l = loc_Exact -> m mod 2 ^ k = 0 -> loc_of_shr_record rec = loc_Exact).
Proof.
  intros M k. unfold shr_fexp, shr, k. set (n := fe (digits m + e) - e). clearbody n. clear k. destruct n as [|p|p].
  - exists (shr_record_of_loc m l). rewrite Z.max_id, Z.add_0_r, loc_back. split; [done|]. split; [|done].
    rewrite Z.div_1_r. by destruct l as [|[]].
  - replace (Z.max 0 (Zpos p)) with (Z.of_nat (Pos.to_nat p)) by lia. rewrite iter_nat_pos.
    assert (R : exists r s, shr_record_of_loc m l = Build_shr_record m r s /\ (l = loc_Exact -> r = false /\ s = false)).
    { destruct l as [|[]]; do 2 eexists; by split. }
    destruct R as (r & s & -> & X). destruct (shr_iter (Pos.to_nat p) m r s M) as (r' & s' & -> & Y).
    eexists. rewrite positive_nat_Z. split; [done|]. split; [done|].
    intros Lx D. destruct (X Lx) as [-> ->]. rewrite positive_nat_Z in Y. by destruct (Y eq_refl eq_refl D) as [-> ->].
  - exists (shr_record_of_loc m l). cbn [Z.max Z.compare]. rewrite Z.add_0_r, loc_back. split; [done|]. split; [|done].
    rewrite Z.div_1_r. by destruct l as [|[]].
Qed.

(** ** Rounding *)

(** The mantissas and exponents a float can have, and the float of one. *)
Definition canon (M E : Z) : Prop := 0 <= M < 2 ^ 53 /\ -1074 <= E /\ (M < 2 ^ 52 -> E = -1074).
Definition pack (s : bool) (M E : Z) : f64 :=
  match M with
  | Zpos p => if E <=? 971 then S754_finite s p E else S754_infinity s
  | _ => S754_zero s
  end.

(** The mantissa after the first shift. *)
Lemma first_shift m e : 0 <= m -> e <= fe (digits m + e) -> let k := fe (digits m + e) - e in
  canon (m / 2 ^ k) (e + k).
Proof.
  intros M Le k. rewrite fe_eq in Le. assert (Ek : k = Z.max (digits m + e - 53) (-1074) - e) by done. clearbody k.
  assert (K : 0 <= k) by lia. pose proof (Z.pow_pos_nonneg 2 k eq_refl K) as P2. assert (Q0 : 0 <= m / 2 ^ k) by (apply Z.div_pos; lia).
  destruct (Z.eq_dec m 0) as [->|N].
  { rewrite Z.div_0_l by lia. unfold canon. cbn [digits] in *. lia. }
  destruct (digits_bounds m) as [L U]; [lia|]. pose proof (digits_nonneg m) as D0.
  assert (G : 1 <= digits m) by (apply digits_ge; cbn; lia).
  assert (B : m / 2 ^ k < 2 ^ 53).
  { apply Z.div_lt_upper_bound; [lia|]. rewrite <- Z.pow_add_r by lia.
    eapply Z.lt_le_trans; [exact U|]. apply Z.pow_le_mono_r; lia. }
  unfold canon. split; [lia|]. split; [lia|]. intros S.
  destruct (Z.max_spec (digits m + e - 53) (-1074)) as [[_ E]|[_ E]]; [lia|].
  exfalso. assert (2 ^ 52 <= m / 2 ^ k); [|lia]. apply Z.div_le_lower_bound; [lia|]. rewrite <- Z.pow_add_r by lia.
  replace (k + 52) with (digits m - 1) by lia. lia.
Qed.

(** The second shift only renormalises a mantissa that rounding filled. *)
Lemma second_shift s M E : 0 <= M <= 2 ^ 53 -> -1074 <= E -> (M < 2 ^ 52 -> E = -1074) ->
  exists M' E', (let '(rec, e) := shr_fexp prec emax M E loc_Exact in
    match shr_m rec with Z0 => S754_zero s | Zpos p => if e <=? emax - prec then S754_finite s p e else S754_infinity s | _ => S754_nan end)
    = pack s M' E' /\ canon M' E' /\ E <= E' <= E + 1 /\ M' * 2 ^ (E' - E) = M /\ (M < 2 ^ 53 -> E' = E).
Proof.
  intros B E0 N. pose proof (shr_fexp_spec M E loc_Exact) as (rec & Er & Em & _); [lia|]. rewrite Er.
  assert (Pk : forall K, E + K = E + K -> 0 <= M / 2 ^ K -> shr_m rec = M / 2 ^ K ->
    match shr_m rec with Z0 => S754_zero s | Zpos p => if E + K <=? emax - prec then S754_finite s p (E + K) else S754_infinity s | _ => S754_nan end
    = pack s (M / 2 ^ K) (E + K)).
  { intros K _ P ->. unfold pack. by destruct (M / 2 ^ K). }
  destruct (Z.eq_dec M (2 ^ 53)) as [->|Ne].
  - assert (Ed : digits (2 ^ 53) = 54) by reflexivity. rewrite Ed, fe_eq in Em |- *.
    replace (Z.max 0 (Z.max (54 + E - 53) (-1074) - E)) with 1 in * by lia.
    exists (2 ^ 52), (E + 1). rewrite Em. replace (E + 1 - E) with 1 by lia. unfold canon.
    split; [reflexivity|]. split; [lia|]. split; [lia|]. split; [reflexivity|lia].
  - pose proof (digits_le M 53) as D. rewrite fe_eq in Em |- *.
    replace (Z.max 0 (Z.max (digits M + E - 53) (-1074) - E)) with 0 in * by lia.
    exists M, E. rewrite (Pk 0 eq_refl) by (done || (change (2 ^ 0) with 1; rewrite Z.div_1_r; lia)). change (2 ^ 0) with 1. rewrite Z.div_1_r, Z.add_0_r, Z.sub_diag, Z.mul_1_r.
    unfold canon. split; [done|]. split; [lia|]. split; [lia|]. split; done.
Qed.

Lemma round_nearest_near m l : round_nearest_even m l = m \/ round_nearest_even m l = m + 1.
Proof. destruct l as [|[]]; cbn; auto. destruct (Z.even m); auto. Qed.

Lemma round_aux_spec s m e l : 0 <= m -> e <= fe (digits m + e) -> exists M E,
  binary_round_aux prec emax s m e l = pack s M E /\ canon M E /\ e <= E
  /\ M * 2 ^ (E - e) <= m + 2 ^ (E - e) /\ m + 1 <= M * 2 ^ (E - e) + 2 ^ (E - e)
  /\ (l = loc_Exact -> m mod 2 ^ (fe (digits m + e) - e) = 0 -> M * 2 ^ (E - e) = m)
  /\ let k := fe (digits m + e) - e in let q := m / 2 ^ k in
     l = loc_Exact -> M * 2 ^ (E - e) = q * 2 ^ k \/ M * 2 ^ (E - e) = (q + 1) * 2 ^ k /\ q * 2 ^ k < m.
Proof.
  intros Mn Le. pose proof (first_shift m e Mn Le) as C. cbv zeta in C. set (k := fe (digits m + e) - e) in *.
  assert (K : 0 <= k) by (unfold k; lia). pose proof (Z.pow_pos_nonneg 2 k eq_refl K) as P2.
  pose proof (shr_fexp_spec m e l Mn) as (rec & Er & Em & Ex). cbv zeta in Er, Em, Ex. fold k in Er, Em, Ex.
  rewrite Z.max_r in Er, Em, Ex by done. unfold binary_round_aux. rewrite Er. set (q := m / 2 ^ k) in *.
  assert (R : round_nearest_even (shr_m rec) (loc_of_shr_record rec) = q \/ round_nearest_even (shr_m rec) (loc_of_shr_record rec) = q + 1)
    by (rewrite Em; apply round_nearest_near).
  assert (Rx : l = loc_Exact -> m mod 2 ^ k = 0 -> round_nearest_even (shr_m rec) (loc_of_shr_record rec) = q)
    by (intros A B; by rewrite Ex, Em).
  set (M2 := round_nearest_even (shr_m rec) (loc_of_shr_record rec)) in *. clearbody M2. destruct C as (Cq & Ce & Cs).
  destruct (second_shift s M2 (e + k)) as (M & E & -> & Cn & Be & Ev & _); [lia|lia|intros S; apply Cs; lia|].
  exists M, E. split; [done|]. split; [done|]. split; [lia|].
  assert (Ev' : M * 2 ^ (E - e) = M2 * 2 ^ k).
  { replace (E - e) with (E - (e + k) + k) by lia. rewrite Z.pow_add_r, Z.mul_assoc, Ev by lia. done. }
  assert (P3 : 2 ^ k <= 2 ^ (E - e)) by (apply Z.pow_le_mono_r; lia). rewrite Ev'.
  pose proof (Z.div_mod m (2 ^ k)) as Dm. fold q in Dm. pose proof (Z.mod_pos_bound m (2 ^ k)) as Bm.
  split; [nia|]. split; [nia|]. split; [intros A B; rewrite (Rx A B), Dm by lia; rewrite B; lia|].
  cbv zeta. fold k q. intros A. destruct (Z.eq_dec (m mod 2 ^ k) 0) as [B|B]; [left; by rewrite (Rx A B)|].
  destruct R as [-> | ->]; [by left|right]. split; [done|lia].
Qed.

(** Aligned first, as sums and integers are. *)
Lemma binary_round_spec s p e : exists m e', binary_round prec emax s p e = binary_round_aux prec emax s m e' loc_Exact
  /\ 0 < m /\ e' <= e /\ m = Zpos p * 2 ^ (e - e') /\ e' <= fe (digits m + e') /\ (e' < e -> e' = fe (digits m + e')).
Proof.
  unfold binary_round, shl_align. set (g := fe (Zpos (digits2_pos p) + e)).
  assert (I : forall d, Zpos (Pos.iter xO p d) = Zpos p * 2 ^ Zpos d).
  { intros d. induction d as [|d IH] using Pos.peano_ind; [cbn; lia|]. rewrite Pos.iter_succ, Pos2Z.inj_succ, Z.pow_succ_r by lia.
    rewrite Pos2Z.inj_xO, IH. ring. }
  destruct (g - e) as [|d|d] eqn:D.
  1,2: exists (Zpos p), e; rewrite Z.sub_diag, Z.mul_1_r; cbn [digits]; fold g; repeat (split; [done || lia|]); lia.
  exists (Zpos (Pos.iter xO p d)), g. split; [done|]. split; [lia|]. split; [lia|].
  replace (e - g) with (Zpos d) by lia. split; [apply I|]. rewrite I.
  assert (Eg : fe (digits (Zpos p * 2 ^ Zpos d) + g) = g).
  { rewrite digits_shift by lia. cbn [digits]. replace (Zpos (digits2_pos p) + Zpos d + g) with (Zpos (digits2_pos p) + e) by lia. done. }
  rewrite Eg. lia.
Qed.

(** ** Values *)

Definition pow2 (e : Z) : Q := Qpower 2 e.
Definition unit_ (s : bool) : Z := if s then -1 else 1.
Definition val (x : f64) : Q :=
  match x with S754_finite s m e => inject_Z (unit_ s * Zpos m) * pow2 e | _ => 0 end.
(** A number: not infinite, not a NaN, and as arithmetic leaves it. *)
Definition number (x : f64) : Prop :=
  match x with S754_zero _ => True | S754_finite _ m e => canon (Zpos m) e /\ e <= 971 | _ => False end.

(** The relative error of one operation and the smallest number. *)
Definition ulp1 : Q := pow2 (-52).
Definition eta : Q := pow2 (-1074).

(** [r] is [x] up to the last place, on the same side of zero. *)
Definition rounds (r : f64) (x : Q) : Prop :=
  number r /\ (Qabs (val r - x) <= Qabs (val r) * ulp1 + eta)%Q /\ (0 <= x -> 0 <= val r)%Q /\ (x <= 0 -> val r <= 0)%Q.

Lemma pow2_pos e : (0 < pow2 e)%Q.
Proof. unfold pow2. by apply Qpower_0_lt. Qed.
Lemma pow2_add a b : pow2 (a + b) == pow2 a * pow2 b.
Proof. apply Qpower_plus. discriminate. Qed.
Lemma pow2_Z k : 0 <= k -> pow2 k == inject_Z (2 ^ k).
Proof. intros K. unfold pow2. by rewrite Zpower_Qpower. Qed.
Lemma pow2_le a b : a <= b -> (pow2 a <= pow2 b)%Q.
Proof. intros L. unfold pow2. by apply Qpower_le_compat_l. Qed.
(** A mantissa moved to another exponent. *)
Lemma pow2_shift M e E : e <= E -> inject_Z M * pow2 E == inject_Z (M * 2 ^ (E - e)) * pow2 e.
Proof.
  intros L. rewrite inject_Z_mult, <- pow2_Z by lia. rewrite <- Qmult_assoc, <- pow2_add.
  replace (E - e + e) with E by lia. reflexivity.
Qed.
Lemma pow2_down e E : e <= E -> inject_Z (2 ^ (E - e)) * pow2 e == pow2 E.
Proof. intros L. rewrite <- pow2_Z, <- pow2_add by lia. replace (E - e + e) with E by lia. reflexivity. Qed.
Lemma inject_le a b : a <= b -> (inject_Z a <= inject_Z b)%Q.
Proof. by rewrite <- Zle_Qle. Qed.
Lemma inject_pow2_le a b e : a <= b -> (inject_Z a * pow2 e <= inject_Z b * pow2 e)%Q.
Proof. intros L. apply Qmult_le_compat_r; [by apply inject_le|]. apply Qlt_le_weak, pow2_pos. Qed.
Lemma inject_pow2_nonneg m e : 0 <= m -> (0 <= inject_Z m * pow2 e)%Q.
Proof. intros M. apply Qmult_le_0_compat; [by apply (inject_le 0)|apply Qlt_le_weak, pow2_pos]. Qed.

Lemma canon_unit M E : canon M E -> (pow2 E <= inject_Z M * pow2 E * ulp1 + eta)%Q.
Proof.
  intros ((M0 & _) & E0 & N). unfold ulp1, eta. pose proof (pow2_pos E). pose proof (pow2_pos (-52)). pose proof (pow2_pos (-1074)).
  destruct (Z.le_gt_cases (2 ^ 52) M) as [L|L].
  - pose proof (inject_pow2_le (2 ^ 52) M E L) as P. rewrite <- (pow2_Z 52) in P by lia.
    assert (Eq : pow2 E == pow2 52 * pow2 E * pow2 (-52)).
    { rewrite <- !pow2_add. replace (52 + E + -52) with E by lia. reflexivity. }
    assert (Q2 : (pow2 52 * pow2 E * pow2 (-52) <= inject_Z M * pow2 E * pow2 (-52))%Q) by (apply Qmult_le_compat_r; [done|by apply Qlt_le_weak]).
    lra.
  - rewrite (N L). assert (0 <= inject_Z M * pow2 (-1074) * pow2 (-52))%Q; [|lra].
    apply Qmult_le_0_compat; [|lra]. apply Qmult_le_0_compat; [|lra]. by apply (inject_le 0).
Qed.

Lemma unit_mul s M : inject_Z (unit_ s * M) == inject_Z (unit_ s) * inject_Z M.
Proof. rewrite inject_Z_mult. reflexivity. Qed.
Lemma val_pack s M E : canon M E -> E <= 971 -> number (pack s M E) /\ val (pack s M E) == inject_Z (unit_ s * M) * pow2 E.
Proof.
  intros C L. pose proof (proj1 C) as (C0 & _). unfold pack. destruct M as [|p|p]; [|rewrite (proj2 (Z.leb_le _ _) L)|lia].
  - split; [exact I|]. cbn [val]. rewrite Z.mul_0_r. ring.
  - split; [by split|reflexivity].
Qed.

Lemma Qabs_unit s x : (0 <= x)%Q -> Qabs (inject_Z (unit_ s) * x) == x.
Proof.
  intros P. rewrite Qabs_Qmult, (Qabs_pos x P). assert (E : Qabs (inject_Z (unit_ s)) == 1) by (by destruct s). rewrite E. ring.
Qed.

(** Rounding a magnitude between [m] and [m+1] units that is not near the
    largest numbers. *)
Lemma round_aux_rounds s m e l X : 0 <= m -> e <= fe (digits m + e) ->
  (inject_Z m * pow2 e <= X)%Q -> (X <= inject_Z (m + 1) * pow2 e)%Q -> (0 < X < pow2 1023)%Q ->
  rounds (binary_round_aux prec emax s m e l) (inject_Z (unit_ s) * X).
Proof.
  intros Mn Le Lo Hi [X0 Big]. destruct (round_aux_spec s m e l Mn Le) as (M & E & -> & C & Ee & Up & Dn & _).
  assert (U : (inject_Z M * pow2 E <= X + pow2 E)%Q).
  { apply (inject_pow2_le _ _ e) in Up. rewrite inject_Z_plus, Qmult_plus_distr_l, <- (pow2_shift M) in Up by lia.
    rewrite pow2_down in Up by lia. lra. }
  assert (D : (X <= inject_Z M * pow2 E + pow2 E)%Q).
  { apply (inject_pow2_le _ _ e) in Dn. rewrite (inject_Z_plus (M * _)), Qmult_plus_distr_l, <- (pow2_shift M) in Dn by lia.
    rewrite pow2_down in Dn by lia. lra. }
  pose proof (canon_unit M E C) as Un.
  assert (M0 : (0 <= inject_Z M * pow2 E)%Q) by (apply inject_pow2_nonneg, C).
  assert (L : E <= 971).
  { destruct (Z.le_gt_cases E 971) as [|G]; [done|exfalso]. assert (G2 : 2 ^ 52 <= M) by (destruct C as (_ & _ & N); lia).
    pose proof (inject_pow2_le (2 ^ 51 + 1) M E ltac:(lia)) as P.
    rewrite inject_Z_plus, Qmult_plus_distr_l, <- (pow2_Z 51), <- pow2_add in P by lia.
    pose proof (pow2_le 1023 (51 + E) ltac:(lia)). change (inject_Z 1) with 1%Q in P. lra. }
  destruct (val_pack s M E C L) as [Nu V]. split; [exact Nu|]. rewrite V, unit_mul, <- Qmult_assoc.
  split; [|destruct s; cbn [unit_]; change (inject_Z (-1)) with (-(1))%Q; change (inject_Z 1) with 1%Q; split; intros; lra].
  rewrite Qabs_unit by done. assert (Eq : inject_Z (unit_ s) * (inject_Z M * pow2 E) - inject_Z (unit_ s) * X
    == inject_Z (unit_ s) * (inject_Z M * pow2 E - X)) by ring.
  rewrite Eq, Qabs_Qmult. assert (Us : Qabs (inject_Z (unit_ s)) == 1) by (by destruct s). rewrite Us, Qmult_1_l.
  apply Qabs_Qle_condition. split; lra.
Qed.

#[export] Instance rounds_proper r : Proper (Qeq ==> iff) (rounds r).
Proof. intros x y E. unfold rounds. by rewrite E. Qed.

Lemma rounds_zero r : val r == 0 -> number r -> rounds r 0.
Proof.
  intros V N. split; [done|]. rewrite V. split; [|split; intros; lra]. pose proof (pow2_pos (-1074)). unfold eta.
  change (Qabs (0 - 0)) with 0%Q. change (Qabs 0) with 0%Q. lra.
Qed.

Lemma unit_sgn p (s : bool) : (if s then Zneg p else Zpos p) = unit_ s * Zpos p.
Proof. by destruct s. Qed.

Lemma binary_round_rounds s p e : (inject_Z (Zpos p) * pow2 e < pow2 1023)%Q ->
  rounds (binary_round prec emax s p e) (inject_Z (unit_ s * Zpos p) * pow2 e).
Proof.
  intros B. destruct (binary_round_spec s p e) as (m & e' & -> & M & L & Em & Le & _).
  assert (Ev : inject_Z m * pow2 e' == inject_Z (Zpos p) * pow2 e) by (rewrite Em, (pow2_shift _ e' e) by lia; reflexivity).
  rewrite unit_mul, <- Qmult_assoc, <- Ev. rewrite <- Ev in B.
  pose proof (inject_pow2_le m (m + 1) e'). pose proof (inject_pow2_le 1 m e'). pose proof (pow2_pos e'). change (inject_Z 1) with 1%Q in *.
  apply round_aux_rounds; [lia|done|lra|apply H; lia|]. split; [|done]. assert (1 * pow2 e' <= inject_Z m * pow2 e')%Q by (apply H0; lia). lra.
Qed.

Lemma normalize_rounds n e b : (Qabs (inject_Z n * pow2 e) < pow2 1023)%Q ->
  rounds (binary_normalize prec emax n e b) (inject_Z n * pow2 e).
Proof.
  intros B. destruct n as [|p|p]; cbn [binary_normalize].
  - assert (Z0 : inject_Z 0 * pow2 e == 0) by (change (inject_Z 0) with 0%Q; ring). rewrite Z0. by apply rounds_zero.
  - apply (binary_round_rounds false). rewrite Qabs_pos in B; [done|]. by apply inject_pow2_nonneg.
  - apply (binary_round_rounds true). revert B. change (Zneg p) with (unit_ true * Zpos p). rewrite unit_mul, <- Qmult_assoc, Qabs_unit; [done|].
    by apply inject_pow2_nonneg.
Qed.

(** Rounding is exact when the mantissa has room for what is rounded. *)
Lemma round_aux_exact s m e N j : 0 < m -> e <= fe (digits m + e) -> e <= j -> m = N * 2 ^ (j - e) -> N < 2 ^ 53 -> -1074 <= j <= 971 ->
  number (binary_round_aux prec emax s m e loc_Exact) /\ val (binary_round_aux prec emax s m e loc_Exact) == inject_Z (unit_ s * N) * pow2 j.
Proof.
  intros M Le L Em B Bj. pose proof (Z.pow_pos_nonneg 2 (j - e) eq_refl ltac:(lia)) as P. assert (N0 : 0 < N) by nia.
  destruct (round_aux_spec s m e loc_Exact) as (M' & E & -> & C & Ee & _ & _ & X & _); [lia|done|].
  assert (K : fe (digits m + e) <= j).
  { rewrite Em, digits_shift, fe_eq by lia. pose proof (digits_le N 53 ltac:(lia) ltac:(lia) B). lia. }
  specialize (X eq_refl). assert (D : m mod 2 ^ (fe (digits m + e) - e) = 0).
  { rewrite Em at 1. replace (j - e) with (j - fe (digits m + e) + (fe (digits m + e) - e)) by lia.
    rewrite Z.pow_add_r, Z.mul_assoc by lia. apply Z_mod_mult. }
  specialize (X D). assert (L971 : E <= 971).
  { destruct (Z.le_gt_cases E 971) as [|G]; [done|exfalso]. assert (2 ^ 52 <= M') by (destruct C as (_ & _ & Nn); lia).
    assert (2 ^ 1 <= 2 ^ (E - j)) by (apply Z.pow_le_mono_r; lia).
    replace (E - e) with (E - j + (j - e)) in X by lia. rewrite Z.pow_add_r, Z.mul_assoc in X by lia.
    rewrite Em in X. apply Z.mul_reg_r in X; [nia|lia]. }
  destruct (val_pack s M' E C L971) as [Nu V]. split; [done|]. rewrite V, !unit_mul, <- !Qmult_assoc.
  rewrite (pow2_shift M' e E), X by lia. rewrite Em, (pow2_shift N e j) by lia. reflexivity.
Qed.

Lemma normalize_exact n e b : Z.abs n < 2 ^ 53 -> -1074 <= e <= 971 ->
  number (binary_normalize prec emax n e b) /\ val (binary_normalize prec emax n e b) == inject_Z n * pow2 e.
Proof.
  intros B Be. assert (R : forall s p, Zpos p < 2 ^ 53 -> number (binary_round prec emax s p e)
    /\ val (binary_round prec emax s p e) == inject_Z (unit_ s * Zpos p) * pow2 e).
  { intros s p P. destruct (binary_round_spec s p e) as (m & e' & -> & M & L & Em & Le & _). by apply round_aux_exact. }
  destruct n as [|p|p]; [|apply (R false); lia|apply (R true); lia]. split; [exact I|]. cbn [val binary_normalize].
  change (inject_Z 0) with 0%Q. ring.
Qed.

Lemma of_Z_exact n : Z.abs n < 2 ^ 53 -> number (of_Z n) /\ val (of_Z n) == inject_Z n.
Proof.
  intros B. destruct (normalize_exact n 0 false B) as [N V]; [lia|]. split; [exact N|]. unfold of_Z. rewrite V.
  change (pow2 0) with 1%Q. ring.
Qed.

Lemma of_Z_rounds n : Z.abs n <= 2 ^ 64 -> rounds (of_Z n) (inject_Z n).
Proof.
  intros B. assert (E : inject_Z n == inject_Z n * pow2 0) by (change (pow2 0) with 1%Q; ring). rewrite E. apply normalize_rounds.
  rewrite <- E. apply (Qle_lt_trans _ (inject_Z (2 ^ 64))); [|reflexivity].
  apply Qabs_Qle_condition. rewrite <- inject_Z_opp, <- !Zle_Qle. lia.
Qed.

(** ** Arithmetic *)

Lemma rounds_exact r x : number r -> val r == x -> rounds r x.
Proof.
  intros N <-. split; [done|]. split; [|done]. assert (E : Qabs (val r - val r) == 0).
  { assert (D : val r - val r == 0) by ring. by rewrite D. }
  rewrite E. pose proof (Qabs_nonneg (val r)). pose proof (pow2_pos (-52)). pose proof (pow2_pos (-1074)). unfold ulp1, eta.
  assert (0 <= Qabs (val r) * pow2 (-52))%Q by (apply Qmult_le_0_compat; lra). lra.
Qed.

Lemma val_neg x : val (fneg x) == - val x.
Proof.
  destruct x as [s|s| |s m e]; [done..|]. cbn [val fneg SFopp]. rewrite !unit_mul. destruct s; cbn [negb unit_];
    change (inject_Z (-1)) with (-(1))%Q; change (inject_Z 1) with 1%Q; ring.
Qed.
Lemma number_neg x : number x -> number (fneg x).
Proof. by destruct x. Qed.

Lemma shl_align_spec m e ez : ez <= e -> Zpos (fst (shl_align m e ez)) = Zpos m * 2 ^ (e - ez).
Proof.
  intros L. unfold shl_align. destruct (ez - e) as [|d|d] eqn:D; [|lia|].
  - replace (e - ez) with 0 by lia. cbn [fst]. lia.
  - replace (e - ez) with (Zpos d) by lia. cbn [fst]. clear. induction d as [|d IH] using Pos.peano_ind; [cbn; lia|].
    rewrite Pos.iter_succ, Pos2Z.inj_succ, Z.pow_succ_r by lia. rewrite Pos2Z.inj_xO, IH. ring.
Qed.

Lemma cond_Zopp_unit s m : cond_Zopp s m = unit_ s * m.
Proof. destruct s; cbn [cond_Zopp unit_]; lia. Qed.

Lemma fadd_rounds x y : number x -> number y -> (Qabs (val x + val y) < pow2 1023)%Q -> rounds (fadd x y) (val x + val y).
Proof.
  intros Nx Ny B. destruct x as [sx|sx| |sx mx ex], y as [sy|sy| |sy my ey]; try done; unfold fadd; cbn [SFadd].
  - apply rounds_exact; [by destruct sx, sy|]. by destruct sx, sy.
  - apply rounds_exact; [done|]. cbn [val]. ring.
  - apply rounds_exact; [done|]. cbn [val]. ring.
  - rewrite !cond_Zopp_unit, !shl_align_spec by lia. set (ez := Z.min ex ey).
    assert (E : val (S754_finite sx mx ex) + val (S754_finite sy my ey)
      == inject_Z (unit_ sx * (Zpos mx * 2 ^ (ex - ez)) + unit_ sy * (Zpos my * 2 ^ (ey - ez))) * pow2 ez).
    { cbn [val]. rewrite inject_Z_plus, Qmult_plus_distr_l, !unit_mul, <- !Qmult_assoc, <- !pow2_shift by lia. reflexivity. }
    rewrite E in B |- *. by apply normalize_rounds.
Qed.

Lemma fsub_neg x y : fsub x y = fadd x (fneg y).
Proof.
  destruct x as [[]|[]| |sx mx ex], y as [[]|[]| |sy my ey]; try done. unfold fsub, fadd, fneg. cbn [SFsub SFadd SFopp].
  f_equal. rewrite !cond_Zopp_unit. destruct sy; cbn [unit_ negb]; lia.
Qed.
Lemma fsub_rounds x y : number x -> number y -> (Qabs (val x - val y) < pow2 1023)%Q -> rounds (fsub x y) (val x - val y).
Proof.
  intros Nx Ny B. rewrite fsub_neg. assert (E : val x - val y == val x + val (fneg y)) by (rewrite val_neg; ring).
  rewrite E in B |- *. apply fadd_rounds; [done|by apply number_neg|done].
Qed.

(** The digits of a product suffice. *)
Lemma product_room mx my ex ey : canon (Zpos mx) ex -> canon (Zpos my) ey ->
  ex + ey <= fe (digits (Zpos mx * Zpos my) + (ex + ey)).
Proof.
  intros (_ & Ex & Nx) (_ & Ey & Ny). rewrite fe_eq.
  destruct (Z.le_gt_cases (2 ^ 52) (Zpos mx)) as [L|L].
  - pose proof (digits_ge (Zpos mx * Zpos my) 53 ltac:(lia) ltac:(cbn in *; nia)). lia.
  - destruct (Z.le_gt_cases (2 ^ 52) (Zpos my)) as [L'|L']; [|specialize (Nx L); specialize (Ny L'); lia].
    pose proof (digits_ge (Zpos mx * Zpos my) 53 ltac:(lia) ltac:(cbn in *; nia)). lia.
Qed.

Lemma xorb_unit a b : unit_ (xorb a b) = unit_ a * unit_ b.
Proof. by destruct a, b. Qed.

Lemma fmul_rounds x y : number x -> number y -> (Qabs (val x * val y) < pow2 1023)%Q -> rounds (fmul x y) (val x * val y).
Proof.
  intros Nx Ny B. destruct x as [sx|sx| |sx mx ex], y as [sy|sy| |sy my ey]; try done; unfold fmul; cbn [SFmul];
    [apply rounds_exact; [done|cbn [val]; ring]..|].
  set (X := (inject_Z (Zpos mx * Zpos my) * pow2 (ex + ey))%Q).
  assert (E : val (S754_finite sx mx ex) * val (S754_finite sy my ey) == inject_Z (unit_ (xorb sx sy)) * X).
  { unfold X. cbn [val]. rewrite xorb_unit, pow2_add, !unit_mul, !inject_Z_mult. ring. }
  assert (P : (0 < X)%Q) by (unfold X; apply Qmult_lt_0_compat; [by rewrite <- (Zlt_Qlt 0)|apply pow2_pos]).
  rewrite E in B |- *. rewrite Qabs_unit in B by lra. apply round_aux_rounds; [lia|apply product_room; [apply Nx|apply Ny]| | |done].
  - unfold X. rewrite Pos2Z.inj_mul. lra.
  - apply inject_pow2_le. lia.
Qed.

(** The quotient's digits suffice, and it is the exact one's integer part. *)
Lemma div_core m1 e1 m2 e2 q e' l : 0 < m1 -> 0 < m2 -> SFdiv_core_binary prec emax m1 e1 m2 e2 = (q, e', l) ->
  0 <= q /\ e' <= fe (digits q + e') /\ exists s, 0 <= s /\ e' = e1 - e2 - s /\ q = m1 * 2 ^ s / m2.
Proof.
  intros M1 M2. unfold SFdiv_core_binary. set (g := fe (digits m1 + e1 - (digits m2 + e2))).
  set (e := Z.min g (e1 - e2)). set (s := e1 - e2 - e). assert (S0 : 0 <= s) by lia.
  assert (Es : match s with Zpos _ => Z.shiftl m1 s | Z0 => m1 | Zneg _ => 0 end = m1 * 2 ^ s).
  { destruct s as [|p|p] eqn:Ep; [by rewrite Z.mul_1_r|by rewrite Z.shiftl_mul_pow2 by lia|lia]. }
  rewrite Es. unfold Z.div at 1. pose proof (Z.pow_pos_nonneg 2 s eq_refl S0) as P.
  destruct (Z.div_eucl (m1 * 2 ^ s) m2) as [q0 r0] eqn:D. intros [= <- <- _].
  assert (Eq : q0 = m1 * 2 ^ s / m2) by (unfold Z.div; by rewrite D). clear D.
  assert (Q0 : 0 <= q0) by (rewrite Eq; apply Z.div_pos; nia). split; [done|]. split.
  - destruct (digits_bounds m1 M1) as [L1 _]. destruct (digits_bounds m2 M2) as [_ U2]. pose proof (digits_nonneg m2) as D2.
    pose proof (digits_nonneg q0) as Dq. assert (G1 : 1 <= digits m1) by (apply digits_ge; cbn; lia).
    assert (Dl : digits m1 + s - digits m2 <= digits q0).
    { destruct (Z.le_gt_cases (digits m1 + s - digits m2) 0) as [|G]; [lia|]. apply digits_ge; [lia|]. rewrite Eq.
      apply Z.div_le_lower_bound; [lia|]. apply (Z.le_trans _ (2 ^ digits m2 * 2 ^ (digits m1 + s - digits m2 - 1))).
      - apply Z.mul_le_mono_nonneg_r; [apply Z.pow_nonneg; lia|lia].
      - rewrite <- Z.pow_add_r by lia. replace (digits m2 + (digits m1 + s - digits m2 - 1)) with (digits m1 - 1 + s) by lia.
        rewrite Z.pow_add_r by lia. by apply Z.mul_le_mono_nonneg_r; [lia|]. }
    rewrite fe_eq. assert (Eg : g = Z.max (digits m1 + e1 - (digits m2 + e2) - 53) (-1074)) by done. clearbody g.
    clear Es Eq. unfold s in Dl. clear - Dl Eg. lia.
  - exists s. split; [done|]. split; [unfold s; lia|done].
Qed.

Lemma fdiv_rounds x y : number x -> number y -> ~ val y == 0 -> (Qabs (val x / val y) < pow2 1023)%Q -> rounds (fdiv x y) (val x / val y).
Proof.
  intros Nx Ny Y0 B. destruct y as [sy|sy| |sy my ey]; try done.
  destruct x as [sx|sx| |sx mx ex]; try done; unfold fdiv; cbn [SFdiv].
  destruct (SFdiv_core_binary _ _ _ _ _ _) as [[q e'] l] eqn:D.
  destruct (div_core (Zpos mx) ex (Zpos my) ey q e' l eq_refl eq_refl D) as (Q0 & R & s & S0 & Ee & Eq). clear D.
  set (X := (inject_Z (Zpos mx * 2 ^ s) / inject_Z (Zpos my) * pow2 e')%Q).
  assert (Py : (0 < inject_Z (Zpos my))%Q) by (by rewrite <- (Zlt_Qlt 0)).
  assert (P : (0 < X)%Q).
  { apply Qmult_lt_0_compat; [|apply pow2_pos]. apply Qlt_shift_div_l; [done|]. rewrite Qmult_0_l, <- (Zlt_Qlt 0).
    apply Z.mul_pos_pos; [lia|apply Z.pow_pos_nonneg; lia]. }
  assert (E : val (S754_finite sx mx ex) / val (S754_finite sy my ey) == inject_Z (unit_ (xorb sx sy)) * X).
  { unfold X. cbn [val]. rewrite xorb_unit, !unit_mul, !inject_Z_mult, <- (pow2_Z s) by done.
    assert (Ep : pow2 ex == pow2 s * pow2 e' * pow2 ey) by (rewrite <- !pow2_add; replace (s + e' + ey) with ex by lia; reflexivity).
    rewrite Ep. pose proof (pow2_pos ey). destruct sy; cbn [unit_]; change (inject_Z (-1)) with (-(1))%Q; change (inject_Z 1) with 1%Q;
      field; lra. }
  rewrite E in B |- *. rewrite Qabs_unit in B by lra.
  pose proof (Z.div_mod (Zpos mx * 2 ^ s) (Zpos my) ltac:(lia)) as Dm. rewrite <- Eq in Dm.
  pose proof (Z.mod_pos_bound (Zpos mx * 2 ^ s) (Zpos my) eq_refl) as Mb. pose proof (pow2_pos e').
  apply round_aux_rounds; [done|done| | |done]; unfold X; apply Qmult_le_compat_r; try lra.
  - apply Qle_shift_div_l; [done|]. rewrite <- inject_Z_mult. apply inject_le. nia.
  - apply Qle_shift_div_r; [done|]. rewrite <- inject_Z_mult. apply inject_le. nia.
Qed.

(** ** Comparison *)

Lemma canon_lt m1 e1 m2 e2 : canon (Zpos m1) e1 -> canon (Zpos m2) e2 -> e1 < e2 ->
  (inject_Z (Zpos m1) * pow2 e1 < inject_Z (Zpos m2) * pow2 e2)%Q.
Proof.
  intros ((_ & U1) & L1 & _) (_ & _ & N2) L. assert (G : 2 ^ 52 <= Zpos m2) by lia.
  rewrite (pow2_shift (Zpos m2) e1 e2) by lia. apply Qmult_lt_compat_r; [apply pow2_pos|]. rewrite <- Zlt_Qlt.
  assert (2 ^ 1 <= 2 ^ (e2 - e1)) by (apply Z.pow_le_mono_r; lia). nia.
Qed.

Lemma compare_pos m1 e1 m2 e2 : canon (Zpos m1) e1 -> canon (Zpos m2) e2 ->
  match Z.compare e1 e2 with Lt => Lt | Gt => Gt | Eq => Pos.compare_cont Eq m1 m2 end
  = (inject_Z (Zpos m1) * pow2 e1 ?= inject_Z (Zpos m2) * pow2 e2)%Q.
Proof.
  intros C1 C2. destruct (Z.compare_spec e1 e2) as [<-|L|L]; symmetry; [|by apply Qlt_alt, canon_lt|by apply Qgt_alt, canon_lt].
  change (Pos.compare_cont Eq m1 m2) with (Z.compare (Zpos m1) (Zpos m2)). pose proof (pow2_pos e1).
  destruct (Z.compare_spec (Zpos m1) (Zpos m2)) as [->|L|L].
  - by apply Qeq_alt.
  - apply Qlt_alt, Qmult_lt_compat_r; [done|]. by rewrite <- Zlt_Qlt.
  - apply Qgt_alt, Qmult_lt_compat_r; [done|]. by rewrite <- Zlt_Qlt.
Qed.

Lemma Qcompare_opp x y : (- x ?= - y)%Q = CompOpp (x ?= y)%Q.
Proof.
  destruct (Qcompare_spec x y) as [E|L|L]; cbn [CompOpp].
  - apply Qeq_alt. by rewrite E.
  - apply (proj1 (Qgt_alt _ _)). lra.
  - apply (proj1 (Qlt_alt _ _)). lra.
Qed.

Lemma compare_val x y : number x -> number y -> SFcompare x y = Some (val x ?= val y)%Q.
Proof.
  intros Nx Ny. assert (P : forall m e, (0 < inject_Z (Zpos m) * pow2 e)%Q)
    by (intros; apply Qmult_lt_0_compat; [by rewrite <- (Zlt_Qlt 0)|apply pow2_pos]).
  assert (V : forall s m e, val (S754_finite s m e) == if s then - (inject_Z (Zpos m) * pow2 e) else inject_Z (Zpos m) * pow2 e).
  { intros s m e. cbn [val]. rewrite unit_mul. destruct s; cbn [unit_]; change (inject_Z (-1)) with (-(1))%Q;
      change (inject_Z 1) with 1%Q; ring. }
  destruct x as [sx|sx| |sx mx ex], y as [sy|sy| |sy my ey]; try done; cbn [SFcompare]; f_equal; symmetry; rewrite ?V.
  - cbn [val]. pose proof (P my ey). destruct sy; [apply (proj1 (Qgt_alt _ _)); lra|apply (proj1 (Qlt_alt _ _)); lra].
  - cbn [val]. pose proof (P mx ex). destruct sx; [apply (proj1 (Qlt_alt _ _)); lra|apply (proj1 (Qgt_alt _ _)); lra].
  - pose proof (P my ey). pose proof (P mx ex). destruct Nx as [Cx _], Ny as [Cy _], sx, sy.
    + rewrite Qcompare_opp, <- compare_pos by done. by destruct (ex ?= ey).
    + apply (proj1 (Qlt_alt _ _)). lra.
    + apply (proj1 (Qgt_alt _ _)). lra.
    + by rewrite <- compare_pos.
Qed.

Lemma flt_val x y : number x -> number y -> flt x y = true <-> (val x < val y)%Q.
Proof. intros Nx Ny. unfold flt, SFltb. rewrite compare_val by done. rewrite Qlt_alt. by destruct (val x ?= val y)%Q. Qed.
Lemma fle_val x y : number x -> number y -> fle x y = true <-> (val x <= val y)%Q.
Proof. intros Nx Ny. unfold fle, SFleb. rewrite compare_val by done. rewrite Qle_alt. by destruct (val x ?= val y)%Q. Qed.

Lemma fmin_spec x y : number x -> number y -> number (fmin x y) /\ (val (fmin x y) <= val x)%Q /\ (val (fmin x y) <= val y)%Q
  /\ (val (fmin x y) == val x \/ val (fmin x y) == val y)%Q.
Proof.
  intros Nx Ny. assert (E : fmin x y = if flt y x then y else x) by (by destruct x, y). rewrite E.
  pose proof (flt_val y x Ny Nx) as F. destruct (flt y x).
  - assert (val y < val x)%Q by (by apply F). split; [done|]. split; [lra|]. split; [lra|by right].
  - assert (~ val y < val x)%Q by (intros L; by apply F in L). split; [done|]. split; [lra|]. split; [lra|by left].
Qed.

(** ** Rounding is monotone *)

(** A number that is not below what is rounded is not below the result. *)
Lemma round_aux_below m e y : 0 < m -> e <= fe (digits m + e) -> number y -> (inject_Z m * pow2 e <= val y)%Q ->
  (val (binary_round_aux prec emax false m e loc_Exact) <= val y)%Q.
Proof.
  intros M Le Ny L. pose proof (first_shift m e ltac:(lia) Le) as C. cbv zeta in C.
  destruct (round_aux_spec false m e loc_Exact) as (M' & E & -> & C' & Ee & _ & _ & _ & G); [lia|done|]. cbv zeta in G. specialize (G eq_refl).
  set (k := fe (digits m + e) - e) in *. assert (K : 0 <= k) by (unfold k; lia). clearbody k.
  pose proof (Z.mul_div_le m (2 ^ k) (Z.pow_pos_nonneg 2 k eq_refl K)) as Lm. set (q := m / 2 ^ k) in *. clearbody q.
  assert (P : (0 < inject_Z m * pow2 e)%Q) by (apply Qmult_lt_0_compat; [rewrite <- (Zlt_Qlt 0); lia|apply pow2_pos]).
  destruct (Z.le_gt_cases E 971) as [L971|Inf].
  2: { assert (V0 : val (pack false M' E) == 0) by (unfold pack; destruct M'; [reflexivity| |reflexivity];
         rewrite (proj2 (Z.leb_gt E 971)) by lia; reflexivity). lra. }
  destruct (val_pack false M' E C' L971) as [_ V]. rewrite V. cbn [unit_]. rewrite Z.mul_1_l, (pow2_shift M' e E) by lia.
  destruct G as [-> | [-> Lq]]; [eapply Qle_trans; [apply inject_pow2_le|exact L]; lia|].
  destruct y as [s|s| |[|] my ey]; try done.
  1, 2: exfalso; cbn [val] in L; rewrite ?unit_mul in L; cbn [unit_] in L; change (inject_Z (-1)) with (-(1))%Q in L;
    try (pose proof (inject_pow2_nonneg (Zpos my) ey ltac:(lia))); lra.
  destruct Ny as [((Y0 & Y1) & Y2 & Y3) _]. cbn [val unit_] in L |- *. rewrite Z.mul_1_l in L |- *.
  rewrite Z.mul_comm in Lq. assert (Lq' : (inject_Z q * pow2 (e + k) < inject_Z (Zpos my) * pow2 ey)%Q).
  { eapply Qlt_le_trans; [|exact L]. rewrite (pow2_shift q e (e + k)) by lia. replace (e + k - e) with k by lia.
    apply Qmult_lt_compat_r; [apply pow2_pos|]. rewrite <- Zlt_Qlt. lia. }
  destruct (Z.le_gt_cases (e + k) ey) as [Le2|Gt].
  - rewrite (pow2_shift (Zpos my) (e + k) ey) in Lq' |- * by lia. apply Qmult_lt_r in Lq'; [|apply pow2_pos]. rewrite <- Zlt_Qlt in Lq'.
    assert (Eg : inject_Z ((q + 1) * 2 ^ k) * pow2 e == inject_Z (q + 1) * pow2 (e + k)).
    { rewrite (pow2_shift (q + 1) e (e + k)) by lia. replace (e + k - e) with k by lia. reflexivity. }
    rewrite Eg. apply inject_pow2_le. lia.
  - exfalso. destruct C as ((Q0 & Q1) & Q2 & Q3). assert (G52 : 2 ^ 52 <= q) by lia. rewrite (pow2_shift q ey (e + k)) in Lq' by lia.
    apply Qmult_lt_r in Lq'; [|apply pow2_pos]. rewrite <- Zlt_Qlt in Lq'.
    assert (2 ^ 1 <= 2 ^ (e + k - ey)) by (apply Z.pow_le_mono_r; lia). nia.
Qed.

Lemma fadd_below x y z : number x -> number y -> number z -> (0 <= val x + val y)%Q -> (val x + val y <= val z)%Q -> (val (fadd x y) <= val z)%Q.
Proof.
  intros Nx Ny Nz P L. destruct x as [sx|sx| |sx mx ex], y as [sy|sy| |sy my ey]; try done; unfold fadd; cbn [SFadd].
  - assert (E : val (if sx then if sy then S754_zero sx else S754_zero false else if sy then S754_zero false else S754_zero sx) == 0)
      by (by destruct sx, sy). rewrite E. cbn [val] in L. lra.
  - cbn [val] in L |- *. lra.
  - cbn [val] in L |- *. lra.
  - rewrite !cond_Zopp_unit, !shl_align_spec by lia. set (ez := Z.min ex ey).
    set (n := unit_ sx * (Zpos mx * 2 ^ (ex - ez)) + unit_ sy * (Zpos my * 2 ^ (ey - ez))).
    assert (E : val (S754_finite sx mx ex) + val (S754_finite sy my ey) == inject_Z n * pow2 ez).
    { unfold n. cbn [val]. rewrite inject_Z_plus, Qmult_plus_distr_l, !unit_mul, <- !Qmult_assoc, <- !pow2_shift by lia. reflexivity. }
    rewrite E in P, L. clearbody n. destruct n as [|p|p]; cbn [binary_normalize].
    + change (inject_Z 0) with 0%Q in L. cbn [val] in *. lra.
    + destruct (binary_round_spec false p ez) as (m & e' & -> & M & Le & Em & Lf & _). apply round_aux_below; [done|done|done|].
      rewrite Em, <- (pow2_shift (Zpos p) e' ez) by lia. exact L.
    + exfalso. change (Zneg p) with (unit_ true * Zpos p) in P. rewrite unit_mul in P. cbn [unit_] in P. change (inject_Z (-1)) with (-(1))%Q in P.
      assert (0 < inject_Z (Zpos p) * pow2 ez)%Q by (apply Qmult_lt_0_compat; [by rewrite <- (Zlt_Qlt 0)|apply pow2_pos]). lra.
Qed.

(** ** Exact products, and back to integers *)

Lemma inject_pow2_inj M e N j : e <= j -> inject_Z M * pow2 e == inject_Z N * pow2 j -> M = N * 2 ^ (j - e).
Proof.
  intros L E. rewrite (pow2_shift N e j) in E by done. apply Qmult_inj_r in E; [by apply inject_Z_injective|].
  pose proof (pow2_pos e). lra.
Qed.

Lemma fmul_exact x y N j : number x -> number y -> 0 < N < 2 ^ 53 -> 0 <= j <= 971 -> val x * val y == inject_Z N * pow2 j ->
  number (fmul x y) /\ val (fmul x y) == inject_Z N * pow2 j.
Proof.
  intros Nx Ny B Bj E. assert (P : (0 < inject_Z N * pow2 j)%Q) by (apply Qmult_lt_0_compat; [rewrite <- (Zlt_Qlt 0); lia|apply pow2_pos]).
  destruct x as [sx|sx| |sx mx ex], y as [sy|sy| |sy my ey]; try done; unfold fmul; cbn [SFmul].
  1-2: exfalso; cbn [val] in E; rewrite ?Qmult_0_l, ?Qmult_0_r in E; lra.
  pose proof (product_room _ _ _ _ (proj1 Nx) (proj1 Ny)) as R.
  assert (E' : inject_Z (unit_ (xorb sx sy) * (Zpos mx * Zpos my)) * pow2 (ex + ey) == inject_Z N * pow2 j).
  { rewrite <- E. cbn [val]. rewrite xorb_unit, pow2_add, !unit_mul, !inject_Z_mult. ring. }
  destruct (xorb sx sy) eqn:S.
  { exfalso. pose proof (inject_pow2_nonneg (Zpos mx * Zpos my) (ex + ey) ltac:(lia)) as Q0. rewrite unit_mul in E'.
    cbn [unit_] in E'. change (inject_Z (-1)) with (-(1))%Q in E'. lra. }
  change (unit_ false) with 1 in E'. rewrite Z.mul_1_l in E'. rewrite Pos2Z.inj_mul. destruct (Z.le_gt_cases (ex + ey) j) as [L|G].
  - apply inject_pow2_inj in E'; [|done]. destruct (round_aux_exact false (Zpos mx * Zpos my) (ex + ey) N j) as [Nu V]; [lia|done|done|done|lia|lia|].
    split; [done|]. rewrite V. cbn [unit_]. rewrite Z.mul_1_l. reflexivity.
  - exfalso. symmetry in E'. apply inject_pow2_inj in E'; [|lia]. rewrite fe_eq in R.
    destruct (digits_bounds (Zpos mx * Zpos my)) as [D _]; [lia|]. assert (G53 : 53 <= digits (Zpos mx * Zpos my)) by lia.
    assert (2 ^ 52 <= 2 ^ (digits (Zpos mx * Zpos my) - 1)) by (apply Z.pow_le_mono_r; lia).
    assert (2 ^ 1 <= 2 ^ (ex + ey - j)) by (apply Z.pow_le_mono_r; lia). nia.
Qed.

Lemma Qfloor_unique x z : (inject_Z z <= x)%Q -> (x < inject_Z (z + 1))%Q -> Qfloor x = z.
Proof.
  intros L U. pose proof (Qfloor_le x) as A. pose proof (Qlt_floor x) as C.
  assert (inject_Z (Qfloor x) < inject_Z (z + 1))%Q by lra. assert (inject_Z z < inject_Z (Qfloor x + 1))%Q by lra.
  rewrite <- Zlt_Qlt in *. lia.
Qed.

Lemma to_u64_floor x : number x -> (0 <= val x)%Q -> to_u64 x = Z.min (2 ^ 64 - 1) (Qfloor (val x)).
Proof.
  intros N P. destruct x as [s|s| |[|] m e]; try done; cbn [to_u64].
  - exfalso. cbn [val] in P. rewrite unit_mul in P. cbn [unit_] in P. change (inject_Z (-1)) with (-(1))%Q in P.
    assert (0 < inject_Z (Zpos m) * pow2 e)%Q by (apply Qmult_lt_0_compat; [by rewrite <- (Zlt_Qlt 0)|apply pow2_pos]). lra.
  - f_equal. symmetry. cbn [val unit_]. rewrite Z.mul_1_l. destruct (Z.leb_spec 0 e) as [L|L].
    + assert (E : inject_Z (Zpos m) * pow2 e == inject_Z (Zpos m * 2 ^ e)) by (rewrite inject_Z_mult, <- pow2_Z by done; reflexivity).
      rewrite E. apply Qfloor_Z.
    + assert (P2 : 0 < 2 ^ (- e)) by (apply Z.pow_pos_nonneg; lia).
      assert (E : inject_Z (Zpos m) == inject_Z (Zpos m) * pow2 e * inject_Z (2 ^ (- e))).
      { rewrite <- pow2_Z, <- Qmult_assoc, <- pow2_add by lia. replace (e + - e) with 0 by lia. change (pow2 0) with 1%Q. ring. }
      set (v := (inject_Z (Zpos m) * pow2 e)%Q) in *. pose proof (Z.div_mod (Zpos m) (2 ^ (- e)) ltac:(lia)) as D.
      pose proof (Z.mod_pos_bound (Zpos m) (2 ^ (- e)) P2) as Mb. assert (Q2 : (0 < inject_Z (2 ^ (- e)))%Q) by (rewrite <- (Zlt_Qlt 0); lia).
      apply Qfloor_unique.
      * apply (Qmult_le_r _ _ _ Q2). rewrite <- E, <- inject_Z_mult, <- Zle_Qle. lia.
      * apply (Qmult_lt_r _ _ _ Q2). rewrite <- E, <- inject_Z_mult, <- Zlt_Qlt. lia.
Qed.
