(* ===== verification/Memory.v ===== *)
(** * Memory: guest RAM (crates/amber-core/src/memory.rs)

    [GuestRam] is the bounds-checked window every device reads descriptor
    rings and buffers through; [GuestMemory] is the owning region the loader
    and the snapshot code write to. Both are views of one host allocation, so
    they share one state here: the guest-physical base and the bytes. Every
    access threads that state explicitly. *)

From S2P Require Import Prelude.

(** The failures of amber-core ([Error] in lib.rs), without message texts. *)
Inductive Error :=
| EBackend
| EMmap
| ELoader
| EFdt
| EGuestFault (pc esr ipa : Z)
| EDevice
| ESnapshot.

Definition Result (A : Type) : Type := A + Error.

Record GuestRam := mkRam {
  ram_base : Z;
  ram_bytes : list Z
}.

Definition ram_len (r : GuestRam) : Z := zlen (ram_bytes r).

(** [GuestMemory::new]: [len] zero bytes at [base]. *)
Definition GuestMemory_new (base len : Z) : GuestRam := mkRam base (zeros len).

(** [GuestMemory::new] and [from_snapshot_cow]: the host's [mmap] may fail;
    a snapshot's file gives the initial contents and the length. *)
Definition GuestMemory_try_new (mmap_ok : bool) (base len : Z) : Result GuestRam :=
  if mmap_ok then inl (GuestMemory_new base len) else inr EMmap.
Definition from_snapshot_cow (file : option (list Z)) (mmap_ok : bool) (base : Z) : Result GuestRam :=
  match file with
  | None => inr EMmap
  | Some bytes => if mmap_ok then inl (mkRam base bytes) else inr EMmap
  end.

(** [GuestRam::offset]: [checked_sub], then [checked_add] against the length. *)
Definition ram_offset (r : GuestRam) (gpa n : Z) : option Z :=
  if gpa <? ram_base r then None
  else
    let off := gpa - ram_base r in
    if (off + n <? 2 ^ 64) && (off + n <=? ram_len r) then Some off else None.

Definition ram_in_range (r : GuestRam) (gpa n : Z) : bool :=
  match ram_offset r gpa n with Some _ => true | None => false end.

(** [GuestRam::host_ptr_at], as an offset into the host allocation. *)
Definition ram_host_ptr_at (r : GuestRam) (gpa n : Z) : option Z := ram_offset r gpa n.

(** [GuestRam::read] into a buffer of [n] bytes: [None] is the [false] of a
    rejected access, which leaves the buffer alone. *)
Definition ram_read (r : GuestRam) (gpa n : Z) : option (list Z) :=
  match ram_offset r gpa n with
  | Some off => Some (slice off n (ram_bytes r))
  | None => None
  end.

(** The same read into a freshly zeroed buffer, whose result is ignored by
    most callers. *)
Definition ram_read_zeroed (r : GuestRam) (gpa n : Z) : list Z :=
  default (zeros n) (ram_read r gpa n).

(** [GuestRam::write]. *)
Definition ram_write (r : GuestRam) (gpa : Z) (bs : list Z) : GuestRam * bool :=
  match ram_offset r gpa (zlen bs) with
  | Some off => (mkRam (ram_base r) (splice off bs (ram_bytes r)), true)
  | None => (r, false)
  end.

(** [GuestMemory::write], the loader's path: a rejected write is an error. *)
Definition GuestMemory_write (r : GuestRam) (gpa : Z) (bs : list Z) : Result GuestRam :=
  if gpa <? ram_base r then inr ELoader
  else
    let off := gpa - ram_base r in
    if (off + zlen bs <? 2 ^ 64) && (off + zlen bs <=? ram_len r)
    then inl (mkRam (ram_base r) (splice off bs (ram_bytes r)))
    else inr ELoader.

Definition read_u16 (r : GuestRam) (gpa : Z) : Z := of_le_bytes (ram_read_zeroed r gpa 2).
Definition read_u32 (r : GuestRam) (gpa : Z) : Z := of_le_bytes (ram_read_zeroed r gpa 4).
Definition read_u64 (r : GuestRam) (gpa : Z) : Z := of_le_bytes (ram_read_zeroed r gpa 8).
Definition write_u16 (r : GuestRam) (gpa v : Z) : GuestRam := fst (ram_write r gpa (le_bytes 2 v)).
Definition write_u32 (r : GuestRam) (gpa v : Z) : GuestRam := fst (ram_write r gpa (le_bytes 4 v)).

(** ** Invariant and abstract view *)

(** A region the host can really map: it ends below 2^64, and holds bytes. *)
Record ram_wf (r : GuestRam) : Prop := {
  ram_wf_base : 0 <= ram_base r;
  ram_wf_top : ram_base r + ram_len r < 2 ^ 64;
  ram_wf_bytes : bytes_wf (ram_bytes r)
}.

(** Two states of the same region: what no access may change. *)
Definition same_region (r r' : GuestRam) : Prop :=
  ram_base r' = ram_base r /\ ram_len r' = ram_len r.

(** The byte at a guest-physical address: the abstract memory. *)
Definition ram_at (r : GuestRam) (a : Z) : option Z :=
  if a <? ram_base r then None else ram_bytes r !! Z.to_nat (a - ram_base r).

(** [a] lies in the [n] bytes from [gpa]. *)
Definition within (gpa n a : Z) : bool := (gpa <=? a) && (a <? gpa + n).

(** ** Lemmas *)

Lemma ram_offset_Some r gpa n off :
  ram_offset r gpa n = Some off ->
  off = gpa - ram_base r /\ 0 <= off /\ off + n <= ram_len r /\ off + n < 2 ^ 64.
Proof. unfold ram_offset. zcases; simpl; intros; simplify_eq; lia. Qed.

Lemma ram_offset_iff r gpa n off :
  ram_wf r ->
  ram_offset r gpa n = Some off <->
  off = gpa - ram_base r /\ ram_base r <= gpa /\ gpa + n <= ram_base r + ram_len r.
Proof.
  intros [? ? ?]. split.
  - intros H%ram_offset_Some. lia.
  - intros (-> & ? & ?). unfold ram_offset. zcases; simpl; try done; lia.
Qed.

Lemma ram_write_cases r gpa bs :
  (exists off, ram_offset r gpa (zlen bs) = Some off /\
     ram_write r gpa bs = (mkRam (ram_base r) (splice off bs (ram_bytes r)), true)) \/
  (ram_offset r gpa (zlen bs) = None /\ ram_write r gpa bs = (r, false)).
Proof. unfold ram_write. destruct (ram_offset _ _ _); eauto. Qed.

Lemma same_region_refl r : same_region r r.
Proof. done. Qed.
Lemma same_region_trans r1 r2 r3 : same_region r1 r2 -> same_region r2 r3 -> same_region r1 r3.
Proof. unfold same_region. intros [] []. split; congruence. Qed.
#[export] Hint Resolve same_region_refl : amber.
#[export] Instance same_region_preorder : PreOrder same_region.
Proof. split; [exact same_region_refl|exact same_region_trans]. Qed.

Lemma same_region_offset r r' gpa n :
  same_region r r' -> ram_offset r' gpa n = ram_offset r gpa n.
Proof. unfold ram_offset. by intros [-> ->]. Qed.

Lemma same_region_in_range r r' gpa n :
  same_region r r' -> ram_in_range r' gpa n = ram_in_range r gpa n.
Proof. intros H. unfold ram_in_range. by rewrite (same_region_offset _ _ _ _ H). Qed.

Lemma ram_write_same_region r gpa bs : same_region r (fst (ram_write r gpa bs)).
Proof.
  destruct (ram_write_cases r gpa bs) as [(off & Ho & ->)|[_ ->]]; [|done].
  apply ram_offset_Some in Ho. split; [done|]. unfold ram_len, zlen. simpl.
  by rewrite length_splice by (unfold ram_len in *; lia).
Qed.

Lemma ram_write_wf r gpa bs : ram_wf r -> bytes_wf bs -> ram_wf (fst (ram_write r gpa bs)).
Proof.
  intros [? ? ?] Hb. destruct (ram_write_same_region r gpa bs) as [Hbase Hlen].
  split; [lia|lia|].
  destruct (ram_write_cases r gpa bs) as [(off & _ & ->)|[_ ->]]; simpl; auto with amber.
Qed.

#[export] Hint Resolve ram_write_same_region ram_write_wf : amber.

Lemma write_u16_same_region r gpa v : same_region r (write_u16 r gpa v).
Proof. apply ram_write_same_region. Qed.
Lemma write_u32_same_region r gpa v : same_region r (write_u32 r gpa v).
Proof. apply ram_write_same_region. Qed.
Lemma write_u16_wf r gpa v : ram_wf r -> ram_wf (write_u16 r gpa v).
Proof. intros. by apply ram_write_wf, le_bytes_wf. Qed.
Lemma write_u32_wf r gpa v : ram_wf r -> ram_wf (write_u32 r gpa v).
Proof. intros. by apply ram_write_wf, le_bytes_wf. Qed.
#[export] Hint Resolve write_u16_same_region write_u32_same_region write_u16_wf write_u32_wf : amber.

Lemma ram_read_zeroed_wf r gpa n : ram_wf r -> bytes_wf (ram_read_zeroed r gpa n).
Proof.
  intros [_ _ ?]. unfold ram_read_zeroed, ram_read.
  destruct (ram_offset _ _ _); simpl; auto with amber.
Qed.

Lemma length_ram_read_zeroed r gpa n :
  0 <= n -> length (ram_read_zeroed r gpa n) = Z.to_nat n.
Proof.
  intros Hn. unfold ram_read_zeroed, ram_read.
  destruct (ram_offset r gpa n) eqn:E; simpl; [|apply length_zeros].
  apply ram_offset_Some in E. apply length_slice; unfold ram_len in *; lia.
Qed.

Lemma read_typed_range r gpa n :
  ram_wf r -> 0 <= n -> 0 <= of_le_bytes (ram_read_zeroed r gpa n) < 256 ^ n.
Proof.
  intros Hr Hn. pose proof (of_le_bytes_range _ (ram_read_zeroed_wf r gpa n Hr)) as H.
  unfold zlen in H. rewrite length_ram_read_zeroed in H by done.
  by rewrite Z2Nat.id in H by done.
Qed.

Lemma read_u16_range r gpa : ram_wf r -> fits 16 (read_u16 r gpa).
Proof. intros. by apply (read_typed_range r gpa 2). Qed.
Lemma read_u32_range r gpa : ram_wf r -> fits 32 (read_u32 r gpa).
Proof. intros. by apply (read_typed_range r gpa 4). Qed.
Lemma read_u64_range r gpa : ram_wf r -> fits 64 (read_u64 r gpa).
Proof. intros. by apply (read_typed_range r gpa 8). Qed.
#[export] Hint Resolve read_u16_range read_u32_range read_u64_range ram_read_zeroed_wf : amber.

(** A read of the bytes just written returns them. *)
Lemma ram_read_write_same r gpa bs :
  ram_in_range r gpa (zlen bs) = true ->
  ram_read (fst (ram_write r gpa bs)) gpa (zlen bs) = Some bs.
Proof.
  unfold ram_in_range. intros H.
  destruct (ram_write_cases r gpa bs) as [(off & Ho & Hw)|[Ho _]]; rewrite Ho in H; [|done].
  unfold ram_read. rewrite (same_region_offset r) by apply ram_write_same_region.
  rewrite Ho, Hw. simpl. apply ram_offset_Some in Ho.
  by rewrite slice_splice_same by (unfold ram_len in *; lia).
Qed.

Lemma typed_read_write r gpa n v :
  ram_in_range r gpa (Z.of_nat n) = true ->
  of_le_bytes (ram_read_zeroed (fst (ram_write r gpa (le_bytes n v))) gpa (Z.of_nat n))
    = v mod 256 ^ Z.of_nat n.
Proof.
  intros Hr. pose proof (ram_read_write_same r gpa (le_bytes n v)) as H.
  rewrite zlen_le_bytes in H. unfold ram_read_zeroed. rewrite (H Hr).
  apply of_le_bytes_le_bytes.
Qed.

(** A read that does not meet the written range is unchanged. *)
Lemma ram_read_write_disjoint r gpa bs a n :
  0 <= n -> a + n <= gpa \/ gpa + zlen bs <= a ->
  ram_read (fst (ram_write r gpa bs)) a n = ram_read r a n.
Proof.
  intros Hn Hd. unfold ram_read. rewrite (same_region_offset r) by apply ram_write_same_region.
  destruct (ram_offset r a n) eqn:Ha; [|done]. apply ram_offset_Some in Ha.
  destruct (ram_write_cases r gpa bs) as [(off & Ho & ->)|[_ ->]]; [simpl|done].
  apply ram_offset_Some in Ho. f_equal.
  apply slice_splice_disjoint; unfold ram_len in *; lia.
Qed.

Lemma ram_read_zeroed_write_disjoint r gpa bs a n :
  0 <= n -> a + n <= gpa \/ gpa + zlen bs <= a ->
  ram_read_zeroed (fst (ram_write r gpa bs)) a n = ram_read_zeroed r a n.
Proof. intros. unfold ram_read_zeroed. by rewrite ram_read_write_disjoint. Qed.

(** The abstract memory after a write. *)
Lemma ram_at_write r gpa bs a :
  ram_at (fst (ram_write r gpa bs)) a =
    if snd (ram_write r gpa bs) && within gpa (zlen bs) a
    then bs !! Z.to_nat (a - gpa) else ram_at r a.
Proof.
  destruct (ram_write_cases r gpa bs) as [(off & Ho & ->)|[_ ->]]; [|done].
  apply ram_offset_Some in Ho as (-> & ? & ? & ?). unfold ram_at, within. simpl.
  destruct (Z.ltb_spec a (ram_base r)).
  - zcases; simpl; try done. lia.
  - rewrite lookup_splice by (unfold ram_len in *; lia).
    unfold zlen. zcases; simpl; repeat case_match; simpl; try done;
      repeat match goal with
      | H : (_ && _)%bool = true |- _ => apply andb_true_iff in H as [?%Nat.leb_le ?%Nat.ltb_lt]
      | H : (_ && _)%bool = false |- _ => apply andb_false_iff in H as [?%Nat.leb_gt|?%Nat.ltb_ge]
      end; try lia. f_equal; lia.
Qed.

Lemma ram_at_write_outside r gpa bs a :
  ~ (gpa <= a < gpa + zlen bs) -> ram_at (fst (ram_write r gpa bs)) a = ram_at r a.
Proof.
  intros Ha. rewrite ram_at_write. unfold within. zcases; rewrite ?andb_false_r; try done.
  lia.
Qed.

Lemma ram_at_write_inside r gpa bs a :
  ram_in_range r gpa (zlen bs) = true -> gpa <= a < gpa + zlen bs ->
  ram_at (fst (ram_write r gpa bs)) a = bs !! Z.to_nat (a - gpa).
Proof.
  unfold ram_in_range. intros Hr Ha. rewrite ram_at_write. unfold ram_write.
  destruct (ram_offset _ _ _); [|done]. unfold within. zcases; try lia. done.
Qed.

(** Typed reads depend only on the bytes they cover. *)
Lemma ram_read_zeroed_at r r' gpa n :
  same_region r r' -> 0 <= n ->
  (forall a, gpa <= a < gpa + n -> ram_at r' a = ram_at r a) ->
  ram_read_zeroed r' gpa n = ram_read_zeroed r gpa n.
Proof.
  intros Hs Hn Ha. unfold ram_read_zeroed, ram_read. rewrite (same_region_offset _ _ _ _ Hs).
  destruct (ram_offset r gpa n) as [off|] eqn:E; [|done]. apply ram_offset_Some in E.
  simpl. apply list_eq; intros i. rewrite !lookup_slice by lia.
  destruct (Nat.ltb_spec i (Z.to_nat n)); [|done].
  specialize (Ha (gpa + Z.of_nat i)). unfold ram_at in Ha. destruct Hs as [Hb _].
  rewrite Hb in Ha. destruct (Z.ltb_spec (gpa + Z.of_nat i) (ram_base r)); [lia|].
  replace (Z.to_nat off + i)%nat with (Z.to_nat (gpa + Z.of_nat i - ram_base r)) by lia.
  apply Ha. lia.
Qed.

(** ** Properties *)

(** every access the bounds check admits lies wholly inside guest RAM,
    and every range wholly inside guest RAM is admitted, whatever 64-bit
    address and length the guest supplies (no wrap-around can be exploited). *)
Theorem ram_offset_exact (r : GuestRam) (gpa n : Z) :
  ram_wf r -> fits 64 gpa -> fits 64 n ->
  ram_in_range r gpa n = true <->
  ram_base r <= gpa /\ gpa + n <= ram_base r + ram_len r.
Proof.
  intros Hr Hg Hn. unfold ram_in_range.
  pose proof (ram_offset_iff r gpa n (gpa - ram_base r) Hr) as Hiff.
  destruct (ram_offset r gpa n) as [off|] eqn:E.
  - split; [intros _|done]. apply ram_offset_Some in E. lia.
  - split; [done|]. intros [? ?]. assert (None = Some (gpa - ram_base r)); [|done].
    apply Hiff. lia.
Qed.

Lemma ram_offset_exact_witness :
  ram_in_range (GuestMemory_new 0x40000000 4096) 0x40000fff 1 = true <->
  0x40000000 <= 0x40000fff /\ 0x40000fff + 1 <= 0x40000000 + 4096.
Proof.
  apply (ram_offset_exact (GuestMemory_new 0x40000000 4096) 0x40000fff 1); [|lia|lia].
  split; [done|done|apply zeros_wf].
Defined.

(** guest RAM refines the abstract memory: an accepted write changes
    exactly the addresses of its range, to the bytes written, and a rejected
    one changes nothing; in both cases the region keeps its base and size. *)
Theorem ram_write_refines (r : GuestRam) (gpa : Z) (bs : list Z) :
  (forall a, ram_at (fst (ram_write r gpa bs)) a =
    if snd (ram_write r gpa bs) && within gpa (zlen bs) a
    then bs !! Z.to_nat (a - gpa) else ram_at r a) /\
  snd (ram_write r gpa bs) = ram_in_range r gpa (zlen bs) /\
  same_region r (fst (ram_write r gpa bs)).
Proof.
  split; [intros a; apply ram_at_write|]. split; [|apply ram_write_same_region].
  unfold ram_write, ram_in_range. by destruct (ram_offset _ _ _).
Qed.

(** a value written through a typed accessor and in range reads back,
    at 16 and at 32 bits. *)
Theorem typed_roundtrip (r : GuestRam) (gpa v w : Z) :
  fits 16 v -> fits 32 w ->
  (ram_in_range r gpa 2 = true -> read_u16 (write_u16 r gpa v) gpa = v) /\
  (ram_in_range r gpa 4 = true -> read_u32 (write_u32 r gpa w) gpa = w).
Proof.
  intros Hv Hw. split; intros Hr.
  - etransitivity; [exact (typed_read_write r gpa 2 v Hr)|]. by apply Z.mod_small.
  - etransitivity; [exact (typed_read_write r gpa 4 w Hr)|]. by apply Z.mod_small.
Qed.

Lemma typed_roundtrip_witness :
  read_u16 (write_u16 (GuestMemory_new 0x40000000 64) 0x40000020 0xbeef) 0x40000020 = 0xbeef.
Proof.
  refine (proj1 (typed_roundtrip (GuestMemory_new 0x40000000 64) 0x40000020 0xbeef 1 _ _) _);
    [lia|lia|reflexivity].
Defined.
