(* ===== verification/Virtqueue.v ===== *)
(** * Virtqueue: split-virtqueue mechanics (crates/amber-core/src/virtio.rs)

    Walking a guest-controlled descriptor chain ([collect_chain]), publishing
    on the used ring ([push_used]) and filling a receive buffer
    ([next_rx_capacity], [inject_one]). The guest owns every byte these
    functions read. *)

From S2P Require Import Prelude Memory.

Definition QUEUE_MAX : Z := 256.
Definition VIRTQ_DESC_F_NEXT : Z := 1.
Definition VIRTQ_DESC_F_WRITE : Z := 2.
(** 16 MiB per descriptor. *)
Definition MAX_DESC_LEN : Z := Z.shiftl 16 20.

Record Buf := mkBuf {
  buf_addr : Z;
  buf_len : Z;
  buf_writable : bool
}.

Record Queue := mkQueue {
  q_num : Z;
  q_ready : Z;
  q_desc : Z;
  q_avail : Z;
  q_used : Z;
  q_last_avail : Z
}.

Definition Queue_default : Queue := mkQueue 0 0 0 0 0 0.

(** One descriptor table entry, as the walker reads it. *)
Definition desc_addr (r : GuestRam) (d : Z) : Z := read_u64 r d.
Definition desc_flags (r : GuestRam) (d : Z) : Z := read_u16 r (wadd64 d 12).
Definition desc_next (r : GuestRam) (d : Z) : Z := read_u16 r (wadd64 d 14).

(** The buffer a descriptor contributes: its length clamped to
    [MAX_DESC_LEN], and to zero unless it lies inside guest RAM. *)
Definition desc_buf (r : GuestRam) (d : Z) : Buf :=
  let addr := desc_addr r d in
  let len := Z.min (read_u32 r (wadd64 d 8)) MAX_DESC_LEN in
  let len := if ram_in_range r addr len then len else 0 in
  mkBuf addr len (nz (Z.land (desc_flags r d) VIRTQ_DESC_F_WRITE)).

(** The [for _ in 0..qsz] loop of [collect_chain] from index [i]. *)
Fixpoint collect_loop (r : GuestRam) (desc qsz : Z) (fuel : nat) (i : Z) : list Buf :=
  match fuel with
  | O => []
  | S fuel' =>
      if qsz <=? i then []
      else
        let d := wadd64 desc (16 * i) in
        let b := desc_buf r d in
        if Z.land (desc_flags r d) VIRTQ_DESC_F_NEXT =? 0 then [b]
        else b :: collect_loop r desc qsz fuel' (desc_next r d)
  end.

Definition collect_chain (r : GuestRam) (desc head qsz : Z) : list Buf :=
  collect_loop r desc qsz (Z.to_nat qsz) head.

Definition push_used (r : GuestRam) (used id len qsz : Z) : GuestRam :=
  if qsz =? 0 then r
  else
    let idx := read_u16 r (wadd64 used 2) in
    let elem := wadd64 used (4 + 8 * (idx mod qsz)) in
    let r1 := write_u32 r elem id in
    let r2 := write_u32 r1 (wadd64 elem 4) len in
    write_u16 r2 (wadd64 used 2) (wadd16 idx 1).

Definition avail_idx (r : GuestRam) (q : Queue) : Z := read_u16 r (wadd64 (q_avail q) 2).
Definition avail_head (r : GuestRam) (q : Queue) (qsz : Z) : Z :=
  let slot := q_last_avail q mod qsz in
  read_u16 r (wadd64 (q_avail q) (4 + 2 * slot)).

Definition writable_bufs (bufs : list Buf) : list Buf := List.filter buf_writable bufs.
Definition readable_bufs (bufs : list Buf) : list Buf :=
  List.filter (fun b => negb (buf_writable b)) bufs.
Definition total_len (bufs : list Buf) : Z := foldr Z.add 0 (map buf_len bufs).

Definition next_rx_capacity (r : GuestRam) (q : Queue) : option Z :=
  if (q_ready q =? 0) || (q_num q =? 0) then None
  else
    let qsz := u16 (q_num q) in
    if q_last_avail q =? avail_idx r q then None
    else
      let head := avail_head r q qsz in
      Some (total_len (writable_bufs (collect_chain r (q_desc q) head qsz))).

(** The loop of [inject_one] over the writable buffers: [off] bytes of
    [data] are already placed. Returns the RAM and the bytes placed. *)
Fixpoint inject_loop (r : GuestRam) (data : list Z) (off : Z) (bufs : list Buf) : GuestRam * Z :=
  match bufs with
  | [] => (r, off)
  | b :: bufs' =>
      if zlen data <=? off then (r, off)
      else
        let n := Z.min (buf_len b) (zlen data - off) in
        let r' := fst (ram_write r (buf_addr b) (slice off n data)) in
        inject_loop r' data (off + n) bufs'
  end.

Definition inject_one (r : GuestRam) (q : Queue) (data : list Z) : GuestRam * Queue * bool :=
  if (q_ready q =? 0) || (q_num q =? 0) then (r, q, false)
  else
    let qsz := u16 (q_num q) in
    if q_last_avail q =? avail_idx r q then (r, q, false)
    else
      let head := avail_head r q qsz in
      let bufs := collect_chain r (q_desc q) head qsz in
      let '(r1, off) := inject_loop r data 0 (writable_bufs bufs) in
      let r2 := push_used r1 (q_used q) head (u32 off) qsz in
      (r2, mkQueue (q_num q) (q_ready q) (q_desc q) (q_avail q) (q_used q)
             (wadd16 (q_last_avail q) 1), true).

(** ** Specification of a descriptor chain

    [chain r desc qsz i bufs]: following [next] links from index [i] the
    table holds exactly the buffers [bufs] and ends with a descriptor
    without the NEXT flag. *)
Inductive chain (r : GuestRam) (desc qsz : Z) : Z -> list Buf -> Prop :=
| chain_last i :
    i < qsz ->
    Z.land (desc_flags r (wadd64 desc (16 * i))) VIRTQ_DESC_F_NEXT = 0 ->
    chain r desc qsz i [desc_buf r (wadd64 desc (16 * i))]
| chain_next i bufs :
    i < qsz ->
    Z.land (desc_flags r (wadd64 desc (16 * i))) VIRTQ_DESC_F_NEXT <> 0 ->
    chain r desc qsz (desc_next r (wadd64 desc (16 * i))) bufs ->
    chain r desc qsz i (desc_buf r (wadd64 desc (16 * i)) :: bufs).

(** What a device may rely on for each buffer it is handed. *)
Definition buf_ok (r : GuestRam) (b : Buf) : Prop :=
  0 <= buf_len b <= MAX_DESC_LEN /\
  fits 64 (buf_addr b) /\
  (buf_len b <> 0 -> ram_base r <= buf_addr b /\
     buf_addr b + buf_len b <= ram_base r + ram_len r).

(** Queue registers at their widths. *)
Definition queue_wf (q : Queue) : Prop :=
  0 <= q_num q <= QUEUE_MAX /\ fits 32 (q_ready q) /\ fits 64 (q_desc q) /\
  fits 64 (q_avail q) /\ fits 64 (q_used q) /\ fits 16 (q_last_avail q).

(** ** Lemmas *)

Lemma desc_buf_ok r d : ram_wf r -> buf_ok r (desc_buf r d).
Proof.
  intros Hr. unfold buf_ok, desc_buf; simpl.
  pose proof (read_u32_range r (wadd64 d 8) Hr).
  pose proof (read_u64_range r d Hr). unfold desc_addr.
  assert (0 <= MAX_DESC_LEN) by done.
  unfold ram_in_range. destruct (ram_offset _ _ _) eqn:E; [|split; [lia|split; [done|lia]]].
  apply ram_offset_Some in E. split; [lia|]. split; [done|]. lia.
Qed.

Lemma collect_loop_length r desc qsz fuel i :
  (length (collect_loop r desc qsz fuel i) <= fuel)%nat.
Proof.
  revert i. induction fuel as [|fuel IH]; intros i; simpl; [lia|].
  destruct (qsz <=? i); simpl; [lia|]. destruct (_ =? 0); simpl; [lia|].
  specialize (IH (desc_next r (wadd64 desc (16 * i)))). lia.
Qed.

Lemma collect_loop_ok r desc qsz fuel i :
  ram_wf r -> Forall (buf_ok r) (collect_loop r desc qsz fuel i).
Proof.
  intros Hr. revert i. induction fuel as [|fuel IH]; intros i; simpl; [constructor|].
  destruct (qsz <=? i); [constructor|].
  destruct (_ =? 0); constructor; auto using desc_buf_ok.
Qed.

Lemma collect_chain_ok r desc head qsz :
  ram_wf r -> Forall (buf_ok r) (collect_chain r desc head qsz).
Proof. apply collect_loop_ok. Qed.
#[export] Hint Resolve collect_chain_ok : amber.

Lemma buf_ok_same_region r r' b : same_region r r' -> buf_ok r b -> buf_ok r' b.
Proof. unfold buf_ok. by intros [-> ->]. Qed.

Lemma Forall_buf_ok_same_region r r' bufs :
  same_region r r' -> Forall (buf_ok r) bufs -> Forall (buf_ok r') bufs.
Proof. intros H Hb. eapply Forall_impl; [exact Hb|]. intros b. by apply buf_ok_same_region. Qed.

Lemma Forall_writable P bufs : Forall P bufs -> Forall P (writable_bufs bufs).
Proof.
  unfold writable_bufs. induction 1 as [|b l Hb _ IH]; simpl; [done|].
  destruct (buf_writable b); auto.
Qed.

Lemma total_len_bound k bufs :
  Forall (fun b => 0 <= buf_len b <= k) bufs -> 0 <= total_len bufs <= k * zlen bufs.
Proof.
  intros H. unfold total_len.
  replace (zlen bufs) with (zlen (map buf_len bufs)) by (unfold zlen; by rewrite length_map).
  apply sum_list_Z_bound. by apply Forall_map.
Qed.

Lemma total_len_nonneg r bufs : Forall (buf_ok r) bufs -> 0 <= total_len bufs.
Proof.
  induction 1 as [|b l [Hb _] _ IH]; unfold total_len in *; simpl; [done|]. lia.
Qed.

Lemma push_used_same_region r used id len qsz : same_region r (push_used r used id len qsz).
Proof.
  unfold push_used. destruct (qsz =? 0); [done|].
  etransitivity; [|apply write_u16_same_region].
  etransitivity; apply write_u32_same_region.
Qed.

Lemma push_used_wf r used id len qsz : ram_wf r -> ram_wf (push_used r used id len qsz).
Proof. intros. unfold push_used. destruct (qsz =? 0); auto with amber. Qed.
#[export] Hint Resolve push_used_same_region push_used_wf : amber.

Lemma inject_loop_same_region r data off bufs :
  same_region r (fst (inject_loop r data off bufs)).
Proof.
  revert r off. induction bufs as [|b bufs IH]; intros r off; simpl; [done|].
  destruct (zlen data <=? off); [done|].
  etransitivity; [|apply IH]. apply ram_write_same_region.
Qed.

Lemma inject_loop_wf r data off bufs :
  ram_wf r -> bytes_wf data -> ram_wf (fst (inject_loop r data off bufs)).
Proof.
  intros Hr Hd. revert r Hr off. induction bufs as [|b bufs IH]; intros r Hr off; simpl; [done|].
  destruct (zlen data <=? off); [done|]. apply IH. auto with amber.
Qed.

Lemma inject_one_wf r q data :
  ram_wf r -> bytes_wf data -> queue_wf q ->
  let '(r', q', _) := inject_one r q data in
  ram_wf r' /\ same_region r r' /\ queue_wf q'.
Proof.
  intros Hr Hd Hq. unfold inject_one.
  destruct (_ || _); [done|]. destruct (_ =? _); [done|].
  set (bufs := writable_bufs _).
  pose proof (inject_loop_wf r data 0 bufs Hr Hd).
  pose proof (inject_loop_same_region r data 0 bufs).
  destruct (inject_loop _ _ _ _) as [r1 off]. simpl in *.
  split; [auto with amber|]. split; [etransitivity; [done|apply push_used_same_region]|].
  destruct Hq as (? & ? & ? & ? & ? & ?). repeat split; simpl; try lia; apply u16_range.
Qed.

(** ** Scatter lists *)

(** Guest address of the [k]-th byte of a list of buffers laid end to end. *)
Fixpoint scatter_addr (bufs : list Buf) (k : Z) : option Z :=
  match bufs with
  | [] => None
  | b :: bufs' =>
      if k <? buf_len b then Some (buf_addr b + k) else scatter_addr bufs' (k - buf_len b)
  end.

Definition in_buf (b : Buf) (a : Z) : Prop := buf_addr b <= a < buf_addr b + buf_len b.
Definition in_bufs (bufs : list Buf) (a : Z) : Prop := Exists (fun b => in_buf b a) bufs.

(** No two buffers of the list share a byte. *)
Fixpoint bufs_disjoint (bufs : list Buf) : Prop :=
  match bufs with
  | [] => True
  | b :: bufs' => (forall a, in_buf b a -> ~ in_bufs bufs' a) /\ bufs_disjoint bufs'
  end.

Lemma in_bufs_cons b bufs a : in_bufs (b :: bufs) a <-> in_buf b a \/ in_bufs bufs a.
Proof. unfold in_bufs. apply Exists_cons. Qed.

Lemma scatter_in_bufs bufs k a : 0 <= k -> scatter_addr bufs k = Some a -> in_bufs bufs a.
Proof.
  revert k. induction bufs as [|b l IH]; intros k Hk; simpl; [done|].
  rewrite in_bufs_cons. destruct (Z.ltb_spec k (buf_len b)).
  - intros [= <-]. left. unfold in_buf. lia.
  - intros Ha. right. apply (IH (k - buf_len b)); [lia|done].
Qed.

Lemma zlen_slice {A} off n (l : list A) :
  0 <= off -> 0 <= n -> off + n <= zlen l -> zlen (slice off n l) = n.
Proof. intros. unfold zlen. rewrite length_slice by done. lia. Qed.

Lemma inject_loop_count r data off bufs :
  Forall (buf_ok r) bufs -> 0 <= off <= zlen data ->
  snd (inject_loop r data off bufs) = Z.min (zlen data) (off + total_len bufs).
Proof.
  revert r off. induction bufs as [|b bufs IH]; intros r off Hok Hoff.
  - unfold total_len; simpl. lia.
  - inversion Hok as [|? ? [Hb _] Hok']; subst. cbn [inject_loop].
    change (total_len (b :: bufs)) with (buf_len b + total_len bufs).
    pose proof (total_len_nonneg r bufs Hok').
    destruct (Z.leb_spec (zlen data) off); [simpl; lia|].
    rewrite IH; [lia| |lia].
    eapply Forall_buf_ok_same_region; [apply ram_write_same_region|done].
Qed.

Lemma inject_loop_outside r data off bufs a :
  Forall (buf_ok r) bufs -> 0 <= off <= zlen data -> ~ in_bufs bufs a ->
  ram_at (fst (inject_loop r data off bufs)) a = ram_at r a.
Proof.
  revert r off. induction bufs as [|b bufs IH]; intros r off Hok Hoff Ha; [done|].
  inversion Hok as [|? ? [Hb _] Hok']; subst. cbn [inject_loop].
  rewrite in_bufs_cons in Ha. unfold in_buf in Ha.
  destruct (Z.leb_spec (zlen data) off); [done|].
  rewrite IH.
  - apply ram_at_write_outside. rewrite zlen_slice by lia. intros ?. apply Ha. left. lia.
  - eapply Forall_buf_ok_same_region; [apply ram_write_same_region|done].
  - lia.
  - tauto.
Qed.

Lemma ram_in_range_ok r gpa n :
  ram_wf r -> ram_base r <= gpa -> gpa + n <= ram_base r + ram_len r ->
  ram_in_range r gpa n = true.
Proof.
  intros Hr ? ?. unfold ram_in_range.
  by rewrite (proj2 (ram_offset_iff r gpa n (gpa - ram_base r) Hr)).
Qed.

Lemma inject_loop_content r data off bufs k a :
  ram_wf r -> bytes_wf data -> Forall (buf_ok r) bufs -> bufs_disjoint bufs ->
  0 <= off <= zlen data -> 0 <= k -> off + k < zlen data ->
  scatter_addr bufs k = Some a ->
  ram_at (fst (inject_loop r data off bufs)) a = data !! Z.to_nat (off + k).
Proof.
  intros Hr Hd. revert r Hr off k.
  induction bufs as [|b bufs IH]; intros r Hr off k Hok Hdj Hoff Hk Hlt; [done|].
  inversion Hok as [|? ? [Hb [_ Hin]] Hok']; subst. destruct Hdj as [Hb_dj Hdj].
  cbn [inject_loop scatter_addr]. destruct (Z.leb_spec (zlen data) off); [lia|].
  set (n := Z.min (buf_len b) (zlen data - off)).
  set (r1 := fst (ram_write r (buf_addr b) (slice off n data))).
  assert (Hs : same_region r r1) by apply ram_write_same_region.
  assert (Hok1 : Forall (buf_ok r1) bufs) by (by eapply Forall_buf_ok_same_region).
  destruct (Z.ltb_spec k (buf_len b)); intros Ha.
  - injection Ha as <-. rewrite inject_loop_outside; [|done|lia|].
    2: { apply Hb_dj. unfold in_buf. lia. }
    assert (Hzl : zlen (slice off n data) = n) by (apply zlen_slice; lia).
    unfold r1. rewrite ram_at_write_inside; rewrite ?Hzl; [|apply ram_in_range_ok; lia || done|lia].
    rewrite lookup_slice by lia. destruct (Nat.ltb_spec (Z.to_nat (buf_addr b + k - buf_addr b)) (Z.to_nat n)); [|lia].
    f_equal. lia.
  - replace (off + k) with (off + n + (k - buf_len b)) by lia.
    apply IH; [|done|done|lia|lia|lia|done]. unfold r1. auto with amber.
Qed.

(** ** The used ring *)

(** The used ring of [qsz] entries at [used] lies inside guest RAM. *)
Definition used_ring_in_ram (r : GuestRam) (used qsz : Z) : Prop :=
  ram_base r <= used /\ used + 4 + 8 * qsz <= ram_base r + ram_len r.

Lemma write_u32_outside r gpa v a :
  ~ (gpa <= a < gpa + 4) -> ram_at (write_u32 r gpa v) a = ram_at r a.
Proof. intros. apply ram_at_write_outside. by rewrite zlen_le_bytes. Qed.
Lemma write_u16_outside r gpa v a :
  ~ (gpa <= a < gpa + 2) -> ram_at (write_u16 r gpa v) a = ram_at r a.
Proof. intros. apply ram_at_write_outside. by rewrite zlen_le_bytes. Qed.

Lemma read_u32_other r r' gpa :
  same_region r r' -> (forall a, gpa <= a < gpa + 4 -> ram_at r' a = ram_at r a) ->
  read_u32 r' gpa = read_u32 r gpa.
Proof. intros. unfold read_u32. by rewrite (ram_read_zeroed_at r). Qed.

Lemma read_u32_written r gpa v :
  fits 32 v -> ram_in_range r gpa 4 = true -> read_u32 (write_u32 r gpa v) gpa = v.
Proof.
  intros Hv Hr. etransitivity; [exact (typed_read_write r gpa 4 v Hr)|]. by apply Z.mod_small.
Qed.
Lemma read_u16_written r gpa v :
  fits 16 v -> ram_in_range r gpa 2 = true -> read_u16 (write_u16 r gpa v) gpa = v.
Proof.
  intros Hv Hr. etransitivity; [exact (typed_read_write r gpa 2 v Hr)|]. by apply Z.mod_small.
Qed.

(** On a ring inside guest RAM no address computation wraps. *)
Lemma push_used_unfold r used id len qsz :
  ram_wf r -> 0 < qsz -> used_ring_in_ram r used qsz ->
  let idx := read_u16 r (used + 2) in
  let elem := used + 4 + 8 * (idx mod qsz) in
  push_used r used id len qsz =
    write_u16 (write_u32 (write_u32 r elem id) (elem + 4) len) (used + 2) (wadd16 idx 1) /\
  used + 4 <= elem /\ elem + 8 <= used + 4 + 8 * qsz.
Proof.
  intros [Hb Hw _] Hq [Hlo Hhi] idx elem.
  assert (Hm : 0 <= idx mod qsz < qsz) by (by apply Z.mod_pos_bound).
  assert (E2 : wadd64 used 2 = used + 2) by (apply u64_id; lia).
  assert (Ee : wadd64 used (4 + 8 * (idx mod qsz)) = elem)
    by (unfold elem; rewrite <- Z.add_assoc; apply u64_id; lia).
  assert (Ee4 : wadd64 elem 4 = elem + 4) by (apply u64_id; unfold elem; lia).
  split; [|unfold elem; lia].
  unfold push_used. destruct (Z.eqb_spec qsz 0); [lia|].
  rewrite E2. fold idx. by rewrite Ee, Ee4.
Qed.

(** Publishing only touches the ring itself. *)
Lemma push_used_outside r used id len qsz a :
  ram_wf r -> 0 < qsz -> used_ring_in_ram r used qsz -> ~ (used <= a < used + 4 + 8 * qsz) ->
  ram_at (push_used r used id len qsz) a = ram_at r a.
Proof.
  intros Hr Hq Hring Ha.
  destruct (push_used_unfold r used id len qsz Hr Hq Hring) as (-> & ? & ?).
  rewrite write_u16_outside by lia. by rewrite !write_u32_outside by lia.
Qed.

(** ** Properties *)

(** C9: whatever the guest puts in its descriptor table, the chain walker
    returns at most [qsz] buffers (a cycle of [next] links cannot loop), each
    at most [MAX_DESC_LEN] long and, unless empty, wholly inside guest RAM. *)
Theorem collect_chain_safe (r : GuestRam) (desc head qsz : Z) :
  ram_wf r -> 0 <= qsz ->
  zlen (collect_chain r desc head qsz) <= qsz /\
  Forall (buf_ok r) (collect_chain r desc head qsz).
Proof.
  intros Hr Hq. split; [|by apply collect_chain_ok].
  pose proof (collect_loop_length r desc qsz (Z.to_nat qsz) head).
  unfold zlen, collect_chain. lia.
Qed.

(** The RAM image of the tests: 64 KiB at 1 GiB, a 0<->1 descriptor cycle. *)
Definition cycle_ram : GuestRam :=
  let r := GuestMemory_new 0x40000000 256 in
  let r := fst (ram_write r 0x40000000 (le_bytes 8 0x40000080 ++ le_bytes 4 1 ++ le_bytes 2 1 ++ le_bytes 2 1)) in
  fst (ram_write r 0x40000010 (le_bytes 8 0x40000080 ++ le_bytes 4 1 ++ le_bytes 2 1 ++ le_bytes 2 0)).

Lemma cycle_ram_wf : ram_wf cycle_ram.
Proof.
  repeat apply ram_write_wf; try (repeat apply Forall_app_2; apply le_bytes_wf).
  split; [done|done|apply zeros_wf].
Qed.

Lemma collect_chain_safe_witness :
  zlen (collect_chain cycle_ram 0x40000000 0 8) = 8 /\
  zlen (collect_chain cycle_ram 0x40000000 0 8) <= 8 /\
  Forall (buf_ok cycle_ram) (collect_chain cycle_ram 0x40000000 0 8).
Proof.
  split; [vm_compute; reflexivity|].
  apply (collect_chain_safe cycle_ram 0x40000000 0 8); [apply cycle_ram_wf|lia].
Defined.

(** the walker implements the chain specification: a chain that ends
    within [qsz] descriptors is collected exactly, buffer by buffer. *)
Theorem collect_chain_complete (r : GuestRam) (desc head qsz : Z) (bufs : list Buf) :
  chain r desc qsz head bufs -> zlen bufs <= qsz ->
  collect_chain r desc head qsz = bufs.
Proof.
  intros Hc Hl. unfold collect_chain.
  assert (Hf : (length bufs <= Z.to_nat qsz)%nat) by (unfold zlen in Hl; lia).
  revert Hf. clear Hl. generalize (Z.to_nat qsz) as fuel.
  induction Hc as [i Hi Hn|i bufs Hi Hn Hc IH]; intros fuel Hf;
    (destruct fuel as [|fuel]; [simpl in Hf; lia|]); simpl.
  - destruct (Z.leb_spec qsz i); [lia|]. by rewrite Hn.
  - destruct (Z.leb_spec qsz i); [lia|].
    destruct (Z.eqb_spec (Z.land (desc_flags r (wadd64 desc (16 * i))) VIRTQ_DESC_F_NEXT) 0); [done|].
    f_equal. apply IH. simpl in Hf. lia.
Qed.

Definition two_desc_ram : GuestRam :=
  let r := GuestMemory_new 0x40000000 512 in
  let r := fst (ram_write r 0x40000000 (le_bytes 8 0x40000080 ++ le_bytes 4 16 ++ le_bytes 2 1 ++ le_bytes 2 1)) in
  fst (ram_write r 0x40000010 (le_bytes 8 0x40000100 ++ le_bytes 4 32 ++ le_bytes 2 2 ++ le_bytes 2 0)).

Lemma collect_chain_complete_witness :
  collect_chain two_desc_ram 0x40000000 0 4 =
    [mkBuf 0x40000080 16 false; mkBuf 0x40000100 32 true].
Proof.
  apply (collect_chain_complete two_desc_ram 0x40000000 0 4); [|vm_compute; discriminate].
  change [mkBuf 0x40000080 16 false; mkBuf 0x40000100 32 true] with
    (mkBuf 0x40000080 16 false :: [mkBuf 0x40000100 32 true]).
  assert (E0 : desc_buf two_desc_ram (wadd64 0x40000000 (16 * 0)) = mkBuf 0x40000080 16 false)
    by (vm_compute; reflexivity).
  assert (E1 : desc_buf two_desc_ram (wadd64 0x40000000 (16 * 1)) = mkBuf 0x40000100 32 true)
    by (vm_compute; reflexivity).
  rewrite <- E0, <- E1.
  apply chain_next; [lia|vm_compute; discriminate|].
  replace (desc_next two_desc_ram (wadd64 0x40000000 (16 * 0))) with 1 by (vm_compute; reflexivity).
  apply chain_last; [lia|vm_compute; reflexivity].
Defined.

(** publishing on a used ring inside guest RAM advances the ring index
    by one (modulo 2^16), stores the head id and the byte count in the slot
    the old index selects, and touches no byte outside that slot and the
    index. *)
Theorem push_used_publishes (r : GuestRam) (used id len qsz : Z) :
  ram_wf r -> 0 < qsz -> used_ring_in_ram r used qsz -> fits 32 id -> fits 32 len ->
  let idx := read_u16 r (used + 2) in
  let elem := used + 4 + 8 * (idx mod qsz) in
  let r' := push_used r used id len qsz in
  read_u16 r' (used + 2) = wadd16 idx 1 /\
  read_u32 r' elem = id /\ read_u32 r' (elem + 4) = len /\
  (forall a, ~ (elem <= a < elem + 8) -> ~ (used + 2 <= a < used + 4) -> ram_at r' a = ram_at r a).
Proof.
  intros Hr Hq Hring Hid Hlen idx elem r'.
  destruct (push_used_unfold r used id len qsz Hr Hq Hring) as (Hr' & He1 & He2).
  fold idx elem r' in Hr', He1, He2. destruct Hring as [Hlo Hhi].
  set (r1 := write_u32 r elem id) in *. set (r2 := write_u32 r1 (elem + 4) len) in *.
  assert (S1 : same_region r r1) by apply write_u32_same_region.
  assert (S2 : same_region r1 r2) by apply write_u32_same_region.
  assert (Hin : forall gpa n, used <= gpa -> gpa + n <= used + 4 + 8 * qsz -> ram_in_range r gpa n = true)
    by (intros; apply ram_in_range_ok; [done|lia|lia]).
  rewrite Hr'. split; [|split; [|split]].
  - apply read_u16_written; [apply u16_range|].
    rewrite (same_region_in_range r1 r2), (same_region_in_range r r1) by done. apply Hin; lia.
  - rewrite (read_u32_other r2); [|apply write_u16_same_region|intros; apply write_u16_outside; lia].
    unfold r2. rewrite (read_u32_other r1); [|done|intros; apply write_u32_outside; lia].
    apply read_u32_written; [done|]. apply Hin; lia.
  - rewrite (read_u32_other r2); [|apply write_u16_same_region|intros; apply write_u16_outside; lia].
    apply read_u32_written; [done|].
    rewrite (same_region_in_range r r1) by done. apply Hin; lia.
  - intros a Ha1 Ha2. rewrite write_u16_outside by lia. unfold r2, r1.
    by rewrite !write_u32_outside by lia.
Qed.

Lemma push_used_publishes_witness :
  let r := write_u16 (GuestMemory_new 0x40000000 128) 0x40000042 7 in
  let r' := push_used r 0x40000040 5 99 4 in
  read_u16 r' (0x40000040 + 2) = 8.
Proof.
  refine (proj1 (push_used_publishes (write_u16 (GuestMemory_new 0x40000000 128) 0x40000042 7)
    0x40000040 5 99 4 _ _ _ _ _)); [|lia| |lia|lia].
  - apply write_u16_wf. split; [done|done|apply zeros_wf].
  - split; vm_compute; discriminate.
Defined.


(** A 4-entry queue with one 16-byte writable buffer posted. *)
Definition rx_ram : GuestRam :=
  let r := GuestMemory_new 0x40000000 512 in
  let r := fst (ram_write r 0x40000000 (le_bytes 8 0x40000100 ++ le_bytes 4 16 ++ le_bytes 2 2 ++ le_bytes 2 0)) in
  write_u16 r 0x40000042 1.
Definition rx_queue_ex : Queue := mkQueue 4 1 0x40000000 0x40000040 0x40000060 0.

Lemma rx_ram_wf : ram_wf rx_ram.
Proof.
  apply write_u16_wf, ram_write_wf; [|repeat apply Forall_app_2; apply le_bytes_wf].
  split; [done|done|apply zeros_wf].
Qed.

Lemma rx_bufs_eq :
  writable_bufs (collect_chain rx_ram (q_desc rx_queue_ex)
    (avail_head rx_ram rx_queue_ex (u16 (q_num rx_queue_ex))) (u16 (q_num rx_queue_ex)))
  = [mkBuf 0x40000100 16 true].
Proof. vm_compute. reflexivity. Qed.

