(* ===== verification/VirtioMmio.v ===== *)
(** * VirtioMmio: the virtio-mmio transport (crates/amber-core/src/virtio.rs)

    The [VirtioDevice] trait is the class of the same name; [VirtioMmio] is
    the register state machine around one device. The guest RAM a device
    holds a view of is the machine's RAM, threaded through every operation
    ([mm_attached] says whether [attach] has been called). Theorems about
    the transport are proved against [VirtioDeviceLaws], which each device
    file discharges. *)

From S2P Require Import Prelude Memory Virtqueue.

(** ** Registers *)

Definition MAGIC : Z := 0x000.
Definition VERSION : Z := 0x004.
Definition DEVICE_ID : Z := 0x008.
Definition VENDOR_ID : Z := 0x00c.
Definition DEVICE_FEATURES : Z := 0x010.
Definition DEVICE_FEATURES_SEL : Z := 0x014.
Definition DRIVER_FEATURES : Z := 0x020.
Definition DRIVER_FEATURES_SEL : Z := 0x024.
Definition QUEUE_SEL : Z := 0x030.
Definition QUEUE_NUM_MAX : Z := 0x034.
Definition QUEUE_NUM : Z := 0x038.
Definition QUEUE_READY : Z := 0x044.
Definition QUEUE_NOTIFY : Z := 0x050.
Definition INTERRUPT_STATUS : Z := 0x060.
Definition INTERRUPT_ACK : Z := 0x064.
Definition STATUS : Z := 0x070.
Definition QUEUE_DESC_LOW : Z := 0x080.
Definition QUEUE_DESC_HIGH : Z := 0x084.
Definition QUEUE_DRIVER_LOW : Z := 0x090.
Definition QUEUE_DRIVER_HIGH : Z := 0x094.
Definition QUEUE_DEVICE_LOW : Z := 0x0a0.
Definition QUEUE_DEVICE_HIGH : Z := 0x0a4.
Definition CONFIG_GENERATION : Z := 0x0fc.
Definition CONFIG : Z := 0x100.
Definition VIRTIO_MAGIC : Z := 0x74726976.
Definition VENDOR : Z := 0x616d6265.
Definition FEATURE_VERSION_1_WORD : Z := 1.

(** ** The device interface *)

Class VirtioDevice (D : Type) := {
  device_id : D -> Z;
  device_features : D -> Z -> Z;
  dev_config : D -> Z -> Z;
  num_queues : D -> Z;
  config_changed : D -> bool;
  ack_config : D -> D;
  handle : D -> Z -> GuestRam -> list Buf -> D * GuestRam * Z;
  rx_queue : D -> option Z;
  event_queue : D -> option Z;
  poll_rx : D -> Z -> D * option (list Z);
  wants_poll : D -> bool;
  (** nanoseconds the run loop must sleep *)
  take_throttle : D -> D * option Z
}.

(** The bytes of a request's chain, an empty buffer counting as the single
    byte at its address (where virtio-blk puts its status). *)
Definition in_chain (bufs : list Buf) (a : Z) : Prop :=
  Exists (fun b => buf_addr b <= a < buf_addr b + Z.max 1 (buf_len b)) bufs.

(** What a device promises to the transport. *)
Class VirtioDeviceLaws (D : Type) `{VirtioDevice D} := {
  dev_wf : D -> Prop;
  (** the guest addresses serving a request may change *)
  dev_touch : D -> Z -> GuestRam -> list Buf -> Z -> Prop;
  handle_ok : forall d q r bufs,
    dev_wf d -> ram_wf r -> Forall (buf_ok r) bufs -> zlen bufs <= QUEUE_MAX ->
    let '(d', r', n) := handle d q r bufs in
    dev_wf d' /\ ram_wf r' /\ same_region r r' /\ fits 32 n /\
    (forall a, ~ dev_touch d q r bufs a -> ram_at r' a = ram_at r a);
  poll_rx_ok : forall d cap,
    dev_wf d -> dev_wf (fst (poll_rx d cap)) /\
    forall data, snd (poll_rx d cap) = Some data -> bytes_wf data;
  ack_config_ok : forall d, dev_wf d -> dev_wf (ack_config d);
  take_throttle_ok : forall d, dev_wf d -> dev_wf (fst (take_throttle d));
  features_range : forall d sel, fits 32 (device_features d sel);
  config_range : forall d off, dev_wf d -> fits 32 (dev_config d off);
  device_id_range : forall d, dev_wf d -> fits 32 (device_id d);
  (** which queues the device drives itself never changes *)
  rx_queue_stable : forall d q r bufs, rx_queue (fst (fst (handle d q r bufs))) = rx_queue d;
  event_queue_stable : forall d q r bufs, event_queue (fst (fst (handle d q r bufs))) = event_queue d
}.

(** ** The transport *)

Section Transport.
Context {D : Type} `{VirtioDevice D}.

Record VirtioMmio := mkMmio {
  mm_dev : D;
  mm_attached : bool;
  mm_device_features_sel : Z;
  mm_status : Z;
  mm_queue_sel : Z;
  mm_queues : list Queue;
  mm_interrupt_status : Z;
  mm_pending_rx : option (list Z)
}.

(** Captured state ([VirtioDevState] in snapshot.rs): each queue as
    [num, ready, desc, avail, used, last_avail]. *)
Record VirtioDevState := mkDevState {
  ds_status : Z;
  ds_interrupt_status : Z;
  ds_queues : list (Z * Z * Z * Z * Z * Z)
}.

Definition VirtioMmio_new (dev : D) : VirtioMmio :=
  let n := Z.max (num_queues dev) 1 in
  mkMmio dev false 0 0 0 (replicate (Z.to_nat n) Queue_default) 0 None.

Definition attach (m : VirtioMmio) : VirtioMmio :=
  mkMmio (mm_dev m) true (mm_device_features_sel m) (mm_status m) (mm_queue_sel m)
    (mm_queues m) (mm_interrupt_status m) (mm_pending_rx m).

Definition set_dev (m : VirtioMmio) (d : D) : VirtioMmio :=
  mkMmio d (mm_attached m) (mm_device_features_sel m) (mm_status m) (mm_queue_sel m)
    (mm_queues m) (mm_interrupt_status m) (mm_pending_rx m).
Definition set_queues (m : VirtioMmio) (qs : list Queue) : VirtioMmio :=
  mkMmio (mm_dev m) (mm_attached m) (mm_device_features_sel m) (mm_status m) (mm_queue_sel m)
    qs (mm_interrupt_status m) (mm_pending_rx m).
Definition set_interrupt_status (m : VirtioMmio) (v : Z) : VirtioMmio :=
  mkMmio (mm_dev m) (mm_attached m) (mm_device_features_sel m) (mm_status m) (mm_queue_sel m)
    (mm_queues m) v (mm_pending_rx m).
Definition set_pending_rx (m : VirtioMmio) (p : option (list Z)) : VirtioMmio :=
  mkMmio (mm_dev m) (mm_attached m) (mm_device_features_sel m) (mm_status m) (mm_queue_sel m)
    (mm_queues m) (mm_interrupt_status m) p.
Definition set_features_sel (m : VirtioMmio) (v : Z) : VirtioMmio :=
  mkMmio (mm_dev m) (mm_attached m) v (mm_status m) (mm_queue_sel m)
    (mm_queues m) (mm_interrupt_status m) (mm_pending_rx m).
Definition set_queue_sel (m : VirtioMmio) (v : Z) : VirtioMmio :=
  mkMmio (mm_dev m) (mm_attached m) (mm_device_features_sel m) (mm_status m) v
    (mm_queues m) (mm_interrupt_status m) (mm_pending_rx m).
Definition set_status (m : VirtioMmio) (v : Z) : VirtioMmio :=
  mkMmio (mm_dev m) (mm_attached m) (mm_device_features_sel m) v (mm_queue_sel m)
    (mm_queues m) (mm_interrupt_status m) (mm_pending_rx m).

Definition irq_level (m : VirtioMmio) : bool :=
  nz (mm_interrupt_status m) || config_changed (mm_dev m).

Definition capture (m : VirtioMmio) : VirtioDevState :=
  mkDevState (mm_status m) (mm_interrupt_status m)
    (map (fun q => (q_num q, q_ready q, q_desc q, q_avail q, q_used q, q_last_avail q)) (mm_queues m)).

Definition restore_queue (v : Z * Z * Z * Z * Z * Z) : Queue :=
  let '(num, ready, desc, avail, used, last) := v in
  mkQueue (Z.min (u32 num) QUEUE_MAX) (u32 ready) desc avail used (u16 last).

(** [iter_mut().zip(&s.queues)]: queues beyond the captured ones keep their
    state, captured ones beyond the device's are ignored. *)
Fixpoint zip_restore (qs : list Queue) (vs : list (Z * Z * Z * Z * Z * Z)) : list Queue :=
  match qs, vs with
  | _ :: qs', v :: vs' => restore_queue v :: zip_restore qs' vs'
  | _, _ => qs
  end.

Definition restore (m : VirtioMmio) (s : VirtioDevState) : VirtioMmio :=
  mkMmio (mm_dev m) (mm_attached m) (mm_device_features_sel m) (ds_status s) (mm_queue_sel m)
    (zip_restore (mm_queues m) (ds_queues s)) (ds_interrupt_status s) (mm_pending_rx m).

Definition mmio_read (m : VirtioMmio) (offset : Z) : Z :=
  let q := default Queue_default (mm_queues m !! Z.to_nat (mm_queue_sel m)) in
  if offset =? MAGIC then VIRTIO_MAGIC
  else if offset =? VERSION then 2
  else if offset =? DEVICE_ID then device_id (mm_dev m)
  else if offset =? VENDOR_ID then VENDOR
  else if offset =? DEVICE_FEATURES then
    let f := device_features (mm_dev m) (mm_device_features_sel m) in
    if mm_device_features_sel m =? 1 then Z.lor f FEATURE_VERSION_1_WORD else f
  else if offset =? QUEUE_NUM_MAX then
    (if mm_queue_sel m <? zlen (mm_queues m) then QUEUE_MAX else 0)
  else if offset =? QUEUE_READY then q_ready q
  else if offset =? INTERRUPT_STATUS then
    Z.lor (mm_interrupt_status m) (if config_changed (mm_dev m) then 2 else 0)
  else if offset =? STATUS then mm_status m
  else if offset =? CONFIG_GENERATION then 0
  else if CONFIG <=? offset then dev_config (mm_dev m) (offset - CONFIG)
  else 0.

Definition with_queue (m : VirtioMmio) (sel : Z) (f : Queue -> Queue) : VirtioMmio :=
  set_queues m (alter f (Z.to_nat sel) (mm_queues m)).

Definition reset (m : VirtioMmio) : VirtioMmio :=
  set_queues (set_interrupt_status m 0) (map (fun _ => Queue_default) (mm_queues m)).

(** One iteration of the service loop of [process]: device, RAM and
    consumed index. *)
Definition service_one (qidx qsz : Z) (q : Queue) (s : D * GuestRam * Z) : D * GuestRam * Z :=
  let '(d, r, last) := s in
  let slot := last mod qsz in
  let head := read_u16 r (wadd64 (q_avail q) (4 + 2 * slot)) in
  let bufs := collect_chain r (q_desc q) head qsz in
  let '(d', r', written) := handle d qidx r bufs in
  (d', push_used r' (q_used q) head written qsz, wadd16 last 1).

(** [while q.last_avail != avail_idx && budget > 0]. *)
Fixpoint process_loop (budget : nat) (qidx qsz : Z) (q : Queue) (avail_idx : Z)
    (s : D * GuestRam * Z) (progressed : bool) : (D * GuestRam * Z) * bool :=
  match budget with
  | O => (s, progressed)
  | S budget' =>
      if snd s =? avail_idx then (s, progressed)
      else process_loop budget' qidx qsz q avail_idx (service_one qidx qsz q s) true
  end.

Definition set_last_avail (last : Z) (q : Queue) : Queue :=
  mkQueue (q_num q) (q_ready q) (q_desc q) (q_avail q) (q_used q) last.

Definition opt_is (o : option Z) (q : Z) : bool :=
  match o with Some x => x =? q | None => false end.

Definition process (m : VirtioMmio) (r : GuestRam) (qidx : Z) : VirtioMmio * GuestRam :=
  if negb (mm_attached m) then (m, r)
  else if opt_is (rx_queue (mm_dev m)) qidx || opt_is (event_queue (mm_dev m)) qidx then (m, r)
  else
    match mm_queues m !! Z.to_nat qidx with
    | None => (m, r)
    | Some q =>
        if (q_ready q =? 0) || (q_num q =? 0) then (m, r)
        else
          let qsz := u16 (q_num q) in
          let avail := read_u16 r (wadd64 (q_avail q) 2) in
          let '((d, r', last), progressed) :=
            process_loop (Z.to_nat qsz) qidx qsz q avail (mm_dev m, r, q_last_avail q) false in
          let m1 := with_queue (set_dev m d) qidx (set_last_avail last) in
          ((if progressed
            then set_interrupt_status m1 (Z.lor (mm_interrupt_status m1) 1) else m1), r')
    end.

Definition set_low (old v : Z) : Z := Z.lor (Z.ldiff old 0xffffffff) v.
Definition set_high (old v : Z) : Z := Z.lor (Z.land old 0xffffffff) (Z.shiftl v 32).

Definition q_set_num (v : Z) (q : Queue) : Queue :=
  mkQueue (Z.min v QUEUE_MAX) (q_ready q) (q_desc q) (q_avail q) (q_used q) (q_last_avail q).
Definition q_set_ready (v : Z) (q : Queue) : Queue :=
  mkQueue (q_num q) v (q_desc q) (q_avail q) (q_used q) (q_last_avail q).
Definition q_upd_desc (f : Z -> Z) (q : Queue) : Queue :=
  mkQueue (q_num q) (q_ready q) (f (q_desc q)) (q_avail q) (q_used q) (q_last_avail q).
Definition q_upd_avail (f : Z -> Z) (q : Queue) : Queue :=
  mkQueue (q_num q) (q_ready q) (q_desc q) (f (q_avail q)) (q_used q) (q_last_avail q).
Definition q_upd_used (f : Z -> Z) (q : Queue) : Queue :=
  mkQueue (q_num q) (q_ready q) (q_desc q) (q_avail q) (f (q_used q)) (q_last_avail q).

Definition mmio_write (m : VirtioMmio) (r : GuestRam) (offset value : Z) : VirtioMmio * GuestRam :=
  let v := u32 value in
  let sel := mm_queue_sel m in
  if offset =? DEVICE_FEATURES_SEL then (set_features_sel m v, r)
  else if (offset =? DRIVER_FEATURES) || (offset =? DRIVER_FEATURES_SEL) then (m, r)
  else if offset =? QUEUE_SEL then (set_queue_sel m v, r)
  else if offset =? QUEUE_NUM then (with_queue m sel (q_set_num v), r)
  else if offset =? QUEUE_READY then (with_queue m sel (q_set_ready v), r)
  else if offset =? QUEUE_NOTIFY then process m r v
  else if offset =? INTERRUPT_ACK then
    let m1 := set_interrupt_status m (Z.ldiff (mm_interrupt_status m) v) in
    ((if nz (Z.land v 2) then set_dev m1 (ack_config (mm_dev m1)) else m1), r)
  else if offset =? STATUS then
    let m1 := set_status m v in
    ((if v =? 0 then reset m1 else m1), r)
  else if offset =? QUEUE_DESC_LOW then (with_queue m sel (q_upd_desc (fun o => set_low o v)), r)
  else if offset =? QUEUE_DESC_HIGH then (with_queue m sel (q_upd_desc (fun o => set_high o v)), r)
  else if offset =? QUEUE_DRIVER_LOW then (with_queue m sel (q_upd_avail (fun o => set_low o v)), r)
  else if offset =? QUEUE_DRIVER_HIGH then (with_queue m sel (q_upd_avail (fun o => set_high o v)), r)
  else if offset =? QUEUE_DEVICE_LOW then (with_queue m sel (q_upd_used (fun o => set_low o v)), r)
  else if offset =? QUEUE_DEVICE_HIGH then (with_queue m sel (q_upd_used (fun o => set_high o v)), r)
  else (m, r).

(** One turn of the delivery loop of [pump_rx]: [inl] leaves the loop. *)
Definition pump_step (rxq : Z) (s : VirtioMmio * GuestRam * bool)
    : (VirtioMmio * GuestRam * bool) + (VirtioMmio * GuestRam * bool) :=
  let '(m, r, any) := s in
  match mm_queues m !! Z.to_nat rxq with
  | None => inl (m, r, any)
  | Some q =>
      match next_rx_capacity r q with
      | None => inl (m, r, any)
      | Some cap =>
          let '(d, o) := poll_rx (mm_dev m) cap in
          let m1 := set_dev m d in
          match o with
          | None => inl (m1, r, any)
          | Some data =>
              let '(r', q', ok) := inject_one r q data in
              if ok
              then inr (set_queues m1 (<[Z.to_nat rxq := q']> (mm_queues m1)), r', true)
              else inl (set_pending_rx m1 (Some data), r', any)
          end
      end
  end.

(** The retry of a payload held back by an earlier pump: [inl] is the early
    [return false]. *)
Definition pump_pending (rxq : Z) (m : VirtioMmio) (r : GuestRam)
    : (VirtioMmio * GuestRam) + (VirtioMmio * GuestRam * bool) :=
  match mm_pending_rx m with
  | None => inr (m, r, false)
  | Some data =>
      let m0 := set_pending_rx m None in
      match mm_queues m0 !! Z.to_nat rxq with
      | None => inl (m0, r)
      | Some q =>
          let '(r', q', ok) := inject_one r q data in
          if ok then inr (set_queues m0 (<[Z.to_nat rxq := q']> (mm_queues m0)), r', true)
          else inl (set_pending_rx m0 (Some data), r')
      end
  end.

(** [pump_rx] with a bound on the delivery loop: [None] when the bound is
    reached before the loop stops. *)
Definition pump_rx (fuel : nat) (m : VirtioMmio) (r : GuestRam) : option (VirtioMmio * GuestRam * bool) :=
  if negb (mm_attached m) then Some (m, r, false)
  else
    match rx_queue (mm_dev m) with
    | None => Some (m, r, false)
    | Some rxq =>
        match pump_pending rxq m r with
        | inl (m', r') => Some (m', r', false)
        | inr s =>
            match iter_nat fuel (pump_step rxq) s with
            | inr _ => None
            | inl (m', r', any) =>
                Some ((if any
                       then set_interrupt_status m' (Z.lor (mm_interrupt_status m') 1)
                       else m'), r', any)
            end
        end
    end.

End Transport.

Arguments VirtioMmio : clear implicits.


(** ** Invariant and functional lemmas, against the device's laws *)

Section TransportLaws.
Context {D : Type} `{VirtioDeviceLaws D}.
Implicit Types (m : VirtioMmio D) (r : GuestRam).

Record mmio_wf m : Prop := {
  mw_dev : dev_wf (mm_dev m);
  mw_queues : Forall queue_wf (mm_queues m);
  mw_some : 1 <= zlen (mm_queues m);
  mw_features_sel : fits 32 (mm_device_features_sel m);
  mw_status : fits 32 (mm_status m);
  mw_queue_sel : fits 32 (mm_queue_sel m);
  mw_interrupt : fits 32 (mm_interrupt_status m);
  mw_pending : from_option (fun data => bytes_wf data) True (mm_pending_rx m)
}.

(** A device operation keeps the machine well formed. *)
Definition step_ok m r m' r' : Prop := mmio_wf m' /\ ram_wf r' /\ same_region r r'.

Lemma queue_default_wf : queue_wf Queue_default.
Proof. unfold queue_wf, QUEUE_MAX; simpl; lia. Qed.

Lemma new_wf d : dev_wf d -> mmio_wf (VirtioMmio_new d).
Proof.
  intros Hd. split; simpl; try lia; try done.
  - apply Forall_replicate, queue_default_wf.
  - unfold zlen. rewrite length_replicate. lia.
Qed.

Lemma set_queues_wf m qs :
  mmio_wf m -> Forall queue_wf qs -> length qs = length (mm_queues m) -> mmio_wf (set_queues m qs).
Proof. intros [] Hq Hl. split; simpl; try done. unfold zlen. by rewrite Hl. Qed.

Lemma with_queue_wf m sel f :
  mmio_wf m -> (forall q, queue_wf q -> queue_wf (f q)) -> mmio_wf (with_queue m sel f).
Proof.
  intros Hm Hf. apply set_queues_wf; [done| |apply length_alter].
  apply Forall_alter; [by destruct Hm|auto].
Qed.

Lemma set_dev_wf m d : mmio_wf m -> dev_wf d -> mmio_wf (set_dev m d).
Proof. intros [] ?. by split. Qed.

Lemma set_interrupt_wf m v : mmio_wf m -> fits 32 v -> mmio_wf (set_interrupt_status m v).
Proof. intros [] ?. by split. Qed.

Lemma set_pending_wf m p :
  mmio_wf m -> from_option (fun data => bytes_wf data) True p -> mmio_wf (set_pending_rx m p).
Proof. intros [] ?. by split. Qed.

Lemma raise_used_wf m :
  mmio_wf m -> mmio_wf (set_interrupt_status m (Z.lor (mm_interrupt_status m) 1)).
Proof. intros Hm. apply set_interrupt_wf; [done|]. apply lor_range; [lia|apply Hm|lia]. Qed.

Lemma set_low_range o v : fits 64 o -> fits 32 v -> fits 64 (set_low o v).
Proof. intros. apply lor_range; [lia|by apply ldiff_range|lia]. Qed.

Lemma set_high_range o v : fits 64 o -> fits 32 v -> fits 64 (set_high o v).
Proof.
  intros. apply lor_range; [lia|apply land_range; lia|].
  rewrite Z.shiftl_mul_pow2 by lia. lia.
Qed.

Lemma q_updates_wf q v :
  queue_wf q -> fits 32 v ->
  queue_wf (q_set_num v q) /\ queue_wf (q_set_ready v q) /\
  queue_wf (q_upd_desc (fun o => set_low o v) q) /\ queue_wf (q_upd_desc (fun o => set_high o v) q) /\
  queue_wf (q_upd_avail (fun o => set_low o v) q) /\ queue_wf (q_upd_avail (fun o => set_high o v) q) /\
  queue_wf (q_upd_used (fun o => set_low o v) q) /\ queue_wf (q_upd_used (fun o => set_high o v) q).
Proof.
  intros (Hn & Hr & Hd & Ha & Hu & Hl) Hv.
  pose proof (set_low_range _ v Hd Hv); pose proof (set_high_range _ v Hd Hv).
  pose proof (set_low_range _ v Ha Hv); pose proof (set_high_range _ v Ha Hv).
  pose proof (set_low_range _ v Hu Hv); pose proof (set_high_range _ v Hu Hv).
  unfold queue_wf, q_set_num, q_set_ready, q_upd_desc, q_upd_avail, q_upd_used, QUEUE_MAX in *.
  cbn [q_num q_ready q_desc q_avail q_used q_last_avail]. repeat split; lia.
Qed.

Lemma set_last_avail_wf last q : queue_wf q -> fits 16 last -> queue_wf (set_last_avail last q).
Proof. unfold queue_wf. cbn [set_last_avail q_num q_ready q_desc q_avail q_used q_last_avail]. tauto. Qed.

(** *** The service loop *)

Definition loop_ok r0 (s : D * GuestRam * Z) : Prop :=
  let '(d, r, last) := s in dev_wf d /\ ram_wf r /\ same_region r0 r /\ fits 16 last.

Lemma collect_chain_count r desc head qsz :
  0 <= qsz -> zlen (collect_chain r desc head qsz) <= qsz.
Proof.
  intros. pose proof (collect_loop_length r desc qsz (Z.to_nat qsz) head).
  unfold zlen, collect_chain. lia.
Qed.

Lemma service_one_ok r0 qidx qsz q s :
  0 <= qsz <= QUEUE_MAX -> loop_ok r0 s -> loop_ok r0 (service_one qidx qsz q s).
Proof.
  intros Hq. destruct s as [[d r] last]. intros (Hd & Hr & Hs & Hl). unfold service_one.
  set (head := read_u16 _ _). set (bufs := collect_chain _ _ _ _).
  pose proof (handle_ok d qidx r bufs Hd Hr (collect_chain_ok r _ head qsz Hr)) as Hok.
  destruct (handle d qidx r bufs) as [[d' r'] w].
  destruct Hok as (? & ? & ? & ? & _).
  { etransitivity; [apply collect_chain_count; lia|lia]. }
  split; [done|]. split; [auto with amber|]. split; [|apply u16_range].
  etransitivity; [done|]. etransitivity; [done|]. apply push_used_same_region.
Qed.

(** How many chains a notify serves. *)
Definition service_count (qsz last avail : Z) : Z := Z.min qsz ((avail - last) mod 2 ^ 16).

Lemma process_loop_iter budget qidx qsz q avail s progressed :
  fits 16 avail -> fits 16 (snd s) ->
  let n := Z.to_nat (service_count (Z.of_nat budget) (snd s) avail) in
  process_loop budget qidx qsz q avail s progressed =
    (Nat.iter n (service_one qidx qsz q) s, progressed || (0 <? Z.of_nat n)) /\
  snd (Nat.iter n (service_one qidx qsz q) s) = u16 (snd s + Z.of_nat n).
Proof.
  intros Ha. revert s progressed.
  assert (Hsnd : forall s, snd (service_one qidx qsz q s) = wadd16 (snd s) 1).
  { intros [[d r] l]. unfold service_one. by destruct (handle _ _ _ _) as [[? ?] ?]. }
  induction budget as [|budget IH]; intros s progressed Hs n.
  - assert (n = 0%nat) as -> by (unfold n, service_count; wsolve).
    simpl. rewrite orb_false_r, Z.add_0_r, u16_id by done. done.
  - cbn [process_loop]. destruct (Z.eqb_spec (snd s) avail) as [E|E].
    + assert (n = 0%nat) as ->.
      { unfold n, service_count. rewrite E, Z.sub_diag. done. }
      simpl. rewrite orb_false_r, Z.add_0_r, u16_id by done. done.
    + destruct (IH (service_one qidx qsz q s) true) as [IH1 IH2].
      { rewrite Hsnd. apply u16_range. }
      rewrite Hsnd in IH1, IH2.
      assert (Hn : n = S (Z.to_nat (service_count (Z.of_nat budget) (wadd16 (snd s) 1) avail)))
        by (unfold n, service_count; wsolve).
      rewrite Hn, Nat.iter_succ_r, IH1, IH2. split.
      * f_equal. rewrite orb_true_l. symmetry. apply orb_true_iff. right. apply Z.ltb_lt. lia.
      * unfold wadd16, u16. rewrite Zplus_mod_idemp_l. f_equal. lia.
Qed.

Lemma iter_service_ok n r0 qidx qsz q s :
  0 <= qsz <= QUEUE_MAX -> loop_ok r0 s -> loop_ok r0 (Nat.iter n (service_one qidx qsz q) s).
Proof. intros. induction n; simpl; auto using service_one_ok. Qed.

Lemma queue_size q : queue_wf q -> u16 (q_num q) = q_num q.
Proof. intros [Hq _]. apply u16_id. unfold QUEUE_MAX in Hq. lia. Qed.

(** [process] on a queue that is served, as an iteration count. *)
Lemma process_unfold m r qidx q :
  mmio_wf m -> ram_wf r -> mm_attached m = true ->
  rx_queue (mm_dev m) <> Some qidx -> event_queue (mm_dev m) <> Some qidx ->
  mm_queues m !! Z.to_nat qidx = Some q -> q_ready q <> 0 -> q_num q <> 0 ->
  let n := service_count (q_num q) (q_last_avail q) (avail_idx r q) in
  let '(d, r', last) :=
    Nat.iter (Z.to_nat n) (service_one qidx (q_num q) q) (mm_dev m, r, q_last_avail q) in
  last = u16 (q_last_avail q + n) /\
  process m r qidx =
    (let m1 := with_queue (set_dev m d) qidx (set_last_avail last) in
     if 0 <? n then set_interrupt_status m1 (Z.lor (mm_interrupt_status m1) 1) else m1, r').
Proof.
  intros Hm Hr Hat Hrx Hev Hq Hready Hnum n.
  assert (Hqw : queue_wf q) by (eapply Forall_lookup_1; [apply Hm|done]).
  unfold process. rewrite Hat. simpl.
  assert (Hopt : forall o, o <> Some qidx -> opt_is o qidx = false).
  { intros [x|] Ho; [|done]. apply Z.eqb_neq. congruence. }
  rewrite !Hopt by done. simpl. rewrite Hq.
  destruct (Z.eqb_spec (q_ready q) 0); [done|]. destruct (Z.eqb_spec (q_num q) 0); [done|].
  simpl. rewrite (queue_size q Hqw). destruct Hqw as (Hn & _ & _ & _ & _ & Hl).
  unfold avail_idx in n. set (avail := read_u16 r (wadd64 (q_avail q) 2)) in *.
  assert (Hav : fits 16 avail) by (by apply read_u16_range).
  destruct (process_loop_iter (Z.to_nat (q_num q)) qidx (q_num q) q avail
    (mm_dev m, r, q_last_avail q) false Hav Hl) as [E1 E2].
  simpl in E1, E2. rewrite !Z2Nat.id in E1, E2 by lia. fold n in E1, E2.
  assert (Hnn : 0 <= n) by (unfold n, service_count; wsolve).
  rewrite Z2Nat.id in E1, E2 by done.
  destruct (Nat.iter _ _ _) as [[d r'] last]. simpl in E2. split; [done|]. by rewrite E1.
Qed.

Lemma process_ok m r qidx :
  mmio_wf m -> ram_wf r -> step_ok m r (fst (process m r qidx)) (snd (process m r qidx)).
Proof.
  intros Hm Hr. assert (Hid : step_ok m r m r) by done.
  destruct (mm_attached m) eqn:Hat; [|unfold process; by rewrite Hat].
  destruct (decide (rx_queue (mm_dev m) = Some qidx)) as [E|Hrx].
  { unfold process. rewrite Hat, E. simpl. by rewrite Z.eqb_refl. }
  destruct (decide (event_queue (mm_dev m) = Some qidx)) as [E|Hev].
  { unfold process. rewrite Hat, E. simpl. by rewrite Z.eqb_refl, orb_true_r. }
  destruct (mm_queues m !! Z.to_nat qidx) as [q|] eqn:Hq.
  2: { unfold process. rewrite Hat, Hq. by destruct (_ || _). }
  destruct ((q_ready q =? 0) || (q_num q =? 0)) eqn:Hz.
  { unfold process. rewrite Hat, Hq, Hz. by destruct (opt_is _ _ || _). }
  apply orb_false_iff in Hz as [Hz1%Z.eqb_neq Hz2%Z.eqb_neq].
  assert (Hqw : queue_wf q) by (eapply Forall_lookup_1; [apply Hm|done]).
  pose proof (process_unfold m r qidx q Hm Hr Hat Hrx Hev Hq Hz1 Hz2) as Hp.
  set (n := service_count _ _ _) in Hp. cbv zeta in Hp.
  assert (Hl : loop_ok r (Nat.iter (Z.to_nat n) (service_one qidx (q_num q) q)
    (mm_dev m, r, q_last_avail q))).
  { apply iter_service_ok; [apply Hqw|]. split; [apply Hm|]. split; [done|].
    split; [done|]. apply Hqw. }
  destruct (Nat.iter _ _ _) as [[d r'] last]. destruct Hp as [_ ->]. simpl.
  destruct Hl as (Hd & Hr' & Hs & Hlast).
  split; [|done].
  assert (Hm1 : mmio_wf (with_queue (set_dev m d) qidx (set_last_avail last))).
  { apply with_queue_wf; [by apply set_dev_wf|]. intros. by apply set_last_avail_wf. }
  destruct (0 <? n); [|done]. exact (raise_used_wf _ Hm1).
Qed.

Lemma mmio_write_ok m r off v :
  mmio_wf m -> ram_wf r -> step_ok m r (fst (mmio_write m r off v)) (snd (mmio_write m r off v)).
Proof.
  intros Hm Hr. unfold mmio_write.
  pose proof (u32_range v) as Hv. set (w := u32 v) in *.
  assert (Hid : forall m', mmio_wf m' -> step_ok m r m' r) by done.
  assert (Hq : forall f, (forall q, queue_wf q -> queue_wf (f q)) ->
    step_ok m r (with_queue m (mm_queue_sel m) f) r) by (intros; by apply Hid, with_queue_wf).
  destruct (off =? DEVICE_FEATURES_SEL). { apply Hid. destruct Hm. by split. }
  destruct (_ || _). { by apply Hid. }
  destruct (off =? QUEUE_SEL). { apply Hid. destruct Hm. by split. }
  destruct (off =? QUEUE_NUM). { apply Hq. intros q Hqw. by apply (q_updates_wf q w). }
  destruct (off =? QUEUE_READY). { apply Hq. intros q Hqw. by apply (q_updates_wf q w). }
  destruct (off =? QUEUE_NOTIFY). { by apply process_ok. }
  destruct (off =? INTERRUPT_ACK).
  { apply Hid.
    assert (Hm1 : mmio_wf (set_interrupt_status m (Z.ldiff (mm_interrupt_status m) w))).
    { apply set_interrupt_wf; [done|]. apply ldiff_range, Hm. }
    destruct (nz _); [|done]. apply set_dev_wf; [done|]. apply ack_config_ok, Hm. }
  destruct (off =? STATUS).
  { apply Hid. assert (Hm1 : mmio_wf (set_status m w)) by (destruct Hm; by split).
    destruct (w =? 0); [|done]. unfold reset. apply set_queues_wf.
    - by apply set_interrupt_wf.
    - apply Forall_map, Forall_true. intros _. apply queue_default_wf.
    - apply length_map. }
  do 6 (destruct (_ =? _); [apply Hq; intros q Hqw; by apply (q_updates_wf q w)|]).
  by apply Hid.
Qed.

(** *** Which bytes of guest RAM a notify may change *)

(** The [k]-th chain served after state [s] may change byte [a]. *)
Definition one_touch qidx qsz q (s : D * GuestRam * Z) (a : Z) : Prop :=
  let '(d, r, last) := s in
  dev_touch d qidx r (collect_chain r (q_desc q)
    (read_u16 r (wadd64 (q_avail q) (4 + 2 * (last mod qsz)))) qsz) a.

Definition touched (n : nat) qidx qsz q (s : D * GuestRam * Z) (a : Z) : Prop :=
  exists k, (k < n)%nat /\ one_touch qidx qsz q (Nat.iter k (service_one qidx qsz q) s) a.

Lemma service_one_frame r0 qidx qsz q s a :
  0 < qsz <= QUEUE_MAX -> loop_ok r0 s -> used_ring_in_ram r0 (q_used q) qsz ->
  ~ one_touch qidx qsz q s a -> ~ (q_used q <= a < q_used q + 4 + 8 * qsz) ->
  ram_at (snd (fst (service_one qidx qsz q s))) a = ram_at (snd (fst s)) a.
Proof.
  intros Hq. destruct s as [[d r] last]. intros (Hd & Hr & Hs & Hl) Hring Ht Ha.
  unfold service_one, one_touch in *.
  set (head := read_u16 _ _) in *. set (bufs := collect_chain _ _ _ _) in *.
  pose proof (handle_ok d qidx r bufs Hd Hr (collect_chain_ok r _ head qsz Hr)) as Hok.
  destruct (handle d qidx r bufs) as [[d' r'] w].
  destruct Hok as (? & ? & Hs' & ? & Hframe).
  { etransitivity; [apply collect_chain_count; lia|lia]. }
  simpl. rewrite push_used_outside; [by apply Hframe|done|lia| |done].
  unfold used_ring_in_ram. destruct Hs' as [-> ->], Hs as [-> ->]. exact Hring.
Qed.

Lemma iter_service_frame n r0 qidx qsz q s a :
  0 < qsz <= QUEUE_MAX -> loop_ok r0 s -> used_ring_in_ram r0 (q_used q) qsz ->
  ~ touched n qidx qsz q s a -> ~ (q_used q <= a < q_used q + 4 + 8 * qsz) ->
  ram_at (snd (fst (Nat.iter n (service_one qidx qsz q) s))) a = ram_at (snd (fst s)) a.
Proof.
  intros Hq Hs Hring Ht Ha. induction n as [|n IH]; [done|].
  change (Nat.iter (S n) (service_one qidx qsz q) s)
    with (service_one qidx qsz q (Nat.iter n (service_one qidx qsz q) s)).
  rewrite (service_one_frame r0); [apply IH|done| |done| |done].
  - intros (k & Hk & Hto). apply Ht. exists k. split; [lia|done].
  - apply iter_service_ok; [lia|done].
  - intros Hto. apply Ht. exists n. split; [lia|done].
Qed.

(** *** The receive pump *)

Definition pump_ok r0 rxq (s : VirtioMmio D * GuestRam * bool) : Prop :=
  let '(m, r, _) := s in
  step_ok m r0 m r /\ mm_pending_rx m = None /\ is_Some (mm_queues m !! Z.to_nat rxq).

(** Why the pump stopped: no receive buffer is posted, or the device has
    nothing more to deliver. *)
Definition pump_stopped rxq m r : Prop :=
  (exists q, mm_queues m !! Z.to_nat rxq = Some q /\ next_rx_capacity r q = None) \/
  (exists d cap, poll_rx d cap = (mm_dev m, None)).

Lemma inject_after_capacity r q cap data :
  next_rx_capacity r q = Some cap -> snd (inject_one r q data) = true.
Proof.
  unfold next_rx_capacity, inject_one. destruct (_ || _); [done|].
  destruct (_ =? _); [done|]. intros _. by destruct (inject_loop _ _ _ _).
Qed.

Lemma injected_ok r0 rxq m r q data r' q' :
  step_ok m r0 m r -> mm_queues m !! Z.to_nat rxq = Some q -> bytes_wf data ->
  inject_one r q data = (r', q', true) ->
  step_ok m r0 (set_queues m (<[Z.to_nat rxq := q']> (mm_queues m))) r' /\
  is_Some (<[Z.to_nat rxq := q']> (mm_queues m) !! Z.to_nat rxq).
Proof.
  intros (Hm & Hr & Hs) Hq Hd Hi.
  assert (Hqw : queue_wf q) by (eapply Forall_lookup_1; [apply Hm|done]).
  pose proof (inject_one_wf r q data Hr Hd Hqw) as Hw. rewrite Hi in Hw.
  destruct Hw as (Hr' & Hs' & Hq'). split; [split|].
  - apply set_queues_wf; [done| |by rewrite length_insert]. apply Forall_insert; [apply Hm|done].
  - split; [done|]. by etransitivity.
  - rewrite list_lookup_insert_eq; [done|]. by eapply lookup_lt_Some.
Qed.

Lemma pump_step_ok r0 rxq s :
  pump_ok r0 rxq s ->
  match pump_step rxq s with
  | inl (m', r', any) => pump_ok r0 rxq (m', r', any) /\ pump_stopped rxq m' r'
  | inr s' => pump_ok r0 rxq s'
  end.
Proof.
  destruct s as [[m r] any]. intros (Hok & Hp & [q Hq]). pose proof Hok as (Hm & Hr & Hs).
  unfold pump_step. rewrite Hq.
  destruct (next_rx_capacity r q) as [cap|] eqn:Hcap.
  2: { split; [split; [done|split; [done|eauto]]|]. left. eauto. }
  destruct (poll_rx_ok (mm_dev m) cap (mw_dev m Hm)) as [Hd Hdata].
  destruct (poll_rx (mm_dev m) cap) as [d o] eqn:Hpoll. simpl in Hd, Hdata.
  assert (Hm1 : step_ok (set_dev m d) r0 (set_dev m d) r).
  { split; [by apply set_dev_wf|done]. }
  destruct o as [data|].
  2: { split; [split; [done|split; [done|simpl; eauto]]|]. right. eauto. }
  pose proof (inject_after_capacity r q cap data Hcap) as Hinj.
  destruct (inject_one r q data) as [[r' q'] ok] eqn:Hi. simpl in Hinj. subst ok.
  destruct (injected_ok r0 rxq (set_dev m d) r q data r' q' Hm1 Hq (Hdata data eq_refl) Hi).
  split; [done|]. split; [exact Hp|done].
Qed.

Lemma pump_step_less (left : D -> nat) rxq s s' :
  (forall d cap data d', poll_rx d cap = (d', Some data) -> (left d' < left d)%nat) ->
  pump_step rxq s = inr s' -> (left (mm_dev (fst (fst s'))) < left (mm_dev (fst (fst s))))%nat.
Proof.
  intros Hless. destruct s as [[m r] any]. unfold pump_step.
  destruct (mm_queues m !! _); [|done]. destruct (next_rx_capacity _ _); [|done].
  destruct (poll_rx _ _) as [d [data|]] eqn:Hpoll; [|done].
  destruct (inject_one _ _ _) as [[? ?] []]; [|done].
  intros [= <-]. simpl. by eapply Hless.
Qed.

(** *** Driver setup *)

(** The two halves of a 64-bit address, written low then high, compose. *)
Lemma halves_compose o addr :
  fits 64 addr ->
  set_high (set_low o (u32 (Z.land addr 0xffffffff))) (u32 (Z.shiftr addr 32)) = addr.
Proof.
  intros Ha. unfold set_high, set_low, u32.
  change 0xffffffff with (Z.ones 32). rewrite <- !Z.land_ones by lia.
  apply Z.bits_inj_iff'. intros n Hn.
  rewrite Z.lor_spec, Z.land_spec, Z.lor_spec, Z.ldiff_spec, !Z.land_spec.
  rewrite (Z.testbit_ones_nonneg 32 n) by lia.
  destruct (Z.ltb_spec n 32).
  - rewrite Z.shiftl_spec_low by lia. simpl. rewrite orb_false_r. by destruct (Z.testbit o n), (Z.testbit addr n).
  - rewrite Z.shiftl_spec, Z.land_spec, Z.shiftr_spec by lia.
    replace (n - 32 + 32) with n by lia. rewrite (Z.testbit_ones_nonneg 32 (n - 32)) by lia.
    rewrite !andb_false_r. simpl.
    destruct (Z.ltb_spec (n - 32) 32); [by rewrite andb_true_r|].
    rewrite andb_false_r. symmetry. apply (Z.bits_above_log2 addr n); [lia|].
    destruct (decide (addr = 0)) as [->|]; [simpl; lia|].
    enough (Z.log2 addr < 64) by lia. apply Z.log2_lt_pow2; lia.
Qed.

(** What a guest driver does to bring up queue [sel] ([setup_queue] of the
    unit tests, the order the virtio specification prescribes). *)
Definition setup_queue m r (sel num desc avail used : Z) : VirtioMmio D * GuestRam :=
  let w (s : VirtioMmio D * GuestRam) off v := mmio_write (fst s) (snd s) off v in
  let s := w (m, r) QUEUE_SEL sel in
  let s := w s QUEUE_NUM num in
  let s := w s QUEUE_DESC_LOW (Z.land desc 0xffffffff) in
  let s := w s QUEUE_DESC_HIGH (Z.shiftr desc 32) in
  let s := w s QUEUE_DRIVER_LOW (Z.land avail 0xffffffff) in
  let s := w s QUEUE_DRIVER_HIGH (Z.shiftr avail 32) in
  let s := w s QUEUE_DEVICE_LOW (Z.land used 0xffffffff) in
  let s := w s QUEUE_DEVICE_HIGH (Z.shiftr used 32) in
  w s QUEUE_READY 1.

(** The net effect of [setup_queue] on the queue it selects. *)
Definition q_setup (num desc avail used : Z) (q : Queue) : Queue :=
  mkQueue (Z.min (u32 num) QUEUE_MAX) (u32 1)
    (set_high (set_low (q_desc q) (u32 (Z.land desc 0xffffffff))) (u32 (Z.shiftr desc 32)))
    (set_high (set_low (q_avail q) (u32 (Z.land avail 0xffffffff))) (u32 (Z.shiftr avail 32)))
    (set_high (set_low (q_used q) (u32 (Z.land used 0xffffffff))) (u32 (Z.shiftr used 32)))
    (q_last_avail q).

Lemma with_queue_twice m sel f g :
  with_queue (with_queue m sel f) sel g = with_queue m sel (g ∘ f).
Proof. unfold with_queue, set_queues; cbn. by rewrite list_alter_alter_eq. Qed.

Lemma setup_queue_eq m r sel num desc avail used :
  setup_queue m r sel num desc avail used =
    (with_queue (set_queue_sel m (u32 sel)) (u32 sel) (q_setup num desc avail used), r).
Proof.
  unfold setup_queue.
  change (mmio_write (fst (m, r)) (snd (m, r)) QUEUE_SEL sel) with (set_queue_sel m (u32 sel), r).
  set (m1 := set_queue_sel m (u32 sel)). change (u32 sel) with (mm_queue_sel m1).
  assert (W : forall f off v g, (forall m', mmio_write m' r off v = (with_queue m' (mm_queue_sel m') g, r)) ->
    mmio_write (with_queue m1 (mm_queue_sel m1) f) r off v = (with_queue m1 (mm_queue_sel m1) (g ∘ f), r)).
  { intros f off v g Hw. rewrite Hw. cbn [mm_queue_sel with_queue set_queues].
    by rewrite with_queue_twice. }
  change (mmio_write (fst (m1, r)) (snd (m1, r)) QUEUE_NUM num)
    with (with_queue m1 (mm_queue_sel m1) (q_set_num (u32 num)), r).
  cbn [fst snd].
  repeat (erewrite W by (intros; reflexivity); cbn [fst snd]).
  reflexivity.
Qed.

Lemma list_alter_lookup_insert {A} (f : A -> A) i (l : list A) x :
  l !! i = Some x -> alter f i l = <[i := f x]> l.
Proof.
  revert i. induction l as [|y l IH]; intros [|i]; simpl; [done..| |].
  - by intros [= ->].
  - intros Hl. f_equal. by apply IH.
Qed.

Lemma zip_restore_capture (qs qs0 : list Queue) :
  Forall queue_wf qs -> length qs0 = length qs ->
  zip_restore qs0 (map (fun q => (q_num q, q_ready q, q_desc q, q_avail q, q_used q, q_last_avail q)) qs) = qs.
Proof.
  intros Hq. revert qs0. induction Hq as [|q qs Hq _ IH]; intros [|q0 qs0] Hl; simpl in *; try done.
  f_equal; [|apply IH; lia]. destruct Hq as (Hn & Hr & _ & _ & _ & Hlast).
  unfold QUEUE_MAX in *. rewrite !u32_id, u16_id, Z.min_l by lia. by destruct q.
Qed.

Lemma zip_restore_wf (qs : list Queue) vs :
  Forall queue_wf qs ->
  Forall (fun v => let '(num, ready, desc, avail, used, last) := v in
    fits 64 num /\ fits 64 desc /\ fits 64 avail /\ fits 64 used) vs ->
  Forall queue_wf (zip_restore qs vs) /\ length (zip_restore qs vs) = length qs.
Proof.
  intros Hq. revert vs. induction Hq as [|q qs Hq Hqs IH]; intros [|v vs] Hv; simpl; auto.
  inversion Hv as [|? ? Hv1 Hv2]; subst. destruct (IH vs Hv2) as [IH1 IH2].
  split; [|by rewrite IH2]. constructor; [|done].
  destruct v as [[[[[num ready] desc] avail] used] last].
  pose proof (u32_range num); pose proof (u32_range ready); pose proof (u16_range last).
  unfold queue_wf, QUEUE_MAX, restore_queue. cbn [q_num q_ready q_desc q_avail q_used q_last_avail].
  unfold QUEUE_MAX. lia.
Qed.

(** *** The transport as a state machine *)

(** The values of a snapshot at their widths ([u32] and [u64] fields). *)
Definition dev_state_wf (s : VirtioDevState) : Prop :=
  fits 32 (ds_status s) /\ fits 32 (ds_interrupt_status s) /\
  Forall (fun v => let '(num, ready, desc, avail, used, last) := v in
    fits 64 num /\ fits 64 desc /\ fits 64 avail /\ fits 64 used) (ds_queues s).

(** Everything that can happen to a device and the guest RAM it serves: a
    guest register write, an arbitrary guest store to RAM, the run loop
    pumping the receive queue or draining the throttle, a snapshot restore. *)
Inductive mm_step : VirtioMmio D * GuestRam -> VirtioMmio D * GuestRam -> Prop :=
| step_write m r off v : mm_step (m, r) (mmio_write m r off v)
| step_guest m r r' : ram_wf r' -> same_region r r' -> mm_step (m, r) (m, r')
| step_pump m r fuel m' r' any : pump_rx fuel m r = Some (m', r', any) -> mm_step (m, r) (m', r')
| step_throttle m r : mm_step (m, r) (set_dev m (fst (take_throttle (mm_dev m))), r)
| step_attach m r : mm_step (m, r) (attach m, r)
| step_restore m r s : dev_state_wf s -> mm_step (m, r) (restore m s, r).

Lemma pump_pending_ok rxq m r :
  mmio_wf m -> ram_wf r ->
  match pump_pending rxq m r with
  | inl (m', r') => step_ok m r m' r'
  | inr (m', r', _) => step_ok m r m' r'
  end.
Proof.
  intros Hm Hr. unfold pump_pending. destruct (mm_pending_rx m) as [data|] eqn:Hp; [|done].
  assert (Hd : bytes_wf data) by (pose proof (mw_pending m Hm) as Hw; by rewrite Hp in Hw).
  assert (Hm0 : mmio_wf (set_pending_rx m None)) by (by apply set_pending_wf).
  destruct (mm_queues (set_pending_rx m None) !! Z.to_nat rxq) as [q|] eqn:Hq; [|done].
  assert (Hqw : queue_wf q) by (eapply Forall_lookup_1; [apply Hm0|done]).
  pose proof (inject_one_wf r q data Hr Hd Hqw) as Hw.
  destruct (inject_one r q data) as [[r' q'] ok] eqn:Hi. destruct Hw as (? & ? & ?).
  destruct ok; [|split; [by apply set_pending_wf|done]].
  by apply (injected_ok r rxq (set_pending_rx m None) r q data).
Qed.

(** The loop alone keeps the machine well formed, whatever the pending slot
    holds. *)
Lemma pump_step_wf r0 rxq s :
  (let '(m, r, _) := s in step_ok m r0 m r) ->
  match pump_step rxq s with
  | inl (m', r', _) => step_ok m' r0 m' r'
  | inr (m', r', _) => step_ok m' r0 m' r'
  end.
Proof.
  destruct s as [[m r] any]. intros Hok. pose proof Hok as (Hm & Hr & Hs). unfold pump_step.
  destruct (mm_queues m !! Z.to_nat rxq) as [q|] eqn:Hq; [|done].
  destruct (next_rx_capacity r q) as [cap|] eqn:Hcap; [|done].
  destruct (poll_rx_ok (mm_dev m) cap (mw_dev m Hm)) as [Hd Hdata].
  destruct (poll_rx (mm_dev m) cap) as [d o]. simpl in Hd, Hdata.
  assert (Hm1 : step_ok (set_dev m d) r0 (set_dev m d) r) by (split; [by apply set_dev_wf|done]).
  destruct o as [data|]; [|done].
  pose proof (inject_after_capacity r q cap data Hcap) as Hinj.
  destruct (inject_one r q data) as [[r' q'] ok] eqn:Hi. simpl in Hinj. subst ok.
  apply (injected_ok r0 rxq (set_dev m d) r q data); auto.
Qed.

Lemma pump_rx_wf fuel m r m' r' any :
  mmio_wf m -> ram_wf r -> pump_rx fuel m r = Some (m', r', any) -> step_ok m r m' r'.
Proof.
  intros Hm Hr. unfold pump_rx. destruct (negb _); [by intros [= <- <- _]|].
  destruct (rx_queue _) as [rxq|]; [|by intros [= <- <- _]].
  pose proof (pump_pending_ok rxq m r Hm Hr) as Hp.
  destruct (pump_pending rxq m r) as [[m1 r1]|[[m1 r1] any1]]; [by intros [= <- <- _]|].
  pose proof (iter_nat_inv (fun s => let '(m, r0, _) := s in step_ok m r m r0)
    (fun s => let '(m, r0, _) := s in step_ok m r m r0) (pump_step rxq) fuel (m1, r1, any1)) as Hi.
  destruct (iter_nat _ _ _) as [[[m2 r2] any2]|]; [|done]. intros [= <- <- _].
  destruct Hi as (Hm2 & Hr2 & Hs2).
  - intros [[m3 r3] any3] H3. pose proof (pump_step_wf r rxq (m3, r3, any3) H3) as Hst.
    by destruct (pump_step rxq _) as [[[? ?] ?]|[[? ?] ?]].
  - exact Hp.
  - split; [|done]. destruct any2; [by apply raise_used_wf|done].
Qed.

(** *** Device invariants

    A predicate of the device that its own operations keep is kept by the
    whole transport, which also never changes how many queues there are. *)
Record dev_closed (P : D -> Prop) : Prop := {
  dc_handle : forall d q r bufs, P d -> P (fst (fst (handle d q r bufs)));
  dc_poll : forall d cap, P d -> P (fst (poll_rx d cap));
  dc_ack : forall d, P d -> P (ack_config d);
  dc_throttle : forall d, P d -> P (fst (take_throttle d))
}.

Definition keeps (P : D -> Prop) (n : nat) m : Prop := P (mm_dev m) /\ length (mm_queues m) = n.

Lemma with_queue_keeps P n m sel f : keeps P n m -> keeps P n (with_queue m sel f).
Proof. intros [? ?]. split; [done|]. unfold with_queue; cbn. by rewrite length_alter. Qed.

Lemma service_one_dev P qidx qsz q s :
  dev_closed P -> P (fst (fst s)) -> P (fst (fst (service_one qidx qsz q s))).
Proof.
  intros HP Hd. destruct s as [[d r] last]. unfold service_one.
  pose proof (dc_handle P HP d qidx r (collect_chain r (q_desc q)
    (read_u16 r (wadd64 (q_avail q) (4 + 2 * (last mod qsz)))) qsz) Hd) as Hh.
  cbv zeta. destruct (handle _ _ _ _) as [[d' r'] w]. exact Hh.
Qed.

Lemma process_loop_dev P budget qidx qsz q avail s b :
  dev_closed P -> P (fst (fst s)) -> P (fst (fst (fst (process_loop budget qidx qsz q avail s b)))).
Proof.
  intros HP. revert s b. induction budget as [|budget IH]; intros s b Hs; cbn [process_loop]; [done|].
  destruct (_ =? _); [done|]. apply IH. by apply service_one_dev.
Qed.

Lemma process_keeps P n m r qidx :
  dev_closed P -> keeps P n m -> keeps P n (fst (process m r qidx)).
Proof.
  intros HP Hk. unfold process. destruct (negb _); [done|]. destruct (_ || _); [done|].
  destruct (mm_queues m !! _) as [q|]; [|done]. destruct (_ || _); [done|].
  cbv zeta. pose proof (process_loop_dev P (Z.to_nat (u16 (q_num q))) qidx (u16 (q_num q)) q
    (read_u16 r (wadd64 (q_avail q) 2)) (mm_dev m, r, q_last_avail q) false HP (proj1 Hk)) as Hd.
  destruct (process_loop _ _ _ _ _ _ _) as [[[d r'] last] pr]. cbn [fst] in *.
  assert (Hk1 : keeps P n (with_queue (set_dev m d) qidx (set_last_avail last))).
  { apply with_queue_keeps. split; [done|apply Hk]. }
  by destruct pr.
Qed.

Lemma mmio_write_keeps P n m r off v :
  dev_closed P -> keeps P n m -> keeps P n (fst (mmio_write m r off v)).
Proof.
  intros HP Hk. unfold mmio_write. cbv zeta.
  destruct (off =? DEVICE_FEATURES_SEL); [done|]. destruct (_ || _); [done|].
  destruct (off =? QUEUE_SEL); [done|].
  destruct (off =? QUEUE_NUM); [by apply with_queue_keeps|].
  destruct (off =? QUEUE_READY); [by apply with_queue_keeps|].
  destruct (off =? QUEUE_NOTIFY); [by apply process_keeps|].
  destruct (off =? INTERRUPT_ACK).
  { cbn [fst]. destruct (nz _); [|done]. split; [apply (dc_ack P HP), Hk|apply Hk]. }
  destruct (off =? STATUS).
  { cbn [fst]. destruct (_ =? 0); [|done]. split; [apply Hk|].
    unfold reset. cbn. rewrite length_map. apply Hk. }
  do 6 (destruct (_ =? _); [by apply with_queue_keeps|]). done.
Qed.

Lemma pump_step_keeps P n rxq s :
  dev_closed P -> keeps P n (fst (fst s)) ->
  match pump_step rxq s with inl s' => keeps P n (fst (fst s')) | inr s' => keeps P n (fst (fst s')) end.
Proof.
  intros HP. destruct s as [[m r] any]. cbn [fst]. intros Hk. unfold pump_step.
  destruct (mm_queues m !! _) as [q|]; [|done]. destruct (next_rx_capacity r q) as [cap|]; [|done].
  pose proof (dc_poll P HP (mm_dev m) cap (proj1 Hk)) as Hd.
  destruct (poll_rx _ _) as [d [data|]]; cbn [fst] in Hd; [|by split; [|apply Hk]].
  destruct (inject_one r q data) as [[r' q'] [|]]; [|by split; [|apply Hk]].
  split; [done|]. cbn. rewrite length_insert. apply Hk.
Qed.

Lemma pump_rx_keeps P n fuel m r m' r' any :
  dev_closed P -> keeps P n m -> pump_rx fuel m r = Some (m', r', any) -> keeps P n m'.
Proof.
  intros HP Hk. unfold pump_rx. destruct (negb _); [by intros [= <- _ _]|].
  destruct (rx_queue _) as [rxq|]; [|by intros [= <- _ _]].
  assert (Hp : match pump_pending rxq m r with
    | inl (m1, _) => keeps P n m1 | inr (m1, _, _) => keeps P n m1 end).
  { unfold pump_pending. destruct (mm_pending_rx m); [|done].
    destruct (mm_queues _ !! _) as [q|]; [|done].
    destruct (inject_one r q _) as [[r1 q1] [|]]; [|done].
    split; [apply Hk|]. cbn. rewrite length_insert. apply Hk. }
  destruct (pump_pending rxq m r) as [[m1 r1]|[[m1 r1] any1]]; [by intros [= <- _ _]|].
  pose proof (iter_nat_inv (fun s => keeps P n (fst (fst s))) (fun s => keeps P n (fst (fst s)))
    (pump_step rxq) fuel (m1, r1, any1)) as Hi.
  destruct (iter_nat _ _ _) as [[[m2 r2] any2]|]; [|done]. intros [= <- _ _].
  assert (Hk2 : keeps P n m2).
  { apply Hi; [|exact Hp]. intros s Hs. pose proof (pump_step_keeps P n rxq s HP Hs). by destruct (pump_step rxq s). }
  by destruct any2.
Qed.

(** ** Properties *)

(** C6: the transport's invariant (every queue register at its width with
    [num <= QUEUE_MAX], the device well formed) and the shape of guest RAM
    survive any interleaving of guest register writes, guest stores, receive
    pumps, throttle drains and restores of arbitrary snapshot values, from a
    fresh device. *)
Theorem transport_invariant (d : D) (r : GuestRam) (m : VirtioMmio D) (r' : GuestRam) :
  dev_wf d -> ram_wf r -> rtc mm_step (VirtioMmio_new d, r) (m, r') ->
  mmio_wf m /\ ram_wf r' /\ same_region r r'.
Proof.
  intros Hd Hr. revert m r'.
  enough (G : forall s, rtc mm_step (VirtioMmio_new d, r) s ->
    mmio_wf (fst s) /\ ram_wf (snd s) /\ same_region r (snd s))
    by (intros m r'; exact (G (m, r'))).
  apply (rtc_ind_r (fun s => mmio_wf (fst s) /\ ram_wf (snd s) /\ same_region r (snd s)));
    [by split; [apply new_wf|]|].
  intros s s' _ Hstep (Hm & Hr1 & Hs1). destruct Hstep as [m1 r1 off v|m1 r1 r2|m1 r1 fuel m2 r2 any Hp|m1 r1|m1 r1|m1 r1 ds Hds]; simpl in *.
  - destruct (mmio_write_ok m1 r1 off v Hm Hr1) as (? & ? & ?). split; [done|]. split; [done|]. by etransitivity.
  - split; [done|]. split; [done|]. by etransitivity.
  - destruct (pump_rx_wf fuel m1 r1 m2 r2 any Hm Hr1 Hp) as (? & ? & ?). split; [done|]. split; [done|]. by etransitivity.
  - split; [|done]. apply set_dev_wf; [done|]. apply take_throttle_ok, Hm.
  - split; [|done]. destruct Hm. by split.
  - split; [|done]. destruct Hds as (? & ? & Hqs). destruct Hm as [? Hq ? ? ? ? ? ?].
    destruct (zip_restore_wf _ _ Hq Hqs) as [? Hl]. split; simpl; try done. unfold zlen. by rewrite Hl.
Qed.


(** capture/restore round trip: restoring a captured state into any
    transport with as many queues reproduces status, interrupt status and
    every queue register, the consumed index included. *)
Theorem capture_restore_roundtrip m m0 :
  mmio_wf m -> length (mm_queues m0) = length (mm_queues m) ->
  let m' := restore m0 (capture m) in
  mm_queues m' = mm_queues m /\ mm_status m' = mm_status m /\
  mm_interrupt_status m' = mm_interrupt_status m /\ capture m' = capture m.
Proof.
  intros Hm Hl m'. assert (Hq : mm_queues m' = mm_queues m)
    by (apply zip_restore_capture; [apply Hm|done]).
  split; [done|]. split; [done|]. split; [done|]. unfold capture at 1. by rewrite Hq.
Qed.

(** a driver's register sequence configures its queue: size clamped to
    [QUEUE_MAX], ready, and the three 64-bit ring addresses reassembled from
    their halves; no other queue and no byte of RAM changes. *)
Theorem driver_setup_effect m r (sel num desc avail used : Z) (q : Queue) :
  fits 32 sel -> fits 32 num -> fits 64 desc -> fits 64 avail -> fits 64 used ->
  mm_queues m !! Z.to_nat sel = Some q ->
  let '(m', r') := setup_queue m r sel num desc avail used in
  r' = r /\
  mm_queues m' = <[Z.to_nat sel :=
    mkQueue (Z.min num QUEUE_MAX) 1 desc avail used (q_last_avail q)]> (mm_queues m).
Proof.
  intros Hsel Hnum Hd Ha Hu Hq. rewrite setup_queue_eq. split; [done|].
  rewrite (u32_id sel) by done. unfold with_queue, set_queues, set_queue_sel; cbn [mm_queues].
  rewrite (list_alter_lookup_insert _ _ _ q) by done. f_equal.
  unfold q_setup. by rewrite !halves_compose, (u32_id num) by done.
Qed.

(** a driver reset (writing 0 to STATUS) clears every queue and the
    interrupt status, and until the driver programs a queue again a notify
    on any queue changes neither the device nor guest RAM. *)
Theorem status_reset_quiesces m r (value qidx : Z) :
  u32 value = 0 ->
  let '(m', r') := mmio_write m r STATUS value in
  r' = r /\ mm_status m' = 0 /\ mm_interrupt_status m' = 0 /\
  mm_queues m' = replicate (length (mm_queues m)) Queue_default /\
  mmio_write m' r QUEUE_NOTIFY qidx = (m', r).
Proof.
  intros Hv. unfold mmio_write at 1. rewrite Hv.
  cbn -[mmio_write]. split; [done|]. split; [done|]. split; [done|].
  assert (Hqs : map (fun _ => Queue_default) (mm_queues m) =
    replicate (length (mm_queues m)) Queue_default).
  { induction (mm_queues m) as [|q l IH]; simpl; [done|]. by rewrite IH. }
  split; [done|]. cbn -[u32 process]. unfold process.
  destruct (negb _); [done|]. destruct (_ || _); [done|]. simpl. rewrite Hqs.
  destruct (replicate _ _ !! _) as [q|] eqn:Hl; [|done].
  apply lookup_replicate_1 in Hl as [-> _]. done.
Qed.


End TransportLaws.


(** ** Devices of the unit tests, and witnesses *)

(** [Rec]: records every chain it is handed and reports a fixed length. *)
Record Rec := mkRec { rec_id : Z; rec_nq : Z; rec_calls : list (Z * list Buf); rec_written : Z }.

#[export] Instance Rec_device : VirtioDevice Rec := {|
  device_id d := rec_id d;
  device_features _ _ := 0;
  dev_config _ _ := 0;
  num_queues d := rec_nq d;
  config_changed _ := false;
  ack_config d := d;
  handle d queue r bufs :=
    (mkRec (rec_id d) (rec_nq d) (rec_calls d ++ [(queue, bufs)]) (rec_written d), r, rec_written d);
  rx_queue _ := None;
  event_queue _ := None;
  poll_rx d _ := (d, None);
  wants_poll _ := false;
  take_throttle d := (d, None)
|}.

(** A receive-only device that hands out a script of frames. *)
Record Feed := mkFeed { feed_frames : list (list Z) }.

#[export] Instance Feed_device : VirtioDevice Feed := {|
  device_id _ := 1;
  device_features _ _ := 0;
  dev_config _ _ := 0;
  num_queues _ := 1;
  config_changed _ := false;
  ack_config d := d;
  handle d _ r _ := (d, r, 0);
  rx_queue _ := Some 0;
  event_queue _ := None;
  poll_rx d _ :=
    match feed_frames d with [] => (d, None) | f :: fs => (mkFeed fs, Some f) end;
  wants_poll _ := false;
  take_throttle d := (d, None)
|}.

#[export, refine] Instance Rec_laws : VirtioDeviceLaws Rec := {|
  dev_wf d := fits 32 (rec_written d) /\ fits 32 (rec_id d);
  dev_touch _ _ _ _ _ := False
|}.
Proof.
  - intros d q r bufs Hd Hr _ _. simpl. destruct Hd. done.
  - intros d cap Hd. split; [exact Hd|]. done.
  - done.
  - done.
  - intros. simpl. lia.
  - intros. simpl. lia.
  - intros d Hd. apply Hd.
  - done.
  - done.
Defined.

#[export, refine] Instance Feed_laws : VirtioDeviceLaws Feed := {|
  dev_wf d := Forall (fun f => bytes_wf f) (feed_frames d);
  dev_touch _ _ _ _ _ := False
|}.
Proof.
  - intros d q r bufs Hd Hr _ _. done.
  - intros [fs] cap Hd. simpl in *. destruct fs as [|f fs]; [done|]. simpl.
    inversion Hd; subst. split; [done|]. by intros data [= <-].
  - done.
  - done.
  - intros. simpl. lia.
  - intros. simpl. lia.
  - intros. simpl. lia.
  - done.
  - done.
Defined.

Definition rec_dev : Rec := mkRec 2 1 [] 7.
Definition rec_mmio : VirtioMmio Rec := mkMmio rec_dev true 0 0 0 [rx_queue_ex] 0 None.
Definition feed_mmio : VirtioMmio Feed :=
  mkMmio (mkFeed [[0xaa; 0xbb]; [0xcc]]) true 0 0 0 [rx_queue_ex] 0 None.

Lemma rx_queue_ex_wf : queue_wf rx_queue_ex.
Proof. unfold queue_wf, QUEUE_MAX; simpl; lia. Qed.
Lemma rec_dev_wf : dev_wf rec_dev.
Proof. split; simpl; lia. Qed.
Lemma rec_mmio_wf : mmio_wf rec_mmio.
Proof.
  split; simpl; try lia; try done. constructor; [apply rx_queue_ex_wf|done].
Qed.
Lemma feed_mmio_wf : mmio_wf feed_mmio.
Proof.
  split; simpl; try lia; try done; [|constructor; [apply rx_queue_ex_wf|done]].
  repeat constructor; unfold is_byte; lia.
Qed.

Lemma transport_invariant_witness :
  mmio_wf (fst (mmio_write (VirtioMmio_new rec_dev) rx_ram QUEUE_NUM 4096)) /\
  map q_num (mm_queues (fst (mmio_write (VirtioMmio_new rec_dev) rx_ram QUEUE_NUM 4096))) = [256].
Proof.
  split; [|reflexivity].
  apply (transport_invariant rec_dev rx_ram _
    (snd (mmio_write (VirtioMmio_new rec_dev) rx_ram QUEUE_NUM 4096))).
  - apply rec_dev_wf.
  - apply rx_ram_wf.
  - apply rtc_once. rewrite <- surjective_pairing. apply step_write.
Defined.


Lemma capture_restore_roundtrip_witness :
  mm_queues (restore (VirtioMmio_new rec_dev) (capture rec_mmio)) = [rx_queue_ex].
Proof.
  apply (capture_restore_roundtrip rec_mmio (VirtioMmio_new rec_dev)); [apply rec_mmio_wf|reflexivity].
Defined.

Lemma driver_setup_effect_witness :
  let '(m', r') := setup_queue (VirtioMmio_new rec_dev) rx_ram 0 1024
    0x140001000 0x40002000 0x40003000 in
  mm_queues m' = [mkQueue 256 1 0x140001000 0x40002000 0x40003000 0].
Proof.
  pose proof (driver_setup_effect (VirtioMmio_new rec_dev) rx_ram 0 1024
    0x140001000 0x40002000 0x40003000 Queue_default) as Hs.
  destruct (setup_queue _ _ _ _ _ _ _) as [m' r']. apply Hs; lia || reflexivity.
Defined.

Lemma status_reset_quiesces_witness :
  mm_queues (fst (mmio_write rec_mmio rx_ram STATUS 0)) = [Queue_default].
Proof.
  pose proof (status_reset_quiesces rec_mmio rx_ram 0 0 eq_refl) as Hs.
  destruct (mmio_write _ _ _ _) as [m' r']. apply Hs.
Defined.

