(* ===== verification/Devices.v ===== *)
(** * Devices: virtio-blk, virtio-rng and virtio-balloon
    (crates/amber-core/src/virtio.rs)

    The host files behind a disk or the entropy source and the host's
    [madvise] are outside the program: they are classes, with what the code
    relies on as their laws and a concrete instance of each for the
    witnesses. Each device discharges [VirtioDeviceLaws]. *)

From S2P Require Import Prelude Memory Virtqueue VirtioMmio.

Definition SECTOR : Z := 512.

(** ** Host interfaces *)

(** A [std::fs::File] used through [FileExt]. *)
Class DiskFile (F : Type) := {
  file_bytes : F -> list Z;
  read_at : F -> Z -> Z -> option (list Z);
  write_all_at : F -> list Z -> Z -> F * bool;
  sync_all : F -> F * bool
}.

(** [l] with [bs] stored at [off], zero-extended when [off] is past the end. *)
Definition store (off : Z) (bs l : list Z) : list Z :=
  splice off bs (l ++ zeros (off + zlen bs - zlen l)).

(** POSIX [pread]/[pwrite] on a regular file: a read returns the bytes
    present, short only at the end of the file; a successful write stores the
    whole buffer, and an empty one changes nothing. *)
Class DiskFileLaws (F : Type) `{DiskFile F} := {
  file_wf : forall f, bytes_wf (file_bytes f);
  read_at_some : forall f n off bs,
    0 <= n -> 0 <= off -> read_at f n off = Some bs -> bs = slice off n (file_bytes f);
  write_all_at_ok : forall f bs off,
    0 <= off -> bytes_wf bs -> snd (write_all_at f bs off) = true ->
    file_bytes (fst (write_all_at f bs off)) =
      match bs with [] => file_bytes f | _ => store off bs (file_bytes f) end;
  sync_all_bytes : forall f, file_bytes (fst (sync_all f)) = file_bytes f
}.

(** The entropy source, read with [read_exact]. *)
Class EntropySource (S : Type) := { read_exact : S -> Z -> S * option (list Z) }.
Class EntropyLaws (S : Type) `{EntropySource S} := {
  read_exact_ok : forall s n bs, 0 <= n -> snd (read_exact s n) = Some bs ->
    zlen bs = n /\ bytes_wf bs
}.

(** The token bucket a device pays for its transfers
    (crates/amber-core/src/limiter.rs): [debit] returns the wait in
    nanoseconds, if any. *)
Class RateLimiter (L : Type) := {
  debit : L -> Z -> L * option Z;
  try_take : L -> Z -> L * bool
}.

(** [libc::madvise(MADV_FREE_REUSABLE)]: the host may drop the pages. *)
Class HostMadvise := {
  host_madvise : GuestRam -> Z -> Z -> GuestRam;
  madvise_ok : forall r gpa n, ram_wf r ->
    ram_wf (host_madvise r gpa n) /\ same_region r (host_madvise r gpa n);
  madvise_frame : forall r gpa n a, ~ (gpa <= a < gpa + n) ->
    ram_at (host_madvise r gpa n) a = ram_at r a
}.

(** ** Confinement

    [confined bufs r r']: [r'] is [r] with changes to the bytes of the
    chain only. *)
Record confined (bufs : list Buf) (r r' : GuestRam) : Prop := {
  cf_region : same_region r r';
  cf_wf : ram_wf r -> ram_wf r';
  cf_frame : forall a, ~ in_chain bufs a -> ram_at r' a = ram_at r a
}.

Lemma confined_refl bufs r : confined bufs r r.
Proof. by split. Qed.

Lemma confined_trans bufs r1 r2 r3 :
  confined bufs r1 r2 -> confined bufs r2 r3 -> confined bufs r1 r3.
Proof.
  intros [H1 H2 H3] [K1 K2 K3]. split; [by etransitivity|auto|].
  intros a Ha. by rewrite K3, H3.
Qed.

Lemma confined_write bufs b r d :
  b ∈ bufs -> zlen d <= Z.max 1 (buf_len b) -> bytes_wf d ->
  confined bufs r (fst (ram_write r (buf_addr b) d)).
Proof.
  intros Hb Hl Hd. split.
  - apply ram_write_same_region.
  - intros. by apply ram_write_wf.
  - intros a Ha. apply ram_at_write_outside. intros Hin. apply Ha.
    apply Exists_exists. exists b. split; [done|lia].
Qed.
#[export] Hint Resolve confined_refl confined_trans confined_write : amber.

Lemma filter_sub {A} (f : A -> bool) (l k : list A) : k = List.filter f l -> forall x, x ∈ k -> x ∈ l.
Proof. intros -> x. rewrite !list_elem_of_In. apply filter_In. Qed.

Lemma last_elem_of {A} (l : list A) x : x ∈ l -> default x (list.last l) ∈ l.
Proof.
  intros Hx. destruct (list.last l) as [y|] eqn:E; [|done].
  apply last_Some in E as [l' ->]. apply list_elem_of_In, List.in_app_iff. right. by left.
Qed.

(** ** virtio-blk *)

Section Blk.
Context {F : Type} `{DiskFile F} {L : Type} `{RateLimiter L}.

Record BlkDevice := mkBlk {
  blk_disk : F;
  capacity_sectors : Z;
  blk_writable : bool;
  blk_limit : option L
}.

Definition BLK_DEVICE_ID : Z := 2.
Definition T_IN : Z := 0.
Definition T_OUT : Z := 1.
Definition T_FLUSH : Z := 4.
Definition S_OK : Z := 0.
Definition S_IOERR : Z := 1.
Definition S_UNSUPP : Z := 2.
Definition F_RO : Z := Z.shiftl 1 5.

(** [open_with]: [disk] and [bytes] are the results of opening the file and
    of reading its metadata. *)
Definition open_with (disk : option F) (bytes : option Z) (writable : bool) (limit : option L)
    : Result BlkDevice :=
  match disk with
  | None => inr EDevice
  | Some f =>
      match bytes with
      | None => inr EDevice
      | Some n => inl (mkBlk f (n / SECTOR) writable limit)
      end
  end.

Definition read_disk (f : F) (offset n : Z) : list Z :=
  match read_at f n offset with
  | Some bs => if zlen bs <? n then bs ++ zeros (n - zlen bs) else bs
  | None => zeros n
  end.

Definition pay (limit : option L) (total : Z) : option L :=
  match limit with Some l => Some (fst (debit l total)) | None => None end.

(** The T_IN loop: RAM, running offset and bytes written. *)
Fixpoint blk_in_loop (f : F) (r : GuestRam) (offset written : Z) (data : list Buf) : GuestRam * Z :=
  match data with
  | [] => (r, written)
  | b :: data' =>
      let d := read_disk f offset (buf_len b) in
      let r' := fst (ram_write r (buf_addr b) d) in
      blk_in_loop f r' (wadd64 offset (buf_len b)) (wadd32 written (buf_len b)) data'
  end.

(** The T_OUT loop stops at the first failed write. *)
Fixpoint blk_out_loop (f : F) (r : GuestRam) (offset : Z) (data : list Buf) : F * bool :=
  match data with
  | [] => (f, true)
  | b :: data' =>
      let d := ram_read_zeroed r (buf_addr b) (buf_len b) in
      let '(f', ok) := write_all_at f d offset in
      if ok then blk_out_loop f' r (wadd64 offset (buf_len b)) data' else (f', false)
  end.

Definition blk_data (bufs : list Buf) : list Buf := drop 1 (take (length bufs - 1) bufs).

Definition blk_request (dev : BlkDevice) (r : GuestRam) (req_type sector : Z) (data : list Buf)
    : BlkDevice * GuestRam * Z * Z :=
  if req_type =? T_IN then
    let limit := pay (blk_limit dev) (total_len (writable_bufs data)) in
    let '(r', written) := blk_in_loop (blk_disk dev) r (wmul64 sector SECTOR) 0 (writable_bufs data) in
    (mkBlk (blk_disk dev) (capacity_sectors dev) (blk_writable dev) limit, r', written, S_OK)
  else if (req_type =? T_OUT) && blk_writable dev then
    let limit := pay (blk_limit dev) (total_len (readable_bufs data)) in
    let '(f', ok) := blk_out_loop (blk_disk dev) r (wmul64 sector SECTOR) (readable_bufs data) in
    (mkBlk f' (capacity_sectors dev) (blk_writable dev) limit, r, 0, if ok then S_OK else S_IOERR)
  else if req_type =? T_OUT then (dev, r, 0, S_IOERR)
  else if req_type =? T_FLUSH then
    if negb (blk_writable dev) then (dev, r, 0, S_OK)
    else
      let '(f', ok) := sync_all (blk_disk dev) in
      (mkBlk f' (capacity_sectors dev) (blk_writable dev) (blk_limit dev), r, 0,
       if ok then S_OK else S_IOERR)
  else (dev, r, 0, S_UNSUPP).

Definition blk_handle (dev : BlkDevice) (queue : Z) (r : GuestRam) (bufs : list Buf)
    : BlkDevice * GuestRam * Z :=
  match bufs with
  | hdr :: _ :: _ =>
      let req_type := read_u32 r (buf_addr hdr) in
      let sector := read_u64 r (wadd64 (buf_addr hdr) 8) in
      let '(dev', r', written, status) := blk_request dev r req_type sector (blk_data bufs) in
      let last := default hdr (list.last bufs) in
      (dev', fst (ram_write r' (buf_addr last) [status]), written + 1)
  | _ => (dev, r, 0)
  end.

Definition blk_features (dev : BlkDevice) (sel : Z) : Z :=
  if (sel =? 0) && negb (blk_writable dev) then F_RO else 0.

Definition blk_config (dev : BlkDevice) (off : Z) : Z :=
  if off =? 0 then u32 (capacity_sectors dev)
  else if off =? 4 then u32 (Z.shiftr (capacity_sectors dev) 32)
  else 0.

#[export] Instance Blk_device : VirtioDevice BlkDevice := {|
  device_id _ := BLK_DEVICE_ID;
  device_features := blk_features;
  dev_config := blk_config;
  num_queues _ := 1;
  config_changed _ := false;
  ack_config d := d;
  handle := blk_handle;
  rx_queue _ := None;
  event_queue _ := None;
  poll_rx d _ := (d, None);
  wants_poll _ := false;
  take_throttle d := (d, None)
|}.

End Blk.
Arguments BlkDevice : clear implicits.

Section BlkLaws.
Context {F : Type} `{DiskFileLaws F} {L : Type} `{RateLimiter L}.
Implicit Types (f : F) (dev : BlkDevice F L) (r : GuestRam).

(** The disk as the guest sees it: zeros past the end of the file. *)
Definition disk_at f (x : Z) : Z := default 0 (file_bytes f !! Z.to_nat x).

Lemma read_disk_wf f off n : 0 <= n -> 0 <= off ->
  zlen (read_disk f off n) = n /\ bytes_wf (read_disk f off n).
Proof.
  intros Hn Ho. unfold read_disk. destruct (read_at f n off) as [bs|] eqn:E.
  2: { split; [by apply zlen_zeros|apply zeros_wf]. }
  apply read_at_some in E; [|done..].
  assert (Hbs : bytes_wf bs) by (subst; apply slice_wf, file_wf).
  assert (zlen bs <= n).
  { subst bs. unfold zlen, slice. rewrite length_take. lia. }
  destruct (Z.ltb_spec (zlen bs) n).
  - rewrite zlen_app, zlen_zeros by lia. split; [lia|]. apply Forall_app_2; [done|apply zeros_wf].
  - split; [lia|done].
Qed.

(** A read that does not fail returns the disk's bytes. *)
Lemma read_disk_at f off n k :
  0 <= off -> 0 <= k < n -> read_at f n off <> None ->
  read_disk f off n !! Z.to_nat k = Some (disk_at f (off + k)).
Proof.
  intros Ho Hk. unfold read_disk, disk_at.
  destruct (read_at f n off) as [bs|] eqn:E; [|done]. intros _.
  apply read_at_some in E; [|lia..].
  assert (Hl : bs !! Z.to_nat k = file_bytes f !! Z.to_nat (off + k)).
  { subst bs. rewrite lookup_slice by lia. destruct (Nat.ltb_spec (Z.to_nat k) (Z.to_nat n)); [|lia].
    f_equal. lia. }
  assert (Hin : (Z.to_nat k < length bs)%nat -> bs !! Z.to_nat k = Some (default 0 (file_bytes f !! Z.to_nat (off + k)))).
  { intros [x Hx]%lookup_lt_is_Some_2. by rewrite <- Hl, Hx. }
  destruct (Z.ltb_spec (zlen bs) n) as [Hlt|Hge]; [|apply Hin; unfold zlen in *; lia].
  destruct (decide (Z.to_nat k < length bs)%nat) as [Hk'|Hout].
  - rewrite lookup_app_l by done. by apply Hin.
  - rewrite lookup_app_r by lia. rewrite <- Hl, (lookup_ge_None_2 bs) by lia.
    unfold zeros. apply lookup_replicate_2. unfold zlen in *. lia.
Qed.

Lemma blk_in_confined bufs f r off written data :
  (forall b, b ∈ data -> b ∈ bufs) -> Forall (buf_ok r) data -> 0 <= off -> fits 32 written ->
  confined bufs r (fst (blk_in_loop f r off written data)) /\
  fits 32 (snd (blk_in_loop f r off written data)).
Proof.
  revert r off written. induction data as [|b data IH]; intros r off written Hsub Hok Ho Hw; simpl.
  { split; [apply confined_refl|done]. }
  inversion Hok as [|? ? [Hb Hb2] Hok']; subst.
  destruct (read_disk_wf f off (buf_len b)) as [Hl Hwf]; [lia|done|].
  assert (Hc : confined bufs r (fst (ram_write r (buf_addr b) (read_disk f off (buf_len b))))).
  { apply confined_write; [apply Hsub; left|lia|done]. }
  destruct (IH (fst (ram_write r (buf_addr b) (read_disk f off (buf_len b))))
    (wadd64 off (buf_len b)) (wadd32 written (buf_len b))) as [IH1 IH2].
  - intros. apply Hsub. by right.
  - eapply Forall_buf_ok_same_region; [apply Hc|done].
  - apply u64_range.
  - apply u32_range.
  - split; [by eapply confined_trans|done].
Qed.

(** Without wrap-around the byte count of an IN request is its capacity. *)
Lemma blk_in_written f r off written data :
  Forall (buf_ok r) data -> 0 <= written -> written + total_len data < 2 ^ 32 ->
  snd (blk_in_loop f r off written data) = written + total_len data.
Proof.
  revert r off written. induction data as [|b data IH]; intros r off written Hok Hw Hlt.
  { unfold total_len; simpl. lia. }
  inversion Hok as [|? ? [Hb Hb2] Hok']; subst. cbn [blk_in_loop].
  change (total_len (b :: data)) with (buf_len b + total_len data) in *.
  pose proof (total_len_nonneg r data Hok').
  rewrite IH.
  - unfold wadd32. rewrite u32_id by lia. lia.
  - eapply Forall_buf_ok_same_region; [apply ram_write_same_region|done].
  - apply u32_range.
  - unfold wadd32. rewrite u32_id by lia. lia.
Qed.

Lemma blk_data_count bufs : (2 <= length bufs)%nat -> zlen (blk_data bufs) = zlen bufs - 2.
Proof. intros. unfold blk_data, zlen. rewrite length_drop, length_take. lia. Qed.

Lemma blk_data_sub bufs b : b ∈ blk_data bufs -> b ∈ bufs.
Proof.
  unfold blk_data. intros [i Hi]%list_elem_of_lookup_1.
  rewrite lookup_drop in Hi. apply lookup_take_Some in Hi as [Hi _].
  by eapply list_elem_of_lookup_2.
Qed.

Lemma blk_in_outside f r off written data a :
  Forall (buf_ok r) data -> 0 <= off -> ~ in_bufs data a ->
  ram_at (fst (blk_in_loop f r off written data)) a = ram_at r a.
Proof.
  revert r off written. induction data as [|b data IH]; intros r off written Hok Ho Ha; [done|].
  inversion Hok as [|? ? [Hb _] Hok']; subst. rewrite in_bufs_cons in Ha. unfold in_buf in Ha.
  cbn [blk_in_loop]. destruct (read_disk_wf f off (buf_len b)) as [Hl _]; [lia|done|].
  rewrite IH; [|by eapply Forall_buf_ok_same_region; [apply ram_write_same_region|]|apply u64_range|tauto].
  apply ram_at_write_outside. rewrite Hl. tauto.
Qed.

(** An IN request scatters the disk's bytes over its buffers in order. *)
Lemma blk_in_content f r off written data k a :
  ram_wf r -> Forall (buf_ok r) data -> bufs_disjoint data ->
  (forall n o, read_at f n o <> None) ->
  0 <= off -> off + total_len data < 2 ^ 64 -> 0 <= k -> scatter_addr data k = Some a ->
  ram_at (fst (blk_in_loop f r off written data)) a = Some (disk_at f (off + k)).
Proof.
  intros Hr Hok Hdj Hread. revert r off written k Hr Hok Hdj.
  induction data as [|b data IH]; intros r off written k Hr Hok Hdj Ho Hlt Hk; [done|].
  inversion Hok as [|? ? [Hb [_ Hin]] Hok']; subst. destruct Hdj as [Hb_dj Hdj].
  change (total_len (b :: data)) with (buf_len b + total_len data) in Hlt.
  pose proof (total_len_nonneg r data Hok').
  destruct (read_disk_wf f off (buf_len b)) as [Hl Hwf]; [lia|done|].
  set (r1 := fst (ram_write r (buf_addr b) (read_disk f off (buf_len b)))).
  assert (Hok1 : Forall (buf_ok r1) data)
    by (eapply Forall_buf_ok_same_region; [apply ram_write_same_region|done]).
  cbn [blk_in_loop scatter_addr]. fold r1.
  destruct (Z.ltb_spec k (buf_len b)); intros Ha.
  - injection Ha as <-. rewrite blk_in_outside; [|done|apply u64_range|].
    2: { apply Hb_dj. unfold in_buf. lia. }
    unfold r1. rewrite ram_at_write_inside; rewrite ?Hl; [|apply ram_in_range_ok; lia || done|lia].
    rewrite <- (read_disk_at f off (buf_len b) k) by (done || lia). f_equal. lia.
  - assert (Hoff : wadd64 off (buf_len b) = off + buf_len b) by (apply u64_id; lia).
    rewrite Hoff. replace (off + k) with (off + buf_len b + (k - buf_len b)) by lia.
    apply IH; [unfold r1; auto with amber|done|done|lia|lia|lia|done].
Qed.

(** The payload of an OUT request: its readable buffers end to end. *)
Definition gather r (bufs : list Buf) : list Z :=
  concat (map (fun b => ram_read_zeroed r (buf_addr b) (buf_len b)) bufs).

Lemma disk_at_write f bs off x :
  0 <= off -> 0 <= x -> bytes_wf bs -> snd (write_all_at f bs off) = true ->
  disk_at (fst (write_all_at f bs off)) x =
    if within off (zlen bs) x then default 0 (bs !! Z.to_nat (x - off)) else disk_at f x.
Proof.
  intros Ho Hx Hbs Hok. unfold disk_at. rewrite write_all_at_ok by done.
  destruct bs as [|b bs].
  { unfold within. change (zlen (@nil Z)) with 0. zcases; simpl; done || lia. }
  set (d := b :: bs) in *. unfold store.
  assert (Hz : length (file_bytes f ++ zeros (off + zlen d - zlen (file_bytes f))) =
    Z.to_nat (Z.max (zlen (file_bytes f)) (off + zlen d))).
  { rewrite length_app, length_zeros. unfold zlen. lia. }
  rewrite lookup_splice by (unfold zlen in *; lia).
  assert (Hcase : (Z.to_nat off <=? Z.to_nat x)%nat && (Z.to_nat x <? Z.to_nat off + length d)%nat
    = within off (zlen d) x).
  { unfold within, zlen. destruct (Nat.leb_spec (Z.to_nat off) (Z.to_nat x)),
      (Nat.ltb_spec (Z.to_nat x) (Z.to_nat off + length d)); zcases; simpl; done || lia. }
  rewrite Hcase. destruct (within off (zlen d) x) eqn:Hw.
  - f_equal. f_equal. lia.
  - destruct (decide (Z.to_nat x < length (file_bytes f))%nat).
    + by rewrite lookup_app_l.
    + rewrite lookup_app_r by lia. rewrite (lookup_ge_None_2 (file_bytes f)) by lia. simpl.
      destruct (zeros _ !! _) eqn:Ez; [|done]. unfold zeros in Ez.
      by apply lookup_replicate_1 in Ez as [-> _].
Qed.

Lemma zlen_gather r bufs :
  Forall (buf_ok r) bufs -> zlen (gather r bufs) = total_len bufs.
Proof.
  induction 1 as [|b bufs [Hb _] _ IH]; [done|]. unfold gather, total_len in *. simpl.
  rewrite zlen_app, IH. unfold zlen. rewrite length_ram_read_zeroed by lia. lia.
Qed.

Lemma blk_out_content f r off data f' x :
  ram_wf r -> Forall (buf_ok r) data -> 0 <= off -> off + total_len data < 2 ^ 64 -> 0 <= x ->
  blk_out_loop f r off data = (f', true) ->
  disk_at f' x =
    if within off (total_len data) x then default 0 (gather r data !! Z.to_nat (x - off)) else disk_at f x.
Proof.
  intros Hr Hok. revert f off. induction Hok as [|b data [Hb Hb2] Hok IH]; intros f off Ho Hlt Hx.
  { simpl. intros [= <-]. unfold within, total_len; simpl. zcases; simpl; done || lia. }
  change (total_len (b :: data)) with (buf_len b + total_len data) in *.
  pose proof (total_len_nonneg r data Hok). cbn [blk_out_loop].
  set (d := ram_read_zeroed r (buf_addr b) (buf_len b)).
  assert (Hl : zlen d = buf_len b) by (unfold zlen, d; rewrite length_ram_read_zeroed by lia; lia).
  pose proof (disk_at_write f d off x Ho Hx (ram_read_zeroed_wf r _ _ Hr)) as Hw.
  destruct (write_all_at f d off) as [f1 ok]. simpl in Hw. destruct ok; [|done].
  assert (Hoff : wadd64 off (buf_len b) = off + buf_len b) by (apply u64_id; lia).
  rewrite Hoff. intros Hloop. rewrite (IH f1 (off + buf_len b)) by (done || lia).
  rewrite Hw by done. rewrite Hl.
  change (gather r (b :: data)) with (d ++ gather r data).
  unfold within. zcases; simpl; try done; try lia.
  - rewrite lookup_app_l; [done|]. unfold zlen in Hl. lia.
  - rewrite lookup_app_r by (unfold zlen in Hl; lia). f_equal. f_equal. unfold zlen in Hl. lia.
Qed.

Lemma blk_data_ok r bufs : Forall (buf_ok r) bufs -> Forall (buf_ok r) (blk_data bufs).
Proof.
  intros Hok. apply Forall_forall. intros b Hb%blk_data_sub.
  by apply (proj1 (Forall_forall _ _) Hok).
Qed.

(** Header and status descriptors leave at most 254 data buffers, so the
    byte count of a request never reaches 2^32. *)
Lemma blk_total_bound r bufs :
  Forall (buf_ok r) bufs -> zlen bufs <= QUEUE_MAX ->
  total_len (writable_bufs (blk_data bufs)) + 1 < 2 ^ 32.
Proof.
  intros Hok Hq. destruct (decide (2 <= length bufs)%nat) as [H2|H2].
  2: { unfold blk_data. destruct bufs as [|b1 [|b2 bufs']]; [done|done|simpl in H2; lia]. }
  pose proof (blk_data_count bufs H2) as Hc.
  pose proof (List.filter_length_le buf_writable (blk_data bufs)) as Hf.
  assert (Hb : Forall (fun b => 0 <= buf_len b <= MAX_DESC_LEN) (writable_bufs (blk_data bufs))).
  { eapply Forall_impl; [apply Forall_writable, blk_data_ok, Hok|]. intros b [Hb' _]. exact Hb'. }
  apply total_len_bound in Hb. change MAX_DESC_LEN with 16777216 in Hb.
  unfold QUEUE_MAX, zlen, writable_bufs in *. lia.
Qed.

(** The whole request keeps RAM confined to the chain. *)
Lemma blk_request_confined bufs dev r req_type sector :
  Forall (buf_ok r) bufs -> zlen bufs <= QUEUE_MAX ->
  let '(dev', r', written, status) := blk_request dev r req_type sector (blk_data bufs) in
  capacity_sectors dev' = capacity_sectors dev /\ confined bufs r r' /\
  0 <= written /\ written + 1 < 2 ^ 32 /\ is_byte status.
Proof.
  intros Hok Hq. unfold blk_request.
  assert (Hst : is_byte S_OK /\ is_byte S_IOERR /\ is_byte S_UNSUPP) by (by unfold is_byte).
  destruct Hst as (Hs1 & Hs2 & Hs3). pose proof (confined_refl bufs r) as Hid.
  assert (0 <= 0 /\ 0 + 1 < 2 ^ 32) as [H00 H01] by lia.
  destruct (req_type =? T_IN).
  - assert (Hdata : Forall (buf_ok r) (writable_bufs (blk_data bufs)))
      by (apply Forall_writable, blk_data_ok, Hok).
    assert (Hsub : forall b, b ∈ writable_bufs (blk_data bufs) -> b ∈ bufs)
      by (intros b Hb; apply blk_data_sub; exact (filter_sub _ _ _ eq_refl b Hb)).
    assert (Ho : 0 <= wmul64 sector SECTOR) by apply u64_range.
    pose proof (blk_in_confined bufs (blk_disk dev) r _ 0 _ Hsub Hdata Ho ltac:(lia)) as [Hc Hw].
    pose proof (blk_total_bound r bufs Hok Hq) as Hlt.
    pose proof (blk_in_written (blk_disk dev) r (wmul64 sector SECTOR) 0 _ Hdata ltac:(lia) ltac:(lia)) as Hw'.
    destruct (blk_in_loop _ _ _ _ _) as [r' w]. simpl in Hc, Hw, Hw'.
    split; [done|]. split; [done|]. split; [lia|]. split; [lia|done].
  - destruct (_ && _); [destruct (blk_out_loop _ _ _ _) as [f' []]; done|].
    destruct (req_type =? T_OUT); [done|]. destruct (req_type =? T_FLUSH); [|done].
    destruct (negb _); [done|]. by destruct (sync_all _) as [f' []].
Qed.

#[export, refine] Instance Blk_laws : VirtioDeviceLaws (BlkDevice F L) := {|
  dev_wf dev := fits 64 (capacity_sectors dev);
  dev_touch _ _ _ bufs a := in_chain bufs a
|}.
Proof.
  - intros dev q r bufs Hd Hr Hok Hq. simpl. unfold blk_handle.
    destruct bufs as [|hdr [|b2 bufs']]; [done|done|].
    set (bufs := hdr :: b2 :: bufs') in *.
    pose proof (blk_request_confined bufs dev r (read_u32 r (buf_addr hdr))
      (read_u64 r (wadd64 (buf_addr hdr) 8)) Hok Hq) as Hc.
    destruct (blk_request _ _ _ _ _) as [[[dev' r'] written] status].
    destruct Hc as (Hcap & Hc & ? & ? & Hst).
    assert (Hlast : default hdr (list.last bufs) ∈ bufs) by (apply last_elem_of; left).
    destruct (confined_trans _ _ _ _ Hc (confined_write bufs _ r' [status] Hlast
      ltac:(unfold zlen; simpl; lia) (Forall_cons_2 _ _ _ Hst (Forall_nil_2 _)))) as [Hreg Hwf Hfr].
    rewrite Hcap. split; [done|]. split; [auto|]. split; [done|]. split; [lia|done].
  - done.
  - done.
  - done.
  - intros d sel. simpl. unfold blk_features. destruct (_ && _); done.
  - intros d off _. simpl. unfold blk_config.
    destruct (off =? 0); [apply u32_range|]. destruct (off =? 4); [apply u32_range|lia].
  - done.
  - done.
  - done.
Defined.

(** *** Requests on a well-formed chain *)

(** The status byte, when inside RAM, is what the request produced, and no
    other byte changes after the request. *)
Lemma blk_handle_unfold dev q r bufs b0 b1 bufs' st :
  bufs = b0 :: b1 :: bufs' -> list.last bufs = Some st ->
  let '(dev', r1, written, status) :=
    blk_request dev r (read_u32 r (buf_addr b0)) (read_u64 r (wadd64 (buf_addr b0) 8)) (blk_data bufs) in
  let r2 := fst (ram_write r1 (buf_addr st) [status]) in
  blk_handle dev q r bufs = (dev', r2, written + 1) /\
  (forall a, a <> buf_addr st -> ram_at r2 a = ram_at r1 a) /\
  (ram_in_range r1 (buf_addr st) 1 = true -> ram_at r2 (buf_addr st) = Some status).
Proof.
  intros Hb Hlast. unfold blk_handle. rewrite Hb in *. rewrite Hlast. cbn [default from_option id].
  destruct (blk_request _ _ _ _ _) as [[[dev' r1] w] status]. split; [done|]. split.
  - intros a Ha. apply ram_at_write_outside. change (zlen [status]) with 1. lia.
  - intros Hin. rewrite ram_at_write_inside; [by rewrite Z.sub_diag|done|].
    change (zlen [status]) with 1. lia.
Qed.

(** a block read delivers the disk: for an IN request whose buffers do
    not overlap each other or the status byte, byte [k] of the writable data
    buffers is byte [sector * 512 + k] of the disk (zero past its end), the
    status is OK, and the used length is the payload plus the status byte. *)
Theorem blk_in_delivers dev (q : Z) r (bufs : list Buf) (b0 b1 : Buf) (bufs' : list Buf) (st : Buf) :
  ram_wf r -> Forall (buf_ok r) bufs -> zlen bufs <= QUEUE_MAX ->
  bufs = b0 :: b1 :: bufs' -> list.last bufs = Some st ->
  read_u32 r (buf_addr b0) = T_IN ->
  (forall n o, read_at (blk_disk dev) n o <> None) ->
  let sector := read_u64 r (wadd64 (buf_addr b0) 8) in
  let data := writable_bufs (blk_data bufs) in
  bufs_disjoint data -> ~ in_bufs data (buf_addr st) ->
  ram_in_range r (buf_addr st) 1 = true ->
  sector * SECTOR + total_len data < 2 ^ 64 ->
  let '(dev', r', n) := handle dev q r bufs in
  n = total_len data + 1 /\ ram_at r' (buf_addr st) = Some S_OK /\
  blk_disk dev' = blk_disk dev /\
  forall k a, 0 <= k -> scatter_addr data k = Some a ->
    ram_at r' a = Some (disk_at (blk_disk dev) (sector * SECTOR + k)).
Proof.
  intros Hr Hok Hq Hb Hlast Ht Hread sector data Hdj Hst Hin Hlt. simpl.
  pose proof (blk_handle_unfold dev q r bufs b0 b1 bufs' st Hb Hlast) as Hh.
  rewrite Ht in Hh. unfold blk_request in Hh. simpl in Hh. fold sector data in Hh.
  assert (Hdata : Forall (buf_ok r) data) by (apply Forall_writable, blk_data_ok, Hok).
  assert (Hsec : 0 <= sector) by (by apply read_u64_range).
  pose proof (total_len_nonneg r data Hdata).
  assert (Hoff : wmul64 sector SECTOR = sector * SECTOR) by (apply u64_id; unfold SECTOR in *; lia).
  rewrite Hoff in Hh.
  assert (Ho : 0 <= sector * SECTOR) by (unfold SECTOR; lia).
  pose proof (blk_in_content (blk_disk dev) r (sector * SECTOR) 0 data) as Hc.
  pose proof (blk_total_bound r bufs Hok Hq) as Htot. fold data in Htot.
  pose proof (blk_in_written (blk_disk dev) r (sector * SECTOR) 0 data Hdata ltac:(lia) ltac:(lia)) as Hw.
  pose proof (blk_in_confined bufs (blk_disk dev) r (sector * SECTOR) 0 data
    ltac:(intros b Hb'; apply blk_data_sub; exact (filter_sub _ _ _ eq_refl b Hb')) Hdata Ho ltac:(lia)) as [Hcf _].
  destruct (blk_in_loop _ _ _ _ _) as [r1 w]. simpl in Hc, Hw, Hcf.
  destruct Hh as (-> & Hother & Hstat). simpl.
  split; [lia|]. split.
  { apply Hstat. rewrite (same_region_in_range r r1); [done|apply Hcf]. }
  split; [done|]. intros k a Hk Ha. rewrite Hother; [by apply (Hc k a)|].
  intros ->. apply Hst. by eapply scatter_in_bufs.
Qed.


(** a read-only disk refuses writes: an OUT request leaves the device
    and its file unchanged and answers IOERR, never OK. *)
Theorem blk_readonly_refuses dev (q : Z) r (bufs : list Buf) (b0 b1 : Buf) (bufs' : list Buf) (st : Buf) :
  bufs = b0 :: b1 :: bufs' -> list.last bufs = Some st ->
  read_u32 r (buf_addr b0) = T_OUT -> blk_writable dev = false ->
  ram_in_range r (buf_addr st) 1 = true ->
  let '(dev', r', n) := handle dev q r bufs in
  dev' = dev /\ n = 1 /\ ram_at r' (buf_addr st) = Some S_IOERR /\
  (forall a, a <> buf_addr st -> ram_at r' a = ram_at r a).
Proof.
  intros Hb Hlast Ht Hwr Hin. simpl.
  pose proof (blk_handle_unfold dev q r bufs b0 b1 bufs' st Hb Hlast) as Hh.
  rewrite Ht in Hh. unfold blk_request in Hh. rewrite Hwr in Hh. simpl in Hh.
  destruct Hh as (-> & Hother & Hstat). auto.
Qed.

End BlkLaws.

(** ** virtio-rng *)

Section Rng.
Context {S : Type} `{EntropySource S}.

Record RngDevice := mkRng { rng_src : S }.
Definition RNG_DEVICE_ID : Z := 4.

(** [written += b.len] at its machine width (as compiled without overflow
    checks). *)
Fixpoint rng_loop (s : S) (r : GuestRam) (written : Z) (bufs : list Buf) : S * GuestRam * Z :=
  match bufs with
  | [] => (s, r, written)
  | b :: bufs' =>
      let '(s', o) := read_exact s (buf_len b) in
      match o with
      | None => rng_loop s' r written bufs'
      | Some data =>
          rng_loop s' (fst (ram_write r (buf_addr b) data)) (wadd32 written (buf_len b)) bufs'
      end
  end.

Definition rng_handle (dev : RngDevice) (queue : Z) (r : GuestRam) (bufs : list Buf)
    : RngDevice * GuestRam * Z :=
  let '(s, r', written) := rng_loop (rng_src dev) r 0 (writable_bufs bufs) in
  (mkRng s, r', written).

#[export] Instance Rng_device : VirtioDevice RngDevice := {|
  device_id _ := RNG_DEVICE_ID;
  device_features _ _ := 0;
  dev_config _ _ := 0;
  num_queues _ := 1;
  config_changed _ := false;
  ack_config d := d;
  handle := rng_handle;
  rx_queue _ := None;
  event_queue _ := None;
  poll_rx d _ := (d, None);
  wants_poll _ := false;
  take_throttle d := (d, None)
|}.

Context `{!EntropyLaws S}.

Lemma rng_loop_ok bufs0 s r written bufs :
  (forall b, b ∈ bufs -> b ∈ bufs0) -> Forall (buf_ok r) bufs -> fits 32 written ->
  let '(_, r', w) := rng_loop s r written bufs in confined bufs0 r r' /\ fits 32 w.
Proof.
  revert s r written. induction bufs as [|b bufs IH]; intros s r written Hsub Hok Hw; simpl.
  { split; [apply confined_refl|done]. }
  inversion Hok as [|? ? [Hb Hb2] Hok']; subst.
  assert (Hsub' : forall x, x ∈ bufs -> x ∈ bufs0) by (intros; apply Hsub; by right).
  pose proof (read_exact_ok s (buf_len b)) as Hre.
  destruct (read_exact s (buf_len b)) as [s' [data|]]; [|by apply IH].
  destruct (Hre data) as [Hl Hwf]; [lia|done|].
  assert (Hc : confined bufs0 r (fst (ram_write r (buf_addr b) data)))
    by (apply confined_write; [apply Hsub; left|lia|done]).
  specialize (IH s' (fst (ram_write r (buf_addr b) data)) (wadd32 written (buf_len b)) Hsub'
    (Forall_buf_ok_same_region _ _ _ (cf_region _ _ _ Hc) Hok') ltac:(apply u32_range)).
  destruct (rng_loop s' _ _ _) as [[s2 r2] w2]. destruct IH. split; [by eapply confined_trans|done].
Qed.

#[export, refine] Instance Rng_laws : VirtioDeviceLaws RngDevice := {|
  dev_wf _ := True;
  dev_touch _ _ _ bufs a := in_chain bufs a
|}.
Proof.
  - intros dev q r bufs _ Hr Hok _. simpl. unfold rng_handle.
    pose proof (rng_loop_ok bufs (rng_src dev) r 0 (writable_bufs bufs)
      (filter_sub _ _ _ eq_refl) (Forall_writable _ _ Hok) ltac:(lia)) as Hc.
    destruct (rng_loop _ _ _ _) as [[s r'] w]. destruct Hc as [[Hreg Hwf Hfr] Hw]. auto.
  - done.
  - done.
  - done.
  - done.
  - done.
  - done.
  - done.
  - done.
Defined.

(** With a source that never fails, the reported length is the total
    capacity modulo 2^32. *)
Lemma rng_loop_written s r written bufs :
  (forall s n, snd (read_exact s n) <> None) ->
  snd (rng_loop s r (u32 written) bufs) = u32 (written + total_len bufs).
Proof.
  intros Hre. revert s r written. induction bufs as [|b bufs IH]; intros s r written; simpl.
  { unfold total_len; simpl. by rewrite Z.add_0_r. }
  specialize (Hre s (buf_len b)) as Hs. destruct (read_exact s (buf_len b)) as [s' [data|]]; [|done].
  replace (wadd32 (u32 written) (buf_len b)) with (u32 (written + buf_len b)).
  2: { unfold wadd32, u32. by rewrite Zplus_mod_idemp_l. }
  rewrite IH. f_equal. unfold total_len; simpl. lia.
Qed.

(** an entropy request reports how many bytes it placed, unless the
    chain's capacity reaches 2^32: a chain of 256 full-size descriptors, which
    the walker does produce, makes the [u32] counter wrap to zero. *)
Theorem rng_reports_capacity (dev : RngDevice) (q : Z) (r : GuestRam) (bufs : list Buf) :
  (forall s n, snd (read_exact s n) <> None) ->
  snd (handle dev q r bufs) = total_len (writable_bufs bufs) mod 2 ^ 32 /\
  (forall a, bufs = replicate 256 (mkBuf a MAX_DESC_LEN true) -> snd (handle dev q r bufs) = 0).
Proof.
  intros Hre. assert (E : snd (handle dev q r bufs) = total_len (writable_bufs bufs) mod 2 ^ 32).
  { pose proof (rng_loop_written (rng_src dev) r 0 (writable_bufs bufs) Hre) as Hw.
    simpl in *. unfold rng_handle. change (u32 0) with 0 in Hw.
    destruct (rng_loop _ _ _ _) as [[s r'] w]. simpl in *. exact Hw. }
  split; [done|]. intros a ->. rewrite E. reflexivity.
Qed.

End Rng.
Arguments RngDevice : clear implicits.

(** ** virtio-balloon *)

Section Balloon.
Context `{HostMadvise}.

(** The [Arc]s shared with the control thread are part of the state. *)
Record BalloonDevice := mkBalloon { target_pages : Z; config_dirty : bool }.

Definition BALLOON_DEVICE_ID : Z := 5.
Definition F_REPORTING : Z := Z.shiftl 1 5.
Definition INFLATE_VQ : Z := 0.
Definition REPORTING_VQ : Z := 2.
Definition BALLOON_PAGE : Z := 4096.

(** [BalloonDevice::madvise]: only ranges inside guest RAM. *)
Definition balloon_madvise (r : GuestRam) (gpa n : Z) : GuestRam :=
  match ram_host_ptr_at r gpa n with Some _ => host_madvise r gpa n | None => r end.

(** The page addresses an inflate buffer hands back. *)
Definition pfn_gpa (r : GuestRam) (b : Buf) (i : Z) : Z :=
  wmul64 (read_u32 r (wadd64 (buf_addr b) (4 * i))) BALLOON_PAGE.

Definition inflate_buf (r : GuestRam) (b : Buf) : GuestRam :=
  foldl (fun r i => balloon_madvise r (pfn_gpa r b i) BALLOON_PAGE) r
    (map Z.of_nat (seq 0 (Z.to_nat (buf_len b / 4)))).

Definition balloon_handle (dev : BalloonDevice) (queue : Z) (r : GuestRam) (bufs : list Buf)
    : BalloonDevice * GuestRam * Z :=
  if queue =? INFLATE_VQ then (dev, foldl inflate_buf r bufs, 0)
  else if queue =? REPORTING_VQ then
    (dev, foldl (fun r b => balloon_madvise r (buf_addr b) (buf_len b)) r bufs, 0)
  else (dev, r, 0).

Definition balloon_config (dev : BalloonDevice) (off : Z) : Z :=
  if off =? 0 then u32 (target_pages dev) else 0.

(** The control thread's half of the handshake (BALLOON in [control_reader]
    of vm.rs). *)
Definition set_target (dev : BalloonDevice) (mib : Z) : BalloonDevice :=
  mkBalloon (wmul64 mib 256) true.

#[export] Instance Balloon_device : VirtioDevice BalloonDevice := {|
  device_id _ := BALLOON_DEVICE_ID;
  device_features _ sel := if sel =? 0 then F_REPORTING else 0;
  dev_config := balloon_config;
  num_queues _ := 3;
  config_changed := config_dirty;
  ack_config d := mkBalloon (target_pages d) false;
  handle := balloon_handle;
  rx_queue _ := None;
  event_queue _ := None;
  poll_rx d _ := (d, None);
  wants_poll _ := false;
  take_throttle d := (d, None)
|}.

(** The balloon may drop any page of guest RAM the guest names. *)
Definition ram_step (r r' : GuestRam) : Prop := ram_wf r -> ram_wf r' /\ same_region r r'.

Lemma ram_step_trans r1 r2 r3 : ram_step r1 r2 -> ram_step r2 r3 -> ram_step r1 r3.
Proof.
  intros H1 H2 Hr. destruct (H1 Hr) as [Hr2 ?]. destruct (H2 Hr2). split; [done|by etransitivity].
Qed.

Lemma foldl_ram_step {A} (f : GuestRam -> A -> GuestRam) l r :
  (forall r x, ram_step r (f r x)) -> ram_step r (foldl f r l).
Proof.
  intros Hf. revert r. induction l as [|x l IH]; intros r; simpl; [done|].
  eapply ram_step_trans; [apply Hf|apply IH].
Qed.

Lemma balloon_madvise_step r gpa n : ram_step r (balloon_madvise r gpa n).
Proof. intros Hr. unfold balloon_madvise. destruct (ram_host_ptr_at _ _ _); [by apply madvise_ok|done]. Qed.

Lemma inflate_buf_step r b : ram_step r (inflate_buf r b).
Proof. apply foldl_ram_step. intros. apply balloon_madvise_step. Qed.

(** A free-page report changes only the ranges it lists. *)
Lemma report_frame bufs r a :
  ~ in_bufs bufs a ->
  ram_at (foldl (fun r b => balloon_madvise r (buf_addr b) (buf_len b)) r bufs) a = ram_at r a.
Proof.
  revert r. induction bufs as [|b bufs IH]; intros r Ha; [done|]. rewrite in_bufs_cons in Ha.
  simpl. rewrite IH by tauto. unfold balloon_madvise.
  destruct (ram_host_ptr_at _ _ _); [|done]. apply madvise_frame. unfold in_buf in Ha. tauto.
Qed.

#[export, refine] Instance Balloon_laws : VirtioDeviceLaws BalloonDevice := {|
  dev_wf d := fits 64 (target_pages d);
  dev_touch _ q _ bufs a := q = INFLATE_VQ \/ (q = REPORTING_VQ /\ in_bufs bufs a)
|}.
Proof.
  - intros dev q r bufs Hd Hr Hok _. simpl. unfold balloon_handle.
    destruct (Z.eqb_spec q INFLATE_VQ); [|destruct (Z.eqb_spec q REPORTING_VQ)].
    + destruct (foldl_ram_step inflate_buf bufs r inflate_buf_step Hr) as [? ?].
      split; [done|]. split; [done|]. split; [done|]. split; [lia|]. intros a Ha. tauto.
    + destruct (foldl_ram_step (fun r b => balloon_madvise r (buf_addr b) (buf_len b)) bufs r
        (fun r b => balloon_madvise_step r (buf_addr b) (buf_len b)) Hr) as [? ?].
      split; [done|]. split; [done|]. split; [done|]. split; [lia|]. intros a Ha.
      apply report_frame. tauto.
    + done.
  - done.
  - done.
  - done.
  - intros d sel. simpl. by destruct (sel =? 0).
  - intros d off _. simpl. unfold balloon_config. destruct (off =? 0); [apply u32_range|lia].
  - done.
  - intros d q r bufs. simpl. done.
  - done.
Defined.

(** the balloon handshake: after the control thread sets a target of
    [mib] MiB the device's interrupt line is up, the guest sees the
    config-change bit and reads the target as [mib * 256] pages; acknowledging
    that bit drops the line when no used-buffer notification is pending, and
    keeps the target readable. *)
Theorem balloon_handshake (m : VirtioMmio BalloonDevice) (r : GuestRam) (mib : Z) :
  0 <= mib -> mib * 256 < 2 ^ 32 ->
  let m1 := set_dev m (set_target (mm_dev m) mib) in
  let m2 := fst (mmio_write m1 r INTERRUPT_ACK 2) in
  irq_level m1 = true /\ Z.testbit (mmio_read m1 INTERRUPT_STATUS) 1 = true /\
  mmio_read m1 CONFIG = mib * 256 /\ mmio_read m2 CONFIG = mib * 256 /\
  irq_level m2 = nz (Z.ldiff (mm_interrupt_status m) 2) /\
  Z.testbit (mmio_read m2 INTERRUPT_STATUS) 1 = false.
Proof.
  intros H0 H1 m1 m2.
  assert (Ht : u32 (wmul64 mib 256) = mib * 256)
    by (unfold wmul64; rewrite u64_id, u32_id by lia; lia).
  assert (E2 : m2 = set_dev (set_interrupt_status m (Z.ldiff (mm_interrupt_status m) 2))
    (mkBalloon (wmul64 mib 256) false)) by reflexivity.
  split; [apply orb_true_r|]. split.
  { change (Z.testbit (Z.lor (mm_interrupt_status m) 2) 1 = true).
    rewrite Z.lor_spec. apply orb_true_r. }
  split; [exact Ht|]. rewrite E2. split; [exact Ht|]. split; [apply orb_false_r|].
  change (Z.testbit (Z.lor (Z.ldiff (mm_interrupt_status m) 2) 0) 1 = false).
  rewrite Z.lor_0_r, Z.ldiff_spec. apply andb_false_r.
Qed.

End Balloon.

(** ** Concrete instances and witnesses *)

(** A host file as a byte string. *)
Record MemFile := mkMemFile { mf_bytes : list Z }.
#[export] Instance MemFile_file : DiskFile MemFile := {|
  file_bytes f := map u8 (mf_bytes f);
  read_at f n off := Some (slice off n (map u8 (mf_bytes f)));
  write_all_at f bs off :=
    (match bs with [] => f | _ => mkMemFile (store off bs (map u8 (mf_bytes f))) end, true);
  sync_all f := (f, true)
|}.

Lemma map_u8_wf l : bytes_wf (map u8 l).
Proof. apply Forall_map, Forall_true. intros x. apply u8_range. Qed.
Lemma map_u8_id l : bytes_wf l -> map u8 l = l.
Proof.
  induction 1 as [|x l Hx _ IH]; [done|]. simpl. rewrite IH. f_equal. by apply u8_id.
Qed.

#[export] Instance MemFile_laws : DiskFileLaws MemFile.
Proof.
  split.
  - intros f. apply map_u8_wf.
  - intros f n off bs _ _ [= <-]. done.
  - intros f [|b bs] off _ Hbs _; [done|]. simpl. rewrite map_u8_id; [done|].
    apply splice_wf; [done|]. apply Forall_app_2; [apply map_u8_wf|apply zeros_wf].
  - done.
Qed.

(** No rate limit configured. *)
#[export] Instance unlimited : RateLimiter unit := {| debit l _ := (l, None); try_take l _ := (l, true) |}.

(** A source of zero bytes. *)
#[export] Instance zero_entropy : EntropySource unit := {| read_exact s n := (s, Some (zeros n)) |}.
#[export] Instance zero_entropy_laws : EntropyLaws unit.
Proof. split. intros s n bs Hn [= <-]. split; [by apply zlen_zeros|apply zeros_wf]. Qed.

(** A host that keeps the pages. *)
#[export, refine] Instance keep_pages : HostMadvise := {| host_madvise r _ _ := r |}.
Proof. all: done. Defined.

Definition demo_disk (w : bool) : BlkDevice MemFile unit :=
  mkBlk (mkMemFile (map Z.of_nat (seq 0 1024))) 2 w None.
Definition demo_chain (w : bool) : list Buf :=
  [mkBuf 0x40000000 16 false; mkBuf 0x40000020 8 w; mkBuf 0x40000040 1 true].
(** A request header: type, reserved word, sector 1. *)
Definition demo_ram (req : Z) : GuestRam :=
  fst (ram_write (GuestMemory_new 0x40000000 128) 0x40000000
    (le_bytes 4 req ++ le_bytes 4 0 ++ le_bytes 8 1)).

Lemma demo_ram_wf req : ram_wf (demo_ram req).
Proof.
  apply ram_write_wf; [split; [done|done|apply zeros_wf]|].
  repeat apply Forall_app_2; apply le_bytes_wf.
Qed.
Lemma demo_chain_ok req w : Forall (buf_ok (demo_ram req)) (demo_chain w).
Proof.
  assert (Hreg : same_region (GuestMemory_new 0x40000000 128) (demo_ram req))
    by apply ram_write_same_region.
  apply (Forall_buf_ok_same_region _ _ _ Hreg).
  repeat (constructor; [split; [split; vm_compute; discriminate|split; [vm_compute; split; [discriminate|reflexivity]|
    intros _; split; vm_compute; discriminate]]|]). constructor.
Qed.

Lemma blk_in_delivers_witness :
  ram_at (snd (fst (handle (demo_disk false) 0 (demo_ram T_IN) (demo_chain true)))) 0x40000023
  = Some (disk_at (mkMemFile (map Z.of_nat (seq 0 1024))) 515).
Proof.
  pose proof (blk_in_delivers (demo_disk false) 0 (demo_ram T_IN) (demo_chain true)
    (mkBuf 0x40000000 16 false) (mkBuf 0x40000020 8 true) [mkBuf 0x40000040 1 true]
    (mkBuf 0x40000040 1 true) (demo_ram_wf T_IN) (demo_chain_ok T_IN true)) as Hd.
  destruct (handle (demo_disk false) 0 (demo_ram T_IN) (demo_chain true)) as [[dev' r'] n].
  refine (proj2 (proj2 (proj2 (Hd _ _ _ _ _ _ _ _ _))) 3 0x40000023 _ _).
  - vm_compute; discriminate.
  - reflexivity.
  - reflexivity.
  - vm_compute; reflexivity.
  - intros n0 o. discriminate.
  - split; [|done]. intros a _ Hx. inversion Hx.
  - intros Hx. apply in_bufs_cons in Hx as [Hx|Hx]; [|inversion Hx]. unfold in_buf in Hx. simpl in Hx. lia.
  - vm_compute; reflexivity.
  - vm_compute; reflexivity.
  - lia.
  - reflexivity.
Defined.


Lemma blk_readonly_refuses_witness :
  fst (fst (handle (demo_disk false) 0 (demo_ram T_OUT) (demo_chain false))) = demo_disk false.
Proof.
  pose proof (blk_readonly_refuses (demo_disk false) 0 (demo_ram T_OUT) (demo_chain false)
    (mkBuf 0x40000000 16 false) (mkBuf 0x40000020 8 false) [mkBuf 0x40000040 1 true]
    (mkBuf 0x40000040 1 true)) as Hd.
  destruct (handle (demo_disk false) 0 (demo_ram T_OUT) (demo_chain false)) as [[dev' r'] n].
  destruct Hd as (Hdev & _); [reflexivity|reflexivity|vm_compute; reflexivity|reflexivity|
    vm_compute; reflexivity|exact Hdev].
Defined.

Lemma rng_reports_capacity_witness :
  snd (handle (mkRng tt) 0 (demo_ram 0) (replicate 256 (mkBuf 0x40000000 MAX_DESC_LEN true))) = 0.
Proof.
  refine (proj2 (rng_reports_capacity (mkRng tt) 0 (demo_ram 0)
    (replicate 256 (mkBuf 0x40000000 MAX_DESC_LEN true)) _) 0x40000000 eq_refl).
  discriminate.
Defined.

Lemma balloon_handshake_witness :
  let m := VirtioMmio_new (mkBalloon 0 false) in
  mmio_read (set_dev m (set_target (mm_dev m) 64)) CONFIG = 16384.
Proof.
  exact (proj1 (proj2 (proj2 (balloon_handshake (VirtioMmio_new (mkBalloon 0 false)) (demo_ram 0) 64
    ltac:(lia) ltac:(lia))))).
Defined.
