(* ===== verification/Net.v ===== *)
(** * Net: virtio-net (crates/amber-core/src/net.rs)

    The device is a packet pump between its queues and a [NetBackend]. The
    backend and the rate limiter are interfaces; the device's theorems are
    proved against them. *)

From S2P Require Import Prelude Memory Virtqueue VirtioMmio Devices.

(** The host-side network seam. *)
Class NetBackend (B : Type) := {
  nb_send : B -> list Z -> B;
  nb_poll : B -> B * option (list Z);
  nb_mac : B -> list Z;
  nb_wants_poll : B -> bool
}.

(** A backend as a queue of frames for the guest: [nb_inbox] is what [poll]
    will hand out, in order. *)
Class NetBackendLaws (B : Type) `{NetBackend B} := {
  nb_inbox : B -> list (list Z);
  nb_poll_head : forall b,
    match nb_inbox b with
    | [] => snd (nb_poll b) = None /\ nb_inbox (fst (nb_poll b)) = []
    | f :: fs => snd (nb_poll b) = Some f /\ nb_inbox (fst (nb_poll b)) = fs
    end;
  nb_inbox_wf : forall b, Forall (fun f => bytes_wf f) (nb_inbox b);
  nb_mac_wf : forall b, bytes_wf (nb_mac b)
}.

(** The MAC a backend advertises unless it overrides it. *)
Definition default_mac : list Z := [0x52; 0x54; 0x00; 0x12; 0x34; 0x56].

(** [CaptureBackend] drops transmits and never receives; its log is kept. *)
Record CaptureBackend := mkCapture { capture_log : list (list Z) }.
#[export] Instance Capture_backend : NetBackend CaptureBackend := {|
  nb_send b f := mkCapture (capture_log b ++ [f]);
  nb_poll b := (b, None);
  nb_mac _ := default_mac;
  nb_wants_poll _ := false
|}.

Definition VIRTIO_NET_HDR_LEN : Z := 12.
Definition MAX_TX_FRAME : Z := 64 * 1024.

Section Net.
Context {B : Type} `{NetBackend B} {L : Type} `{RateLimiter L}.

Record NetDevice := mkNet {
  net_backend : B;
  net_mac : list Z;
  tx_limit : option L;
  rx_limit : option L;
  net_pending_rx : option (list Z);
  tx_debt : option Z
}.

Definition NET_DEVICE_ID : Z := 1.
Definition NET_RX : Z := 0.
Definition NET_TX : Z := 1.
Definition F_MAC : Z := Z.shiftl 1 5.
Definition F_VERSION_1 : Z := 1.

(** [limit] is the bucket [from_env] builds from the environment, if any. *)
Definition NetDevice_new (backend : B) (tx rx : option L) : NetDevice :=
  mkNet backend (nb_mac backend) tx rx None None.

Definition net_features (sel : Z) : Z :=
  if sel =? 0 then F_MAC else if sel =? 1 then F_VERSION_1 else 0.

Definition net_config_byte (dev : NetDevice) (off i : Z) : Z :=
  let idx := wadd64 off i in
  if idx <? zlen (net_mac dev) then default 0 (net_mac dev !! Z.to_nat idx) else 0.
Definition net_config (dev : NetDevice) (off : Z) : Z :=
  of_le_bytes (map (net_config_byte dev off) [0; 1; 2; 3]).

(** Gathering the readable descriptors, capped at [MAX_TX_FRAME]. *)
Fixpoint tx_gather (r : GuestRam) (frame : list Z) (bufs : list Buf) : list Z :=
  match bufs with
  | [] => frame
  | b :: bufs' =>
      if MAX_TX_FRAME <=? zlen frame then frame
      else
        let take := Z.min (buf_len b) (MAX_TX_FRAME - zlen frame) in
        tx_gather r (frame ++ ram_read_zeroed r (buf_addr b) take) bufs'
  end.

Definition net_handle (dev : NetDevice) (queue : Z) (r : GuestRam) (bufs : list Buf)
    : NetDevice * GuestRam * Z :=
  if queue =? NET_TX then
    let frame := tx_gather r [] (readable_bufs bufs) in
    if VIRTIO_NET_HDR_LEN <? zlen frame then
      let '(lim, debt) :=
        match tx_limit dev with
        | Some l => let '(l', w) := debit l (zlen frame - VIRTIO_NET_HDR_LEN) in (Some l', w)
        | None => (None, tx_debt dev)
        end in
      let backend := nb_send (net_backend dev) (drop (Z.to_nat VIRTIO_NET_HDR_LEN) frame) in
      (mkNet backend (net_mac dev) lim (rx_limit dev) (net_pending_rx dev) debt, r, 0)
    else (dev, r, 0)
  else (dev, r, 0).

(** [vec![0u8; 12]] with [out[10] = 1]. *)
Definition net_rx_header : list Z := <[10%nat := 1]> (zeros VIRTIO_NET_HDR_LEN).

(** Next frame to deliver: the deferred one first, then the backend's. *)
Definition net_next_frame (dev : NetDevice) : B * option (list Z) :=
  match net_pending_rx dev with
  | Some f => (net_backend dev, Some f)
  | None => nb_poll (net_backend dev)
  end.

Definition net_poll_rx (dev : NetDevice) (max_frame : Z) : NetDevice * option (list Z) :=
  let '(backend, o) := net_next_frame dev in
  match o with
  | None => (mkNet backend (net_mac dev) (tx_limit dev) (rx_limit dev) None (tx_debt dev), None)
  | Some frame =>
      match rx_limit dev with
      | None =>
          (mkNet backend (net_mac dev) (tx_limit dev) None None (tx_debt dev),
           Some (net_rx_header ++ frame))
      | Some l =>
          let '(l', ok) := try_take l (zlen frame) in
          if ok then
            (mkNet backend (net_mac dev) (tx_limit dev) (Some l') None (tx_debt dev),
             Some (net_rx_header ++ frame))
          else
            (mkNet backend (net_mac dev) (tx_limit dev) (Some l') (Some frame) (tx_debt dev), None)
      end
  end.

Definition net_take_throttle (dev : NetDevice) : NetDevice * option Z :=
  (mkNet (net_backend dev) (net_mac dev) (tx_limit dev) (rx_limit dev) (net_pending_rx dev) None,
   tx_debt dev).

#[export] Instance Net_device : VirtioDevice NetDevice := {|
  device_id _ := NET_DEVICE_ID;
  device_features _ := net_features;
  dev_config := net_config;
  num_queues _ := 2;
  config_changed _ := false;
  ack_config d := d;
  handle := net_handle;
  rx_queue _ := Some NET_RX;
  event_queue _ := None;
  poll_rx := net_poll_rx;
  wants_poll d := (match net_pending_rx d with Some _ => true | None => false end)
    || nb_wants_poll (net_backend d);
  take_throttle := net_take_throttle
|}.

End Net.
Arguments NetDevice : clear implicits.

Section NetLaws.
Context {B : Type} `{NetBackendLaws B} {L : Type} `{RateLimiter L}.
Implicit Types (d : NetDevice B L) (r : GuestRam).

(** The frames still to be delivered, the deferred one first. *)
Definition net_stream d : list (list Z) :=
  match net_pending_rx d with Some f => f :: nb_inbox (net_backend d) | None => nb_inbox (net_backend d) end.

Lemma net_poll_rx_stream d cap :
  match snd (net_poll_rx d cap) with
  | Some out => exists f, net_stream d = f :: net_stream (fst (net_poll_rx d cap)) /\ out = net_rx_header ++ f
  | None => net_stream (fst (net_poll_rx d cap)) = net_stream d
  end.
Proof.
  unfold net_poll_rx, net_next_frame, net_stream. pose proof (nb_poll_head (net_backend d)) as Hp.
  destruct (net_pending_rx d) as [f|].
  - destruct (rx_limit d) as [l|]; [|simpl; eauto].
    destruct (try_take l (zlen f)) as [l' []]; simpl; eauto.
  - destruct (nb_poll (net_backend d)) as [b' o]. simpl in Hp.
    destruct (nb_inbox (net_backend d)) as [|f fs]; destruct Hp as [-> Hi]; [done|].
    destruct (rx_limit d) as [l|]; [|simpl; rewrite Hi; eauto].
    destruct (try_take l (zlen f)) as [l' []]; simpl; rewrite Hi; eauto.
Qed.

Lemma net_header_wf : bytes_wf net_rx_header.
Proof. vm_compute. repeat constructor; discriminate. Qed.

Lemma ram_read_zeroed_prefix r gpa n k :
  0 <= k <= n -> ram_in_range r gpa n = true ->
  ram_read_zeroed r gpa k = take (Z.to_nat k) (ram_read_zeroed r gpa n).
Proof.
  intros Hk. unfold ram_in_range, ram_read_zeroed, ram_read.
  destruct (ram_offset r gpa n) as [off|] eqn:E; [|done]. intros _.
  assert (Ek : ram_offset r gpa k = Some off).
  { unfold ram_offset in *. repeat case_match; try done; lia. }
  rewrite Ek. simpl. unfold slice. rewrite take_take. f_equal. lia.
Qed.

(** Gathering with a cap is the cap applied to the concatenation. *)
Lemma tx_gather_eq r frame bufs :
  ram_wf r -> Forall (buf_ok r) bufs -> zlen frame <= MAX_TX_FRAME ->
  tx_gather r frame bufs = take (Z.to_nat MAX_TX_FRAME) (frame ++ gather r bufs).
Proof.
  intros Hr Hok. revert frame. induction Hok as [|b bufs [Hb [_ Hin]] Hok IH]; intros frame Hf; cbn [tx_gather].
  { unfold gather; simpl. rewrite app_nil_r, take_ge; [done|]. unfold zlen in Hf. lia. }
  change (gather r (b :: bufs)) with (ram_read_zeroed r (buf_addr b) (buf_len b) ++ gather r bufs).
  destruct (Z.leb_spec MAX_TX_FRAME (zlen frame)).
  { rewrite take_app_le by (unfold zlen in *; lia). by rewrite take_ge by (unfold zlen in *; lia). }
  set (k := Z.min (buf_len b) (MAX_TX_FRAME - zlen frame)).
  set (d := ram_read_zeroed r (buf_addr b) (buf_len b)).
  assert (Hd : length d = Z.to_nat (buf_len b)) by (apply length_ram_read_zeroed; lia).
  assert (Hk : ram_read_zeroed r (buf_addr b) k = take (Z.to_nat k) d).
  { destruct (decide (buf_len b = 0)) as [E0|E0].
    - unfold d, k. rewrite E0, Z.min_l by lia. rewrite take_ge; [done|].
      rewrite length_ram_read_zeroed by lia. lia.
    - apply ram_read_zeroed_prefix; [lia|]. apply ram_in_range_ok; [done|lia|lia]. }
  rewrite Hk, IH.
  2: { rewrite zlen_app. unfold zlen in *. rewrite length_take. lia. }
  rewrite <- app_assoc. destruct (Z.leb_spec (buf_len b) (MAX_TX_FRAME - zlen frame)).
  - rewrite (take_ge d) by lia. done.
  - rewrite !(take_app (frame)). f_equal. unfold zlen in *.
    rewrite !take_app_le by (rewrite ?length_take; lia). rewrite take_take. f_equal. lia.
Qed.

Lemma readable_ok r bufs : Forall (buf_ok r) bufs -> Forall (buf_ok r) (readable_bufs bufs).
Proof.
  intros Hok. apply Forall_forall. intros b Hb. apply (proj1 (Forall_forall _ _) Hok).
  exact (filter_sub _ _ _ eq_refl b Hb).
Qed.

#[export, refine] Instance Net_laws : VirtioDeviceLaws (NetDevice B L) := {|
  dev_wf d := bytes_wf (net_mac d) /\ from_option (fun f => bytes_wf f) True (net_pending_rx d);
  dev_touch _ _ _ _ _ := False
|}.
Proof.
  - intros d q r bufs Hd Hr _ _. simpl. unfold net_handle.
    destruct (q =? NET_TX); [|done]. destruct (VIRTIO_NET_HDR_LEN <? _); [|done].
    destruct (tx_limit d) as [l|]; [|done]. by destruct (debit l _).
  - intros d cap [Hm Hp].
    assert (Hs : Forall (fun f => bytes_wf f) (net_stream d)).
    { pose proof (nb_inbox_wf (net_backend d)). unfold net_stream.
      destruct (net_pending_rx d); [by constructor|done]. }
    pose proof (net_poll_rx_stream d cap) as Hst. simpl.
    assert (Hmac : net_mac (fst (net_poll_rx d cap)) = net_mac d).
    { unfold net_poll_rx. destruct (net_next_frame d) as [b [f|]]; [|done].
      destruct (rx_limit d) as [l|]; [|done]. by destruct (try_take _ _) as [? []]. }
    assert (Hs' : Forall (fun f => bytes_wf f) (net_stream (fst (net_poll_rx d cap))) /\
      (forall data, snd (net_poll_rx d cap) = Some data -> bytes_wf data)).
    { destruct (snd (net_poll_rx d cap)) as [out|].
      - destruct Hst as (f & Hf & ->). rewrite Hf in Hs. inversion Hs; subst.
        assert (Ho : bytes_wf (net_rx_header ++ f)) by (apply Forall_app_2; [apply net_header_wf|done]).
        split; [done|]. intros data Hdata. injection Hdata as <-. exact Ho.
      - by rewrite Hst. }
    destruct Hs' as [Hs1 Hs2]. split; [|done]. rewrite Hmac. split; [done|].
    unfold net_stream in Hs1. destruct (net_pending_rx (fst _)); [|done]. by inversion Hs1.
  - done.
  - done.
  - intros d sel. simpl. unfold net_features. by repeat case_match.
  - intros d off [Hm _]. simpl. unfold net_config.
    assert (Hb : bytes_wf (map (net_config_byte d off) [0; 1; 2; 3])).
    { apply Forall_map, Forall_true. intros i. unfold net_config_byte.
      destruct (_ <? _); [|by unfold is_byte]. destruct (net_mac d !! _) eqn:E; simpl; [|by unfold is_byte].
      by apply (Forall_lookup_1 _ _ _ _ Hm E). }
    exact (of_le_bytes_range _ Hb).
  - done.
  - done.
  - done.
Defined.

(** transmit: a chain on the transmit queue hands the backend exactly
    the readable bytes of the chain past the 12-byte virtio header, cut off at
    64 KiB in all, as one frame, or nothing when there is no byte past the
    header; guest RAM is untouched and the used length is 0. *)
Theorem net_tx_exact d r (bufs : list Buf) :
  ram_wf r -> Forall (buf_ok r) bufs ->
  let frame := take (Z.to_nat MAX_TX_FRAME) (gather r (readable_bufs bufs)) in
  let '(d', r', n) := handle d NET_TX r bufs in
  r' = r /\ n = 0 /\ net_pending_rx d' = net_pending_rx d /\
  net_backend d' =
    if VIRTIO_NET_HDR_LEN <? zlen frame
    then nb_send (net_backend d) (drop (Z.to_nat VIRTIO_NET_HDR_LEN) frame)
    else net_backend d.
Proof.
  intros Hr Hok frame. simpl. unfold net_handle. simpl.
  rewrite (tx_gather_eq r [] (readable_bufs bufs) Hr (readable_ok r bufs Hok)) by done.
  change ([] ++ gather r (readable_bufs bufs)) with (gather r (readable_bufs bufs)). fold frame.
  destruct (VIRTIO_NET_HDR_LEN <? zlen frame); [|done].
  destruct (tx_limit d) as [l|]; [|done]. by destruct (debit l _).
Qed.

(** receive: polling delivers the backend's frames in order, each once,
    behind a 12-byte header with num_buffers = 1; a frame the rate cap
    refuses is deferred, neither lost nor overtaken. *)
Theorem net_rx_fifo d (cap : Z) :
  let '(d', o) := poll_rx d cap in
  match o with
  | Some out => exists f, net_stream d = f :: net_stream d' /\
      out = le_bytes 10 0 ++ le_bytes 2 1 ++ f
  | None => net_stream d' = net_stream d
  end.
Proof.
  pose proof (net_poll_rx_stream d cap) as Hs. simpl.
  destruct (net_poll_rx d cap) as [d' [out|]]; simpl in Hs; [|done].
  destruct Hs as (f & Hf & ->). by exists f.
Qed.

(** transmit debts do not add up: serving a second chain before the run
    loop drains the throttle replaces the first chain's wait by the second's,
    so the run loop sleeps off only the last one. *)
Theorem net_tx_debt_last d r (bufs1 bufs2 : list Buf) (l l1 : L) (w1 : option Z) :
  let len bufs := zlen (tx_gather r [] (readable_bufs bufs)) in
  VIRTIO_NET_HDR_LEN < len bufs1 -> VIRTIO_NET_HDR_LEN < len bufs2 ->
  tx_limit d = Some l -> debit l (len bufs1 - VIRTIO_NET_HDR_LEN) = (l1, w1) ->
  let d1 := fst (fst (handle d NET_TX r bufs1)) in
  let d2 := fst (fst (handle d1 NET_TX r bufs2)) in
  tx_debt d1 = w1 /\
  snd (take_throttle d2) = snd (debit l1 (len bufs2 - VIRTIO_NET_HDR_LEN)).
Proof.
  intros len H1' H2' Hl Hd d1 d2. unfold len in *.
  assert (E1 : d1 = mkNet (nb_send (net_backend d)
      (drop (Z.to_nat VIRTIO_NET_HDR_LEN) (tx_gather r [] (readable_bufs bufs1))))
    (net_mac d) (Some l1) (rx_limit d) (net_pending_rx d) w1).
  { unfold d1. cbn [handle Net_device]. unfold net_handle. simpl.
    destruct (Z.ltb_spec VIRTIO_NET_HDR_LEN (zlen (tx_gather r [] (readable_bufs bufs1)))); [|lia].
    rewrite Hl. by rewrite Hd. }
  split; [by rewrite E1|]. unfold d2. rewrite E1. cbn [handle Net_device]. unfold net_handle. simpl.
  destruct (Z.ltb_spec VIRTIO_NET_HDR_LEN (zlen (tx_gather r [] (readable_bufs bufs2)))); [|lia].
  by destruct (debit l1 _).
Qed.

End NetLaws.

(** ** Concrete backend and witnesses *)

(** A loopback of scripted frames. *)
Record FrameQueue := mkFrameQueue { fq_in : list (list Z); fq_out : list (list Z) }.
#[export] Instance FrameQueue_backend : NetBackend FrameQueue := {|
  nb_send b f := mkFrameQueue (fq_in b) (fq_out b ++ [f]);
  nb_poll b := match fq_in b with
    | [] => (b, None)
    | f :: fs => (mkFrameQueue fs (fq_out b), Some (map u8 f)) end;
  nb_mac _ := default_mac;
  nb_wants_poll b := match fq_in b with [] => false | _ => true end
|}.
#[export, refine] Instance FrameQueue_laws : NetBackendLaws FrameQueue := {|
  nb_inbox b := map (map u8) (fq_in b)
|}.
Proof.
  - intros [[|f fs] out]; done.
  - intros b. apply Forall_map, Forall_true. intros f. apply map_u8_wf.
  - intros b. repeat constructor; discriminate.
Defined.

(** A bucket that always answers "wait one nanosecond per byte". *)
Record SlowLimit := mkSlow { slow_calls : Z }.
#[export] Instance Slow_limiter : RateLimiter SlowLimit := {|
  debit l n := (mkSlow (slow_calls l + 1), Some n);
  try_take l n := (mkSlow (slow_calls l + 1), false)
|}.

Definition tx_chain (n : Z) : list Buf := [mkBuf 0x40000000 n false].
Definition demo_net : NetDevice FrameQueue SlowLimit :=
  NetDevice_new (mkFrameQueue [] []) (Some (mkSlow 0)) None.

Lemma net_tx_exact_witness :
  fq_out (net_backend (fst (fst (handle demo_net NET_TX (demo_ram T_IN) (tx_chain 16))))) = [[0; 0; 0; 0]].
Proof.
  pose proof (net_tx_exact demo_net (demo_ram T_IN) (tx_chain 16) (demo_ram_wf T_IN)) as Hd.
  destruct (handle demo_net NET_TX (demo_ram T_IN) (tx_chain 16)) as [[d' r'] n].
  destruct Hd as (_ & _ & _ & Hb).
  - constructor; [|constructor]. pose proof (demo_chain_ok T_IN false) as Hc. by inversion Hc.
  - change (fq_out (net_backend d') = [[0; 0; 0; 0]]). rewrite Hb. vm_compute. reflexivity.
Defined.

Lemma net_tx_debt_last_witness :
  let d1 := fst (fst (handle demo_net NET_TX (demo_ram T_IN) (tx_chain 112))) in
  let d2 := fst (fst (handle d1 NET_TX (demo_ram T_IN) (tx_chain 13))) in
  tx_debt d1 = Some 100 /\ snd (take_throttle d2) = Some 1.
Proof.
  refine (net_tx_debt_last demo_net (demo_ram T_IN) (tx_chain 112) (tx_chain 13)
    (mkSlow 0) (mkSlow 1) (Some 100) _ _ eq_refl _); vm_compute; reflexivity.
Defined.
