(* ===== verification/Vsock.v ===== *)
(** * Vsock: the virtio-vsock device (crates/amber-core/src/vsock.rs)

    Guest streams bridged to host sockets: connection table, packet queue,
    credit flow control. Host sockets and the backend that creates them are
    classes; a socket's state also decides how much of a ring buffer is
    contiguous ([VecDeque::as_slices]). *)

From S2P Require Import Prelude Memory Virtqueue VirtioMmio Devices.

Definition HDR_LEN : Z := 44.
Definition TYPE_STREAM : Z := 1.
Definition CID_HOST : Z := 2.
Definition EPHEMERAL_BASE : Z := 1024.
Definition OP_REQUEST : Z := 1.
Definition OP_RESPONSE : Z := 2.
Definition OP_RST : Z := 3.
Definition OP_SHUTDOWN : Z := 4.
Definition OP_RW : Z := 5.
Definition OP_CREDIT_UPDATE : Z := 6.
Definition OP_CREDIT_REQUEST : Z := 7.
Definition BUF_ALLOC : Z := 256 * 1024.
Definition MAX_PACKET : Z := HDR_LEN + BUF_ALLOC.

(** Outcome of a non-blocking socket call. *)
Inductive IoRes (A : Type) := IoOk (x : A) | WouldBlock | IoErr.
Arguments IoOk {A}.
Arguments WouldBlock {A}.
Arguments IoErr {A}.

(** A non-blocking [UnixStream]. [front_len] is the length of the first of
    the two slices of a non-empty ring buffer holding these bytes. *)
Class HostStream (S : Type) := {
  s_write : S -> list Z -> S * IoRes Z;
  s_read : S -> Z -> S * IoRes (list Z);
  front_len : S -> list Z -> Z
}.
Class HostStreamLaws (S : Type) `{HostStream S} := {
  (** the bytes the socket has accepted so far *)
  s_sent : S -> list Z;
  s_write_ok : forall s bs n, snd (s_write s bs) = IoOk n -> 0 <= n <= zlen bs;
  s_write_sent : forall s bs, s_sent (fst (s_write s bs)) =
    match snd (s_write s bs) with IoOk n => s_sent s ++ take (Z.to_nat n) bs | _ => s_sent s end;
  s_read_sent : forall s n, s_sent (fst (s_read s n)) = s_sent s;
  s_read_ok : forall s n bs, 0 <= n -> snd (s_read s n) = IoOk bs -> zlen bs <= n /\ bytes_wf bs;
  front_len_ok : forall s bs, bs <> [] -> 1 <= front_len s bs <= zlen bs
}.

(** [VsockBackend]; [vb_waiting] counts the sockets the listener has queued. *)
Class VsockBackend (B S : Type) := {
  vb_dial : B -> Z -> B * option S;
  vb_accept : B -> B * option (Z * S);
  vb_waiting : B -> nat
}.
Class VsockBackendLaws (B S : Type) `{VsockBackend B S} := {
  vb_accept_ok : forall b p s, snd (vb_accept b) = Some (p, s) -> fits 32 p;
  vb_accept_less : forall b, snd (vb_accept b) <> None ->
    (vb_waiting (fst (vb_accept b)) < vb_waiting b)%nat
}.

Section Vsock.
Context {B S : Type} `{HostStream S} `{VsockBackend B S}.

Record Conn := mkConn {
  guest_port : Z;
  host_port : Z;
  stream : S;
  peer_buf_alloc : Z;
  peer_fwd_cnt : Z;
  tx_cnt : Z;
  fwd_cnt : Z;
  to_host : list Z;
  up : bool;
  host_done : bool
}.

Definition guest_window (c : Conn) : Z :=
  ssub (peer_buf_alloc c) (wsub32 (tx_cnt c) (peer_fwd_cnt c)).

Record VsockDevice := mkVsock {
  vs_backend : B;
  guest_cid : Z;
  conns : list Conn;
  rx : list (list Z);
  next_host_port : Z
}.

Definition VSOCK_DEVICE_ID : Z := 19.
Definition VS_RX : Z := 0.
Definition VS_TX : Z := 1.
Definition VS_EVENT : Z := 2.

Definition VsockDevice_new (cid : Z) (backend : B) : VsockDevice :=
  mkVsock backend cid [] [] EPHEMERAL_BASE.

Definition set_conns (d : VsockDevice) (cs : list Conn) : VsockDevice :=
  mkVsock (vs_backend d) (guest_cid d) cs (rx d) (next_host_port d).
Definition set_backend (d : VsockDevice) (b : B) : VsockDevice :=
  mkVsock b (guest_cid d) (conns d) (rx d) (next_host_port d).
Definition set_rx (d : VsockDevice) (q : list (list Z)) : VsockDevice :=
  mkVsock (vs_backend d) (guest_cid d) (conns d) q (next_host_port d).
Definition set_next_port (d : VsockDevice) (p : Z) : VsockDevice :=
  mkVsock (vs_backend d) (guest_cid d) (conns d) (rx d) p.

Definition conn_is (gp hp : Z) (c : Conn) : bool := (guest_port c =? gp) && (host_port c =? hp).

Fixpoint position {A} (f : A -> bool) (l : list A) : option nat :=
  match l with
  | [] => None
  | x :: l' => if f x then Some 0%nat else option_map Datatypes.S (position f l')
  end.
Definition find (d : VsockDevice) (gp hp : Z) : option nat := position (conn_is gp hp) (conns d).

(** One turn of the search of [alloc_host_port]: [inl] returns the port. *)
Definition alloc_step (gp : Z) (d : VsockDevice) : (VsockDevice * Z) + VsockDevice :=
  let hp := next_host_port d in
  let d' := set_next_port d (if hp + 1 <? 2 ^ 32 then hp + 1 else EPHEMERAL_BASE) in
  match find d' gp hp with
  | None => inl (d', hp)
  | Some _ => inr d'
  end.

(** [for _ in 0..=(u32::MAX - EPHEMERAL_BASE)]: 2^32 - 1024 turns. *)
Definition alloc_host_port (d : VsockDevice) (gp : Z) : VsockDevice * Z :=
  match iter_until 4294966272 (alloc_step gp) d with
  | inl r => r
  | inr d' => (d', EPHEMERAL_BASE)
  end.

Definition packet (cid gp hp op fwd : Z) (payload : list Z) : list Z :=
  le_bytes 8 CID_HOST ++ le_bytes 8 cid ++ le_bytes 4 hp ++ le_bytes 4 gp ++
  le_bytes 4 (u32 (zlen payload)) ++ le_bytes 2 TYPE_STREAM ++ le_bytes 2 op ++
  zeros 4 ++ le_bytes 4 BUF_ALLOC ++ le_bytes 4 fwd ++ payload.

Definition send (d : VsockDevice) (gp hp op fwd : Z) (payload : list Z) : VsockDevice :=
  set_rx d (rx d ++ [packet (guest_cid d) gp hp op fwd payload]).

Record PktHdr := mkHdr {
  h_dst_cid : Z; h_src_port : Z; h_dst_port : Z; h_len : Z; h_op : Z;
  h_buf_alloc : Z; h_fwd_cnt : Z
}.

(** The fields [on_guest_packet] decodes from a packet of at least [HDR_LEN]
    bytes. *)
Definition parse_hdr (pkt : list Z) : PktHdr :=
  mkHdr (of_le_bytes (slice 8 8 pkt)) (of_le_bytes (slice 16 4 pkt)) (of_le_bytes (slice 20 4 pkt))
    (of_le_bytes (slice 24 4 pkt)) (of_le_bytes (slice 30 2 pkt))
    (of_le_bytes (slice 36 4 pkt)) (of_le_bytes (slice 40 4 pkt)).

Definition set_peer (buf_alloc fwd : Z) (c : Conn) : Conn :=
  mkConn (guest_port c) (host_port c) (stream c) buf_alloc fwd (tx_cnt c) (fwd_cnt c) (to_host c) (up c) (host_done c).
Definition set_up (v : bool) (c : Conn) : Conn :=
  mkConn (guest_port c) (host_port c) (stream c) (peer_buf_alloc c) (peer_fwd_cnt c) (tx_cnt c) (fwd_cnt c) (to_host c) v (host_done c).
Definition set_host_done (v : bool) (c : Conn) : Conn :=
  mkConn (guest_port c) (host_port c) (stream c) (peer_buf_alloc c) (peer_fwd_cnt c) (tx_cnt c) (fwd_cnt c) (to_host c) (up c) v.
Definition set_to_host (q : list Z) (c : Conn) : Conn :=
  mkConn (guest_port c) (host_port c) (stream c) (peer_buf_alloc c) (peer_fwd_cnt c) (tx_cnt c) (fwd_cnt c) q (up c) (host_done c).

Definition upd_conn (d : VsockDevice) (i : nat) (f : Conn -> Conn) : VsockDevice :=
  set_conns d (alter f i (conns d)).

Definition on_guest_packet (d : VsockDevice) (pkt : list Z) : VsockDevice :=
  if zlen pkt <? HDR_LEN then d
  else
    let h := parse_hdr pkt in
    let payload := slice HDR_LEN (Z.min (h_len h) (zlen pkt - HDR_LEN)) pkt in
    if negb (h_dst_cid h =? CID_HOST) then d
    else
      let gp := h_src_port h in
      let hp := h_dst_port h in
      let d := match find d gp hp with
               | Some i => upd_conn d i (set_peer (h_buf_alloc h) (h_fwd_cnt h))
               | None => d
               end in
      let op := h_op h in
      if op =? OP_REQUEST then
        let '(b, o) := vb_dial (vs_backend d) hp in
        let d := set_backend d b in
        match o with
        | Some s =>
            let c := mkConn gp hp s (h_buf_alloc h) (h_fwd_cnt h) 0 0 [] true false in
            send (set_conns d (conns d ++ [c])) gp hp OP_RESPONSE 0 []
        | None => send d gp hp OP_RST 0 []
        end
      else if op =? OP_RESPONSE then
        match find d gp hp with Some i => upd_conn d i (set_up true) | None => d end
      else if op =? OP_RW then
        match find d gp hp with
        | Some i =>
            match conns d !! i with
            | Some c =>
                if BUF_ALLOC <? zlen (to_host c) + zlen payload then
                  send (upd_conn (upd_conn d i (set_up false)) i (set_host_done true)) gp hp OP_RST 0 []
                else upd_conn d i (fun c => set_to_host (to_host c ++ payload) c)
            | None => d
            end
        | None => d
        end
      else if op =? OP_CREDIT_REQUEST then
        let fwd := match find d gp hp with
                   | Some i => match conns d !! i with Some c => fwd_cnt c | None => 0 end
                   | None => 0
                   end in
        send d gp hp OP_CREDIT_UPDATE fwd []
      else if op =? OP_CREDIT_UPDATE then d
      else if (op =? OP_SHUTDOWN) || (op =? OP_RST) then
        match find d gp hp with
        | Some i => upd_conn (upd_conn d i (set_host_done true)) i (set_up false)
        | None => d
        end
      else d.

(** *** [pump] *)

(** Accepting the sockets queued by the listener. *)
Fixpoint accept_loop (fuel : nat) (d : VsockDevice) : VsockDevice :=
  match fuel with
  | O => d
  | Datatypes.S fuel' =>
      let '(b, o) := vb_accept (vs_backend d) in
      let d := set_backend d b in
      match o with
      | None => d
      | Some (gp, s) =>
          let '(d, hp) := alloc_host_port d gp in
          let c := mkConn gp hp s 0 0 0 0 [] false false in
          accept_loop fuel' (send (set_conns d (conns d ++ [c])) gp hp OP_REQUEST 0 [])
      end
  end.

(** Draining guest bytes to the host socket: connection and whether credit
    changed. Each turn that continues drains at least one byte, so the bytes
    held bound the turns. *)
Fixpoint drain_loop (fuel : nat) (c : Conn) (credit_changed : bool) : Conn * bool :=
  match fuel with
  | O => (c, credit_changed)
  | Datatypes.S fuel' =>
      match to_host c with
      | [] => (c, credit_changed)
      | _ =>
          let front := take (Z.to_nat (front_len (stream c) (to_host c))) (to_host c) in
          let '(s, res) := s_write (stream c) front in
          let upd q fwd dn := mkConn (guest_port c) (host_port c) s (peer_buf_alloc c)
            (peer_fwd_cnt c) (tx_cnt c) fwd q (up c) dn in
          match res with
          | IoOk n =>
              if n =? 0 then (upd (to_host c) (fwd_cnt c) (host_done c), credit_changed)
              else drain_loop fuel' (upd (drop (Z.to_nat n) (to_host c))
                     (wadd32 (fwd_cnt c) (u32 n)) (host_done c)) true
          | WouldBlock => (upd (to_host c) (fwd_cnt c) (host_done c), credit_changed)
          | IoErr => (upd (to_host c) (fwd_cnt c) true, credit_changed)
          end
      end
  end.

(** One turn of the host-to-guest loop of a connection, with the payloads
    sent so far. *)
Definition read_step (max_payload : Z) (st : Conn * list (list Z))
    : (Conn * list (list Z)) + (Conn * list (list Z)) :=
  let '(c, sent) := st in
  let take := Z.min (guest_window c) max_payload in
  if take =? 0 then inl (c, sent)
  else
    let '(s, res) := s_read (stream c) take in
    let upd tx dn := mkConn (guest_port c) (host_port c) s (peer_buf_alloc c)
      (peer_fwd_cnt c) tx (fwd_cnt c) (to_host c) (up c) dn in
    match res with
    | IoOk [] => inl (upd (tx_cnt c) true, sent)
    | IoOk bs => inr (upd (wadd32 (tx_cnt c) (u32 (zlen bs))) (host_done c), sent ++ [bs])
    | WouldBlock => inl (upd (tx_cnt c) (host_done c), sent)
    | IoErr => inl (upd (tx_cnt c) true, sent)
    end.

(** The credit window bounds the turns by 2^32. *)
Definition read_loop (max_payload : Z) (c : Conn) : Conn * list (list Z) :=
  match iter_until 4294967296 (read_step max_payload) (c, []) with
  | inl r => r
  | inr r => r
  end.

(** The body of [for idx in 0..self.conns.len()]. *)
Definition pump_conn (max_payload : Z) (d : VsockDevice) (idx : nat) : VsockDevice :=
  match conns d !! idx with
  | None => d
  | Some c =>
      let '(c1, credit_changed) := drain_loop (Datatypes.S (length (to_host c))) c false in
      let d := set_conns d (<[idx := c1]> (conns d)) in
      let d := if credit_changed && up c1
               then send d (guest_port c1) (host_port c1) OP_CREDIT_UPDATE (fwd_cnt c1) [] else d in
      if up c1 then
        let '(c2, sent) := read_loop max_payload c1 in
        let d := foldl (fun d bs => send d (guest_port c1) (host_port c1) OP_RW (fwd_cnt c1) bs) d sent in
        set_conns d (<[idx := c2]> (conns d))
      else d
  end.

Definition conn_dead (c : Conn) : bool :=
  host_done c && match to_host c with [] => true | _ => false end.

Definition reap (d : VsockDevice) : VsockDevice :=
  let dead := List.filter conn_dead (conns d) in
  let d := set_conns d (List.filter (fun c => negb (conn_dead c)) (conns d)) in
  foldl (fun d c => send d (guest_port c) (host_port c) OP_SHUTDOWN (fwd_cnt c) []) d dead.

Definition pump (d : VsockDevice) (max_payload : Z) : VsockDevice :=
  let d := accept_loop (Datatypes.S (vb_waiting (vs_backend d))) d in
  let d := foldl (pump_conn max_payload) d (seq 0 (length (conns d))) in
  reap d.

(** *** The device *)

Definition vsock_config (d : VsockDevice) (off : Z) : Z :=
  if off =? 0 then u32 (guest_cid d)
  else if off =? 4 then u32 (Z.shiftr (guest_cid d) 32)
  else 0.

Definition vsock_handle (d : VsockDevice) (queue : Z) (r : GuestRam) (bufs : list Buf)
    : VsockDevice * GuestRam * Z :=
  if queue =? VS_TX then
    if MAX_PACKET <? total_len (readable_bufs bufs) then (d, r, 0)
    else (on_guest_packet d (gather r (readable_bufs bufs)), r, 0)
  else (d, r, 0).

Definition vsock_poll_rx (d : VsockDevice) (max_frame : Z) : VsockDevice * option (list Z) :=
  let d := match rx d with [] => pump d (ssub max_frame HDR_LEN) | _ => d end in
  match rx d with
  | [] => (d, None)
  | p :: q => (set_rx d q, Some p)
  end.

#[export] Instance Vsock_device : VirtioDevice VsockDevice := {|
  device_id _ := VSOCK_DEVICE_ID;
  device_features _ _ := 0;
  dev_config := vsock_config;
  num_queues _ := 3;
  config_changed _ := false;
  ack_config d := d;
  handle := vsock_handle;
  rx_queue _ := Some VS_RX;
  event_queue _ := Some VS_EVENT;
  poll_rx := vsock_poll_rx;
  wants_poll _ := true;
  take_throttle d := (d, None)
|}.

End Vsock.
Arguments VsockDevice : clear implicits.
Arguments Conn : clear implicits.

Section VsockLaws.
Context {B S : Type} `{HostStreamLaws S} `{!VsockBackend B S} `{!VsockBackendLaws B S}.
Implicit Types (c : Conn S) (d : VsockDevice B S).

Record conn_wf c : Prop := {
  cw_gp : fits 32 (guest_port c);
  cw_hp : fits 32 (host_port c);
  cw_alloc : fits 32 (peer_buf_alloc c);
  cw_pfwd : fits 32 (peer_fwd_cnt c);
  cw_tx : fits 32 (tx_cnt c);
  cw_fwd : fits 32 (fwd_cnt c);
  cw_bytes : bytes_wf (to_host c);
  cw_window : zlen (to_host c) <= BUF_ALLOC
}.

Record vs_wf d : Prop := {
  vw_cid : fits 64 (guest_cid d);
  vw_conns : Forall conn_wf (conns d);
  vw_rx : Forall (fun p => bytes_wf p) (rx d);
  vw_next : EPHEMERAL_BASE <= next_host_port d < 2 ^ 32
}.

Lemma packet_wf cid gp hp op fwd payload : bytes_wf payload -> bytes_wf (packet cid gp hp op fwd payload).
Proof.
  intros Hp. unfold packet. repeat (apply Forall_app_2; [apply le_bytes_wf || apply zeros_wf|]). done.
Qed.

Lemma zlen_packet cid gp hp op fwd payload :
  zlen (packet cid gp hp op fwd payload) = HDR_LEN + zlen payload.
Proof. unfold packet. rewrite !zlen_app, !zlen_le_bytes, zlen_zeros by lia. unfold HDR_LEN. lia. Qed.

Lemma send_wf d gp hp op fwd payload : vs_wf d -> bytes_wf payload -> vs_wf (send d gp hp op fwd payload).
Proof.
  intros [] Hp. split; simpl; try done. apply Forall_app_2; [done|].
  constructor; [by apply packet_wf|constructor].
Qed.

(** Control packets carry no payload. *)
Lemma send_ctl_wf d gp hp op fwd : vs_wf d -> vs_wf (send d gp hp op fwd []).
Proof. intros. apply send_wf; [done|constructor]. Qed.

Lemma set_conns_wf d cs : vs_wf d -> Forall conn_wf cs -> vs_wf (set_conns d cs).
Proof. intros [] ?. by split. Qed.

Lemma set_backend_wf d b : vs_wf d -> vs_wf (set_backend d b).
Proof. intros []. by split. Qed.

Lemma upd_conn_wf d i f : vs_wf d -> (forall c, conns d !! i = Some c -> conn_wf c -> conn_wf (f c)) ->
  vs_wf (upd_conn d i f).
Proof. intros Hd Hf. apply set_conns_wf; [done|]. apply Forall_alter; [apply Hd|done]. Qed.

Lemma position_spec {A} (f : A -> bool) (l : list A) :
  match position f l with
  | Some i => exists x, l !! i = Some x /\ f x = true
  | None => Forall (fun x => f x = false) l
  end.
Proof.
  induction l as [|x l IH]; simpl; [constructor|]. destruct (f x) eqn:E; [by exists x|].
  destruct (position f l); simpl; [done|by constructor].
Qed.

(** *** Host ports *)

Lemma alloc_step_ok gp d :
  vs_wf d ->
  match alloc_step gp d with
  | inl (d', hp) => vs_wf d' /\ conns d' = conns d /\ rx d' = rx d /\ vs_backend d' = vs_backend d /\
      EPHEMERAL_BASE <= hp < 2 ^ 32
  | inr d' => vs_wf d' /\ conns d' = conns d /\ rx d' = rx d /\ vs_backend d' = vs_backend d
  end.
Proof.
  intros Hd. unfold alloc_step. pose proof (vw_next d Hd) as Hn.
  assert (Hd' : vs_wf (set_next_port d
    (if next_host_port d + 1 <? 2 ^ 32 then next_host_port d + 1 else EPHEMERAL_BASE))).
  { destruct Hd. split; simpl; try done. unfold EPHEMERAL_BASE in *.
    destruct (Z.ltb_spec (next_host_port d + 1) (2 ^ 32)); lia. }
  by destruct (find _ gp (next_host_port d)).
Qed.

Lemma alloc_host_port_ok d gp :
  vs_wf d ->
  let '(d', hp) := alloc_host_port d gp in
  vs_wf d' /\ conns d' = conns d /\ rx d' = rx d /\ vs_backend d' = vs_backend d /\
  EPHEMERAL_BASE <= hp < 2 ^ 32.
Proof.
  intros Hd. unfold alloc_host_port.
  pose proof (iter_until_inv
    (fun x => vs_wf x /\ conns x = conns d /\ rx x = rx d /\ vs_backend x = vs_backend d)
    (fun r => let '(x, hp) := r in vs_wf x /\ conns x = conns d /\ rx x = rx d /\
      vs_backend x = vs_backend d /\ EPHEMERAL_BASE <= hp < 2 ^ 32)
    (alloc_step gp) 4294966272 d) as Hi.
  destruct (iter_until _ _ _) as [[d' hp]|d'].
  - apply Hi; [|done]. intros x (Hx & E1 & E2 & E3). pose proof (alloc_step_ok gp x Hx) as Hs.
    rewrite E1, E2, E3 in Hs. by destruct (alloc_step gp x) as [[? ?]|?].
  - destruct Hi as (? & ? & ? & ?); [|done|unfold EPHEMERAL_BASE; auto with lia].
    intros x (Hx & E1 & E2 & E3). pose proof (alloc_step_ok gp x Hx) as Hs.
    rewrite E1, E2, E3 in Hs. by destruct (alloc_step gp x) as [[? ?]|?].
Qed.

(** The [k]-th port the search tries. *)
Definition port_seq (start : Z) (k : nat) : Z :=
  EPHEMERAL_BASE + (start - EPHEMERAL_BASE + Z.of_nat k) mod 4294966272.

Lemma port_seq_inj start j k :
  Z.of_nat j < 4294966272 -> Z.of_nat k < 4294966272 -> port_seq start j = port_seq start k -> j = k.
Proof. unfold port_seq. intros. Z.to_euclidean_division_equations. lia. Qed.

(** A search of [n] turns that finds nothing has met [n] ports in use. *)
Lemma alloc_search gp n d :
  vs_wf d -> Z.of_nat n < 4294966272 ->
  match iter_nat n (alloc_step gp) d with
  | inl (d', hp) => conns d' = conns d /\ Forall (fun c => conn_is gp hp c = false) (conns d)
  | inr d' => conns d' = conns d /\ next_host_port d' = port_seq (next_host_port d) n /\
      forall k, (k < n)%nat -> port_seq (next_host_port d) k ∈ map host_port (conns d)
  end.
Proof.
  intros Hd. revert d Hd. induction n as [|n IH]; intros d Hd Hn.
  { split; [done|]. split; [|lia]. pose proof (vw_next d Hd). unfold port_seq, EPHEMERAL_BASE in *.
    rewrite Z.mod_small by lia. lia. }
  cbn [iter_nat]. pose proof (alloc_step_ok gp d Hd) as Hs. pose proof (vw_next d Hd) as Hr.
  destruct (alloc_step gp d) as [[d1 hp]|d1] eqn:E; unfold alloc_step in E.
  - destruct (find _ gp (next_host_port d)) as [i|] eqn:Ef; [done|]. injection E as <- <-.
    split; [done|]. pose proof (position_spec (conn_is gp (next_host_port d)) (conns d)) as Hp.
    unfold find in Ef. simpl in Ef. by rewrite Ef in Hp.
  - destruct (find _ gp (next_host_port d)) as [i|] eqn:Ef; [|done].
    assert (Hnext : next_host_port d1 = port_seq (next_host_port d) 1).
    { injection E as <-. simpl. unfold port_seq, EPHEMERAL_BASE in *.
      destruct (Z.ltb_spec (next_host_port d + 1) (2 ^ 32)); Z.to_euclidean_division_equations; lia. }
    assert (Hused : next_host_port d ∈ map host_port (conns d)).
    { pose proof (position_spec (conn_is gp (next_host_port d)) (conns d)) as Hp.
      unfold find in Ef. simpl in Ef. rewrite Ef in Hp. destruct Hp as (x & Hx & Hc).
      apply andb_true_iff in Hc as [_ Hc%Z.eqb_eq]. rewrite <- Hc.
      apply list_elem_of_In, in_map, list_elem_of_In. by eapply list_elem_of_lookup_2. }
    destruct Hs as (Hd1 & Hc1 & _). specialize (IH d1 Hd1 ltac:(lia)). rewrite Hc1 in IH.
    assert (Hshift : forall k, port_seq (next_host_port d1) k = port_seq (next_host_port d) (1 + k)).
    { intros k. rewrite Hnext. unfold port_seq. Z.to_euclidean_division_equations. lia. }
    destruct (iter_nat n (alloc_step gp) d1) as [[d' hp]|d'].
    + done.
    + destruct IH as (IH1 & IH2 & IH3). split; [done|]. split; [by rewrite IH2, Hshift|].
      intros [|k] Hk.
      * replace (port_seq (next_host_port d) 0) with (next_host_port d); [done|].
        unfold port_seq, EPHEMERAL_BASE in *. rewrite Z.mod_small by lia. lia.
      * change (Datatypes.S k) with (1 + k)%nat. rewrite <- Hshift. apply IH3. lia.
Qed.

Lemma alloc_search_succeeds gp d :
  vs_wf d -> zlen (conns d) + 1 < 4294966272 ->
  exists r, iter_nat (length (conns d) + 1) (alloc_step gp) d = inl r.
Proof.
  intros Hd Hl. unfold zlen in Hl.
  pose proof (alloc_search gp (length (conns d) + 1) d Hd ltac:(lia)) as Hs.
  destruct (iter_nat _ _ _) as [r|d']; [by exists r|]. exfalso.
  destruct Hs as (_ & _ & Hk).
  set (l := map (port_seq (next_host_port d)) (seq 0 (length (conns d) + 1))).
  assert (Hnd : List.NoDup l).
  { apply NoDup_ListNoDup, NoDup_fmap_2_strong; [|apply NoDup_seq].
    intros j k Hj%elem_of_seq Hk'%elem_of_seq. apply port_seq_inj; lia. }
  pose proof (NoDup_incl_length Hnd (l' := map host_port (conns d))) as Hlen.
  unfold l in Hlen. rewrite !length_map, length_seq in Hlen.
  enough (length (conns d) + 1 <= length (conns d))%nat by lia. apply Hlen.
  intros x Hx. apply in_map_iff in Hx as (k & <- & Hk'%in_seq).
  apply list_elem_of_In, Hk. lia.
Qed.

(** With a budget above the number of connections the search succeeds. *)
Lemma alloc_until p gp d :
  vs_wf d -> (length (conns d) + 1 <= Pos.to_nat p)%nat -> zlen (conns d) + 1 < 4294966272 ->
  exists d' hp, iter_until p (alloc_step gp) d = inl (d', hp) /\
    Forall (fun c => conn_is gp hp c = false) (conns d).
Proof.
  intros Hd Hp Hl. destruct (alloc_search_succeeds gp d Hd Hl) as [[d' hp] Hr].
  pose proof (alloc_search gp (length (conns d) + 1) d Hd ltac:(unfold zlen in Hl; lia)) as Hs.
  rewrite Hr in Hs. exists d', hp. split; [|apply Hs].
  rewrite iter_until_nat.
  replace (Pos.to_nat p) with ((length (conns d) + 1) + (Pos.to_nat p - (length (conns d) + 1)))%nat by lia.
  by rewrite iter_nat_add, Hr.
Qed.

(** *** Guest to host *)

(** What draining does to a connection: a prefix of the held bytes reached
    the socket, and the advertised counter moved by its length. *)
Definition drained c c' (written : list Z) : Prop :=
  guest_port c' = guest_port c /\ host_port c' = host_port c /\
  peer_buf_alloc c' = peer_buf_alloc c /\ peer_fwd_cnt c' = peer_fwd_cnt c /\
  tx_cnt c' = tx_cnt c /\ up c' = up c /\
  to_host c = written ++ to_host c' /\ s_sent (stream c') = s_sent (stream c) ++ written /\
  fwd_cnt c' = u32 (fwd_cnt c + zlen written).

Lemma drained_wf c c' written : conn_wf c -> drained c c' written -> conn_wf c'.
Proof.
  intros [] (E1 & E2 & E3 & E4 & E5 & _ & Hto & _ & Hf). rewrite Hto in *.
  split; rewrite ?E1, ?E2, ?E3, ?E4, ?E5, ?Hf; try done.
  - apply u32_range.
  - by eapply Forall_app.
  - pose proof (zlen_nonneg written). rewrite zlen_app in *. lia.
Qed.

Lemma drain_loop_spec fuel c cc :
  fits 32 (fwd_cnt c) -> zlen (to_host c) < 2 ^ 32 ->
  exists written, drained c (fst (drain_loop fuel c cc)) written /\
    snd (drain_loop fuel c cc) = cc || (0 <? zlen written).
Proof.
  revert c cc. induction fuel as [|fuel IH]; intros c cc Hf Hl; cbn [drain_loop].
  { exists []. split; [|by rewrite orb_false_r]. unfold drained.
    rewrite app_nil_r, zlen_nil, Z.add_0_r, u32_id by done. done. }
  destruct (to_host c) as [|b0 q0] eqn:Hq.
  { exists []. split; [|by rewrite orb_false_r]. unfold drained.
    rewrite Hq, app_nil_r, zlen_nil, Z.add_0_r, u32_id by done. done. }
  rewrite <- Hq in *. set (front := take _ (to_host c)).
  pose proof (s_write_ok (stream c) front) as Hw. pose proof (s_write_sent (stream c) front) as Hsent.
  assert (Hfront : zlen front <= zlen (to_host c)) by (unfold front, zlen; rewrite length_take; lia).
  assert (Hstop : forall s dn, s_sent s = s_sent (stream c) ->
    drained c (mkConn (guest_port c) (host_port c) s (peer_buf_alloc c) (peer_fwd_cnt c) (tx_cnt c)
      (fwd_cnt c) (to_host c) (up c) dn) []).
  { intros s dn Hs. unfold drained. simpl. rewrite app_nil_r, Z.add_0_r, u32_id by done. done. }
  destruct (s_write (stream c) front) as [s res]. simpl in Hw, Hsent.
  destruct res as [n| |].
  - specialize (Hw n eq_refl). destruct (Z.eqb_spec n 0) as [->|Hn].
    { exists []. rewrite orb_false_r. split; [|done]. apply Hstop. by rewrite Hsent, app_nil_r. }
    assert (Hun : u32 n = n) by (apply u32_id; lia).
    match goal with |- context [drain_loop fuel ?x true] => set (c1 := x) end.
    destruct (IH c1 true) as (w & Hd & Hcc).
    { apply u32_range. }
    { unfold c1, zlen in *. simpl. rewrite length_drop. lia. }
    destruct (drain_loop fuel c1 true) as [c2 cc2]. simpl in Hd, Hcc |- *.
    assert (Hn1 : zlen (take (Z.to_nat n) (to_host c)) = n) by (unfold zlen in *; rewrite length_take; lia).
    exists (take (Z.to_nat n) (to_host c) ++ w). split.
    + destruct Hd as (D1 & D2 & D3 & D4 & D5 & D6 & D7 & D8 & D9). unfold c1 in D1, D2, D3, D4, D5, D6, D7, D8, D9.
      simpl in D1, D2, D3, D4, D5, D6, D7, D8, D9.
      unfold drained. do 6 (split; [done|]). split; [|split].
      * rewrite <- app_assoc, <- D7. by rewrite take_drop.
      * rewrite D8, Hsent, <- app_assoc. f_equal. f_equal. unfold front. rewrite take_take. f_equal.
        unfold front, zlen in Hw. rewrite length_take in Hw. lia.
      * rewrite D9, Hun. unfold wadd32, u32. rewrite Zplus_mod_idemp_l. f_equal.
        rewrite zlen_app, Hn1. lia.
    + rewrite Hcc. symmetry. apply orb_true_iff. right. apply Z.ltb_lt.
      pose proof (zlen_nonneg w). rewrite zlen_app. lia.
  - exists []. rewrite orb_false_r. split; [|done]. by apply Hstop.
  - exists []. rewrite orb_false_r. split; [|done]. by apply Hstop.
Qed.

(** The bytes held bound the drain loop: more fuel changes nothing. *)
Lemma drain_loop_fuel k c cc :
  drain_loop (Datatypes.S (length (to_host c)) + k) c cc = drain_loop (Datatypes.S (length (to_host c))) c cc.
Proof.
  remember (length (to_host c)) as n eqn:Hn. assert (Hle : (length (to_host c) <= n)%nat) by lia. clear Hn.
  revert c cc Hle. induction n as [|n IH]; intros c cc Hle.
  { cbn [drain_loop Nat.add]. destruct (to_host c); [done|simpl in Hle; lia]. }
  change (Datatypes.S (Datatypes.S n) + k)%nat with (Datatypes.S (Datatypes.S n + k)).
  remember (Datatypes.S n) as m eqn:Em. cbn [drain_loop].
  destruct (to_host c) as [|b0 q0] eqn:Hq; [done|]. rewrite <- Hq in *.
  pose proof (s_write_ok (stream c) (take (Z.to_nat (front_len (stream c) (to_host c))) (to_host c))) as Hw.
  destruct (s_write _ _) as [s [nw| |]]; [|done|done]. specialize (Hw nw eq_refl).
  destruct (Z.eqb_spec nw 0); [done|]. subst m. apply IH. simpl. rewrite length_drop. lia.
Qed.

(** *** Host to guest *)

Lemma window_spend c n :
  fits 32 (peer_buf_alloc c) -> 0 <= n <= guest_window c ->
  forall c', peer_buf_alloc c' = peer_buf_alloc c -> peer_fwd_cnt c' = peer_fwd_cnt c ->
  tx_cnt c' = wadd32 (tx_cnt c) n -> guest_window c' = guest_window c - n.
Proof.
  intros Ha Hn c' E1 E2 E3. unfold guest_window in *. rewrite E1, E2, E3. clear E1 E2 E3.
  unfold ssub, wsub32, wadd32, u32 in *. change (2 ^ 32) with 4294967296 in *.
  rewrite Zminus_mod_idemp_l. destruct (decide (n = 0)) as [->|].
  { by rewrite Z.add_0_r, Z.sub_0_r. }
  Z.to_euclidean_division_equations. lia.
Qed.

(** Invariant of the read loop from connection [c0]. *)
Definition reading (max_payload : Z) c0 (st : Conn S * list (list Z)) : Prop :=
  let '(c, sent) := st in
  guest_port c = guest_port c0 /\ host_port c = host_port c0 /\ to_host c = to_host c0 /\
  fwd_cnt c = fwd_cnt c0 /\ up c = up c0 /\ peer_buf_alloc c = peer_buf_alloc c0 /\
  peer_fwd_cnt c = peer_fwd_cnt c0 /\ fits 32 (tx_cnt c) /\
  s_sent (stream c) = s_sent (stream c0) /\
  zlen (concat sent) + guest_window c = guest_window c0 /\
  Forall (fun p => 1 <= zlen p <= max_payload /\ bytes_wf p) sent.

Lemma read_step_ok mp c0 st :
  0 <= mp -> fits 32 (peer_buf_alloc c0) -> reading mp c0 st ->
  match read_step mp st with
  | inl st' => reading mp c0 st'
  | inr st' => reading mp c0 st' /\ guest_window (fst st') < guest_window (fst st)
  end.
Proof.
  intros Hmp Ha. destruct st as [c sent].
  intros (R1 & R2 & R3 & R4 & R5 & R6 & R7 & R8 & R9 & R10 & R11). unfold read_step.
  set (n := Z.min (guest_window c) mp). destruct (Z.eqb_spec n 0); [unfold reading; tauto|].
  assert (Hw0 : 0 <= guest_window c) by (unfold guest_window, ssub; lia).
  assert (Hw1 : guest_window c <= peer_buf_alloc c).
  { unfold guest_window, ssub, wsub32. pose proof (u32_range (tx_cnt c - peer_fwd_cnt c)). lia. }
  pose proof (s_read_ok (stream c) n) as Hr. pose proof (s_read_sent (stream c) n) as Hs.
  destruct (s_read (stream c) n) as [s res]. simpl in Hr, Hs.
  assert (Hstop : forall dn, reading mp c0 (mkConn (guest_port c) (host_port c) s (peer_buf_alloc c)
    (peer_fwd_cnt c) (tx_cnt c) (fwd_cnt c) (to_host c) (up c) dn, sent)).
  { intros dn. unfold reading. simpl. rewrite Hs. tauto. }
  destruct res as [[|b bs]| |]; [apply Hstop| |apply Hstop|apply Hstop].
  destruct (Hr (b :: bs) ltac:(lia) eq_refl) as [Hlen Hbs]. set (p := b :: bs) in *.
  assert (Hp1 : 1 <= zlen p) by (unfold p; rewrite zlen_cons; pose proof (zlen_nonneg bs); lia).
  assert (Hup : u32 (zlen p) = zlen p) by (apply u32_id; rewrite R6 in *; lia).
  match goal with |- reading _ _ (?x, _) /\ _ => set (c1 := x) end.
  assert (Hwin : guest_window c1 = guest_window c - zlen p).
  { apply window_spend; [by rewrite R6|lia|done|done|]. unfold c1. simpl. by rewrite Hup. }
  split; [|simpl fst; lia]. unfold reading.
  do 7 (split; [done|]). split; [apply u32_range|]. split; [by rewrite <- R9|]. split.
  - rewrite concat_app, zlen_app. change (concat [p]) with (p ++ []). rewrite app_nil_r, Hwin. lia.
  - apply Forall_app_2; [done|]. constructor; [|constructor]. split; [lia|done].
Qed.

Lemma read_loop_spec mp c :
  0 <= mp -> conn_wf c -> reading mp c (read_loop mp c) /\
  exists st, iter_until 4294967296 (read_step mp) (c, []) = inl st.
Proof.
  intros Hmp Hc. pose proof (cw_alloc c Hc) as Ha.
  assert (Hr0 : reading mp c (c, [])) by (unfold reading; destruct Hc; simpl; auto 15).
  destruct (iter_nat_terminates (reading mp c) (fun st => Z.to_nat (guest_window (fst st)))
    (read_step mp) (Pos.to_nat 4294967296) (c, [])) as [st Hst].
  - intros st Hst. pose proof (read_step_ok mp c st Hmp Ha Hst) as Hs.
    destruct (read_step mp st) as [|[c1 sent1]]; [done|]. destruct Hs as [Hs1 Hs2]. split; [done|]. assert (0 <= guest_window (fst st)) by (unfold guest_window, ssub; lia).
    assert (0 <= guest_window c1) by (unfold guest_window, ssub; lia). simpl in *. lia.
  - exact Hr0.
  - simpl. pose proof (u32_range (tx_cnt c - peer_fwd_cnt c)).
    assert (guest_window c <= peer_buf_alloc c) by (unfold guest_window, ssub, wsub32; lia). lia.
  - rewrite <- iter_until_nat in Hst. split; [|by exists st].
    unfold read_loop. rewrite Hst.
    pose proof (iter_until_inv (reading mp c) (reading mp c) (read_step mp) 4294967296 (c, [])) as Hi.
    rewrite Hst in Hi. apply Hi; [|exact Hr0]. intros x Hx.
    pose proof (read_step_ok mp c x Hmp Ha Hx) as Hs. by destruct (read_step mp x) as [|?]; [|destruct Hs].
Qed.

Lemma reading_wf mp c c' sent : conn_wf c -> reading mp c (c', sent) -> conn_wf c'.
Proof.
  intros [] (E1 & E2 & E3 & E4 & _ & E6 & E7 & E8 & _).
  split; rewrite ?E1, ?E2, ?E3, ?E4, ?E6, ?E7; done.
Qed.

Lemma sends_wf {A} (f : A -> Z * Z * Z * Z * list Z) (l : list A) d :
  vs_wf d -> Forall (fun x => let '(_, payload) := f x in bytes_wf payload) l ->
  let d' := foldl (fun d x => let '(gp, hp, op, fwd, payload) := f x in send d gp hp op fwd payload) d l in
  vs_wf d' /\ conns d' = conns d.
Proof.
  revert d. induction l as [|x l IH]; intros d Hd Hl; simpl; [done|]. inversion Hl as [|? ? Hx Hl']; subst.
  destruct (f x) as [[[[gp hp] op] fwd] payload]. apply (IH (send d gp hp op fwd payload)); [|done].
  by apply send_wf.
Qed.

Lemma pump_conn_wf mp d idx :
  0 <= mp -> vs_wf d -> vs_wf (pump_conn mp d idx) /\ length (conns (pump_conn mp d idx)) = length (conns d).
Proof.
  intros Hmp Hd. unfold pump_conn. destruct (conns d !! idx) as [c|] eqn:Hc; [|done].
  assert (Hcw : conn_wf c) by (eapply Forall_lookup_1; [apply Hd|done]).
  destruct (drain_loop_spec (Datatypes.S (length (to_host c))) c false) as (w & Hdr & _).
  { apply Hcw. } { pose proof (cw_window c Hcw). unfold BUF_ALLOC in *. lia. }
  destruct (drain_loop _ c false) as [c1 cc]. simpl in Hdr.
  pose proof (drained_wf c c1 w Hcw Hdr) as Hc1.
  set (d1 := set_conns d (<[idx:=c1]> (conns d))).
  assert (Hd1 : vs_wf d1) by (apply set_conns_wf; [done|]; apply Forall_insert; [apply Hd|done]).
  set (d2 := if cc && up c1 then _ else d1).
  assert (Hd2 : vs_wf d2 /\ conns d2 = conns d1).
  { unfold d2. destruct (cc && up c1); [|done]. split; [by apply send_ctl_wf|done]. }
  destruct Hd2 as [Hd2 Hcs]. destruct (up c1).
  2: { split; [done|]. rewrite Hcs. apply length_insert. }
  destruct (read_loop_spec mp c1 Hmp Hc1) as [Hrd _].
  destruct (read_loop mp c1) as [c2 sent].
  destruct (sends_wf (fun bs => (guest_port c1, host_port c1, OP_RW, fwd_cnt c1, bs)) sent d2) as [Hd3 Hcs3]; [done| |].
  { destruct Hrd as (_ & _ & _ & _ & _ & _ & _ & _ & _ & _ & Hs). eapply Forall_impl; [exact Hs|].
    simpl. by intros x [_ Hx]. }
  simpl in Hd3, Hcs3. split.
  - apply set_conns_wf; [done|]. apply Forall_insert; [apply Hd3|]. by eapply reading_wf.
  - simpl. rewrite length_insert, Hcs3, Hcs. apply length_insert.
Qed.

Lemma reap_wf d : vs_wf d -> vs_wf (reap d).
Proof.
  intros Hd. unfold reap.
  apply (sends_wf (fun c => (guest_port c, host_port c, OP_SHUTDOWN, fwd_cnt c, []))).
  - apply set_conns_wf; [done|]. apply Forall_forall. intros c Hc%list_elem_of_In%filter_In.
    apply (proj1 (Forall_forall _ _) (vw_conns d Hd)). apply list_elem_of_In, Hc.
  - apply Forall_true. constructor.
Qed.

Lemma new_conn_wf gp hp s a f :
  fits 32 gp -> fits 32 hp -> fits 32 a -> fits 32 f -> forall u,
  conn_wf (mkConn gp hp s a f 0 0 [] u false).
Proof. intros. split; simpl; try done; lia. Qed.

Lemma accept_loop_wf fuel d : vs_wf d -> vs_wf (accept_loop fuel d).
Proof.
  revert d. induction fuel as [|fuel IH]; intros d Hd; cbn [accept_loop]; [done|].
  pose proof (vb_accept_ok (vs_backend d)) as Ha.
  destruct (vb_accept (vs_backend d)) as [b [[gp s]|]]; simpl in Ha; [|by apply set_backend_wf].
  pose proof (alloc_host_port_ok (set_backend d b) gp (set_backend_wf _ _ Hd)) as Hal.
  destruct (alloc_host_port _ gp) as [d1 hp]. destruct Hal as (Hd1 & Hc1 & _ & _ & Hhp).
  apply IH, send_ctl_wf. apply set_conns_wf; [done|]. apply Forall_app_2; [apply Hd1|].
  constructor; [|constructor]. specialize (Ha gp s eq_refl).
  apply new_conn_wf; [done|unfold EPHEMERAL_BASE in *; lia|lia|lia].
Qed.

Lemma pump_wf d mp : 0 <= mp -> vs_wf d -> vs_wf (pump d mp).
Proof.
  intros Hmp Hd. unfold pump. apply reap_wf.
  pose proof (accept_loop_wf (Datatypes.S (vb_waiting (vs_backend d))) d Hd) as H1.
  set (d1 := accept_loop _ d) in *. clearbody d1. generalize (seq 0 (length (conns d1))) as l.
  intros l. revert d1 H1. induction l as [|i l IH]; intros d1 H1; simpl; [done|].
  apply IH. by apply pump_conn_wf.
Qed.

Lemma parse_range off n pkt : bytes_wf pkt -> 0 <= n ->
  0 <= of_le_bytes (slice off n pkt) < 2 ^ (8 * n).
Proof.
  intros Hp Hn. pose proof (of_le_bytes_range (slice off n pkt) (slice_wf _ _ _ Hp)) as Hr.
  assert (Hl : zlen (slice off n pkt) <= n) by (unfold zlen, slice; rewrite length_take; lia).
  rewrite Z.pow_mul_r by lia. split; [lia|]. eapply Z.lt_le_trans; [apply Hr|].
  apply Z.pow_le_mono_r; [done|exact Hl].
Qed.

Lemma on_guest_packet_wf d pkt : vs_wf d -> bytes_wf pkt -> vs_wf (on_guest_packet d pkt).
Proof.
  intros Hd Hp. unfold on_guest_packet. destruct (zlen pkt <? HDR_LEN); [done|].
  set (payload := slice HDR_LEN _ pkt). assert (Hpay : bytes_wf payload) by (by apply slice_wf).
  assert (Hh : fits 32 (h_src_port (parse_hdr pkt)) /\ fits 32 (h_dst_port (parse_hdr pkt)) /\
    fits 32 (h_buf_alloc (parse_hdr pkt)) /\ fits 32 (h_fwd_cnt (parse_hdr pkt))).
  { split; [|split; [|split]]; apply (parse_range _ 4 pkt Hp); lia. }
  destruct Hh as (Hg & Hh & Hb & Hf). destruct (negb _); [done|].
  set (gp := h_src_port _) in *. set (hp := h_dst_port _) in *.
  set (ba := h_buf_alloc _) in *. set (fw := h_fwd_cnt _) in *.
  set (d1 := match find d gp hp with Some _ => _ | None => _ end).
  assert (Hd1 : vs_wf d1).
  { unfold d1. destruct (find d gp hp); [|done]. apply upd_conn_wf; [done|]. intros c _ []. by split. }
  clearbody d1.
  destruct (_ =? OP_REQUEST).
  { destruct (vb_dial (vs_backend d1) hp) as [b [s|]]; apply send_ctl_wf; [|by apply set_backend_wf].
    apply set_conns_wf; [by apply set_backend_wf|]. apply Forall_app_2; [apply Hd1|].
    constructor; [|constructor]. by apply new_conn_wf. }
  assert (Hset : forall i f, (forall c, conn_wf c -> conn_wf (f c)) -> vs_wf (upd_conn d1 i f))
    by (intros; apply upd_conn_wf; auto).
  destruct (_ =? OP_RESPONSE).
  { destruct (find d1 gp hp); [|done]. apply Hset. intros c []. by split. }
  destruct (_ =? OP_RW).
  { destruct (find d1 gp hp) as [i|]; [|done]. destruct (conns d1 !! i) as [c|] eqn:Hc; [|done].
    destruct (Z.ltb_spec BUF_ALLOC (zlen (to_host c) + zlen payload)).
    - apply send_ctl_wf. apply upd_conn_wf; [apply Hset|]; intros c' *; [intros []; by split|].
      intros _ []. by split.
    - apply upd_conn_wf; [done|]. intros c' Hc' []. assert (c' = c) as -> by congruence.
      split; try done; simpl; [by apply Forall_app_2|rewrite zlen_app; lia]. }
  destruct (_ =? OP_CREDIT_REQUEST); [by apply send_ctl_wf|]. destruct (_ =? OP_CREDIT_UPDATE); [done|].
  destruct (_ || _); [|done]. destruct (find d1 gp hp); [|done].
  apply upd_conn_wf; [apply Hset|]; intros c *; [intros []; by split|]. intros _ []. by split.
Qed.

Lemma gather_wf r bufs : ram_wf r -> bytes_wf (gather r bufs).
Proof.
  intros Hr. unfold gather. apply Forall_concat. apply Forall_map, Forall_true.
  intros b. by apply ram_read_zeroed_wf.
Qed.

Lemma poll_rx_wf d cap : vs_wf d -> vs_wf (fst (vsock_poll_rx d cap)) /\
  (forall data, snd (vsock_poll_rx d cap) = Some data -> bytes_wf data).
Proof.
  intros Hd. unfold vsock_poll_rx.
  set (d1 := match rx d with [] => _ | _ => d end).
  assert (Hd1 : vs_wf d1).
  { unfold d1. destruct (rx d); [|done]. apply pump_wf; [unfold ssub; lia|done]. }
  clearbody d1. pose proof Hd1 as [Hv1 Hv2 Hv3 Hv4]. destruct (rx d1) as [|p q] eqn:E; [done|].
  inversion Hv3; subst. split; [by split|]. by intros data [= <-].
Qed.

#[export, refine] Instance Vsock_laws : VirtioDeviceLaws (VsockDevice B S) := {|
  dev_wf := vs_wf;
  dev_touch _ _ _ _ _ := False
|}.
Proof.
  - intros d q r bufs Hd Hr _ _. simpl. unfold vsock_handle.
    destruct (q =? VS_TX); [|done]. destruct (MAX_PACKET <? _); [done|].
    split; [|done]. by apply on_guest_packet_wf, gather_wf.
  - intros d cap Hd. by apply poll_rx_wf.
  - done.
  - done.
  - intros. simpl. lia.
  - intros d off _. simpl. unfold vsock_config.
    destruct (off =? 0); [apply u32_range|]. destruct (off =? 4); [apply u32_range|lia].
  - intros. simpl. unfold VSOCK_DEVICE_ID. lia.
  - done.
  - done.
Defined.

(** *** Packet sizes *)

Definition rx_fits (mp : Z) d : Prop := Forall (fun p => zlen p <= HDR_LEN + mp) (rx d).

Lemma send_fits mp d gp hp op fwd payload :
  zlen payload <= mp -> rx_fits mp d -> rx_fits mp (send d gp hp op fwd payload).
Proof.
  intros Hp Hd. apply Forall_app_2; [done|]. constructor; [|constructor]. rewrite zlen_packet. lia.
Qed.

Lemma sends_fits {A} (f : A -> Z * Z * Z * Z * list Z) (l : list A) mp d :
  rx_fits mp d -> Forall (fun x => let '(_, payload) := f x in zlen payload <= mp) l ->
  rx_fits mp (foldl (fun d x => let '(gp, hp, op, fwd, payload) := f x in send d gp hp op fwd payload) d l).
Proof.
  revert d. induction l as [|x l IH]; intros d Hd Hl; simpl; [done|]. inversion Hl as [|? ? Hx Hl']; subst.
  apply IH; [|done]. destruct (f x) as [[[[gp hp] op] fwd] payload]. by apply send_fits.
Qed.

Lemma accept_loop_fits mp fuel d : 0 <= mp -> vs_wf d -> rx_fits mp d -> rx_fits mp (accept_loop fuel d).
Proof.
  intros Hmp. revert d. induction fuel as [|fuel IH]; intros d Hd Hf; cbn [accept_loop]; [done|].
  pose proof (accept_loop_wf 1 d Hd) as Hwf. cbn [accept_loop] in Hwf.
  destruct (vb_accept (vs_backend d)) as [b [[gp s]|]]; [|done].
  pose proof (alloc_host_port_ok (set_backend d b) gp (set_backend_wf _ _ Hd)) as Hal.
  destruct (alloc_host_port _ gp) as [d1 hp]. destruct Hal as (Hd1 & _ & Hr & _).
  apply IH; [done|]. apply send_fits; [by rewrite zlen_nil|]. unfold rx_fits. simpl. by rewrite Hr.
Qed.

Lemma pump_conn_fits mp d idx : 0 <= mp -> vs_wf d -> rx_fits mp d -> rx_fits mp (pump_conn mp d idx).
Proof.
  intros Hmp Hd Hf. unfold pump_conn. destruct (conns d !! idx) as [c|] eqn:Hc; [|done].
  assert (Hcw : conn_wf c) by (eapply Forall_lookup_1; [apply Hd|done]).
  destruct (drain_loop_spec (Datatypes.S (length (to_host c))) c false) as (w & Hdr & _).
  { apply Hcw. } { pose proof (cw_window c Hcw). unfold BUF_ALLOC in *. lia. }
  destruct (drain_loop _ c false) as [c1 cc]. simpl in Hdr.
  pose proof (drained_wf c c1 w Hcw Hdr) as Hc1.
  set (d2 := if cc && up c1 then _ else _).
  assert (Hd2 : rx_fits mp d2) by (unfold d2; destruct (cc && up c1); [by apply send_fits; [rewrite zlen_nil|]|done]).
  destruct (up c1); [|done]. destruct (read_loop_spec mp c1 Hmp Hc1) as [Hrd _].
  destruct (read_loop mp c1) as [c2 sent].
  apply (sends_fits (fun bs => (guest_port c1, host_port c1, OP_RW, fwd_cnt c1, bs)) sent mp d2 Hd2).
  destruct Hrd as (_ & _ & _ & _ & _ & _ & _ & _ & _ & _ & Hs). eapply Forall_impl; [exact Hs|].
  simpl. intros x [Hx _]. lia.
Qed.

Lemma pump_fits d mp : 0 <= mp -> vs_wf d -> rx_fits mp d -> rx_fits mp (pump d mp).
Proof.
  intros Hmp Hd Hf. unfold pump.
  pose proof (accept_loop_wf (Datatypes.S (vb_waiting (vs_backend d))) d Hd) as Hd1.
  pose proof (accept_loop_fits mp (Datatypes.S (vb_waiting (vs_backend d))) d Hmp Hd Hf) as Hf1.
  set (d1 := accept_loop _ d) in *. clearbody d1. clear Hd Hf.
  assert (Hloop : forall l, rx_fits mp (foldl (pump_conn mp) d1 l)).
  { intros l. revert d1 Hd1 Hf1. induction l as [|i l IH]; intros d1 Hd1 Hf1; simpl; [done|].
    apply IH; [by apply pump_conn_wf|by apply pump_conn_fits]. }
  unfold reap. apply (sends_fits (fun c => (guest_port c, host_port c, OP_SHUTDOWN, fwd_cnt c, []))).
  - apply Hloop.
  - apply Forall_true. intros c. by rewrite zlen_nil.
Qed.

(** ** Properties *)

(** What happens to the device: guest packets on its queues, and polls for
    packets to the guest. *)
Inductive vs_step : VsockDevice B S -> VsockDevice B S -> Prop :=
| vs_guest d q r bufs : ram_wf r -> vs_step d (fst (fst (handle d q r bufs)))
| vs_poll d cap : vs_step d (fst (poll_rx d cap)).

(** C14: whatever packets the guest sends and however the host sockets
    behave, a connection never buffers more than the advertised window
    (256 KiB) of guest bytes, and every counter and port stays a 32-bit
    value. *)
Theorem vsock_backlog_bounded (cid : Z) (b : B) d :
  fits 64 cid -> rtc vs_step (VsockDevice_new cid b) d ->
  Forall (fun c => zlen (to_host c) <= BUF_ALLOC /\ fits 32 (fwd_cnt c) /\ fits 32 (tx_cnt c) /\
    fits 32 (guest_port c) /\ fits 32 (host_port c)) (conns d).
Proof.
  intros Hcid Hsteps. enough (Hd : vs_wf d).
  { eapply Forall_impl; [apply Hd|]. intros c []. done. }
  revert d Hsteps. apply (rtc_ind_r vs_wf).
  - split; simpl; try done; constructor.
  - intros d d' _ Hstep Hd. destruct Hstep as [d q r bufs Hr|d cap].
    + simpl. unfold vsock_handle. destruct (q =? VS_TX); [|done]. destruct (MAX_PACKET <? _); [done|].
      by apply on_guest_packet_wf, gather_wf.
    + by apply poll_rx_wf.
Qed.

(** the host port given to a host-initiated connection is in the
    ephemeral range and not in use for that guest port, however many times
    the counter has wrapped (with fewer live connections than ports). *)
Theorem alloc_host_port_fresh d (gp : Z) :
  vs_wf d -> zlen (conns d) + 1 < 2 ^ 32 - EPHEMERAL_BASE ->
  let '(d', hp) := alloc_host_port d gp in
  conns d' = conns d /\ EPHEMERAL_BASE <= hp < 2 ^ 32 /\
  Forall (fun c => ~ (guest_port c = gp /\ host_port c = hp)) (conns d).
Proof.
  intros Hd Hl. pose proof (alloc_host_port_ok d gp Hd) as Hok.
  destruct (alloc_until 4294966272 gp d Hd) as (d' & hp & Hr & Hs).
  { unfold EPHEMERAL_BASE, zlen in Hl. lia. } { unfold EPHEMERAL_BASE in Hl. lia. }
  assert (E : alloc_host_port d gp = (d', hp)) by (unfold alloc_host_port; by rewrite Hr).
  rewrite E in Hok |- *. destruct Hok as (_ & Hc & _ & _ & Hhp). split; [done|]. split; [done|].
  eapply Forall_impl; [exact Hs|]. intros c Hc' [<- <-]. unfold conn_is in Hc'.
  by rewrite !Z.eqb_refl in Hc'.
Qed.

(** wire format: the header fields the parser extracts from a packet the
    device builds are the ones it was built from (source and destination
    swapped by direction), and the payload is found behind the header. *)
Theorem vsock_header_roundtrip (cid gp hp op fwd : Z) (payload : list Z) :
  fits 64 cid -> fits 32 gp -> fits 32 hp -> fits 16 op -> fits 32 fwd -> fits 32 (zlen payload) ->
  let pkt := packet cid gp hp op fwd payload in
  parse_hdr pkt = mkHdr cid hp gp (zlen payload) op BUF_ALLOC fwd /\
  slice HDR_LEN (zlen pkt - HDR_LEN) pkt = payload.
Proof.
  intros H1 H2 H3 H4 H5 H6 pkt. split.
  - assert (E : parse_hdr pkt = mkHdr (of_le_bytes (le_bytes 8 cid)) (of_le_bytes (le_bytes 4 hp))
      (of_le_bytes (le_bytes 4 gp)) (of_le_bytes (le_bytes 4 (u32 (zlen payload))))
      (of_le_bytes (le_bytes 2 op)) (of_le_bytes (le_bytes 4 BUF_ALLOC)) (of_le_bytes (le_bytes 4 fwd)))
      by reflexivity.
    rewrite E, !of_le_bytes_le_bytes_id; try done; change (256 ^ Z.of_nat 4) with (2 ^ 32).
    + by rewrite u32_id.
    + apply u32_range.
  - unfold pkt. rewrite zlen_packet. replace (HDR_LEN + zlen payload - HDR_LEN) with (zlen payload) by lia.
    assert (E : drop (Z.to_nat HDR_LEN) (packet cid gp hp op fwd payload) = payload) by reflexivity.
    unfold slice. rewrite E. apply take_ge. unfold zlen. lia.
Qed.

(** one turn of the pump on a connection moves bytes under flow control:
    a prefix of the held guest bytes reaches the host socket and the
    advertised counter advances by exactly its length; the payload sent to
    the guest is exactly what its credit window shrinks by, cut in packets no
    larger than the posted buffer allows; and the packets queued are one
    credit update (when bytes were drained) followed by those payloads. *)
Theorem vsock_flow_control (mp : Z) d (idx : nat) (c : Conn S) :
  0 <= mp -> vs_wf d -> conns d !! idx = Some c ->
  exists c' written sent,
    conns (pump_conn mp d idx) !! idx = Some c' /\
    to_host c = written ++ to_host c' /\
    s_sent (stream c') = s_sent (stream c) ++ written /\
    fwd_cnt c' = u32 (fwd_cnt c + zlen written) /\
    zlen (concat sent) + guest_window c' = guest_window c /\
    (up c = false -> sent = []) /\
    Forall (fun p => 1 <= zlen p <= mp) sent /\
    rx (pump_conn mp d idx) = rx d ++
      (if (0 <? zlen written) && up c
       then [packet (guest_cid d) (guest_port c) (host_port c) OP_CREDIT_UPDATE (fwd_cnt c') []] else []) ++
      map (packet (guest_cid d) (guest_port c) (host_port c) OP_RW (fwd_cnt c')) sent.
Proof.
  intros Hmp Hd Hc. assert (Hcw : conn_wf c) by (eapply Forall_lookup_1; [apply Hd|done]).
  assert (Hidx : (idx < length (conns d))%nat) by (by eapply lookup_lt_Some).
  unfold pump_conn. rewrite Hc.
  destruct (drain_loop_spec (Datatypes.S (length (to_host c))) c false) as (w & Hdr & Hcc).
  { apply Hcw. } { pose proof (cw_window c Hcw). unfold BUF_ALLOC in *. lia. }
  destruct (drain_loop _ c false) as [c1 cc]. simpl in Hdr, Hcc.
  pose proof (drained_wf c c1 w Hcw Hdr) as Hc1.
  destruct Hdr as (D1 & D2 & D3 & D4 & D5 & D6 & D7 & D8 & D9).
  assert (Hwin : guest_window c1 = guest_window c) by (unfold guest_window; by rewrite D3, D4, D5).
  assert (Hsends : forall sent d', rx (foldl (fun d bs => send d (guest_port c1) (host_port c1) OP_RW (fwd_cnt c1) bs) d' sent)
    = rx d' ++ map (packet (guest_cid d') (guest_port c1) (host_port c1) OP_RW (fwd_cnt c1)) sent /\
    conns (foldl (fun d bs => send d (guest_port c1) (host_port c1) OP_RW (fwd_cnt c1) bs) d' sent) = conns d').
  { induction sent as [|p l IH]; intros d'; simpl; [by rewrite app_nil_r|].
    destruct (IH (send d' (guest_port c1) (host_port c1) OP_RW (fwd_cnt c1) p)) as [-> ->].
    simpl. by rewrite <- app_assoc. }
  rewrite Hcc. simpl. destruct (up c1) eqn:Hup.
  - destruct (read_loop_spec mp c1 Hmp Hc1) as [Hrd _]. destruct (read_loop mp c1) as [c2 sent].
    destruct Hrd as (R1 & R2 & R3 & R4 & R5 & R6 & R7 & R8 & R9 & R10 & R11).
    exists c2, w, sent. rewrite <- D6, andb_true_r.
    rewrite R3, R4, R9, <- Hwin, <- D1, <- D2, <- D9.
    set (d2 := if 0 <? zlen w then _ else _).
    assert (Hg : guest_cid d2 = guest_cid d /\ conns d2 = <[idx:=c1]> (conns d)) by (unfold d2; by destruct (0 <? zlen w)).
    destruct (Hsends sent d2) as [Hrx Hcs]. simpl. rewrite Hcs, Hrx, (proj1 Hg), (proj2 Hg).
    split. { rewrite list_lookup_insert_eq; [done|]. by rewrite length_insert. }
    do 4 (split; [done|]). split; [done|]. split.
    + eapply Forall_impl; [exact R11|]. simpl. tauto.
    + unfold d2. destruct (0 <? zlen w); simpl; [by rewrite <- app_assoc|done].
  - exists c1, w, []. rewrite <- D6. simpl. rewrite !andb_false_r. simpl.
    rewrite app_nil_r. split; [by rewrite list_lookup_insert_eq|]. do 4 (split; [done|]).
    split; [done|]. split; [constructor|done].
Qed.

(** a packet pulled when none is queued fits the buffer the guest has
    posted (or is a bare header). *)
Theorem vsock_poll_fits d (cap : Z) (p : list Z) :
  vs_wf d -> rx d = [] -> snd (poll_rx d cap) = Some p -> zlen p <= Z.max HDR_LEN cap.
Proof.
  intros Hd Hrx. simpl. unfold vsock_poll_rx. rewrite Hrx.
  assert (Hmp : 0 <= ssub cap HDR_LEN) by (unfold ssub; lia).
  assert (Hf : rx_fits (ssub cap HDR_LEN) d) by (unfold rx_fits; by rewrite Hrx).
  pose proof (pump_fits d (ssub cap HDR_LEN) Hmp Hd Hf) as Hp.
  unfold rx_fits in Hp. destruct (rx (pump d _)) as [|p' q]; [done|]. intros [= ->].
  inversion Hp; subst. unfold ssub in *. lia.
Qed.
End VsockLaws.

(** ** A concrete socket and backend, and witnesses *)

(** A socket with a finite inbox that accepts at most [pipe_room] more bytes. *)
Record Pipe := mkPipe { pipe_in : list Z; pipe_out : list Z; pipe_room : Z }.

#[export] Instance Pipe_stream : HostStream Pipe := {|
  s_write s bs :=
    let n := Z.min (zlen bs) (Z.max 0 (pipe_room s)) in
    if n =? 0 then (s, WouldBlock)
    else (mkPipe (pipe_in s) (pipe_out s ++ take (Z.to_nat n) bs) (pipe_room s - n), IoOk n);
  s_read s n :=
    match pipe_in s with
    | [] => (s, WouldBlock)
    | _ => (mkPipe (drop (Z.to_nat n) (pipe_in s)) (pipe_out s) (pipe_room s),
            IoOk (map u8 (take (Z.to_nat n) (pipe_in s))))
    end;
  front_len s bs := zlen bs
|}.

#[export, refine] Instance Pipe_laws : HostStreamLaws Pipe := {| s_sent := pipe_out |}.
Proof.
  - intros s bs n. simpl. destruct (_ =? 0); [done|]. intros [= <-]. pose proof (zlen_nonneg bs). lia.
  - intros s bs. simpl. by destruct (_ =? 0).
  - intros s n. simpl. by destruct (pipe_in s).
  - intros s n bs Hn. simpl. destruct (pipe_in s) as [|x l]; [done|]. intros E. injection E as <-.
    split; [|apply map_u8_wf]. unfold zlen. rewrite length_map, length_take. lia.
  - intros s bs Hb. simpl. destruct bs; [done|]. rewrite zlen_cons. pose proof (zlen_nonneg bs). lia.
Defined.

(** A backend that dials an empty pipe and has a list of host peers waiting. *)
Record Peers := mkPeers { peers_waiting : list (Z * Pipe) }.
#[export] Instance Peers_backend : VsockBackend Peers Pipe := {|
  vb_dial b port := (b, if port =? 0 then None else Some (mkPipe [] [] 1024));
  vb_accept b := match peers_waiting b with
    | [] => (b, None) | (p, s) :: l => (mkPeers l, Some (u32 p, s)) end;
  vb_waiting b := length (peers_waiting b)
|}.
#[export] Instance Peers_laws : VsockBackendLaws Peers Pipe.
Proof.
  split.
  - intros [[|[p0 s0] l]] p s; simpl; [done|]. intros [= <- <-]. apply u32_range.
  - intros [[|[p0 s0] l]]; simpl; [done|]. lia.
Qed.

Definition demo_vsock : VsockDevice Peers Pipe :=
  mkVsock (mkPeers []) 3
    [mkConn 5000 1024 (mkPipe (map Z.of_nat (seq 0 600)) [] 2) 1000 0 0 0 [7; 8; 9] true false] [] 1025.

Lemma demo_vsock_wf : vs_wf demo_vsock.
Proof.
  split; simpl; try lia; [|done|unfold EPHEMERAL_BASE; lia].
  constructor; [|constructor]. split; simpl; try lia; [|done].
  repeat constructor; unfold is_byte; lia.
Qed.

Lemma vsock_backlog_bounded_witness :
  let d := fst (poll_rx (VsockDevice_new 3 (mkPeers [(5000, mkPipe [] [] 0)])) 4096) in
  length (conns d) = 1%nat /\
  Forall (fun c => zlen (to_host c) <= BUF_ALLOC /\ fits 32 (fwd_cnt c) /\ fits 32 (tx_cnt c) /\
    fits 32 (guest_port c) /\ fits 32 (host_port c)) (conns d).
Proof.
  split; [vm_compute; reflexivity|].
  apply (vsock_backlog_bounded 3 (mkPeers [(5000, mkPipe [] [] 0)])); [lia|].
  apply rtc_once. constructor.
Defined.

Lemma alloc_host_port_fresh_witness :
  let d := set_next_port demo_vsock 1024 in
  snd (alloc_host_port d 5000) = 1025 /\
  (let '(d', hp) := alloc_host_port d 5000 in
   conns d' = conns d /\ EPHEMERAL_BASE <= hp < 2 ^ 32 /\
   Forall (fun c => ~ (guest_port c = 5000 /\ host_port c = hp)) (conns d)).
Proof.
  split; [vm_compute; reflexivity|].
  apply (alloc_host_port_fresh (set_next_port demo_vsock 1024) 5000); [|vm_compute; reflexivity].
  pose proof demo_vsock_wf as []. by split.
Defined.

Lemma vsock_header_roundtrip_witness :
  parse_hdr (packet 3 5000 1024 OP_RW 17 [1; 2; 3]) = mkHdr 3 1024 5000 3 OP_RW BUF_ALLOC 17.
Proof. apply (vsock_header_roundtrip 3 5000 1024 OP_RW 17 [1; 2; 3]); unfold OP_RW, zlen; simpl; lia. Defined.

Lemma vsock_flow_control_witness :
  exists (c' : Conn Pipe) (sent : list (list Z)), conns (pump_conn 256 demo_vsock 0) !! 0%nat = Some c' /\
    zlen (concat sent) + guest_window c' = 1000.
Proof.
  destruct (vsock_flow_control 256 demo_vsock 0
    (mkConn 5000 1024 (mkPipe (map Z.of_nat (seq 0 600)) [] 2) 1000 0 0 0 [7; 8; 9] true false))
    as (c' & written & sent & Hc & _ & _ & _ & Hw & _); [lia|apply demo_vsock_wf|reflexivity|].
  exists c', sent. split; [exact Hc|]. rewrite Hw. reflexivity.
Defined.

Lemma vsock_poll_fits_witness :
  exists p, snd (poll_rx demo_vsock 256) = Some p /\ zlen p <= 256.
Proof.
  assert (E : exists p, snd (poll_rx demo_vsock 256) = Some p) by (vm_compute; eauto).
  destruct E as [p Hp]. exists p. split; [exact Hp|].
  exact (vsock_poll_fits demo_vsock 256 p demo_vsock_wf eq_refl Hp).
Defined.

(** packets queued by one pump are sized for the buffer posted then: when
    the guest's next buffer is smaller, [poll_rx] still hands out the queued
    packet, larger than [max_frame], although a stream device must not. Here a
    600-byte host write is cut for a 300-byte buffer; the following poll, for
    a 100-byte buffer, returns a 300-byte packet. *)
Theorem vsock_leftover_oversized :
  exists (d : VsockDevice Peers Pipe) (p : list Z),
    vs_wf d /\ fst (poll_rx (fst (poll_rx demo_vsock 300)) 300) = d /\
    snd (poll_rx d 100) = Some p /\ zlen p = 300.
Proof.
  pose proof (poll_rx_wf demo_vsock 300 demo_vsock_wf) as [Hd1 _].
  pose proof (poll_rx_wf _ 300 Hd1) as [Hd2 _].
  eexists _, _. split; [exact Hd2|]. split; [reflexivity|]. split; vm_compute; reflexivity.
Qed.
