(* ===== verification/Gicv2.v ===== *)
(** * Gicv2: the software interrupt controller
    (crates/amber-hvf/src/gicv2.rs)

    Distributor and per-CPU interfaces as pure state. INTIDs and CPU numbers
    are [nat] (the source's [usize] indices), register values [Z]. The six
    per-INTID arrays a CPU bank and the shared block both have are the record
    [Lines]. Indexing a CPU beyond [cpus] panics in the source; the accessors
    here are total, and the theorems are about CPUs the controller has. *)

From Stdlib Require Import Sorting.Sorted.
From S2P Require Import Prelude.

Definition NUM_INTID : nat := 256.
Definition PRIVATE : nat := 32.
Definition SPURIOUS : Z := 1023.
Definition IDLE_PRIO : Z := 0xff.
Definition MAX_CPUS : nat := 8.

Module gicd.
Definition CTLR : Z := 0x000.
Definition TYPER : Z := 0x004.
Definition IIDR : Z := 0x008.
Definition IGROUPR : Z := 0x080.
Definition ISENABLER : Z := 0x100.
Definition ICENABLER : Z := 0x180.
Definition ISPENDR : Z := 0x200.
Definition ICPENDR : Z := 0x280.
Definition ISACTIVER : Z := 0x300.
Definition ICACTIVER : Z := 0x380.
Definition IPRIORITYR : Z := 0x400.
Definition ITARGETSR : Z := 0x800.
Definition ICFGR : Z := 0xc00.
Definition SGIR : Z := 0xf00.
End gicd.

Module gicc.
Definition CTLR : Z := 0x00.
Definition PMR : Z := 0x04.
Definition BPR : Z := 0x08.
Definition IAR : Z := 0x0c.
Definition EOIR : Z := 0x10.
Definition RPR : Z := 0x14.
Definition HPPIR : Z := 0x18.
Definition IIDR : Z := 0xfc.
End gicc.

(** ** State *)

Record Lines := mkLines {
  l_enabled : list bool;
  l_pending : list bool;
  l_active : list bool;
  l_level : list bool;
  l_edge : list bool;
  l_priority : list Z
}.

Record CpuBank := mkBank {
  cpu_enabled : bool;
  pmr : Z;
  running : list Z;
  lines : Lines;
  sgi_src : list Z
}.

Record GicV2 := mkGic {
  dist_enabled : bool;
  cpus : list CpuBank;
  shared : Lines;
  targets : list Z
}.

Definition CpuBank_default : CpuBank :=
  mkBank false 0 []
    (mkLines (replicate PRIVATE false) (replicate PRIVATE false) (replicate PRIVATE false)
       (replicate PRIVATE false) (replicate 16 true ++ replicate 16 false) (replicate PRIVATE 0))
    (replicate 16 0).

Definition clamp_cpus (n : nat) : nat := (1 `max` (n `min` MAX_CPUS))%nat.

Definition with_cpus (n : nat) : GicV2 :=
  mkGic false (replicate (clamp_cpus n) CpuBank_default)
    (mkLines (replicate NUM_INTID false) (replicate NUM_INTID false) (replicate NUM_INTID false)
       (replicate NUM_INTID false) (replicate NUM_INTID false) (replicate NUM_INTID 0))
    (replicate NUM_INTID 1).

Definition num_cpus (g : GicV2) : nat := length (cpus g).

(** ** Accessors *)

Definition bank (g : GicV2) (cpu : nat) : CpuBank := default CpuBank_default (cpus g !! cpu).
(** The block INTID [i] lives in, seen from [cpu]. *)
Definition block (g : GicV2) (cpu i : nat) : Lines :=
  if (i <? PRIVATE)%nat then lines (bank g cpu) else shared g.

Definition bit_at (l : list bool) (i : nat) : bool := default false (l !! i).
Definition byte_at (l : list Z) (i : nat) : Z := default 0 (l !! i).

Definition enabled_at (g : GicV2) (cpu i : nat) : bool := bit_at (l_enabled (block g cpu i)) i.
Definition active_at (g : GicV2) (cpu i : nat) : bool := bit_at (l_active (block g cpu i)) i.
Definition priority_at (g : GicV2) (cpu i : nat) : Z := byte_at (l_priority (block g cpu i)) i.
Definition edge_at (g : GicV2) (cpu i : nat) : bool := bit_at (l_edge (block g cpu i)) i.

Definition latch_or_level (b : Lines) (i : nat) : bool :=
  if bit_at (l_edge b) i then bit_at (l_pending b) i else bit_at (l_level b) i.

Definition is_pending (g : GicV2) (cpu i : nat) : bool :=
  if (i <? PRIVATE)%nat then latch_or_level (lines (bank g cpu)) i
  else if Z.land (byte_at (targets g) i) (Z.shiftl 1 (Z.of_nat cpu)) =? 0 then false
  else latch_or_level (shared g) i.

Definition running_prio (g : GicV2) (cpu : nat) : Z := default IDLE_PRIO (last (running (bank g cpu))).

(** The body of the scan of [highest_pending]. *)
Definition scan_step (g : GicV2) (cpu : nat) (best : option (nat * Z)) (i : nat) : option (nat * Z) :=
  if negb (enabled_at g cpu i) || active_at g cpu i || negb (is_pending g cpu i) then best
  else
    let p := priority_at g cpu i in
    if (pmr (bank g cpu) <=? p) || (running_prio g cpu <=? p) then best
    else match best with
         | Some (_, bp) => if p <? bp then Some (i, p) else best
         | None => Some (i, p)
         end.

Definition highest_pending (g : GicV2) (cpu : nat) : option (nat * Z) :=
  if negb (dist_enabled g) then None
  else foldl (scan_step g cpu) None (seq 0 NUM_INTID).

Definition irq_pending (g : GicV2) (cpu : nat) : bool :=
  cpu_enabled (bank g cpu) && match highest_pending g cpu with Some _ => true | None => false end.

Definition pending_cpus (g : GicV2) : Z :=
  foldl (fun m c => Z.lor m (Z.shiftl 1 (Z.of_nat c))) 0
    (List.filter (irq_pending g) (seq 0 (num_cpus g))).

(** ** Updates *)

Definition set_cpus (g : GicV2) (cs : list CpuBank) : GicV2 :=
  mkGic (dist_enabled g) cs (shared g) (targets g).
Definition set_shared (g : GicV2) (l : Lines) : GicV2 :=
  mkGic (dist_enabled g) (cpus g) l (targets g).
Definition set_dist_enabled (g : GicV2) (v : bool) : GicV2 :=
  mkGic v (cpus g) (shared g) (targets g).
Definition set_targets (g : GicV2) (t : list Z) : GicV2 :=
  mkGic (dist_enabled g) (cpus g) (shared g) t.
Definition upd_bank (g : GicV2) (cpu : nat) (f : CpuBank -> CpuBank) : GicV2 :=
  set_cpus g (alter f cpu (cpus g)).
Definition upd_lines (f : Lines -> Lines) (b : CpuBank) : CpuBank :=
  mkBank (cpu_enabled b) (pmr b) (running b) (f (lines b)) (sgi_src b).
(** Update the block INTID [i] lives in. *)
Definition upd_block (g : GicV2) (cpu i : nat) (f : Lines -> Lines) : GicV2 :=
  if (i <? PRIVATE)%nat then upd_bank g cpu (upd_lines f)
  else if (i <? NUM_INTID)%nat then set_shared g (f (shared g))
  else g.

Definition put_enabled (i : nat) (v : bool) (l : Lines) : Lines :=
  mkLines (<[i:=v]> (l_enabled l)) (l_pending l) (l_active l) (l_level l) (l_edge l) (l_priority l).
Definition put_pending (i : nat) (v : bool) (l : Lines) : Lines :=
  mkLines (l_enabled l) (<[i:=v]> (l_pending l)) (l_active l) (l_level l) (l_edge l) (l_priority l).
Definition put_active (i : nat) (v : bool) (l : Lines) : Lines :=
  mkLines (l_enabled l) (l_pending l) (<[i:=v]> (l_active l)) (l_level l) (l_edge l) (l_priority l).
Definition put_level (i : nat) (v : bool) (l : Lines) : Lines :=
  mkLines (l_enabled l) (l_pending l) (l_active l) (<[i:=v]> (l_level l)) (l_edge l) (l_priority l).
Definition put_edge (i : nat) (v : bool) (l : Lines) : Lines :=
  mkLines (l_enabled l) (l_pending l) (l_active l) (l_level l) (<[i:=v]> (l_edge l)) (l_priority l).
Definition put_priority (i : nat) (v : Z) (l : Lines) : Lines :=
  mkLines (l_enabled l) (l_pending l) (l_active l) (l_level l) (l_edge l) (<[i:=v]> (l_priority l)).

Definition set_level (g : GicV2) (cpu : nat) (intid : Z) (high : bool) : GicV2 :=
  let i := Z.to_nat intid in
  upd_block g cpu i (fun l => put_edge i false (put_level i high l)).

(** ** Snapshot *)

Definition BLOB_MAGIC : Z := 0xa2.
Definition BLOB_V2 : Z := 2.

Definition capture_bits (l : Lines) : list Z :=
  map b2z (l_enabled l) ++ map b2z (l_pending l) ++ map b2z (l_active l) ++
  map b2z (l_level l) ++ map b2z (l_edge l).

Definition capture_bank (b : CpuBank) : list Z :=
  [b2z (cpu_enabled b); pmr b] ++ capture_bits (lines b) ++ l_priority (lines b) ++ sgi_src b ++
  [Z.of_nat (length (running b) `min` 255)] ++ take 255 (running b).

Definition gic_capture (g : GicV2) : list Z :=
  [BLOB_MAGIC; BLOB_V2; u8 (Z.of_nat (num_cpus g)); b2z (dist_enabled g)] ++
  concat (map capture_bank (cpus g)) ++
  capture_bits (shared g) ++ l_priority (shared g) ++ targets g.

(** The [next] closure: missing bytes read as 0. *)
Definition next (b : list Z) : Z * list Z := match b with [] => (0, []) | x :: b' => (x, b') end.

Fixpoint next_n (n : nat) (b : list Z) : list Z * list Z :=
  match n with
  | O => ([], b)
  | S n' => let '(x, b1) := next b in let '(xs, b2) := next_n n' b1 in (x :: xs, b2)
  end.

Definition next_bits (n : nat) (b : list Z) : list bool * list Z :=
  let '(xs, b') := next_n n b in (map nz xs, b').

Definition restore_bits (n : nat) (b : list Z) : Lines * list Z :=
  let '(en, b) := next_bits n b in
  let '(pe, b) := next_bits n b in
  let '(ac, b) := next_bits n b in
  let '(le, b) := next_bits n b in
  let '(ed, b) := next_bits n b in
  let '(pr, b) := next_n n b in
  (mkLines en pe ac le ed pr, b).

Definition restore_bank (b : list Z) : CpuBank * list Z :=
  let '(en, b) := next b in
  let '(pm, b) := next b in
  let '(l, b) := restore_bits PRIVATE b in
  let '(src, b) := next_n 16 b in
  let '(n, b) := next b in
  let '(run, b) := next_n (Z.to_nat n) b in
  (mkBank (nz en) pm run l src, b).

Fixpoint restore_banks (n : nat) (b : list Z) : list CpuBank * list Z :=
  match n with
  | O => ([], b)
  | S n' =>
      let '(k, b1) := restore_bank b in
      let '(ks, b2) := restore_banks n' b1 in (k :: ks, b2)
  end.

Definition restore_v2 (g : GicV2) (blob : list Z) : GicV2 :=
  let b := drop 2 blob in
  let '(nc, b) := next b in
  let ncpu := clamp_cpus (Z.to_nat nc) in
  let '(de, b) := next b in
  let '(banks, b) := restore_banks ncpu b in
  let '(l, b) := restore_bits NUM_INTID b in
  let '(t, b) := next_n NUM_INTID b in
  (** never fewer banks than the machine has vcpus *)
  mkGic (nz de) (banks ++ replicate (num_cpus g - ncpu) CpuBank_default) l t.

(** The flat single-CPU layout: entries below [PRIVATE] go to CPU 0's bank,
    the others to the shared block, whose low entries are left alone. *)
Definition merge_high {A} (old new : list A) : list A := take PRIVATE old ++ drop PRIVATE new.

Definition restore_legacy (g : GicV2) (blob : list Z) : GicV2 :=
  let '(de, b) := next blob in
  let '(en, b) := next b in
  let '(pm, b) := next b in
  let '(l, b) := restore_bits NUM_INTID b in
  let '(n, b) := next b in
  let '(run, b) := next_n (Z.to_nat n) b in
  let priv := mkLines (take PRIVATE (l_enabled l)) (take PRIVATE (l_pending l)) (take PRIVATE (l_active l))
    (take PRIVATE (l_level l)) (take PRIVATE (l_edge l)) (take PRIVATE (l_priority l)) in
  let old := shared g in
  mkGic (nz de) [mkBank (nz en) pm run priv (sgi_src CpuBank_default)]
    (mkLines (merge_high (l_enabled old) (l_enabled l)) (merge_high (l_pending old) (l_pending l))
       (merge_high (l_active old) (l_active l)) (merge_high (l_level old) (l_level l))
       (merge_high (l_edge old) (l_edge l)) (merge_high (l_priority old) (l_priority l)))
    (replicate NUM_INTID 1).

Definition gic_restore (g : GicV2) (b : list Z) : GicV2 :=
  match b with
  | x :: _ => if x =? BLOB_MAGIC then restore_v2 g b else restore_legacy g b
  | [] => restore_legacy g b
  end.

(** ** MMIO helpers *)

Definition range (off start count : Z) : bool := (start <=? off) && (off <? start + count * 4).
Definition base_index (off start : Z) : nat := Z.to_nat (Z.ldiff (off - start) 3 * 8).
Definition base_index_cfg (off : Z) : nat := Z.to_nat (Z.ldiff (off - gicd.ICFGR) 3 * 4).
Definition extract (reg off size : Z) : Z :=
  let shift := Z.land off 3 * 8 in
  let mask := if size =? 1 then 0xff else if size =? 2 then 0xffff else 0xffffffff in
  Z.land (Z.shiftr reg shift) mask.

Definition bitset_read (base : nat) (f : nat -> bool) : Z :=
  foldl (fun v b => if (base + b <? NUM_INTID)%nat && f (base + b)%nat
                    then Z.lor v (Z.shiftl 1 (Z.of_nat b)) else v) 0 (seq 0 32).

Definition bits_set (g : GicV2) (cpu : nat) (off start val : Z)
    (f : nat -> bool -> Lines -> Lines) (on : bool) : GicV2 :=
  let base := base_index off start in
  foldl (fun g b => if nz (Z.land val (Z.shiftl 1 (Z.of_nat b))) && (base + b <? NUM_INTID)%nat
                    then upd_block g cpu (base + b) (f (base + b)%nat on) else g) g (seq 0 32).

(** ** Distributor *)

Definition dist_read32 (g : GicV2) (cpu : nat) (o : Z) : Z :=
  if o =? gicd.CTLR then b2z (dist_enabled g)
  else if o =? gicd.TYPER then
    Z.lor (Z.land (Z.of_nat NUM_INTID / 32 - 1) 0x1f) (Z.shiftl (Z.of_nat (num_cpus g) - 1) 5)
  else if o =? gicd.IIDR then 0x0200043b
  else if range o gicd.IGROUPR 32 then 0
  else if range o gicd.ISENABLER 32 || range o gicd.ICENABLER 32 then
    let start := if o <? gicd.ICENABLER then gicd.ISENABLER else gicd.ICENABLER in
    bitset_read (base_index o start) (enabled_at g cpu)
  else if range o gicd.ISPENDR 32 || range o gicd.ICPENDR 32 then
    let start := if o <? gicd.ICPENDR then gicd.ISPENDR else gicd.ICPENDR in
    bitset_read (base_index o start) (is_pending g cpu)
  else if range o gicd.ISACTIVER 32 || range o gicd.ICACTIVER 32 then
    let start := if o <? gicd.ICACTIVER then gicd.ISACTIVER else gicd.ICACTIVER in
    bitset_read (base_index o start) (active_at g cpu)
  else if range o gicd.IPRIORITYR 64 then
    let base := Z.to_nat (Z.ldiff (o - gicd.IPRIORITYR) 3) in
    foldl (fun v b => if (base + b <? NUM_INTID)%nat
      then Z.lor v (Z.shiftl (priority_at g cpu (base + b)) (Z.of_nat b * 8)) else v) 0 (seq 0 4)
  else if range o gicd.ITARGETSR 64 then
    let base := Z.to_nat (Z.ldiff (o - gicd.ITARGETSR) 3) in
    foldl (fun v b =>
      let i := (base + b)%nat in
      if (i <? PRIVATE)%nat
      then Z.lor v (Z.shiftl (Z.land (Z.shiftl 1 (Z.of_nat cpu)) 0xff) (Z.of_nat b * 8))
      else if (i <? NUM_INTID)%nat
      then Z.lor v (Z.shiftl (byte_at (targets g) i) (Z.of_nat b * 8)) else v) 0 (seq 0 4)
  else if range o gicd.ICFGR 16 then
    let base := base_index_cfg o in
    foldl (fun v b => if (base + b <? NUM_INTID)%nat && edge_at g cpu (base + b)
      then Z.lor v (Z.shiftl 2 (Z.of_nat b * 2)) else v) 0 (seq 0 16)
  else 0.

Definition dist_read (g : GicV2) (cpu : nat) (off size : Z) : Z :=
  extract (dist_read32 g cpu (Z.ldiff off 3)) off size.

(** GICD_SGIR. *)
Definition sgir_hit (filter list : Z) (cpu t : nat) : bool :=
  if filter =? 0 then nz (Z.land list (Z.shiftl 1 (Z.of_nat t)))
  else if filter =? 1 then negb (t =? cpu)%nat
  else (t =? cpu)%nat.

Definition post_sgi (sgi cpu : nat) (b : CpuBank) : CpuBank :=
  mkBank (cpu_enabled b) (pmr b) (running b) (put_pending sgi true (lines b))
    (<[sgi := u8 (Z.of_nat cpu)]> (sgi_src b)).

Definition sgir (g : GicV2) (cpu : nat) (v : Z) : GicV2 :=
  let sgi := Z.to_nat (Z.land v 0xf) in
  let filter := Z.land (Z.shiftr v 24) 3 in
  let list := Z.land (Z.shiftr v 16) 0xff in
  foldl (fun g t => if sgir_hit filter list cpu t then upd_bank g t (post_sgi sgi cpu) else g)
    g (seq 0 (num_cpus g)).

(** The mask of CPUs present: [((1u16 << n) - 1) as u8]. *)
Definition cpu_mask (g : GicV2) : Z := u8 (u16 (Z.shiftl 1 (Z.of_nat (num_cpus g))) - 1).

Definition dist_write (g : GicV2) (cpu : nat) (off size val : Z) : GicV2 :=
  let o := Z.ldiff off 3 in
  if range off gicd.IPRIORITYR 64 then
    let idx := Z.to_nat (off - gicd.IPRIORITYR) in
    foldl (fun g k => upd_block g cpu (idx + k)
      (put_priority (idx + k) (u8 (Z.shiftr val (Z.of_nat k * 8))))) g (seq 0 (Z.to_nat size))
  else if range off gicd.ITARGETSR 64 then
    let idx := Z.to_nat (off - gicd.ITARGETSR) in
    foldl (fun g k =>
      let i := (idx + k)%nat in
      if (PRIVATE <=? i)%nat && (i <? NUM_INTID)%nat
      then set_targets g (<[i := Z.land (u8 (Z.shiftr val (Z.of_nat k * 8))) (cpu_mask g)]> (targets g))
      else g) g (seq 0 (Z.to_nat size))
  else
    let v := u32 val in
    if o =? gicd.CTLR then set_dist_enabled g (nz (Z.land v 1))
    else if range o gicd.ISENABLER 32 then bits_set g cpu o gicd.ISENABLER v put_enabled true
    else if range o gicd.ICENABLER 32 then bits_set g cpu o gicd.ICENABLER v put_enabled false
    else if range o gicd.ISPENDR 32 then bits_set g cpu o gicd.ISPENDR v put_pending true
    else if range o gicd.ICPENDR 32 then bits_set g cpu o gicd.ICPENDR v put_pending false
    else if range o gicd.ISACTIVER 32 then bits_set g cpu o gicd.ISACTIVER v put_active true
    else if range o gicd.ICACTIVER 32 then bits_set g cpu o gicd.ICACTIVER v put_active false
    else if range o gicd.ICFGR 16 then
      let base := base_index_cfg o in
      foldl (fun g b =>
        let i := (base + b)%nat in
        let edge := nz (Z.land (Z.shiftr v (Z.of_nat b * 2 + 1)) 1) in
        if (16 <=? i)%nat then upd_block g cpu i (put_edge i edge) else g) g (seq 0 16)
    else if o =? gicd.SGIR then sgir g cpu v
    else g.

(** ** CPU interface *)

Definition push_running (p : Z) (b : CpuBank) : CpuBank :=
  mkBank (cpu_enabled b) (pmr b) (running b ++ [p]) (lines b) (sgi_src b).
Definition pop_running (b : CpuBank) : CpuBank :=
  mkBank (cpu_enabled b) (pmr b) (removelast (running b)) (lines b) (sgi_src b).

(** Mark active and consume an edge latch. *)
Definition ack_line (i : nat) (l : Lines) : Lines :=
  let l' := put_active i true l in
  if bit_at (l_edge l) i then put_pending i false l' else l'.

Definition acknowledge (g : GicV2) (cpu : nat) : GicV2 * Z :=
  match highest_pending g cpu with
  | None => (g, SPURIOUS)
  | Some (i, prio) =>
      let g' := upd_bank (upd_block g cpu i (ack_line i)) cpu (push_running prio) in
      (g', if (i <? 16)%nat
           then Z.lor (Z.of_nat i) (Z.shiftl (byte_at (sgi_src (bank g' cpu)) i) 10)
           else Z.of_nat i)
  end.

Definition end_of_interrupt (g : GicV2) (cpu : nat) (intid : Z) : GicV2 :=
  let i := Z.to_nat intid in
  upd_bank (upd_block g cpu i (put_active i false)) cpu pop_running.

Definition cpu_read (g : GicV2) (cpu : nat) (off size : Z) : GicV2 * Z :=
  let o := Z.ldiff off 3 in
  let '(g', v) :=
    if o =? gicc.CTLR then (g, b2z (cpu_enabled (bank g cpu)))
    else if o =? gicc.PMR then (g, pmr (bank g cpu))
    else if o =? gicc.BPR then (g, 0)
    else if o =? gicc.IAR then acknowledge g cpu
    else if o =? gicc.RPR then (g, running_prio g cpu)
    else if o =? gicc.HPPIR then
      (g, match highest_pending g cpu with Some (i, _) => Z.of_nat i | None => SPURIOUS end)
    else if o =? gicc.IIDR then (g, 0x0002043b)
    else (g, 0) in
  (g', extract v off size).

Definition set_cpu_enabled (v : bool) (b : CpuBank) : CpuBank :=
  mkBank v (pmr b) (running b) (lines b) (sgi_src b).
Definition set_pmr (v : Z) (b : CpuBank) : CpuBank :=
  mkBank (cpu_enabled b) v (running b) (lines b) (sgi_src b).

Definition cpu_write (g : GicV2) (cpu : nat) (off size val : Z) : GicV2 :=
  let v := u32 val in
  let o := Z.ldiff off 3 in
  if o =? gicc.CTLR then upd_bank g cpu (set_cpu_enabled (nz (Z.land v 1)))
  else if o =? gicc.PMR then upd_bank g cpu (set_pmr (u8 v))
  else if o =? gicc.EOIR then end_of_interrupt g cpu (Z.land v 0x3ff)
  else g.

(** ** Invariant *)

Record lines_wf (n : nat) (l : Lines) : Prop := {
  lw_enabled : length (l_enabled l) = n;
  lw_pending : length (l_pending l) = n;
  lw_active : length (l_active l) = n;
  lw_level : length (l_level l) = n;
  lw_edge : length (l_edge l) = n;
  lw_priority : length (l_priority l) = n;
  lw_bytes : bytes_wf (l_priority l)
}.

Record bank_wf (b : CpuBank) : Prop := {
  bw_lines : lines_wf PRIVATE (lines b);
  bw_pmr : is_byte (pmr b);
  bw_src_len : length (sgi_src b) = 16%nat;
  bw_src : bytes_wf (sgi_src b);
  bw_running : bytes_wf (running b)
}.

(** The running stack: strictly decreasing from below the idle priority. *)
Definition stack_ok (b : CpuBank) : Prop :=
  StronglySorted (fun x y => y < x) (running b) /\ Forall (fun x => 0 <= x < IDLE_PRIO) (running b).

Record gic_wf (g : GicV2) : Prop := {
  gw_cpus : (1 <= num_cpus g <= MAX_CPUS)%nat;
  gw_banks : Forall bank_wf (cpus g);
  gw_shared : lines_wf NUM_INTID (shared g);
  gw_tlen : length (targets g) = NUM_INTID;
  gw_targets : bytes_wf (targets g)
}.

Definition gic_inv (g : GicV2) : Prop := gic_wf g /\ Forall stack_ok (cpus g).

Lemma foldl_inv {A B} (P : A -> Prop) (f : A -> B -> A) (l : list B) a :
  (forall a b, P a -> P (f a b)) -> P a -> P (foldl f a l).
Proof. intros Hf. revert a. induction l; simpl; auto. Qed.

Lemma upd_bank_inv g cpu f :
  gic_inv g -> (forall b, cpus g !! cpu = Some b -> bank_wf b -> stack_ok b -> bank_wf (f b) /\ stack_ok (f b)) ->
  gic_inv (upd_bank g cpu f).
Proof.
  intros [[Hn Hb Hs Ht1 Ht2] Hst] Hf.
  assert (Hboth : Forall (fun b => bank_wf b /\ stack_ok b) (alter f cpu (cpus g))).
  { apply Forall_alter; [by apply Forall_and|]. intros b Hbk [H1 H2]. by apply Hf. }
  apply Forall_and in Hboth as [H1 H2]. split; [|done]. split; try done.
  unfold num_cpus; simpl. by rewrite length_alter.
Qed.

Lemma upd_block_inv g cpu i f :
  gic_inv g -> (forall n l, lines_wf n l -> lines_wf n (f l)) -> gic_inv (upd_block g cpu i f).
Proof.
  intros Hg Hf. unfold upd_block. destruct (i <? PRIVATE)%nat.
  - apply upd_bank_inv; [done|]. intros b _ [] Hs. split; [split; simpl; auto|exact Hs].
  - destruct (i <? NUM_INTID)%nat; [|done]. destruct Hg as [[] ?]. split; [|done]. split; simpl; auto.
Qed.

Lemma put_bool_wf n l i v :
  lines_wf n l -> lines_wf n (put_enabled i v l) /\ lines_wf n (put_pending i v l) /\
  lines_wf n (put_active i v l) /\ lines_wf n (put_level i v l) /\ lines_wf n (put_edge i v l).
Proof.
  intros []. split; [|split; [|split; [|split]]]; split; simpl; rewrite ?length_insert; done.
Qed.

Lemma put_priority_wf n l i v : is_byte v -> lines_wf n l -> lines_wf n (put_priority i v l).
Proof.
  intros Hv []. split; simpl; rewrite ?length_insert; try done. by apply Forall_insert.
Qed.

Lemma ack_line_wf n l i : lines_wf n l -> lines_wf n (ack_line i l).
Proof.
  intros Hl. unfold ack_line. destruct (bit_at (l_edge l) i).
  - apply (put_bool_wf n _ i false), (put_bool_wf n l i true), Hl.
  - apply (put_bool_wf n l i true), Hl.
Qed.

Lemma bits_set_inv g cpu off start val f on :
  gic_inv g -> (forall i v n l, lines_wf n l -> lines_wf n (f i v l)) ->
  gic_inv (bits_set g cpu off start val f on).
Proof.
  intros Hg Hf. unfold bits_set. apply (foldl_inv gic_inv); [|done].
  intros h b Hh. destruct (_ && _); [|done]. apply upd_block_inv; auto.
Qed.

Lemma default_bank_ok : bank_wf CpuBank_default /\ stack_ok CpuBank_default.
Proof.
  assert (H0 : is_byte 0) by (by unfold is_byte).
  split; [|split; constructor]. split; try done.
  - split; try done. by apply (Forall_replicate is_byte).
  - by apply (Forall_replicate is_byte).
Qed.

Lemma with_cpus_inv n : gic_inv (with_cpus n).
Proof.
  assert (H0 : is_byte 0 /\ is_byte 1) by (by unfold is_byte).
  split; [split|].
  - unfold num_cpus, with_cpus. cbn [cpus]. rewrite length_replicate. unfold clamp_cpus, MAX_CPUS. lia.
  - exact (Forall_replicate _ _ _ (proj1 default_bank_ok)).
  - split; [reflexivity..|]. exact (Forall_replicate is_byte NUM_INTID 0 (proj1 H0)).
  - reflexivity.
  - exact (Forall_replicate is_byte NUM_INTID 1 (proj2 H0)).
  - exact (Forall_replicate _ _ _ (proj2 default_bank_ok)).
Qed.

Lemma set_level_inv g cpu intid high : gic_inv g -> gic_inv (set_level g cpu intid high).
Proof.
  intros Hg. apply upd_block_inv; [done|]. intros n l Hl.
  apply put_bool_wf. apply (put_bool_wf n l), Hl.
Qed.

Lemma sgir_inv g cpu v : gic_inv g -> gic_inv (sgir g cpu v).
Proof.
  intros Hg. unfold sgir. apply (foldl_inv gic_inv); [|done].
  intros h t Hh. destruct (sgir_hit _ _ _ _); [|done]. apply upd_bank_inv; [done|].
  intros b _ [] Hs. split; [|exact Hs]. split; simpl; try done.
  - by apply put_bool_wf.
  - by rewrite length_insert.
  - apply Forall_insert; [done|apply u8_range].
Qed.

Lemma dist_write_inv g cpu off size val : gic_inv g -> gic_inv (dist_write g cpu off size val).
Proof.
  intros Hg. unfold dist_write.
  assert (Hbits : forall o s v f on, (forall i v n l, lines_wf n l -> lines_wf n (f i v l)) ->
    gic_inv (bits_set g cpu o s v f on)) by (intros; by apply bits_set_inv).
  assert (He : forall i v n l, lines_wf n l -> lines_wf n (put_enabled i v l)) by (intros; by apply put_bool_wf).
  assert (Hp : forall i v n l, lines_wf n l -> lines_wf n (put_pending i v l)) by (intros; by apply put_bool_wf).
  assert (Ha : forall i v n l, lines_wf n l -> lines_wf n (put_active i v l)) by (intros; by apply put_bool_wf).
  destruct (range off gicd.IPRIORITYR 64).
  { apply (foldl_inv gic_inv); [|done]. intros h k Hh. apply upd_block_inv; [done|].
    intros. apply put_priority_wf; [apply u8_range|done]. }
  destruct (range off gicd.ITARGETSR 64).
  { apply (foldl_inv gic_inv); [|done]. intros h k Hh. cbv zeta. destruct (_ && _); [|done].
    destruct Hh as [[] ?]. split; [|done]. split; simpl; rewrite ?length_insert; try done.
    apply Forall_insert; [done|].
    exact (land_range 8 _ _ (u8_range _) (proj1 (u8_range _))). }
  destruct (_ =? gicd.CTLR); [destruct Hg as [[] ?]; by split|].
  do 6 (destruct (range _ _ 32); [by apply Hbits|]).
  destruct (range _ gicd.ICFGR 16).
  { apply (foldl_inv gic_inv); [|done]. intros h k Hh. cbv zeta. destruct (16 <=? _)%nat; [|done].
    apply upd_block_inv; [done|]. intros. by apply put_bool_wf. }
  destruct (_ =? gicd.SGIR); [by apply sgir_inv|done].
Qed.

(** ** Selecting the interrupt to deliver *)

(** [i] may be delivered to [cpu] now. *)
Definition deliverable (g : GicV2) (cpu i : nat) : bool :=
  enabled_at g cpu i && negb (active_at g cpu i) && is_pending g cpu i &&
  (priority_at g cpu i <? pmr (bank g cpu)) && (priority_at g cpu i <? running_prio g cpu).

Lemma scan_step_deliverable g cpu best i :
  scan_step g cpu best i =
    if deliverable g cpu i
    then match best with
         | Some (_, bp) => if priority_at g cpu i <? bp then Some (i, priority_at g cpu i) else best
         | None => Some (i, priority_at g cpu i)
         end
    else best.
Proof.
  unfold scan_step, deliverable.
  destruct (enabled_at g cpu i), (active_at g cpu i), (is_pending g cpu i); simpl; try done.
  rewrite !Z.ltb_antisym. destruct (pmr (bank g cpu) <=? priority_at g cpu i); simpl; [done|].
  by destruct (running_prio g cpu <=? priority_at g cpu i).
Qed.

(** [r] is the best deliverable INTID below [n]: lowest priority value, then
    lowest number. *)
Definition best_below (g : GicV2) (cpu n : nat) (r : option (nat * Z)) : Prop :=
  match r with
  | None => forall j, (j < n)%nat -> deliverable g cpu j = false
  | Some (i, p) => (i < n)%nat /\ deliverable g cpu i = true /\ p = priority_at g cpu i /\
      forall j, (j < n)%nat -> deliverable g cpu j = true ->
        p < priority_at g cpu j \/ (p = priority_at g cpu j /\ (i <= j)%nat)
  end.

Lemma scan_best g cpu n : best_below g cpu n (foldl (scan_step g cpu) None (seq 0 n)).
Proof.
  induction n as [|n IH]; [simpl; lia|].
  rewrite seq_S, foldl_app. simpl. set (r := foldl _ None _) in *. rewrite scan_step_deliverable.
  destruct (deliverable g cpu n) eqn:Hd; destruct r as [[i p]|]; simpl in IH |- *.
  - destruct IH as (Hi & Hdi & -> & Hmin).
    destruct (Z.ltb_spec (priority_at g cpu n) (priority_at g cpu i)); simpl.
    + split; [lia|]. split; [done|]. split; [done|]. intros j Hj Hdj.
      destruct (decide (j = n)) as [->|]; [right; lia|]. left. destruct (Hmin j); [lia|done|lia|lia].
    + split; [lia|]. split; [done|]. split; [done|]. intros j Hj Hdj.
      destruct (decide (j = n)) as [->|]; [|apply Hmin; [lia|done]].
      destruct (decide (priority_at g cpu i = priority_at g cpu n)); [right|left]; lia.
  - split; [lia|]. split; [done|]. split; [done|]. intros j Hj Hdj.
    destruct (decide (j = n)) as [->|]; [right; lia|]. rewrite IH in Hdj by lia. done.
  - destruct IH as (Hi & Hdi & -> & Hmin). split; [lia|]. split; [done|]. split; [done|].
    intros j Hj Hdj. destruct (decide (j = n)) as [->|]; [congruence|]. apply Hmin; [lia|done].
  - intros j Hj. destruct (decide (j = n)) as [->|]; [done|]. apply IH. lia.
Qed.

Lemma highest_pending_some g cpu i p :
  highest_pending g cpu = Some (i, p) ->
  dist_enabled g = true /\ (i < NUM_INTID)%nat /\ deliverable g cpu i = true /\ p = priority_at g cpu i.
Proof.
  unfold highest_pending. destruct (dist_enabled g); [|done]. simpl negb. cbv iota.
  pose proof (scan_best g cpu NUM_INTID) as Hb. intros Hs. rewrite Hs in Hb. simpl in Hb. tauto.
Qed.

Lemma deliverable_prio g cpu i :
  deliverable g cpu i = true -> priority_at g cpu i < running_prio g cpu.
Proof. unfold deliverable. rewrite !andb_true_iff. intros [_ Hlt]. by apply Z.ltb_lt in Hlt. Qed.

Lemma priority_at_byte g cpu i : gic_wf g -> is_byte (priority_at g cpu i).
Proof.
  intros Hg. unfold priority_at, byte_at, block.
  assert (Hl : bytes_wf (l_priority (if (i <? PRIVATE)%nat then lines (bank g cpu) else shared g))).
  { destruct (i <? PRIVATE)%nat; [|apply Hg]. unfold bank.
    destruct (cpus g !! cpu) eqn:E; simpl; [|apply default_bank_ok].
    by apply (Forall_lookup_1 _ _ _ _ (gw_banks g Hg) E). }
  destruct (_ !! i) eqn:E; simpl; [|by unfold is_byte]. exact (Forall_lookup_1 _ _ _ _ Hl E).
Qed.

(** ** The running stack *)

Lemma last_cons_default (x d : Z) l : default d (last (x :: l)) = default x (last l).
Proof. rewrite last_cons. by destruct (last l). Qed.

Lemma sorted_snoc l p :
  StronglySorted (fun x y => y < x) l -> Forall (fun x => 0 <= x < IDLE_PRIO) l -> 0 <= p ->
  p < default IDLE_PRIO (last l) ->
  StronglySorted (fun x y => y < x) (l ++ [p]) /\ Forall (fun x => 0 <= x < IDLE_PRIO) (l ++ [p]).
Proof.
  intros Hs. induction Hs as [|x l Hs IH Hx]; intros Hf Hp Hlt.
  { simpl in *. split; [by repeat constructor|]. constructor; [|constructor]. done. }
  inversion Hf as [|? ? Hx0 Hf']; subst. rewrite last_cons_default in Hlt.
  assert (Hpx : p < x /\ p < default IDLE_PRIO (last l)).
  { destruct (last l) as [y|] eqn:E; simpl in *; [|unfold IDLE_PRIO in *; lia].
    apply last_Some in E as [l' ->]. apply Forall_app in Hx as [_ Hx]. inversion Hx; subst. lia. }
  destruct (IH Hf' Hp (proj2 Hpx)) as [H1 H2]. split; simpl; constructor; try done.
  apply Forall_app_2; [done|]. constructor; [lia|constructor].
Qed.

Lemma sorted_removelast l :
  StronglySorted (fun x y => y < x) l -> Forall (fun x => 0 <= x < IDLE_PRIO) l ->
  StronglySorted (fun x y => y < x) (removelast l) /\ Forall (fun x => 0 <= x < IDLE_PRIO) (removelast l).
Proof.
  intros Hs. induction Hs as [|x l Hs IH Hx]; intros Hf; [split; constructor|]. inversion Hf as [|? ? Hx0 Hf']; subst.
  destruct l as [|y l]; [split; constructor|]. destruct (IH Hf') as [H1 H2].
  change (removelast (x :: y :: l)) with (x :: removelast (y :: l)).
  split; constructor; try done. apply Forall_forall. intros z Hz. apply (proj1 (Forall_forall _ _) Hx).
  rewrite (app_removelast_last 0 (l := y :: l)) by done. apply list_elem_of_In, in_app_iff. left. by apply list_elem_of_In.
Qed.

Lemma sorted_length l m :
  StronglySorted (fun x y => y < x) l -> Forall (fun x => 0 <= x < m) l -> zlen l <= Z.max 0 m.
Proof.
  intros Hs. revert m. induction Hs as [|x l Hs IH Hx]; intros m Hf; [unfold zlen; simpl; lia|].
  inversion Hf as [|? ? Hx0 Hf']; subst. rewrite zlen_cons.
  assert (Hl : zlen l <= Z.max 0 x); [|lia]. apply IH. clear -Hf' Hx.
  induction Hx as [|y l Hy _ IHx]; [constructor|]. inversion Hf'; subst. constructor; [lia|auto].
Qed.

Lemma acknowledge_inv g cpu : gic_inv g -> gic_inv (fst (acknowledge g cpu)).
Proof.
  intros Hg. unfold acknowledge. destruct (highest_pending g cpu) as [[i p]|] eqn:Hh; [|done]. simpl.
  apply highest_pending_some in Hh as (_ & _ & Hd & ->). apply deliverable_prio in Hd.
  assert (Hb : is_byte (priority_at g cpu i)) by (apply priority_at_byte, Hg).
  set (g1 := upd_block g cpu i (ack_line i)).
  assert (Hg1 : gic_inv g1) by (apply upd_block_inv; [done|]; intros; by apply ack_line_wf).
  assert (Hrun : running (bank g1 cpu) = running (bank g cpu)).
  { unfold g1, upd_block, upd_bank, bank. destruct (i <? PRIVATE)%nat; simpl.
    - rewrite list_lookup_alter_eq. by destruct (cpus g !! cpu).
    - by destruct (i <? NUM_INTID)%nat. }
  apply upd_bank_inv; [done|]. intros b Hbk [] [Hs Hf].
  assert (Hrb : running b = running (bank g cpu)) by (rewrite <- Hrun; unfold bank; by rewrite Hbk).
  unfold running_prio in Hd. rewrite <- Hrb in Hd. unfold is_byte in Hb.
  destruct (sorted_snoc (running b) (priority_at g cpu i) Hs Hf) as [S1 S2]; [lia|done|].
  split; [|done]. split; try done. simpl. apply Forall_app_2; [done|]. by constructor.
Qed.

Lemma end_of_interrupt_inv g cpu intid : gic_inv g -> gic_inv (end_of_interrupt g cpu intid).
Proof.
  intros Hg. unfold end_of_interrupt. apply upd_bank_inv.
  - apply upd_block_inv; [done|]. intros. by apply put_bool_wf.
  - intros b _ [] [Hs Hf]. destruct (sorted_removelast (running b) Hs Hf) as [S1 S2].
    split; [|done]. split; try done. simpl. eapply Forall_impl; [exact S2|].
    unfold is_byte, IDLE_PRIO. simpl. lia.
Qed.

Lemma cpu_read_inv g cpu off size : gic_inv g -> gic_inv (fst (cpu_read g cpu off size)).
Proof.
  intros Hg. unfold cpu_read. repeat (destruct (_ =? _); [try done|]); try done.
  pose proof (acknowledge_inv g cpu Hg). by destruct (acknowledge g cpu).
Qed.

Lemma cpu_write_inv g cpu off size val : gic_inv g -> gic_inv (cpu_write g cpu off size val).
Proof.
  intros Hg. unfold cpu_write.
  destruct (_ =? gicc.CTLR); [apply upd_bank_inv; [done|]; intros b _ [] ?; by split|].
  destruct (_ =? gicc.PMR).
  { apply upd_bank_inv; [done|]. intros b _ [] ?. split; [|done]. split; try done. apply u8_range. }
  destruct (_ =? gicc.EOIR); [by apply end_of_interrupt_inv|done].
Qed.

(** ** Snapshot lemmas *)

Lemma next_n_app l rest : next_n (length l) (l ++ rest) = (l, rest).
Proof. induction l as [|x l IH]; simpl; [done|]. by rewrite IH. Qed.

Lemma next_n_app' n l rest : length l = n -> next_n n (l ++ rest) = (l, rest).
Proof. intros <-. apply next_n_app. Qed.

Lemma next_bits_app n l rest : length l = n -> next_bits n (map b2z l ++ rest) = (l, rest).
Proof.
  intros Hl. unfold next_bits. rewrite next_n_app' by (by rewrite length_map). f_equal.
  rewrite map_map. etransitivity; [|apply map_id]. apply map_ext. by intros [].
Qed.

Lemma restore_bits_app n l rest :
  lines_wf n l -> restore_bits n (capture_bits l ++ l_priority l ++ rest) = (l, rest).
Proof.
  intros []. unfold restore_bits, capture_bits. rewrite <- !app_assoc.
  rewrite !next_bits_app by done. rewrite next_n_app' by done. by destruct l.
Qed.

Lemma restore_bank_app b rest :
  bank_wf b -> (length (running b) <= 255)%nat -> restore_bank (capture_bank b ++ rest) = (b, rest).
Proof.
  intros [] Hrun. unfold restore_bank, capture_bank. rewrite <- !app_assoc. cbn [app next].
  rewrite restore_bits_app by done. rewrite next_n_app' by done. cbn [next app].
  rewrite Nat.min_l, Nat2Z.id by lia. rewrite take_ge, next_n_app by lia.
  destruct b as [[] ? ? ? ?]; done.
Qed.

Lemma restore_banks_app bs rest :
  Forall bank_wf bs -> Forall (fun b => (length (running b) <= 255)%nat) bs ->
  restore_banks (length bs) (concat (map capture_bank bs) ++ rest) = (bs, rest).
Proof.
  intros Hb Hr. induction Hb as [|b bs Hb Hbs IH]; [done|]. inversion Hr; subst.
  cbn [length restore_banks map concat]. rewrite <- app_assoc, restore_bank_app by done.
  by rewrite IH.
Qed.

Lemma stack_length b : stack_ok b -> (length (running b) <= 255)%nat.
Proof.
  intros [Hs Hf]. pose proof (sorted_length _ _ Hs Hf) as Hl. unfold zlen, IDLE_PRIO in Hl. lia.
Qed.

Lemma restore_capture g g0 :
  gic_wf g -> Forall (fun b => (length (running b) <= 255)%nat) (cpus g) ->
  gic_restore g0 (gic_capture g) =
    set_cpus g (cpus g ++ replicate (num_cpus g0 - num_cpus g) CpuBank_default).
Proof.
  intros [Hn Hb Hs Ht1 Ht2] Hr. unfold gic_restore, gic_capture. cbn [app].
  change (BLOB_MAGIC =? BLOB_MAGIC) with true. cbv iota. unfold restore_v2. cbn [drop next].
  assert (Hnc : clamp_cpus (Z.to_nat (u8 (Z.of_nat (num_cpus g)))) = num_cpus g).
  { unfold clamp_cpus, MAX_CPUS in *. rewrite u8_id by lia. lia. }
  rewrite Hnc. unfold num_cpus at 1. rewrite restore_banks_app by done.
  rewrite restore_bits_app by done. rewrite <- (app_nil_r (targets g)), next_n_app' by done.
  unfold set_cpus. by destruct (dist_enabled g).
Qed.

(** ** Register lemmas *)

Lemma foldl_lor_testbit (c : nat -> bool) n k :
  Z.testbit (foldl (fun v b => if c b then Z.lor v (Z.shiftl 1 (Z.of_nat b)) else v) 0 (seq 0 n)) (Z.of_nat k)
  = (k <? n)%nat && c k.
Proof.
  induction n as [|n IH]; [simpl; apply Z.bits_0|]. rewrite seq_S, foldl_app. simpl foldl.
  set (v := foldl _ 0 (seq 0 n)) in *.
  assert (Hone : Z.testbit (Z.shiftl 1 (Z.of_nat n)) (Z.of_nat k) = (k =? n)%nat).
  { rewrite Z.shiftl_mul_pow2, Z.mul_1_l by lia. rewrite Z.pow2_bits_eqb by lia.
    destruct (Nat.eqb_spec k n), (Z.eqb_spec (Z.of_nat n) (Z.of_nat k)); lia || done. }
  destruct (c n) eqn:Hc.
  - rewrite Z.lor_spec, IH, Hone.
    destruct (Nat.ltb_spec k n), (Nat.ltb_spec k (S n)), (Nat.eqb_spec k n); subst; simpl; try lia;
      rewrite ?Hc, ?orb_false_r; done.
  - rewrite IH. destruct (Nat.ltb_spec k n), (Nat.ltb_spec k (S n)); simpl; try done; try lia.
    assert (k = n) as -> by lia. by rewrite Hc.
Qed.

Lemma nz_bit v b : 0 <= v -> nz (Z.land v (Z.shiftl 1 (Z.of_nat b))) = Z.testbit v (Z.of_nat b).
Proof.
  intros Hv. unfold nz. rewrite Z.shiftl_mul_pow2, Z.mul_1_l by lia.
  destruct (Z.testbit v (Z.of_nat b)) eqn:Hb.
  - destruct (Z.eqb_spec (Z.land v (2 ^ Z.of_nat b)) 0) as [E|]; [|done].
    assert (Ht : Z.testbit (Z.land v (2 ^ Z.of_nat b)) (Z.of_nat b) = false) by (by rewrite E, Z.bits_0).
    rewrite Z.land_spec, Hb, Z.pow2_bits_true in Ht by lia. done.
  - destruct (Z.eqb_spec (Z.land v (2 ^ Z.of_nat b)) 0) as [|Hne]; [done|]. exfalso. apply Hne.
    apply Z.bits_inj_iff'. intros n Hn. rewrite Z.land_spec, Z.bits_0.
    rewrite Z.pow2_bits_eqb by lia. destruct (Z.eqb_spec (Z.of_nat b) n) as [<-|]; [by rewrite Hb|apply andb_false_r].
Qed.

Lemma block_lengths g cpu i :
  gic_wf g -> (cpu < num_cpus g)%nat -> lines_wf (if (i <? PRIVATE)%nat then PRIVATE else NUM_INTID) (block g cpu i).
Proof.
  intros Hg Hc. unfold block. destruct (i <? PRIVATE)%nat; [|apply Hg]. unfold bank.
  destruct (cpus g !! cpu) eqn:E; [|apply lookup_ge_None in E; unfold num_cpus in Hc; lia].
  by apply (Forall_lookup_1 _ _ _ _ (gw_banks g Hg) E).
Qed.

Lemma upd_block_block g cpu i j f :
  (cpu < num_cpus g)%nat -> (i < NUM_INTID)%nat ->
  block (upd_block g cpu i f) cpu j =
    if Bool.eqb (i <? PRIVATE)%nat (j <? PRIVATE)%nat then f (block g cpu j) else block g cpu j.
Proof.
  intros Hc Hi. unfold upd_block, block, bank. destruct (Nat.ltb_spec i NUM_INTID); [|lia].
  destruct (i <? PRIVATE)%nat, (j <? PRIVATE)%nat; simpl; try done.
  rewrite list_lookup_alter_eq.
  destruct (cpus g !! cpu) eqn:E; [done|apply lookup_ge_None in E; unfold num_cpus in Hc; lia].
Qed.

Lemma bit_at_insert l i j v :
  (i < length l)%nat -> bit_at (<[i:=v]> l) j = if (i =? j)%nat then v else bit_at l j.
Proof.
  intros Hi. unfold bit_at. destruct (Nat.eqb_spec i j) as [<-|].
  - by rewrite list_lookup_insert_eq.
  - by rewrite list_lookup_insert_ne.
Qed.

(** Enabling or disabling one INTID changes that INTID only. *)
Lemma enabled_at_put g cpu i j v :
  gic_wf g -> (cpu < num_cpus g)%nat -> (i < NUM_INTID)%nat -> (j < NUM_INTID)%nat ->
  enabled_at (upd_block g cpu i (put_enabled i v)) cpu j =
    if (i =? j)%nat then v else enabled_at g cpu j.
Proof.
  intros Hg Hc Hi Hj. unfold enabled_at. rewrite upd_block_block by done.
  pose proof (lw_enabled _ _ (block_lengths g cpu j Hg Hc)) as Hl.
  destruct (Nat.eqb_spec i j) as [->|Hne].
  - rewrite eqb_reflx. cbn [l_enabled put_enabled]. rewrite bit_at_insert, Nat.eqb_refl; [done|].
    rewrite Hl. destruct (Nat.ltb_spec j PRIVATE); lia.
  - destruct (Bool.eqb _ _) eqn:E; [|done]. apply eqb_prop in E. cbn [l_enabled put_enabled].
    rewrite bit_at_insert; [by destruct (Nat.eqb_spec i j)|]. rewrite Hl, <- E.
    destruct (Nat.ltb_spec i PRIVATE); lia.
Qed.

Lemma upd_block_num g cpu i f : num_cpus (upd_block g cpu i f) = num_cpus g.
Proof.
  unfold upd_block, upd_bank, num_cpus. destruct (i <? PRIVATE)%nat; simpl; [apply length_alter|].
  by destruct (i <? NUM_INTID)%nat.
Qed.

(** A set/clear-enable register write as a function of the 32 bits it covers. *)
Lemma enable_bits_effect g cpu base v on n j :
  gic_inv g -> (cpu < num_cpus g)%nat -> 0 <= v -> (j < NUM_INTID)%nat ->
  let g' := foldl (fun g b => if nz (Z.land v (Z.shiftl 1 (Z.of_nat b))) && (base + b <? NUM_INTID)%nat
      then upd_block g cpu (base + b) (put_enabled (base + b)%nat on) else g) g (seq 0 n) in
  gic_inv g' /\ num_cpus g' = num_cpus g /\
  enabled_at g' cpu j =
    if (base <=? j)%nat && (j <? base + n)%nat && Z.testbit v (Z.of_nat (j - base)) then on
    else enabled_at g cpu j.
Proof.
  intros Hg Hc Hv Hj. induction n as [|n IH].
  { simpl. split; [done|]. split; [done|].
    destruct (Nat.leb_spec base j), (Nat.ltb_spec j (base + 0)); simpl; lia || done. }
  rewrite seq_S, foldl_app. cbv zeta in IH |- *. set (g1 := foldl _ g (seq 0 n)) in *.
  destruct IH as (IH1 & IH2 & IH3). cbn [foldl]. rewrite nz_bit by done. rewrite Nat.add_0_l.
  destruct (Z.testbit v (Z.of_nat n)) eqn:Hbit; simpl.
  - destruct (Nat.ltb_spec (base + n) NUM_INTID).
    + split; [apply upd_block_inv; [done|]; intros; by apply put_bool_wf|].
      split; [by rewrite upd_block_num|].
      rewrite enabled_at_put; [|apply IH1|by rewrite IH2|done|done].
      destruct (Nat.eqb_spec (base + n) j) as [<-|Hne].
      * replace (base + n - base)%nat with n by lia. rewrite Hbit.
        destruct (Nat.leb_spec base (base + n)), (Nat.ltb_spec (base + n) (base + S n)); simpl; done || lia.
      * rewrite IH3. destruct (Nat.leb_spec base j), (Nat.ltb_spec j (base + n)), (Nat.ltb_spec j (base + S n));
          simpl; done || lia.
    + split; [done|]. split; [done|]. rewrite IH3.
      destruct (Nat.leb_spec base j), (Nat.ltb_spec j (base + n)), (Nat.ltb_spec j (base + S n)); simpl; done || lia.
  - split; [done|]. split; [done|]. rewrite IH3.
    destruct (decide (j = base + n)%nat) as [->|].
    + replace (base + n - base)%nat with n by lia. rewrite Hbit, !andb_false_r. done.
    + destruct (Nat.leb_spec base j), (Nat.ltb_spec j (base + n)), (Nat.ltb_spec j (base + S n)); simpl; done || lia.
Qed.

(** ** Acknowledge and end of interrupt *)

Lemma upd_block_running g cpu i f : running (bank (upd_block g cpu i f) cpu) = running (bank g cpu).
Proof.
  unfold upd_block, upd_bank, bank. destruct (i <? PRIVATE)%nat; simpl.
  - rewrite list_lookup_alter_eq. by destruct (cpus g !! cpu).
  - by destruct (i <? NUM_INTID)%nat.
Qed.

Lemma upd_bank_bank g cpu f : (cpu < num_cpus g)%nat -> bank (upd_bank g cpu f) cpu = f (bank g cpu).
Proof.
  intros Hc. unfold upd_bank, bank. simpl. rewrite list_lookup_alter_eq.
  destruct (cpus g !! cpu) eqn:E; [done|apply lookup_ge_None in E; unfold num_cpus in Hc; lia].
Qed.

(** Changing the running stack leaves every line alone. *)
Lemma active_at_stack g cpu i f :
  (forall b, lines (f b) = lines b) -> (cpu < num_cpus g)%nat ->
  active_at (upd_bank g cpu f) cpu i = active_at g cpu i.
Proof.
  intros Hf Hc. unfold active_at, block. destruct (i <? PRIVATE)%nat; [|done].
  by rewrite upd_bank_bank, Hf by done.
Qed.

Lemma active_at_block g cpu i f v :
  gic_wf g -> (cpu < num_cpus g)%nat -> (i < NUM_INTID)%nat ->
  (forall l, l_active (f l) = <[i:=v]> (l_active l)) ->
  active_at (upd_block g cpu i f) cpu i = v.
Proof.
  intros Hg Hc Hi Hf. unfold active_at. rewrite upd_block_block, eqb_reflx, Hf by done.
  rewrite bit_at_insert, Nat.eqb_refl; [done|].
  rewrite (lw_active _ _ (block_lengths g cpu i Hg Hc)). destruct (Nat.ltb_spec i PRIVATE); lia.
Qed.

Lemma ack_line_active i l : l_active (ack_line i l) = <[i:=true]> (l_active l).
Proof. unfold ack_line. by destruct (bit_at (l_edge l) i). Qed.

(** The INTID field of an IAR value. *)
Lemma iar_intid i src : (i < NUM_INTID)%nat -> 0 <= src ->
  Z.land (Z.lor (Z.of_nat i) (Z.shiftl src 10)) 0x3ff = Z.of_nat i /\ Z.land (Z.of_nat i) 0x3ff = Z.of_nat i.
Proof.
  intros Hi Hs. unfold NUM_INTID in Hi. change 0x3ff with (Z.ones 10).
  assert (E : Z.land (Z.of_nat i) (Z.ones 10) = Z.of_nat i) by (rewrite Z.land_ones by lia; apply Z.mod_small; lia).
  split; [|done]. rewrite Z.land_lor_distr_l, E.
  rewrite (Z.land_ones (Z.shiftl src 10)) by lia. rewrite Z.shiftl_mul_pow2 by lia.
  rewrite Z.mod_mul by done. apply Z.lor_0_r.
Qed.

(** ** Properties *)

(** Everything that happens to the controller between snapshots: register
    accesses from a vcpu and devices driving their lines. *)
Inductive gic_step : GicV2 -> GicV2 -> Prop :=
| gs_dist_write g cpu off size val : gic_step g (dist_write g cpu off size val)
| gs_cpu_read g cpu off size : gic_step g (fst (cpu_read g cpu off size))
| gs_cpu_write g cpu off size val : gic_step g (cpu_write g cpu off size val)
| gs_level g cpu intid high : gic_step g (set_level g cpu intid high).

Lemma gic_steps_inv n g : rtc gic_step (with_cpus n) g -> gic_inv g.
Proof.
  revert g. apply (rtc_ind_r gic_inv); [apply with_cpus_inv|].
  intros g g' _ [] Hg; auto using dist_write_inv, cpu_read_inv, cpu_write_inv, set_level_inv.
Qed.

(** C15: interrupt selection: the controller offers a CPU the deliverable
    INTID (enabled, pending, not active, priority strictly above both the
    mask and the running priority) with the lowest priority value, the lowest
    number among equals, and offers none exactly when the distributor is off
    or nothing is deliverable. *)
Theorem gic_selects_best (g : GicV2) (cpu : nat) :
  match highest_pending g cpu with
  | Some (i, p) => dist_enabled g = true /\ (i < NUM_INTID)%nat /\
      deliverable g cpu i = true /\ p = priority_at g cpu i /\
      forall j, (j < NUM_INTID)%nat -> deliverable g cpu j = true ->
        p < priority_at g cpu j \/ (p = priority_at g cpu j /\ (i <= j)%nat)
  | None => dist_enabled g = false \/ forall j, (j < NUM_INTID)%nat -> deliverable g cpu j = false
  end.
Proof.
  unfold highest_pending. destruct (dist_enabled g); [|by left]. simpl negb. cbv iota.
  pose proof (scan_best g cpu NUM_INTID) as Hb.
  destruct (foldl _ None _) as [[i p]|]; [split; [done|exact Hb]|by right].
Qed.

(** in every state the guest can drive the controller into, each CPU's
    running-priority stack is strictly decreasing below the idle priority, so
    it never exceeds 255 entries. *)
Theorem gic_stack_bounded (n : nat) (g : GicV2) :
  rtc gic_step (with_cpus n) g ->
  Forall (fun b => StronglySorted (fun x y => y < x) (running b) /\ (length (running b) <= 255)%nat) (cpus g).
Proof.
  intros [_ Hs]%gic_steps_inv. eapply Forall_impl; [exact Hs|].
  intros b Hb. split; [apply Hb|by apply stack_length].
Qed.

Lemma gic_stack_bounded_witness :
  Forall (fun b => StronglySorted (fun x y => y < x) (running b) /\ (length (running b) <= 255)%nat)
    (cpus (cpu_write (with_cpus 2) 1 gicc.PMR 4 0xff)).
Proof. apply (gic_stack_bounded 2). apply rtc_once. constructor. Defined.

(** a snapshot is lossless: for every state reachable from reset,
    restoring its blob into a controller with at most as many CPUs gives back
    that state. *)
Theorem gic_snapshot_roundtrip (n : nat) (g g0 : GicV2) :
  rtc gic_step (with_cpus n) g -> (num_cpus g0 <= num_cpus g)%nat ->
  gic_restore g0 (gic_capture g) = g.
Proof.
  intros [Hg Hs]%gic_steps_inv Hn. rewrite restore_capture; [|done|].
  - replace (num_cpus g0 - num_cpus g)%nat with 0%nat by lia. simpl. rewrite app_nil_r. by destruct g.
  - eapply Forall_impl; [exact Hs|]. apply stack_length.
Qed.

Lemma gic_snapshot_roundtrip_witness :
  let g := dist_write (with_cpus 2) 0 gicd.ISENABLER 4 0x08000000 in
  gic_restore (with_cpus 1) (gic_capture g) = g.
Proof.
  apply (gic_snapshot_roundtrip 2); [apply rtc_once; constructor|].
  vm_compute. repeat constructor.
Defined.

(** acknowledge and end of interrupt nest: reading IAR reports the
    selected INTID (with the sender of an SGI above it), makes it active and
    raises the running priority to its own, so it is not offered again; writing
    the INTID back to EOIR clears the active state and restores the running
    stack of before. *)
Theorem gic_ack_eoi (g : GicV2) (cpu i : nat) (p : Z) :
  gic_inv g -> (cpu < num_cpus g)%nat -> highest_pending g cpu = Some (i, p) ->
  let '(g1, iar) := acknowledge g cpu in
  let g2 := end_of_interrupt g1 cpu (Z.land iar 0x3ff) in
  Z.land iar 0x3ff = Z.of_nat i /\ active_at g1 cpu i = true /\ running_prio g1 cpu = p /\
  deliverable g1 cpu i = false /\
  active_at g2 cpu i = false /\ running (bank g2 cpu) = running (bank g cpu).
Proof.
  intros Hg Hc Hh. unfold acknowledge. rewrite Hh.
  destruct (highest_pending_some g cpu i p Hh) as (_ & Hi & _ & _).
  set (ga := upd_block g cpu i (ack_line i)). set (g1 := upd_bank ga cpu (push_running p)).
  assert (Hga : gic_inv ga) by (apply upd_block_inv; [done|]; intros; by apply ack_line_wf).
  assert (Hca : (cpu < num_cpus ga)%nat) by (unfold ga; by rewrite upd_block_num).
  assert (Hg1i : gic_inv g1).
  { pose proof (acknowledge_inv g cpu Hg) as Hx. unfold acknowledge in Hx. by rewrite Hh in Hx. }
  assert (Hc1 : (cpu < num_cpus g1)%nat) by (unfold g1, upd_bank, num_cpus; simpl; by rewrite length_alter).
  assert (Hact : active_at g1 cpu i = true).
  { unfold g1. rewrite active_at_stack by done. unfold ga.
    apply active_at_block; [apply Hg|done|done|apply ack_line_active]. }
  assert (Hsrc : 0 <= byte_at (sgi_src (bank g1 cpu)) i).
  { unfold byte_at. destruct (sgi_src (bank g1 cpu) !! i) eqn:E; simpl; [|lia].
    unfold bank in E. destruct (cpus g1 !! cpu) eqn:Eb; simpl in E.
    - assert (Hbw : bank_wf c) by exact (Forall_lookup_1 _ _ _ _ (gw_banks g1 (proj1 Hg1i)) Eb).
      by apply (Forall_lookup_1 _ _ _ _ (bw_src c Hbw) E).
    - by apply (Forall_lookup_1 _ _ _ _ (bw_src _ (proj1 default_bank_ok)) E). }
  destruct (iar_intid i _ Hi Hsrc) as [Hi1 Hi2].
  assert (Hiar : Z.land (if (i <? 16)%nat then Z.lor (Z.of_nat i) (Z.shiftl (byte_at (sgi_src (bank g1 cpu)) i) 10)
    else Z.of_nat i) 0x3ff = Z.of_nat i) by (by destruct (i <? 16)%nat).
  rewrite Hiar. split; [done|]. split; [done|]. split.
  { unfold running_prio, g1. rewrite upd_bank_bank by done. simpl. by rewrite last_snoc. }
  split. { unfold deliverable. rewrite Hact. by rewrite andb_false_r. }
  unfold end_of_interrupt. rewrite Nat2Z.id. set (gb := upd_block g1 cpu i (put_active i false)).
  assert (Hcb : (cpu < num_cpus gb)%nat) by (unfold gb; by rewrite upd_block_num).
  split.
  - rewrite active_at_stack by done. apply active_at_block; [apply Hg1i|done|done|done].
  - rewrite upd_bank_bank by done. simpl. unfold gb. rewrite upd_block_running.
    unfold g1. rewrite upd_bank_bank by done. simpl. rewrite removelast_last.
    unfold ga. apply upd_block_running.
Qed.

(** A one-CPU controller with SGI 3 enabled, pending and unmasked. *)
Definition sgi_gic : GicV2 :=
  let g := dist_write (with_cpus 1) 0 gicd.CTLR 4 1 in
  let g := cpu_write g 0 gicc.PMR 4 0xff in
  let g := dist_write g 0 gicd.ISENABLER 4 8 in
  dist_write g 0 gicd.SGIR 4 0x02000003.

Lemma gic_ack_eoi_witness :
  highest_pending sgi_gic 0 = Some (3%nat, 0) /\ active_at (fst (acknowledge sgi_gic 0)) 0 3 = true.
Proof.
  split; [vm_compute; reflexivity|].
  pose proof (gic_ack_eoi sgi_gic 0 3 0) as Hae.
  destruct (acknowledge sgi_gic 0) as [g1 iar].
  apply Hae; [|vm_compute; repeat constructor|vm_compute; reflexivity].
  repeat first [apply dist_write_inv | apply cpu_write_inv]. apply with_cpus_inv.
Defined.

(** GICD_SGIR posts an SGI to exactly the CPUs its filter selects (the
    target list, all but the sender, or the sender), recording the sender, and
    changes nothing on the others. *)
Theorem sgir_posts (g : GicV2) (cpu : nat) (v : Z) (t : nat) (b : CpuBank) :
  cpus g !! t = Some b ->
  let sgi := Z.to_nat (Z.land v 0xf) in
  let hit := sgir_hit (Z.land (Z.shiftr v 24) 3) (Z.land (Z.shiftr v 16) 0xff) cpu t in
  cpus (sgir g cpu v) !! t = Some (if hit then post_sgi sgi cpu b else b) /\
  shared (sgir g cpu v) = shared g /\ num_cpus (sgir g cpu v) = num_cpus g.
Proof.
  intros Ht sgi hit. unfold sgir. fold sgi.
  set (step := fun g t => if sgir_hit _ _ cpu t then upd_bank g t (post_sgi sgi cpu) else g).
  assert (Hfold : forall n, cpus (foldl step g (seq 0 n)) !! t =
      Some (if (t <? n)%nat && hit then post_sgi sgi cpu b else b) /\
    shared (foldl step g (seq 0 n)) = shared g /\ num_cpus (foldl step g (seq 0 n)) = num_cpus g).
  { induction n as [|n (IH1 & IH2 & IH3)]; [done|]. rewrite seq_S, foldl_app. cbn [foldl].
    rewrite Nat.add_0_l. set (h := foldl step g (seq 0 n)) in *. unfold step at 1 2 3.
    destruct (decide (t = n)) as [<-|Hne].
    - fold hit. rewrite Nat.ltb_irrefl in IH1. cbn [andb] in IH1.
      destruct (Nat.ltb_spec t (S t)); [|lia]. cbn [andb]. destruct hit; [|by rewrite IH1].
      unfold upd_bank, set_cpus, num_cpus in *. cbn [cpus shared].
      rewrite list_lookup_alter_eq, IH1, length_alter. done.
    - assert ((t <? S n)%nat = (t <? n)%nat) as -> by (destruct (Nat.ltb_spec t n), (Nat.ltb_spec t (S n)); lia || done).
      destruct (sgir_hit _ _ cpu n); [|done]. unfold upd_bank, set_cpus, num_cpus in *. cbn [cpus shared].
      rewrite list_lookup_alter_ne, length_alter by done. done. }
  destruct (Hfold (num_cpus g)) as (H1 & H2 & H3).
  assert ((t <? num_cpus g)%nat = true) as Hlt by (apply Nat.ltb_lt; by eapply lookup_lt_Some).
  rewrite Hlt in H1. done.
Qed.

Lemma sgir_posts_witness :
  cpus (sgir (with_cpus 3) 0 0x01000005) !! 2%nat = Some (post_sgi 5 0 CpuBank_default).
Proof. apply (sgir_posts (with_cpus 3) 0 0x01000005 2 CpuBank_default). reflexivity. Defined.

Lemma bits_set_enabled g cpu off start v on j :
  gic_inv g -> (cpu < num_cpus g)%nat -> 0 <= v -> (j < NUM_INTID)%nat ->
  enabled_at (bits_set g cpu off start v put_enabled on) cpu j =
    if (base_index off start <=? j)%nat && (j <? base_index off start + 32)%nat &&
       Z.testbit v (Z.of_nat (j - base_index off start)) then on
    else enabled_at g cpu j.
Proof.
  intros Hg Hc Hv Hj. unfold bits_set. cbv zeta. generalize (base_index off start). intros base.
  apply (enable_bits_effect g cpu base v on 32 j Hg Hc Hv Hj).
Qed.

Lemma bitset_read_bit base f b :
  (b < 32)%nat -> (base + b < NUM_INTID)%nat ->
  Z.testbit (bitset_read base f) (Z.of_nat b) = f (base + b)%nat.
Proof.
  intros Hb Hi. unfold bitset_read.
  rewrite (foldl_lor_testbit (fun b => (base + b <? NUM_INTID)%nat && f (base + b)%nat) 32 b).
  rewrite (proj2 (Nat.ltb_lt b 32) Hb), (proj2 (Nat.ltb_lt _ _) Hi). done.
Qed.

(** Decoding of the enable words. *)
Lemma enable_decode k :
  0 <= k < 8 ->
  let os := gicd.ISENABLER + 4 * k in
  let oc := gicd.ICENABLER + 4 * k in
  (Z.ldiff os 3 = os /\ Z.ldiff oc 3 = oc) /\
  (base_index os gicd.ISENABLER = Z.to_nat (32 * k) /\ base_index oc gicd.ICENABLER = Z.to_nat (32 * k)) /\
  [range os gicd.IPRIORITYR 64; range os gicd.ITARGETSR 64; os =? gicd.CTLR; range os gicd.ISENABLER 32] =
    [false; false; false; true] /\
  [range oc gicd.IPRIORITYR 64; range oc gicd.ITARGETSR 64; oc =? gicd.CTLR; range oc gicd.ISENABLER 32;
   range oc gicd.ICENABLER 32] = [false; false; false; false; true] /\
  [os =? gicd.TYPER; os =? gicd.IIDR; range os gicd.IGROUPR 32; os <? gicd.ICENABLER] = [false; false; false; true].
Proof.
  intros Hk. assert (k = 0 \/ k = 1 \/ k = 2 \/ k = 3 \/ k = 4 \/ k = 5 \/ k = 6 \/ k = 7) as Hcase by lia.
  repeat (destruct Hcase as [->|Hcase]; [vm_compute; repeat split|]). subst k. vm_compute. repeat split.
Qed.

Lemma enable_regs_eq g cpu k v :
  0 <= k < 8 -> fits 32 v ->
  let gs := dist_write g cpu (gicd.ISENABLER + 4 * k) 4 v in
  gs = bits_set g cpu (gicd.ISENABLER + 4 * k) gicd.ISENABLER v put_enabled true /\
  dist_write g cpu (gicd.ICENABLER + 4 * k) 4 v =
    bits_set g cpu (gicd.ICENABLER + 4 * k) gicd.ICENABLER v put_enabled false /\
  dist_read32 gs cpu (gicd.ISENABLER + 4 * k) = bitset_read (Z.to_nat (32 * k)) (enabled_at gs cpu) /\
  base_index (gicd.ISENABLER + 4 * k) gicd.ISENABLER = Z.to_nat (32 * k) /\
  base_index (gicd.ICENABLER + 4 * k) gicd.ICENABLER = Z.to_nat (32 * k).
Proof.
  intros Hk Hv. destruct (enable_decode k Hk) as ([L1 L2] & [B1 B2] & F1 & F2 & F3).
  injection F1 as R1 R2 R3 R4. injection F2 as C1 C2 C3 C4 C5. injection F3 as T1 T2 T3 T4.
  intros gs. split; [|split; [|split; [|done]]].
  - unfold gs, dist_write. rewrite L1, R1, R2, R3, R4, u32_id by done. done.
  - unfold dist_write. rewrite L2, C1, C2, C3, C4, C5, u32_id by done. done.
  - generalize gs. intros h. unfold dist_read32. rewrite R3, T1, T2, T3, R4, T4, B1. done.
Qed.

(** the enable registers: writing [v] to the k-th ISENABLER (ICENABLER)
    word enables (disables) for that CPU exactly the INTIDs of the word whose
    bit is set in [v], and reading the word back gives the old value with
    those bits set (cleared). *)
Theorem enable_registers (g : GicV2) (cpu : nat) (k : Z) (v : Z) (j : nat) :
  gic_inv g -> (cpu < num_cpus g)%nat -> 0 <= k < 8 -> fits 32 v -> (j < NUM_INTID)%nat ->
  let gs := dist_write g cpu (gicd.ISENABLER + 4 * k) 4 v in
  let gc := dist_write g cpu (gicd.ICENABLER + 4 * k) 4 v in
  let hit := (Z.to_nat (32 * k) <=? j)%nat && (j <? Z.to_nat (32 * k) + 32)%nat &&
             Z.testbit v (Z.of_nat (j - Z.to_nat (32 * k))) in
  enabled_at gs cpu j = hit || enabled_at g cpu j /\
  enabled_at gc cpu j = negb hit && enabled_at g cpu j /\
  (forall b, (b < 32)%nat -> Z.testbit (dist_read32 gs cpu (gicd.ISENABLER + 4 * k)) (Z.of_nat b) =
    enabled_at gs cpu (Z.to_nat (32 * k) + b)).
Proof.
  intros Hg Hc Hk Hv Hj gs gc hit.
  pose proof (enable_regs_eq g cpu k v Hk Hv) as Eset. fold gs gc in Eset. cbv zeta in Eset.
  destruct Eset as (Es & Ec & Er & B1 & B2).
  pose proof (bits_set_enabled g cpu (gicd.ISENABLER + 4 * k) gicd.ISENABLER v true j Hg Hc (proj1 Hv) Hj) as H1.
  pose proof (bits_set_enabled g cpu (gicd.ICENABLER + 4 * k) gicd.ICENABLER v false j Hg Hc (proj1 Hv) Hj) as H2.
  rewrite B1, <- Es in H1. rewrite B2, <- Ec in H2. fold hit in H1, H2. clearbody gs gc.
  split; [rewrite H1; by destruct hit|]. split; [rewrite H2; by destruct hit|].
  intros b Hb. rewrite Er. apply bitset_read_bit; [done|]. unfold NUM_INTID. lia.
Qed.

Lemma enable_registers_witness :
  enabled_at (dist_write (with_cpus 1) 0 (gicd.ISENABLER + 4 * 1) 4 2) 0 33 = true.
Proof.
  exact (proj1 (enable_registers (with_cpus 1) 0 1 2 33 (with_cpus_inv 1) ltac:(vm_compute; repeat constructor)
    ltac:(lia) ltac:(lia) ltac:(unfold NUM_INTID; lia))).
Defined.

(** restoring never leaves fewer CPU banks than the machine has, except
    for a blob in the legacy layout, which always leaves exactly one: a
    controller of a multi-vcpu machine then lacks the banks of the others. *)
Theorem restore_cpu_count (g : GicV2) (b : list Z) :
  (head b = Some BLOB_MAGIC -> (num_cpus g <= num_cpus (gic_restore g b))%nat) /\
  (head b <> Some BLOB_MAGIC -> num_cpus (gic_restore g b) = 1%nat).
Proof.
  assert (Hbanks : forall n bs, length (fst (restore_banks n bs)) = n).
  { induction n as [|n IH]; intros bs; [done|]. cbn [restore_banks].
    destruct (restore_bank bs) as [k b1]. specialize (IH b1). destruct (restore_banks n b1). simpl in *. lia. }
  assert (Hleg : forall bs, num_cpus (restore_legacy g bs) = 1%nat).
  { intros bs. unfold restore_legacy. repeat case_match; done. }
  split.
  - destruct b as [|x b]; [done|]. simpl. intros [= ->]. rewrite Z.eqb_refl. unfold restore_v2.
    destruct (next _) as [nc b1]. destruct (next b1) as [de b2].
    pose proof (Hbanks (clamp_cpus (Z.to_nat nc)) b2) as Hl. destruct (restore_banks _ b2) as [ks b3].
    destruct (restore_bits _ b3) as [l b4]. destruct (next_n _ b4) as [t b5]. simpl in Hl.
    unfold num_cpus. simpl. rewrite length_app, length_replicate, Hl. unfold num_cpus. lia.
  - destruct b as [|x b]; [intros; apply Hleg|]. simpl. intros Hne.
    destruct (Z.eqb_spec x BLOB_MAGIC); [congruence|]. apply Hleg.
Qed.
