(* ===== verification/Pl011.v ===== *)
(** * Pl011: the console UART (crates/amber-core/src/bus.rs)

    The transmit sink is the list of bytes written to it. *)

From S2P Require Import Prelude.

Record Pl011 := mkPl011 {
  out : list Z;
  rx_fifo : list Z;
  cr : Z;
  imsc : Z;
  ris : Z;
  ibrd : Z;
  fbrd : Z;
  lcr_h : Z;
  ifls : Z;
  marker : list Z;
  tx_tail : list Z;
  marked : bool
}.

Definition DR : Z := 0x000.
Definition FR : Z := 0x018.
Definition IBRD : Z := 0x024.
Definition FBRD : Z := 0x028.
Definition LCR_H : Z := 0x02c.
Definition CR : Z := 0x030.
Definition IFLS : Z := 0x034.
Definition IMSC : Z := 0x038.
Definition RIS : Z := 0x03c.
Definition MIS : Z := 0x040.
Definition ICR : Z := 0x044.
Definition FR_RXFE : Z := Z.shiftl 1 4.
Definition FR_TXFE : Z := Z.shiftl 1 7.
Definition INT_RX : Z := Z.shiftl 1 4.
Definition INT_RT : Z := Z.shiftl 1 6.

(** PrimeCell identification registers. *)
Definition ID : list (Z * Z) :=
  [(0xfe0, 0x11); (0xfe4, 0x10); (0xfe8, 0x14); (0xfec, 0x00);
   (0xff0, 0x0d); (0xff4, 0xf0); (0xff8, 0x05); (0xffc, 0xb1)].

Definition Pl011_new : Pl011 := mkPl011 [] [] 0 0 0 0 0 0 0 [] [] false.

Definition arm_marker (p : Pl011) (m : list Z) : Pl011 :=
  mkPl011 (out p) (rx_fifo p) (cr p) (imsc p) (ris p) (ibrd p) (fbrd p) (lcr_h p) (ifls p) m [] false.

Definition set_ris (p : Pl011) (v : Z) : Pl011 :=
  mkPl011 (out p) (rx_fifo p) (cr p) (imsc p) v (ibrd p) (fbrd p) (lcr_h p) (ifls p)
    (marker p) (tx_tail p) (marked p).
Definition set_fifo (p : Pl011) (q : list Z) : Pl011 :=
  mkPl011 (out p) q (cr p) (imsc p) (ris p) (ibrd p) (fbrd p) (lcr_h p) (ifls p)
    (marker p) (tx_tail p) (marked p).
Definition set_tx (p : Pl011) (o tail : list Z) (mk : bool) : Pl011 :=
  mkPl011 o (rx_fifo p) (cr p) (imsc p) (ris p) (ibrd p) (fbrd p) (lcr_h p) (ifls p)
    (marker p) tail mk.

Definition push_rx (p : Pl011) (byte : Z) : Pl011 :=
  set_ris (set_fifo p (rx_fifo p ++ [byte])) (Z.lor (ris p) (Z.lor INT_RX INT_RT)).

Definition uart_irq_level (p : Pl011) : bool := nz (Z.land (ris p) (imsc p)).

Definition regs (p : Pl011) : list Z := [cr p; imsc p; ibrd p; fbrd p; lcr_h p; ifls p].

Definition set_config (p : Pl011) (c im ib fb lc il : Z) : Pl011 :=
  mkPl011 (out p) (rx_fifo p) c im (ris p) ib fb lc il (marker p) (tx_tail p) (marked p).

(** [set_regs], on the array [regs] returns. *)
Definition set_regs (p : Pl011) (r : list Z) : Pl011 :=
  let at_ i := default 0 (r !! i) in
  set_config p (at_ 0%nat) (at_ 1%nat) (at_ 2%nat) (at_ 3%nat) (at_ 4%nat) (at_ 5%nat).

Definition uart_read (p : Pl011) (offset : Z) : Pl011 * Z :=
  match List.find (fun e => fst e =? offset) ID with
  | Some (_, v) => (p, v)
  | None =>
      if offset =? DR then
        match rx_fifo p with
        | [] => (set_ris p (Z.ldiff (ris p) (Z.lor INT_RX INT_RT)), 0)
        | b :: q =>
            let p' := set_fifo p q in
            ((match q with
              | [] => set_ris p' (Z.ldiff (ris p') (Z.lor INT_RX INT_RT))
              | _ => p'
              end), b)
        end
      else if offset =? FR then
        (p, match rx_fifo p with [] => Z.lor FR_TXFE FR_RXFE | _ => FR_TXFE end)
      else if offset =? RIS then (p, ris p)
      else if offset =? MIS then (p, Z.land (ris p) (imsc p))
      else if offset =? IMSC then (p, imsc p)
      else if offset =? CR then (p, cr p)
      else if offset =? IBRD then (p, ibrd p)
      else if offset =? FBRD then (p, fbrd p)
      else if offset =? LCR_H then (p, lcr_h p)
      else if offset =? IFLS then (p, ifls p)
      else (p, 0)
  end.

(** The trigger bookkeeping of a transmitted byte: the window kept is the
    last [marker.len()] bytes. *)
Definition tx_byte (p : Pl011) (byte : Z) : Pl011 :=
  let o := out p ++ [byte] in
  if negb (match marker p with [] => true | _ => false end) && negb (marked p) then
    let tail := tx_tail p ++ [byte] in
    let tail := drop (length tail - length (marker p)) tail in
    set_tx p o tail (bool_decide (tail = marker p))
  else set_tx p o (tx_tail p) (marked p).

Definition uart_write (p : Pl011) (offset value : Z) : Pl011 :=
  let v32 := u32 value in
  if offset =? DR then tx_byte p (u8 value)
  else if offset =? IMSC then set_config p (cr p) v32 (ibrd p) (fbrd p) (lcr_h p) (ifls p)
  else if offset =? CR then set_config p v32 (imsc p) (ibrd p) (fbrd p) (lcr_h p) (ifls p)
  else if offset =? IBRD then set_config p (cr p) (imsc p) v32 (fbrd p) (lcr_h p) (ifls p)
  else if offset =? FBRD then set_config p (cr p) (imsc p) (ibrd p) v32 (lcr_h p) (ifls p)
  else if offset =? LCR_H then set_config p (cr p) (imsc p) (ibrd p) (fbrd p) v32 (ifls p)
  else if offset =? IFLS then set_config p (cr p) (imsc p) (ibrd p) (fbrd p) (lcr_h p) v32
  else if offset =? ICR then set_ris p (Z.ldiff (ris p) v32)
  else p.

(** ** The console trigger *)

(** [m] occurs in [s]. *)
Definition occurs (m s : list Z) : Prop := exists a b, s = a ++ m ++ b.

Lemma occurs_snoc m s x : m <> [] ->
  occurs m (s ++ [x]) <-> occurs m s \/ exists a, s ++ [x] = a ++ m.
Proof.
  intros Hm. split.
  - intros (a & b & E). destruct b as [|y b _] using rev_ind.
    + right. exists a. by rewrite app_nil_r in E.
    + left. rewrite !app_assoc in E. apply app_inj_tail in E as [-> _]. exists a, b. by rewrite app_assoc.
  - intros [(a & b & ->)|(a & E)].
    + exists a, (b ++ [x]). by rewrite <- !app_assoc.
    + exists a, []. by rewrite app_nil_r.
Qed.

(** The last [n] elements. *)
Definition lastn (n : nat) (s : list Z) : list Z := drop (length s - n) s.

Lemma lastn_snoc n s x : (0 < n)%nat ->
  lastn n (s ++ [x]) = drop (length (lastn n s ++ [x]) - n) (lastn n s ++ [x]).
Proof.
  intros Hn. unfold lastn. rewrite !length_app, length_drop. simpl.
  destruct (decide (length s < n)%nat).
  - replace (length s - n)%nat with 0%nat by lia. rewrite drop_0. f_equal; lia.
  - rewrite (drop_app_le s) by lia. rewrite (drop_app_le (drop _ s)) by (rewrite length_drop; lia).
    rewrite drop_drop. f_equal. f_equal. lia.
Qed.

Lemma lastn_suffix m s : (exists a, s = a ++ m) <-> lastn (length m) s = m.
Proof.
  unfold lastn. split.
  - intros [a ->]. rewrite length_app. replace (length a + length m - length m)%nat with (length a) by lia.
    by rewrite drop_app_length.
  - intros E. exists (take (length s - length m) s). rewrite <- E at 2. by rewrite take_drop.
Qed.

(** State of the trigger after the transmit stream [s]. *)
Definition trigger_inv (m s : list Z) (p : Pl011) : Prop :=
  marker p = m /\ (marked p = true <-> occurs m s) /\
  (marked p = false -> tx_tail p = lastn (length m) s).

Lemma tx_byte_inv m s p x : m <> [] -> trigger_inv m s p -> trigger_inv m (s ++ [x]) (tx_byte p x).
Proof.
  intros Hm (Hmk & Hocc & Htail). unfold tx_byte. rewrite Hmk.
  assert (negb match m with [] => true | _ => false end = true) as -> by (by destruct m).
  destruct (marked p) eqn:Hmarked; simpl.
  - split; [done|]. simpl. split; [|done]. split; [|done]. intros _.
    apply occurs_snoc; [done|]. left. by apply Hocc.
  - specialize (Htail eq_refl). rewrite Htail.
    assert (Hn : (0 < length m)%nat) by (destruct m; [done|simpl; lia]).
    rewrite <- (lastn_snoc (length m) s x Hn). split; [done|]. simpl. split; [|done].
    rewrite bool_decide_eq_true, <- lastn_suffix, occurs_snoc by done.
    split; [by right|]. intros [Hs|]; [|done]. apply Hocc in Hs. congruence.
Qed.

Lemma uart_write_inv m s p off v : m <> [] -> trigger_inv m s p ->
  trigger_inv m (if off =? DR then s ++ [u8 v] else s) (uart_write p off v).
Proof.
  intros Hm Hp. unfold uart_write. destruct (off =? DR); [by apply tx_byte_inv|].
  repeat (destruct (_ =? _); [exact Hp|]). exact Hp.
Qed.

(** ** Receive interrupt *)

(** An empty receive FIFO has no receive interrupt raised. *)
Definition rx_quiet (p : Pl011) : Prop :=
  rx_fifo p = [] -> Z.land (ris p) (Z.lor INT_RX INT_RT) = 0.

Lemma ldiff_land_0 a b : Z.land (Z.ldiff a b) b = 0.
Proof. rewrite Z.ldiff_land, <- Z.land_assoc, (Z.land_comm (Z.lnot b)), Z.land_lnot_diag. apply Z.land_0_r. Qed.

Lemma ldiff_keeps_quiet a b c : Z.land a c = 0 -> Z.land (Z.ldiff a b) c = 0.
Proof.
  intros H. rewrite Z.ldiff_land, <- Z.land_assoc, (Z.land_comm (Z.lnot b)), Z.land_assoc, H. apply Z.land_0_l.
Qed.

(** Host input, guest register accesses and the trigger in any order. *)
Inductive uart_step : Pl011 -> Pl011 -> Prop :=
| us_push p b : uart_step p (push_rx p b)
| us_read p off : uart_step p (fst (uart_read p off))
| us_write p off v : uart_step p (uart_write p off v)
| us_arm p m : uart_step p (arm_marker p m)
| us_regs p r : uart_step p (set_regs p r).

Lemma uart_step_quiet p p' : uart_step p p' -> rx_quiet p -> rx_quiet p'.
Proof.
  intros [q b|q off|q off v|q m|q r] Hq; unfold rx_quiet in *; try exact Hq.
  - simpl. intros E. by apply app_eq_nil in E as [_ ?].
  - unfold uart_read. destruct (List.find _ ID) as [[? ?]|]; [exact Hq|].
    destruct (off =? DR); [|by repeat (destruct (_ =? _); [exact Hq|])].
    destruct (rx_fifo q) as [|x [|y l]]; simpl; intros; [apply ldiff_land_0..|done].
  - unfold uart_write. destruct (off =? DR).
    + unfold tx_byte. by destruct (_ && _).
    + do 6 (destruct (_ =? _); [exact Hq|]). destruct (_ =? ICR); [|exact Hq].
      simpl. intros E. apply ldiff_keeps_quiet. by apply Hq.
Qed.

(** The latch over a run of register writes. *)
Lemma marker_run (p : Pl011) (m : list Z) (ops : list (Z * Z)) :
  m <> [] ->
  let tx := map (fun op => u8 (snd op)) (List.filter (fun op => fst op =? DR) ops) in
  marked (foldl (fun p op => uart_write p (fst op) (snd op)) (arm_marker p m) ops) = true <-> occurs m tx.
Proof.
  intros Hm. set (run := foldl (fun p op => uart_write p (fst op) (snd op)) (arm_marker p m)).
  enough (Hinv : trigger_inv m (map (fun op => u8 (snd op)) (List.filter (fun op => fst op =? DR) ops)) (run ops))
    by apply Hinv.
  unfold run. induction ops as [|[off v] ops IH] using rev_ind.
  - split; [done|]. simpl. split; [|done]. split; [done|]. intros (a & b & E).
    symmetry in E. apply app_eq_nil in E as [_ E]. by apply app_eq_nil in E as [-> _].
  - rewrite foldl_app, List.filter_app, map_app. simpl.
    pose proof (uart_write_inv m _ _ off v Hm IH) as Hw.
    destruct (off =? DR); simpl; [done|by rewrite app_nil_r].
Qed.

(** ** Properties *)

(** the readiness trigger fires exactly when the marker has appeared in
    the guest's console output since it was armed, whatever else the guest
    writes to the UART in between, and stays latched. *)
Theorem marker_latches_exactly (p : Pl011) (m : list Z) (ops : list (Z * Z)) :
  m <> [] ->
  let tx := map (fun op => u8 (snd op)) (List.filter (fun op => fst op =? DR) ops) in
  marked (foldl (fun p op => uart_write p (fst op) (snd op)) (arm_marker p m) ops) = true <-> occurs m tx.
Proof. apply marker_run. Qed.

Lemma marker_latches_exactly_witness :
  marked (foldl (fun p op => uart_write p (fst op) (snd op)) (arm_marker Pl011_new [77; 75])
    [(DR, 65); (DR, 77); (CR, 1); (DR, 75); (DR, 66)]) = true.
Proof.
  apply (marker_latches_exactly Pl011_new [77; 75] [(DR, 65); (DR, 77); (CR, 1); (DR, 75); (DR, 66)]);
    [discriminate|]. exists [65], [66]. reflexivity.
Defined.

(** console input is a FIFO with an exact interrupt: bytes the host
    pushes come out of DR in order, and in any state reached from reset an
    empty FIFO never holds the line up through a receive bit. *)
Theorem uart_rx_fifo (p : Pl011) (bytes : list Z) :
  rtc uart_step Pl011_new p ->
  let q := foldl push_rx p bytes in
  let drain := fix drain (n : nat) (p : Pl011) : list Z :=
    match n with O => [] | S n' => snd (uart_read p DR) :: drain n' (fst (uart_read p DR)) end in
  drain (length (rx_fifo p) + length bytes)%nat q = rx_fifo p ++ bytes /\
  (rx_fifo p = [] -> Z.land (Z.land (ris p) (imsc p)) (Z.lor INT_RX INT_RT) = 0) /\
  (bytes <> [] -> nz (Z.land (imsc p) INT_RX) = true -> uart_irq_level q = true).
Proof.
  intros Hp q drain.
  assert (Hquiet : rx_quiet p).
  { revert p Hp q. apply (rtc_ind_r rx_quiet); [done|]. intros. by eapply uart_step_quiet. }
  assert (Hpush : forall bs x, rx_fifo (foldl push_rx x bs) = rx_fifo x ++ bs).
  { induction bs as [|b bs IH]; intros x; simpl; [by rewrite app_nil_r|]. rewrite IH. simpl. by rewrite <- app_assoc. }
  assert (Hdrain : forall l x, rx_fifo x = l -> drain (length l) x = l).
  { induction l as [|b l IH]; intros x Hx; [done|].
    assert (Hrd : snd (uart_read x DR) = b /\ rx_fifo (fst (uart_read x DR)) = l).
    { unfold uart_read. simpl. rewrite Hx. simpl. by destruct l. }
    destruct Hrd as [Hr1 Hr2]. change (drain (length (b :: l)) x) with
      (snd (uart_read x DR) :: drain (length l) (fst (uart_read x DR))).
    by rewrite Hr1, (IH _ Hr2). }
  split; [|split].
  - rewrite <- length_app. apply Hdrain, Hpush.
  - intros E. rewrite <- Z.land_assoc, (Z.land_comm (imsc p)), Z.land_assoc.
    rewrite (Hquiet E). apply Z.land_0_l.
  - intros Hb Hm. unfold uart_irq_level, q.
    assert (Hi : forall bs x, imsc (foldl push_rx x bs) = imsc x)
      by (induction bs as [|b bs IH]; intros x; simpl; [done|]; by rewrite IH).
    rewrite Hi. destruct bytes as [|b bs _] using rev_ind; [done|].
    rewrite foldl_app. simpl. unfold nz in *. apply negb_true_iff, Z.eqb_neq.
    apply negb_true_iff, Z.eqb_neq in Hm. intros E. apply Hm.
    assert (Hbit : Z.land (Z.land (Z.lor (ris (foldl push_rx p bs)) (Z.lor INT_RX INT_RT)) (imsc p)) INT_RX = 0)
      by (by rewrite E, Z.land_0_l).
    rewrite Z.land_comm, Z.land_assoc, (Z.land_comm INT_RX) in Hbit.
    rewrite Z.land_lor_distr_l in Hbit. change (Z.land (Z.lor INT_RX INT_RT) INT_RX) with INT_RX in Hbit.
    rewrite Z.land_lor_distr_l in Hbit. apply Z.lor_eq_0_iff in Hbit as [_ Hbit].
    by rewrite Z.land_comm.
Qed.

Lemma uart_rx_fifo_witness :
  uart_irq_level (foldl push_rx (uart_write Pl011_new IMSC INT_RX) [104; 105]) = true.
Proof.
  pose proof (uart_rx_fifo (uart_write Pl011_new IMSC INT_RX) [104; 105]
    (rtc_once _ _ (us_write Pl011_new IMSC INT_RX))) as (_ & _ & Hirq).
  apply Hirq; [discriminate|reflexivity].
Defined.
