(* ===== verification/Proto.v ===== *)
(** * Proto: the control protocol of amberd (crates/amber/src/proto.rs)

    Length-prefixed frames over a byte stream. A reader is the bytes still to
    come and whether the stream then ends or fails; the JSON encoding of the
    control messages (serde) is an interface. *)

From S2P Require Import Prelude.

Definition TAG_REQUEST : Z := 1.
Definition TAG_REPLY : Z := 2.
Definition TAG_STDOUT : Z := 3.
Definition TAG_STDIN : Z := 4.
Definition TAG_STDERR : Z := 5.
Definition MAX_FRAME : Z := 16 * 1024 * 1024.

Record VmInfo := mkVmInfo {
  vi_id : string;
  vi_reference : string;
  vi_pid : Z;
  vi_started : Z;
  vi_ram_bytes : Z;
  vi_rss_bytes : Z;
  vi_paused : bool
}.

Inductive Request :=
| RunOneShot (reference : string) (argv : list string)
| RunDetached (reference : string) (argv : list string)
| Logs (id : string)
| ListVms
| Budget
| Balloon (id : string) (mib : Z)
| Pause (id : string)
| Resume (id : string)
| Fork (template : string) (interactive : bool)
| Exec (template cmd : string)
| Kill (id : string)
| Shutdown.

Inductive Reply :=
| RExit (code : Z)
| RStarted (id : string) (vsock : option string)
| RVms (vms : list VmInfo)
| RBudget (budget used rss machine : Z)
| RBudgetExceeded (budget used requested : Z)
| ROk
| RError (message : string).

(** ** Frames *)

Inductive IoErr := UnexpectedEof | InvalidData | OtherIo.

(** A byte source: what is left to read, and whether it then breaks. *)
Record Reader := mkReader { rd_bytes : list Z; rd_broken : bool }.

(** [read_exact] of [n] bytes: consumes what is there when it falls short. *)
Definition read_exact_n (r : Reader) (n : Z) : Reader * (list Z + IoErr) :=
  if n <=? zlen (rd_bytes r)
  then (mkReader (drop (Z.to_nat n) (rd_bytes r)) (rd_broken r), inl (take (Z.to_nat n) (rd_bytes r)))
  else (mkReader [] (rd_broken r), inr (if rd_broken r then OtherIo else UnexpectedEof)).

(** The bytes [write_frame] puts on a stream that accepts them. *)
Definition write_frame (tag : Z) (payload : list Z) : list Z :=
  [tag] ++ le_bytes 4 (u32 (zlen payload)) ++ payload.

Definition read_frame (r : Reader) : Reader * (option (Z * list Z) + IoErr) :=
  let '(r1, t) := read_exact_n r 1 in
  match t with
  | inr UnexpectedEof => (r1, inl None)
  | inr e => (r1, inr e)
  | inl tag =>
      let '(r2, l) := read_exact_n r1 4 in
      match l with
      | inr e => (r2, inr e)
      | inl lb =>
          let len := of_le_bytes lb in
          if MAX_FRAME <? len then (r2, inr InvalidData)
          else
            let '(r3, p) := read_exact_n r2 len in
            match p with
            | inr e => (r3, inr e)
            | inl payload => (r3, inl (Some (default 0 (tag !! 0%nat), payload)))
            end
      end
  end.

(** serde_json's encoding of the control messages. *)
Class Serde (A : Type) := { to_vec : A -> list Z; from_slice : list Z -> option A }.

(** What its users rely on: what is encoded is decoded. *)
Class SerdeOk (A : Type) `{Serde A} := serde_ok : forall x, from_slice (to_vec x) = Some x.

(** An encoding that has it, for any countable type. *)
Definition demo_serde (A : Type) `{Countable A} : Serde A :=
  {| to_vec x := [Zpos (encode x)]; from_slice bs := match bs with [Zpos p] => decode p | _ => None end |}.
Lemma demo_serde_ok (A : Type) `{Countable A} : @SerdeOk A (demo_serde A).
Proof. intros x. apply decode_encode. Qed.

Definition write_request `{Serde Request} (req : Request) : list Z := write_frame TAG_REQUEST (to_vec req).
Definition write_reply `{Serde Reply} (rep : Reply) : list Z := write_frame TAG_REPLY (to_vec rep).

(** ** Lemmas *)

Lemma read_exact_app n bs rest br :
  zlen bs = n -> read_exact_n (mkReader (bs ++ rest) br) n = (mkReader rest br, inl bs).
Proof.
  intros <-. unfold read_exact_n. cbn [rd_bytes rd_broken]. rewrite zlen_app.
  destruct (Z.leb_spec (zlen bs) (zlen bs + zlen rest)); [|pose proof (zlen_nonneg rest); lia].
  assert (E : Z.to_nat (zlen bs) = length bs) by (unfold zlen; lia).
  by rewrite E, drop_app_length, take_app_length.
Qed.

Lemma read_exact_short r n :
  zlen (rd_bytes r) < n ->
  read_exact_n r n = (mkReader [] (rd_broken r), inr (if rd_broken r then OtherIo else UnexpectedEof)).
Proof. intros Hn. unfold read_exact_n. destruct (Z.leb_spec n (zlen (rd_bytes r))); [lia|done]. Qed.

(** Header of a frame of any length: either rejected or the payload is read. *)
Lemma read_frame_header tag len body br :
  fits 32 len ->
  read_frame (mkReader ([tag] ++ le_bytes 4 len ++ body) br) =
    if MAX_FRAME <? len then (mkReader body br, inr InvalidData)
    else let '(r3, p) := read_exact_n (mkReader body br) len in
         match p with inr e => (r3, inr e) | inl payload => (r3, inl (Some (tag, payload))) end.
Proof.
  intros Hl. unfold read_frame. rewrite read_exact_app by done.
  rewrite read_exact_app by (by rewrite zlen_le_bytes).
  rewrite of_le_bytes_le_bytes_id by exact Hl. simpl. done.
Qed.

Lemma read_frame_written tag payload rest br :
  zlen payload <= MAX_FRAME ->
  read_frame (mkReader (write_frame tag payload ++ rest) br) =
    (mkReader rest br, inl (Some (tag, payload))).
Proof.
  intros Hl. unfold write_frame. rewrite <- !app_assoc. pose proof (zlen_nonneg payload).
  assert (Hu : u32 (zlen payload) = zlen payload) by (apply u32_id; unfold MAX_FRAME in Hl; lia).
  rewrite Hu. rewrite read_frame_header by (unfold MAX_FRAME in Hl; lia).
  destruct (Z.ltb_spec MAX_FRAME (zlen payload)); [lia|]. by rewrite read_exact_app.
Qed.

(** Reading every frame of a stream. *)
Fixpoint read_frames (n : nat) (r : Reader) : list (Z * list Z) * Reader :=
  match n with
  | O => ([], r)
  | S n' =>
      match read_frame r with
      | (r', inl (Some f)) => let '(fs, r'') := read_frames n' r' in (f :: fs, r'')
      | (r', _) => ([], r')
      end
  end.

(** ** Properties *)

(** framing round trip: any sequence of frames with payloads up to
    [MAX_FRAME], written back to back, is read back frame by frame, tags and
    payloads intact, and the reader then sees a clean end of stream. *)
Theorem frames_roundtrip (frames : list (Z * list Z)) :
  Forall (fun f => zlen (snd f) <= MAX_FRAME) frames ->
  let wire := concat (map (fun f => write_frame (fst f) (snd f)) frames) in
  read_frames (length frames) (mkReader wire false) = (frames, mkReader [] false) /\
  read_frame (mkReader [] false) = (mkReader [] false, inl None).
Proof.
  intros Hf wire. split; [|done]. unfold wire. rewrite <- (app_nil_r (concat _)). generalize (@nil Z) as rest.
  induction Hf as [|[tag p] fs Hp _ IH]; intros rest; [done|].
  cbn [length read_frames map concat fst snd] in *. rewrite <- app_assoc, read_frame_written by done.
  by rewrite IH.
Qed.

Lemma frames_roundtrip_witness :
  read_frames 2 (mkReader (write_frame TAG_STDOUT [104; 105] ++ write_frame TAG_REPLY []) false) =
    ([(TAG_STDOUT, [104; 105]); (TAG_REPLY, [])], mkReader [] false).
Proof.
  refine (proj1 (frames_roundtrip [(TAG_STDOUT, [104; 105]); (TAG_REPLY, [])] _)).
  repeat constructor; vm_compute; discriminate.
Defined.

(** malformed streams are errors, never a silent end: a stream that stops
    inside a frame (after its tag) and a frame announcing more than
    [MAX_FRAME] bytes both make [read_frame] fail, and the oversized one
    allocates and consumes nothing of its payload. *)
Theorem read_frame_rejects (tag len : Z) (body : list Z) (br : bool) :
  fits 32 len ->
  (MAX_FRAME < len ->
     read_frame (mkReader ([tag] ++ le_bytes 4 len ++ body) br) = (mkReader body br, inr InvalidData)) /\
  (len <= MAX_FRAME -> zlen body < len ->
     exists e, snd (read_frame (mkReader ([tag] ++ le_bytes 4 len ++ body) br)) = inr e) /\
  (forall hdr, zlen hdr < 4 -> exists e, snd (read_frame (mkReader ([tag] ++ hdr) br)) = inr e).
Proof.
  intros Hl. split; [|split].
  - intros Hm. rewrite read_frame_header by done. destruct (Z.ltb_spec MAX_FRAME len); [done|lia].
  - intros Hm Hb. rewrite read_frame_header by done. destruct (Z.ltb_spec MAX_FRAME len); [lia|].
    rewrite read_exact_short by done. simpl. eauto.
  - intros hdr Hh. unfold read_frame. rewrite read_exact_app by done. rewrite read_exact_short by done.
    simpl. eauto.
Qed.

Lemma read_frame_rejects_witness :
  read_frame (mkReader ([TAG_STDIN] ++ le_bytes 4 16777217 ++ []) false) =
    (mkReader [] false, inr InvalidData).
Proof.
  exact (proj1 (read_frame_rejects TAG_STDIN 16777217 [] false ltac:(lia)) ltac:(unfold MAX_FRAME; lia)).
Defined.

(** the writer does not apply the reader's limit: a frame written with a
    payload above [MAX_FRAME] (and below 2^32) is always refused by
    [read_frame] at the other end. *)
Theorem oversized_frame_unreadable (tag : Z) (payload rest : list Z) (br : bool) :
  MAX_FRAME < zlen payload -> zlen payload < 2 ^ 32 ->
  read_frame (mkReader (write_frame tag payload ++ rest) br) =
    (mkReader (payload ++ rest) br, inr InvalidData).
Proof.
  intros H1 H2. unfold write_frame. rewrite <- !app_assoc. pose proof (zlen_nonneg payload).
  rewrite u32_id by lia. rewrite read_frame_header by lia.
  destruct (Z.ltb_spec MAX_FRAME (zlen payload)); [done|lia].
Qed.

Lemma oversized_frame_unreadable_witness :
  read_frame (mkReader (write_frame TAG_STDIN (zeros (MAX_FRAME + 1)) ++ []) false) =
    (mkReader (zeros (MAX_FRAME + 1) ++ []) false, inr InvalidData).
Proof.
  apply (oversized_frame_unreadable TAG_STDIN (zeros (MAX_FRAME + 1)) [] false);
    rewrite zlen_zeros by (unfold MAX_FRAME; lia); unfold MAX_FRAME; lia.
Defined.
