(* ===== verification/KvmGic.v ===== *)
(** * KvmGic: vGICv3 save and restore (crates/amber-kvm/src/gic.rs)

    The in-kernel interrupt controller is reached through device attributes;
    it is a class whose laws say what a successful write does. The register
    groups are the values of the kernel's constants. *)

From S2P Require Import Prelude Memory.

(** [KVM_DEV_ARM_VGIC_GRP_*] (linux/kvm.h). *)
Definition GRP_DIST_REGS : Z := 1.
Definition GRP_REDIST_REGS : Z := 5.
Definition GRP_CPU_SYSREGS : Z := 6.

Definition Addr : Type := (Z * Z)%type.

(** Register addresses a snapshot walks. *)
Definition icc (op0 op1 crn crm op2 : Z) : Z :=
  Z.lor (Z.lor (Z.lor (Z.lor (Z.shiftl op0 14) (Z.shiftl op1 11)) (Z.shiftl crn 7)) (Z.shiftl crm 3)) op2.

Definition ICC_REGS : list Z :=
  [icc 3 0 4 6 0; icc 3 0 12 8 3; icc 3 0 12 8 4; icc 3 0 12 9 0; icc 3 0 12 12 3;
   icc 3 0 12 12 4; icc 3 0 12 12 5; icc 3 0 12 12 6; icc 3 0 12 12 7].

(** [for x in lo..hi]. *)
Definition zrange (lo hi : Z) : list Z := map (fun k => lo + Z.of_nat k) (seq 0 (Z.to_nat (hi - lo))).

Definition dist_addrs (nr_irqs : Z) : list Addr :=
  [(GRP_DIST_REGS, 0)] ++
  concat (map (fun base => map (fun word => (GRP_DIST_REGS, base + 4 * word)) (zrange 1 (nr_irqs / 32)))
    [0x0080; 0x0100; 0x0200; 0x0300]) ++
  map (fun word => (GRP_DIST_REGS, 0x0400 + 4 * word)) (zrange 8 (nr_irqs / 4)) ++
  map (fun word => (GRP_DIST_REGS, 0x0C00 + 4 * word)) (zrange 2 (nr_irqs / 16)) ++
  map (fun intid => (GRP_DIST_REGS, 0x6000 + 8 * intid)) (zrange 32 nr_irqs).

Definition redist_offs : list Z :=
  [0x0000; 0x0010; 0x0014; 0x10080; 0x10100; 0x10200; 0x10300] ++
  map (fun word => 0x10400 + 4 * word) (zrange 0 8) ++ [0x10C00; 0x10C04].

Definition cpu_addrs (cpu : Z) : list Addr :=
  let v := Z.shiftl cpu 32 in
  map (fun off => (GRP_REDIST_REGS, Z.lor v off)) redist_offs ++
  map (fun reg => (GRP_CPU_SYSREGS, Z.lor v reg)) ICC_REGS.

Definition addr_list (nr_irqs vcpus : Z) : list Addr :=
  dist_addrs nr_irqs ++ concat (map cpu_addrs (zrange 0 vcpus)).

(** ** The device *)

Class Vgic (V : Type) := {
  vg_get : V -> Addr -> option Z;
  vg_set : V -> Addr -> Z -> V * bool
}.
Class VgicLaws (V : Type) `{Vgic V} := {
  vg_get_range : forall v a x, vg_get v a = Some x -> fits 64 x;
  vg_set_same : forall v a x, fits 64 x -> snd (vg_set v a x) = true -> vg_get (fst (vg_set v a x)) a = Some x;
  vg_set_other : forall v a b x, a <> b -> vg_get (fst (vg_set v a x)) b = vg_get v b;
  vg_set_refused : forall v a x, snd (vg_set v a x) = false -> fst (vg_set v a x) = v
}.

Section KvmGic.
Context {V : Type} `{Vgic V}.

Definition get_attr (v : V) (a : Addr) : Result Z :=
  match vg_get v a with Some x => inl x | None => inr ESnapshot end.
Definition set_attr (v : V) (a : Addr) (x : Z) : V * Result unit :=
  let '(v', ok) := vg_set v a x in (v', if ok then inl tt else inr ESnapshot).

(** "AGIC". *)
Definition GIC_MAGIC : list Z := [0x41; 0x47; 0x49; 0x43].

(** The values of the registers, stopping at the first failure. *)
Fixpoint get_all (v : V) (addrs : list Addr) : Result (list Z) :=
  match addrs with
  | [] => inl []
  | a :: l =>
      match get_attr v a with
      | inr e => inr e
      | inl x => match get_all v l with inr e => inr e | inl xs => inl (x :: xs) end
      end
  end.

Definition kgic_capture (v : V) (nr_irqs vcpus : Z) : Result (list Z) :=
  let addrs := addr_list nr_irqs vcpus in
  match get_all v addrs with
  | inr e => inr e
  | inl xs =>
      inl (GIC_MAGIC ++ le_bytes 4 1 ++ le_bytes 4 nr_irqs ++ le_bytes 4 (u32 vcpus) ++
           le_bytes 4 (u32 (zlen addrs)) ++ concat (map (le_bytes 8) xs))
  end.

(** Writing the values back; a refused write is skipped. *)
Fixpoint set_all (v : V) (addrs : list Addr) (vals : list Z) : V :=
  match addrs, vals with
  | a :: l, x :: xs => set_all (fst (set_attr v a x)) l xs
  | _, _ => v
  end.

(** The [i]-th value of the blob. *)
Definition blob_val (blob : list Z) (i : nat) : Z := of_le_bytes (slice (20 + Z.of_nat i * 8) 8 blob).

Definition kgic_restore (v : V) (nr_irqs vcpus : Z) (blob : list Z) : Result V :=
  if (zlen blob <? 20) || negb (bool_decide (slice 0 4 blob = GIC_MAGIC)) then inr ESnapshot
  else
    let rd o := of_le_bytes (slice o 4 blob) in
    if negb (rd 8 =? nr_irqs) || negb (rd 12 =? vcpus) then inr ESnapshot
    else
      let addrs := addr_list nr_irqs vcpus in
      let count := rd 16 in
      if negb (count =? zlen addrs) || (zlen blob <? 20 + count * 8) then inr ESnapshot
      else inl (set_all v addrs (map (blob_val blob) (seq 0 (length addrs)))).

End KvmGic.

(** ** The address list *)

Lemma zrange_In lo hi x : x ∈ zrange lo hi <-> lo <= x < hi.
Proof.
  unfold zrange. rewrite list_elem_of_In, in_map_iff. split.
  - intros (k & <- & Hk%in_seq). lia.
  - intros Hx. exists (Z.to_nat (x - lo)). split; [lia|]. apply in_seq. lia.
Qed.

Lemma zrange_NoDup lo hi : NoDup (zrange lo hi).
Proof.
  unfold zrange. apply NoDup_fmap_2; [|apply NoDup_seq]. intros a b Hab. lia.
Qed.

Lemma NoDup_map_inj {A B} (f : A -> B) (l : list A) :
  (forall x y, x ∈ l -> y ∈ l -> f x = f y -> x = y) -> NoDup l -> NoDup (map f l).
Proof. intros Hf Hl. apply NoDup_fmap_2_strong; auto. Qed.

Lemma elem_map {A B} (f : A -> B) (l : list A) y : y ∈ map f l <-> exists x, y = f x /\ x ∈ l.
Proof. rewrite list_elem_of_In, in_map_iff. split; intros (x & ? & ?%list_elem_of_In); eauto. Qed.

(** Distributor addresses: distinct while every bank fits below the next,
    which the architectural maximum of 1024 interrupts guarantees. *)
Lemma dist_addrs_NoDup nr_irqs : 0 <= nr_irqs <= 1024 -> NoDup (dist_addrs nr_irqs).
Proof.
  intros Hn. unfold dist_addrs.
  assert (Hinj : forall k m lo hi, k <> 0 -> NoDup (map (fun w => (GRP_DIST_REGS, m + k * w)) (zrange lo hi))).
  { intros k m lo hi Hk. apply NoDup_map_inj; [|apply zrange_NoDup]. intros x y _ _ [= E]. nia. }
  assert (Hdiv : nr_irqs / 32 <= 32 /\ nr_irqs / 4 <= 256 /\ nr_irqs / 16 <= 64)
    by (Z.to_euclidean_division_equations; lia).
  simpl concat. rewrite app_nil_r.
  repeat first
    [ apply NoDup_app; split; [|split; [intros x Hx Hy|]]
    | apply Hinj; lia ]; try apply NoDup_singleton.
  all: repeat match goal with
    | H : _ ∈ _ ++ _ |- _ => apply elem_of_app in H
    | H : _ \/ _ |- _ => destruct H
    | H : _ ∈ map _ _ |- _ => apply elem_map in H as (? & ? & ?%zrange_In)
    | H : _ ∈ [_] |- _ => apply list_elem_of_singleton in H
    end; simplify_eq; lia.
Qed.

(** [v | off] with the vcpu number above bit 32 is an addition. *)
Lemma lor_shift32 cpu off : 0 <= off < 2 ^ 32 -> Z.lor (Z.shiftl cpu 32) off = cpu * 2 ^ 32 + off.
Proof.
  intros Ho. rewrite Z.shiftl_mul_pow2 by lia.
  assert (Hl : Z.land (cpu * 2 ^ 32) off = 0).
  { apply Z.bits_inj_iff'. intros n Hn. rewrite Z.land_spec, Z.bits_0.
    destruct (Z.ltb_spec n 32); [by rewrite Z.mul_pow2_bits_low|].
    replace (Z.testbit off n) with false; [apply andb_false_r|]. symmetry.
    destruct (decide (off = 0)) as [->|]; [apply Z.bits_0|]. apply Z.bits_above_log2; [lia|].
    assert (Z.log2 off < 32) by (apply Z.log2_lt_pow2; lia). lia. }
  pose proof (Z.add_lor_land (cpu * 2 ^ 32) off). lia.
Qed.

Lemma redist_offs_ok : NoDup redist_offs /\ Forall (fun o => 0 <= o < 2 ^ 32) redist_offs.
Proof.
  split; [refine (bool_decide_unpack _ _); vm_compute; exact I|].
  refine (bool_decide_unpack _ _). vm_compute. exact I.
Qed.
Lemma icc_regs_ok : NoDup ICC_REGS /\ Forall (fun o => 0 <= o < 2 ^ 32) ICC_REGS.
Proof.
  split; [refine (bool_decide_unpack _ _); vm_compute; exact I|].
  refine (bool_decide_unpack _ _). vm_compute. exact I.
Qed.

Lemma cpu_addrs_in cpu a : a ∈ cpu_addrs cpu ->
  exists off, 0 <= off < 2 ^ 32 /\
    ((a = (GRP_REDIST_REGS, cpu * 2 ^ 32 + off) /\ off ∈ redist_offs) \/
     (a = (GRP_CPU_SYSREGS, cpu * 2 ^ 32 + off) /\ off ∈ ICC_REGS)).
Proof.
  unfold cpu_addrs. intros [Ha|Ha]%elem_of_app; apply elem_map in Ha as (off & -> & Hin).
  - assert (Ho : 0 <= off < 2 ^ 32) by (by apply (proj1 (Forall_forall _ _) (proj2 redist_offs_ok))).
    exists off. split; [done|]. left. by rewrite lor_shift32.
  - assert (Ho : 0 <= off < 2 ^ 32) by (by apply (proj1 (Forall_forall _ _) (proj2 icc_regs_ok))).
    exists off. split; [done|]. right. by rewrite lor_shift32.
Qed.

Lemma cpu_addrs_NoDup cpu : NoDup (cpu_addrs cpu).
Proof.
  unfold cpu_addrs. apply NoDup_app. split; [|split].
  - apply NoDup_map_inj; [|apply redist_offs_ok]. intros x y Hx Hy [= E].
    pose proof (proj1 (Forall_forall _ _) (proj2 redist_offs_ok)) as Ho.
    rewrite !lor_shift32 in E by (by apply Ho). lia.
  - intros x (o & -> & _)%elem_map (o' & E & _)%elem_map. discriminate.
  - apply NoDup_map_inj; [|apply icc_regs_ok]. intros x y Hx Hy [= E].
    pose proof (proj1 (Forall_forall _ _) (proj2 icc_regs_ok)) as Ho.
    rewrite !lor_shift32 in E by (by apply Ho). lia.
Qed.

Lemma addr_list_NoDup_aux nr_irqs vcpus :
  0 <= nr_irqs <= 1024 -> NoDup (addr_list nr_irqs vcpus).
Proof.
  intros Hn. unfold addr_list. apply NoDup_app. split; [by apply dist_addrs_NoDup|].
  assert (Hcpus : forall l, NoDup l -> NoDup (concat (map cpu_addrs l)) /\
    forall a, a ∈ concat (map cpu_addrs l) -> exists cpu, cpu ∈ l /\ a ∈ cpu_addrs cpu).
  { induction 1 as [|c l Hc Hl [IH1 IH2]]; cbn [map concat].
    - split; [constructor|]. intros a Ha. by apply elem_of_nil in Ha.
    - split.
      + apply NoDup_app. split; [apply cpu_addrs_NoDup|]. split; [|done].
        intros a Ha Ha'. destruct (IH2 a Ha') as (c' & Hc' & Hac').
        apply cpu_addrs_in in Ha as (o & Ho & Ha). apply cpu_addrs_in in Hac' as (o' & Ho' & Ha'').
        assert (c = c') as -> by (destruct Ha as [[-> _]|[-> _]], Ha'' as [[E _]|[E _]]; simplify_eq; lia).
        by apply Hc.
      + intros a [Ha|Ha]%elem_of_app; [exists c; split; [left|done]|].
        destruct (IH2 a Ha) as (c' & ? & ?). exists c'. split; [by right|done]. }
  destruct (Hcpus (zrange 0 vcpus) (zrange_NoDup 0 vcpus)) as [H1 H2]. split; [|done].
  intros a Ha Ha'. destruct (H2 a Ha') as (c & _ & Hc).
  apply cpu_addrs_in in Hc as (o & _ & Hc).
  unfold dist_addrs in Ha. simpl concat in Ha. rewrite app_nil_r in Ha.
  repeat match goal with
    | H : _ ∈ _ ++ _ |- _ => apply elem_of_app in H
    | H : _ \/ _ |- _ => destruct H
    | H : _ /\ _ |- _ => destruct H
    | H : _ ∈ map _ _ |- _ => apply elem_map in H as (? & ? & ?)
    | H : a ∈ [_] |- _ => apply list_elem_of_singleton in H
    end; simplify_eq.
Qed.

(** ** Blobs *)

Section KvmGicLaws.
Context {V : Type} `{VgicLaws V}.
Implicit Types (v : V) (l : list Addr).

Lemma get_all_spec v l xs :
  get_all v l = inl xs -> length xs = length l /\
    Forall (fun x => fits 64 x) xs /\ forall i a x, l !! i = Some a -> xs !! i = Some x -> vg_get v a = Some x.
Proof.
  revert xs. induction l as [|a l IH]; intros xs; simpl.
  { intros [= <-]. split; [done|]. split; [constructor|]. intros i a x Hi. by destruct i. }
  unfold get_attr. destruct (vg_get v a) as [x|] eqn:Ea; [|done].
  destruct (get_all v l) as [ys|]; [|done]. intros [= <-].
  destruct (IH ys eq_refl) as (IH1 & IH2 & IH3). split; [simpl; lia|].
  split; [constructor; [by eapply vg_get_range|done]|].
  intros [|i] a' x' Ha' Hx'; simpl in *; [congruence|by eapply IH3].
Qed.

(** Restoring values writes each register once, when no address repeats. *)
Lemma set_all_spec v l xs :
  NoDup l -> length xs = length l -> Forall (fun x => fits 64 x) xs ->
  (forall v a x, a ∈ l -> snd (vg_set v a x) = true) ->
  (forall a, a ∉ l -> vg_get (set_all v l xs) a = vg_get v a) /\
  (forall i a x, l !! i = Some a -> xs !! i = Some x -> vg_get (set_all v l xs) a = Some x).
Proof.
  intros Hnd. revert v xs. induction Hnd as [|a l Ha Hl IH]; intros v xs Hlen Hf Hok.
  { split; [done|]. intros i a x Hi. by destruct i. }
  destruct xs as [|x xs]; [done|]. inversion Hf as [|? ? Hx0 Hf']; subst. simpl in Hlen. cbn [set_all]. unfold set_attr.
  pose proof (vg_set_same v a x Hx0 (Hok v a x ltac:(left))) as Hsame.
  pose proof (fun b => vg_set_other v a b x) as Hother.
  destruct (vg_set v a x) as [v1 ok]. simpl in *.
  destruct (IH v1 xs ltac:(lia) Hf' ltac:(intros; apply Hok; by right)) as [IH1 IH2]. split.
  - intros b Hb. apply not_elem_of_cons in Hb as [Hne Hb]. rewrite IH1 by done. by apply Hother.
  - intros [|i] b y Hb Hy; simpl in *; [simplify_eq; by rewrite IH1|by eapply IH2].
Qed.

Lemma blob_vals hdr xs :
  length hdr = 20%nat -> Forall (fun x => fits 64 x) xs ->
  map (blob_val (hdr ++ concat (map (le_bytes 8) xs))) (seq 0 (length xs)) = xs.
Proof.
  intros Hh Hx. revert hdr Hh. assert (Hgen : forall pre k, (length pre = 20 + 8 * k)%nat ->
    map (blob_val (pre ++ concat (map (le_bytes 8) xs))) (seq k (length xs)) = xs).
  { induction Hx as [|x xs Hx0 _ IH]; intros pre k Hp; [done|]. cbn [map concat length seq]. f_equal.
    - unfold blob_val, slice. replace (Z.to_nat (20 + Z.of_nat k * 8)) with (length pre) by lia.
      rewrite drop_app_length. change (Z.to_nat 8) with (length (le_bytes 8 x)).
      rewrite take_app_length. apply of_le_bytes_le_bytes_id. exact Hx0.
    - rewrite app_assoc. apply IH. rewrite length_app, length_le_bytes. lia. }
  intros hdr Hh. apply (Hgen hdr 0%nat). lia.
Qed.

Lemma length_vals xs : length (concat (map (le_bytes 8) xs)) = (8 * length xs)%nat.
Proof. induction xs as [|x xs IH]; [done|]. cbn [map concat]. rewrite length_app, length_le_bytes, IH. simpl. lia. Qed.

(** The blob restores exactly when it was made for the same shape. *)
Lemma restore_of_capture v w nr_irqs vcpus blob xs :
  fits 32 nr_irqs -> fits 32 vcpus -> zlen (addr_list nr_irqs vcpus) < 2 ^ 32 ->
  get_all v (addr_list nr_irqs vcpus) = inl xs -> kgic_capture v nr_irqs vcpus = inl blob ->
  kgic_restore w nr_irqs vcpus blob = inl (set_all w (addr_list nr_irqs vcpus) xs).
Proof.
  intros Hn Hv Hl Hx. unfold kgic_capture. rewrite Hx. intros Hcap.
  destruct (get_all_spec v _ xs Hx) as (Hlen & Hf & _).
  set (addrs := addr_list nr_irqs vcpus) in *. pose proof (zlen_nonneg addrs).
  rewrite !u32_id in Hcap by lia.
  set (hdr := GIC_MAGIC ++ le_bytes 4 1 ++ le_bytes 4 nr_irqs ++ le_bytes 4 vcpus ++ le_bytes 4 (zlen addrs)).
  set (body := concat (map (le_bytes 8) xs)) in *.
  assert (E : blob = hdr ++ body).
  { transitivity (GIC_MAGIC ++ le_bytes 4 1 ++ le_bytes 4 nr_irqs ++ le_bytes 4 vcpus ++
      le_bytes 4 (zlen addrs) ++ body); [by injection Hcap|]. unfold hdr. by rewrite <- !app_assoc. }
  rewrite E. clear Hcap E.
  assert (Hzl : zlen (hdr ++ body) = 20 + 8 * zlen addrs).
  { rewrite zlen_app. change (zlen hdr) with 20. unfold body, zlen. rewrite length_vals, Hlen. lia. }
  unfold kgic_restore. rewrite Hzl.
  destruct (Z.ltb_spec (20 + 8 * zlen addrs) 20); [lia|].
  assert (Hm : slice 0 4 (hdr ++ body) = GIC_MAGIC) by reflexivity.
  assert (H8 : of_le_bytes (slice 8 4 (hdr ++ body)) = nr_irqs)
    by (change (of_le_bytes (le_bytes 4 nr_irqs) = nr_irqs); by apply of_le_bytes_le_bytes_id).
  assert (H12 : of_le_bytes (slice 12 4 (hdr ++ body)) = vcpus)
    by (change (of_le_bytes (le_bytes 4 vcpus) = vcpus); by apply of_le_bytes_le_bytes_id).
  assert (H16 : of_le_bytes (slice 16 4 (hdr ++ body)) = zlen addrs)
    by (change (of_le_bytes (le_bytes 4 (zlen addrs)) = zlen addrs); apply of_le_bytes_le_bytes_id; lia).
  rewrite Hm, bool_decide_true by done. cbv zeta. rewrite H8, H12, H16, !Z.eqb_refl. cbn [orb negb].
  destruct (Z.ltb_spec (20 + 8 * zlen addrs) (20 + zlen addrs * 8)); [lia|].
  fold addrs. rewrite <- Hlen. unfold body. by rewrite blob_vals.
Qed.

(** ** Properties *)

(** the address list names every register once, for any interrupt count
    up to the architectural 1024 and any number of vcpus: no value of the
    blob is overwritten by another. *)
Theorem addr_list_distinct (nr_irqs vcpus : Z) :
  0 <= nr_irqs <= 1024 -> NoDup (addr_list nr_irqs vcpus).
Proof. apply addr_list_NoDup_aux. Qed.

(** vGIC save and restore: whenever the registers can be read, restoring
    the captured blob into a controller that accepts the writes makes every
    captured register read as it did, and leaves every other one alone. *)
Theorem kgic_roundtrip v w (nr_irqs vcpus : Z) (blob : list Z) :
  0 <= nr_irqs <= 1024 -> fits 32 vcpus -> zlen (addr_list nr_irqs vcpus) < 2 ^ 32 ->
  kgic_capture v nr_irqs vcpus = inl blob ->
  (forall u a x, a ∈ addr_list nr_irqs vcpus -> snd (vg_set u a x) = true) ->
  exists w', kgic_restore w nr_irqs vcpus blob = inl w' /\
    (forall a, a ∈ addr_list nr_irqs vcpus -> vg_get w' a = vg_get v a) /\
    (forall a, a ∉ addr_list nr_irqs vcpus -> vg_get w' a = vg_get w a).
Proof.
  intros Hn Hv Hl Hcap Hok. pose proof Hcap as Hx. unfold kgic_capture in Hx.
  destruct (get_all v (addr_list nr_irqs vcpus)) as [xs|] eqn:Hg; [|done]. clear Hx.
  exists (set_all w (addr_list nr_irqs vcpus) xs).
  split; [eapply restore_of_capture; [lia|lia|exact Hl|exact Hg|exact Hcap]|].
  destruct (get_all_spec v _ xs Hg) as (Hlen & Hf & Hget).
  destruct (set_all_spec w (addr_list nr_irqs vcpus) xs (addr_list_NoDup_aux _ _ Hn) Hlen Hf Hok) as [H1 H2].
  split; [|exact H1]. intros a [i Hi]%list_elem_of_lookup_1.
  assert (Hlt : (i < length xs)%nat) by (rewrite Hlen; by eapply lookup_lt_Some).
  apply lookup_lt_is_Some_2 in Hlt as [x Hxi]. rewrite (H2 i a x Hi Hxi). symmetry. by eapply Hget.
Qed.

(** a blob of the wrong magic, shape, register count or length is
    refused: a restore that is carried out was given a blob that passes all
    five checks. *)
Theorem kgic_restore_checks v (nr_irqs vcpus : Z) (blob : list Z) w :
  kgic_restore v nr_irqs vcpus blob = inl w ->
  20 <= zlen blob /\ slice 0 4 blob = GIC_MAGIC /\
  of_le_bytes (slice 8 4 blob) = nr_irqs /\ of_le_bytes (slice 12 4 blob) = vcpus /\
  of_le_bytes (slice 16 4 blob) = zlen (addr_list nr_irqs vcpus) /\
  20 + 8 * zlen (addr_list nr_irqs vcpus) <= zlen blob.
Proof.
  unfold kgic_restore. destruct (Z.ltb_spec (zlen blob) 20); [done|].
  destruct (bool_decide _) eqn:Hm; [|done]. apply bool_decide_eq_true in Hm. simpl orb. cbv iota zeta.
  destruct (Z.eqb_spec (of_le_bytes (slice 8 4 blob)) nr_irqs); [|done].
  destruct (Z.eqb_spec (of_le_bytes (slice 12 4 blob)) vcpus); [|done].
  simpl negb. simpl orb. cbv iota.
  destruct (Z.eqb_spec (of_le_bytes (slice 16 4 blob)) (zlen (addr_list nr_irqs vcpus))) as [Hc|]; [|done].
  simpl. destruct (Z.ltb_spec (zlen blob) (20 + of_le_bytes (slice 16 4 blob) * 8)); [done|].
  intros _. split; [done|]. split; [done|]. split; [done|]. split; [done|]. split; [done|]. lia.
Qed.
End KvmGicLaws.

(** ** A register file, and witnesses *)

(** Registers that hold any 64-bit value; unwritten ones read 0. *)
#[export] Instance map_vgic : Vgic (gmap Addr Z) := {|
  vg_get m a := Some (u64 (default 0 (m !! a)));
  vg_set m a x := (<[a := x]> m, true)
|}.
#[export] Instance map_vgic_laws : VgicLaws (gmap Addr Z).
Proof.
  split.
  - intros v a x. simpl. intros [= <-]. apply u64_range.
  - intros v a x Hx _. simpl. rewrite lookup_insert_eq. simpl. by rewrite u64_id.
  - intros v a b x Hab. simpl. by rewrite lookup_insert_ne.
  - intros v a x. simpl. done.
Qed.

Lemma addr_list_distinct_witness : NoDup (addr_list 64 2).
Proof. apply (addr_list_distinct 64 2). lia. Defined.

(** Two vcpus, 64 interrupts, ISENABLER1 set to 5. *)
Definition demo_vgic : gmap Addr Z := {[ (GRP_DIST_REGS, 0x104) := 5 ]}.

Lemma kgic_roundtrip_witness :
  exists blob w', kgic_capture demo_vgic 64 2 = inl blob /\
    kgic_restore (∅ : gmap Addr Z) 64 2 blob = inl w' /\ vg_get w' (GRP_DIST_REGS, 0x104) = Some 5.
Proof.
  assert (Hc : exists blob, kgic_capture demo_vgic 64 2 = inl blob) by (eexists; vm_compute; reflexivity).
  destruct Hc as [blob Hc]. exists blob.
  destruct (kgic_roundtrip demo_vgic (∅ : gmap Addr Z) 64 2 blob ltac:(lia) ltac:(lia)
    ltac:(vm_compute; reflexivity) Hc ltac:(done)) as (w' & Hr & Hin & _).
  exists w'. split; [exact Hc|]. split; [exact Hr|].
  rewrite (Hin (GRP_DIST_REGS, 0x104)); [vm_compute; reflexivity|].
  refine (bool_decide_unpack _ _). vm_compute. exact I.
Defined.

Lemma kgic_restore_checks_witness :
  exists blob, kgic_capture demo_vgic 64 2 = inl blob /\ slice 0 4 blob = GIC_MAGIC.
Proof.
  eexists. split; [vm_compute; reflexivity|].
  apply (kgic_restore_checks (∅ : gmap Addr Z) 64 2 _
    (set_all ∅ (addr_list 64 2) (map (blob_val (default [] (match kgic_capture demo_vgic 64 2 with inl b => Some b | inr _ => None end)))
      (seq 0 (length (addr_list 64 2)))))).
  vm_compute. reflexivity.
Defined.
