(* ===== verification/Machine.v ===== *)
(** * Machine: loading a guest and routing its device accesses
    (crates/amber-core/src/{lib,loader,hypervisor,vm}.rs)

    The address map, the arm64 image loader, the data-abort decoder both
    backends share, the device set of a VM ([prepare], [restore_from]) and the
    MMIO dispatcher. A VM's devices are one sum type with the instances of the
    component files; calls into the hypervisor are recorded as effects. *)

From S2P Require Import Prelude Memory Virtqueue VirtioMmio Devices Net Vsock Pl011.

(** ** Address map ([layout] and [control] in lib.rs) *)

Module layout.
Definition RAM_BASE : Z := 0x40000000.
Definition KERNEL_OFFSET : Z := 0x00200000.
Definition DTB_OFFSET : Z := 0x00100000.
Definition GIC_DIST_BASE : Z := 0x08000000.
Definition GIC_DIST_SIZE : Z := 0x00010000.
Definition GIC_CPU_BASE : Z := 0x08010000.
Definition GIC_CPU_SIZE : Z := 0x00010000.
Definition PL011_BASE : Z := 0x09000000.
Definition PL011_SIZE : Z := 0x00001000.
Definition GIC_SPI_BASE : Z := 32.
Definition PL011_SPI : Z := 1.
Definition VIRTIO_MMIO_BASE : Z := 0x0c000000.
Definition VIRTIO_MMIO_STRIDE : Z := 0x00000200.
Definition VIRTIO_SPI_BASE : Z := 2.
End layout.

Module control.
Definition BALLOON : Z := 1.
Definition PAUSE : Z := 2.
Definition RESUME : Z := 3.
End control.

(** ** Loader *)

Definition ARM64_MAGIC : Z := 0x644d5241.

(** [load_kernel]: the RAM with the image placed, and the entry point. *)
Definition load_kernel (mem : GuestRam) (image : list Z) : Result (GuestRam * Z) :=
  if zlen image <? 64 then inr ELoader
  else if negb (of_le_bytes (slice 0x38 4 image) =? ARM64_MAGIC) then inr ELoader
  else
    let text_offset := of_le_bytes (slice 0x08 8 image) in
    let load_off := if text_offset =? 0 then layout.KERNEL_OFFSET else text_offset in
    let entry := wadd64 (ram_base mem) load_off in
    match GuestMemory_write mem entry image with
    | inl mem' => inl (mem', entry)
    | inr e => inr e
    end.

Definition load_initramfs (mem : GuestRam) (initrd : option (list Z))
    : Result (GuestRam * option (Z * Z)) :=
  match initrd with
  | None => inl (mem, None)
  | Some data =>
      let start := ram_base mem + (ram_len mem / 4) * 3 in
      let start := Z.ldiff (start + 0xfff) 0xfff in
      match GuestMemory_write mem start data with
      | inl mem' => inl (mem', Some (start, start + zlen data))
      | inr e => inr e
      end
  end.

(** ** Data aborts *)

Record MmioAccess := mkAccess { ac_ipa : Z; ac_size : Z; ac_write : option Z }.

Definition decode_data_abort (esr ipa : Z) (get_x : Z -> Z) : option (MmioAccess * Z) :=
  let ec := Z.land (Z.shiftr esr 26) 0x3f in
  if negb (ec =? 0x24) then None
  else
    let iss := Z.land esr 0x1ffffff in
    let isv := Z.land (Z.shiftr iss 24) 1 in
    if isv =? 0 then None
    else
      let sas := Z.land (Z.shiftr iss 22) 3 in
      let size := u8 (Z.shiftl 1 sas) in
      let srt := u8 (Z.land (Z.shiftr iss 16) 0x1f) in
      let wnr := Z.land (Z.shiftr iss 6) 1 in
      let write := if wnr =? 1 then Some (get_x srt) else None in
      Some (mkAccess ipa size write, srt).

(** Bits [lo, lo+n) of a register. *)
Definition field (x lo n : Z) : Z := (x / 2 ^ lo) mod 2 ^ n.

(** ** Devices of a VM *)

Section Machine.
Context {F : Type} `{DiskFileLaws F} {L : Type} `{RateLimiter L}.
Context {E : Type} `{EntropyLaws E}.
Context {B : Type} `{NetBackendLaws B}.
Context {VB VS : Type} `{HostStreamLaws VS} `{!VsockBackend VB VS} `{!VsockBackendLaws VB VS}.
Context `{HostMadvise}.

(** [Box<dyn VirtioDevice>]. *)
Inductive AnyDev :=
| DBlk (d : BlkDevice F L)
| DRng (d : RngDevice E)
| DNet (d : NetDevice B L)
| DVsock (d : VsockDevice VB VS)
| DBalloon (d : BalloonDevice).

Definition any_handle (x : AnyDev) (q : Z) (r : GuestRam) (bufs : list Buf) : AnyDev * GuestRam * Z :=
  match x with
  | DBlk d => let '(d', r', n) := handle d q r bufs in (DBlk d', r', n)
  | DRng d => let '(d', r', n) := handle d q r bufs in (DRng d', r', n)
  | DNet d => let '(d', r', n) := handle d q r bufs in (DNet d', r', n)
  | DVsock d => let '(d', r', n) := handle d q r bufs in (DVsock d', r', n)
  | DBalloon d => let '(d', r', n) := handle d q r bufs in (DBalloon d', r', n)
  end.

Definition any_poll_rx (x : AnyDev) (cap : Z) : AnyDev * option (list Z) :=
  match x with
  | DBlk d => let '(d', o) := poll_rx d cap in (DBlk d', o)
  | DRng d => let '(d', o) := poll_rx d cap in (DRng d', o)
  | DNet d => let '(d', o) := poll_rx d cap in (DNet d', o)
  | DVsock d => let '(d', o) := poll_rx d cap in (DVsock d', o)
  | DBalloon d => let '(d', o) := poll_rx d cap in (DBalloon d', o)
  end.

Definition any_take_throttle (x : AnyDev) : AnyDev * option Z :=
  match x with
  | DBlk d => let '(d', o) := take_throttle d in (DBlk d', o)
  | DRng d => let '(d', o) := take_throttle d in (DRng d', o)
  | DNet d => let '(d', o) := take_throttle d in (DNet d', o)
  | DVsock d => let '(d', o) := take_throttle d in (DVsock d', o)
  | DBalloon d => let '(d', o) := take_throttle d in (DBalloon d', o)
  end.

#[export] Instance Any_device : VirtioDevice AnyDev := {|
  device_id x := match x with DBlk d => device_id d | DRng d => device_id d | DNet d => device_id d
    | DVsock d => device_id d | DBalloon d => device_id d end;
  device_features x := match x with DBlk d => device_features d | DRng d => device_features d
    | DNet d => device_features d | DVsock d => device_features d | DBalloon d => device_features d end;
  dev_config x := match x with DBlk d => dev_config d | DRng d => dev_config d | DNet d => dev_config d
    | DVsock d => dev_config d | DBalloon d => dev_config d end;
  num_queues x := match x with DBlk d => num_queues d | DRng d => num_queues d | DNet d => num_queues d
    | DVsock d => num_queues d | DBalloon d => num_queues d end;
  config_changed x := match x with DBlk d => config_changed d | DRng d => config_changed d
    | DNet d => config_changed d | DVsock d => config_changed d | DBalloon d => config_changed d end;
  ack_config x := match x with DBlk d => DBlk (ack_config d) | DRng d => DRng (ack_config d)
    | DNet d => DNet (ack_config d) | DVsock d => DVsock (ack_config d) | DBalloon d => DBalloon (ack_config d) end;
  handle := any_handle;
  rx_queue x := match x with DBlk d => rx_queue d | DRng d => rx_queue d | DNet d => rx_queue d
    | DVsock d => rx_queue d | DBalloon d => rx_queue d end;
  event_queue x := match x with DBlk d => event_queue d | DRng d => event_queue d | DNet d => event_queue d
    | DVsock d => event_queue d | DBalloon d => event_queue d end;
  poll_rx := any_poll_rx;
  wants_poll x := match x with DBlk d => wants_poll d | DRng d => wants_poll d | DNet d => wants_poll d
    | DVsock d => wants_poll d | DBalloon d => wants_poll d end;
  take_throttle := any_take_throttle
|}.

(** Every device law carries over to the sum. *)
#[export, refine] Instance Any_laws : VirtioDeviceLaws AnyDev := {|
  dev_wf x := match x with DBlk d => dev_wf d | DRng d => dev_wf d | DNet d => dev_wf d
    | DVsock d => dev_wf d | DBalloon d => dev_wf d end;
  dev_touch x := match x with DBlk d => dev_touch d | DRng d => dev_touch d | DNet d => dev_touch d
    | DVsock d => dev_touch d | DBalloon d => dev_touch d end
|}.
Proof.
  - intros [d|d|d|d|d] q r bufs Hd Hr Hok Hq; cbn [handle Any_device any_handle];
      pose proof (handle_ok d q r bufs Hd Hr Hok Hq) as Hh;
      destruct (handle d q r bufs) as [[d' r'] n]; exact Hh.
  - intros [d|d|d|d|d] cap Hd; cbn [poll_rx Any_device any_poll_rx];
      pose proof (poll_rx_ok d cap Hd) as Hh; destruct (poll_rx d cap) as [d' o]; exact Hh.
  - intros [d|d|d|d|d] Hd; exact (ack_config_ok d Hd).
  - intros [d|d|d|d|d] Hd; cbn [take_throttle Any_device any_take_throttle];
      pose proof (take_throttle_ok d Hd) as Hh; destruct (take_throttle d) as [d' o]; exact Hh.
  - intros [d|d|d|d|d] sel; exact (features_range d sel).
  - intros [d|d|d|d|d] off Hd; exact (config_range d off Hd).
  - intros [d|d|d|d|d] Hd; exact (device_id_range d Hd).
  - intros [d|d|d|d|d] q r bufs; cbn [handle Any_device any_handle rx_queue];
      pose proof (rx_queue_stable d q r bufs) as Hh; destruct (handle d q r bufs) as [[d' r'] n]; exact Hh.
  - intros [d|d|d|d|d] q r bufs; cbn [handle Any_device any_handle event_queue];
      pose proof (event_queue_stable d q r bufs) as Hh; destruct (handle d q r bufs) as [[d' r'] n]; exact Hh.
Defined.

(** A device in its window. *)
Record VirtioDev := mkDev { vd_base : Z; vd_size : Z; vd_intid : Z; vd_mmio : VirtioMmio AnyDev }.

Definition VirtioDev_new (index : nat) (dev : AnyDev) : VirtioDev :=
  mkDev (layout.VIRTIO_MMIO_BASE + Z.of_nat index * layout.VIRTIO_MMIO_STRIDE)
    layout.VIRTIO_MMIO_STRIDE
    (layout.GIC_SPI_BASE + layout.VIRTIO_SPI_BASE + Z.of_nat index)
    (VirtioMmio_new dev).

Definition vd_contains (d : VirtioDev) (ipa : Z) : bool :=
  (vd_base d <=? ipa) && (ipa <? vd_base d + vd_size d).

(** [virtio.push(VirtioDev::new(virtio.len(), dev))]. *)
Definition push_dev (virtio : list VirtioDev) (dev : AnyDev) : list VirtioDev :=
  virtio ++ [VirtioDev_new (length virtio) dev].

(** [push_balloon]: the device list and the balloon's INTID. *)
Definition push_balloon (virtio : list VirtioDev) : list VirtioDev * Z :=
  (push_dev virtio (DBalloon (mkBalloon 0 false)),
   layout.GIC_SPI_BASE + layout.VIRTIO_SPI_BASE + Z.of_nat (length virtio)).

(** What [prepare] asks the host for: opening a disk image, the entropy
    source, and binding the vsock socket. *)
Record Host := mkHost {
  open_disk : string -> bool -> Result (BlkDevice F L);
  open_rng : Result (RngDevice E);
  bind_vsock : string -> option VB;
  net_limit : option L;
  mmap_ok : bool
}.

Record VmConfig := mkConfig {
  cfg_mem_size : Z;
  cfg_vcpus : Z;
  cfg_kernel : list Z;
  cfg_initrd : option (list Z);
  cfg_disk : option string;
  cfg_data_disks : list (string * bool);
  cfg_vsock : option string
}.

Record Vm := mkVm {
  vm_mem : GuestRam;
  vm_vcpus : Z;
  vm_pl011 : Pl011;
  vm_virtio : list VirtioDev;
  vm_balloon_intid : Z;
  vm_entry : Z;
  vm_dtb_addr : Z;
  vm_initrd : option (Z * Z)
}.

Definition clamp (x lo hi : Z) : Z := Z.max lo (Z.min x hi).

(** [?] on a [Result]. *)
Definition bindR {A C} (x : Result A) (f : A -> Result C) : Result C :=
  match x with inl a => f a | inr e => inr e end.

Definition push_disk (h : Host) (virtio : list VirtioDev) (path : string) (writable : bool)
    : Result (list VirtioDev) :=
  bindR (open_disk h path writable) (fun d => inl (push_dev virtio (DBlk d))).

Fixpoint push_data_disks (h : Host) (virtio : list VirtioDev) (disks : list (string * bool))
    : Result (list VirtioDev) :=
  match disks with
  | [] => inl virtio
  | (path, writable) :: l => bindR (push_disk h virtio path writable) (fun v => push_data_disks h v l)
  end.

Definition push_vsock_opt (h : Host) (virtio : list VirtioDev) (path : option string) : list VirtioDev :=
  match path with
  | Some p =>
      match bind_vsock h p with
      | Some b => push_dev virtio (DVsock (VsockDevice_new 3 b))
      | None => virtio
      end
  | None => virtio
  end.

Definition prepare (h : Host) (cfg : VmConfig) (net : option B) : Result Vm :=
  bindR (GuestMemory_try_new (mmap_ok h) layout.RAM_BASE (cfg_mem_size cfg)) (fun mem =>
  bindR (load_kernel mem (cfg_kernel cfg)) (fun '(mem, entry) =>
  bindR (load_initramfs mem (cfg_initrd cfg)) (fun '(mem, initrd) =>
  let dtb_addr := ram_base mem + layout.DTB_OFFSET in
  bindR (match cfg_disk cfg with Some p => push_disk h [] p false | None => inl [] end) (fun virtio =>
  bindR (push_data_disks h virtio (cfg_data_disks cfg)) (fun virtio =>
  bindR (open_rng h) (fun rng =>
  let virtio := push_dev virtio (DRng rng) in
  let virtio := match net with
    | Some b => push_dev virtio (DNet (NetDevice_new b (net_limit h) (net_limit h)))
    | None => virtio end in
  let virtio := push_vsock_opt h virtio (cfg_vsock cfg) in
  let '(virtio, intid) := push_balloon virtio in
  inl (mkVm mem (clamp (cfg_vcpus cfg) 1 8) Pl011_new virtio intid entry dtb_addr initrd))))))).

(** The parts of a loaded snapshot ([Loaded] in snapshot.rs) the device set
    is rebuilt from. *)
Record Loaded := mkLoaded {
  ld_mem_base : Z;
  ld_mem_file : option (list Z);
  ld_vcpus : Z;
  ld_disk : option string;
  ld_net : bool;
  ld_vsock : bool;
  ld_virtio : list VirtioDevState
}.

Definition restore_from (h : Host) (loaded : Loaded) (net : option B) (vsock : option string) : Result Vm :=
  bindR (from_snapshot_cow (ld_mem_file loaded) (mmap_ok h) (ld_mem_base loaded)) (fun mem =>
  bindR (match ld_disk loaded with Some p => push_disk h [] p false | None => inl [] end) (fun virtio =>
  bindR (open_rng h) (fun rng =>
  let virtio := push_dev virtio (DRng rng) in
  bindR (if ld_net loaded then
           match net with
           | Some b => inl (push_dev virtio (DNet (NetDevice_new b (net_limit h) (net_limit h))))
           | None => inr ESnapshot
           end
         else inl virtio) (fun virtio =>
  bindR (if ld_vsock loaded then
           match vsock with
           | None => inr ESnapshot
           | Some p =>
               match bind_vsock h p with
               | Some b => inl (push_dev virtio (DVsock (VsockDevice_new 3 b)))
               | None => inr ESnapshot
               end
           end
         else inl virtio) (fun virtio =>
  let '(virtio, intid) := push_balloon virtio in
  if negb (length virtio =? length (ld_virtio loaded))%nat then inr ESnapshot
  else inl (mkVm mem (clamp (ld_vcpus loaded) 1 8) Pl011_new virtio intid 0 0 None)))))).

(** ** MMIO dispatch *)

(** What one MMIO exit does to the world outside: the value handed back for
    a read, the interrupt line driven, the nanoseconds slept off-lock. *)
Record MmioEffect := mkEffect { ef_read : option Z; ef_irq : option (Z * bool); ef_sleep : option Z }.

Definition mmio_access (m : VirtioMmio AnyDev) (r : GuestRam) (off : Z) (write : option Z)
    : VirtioMmio AnyDev * GuestRam * option Z :=
  match write with
  | Some value => let '(m', r') := mmio_write m r off value in (m', r', None)
  | None => (m, r, Some (mmio_read m off))
  end.

Definition dispatch_mmio (pl011_intid : Z) (access : MmioAccess) (uart : Pl011)
    (virtio : list VirtioDev) (r : GuestRam)
    : Pl011 * list VirtioDev * GuestRam * MmioEffect :=
  let ipa := ac_ipa access in
  if (layout.PL011_BASE <=? ipa) && (ipa <? layout.PL011_BASE + layout.PL011_SIZE) then
    let off := ipa - layout.PL011_BASE in
    let '(uart', v) :=
      match ac_write access with
      | Some value => (uart_write uart off value, None)
      | None => let '(u, v) := uart_read uart off in (u, Some v)
      end in
    (uart', virtio, r, mkEffect v (Some (pl011_intid, uart_irq_level uart')) None)
  else
    match list_find (fun d => vd_contains d ipa = true) virtio with
    | Some (i, d) =>
        let off := ipa - vd_base d in
        let '(m, r', v) := mmio_access (vd_mmio d) r off (ac_write access) in
        let level := irq_level m in
        let '(dev, throttle) := take_throttle (mm_dev m) in
        let d' := mkDev (vd_base d) (vd_size d) (vd_intid d) (set_dev m dev) in
        (uart, <[i := d']> virtio, r', mkEffect v (Some (vd_intid d, level)) throttle)
    | None =>
        (uart, virtio, r,
         mkEffect (match ac_write access with Some _ => None | None => Some 0 end) None None)
    end.


(** ** The other things that happen between two exits *)

(** The receive pump of the vcpu loop: every device in turn, with the
    interrupt line driven for the ones that delivered. *)
Fixpoint pump_all (fuel : nat) (virtio : list VirtioDev) (r : GuestRam)
    : option (list VirtioDev * GuestRam * list (Z * bool)) :=
  match virtio with
  | [] => Some ([], r, [])
  | d :: l =>
      match pump_rx fuel (vd_mmio d) r with
      | None => None
      | Some (m, r1, any) =>
          match pump_all fuel l r1 with
          | None => None
          | Some (l', r2, irqs) =>
              Some (mkDev (vd_base d) (vd_size d) (vd_intid d) m :: l', r2,
                    (if any then [(vd_intid d, irq_level m)] else []) ++ irqs)
          end
      end
  end.

(** A balloon frame on the control channel: the handle shared with the
    balloon device, then its interrupt. *)
Definition set_balloon (mib : Z) (d : VirtioDev) : VirtioDev :=
  match mm_dev (vd_mmio d) with
  | DBalloon b => mkDev (vd_base d) (vd_size d) (vd_intid d)
                    (set_dev (vd_mmio d) (DBalloon (set_target b mib)))
  | _ => d
  end.

Definition control_balloon (balloon_intid mib : Z) (virtio : list VirtioDev)
    : list VirtioDev * (Z * bool) :=
  (map (set_balloon mib) virtio, (balloon_intid, true)).

(** [for d in &mut virtio { d.mmio.attach(mem.ram()) }]. *)
Definition attach_all (virtio : list VirtioDev) : list VirtioDev :=
  map (fun d => mkDev (vd_base d) (vd_size d) (vd_intid d) (attach (vd_mmio d))) virtio.

(** [virtio.iter_mut().zip(&loaded.dev.virtio)]. *)
Fixpoint restore_states (virtio : list VirtioDev) (states : list VirtioDevState) : list VirtioDev :=
  match virtio, states with
  | d :: virtio', s :: states' =>
      mkDev (vd_base d) (vd_size d) (vd_intid d) (restore (vd_mmio d) s) :: restore_states virtio' states'
  | _, _ => virtio
  end.

(** What the snapshot point of the vcpu loop records of the device set. *)
Definition capture_states (virtio : list VirtioDev) : list VirtioDevState :=
  map (fun d => capture (vd_mmio d)) virtio.
Definition has_device (id : Z) (virtio : list VirtioDev) : bool :=
  existsb (fun d => device_id (mm_dev (vd_mmio d)) =? id) virtio.

Definition snapshot_of (mem : GuestRam) (vcpus : Z) (disk : option string) (virtio : list VirtioDev) : Loaded :=
  mkLoaded (ram_base mem) (Some (ram_bytes mem)) vcpus disk (has_device 1 virtio) (has_device 19 virtio)
    (capture_states virtio).

(** Steps of the device model between and during exits: an exit of any
    vcpu, the pump, console input, a balloon frame, and the guest running. *)
Definition MachineState : Type := Pl011 * list VirtioDev * GuestRam.

Inductive machine_step : MachineState -> MachineState -> Prop :=
| step_dispatch intid access uart virtio r :
    machine_step (uart, virtio, r) (fst (dispatch_mmio intid access uart virtio r))
| step_pump_all fuel uart virtio r virtio' r' irqs :
    pump_all fuel virtio r = Some (virtio', r', irqs) ->
    machine_step (uart, virtio, r) (uart, virtio', r')
| step_console bs uart virtio r : machine_step (uart, virtio, r) (foldl push_rx uart bs, virtio, r)
| step_balloon intid mib uart virtio r :
    machine_step (uart, virtio, r) (uart, fst (control_balloon intid mib virtio), r)
| step_vcpu uart virtio r r' : ram_wf r' -> same_region r r' -> machine_step (uart, virtio, r) (uart, virtio, r').


(** ** Placement *)

(** Device [i] of the list sits in window [i] with interrupt [34 + i]. *)
Definition placed (virtio : list VirtioDev) : Prop :=
  forall i d, virtio !! i = Some d ->
    vd_base d = layout.VIRTIO_MMIO_BASE + Z.of_nat i * layout.VIRTIO_MMIO_STRIDE /\
    vd_size d = layout.VIRTIO_MMIO_STRIDE /\
    vd_intid d = layout.GIC_SPI_BASE + layout.VIRTIO_SPI_BASE + Z.of_nat i.

Lemma placed_nil : placed [].
Proof. intros i d Hi. by destruct i. Qed.

Lemma placed_push virtio dev : placed virtio -> placed (push_dev virtio dev).
Proof.
  intros Hp i d Hi. unfold push_dev in Hi. apply lookup_app_Some in Hi as [Hi|[Hge Hi]]; [by apply Hp|].
  apply list_lookup_singleton_Some in Hi as [Hz <-]. simpl.
  assert (i = length virtio) as -> by lia. done.
Qed.

Lemma contains_iff d i ipa :
  vd_base d = layout.VIRTIO_MMIO_BASE + Z.of_nat i * layout.VIRTIO_MMIO_STRIDE ->
  vd_size d = layout.VIRTIO_MMIO_STRIDE ->
  vd_contains d ipa = true <->
    layout.VIRTIO_MMIO_BASE + Z.of_nat i * layout.VIRTIO_MMIO_STRIDE <= ipa <
    layout.VIRTIO_MMIO_BASE + (Z.of_nat i + 1) * layout.VIRTIO_MMIO_STRIDE.
Proof.
  intros Hb Hs. unfold vd_contains. rewrite Hb, Hs, andb_true_iff, Z.leb_le, Z.ltb_lt.
  unfold layout.VIRTIO_MMIO_STRIDE. lia.
Qed.

(** At most one window holds an address. *)
Lemma contains_unique virtio i j d e ipa :
  placed virtio -> virtio !! i = Some d -> virtio !! j = Some e ->
  vd_contains d ipa = true -> vd_contains e ipa = true -> i = j.
Proof.
  intros Hp Hi Hj Hd He. destruct (Hp i d Hi) as (B1 & S1 & _). destruct (Hp j e Hj) as (B2 & S2 & _).
  apply (contains_iff d i ipa B1 S1) in Hd. apply (contains_iff e j ipa B2 S2) in He.
  unfold layout.VIRTIO_MMIO_STRIDE in *. lia.
Qed.

Lemma find_window virtio i d ipa :
  placed virtio -> virtio !! i = Some d -> vd_contains d ipa = true ->
  list_find (fun d => vd_contains d ipa = true) virtio = Some (i, d).
Proof.
  intros Hp Hi Hd. apply list_find_Some. split; [done|]. split; [done|].
  intros j e Hj Hlt He. assert (j = i) by (by eapply contains_unique). lia.
Qed.

(** ** The device set *)

(** The kinds of a device list, in order. *)
Inductive Kind := KBlk (writable : bool) | KRng | KNet | KVsock | KBalloon.
Definition kind_of (x : AnyDev) : Kind :=
  match x with
  | DBlk d => KBlk (blk_writable d) | DRng _ => KRng | DNet _ => KNet | DVsock _ => KVsock | DBalloon _ => KBalloon
  end.
Definition kinds (virtio : list VirtioDev) : list Kind := map (fun d => kind_of (mm_dev (vd_mmio d))) virtio.

Lemma kinds_push virtio dev : kinds (push_dev virtio dev) = kinds virtio ++ [kind_of dev].
Proof. unfold kinds, push_dev. rewrite map_app. done. Qed.

Lemma length_kinds virtio : length (kinds virtio) = length virtio.
Proof. apply length_map. Qed.

(** The host opens a disk with the access it was asked for. *)
Definition host_ok (h : Host) : Prop :=
  forall p w d, open_disk h p w = inl d -> blk_writable d = w /\ fits 64 (capacity_sectors d).

Definition kind_queues (k : Kind) : nat :=
  match k with KBlk _ => 1 | KRng => 1 | KNet => 2 | KVsock => 3 | KBalloon => 3 end.
Definition kind_id (k : Kind) : Z :=
  match k with KBlk _ => 2 | KRng => 4 | KNet => 1 | KVsock => 19 | KBalloon => 5 end.

Lemma num_queues_kind x : num_queues x = Z.of_nat (kind_queues (kind_of x)).
Proof. by destruct x. Qed.
Lemma device_id_kind x : device_id x = kind_id (kind_of x).
Proof. by destruct x. Qed.

(** A device list as it is wired: placed, and every transport well formed
    with the queues of its kind. *)
Definition slot_wf (d : VirtioDev) : Prop := mmio_wf (vd_mmio d).
Definition shaped (d : VirtioDev) : Prop :=
  length (mm_queues (vd_mmio d)) = kind_queues (kind_of (mm_dev (vd_mmio d))).
Definition sound (virtio : list VirtioDev) : Prop :=
  placed virtio /\ Forall slot_wf virtio /\ Forall shaped virtio.

Lemma sound_nil : sound [].
Proof. split; [apply placed_nil|done]. Qed.

Lemma sound_push virtio dev : dev_wf dev -> sound virtio -> sound (push_dev virtio dev).
Proof.
  intros Hd (Hp & Hw & Hs). split; [by apply placed_push|]. unfold push_dev.
  split; (apply Forall_app_2; [done|]; constructor; [|done]); [by apply new_wf|].
  unfold shaped. cbn [VirtioDev_new VirtioMmio_new vd_mmio mm_queues mm_dev].
  rewrite length_replicate, num_queues_kind. destruct (kind_of dev); reflexivity.
Qed.

Lemma net_dev_wf b tx rx : dev_wf (DNet (NetDevice_new b tx rx)).
Proof. split; [apply nb_mac_wf|done]. Qed.
Lemma vsock_dev_wf b : dev_wf (DVsock (VsockDevice_new 3 b)).
Proof. split; simpl; try done; unfold EPHEMERAL_BASE; lia. Qed.
Lemma balloon_dev_wf : dev_wf (DBalloon (mkBalloon 0 false)).
Proof. simpl. lia. Qed.

Definition vsock_kinds (present : bool) : list Kind := if present then [KVsock] else [].
Definition net_kinds (present : bool) : list Kind := if present then [KNet] else [].
Definition opt_some {A} (o : option A) : bool := match o with Some _ => true | None => false end.

Lemma push_disk_ok h virtio path w v :
  host_ok h -> push_disk h virtio path w = inl v ->
  kinds v = kinds virtio ++ [KBlk w] /\ (sound virtio -> sound v).
Proof.
  intros Hh. unfold push_disk, bindR. destruct (open_disk h path w) as [d|] eqn:Ho; [|done].
  intros [= <-]. rewrite kinds_push. simpl. destruct (Hh _ _ _ Ho) as [-> Hc]. split; [done|]. by apply sound_push.
Qed.

Lemma push_data_disks_ok h virtio disks v :
  host_ok h -> push_data_disks h virtio disks = inl v ->
  kinds v = kinds virtio ++ map (fun d => KBlk (snd d)) disks /\ (sound virtio -> sound v).
Proof.
  intros Hh. revert virtio. induction disks as [|[p w] disks IH]; intros virtio; simpl.
  { intros [= <-]. by rewrite app_nil_r. }
  unfold bindR. destruct (push_disk h virtio p w) as [v1|] eqn:Hp; [|done]. intros Hv.
  destruct (push_disk_ok _ _ _ _ _ Hh Hp) as [K1 P1]. destruct (IH v1 Hv) as [K2 P2].
  split; [rewrite K2, K1, <- app_assoc; done|auto].
Qed.

Lemma root_disk_ok h disk v :
  host_ok h -> (match disk with Some p => push_disk h [] p false | None => inl [] end) = inl v ->
  kinds v = (if opt_some disk then [KBlk false] else []) /\ sound v.
Proof.
  intros Hh. destruct disk as [p|]; simpl.
  - intros Hp. destruct (push_disk_ok _ _ _ _ _ Hh Hp) as [K P]. split; [done|]. apply P, sound_nil.
  - intros [= <-]. split; [done|apply sound_nil].
Qed.

Lemma push_vsock_ok h virtio path :
  kinds (push_vsock_opt h virtio path) =
    kinds virtio ++ vsock_kinds (match path with Some p => opt_some (bind_vsock h p) | None => false end) /\
  (sound virtio -> sound (push_vsock_opt h virtio path)).
Proof.
  unfold push_vsock_opt. destruct path as [p|]; simpl; [|by rewrite app_nil_r].
  destruct (bind_vsock h p) as [b|]; simpl; [|by rewrite app_nil_r].
  split; [by rewrite kinds_push|apply sound_push, vsock_dev_wf].
Qed.

(** What [prepare] wires, in order. *)
Lemma prepare_devices h cfg net vm :
  host_ok h -> prepare h cfg net = inl vm ->
  kinds (vm_virtio vm) =
    (if opt_some (cfg_disk cfg) then [KBlk false] else []) ++
    map (fun d => KBlk (snd d)) (cfg_data_disks cfg) ++ [KRng] ++ net_kinds (opt_some net) ++
    vsock_kinds (match cfg_vsock cfg with Some p => opt_some (bind_vsock h p) | None => false end) ++ [KBalloon] /\
  sound (vm_virtio vm) /\
  1 <= vm_vcpus vm <= 8 /\
  vm_balloon_intid vm = layout.GIC_SPI_BASE + layout.VIRTIO_SPI_BASE + zlen (vm_virtio vm) - 1.
Proof.
  intros Hh. unfold prepare, bindR.
  destruct (GuestMemory_try_new _ _ _) as [mem|]; [|done].
  destruct (load_kernel mem _) as [[mem1 entry]|]; [|done].
  destruct (load_initramfs mem1 _) as [[mem2 ird]|]; [|done].
  destruct (match cfg_disk cfg with Some p => push_disk h [] p false | None => inl [] end) as [v0|] eqn:E0; [|done].
  destruct (root_disk_ok _ _ _ Hh E0) as [K0 P0].
  destruct (push_data_disks h v0 _) as [v1|] eqn:E1; [|done].
  destruct (push_data_disks_ok _ _ _ _ Hh E1) as [K1 P1].
  destruct (open_rng h) as [rng|]; [|done].
  set (v2 := push_dev v1 (DRng rng)).
  assert (K2 : kinds v2 = kinds v1 ++ [KRng]) by apply kinds_push.
  set (v3 := match net with Some b => _ | None => v2 end).
  assert (K3 : kinds v3 = kinds v2 ++ net_kinds (opt_some net) /\ (sound v2 -> sound v3)).
  { unfold v3. destruct net; simpl; [split; [apply kinds_push|apply sound_push, net_dev_wf]|by rewrite app_nil_r]. }
  destruct (push_vsock_ok h v3 (cfg_vsock cfg)) as [K4 P4].
  set (v4 := push_vsock_opt h v3 (cfg_vsock cfg)) in *.
  intros [= <-]. cbn [vm_virtio vm_vcpus vm_balloon_intid].
  split. { rewrite kinds_push, K4, (proj1 K3), K2, K1, K0. rewrite <- !app_assoc. done. }
  split. { apply sound_push; [apply balloon_dev_wf|]. apply P4, (proj2 K3), sound_push; [done|]. apply P1, P0. }
  split; [unfold clamp; lia|]. unfold push_dev. rewrite zlen_app. unfold zlen. simpl. lia.
Qed.

(** What [restore_from] rebuilds, in order. *)
Lemma restore_devices h ld net vsock vm :
  host_ok h -> restore_from h ld net vsock = inl vm ->
  kinds (vm_virtio vm) =
    (if opt_some (ld_disk ld) then [KBlk false] else []) ++ [KRng] ++ net_kinds (ld_net ld) ++
    vsock_kinds (ld_vsock ld) ++ [KBalloon] /\
  sound (vm_virtio vm) /\ 1 <= vm_vcpus vm <= 8 /\
  length (vm_virtio vm) = length (ld_virtio ld).
Proof.
  intros Hh. unfold restore_from, bindR.
  destruct (from_snapshot_cow _ _ _) as [mem|]; [|done].
  destruct (match ld_disk ld with Some p => push_disk h [] p false | None => inl [] end) as [v0|] eqn:E0; [|done].
  destruct (root_disk_ok _ _ _ Hh E0) as [K0 P0].
  destruct (open_rng h) as [rng|]; [|done].
  set (v2 := push_dev v0 (DRng rng)).
  assert (K2 : kinds v2 = kinds v0 ++ [KRng]) by apply kinds_push.
  assert (P2 : sound v2) by (by apply sound_push).
  match goal with |- match ?x with inl _ => _ | inr _ => _ end = _ -> _ => set (st3 := x) end.
  assert (K3 : forall v3, st3 = inl v3 -> kinds v3 = kinds v2 ++ net_kinds (ld_net ld) /\ sound v3).
  { intros v3. unfold st3. destruct (ld_net ld); simpl.
    - destruct net; [|done]. intros [= <-]. split; [apply kinds_push|]. apply sound_push; [apply net_dev_wf|done].
    - intros [= <-]. by rewrite app_nil_r. }
  clearbody st3. destruct st3 as [v3|]; [|done]. destruct (K3 v3 eq_refl) as [K3' P3]. clear K3.
  match goal with |- match ?x with inl _ => _ | inr _ => _ end = _ -> _ => set (st4 := x) end.
  assert (K4 : forall v4, st4 = inl v4 -> kinds v4 = kinds v3 ++ vsock_kinds (ld_vsock ld) /\ sound v4).
  { intros v4. unfold st4. destruct (ld_vsock ld); simpl.
    - destruct vsock as [p|]; [|done]. destruct (bind_vsock h p); [|done]. intros [= <-].
      split; [apply kinds_push|]. apply sound_push; [apply vsock_dev_wf|done].
    - intros [= <-]. by rewrite app_nil_r. }
  clearbody st4. destruct st4 as [v4|]; [|done]. destruct (K4 v4 eq_refl) as [K4' P4]. clear K4.
  cbn [push_balloon]. destruct (Nat.eqb_spec (length (push_dev v4 (DBalloon (mkBalloon 0 false)))) (length (ld_virtio ld)));
    [|done]. simpl negb. cbv iota. intros [= <-]. cbn [vm_virtio vm_vcpus].
  split. { rewrite kinds_push, K4', K3', K2, K0. rewrite <- !app_assoc. done. }
  split; [by apply sound_push; [apply balloon_dev_wf|]|]. split; [unfold clamp; lia|done].
Qed.

(** ** What a device can never change *)

Lemma blk_handle_ro d q r bufs :
  let d' := fst (fst (blk_handle d q r bufs)) in
  blk_writable d' = blk_writable d /\ (blk_writable d = false -> blk_disk d' = blk_disk d).
Proof.
  unfold blk_handle. destruct bufs as [|h [|b bufs]]; [done..|]. cbv zeta.
  unfold blk_request. destruct (_ =? T_IN); [by destruct (blk_in_loop _ _ _ _ _)|].
  destruct (_ && _) eqn:Ewr.
  { apply andb_true_iff in Ewr as [_ Ewr]. destruct (blk_out_loop _ _ _ _). cbn. by rewrite Ewr. }
  destruct (_ =? T_OUT); [done|]. destruct (_ =? T_FLUSH); [|done].
  destruct (blk_writable d) eqn:W; cbn [negb]; [|done]. destruct (sync_all _). done.
Qed.

Definition any_blk (x : AnyDev) : option (BlkDevice F L) := match x with DBlk d => Some d | _ => None end.

(** A read-only disk with these contents, or not a disk and of this kind. *)
Definition same_dev (k : Kind) (f : option F) (x : AnyDev) : Prop :=
  kind_of x = k /\ (k = KBlk false -> blk_disk <$> any_blk x = f).

Lemma same_dev_closed k f : dev_closed (same_dev k f).
Proof.
  split.
  - intros [d|d|d|d|d] q r bufs [Hk Hf]; cbn [handle Any_device any_handle].
    1: { pose proof (blk_handle_ro d q r bufs) as [Hw Hd]. cbn [handle Blk_device].
         destruct (blk_handle d q r bufs) as [[d' r'] n]. cbn [fst] in *. cbn in Hk, Hf.
         split; cbn; [by rewrite Hw|]. intros Ek. rewrite <- (Hf Ek), Hd; [done|congruence]. }
    all: destruct (handle d q r bufs) as [[d' r'] n]; split; [exact Hk|exact Hf].
  - intros [d|d|d|d|d] cap [Hk Hf]; cbn [poll_rx Any_device any_poll_rx]; [by split| | | |by split].
    all: destruct (poll_rx d cap) as [d' o]; split; [exact Hk|exact Hf].
  - by intros [d|d|d|d|d].
  - intros [d|d|d|d|d] [Hk Hf]; cbn [take_throttle Any_device any_take_throttle]; [by split| | | |by split].
    all: destruct (take_throttle d) as [d' o]; split; [exact Hk|exact Hf].
Qed.

(** ** The invariant of the device model *)

(** Slot [i] of the list as it was, in what cannot change. *)
Definition same_slot (d d' : VirtioDev) : Prop :=
  vd_base d' = vd_base d /\ vd_size d' = vd_size d /\ vd_intid d' = vd_intid d /\
  keeps (same_dev (kind_of (mm_dev (vd_mmio d))) (blk_disk <$> any_blk (mm_dev (vd_mmio d))))
    (length (mm_queues (vd_mmio d))) (vd_mmio d').

Definition machine_ok (v0 : list VirtioDev) (r0 : GuestRam) (s : MachineState) : Prop :=
  let '(_, v, r) := s in
  Forall2 same_slot v0 v /\ Forall slot_wf v /\ ram_wf r /\ same_region r0 r.

Lemma same_slot_refl d : same_slot d d.
Proof. by repeat split. Qed.

(** A transport step that keeps every closed device predicate keeps the slot. *)
Lemma same_slot_step d0 d m :
  same_slot d0 d -> (forall P n, dev_closed P -> keeps P n (vd_mmio d) -> keeps P n m) ->
  same_slot d0 (mkDev (vd_base d) (vd_size d) (vd_intid d) m).
Proof. intros (-> & -> & -> & Hk) Hm. split; [done|]. split; [done|]. split; [done|]. apply Hm; [apply same_dev_closed|done]. Qed.

Lemma mmio_access_ok m r off w :
  mmio_wf m -> ram_wf r ->
  let '(m', r', _) := mmio_access m r off w in
  step_ok m r m' r' /\ (forall P n, dev_closed P -> keeps P n m -> keeps P n m').
Proof.
  intros Hm Hr. unfold mmio_access. destruct w as [v|]; [|by split].
  pose proof (mmio_write_ok m r off v Hm Hr) as Hok.
  assert (Hk : forall P n, dev_closed P -> keeps P n m -> keeps P n (fst (mmio_write m r off v)))
    by (intros; by apply mmio_write_keeps).
  by destruct (mmio_write m r off v) as [m' r'].
Qed.

(** The effect of an exit on the one device it reaches. *)
Lemma dispatch_slot_ok d0 d r off w :
  same_slot d0 d -> slot_wf d -> ram_wf r ->
  let '(m, r', v) := mmio_access (vd_mmio d) r off w in
  let d' := mkDev (vd_base d) (vd_size d) (vd_intid d) (set_dev m (fst (take_throttle (mm_dev m)))) in
  same_slot d0 d' /\ slot_wf d' /\ ram_wf r' /\ same_region r r'.
Proof.
  intros Hs Hw Hr. pose proof (mmio_access_ok (vd_mmio d) r off w Hw Hr) as Ha.
  destruct (mmio_access _ _ _ _) as [[m r'] v]. destruct Ha as [(Hm & Hr' & Hreg) Hk].
  cbv zeta. split.
  { apply (same_slot_step d0 d); [done|]. intros P n HP Hp. destruct (Hk P n HP Hp) as [Hd Hl].
    split; [apply (dc_throttle P HP), Hd|exact Hl]. }
  split; [|done]. apply set_dev_wf; [done|]. apply take_throttle_ok, Hm.
Qed.

Lemma dispatch_ok v0 r0 s intid access :
  machine_ok v0 r0 s ->
  machine_ok v0 r0 (fst (dispatch_mmio intid access (fst (fst s)) (snd (fst s)) (snd s))).
Proof.
  destruct s as [[uart v] r]. intros (Hs & Hw & Hr & Hreg). cbn [fst snd]. unfold dispatch_mmio. cbv zeta.
  destruct (_ && _).
  { destruct (ac_write access); [done|]. by destruct (uart_read uart _). }
  destruct (list_find _ v) as [[i d]|] eqn:Hf; [|done].
  apply list_find_Some in Hf as (Hi & _ & _).
  destruct (Forall2_lookup_r _ _ _ _ _ Hs Hi) as (d0 & Hi0 & Hs0).
  assert (Hwd : slot_wf d) by (by eapply (Forall_lookup_1 slot_wf)).
  pose proof (dispatch_slot_ok d0 d r (ac_ipa access - vd_base d) (ac_write access) Hs0 Hwd Hr) as Hd.
  destruct (mmio_access _ _ _ _) as [[m r'] val]. cbv zeta in Hd.
  destruct (take_throttle (mm_dev m)) as [dev th]. cbn [fst] in *. destruct Hd as (Hd1 & Hd2 & Hd3 & Hd4).
  split. { rewrite <- (list_insert_id v0 i d0 Hi0). by apply Forall2_insert. }
  split; [by apply Forall_insert|]. split; [done|]. by etransitivity.
Qed.

Lemma pump_all_ok fuel v0 v r v' r' irqs :
  Forall2 same_slot v0 v -> Forall slot_wf v -> ram_wf r -> pump_all fuel v r = Some (v', r', irqs) ->
  Forall2 same_slot v0 v' /\ Forall slot_wf v' /\ ram_wf r' /\ same_region r r'.
Proof.
  intros Hs. revert r v' r' irqs. induction Hs as [|d0 d v0 v Hd Hs IH]; intros r v' r' irqs Hw Hr.
  { intros [= <- <- _]. split; [constructor|]. split; [constructor|]. by split. }
  apply Forall_cons in Hw as [Hwd Hw]. cbn [pump_all].
  destruct (pump_rx fuel (vd_mmio d) r) as [[[m r1] any]|] eqn:Hp; [|done].
  destruct (pump_rx_wf fuel _ r m r1 any Hwd Hr Hp) as (Hm & Hr1 & Hreg1).
  destruct (pump_all fuel v r1) as [[[l r2] q]|] eqn:Hl; [|done]. intros [= <- <- _].
  destruct (IH r1 l r2 q Hw Hr1 Hl) as (? & ? & ? & ?).
  split. { constructor; [|done]. apply (same_slot_step d0 d); [done|]. intros P n HP Hk. by eapply pump_rx_keeps. }
  split; [by constructor|]. split; [done|]. by etransitivity.
Qed.

Lemma set_balloon_ok d0 mib d :
  same_slot d0 d -> slot_wf d -> same_slot d0 (set_balloon mib d) /\ slot_wf (set_balloon mib d).
Proof.
  intros Hs Hw. unfold set_balloon. destruct (mm_dev (vd_mmio d)) as [b|b|b|b|b] eqn:Eb; [done..|].
  destruct Hs as (E1 & E2 & E3 & [Hk Hf] & Hl). rewrite Eb in Hk, Hf.
  split; [|by apply set_dev_wf; [|apply u64_range]].
  split; [done|]. split; [done|]. split; [done|]. split; [by split|done].
Qed.

Lemma machine_step_ok v0 r0 s s' : machine_ok v0 r0 s -> machine_step s s' -> machine_ok v0 r0 s'.
Proof.
  intros Hok Hst. destruct Hst as [intid access uart v r|fuel uart v r v' r' irqs Hp|bs uart v r|intid mib uart v r|uart v r r' Hr' Hreg'].
  - exact (dispatch_ok v0 r0 (uart, v, r) intid access Hok).
  - destruct Hok as (Hs & Hw & Hr & Hreg).
    destruct (pump_all_ok fuel v0 v r v' r' irqs Hs Hw Hr Hp) as (? & ? & ? & ?).
    split; [done|]. split; [done|]. split; [done|]. by etransitivity.
  - exact Hok.
  - destruct Hok as (Hs & Hw & Hr). split; [|split; [|exact Hr]]; cbn [fst control_balloon].
    + clear Hr. induction Hs; [constructor|]. apply Forall_cons in Hw as [? ?].
      constructor; [by apply set_balloon_ok|auto].
    + clear Hr. induction Hs; [constructor|]. apply Forall_cons in Hw as [? ?].
      constructor; [by eapply set_balloon_ok|auto].
  - destruct Hok as (Hs & Hw & Hr & Hreg). split; [done|]. split; [done|]. split; [done|]. by etransitivity.
Qed.

Lemma same_slots_kinds v0 v : Forall2 same_slot v0 v -> kinds v = kinds v0.
Proof.
  unfold kinds. induction 1 as [|d0 d v0 v (_ & _ & _ & [Hk _] & _) _ IH]; [done|]. cbn [map]. by rewrite Hk, IH.
Qed.

Lemma same_slots_placed v0 v : Forall2 same_slot v0 v -> placed v0 -> placed v.
Proof.
  intros Hs Hp i d Hi. destruct (Forall2_lookup_r _ _ _ _ _ Hs Hi) as (d0 & Hi0 & (-> & -> & -> & _)). by apply Hp.
Qed.

(** ** Loading *)

Lemma GuestMemory_write_eq r gpa bs :
  GuestMemory_write r gpa bs = (if snd (ram_write r gpa bs) then inl (fst (ram_write r gpa bs)) else inr ELoader).
Proof.
  unfold GuestMemory_write, ram_write, ram_offset. destruct (gpa <? ram_base r); [done|]. cbv zeta.
  by destruct (_ && _).
Qed.

Lemma load_kernel_ok mem image mem' entry :
  ram_wf mem -> bytes_wf image -> load_kernel mem image = inl (mem', entry) ->
  ram_wf mem' /\ same_region mem mem'.
Proof.
  intros Hm Hi. unfold load_kernel. destruct (_ <? _); [done|]. destruct (negb _); [done|]. cbv zeta.
  rewrite GuestMemory_write_eq. destruct (snd _); [|done]. intros [= <- _].
  split; [by apply ram_write_wf|apply ram_write_same_region].
Qed.

Lemma load_initramfs_ok mem initrd mem' range :
  ram_wf mem -> from_option (fun bs => bytes_wf bs) True initrd -> load_initramfs mem initrd = inl (mem', range) ->
  ram_wf mem' /\ same_region mem mem'.
Proof.
  intros Hm Hi. unfold load_initramfs. destruct initrd as [bs|]; [|by intros [= <- _]]. cbv zeta.
  rewrite GuestMemory_write_eq. destruct (snd _); [|done]. intros [= <- _].
  split; [by apply ram_write_wf|apply ram_write_same_region].
Qed.

(** A configuration the process can map and read. *)
Record cfg_wf (cfg : VmConfig) : Prop := {
  cw_mem : 0 <= cfg_mem_size cfg < 2 ^ 63;
  cw_kernel : bytes_wf (cfg_kernel cfg);
  cw_initrd : from_option (fun bs => bytes_wf bs) True (cfg_initrd cfg)
}.

Lemma prepare_ram h cfg net vm :
  cfg_wf cfg -> prepare h cfg net = inl vm ->
  ram_wf (vm_mem vm) /\ ram_base (vm_mem vm) = layout.RAM_BASE /\ ram_len (vm_mem vm) = cfg_mem_size cfg.
Proof.
  intros [Hm Hk Hi]. unfold prepare, bindR, GuestMemory_try_new. destruct (mmap_ok h); [|done].
  assert (Hw : ram_wf (GuestMemory_new layout.RAM_BASE (cfg_mem_size cfg))).
  { split; unfold layout.RAM_BASE, ram_len; cbn [ram_base ram_bytes GuestMemory_new]; [lia| |apply zeros_wf].
    rewrite zlen_zeros by lia. lia. }
  assert (Hl : ram_len (GuestMemory_new layout.RAM_BASE (cfg_mem_size cfg)) = cfg_mem_size cfg)
    by (apply zlen_zeros; lia).
  set (m0 := GuestMemory_new _ _) in *. change layout.RAM_BASE with (ram_base m0).
  clearbody m0. destruct (load_kernel m0 _) as [[m1 entry]|] eqn:E1; [|done].
  destruct (load_kernel_ok _ _ _ _ Hw Hk E1) as [Hw1 [Hb1 Hl1]].
  destruct (load_initramfs m1 _) as [[m2 ird]|] eqn:E2; [|done].
  destruct (load_initramfs_ok _ _ _ _ Hw1 Hi E2) as [Hw2 [Hb2 Hl2]].
  destruct (match cfg_disk cfg with Some p => push_disk h [] p false | None => inl [] end); [|done].
  destruct (push_data_disks _ _ _); [|done]. destruct (open_rng h); [|done].
  cbn [push_balloon]. intros [= <-]. cbn [vm_mem]. split; [done|]. split; congruence.
Qed.

Lemma attach_all_ok v : sound v -> sound (attach_all v) /\ kinds (attach_all v) = kinds v.
Proof.
  intros (Hp & Hw & Hs). split; [split; [|split]|].
  - intros i d Hi. unfold attach_all in Hi. rewrite list_lookup_fmap in Hi.
    destruct (v !! i) as [d0|] eqn:Hi0; [|done]. injection Hi as <-. exact (Hp i d0 Hi0).
  - apply Forall_map. eapply Forall_impl; [exact Hw|]. intros d []. by split.
  - apply Forall_map. eapply Forall_impl; [exact Hs|]. intros d Hd. exact Hd.
  - unfold kinds, attach_all. rewrite map_map. done.
Qed.

Lemma machine_ok_start v r uart : Forall slot_wf v -> ram_wf r -> machine_ok v r (uart, v, r).
Proof.
  intros Hw Hr. split; [|done]. clear Hw. induction v; constructor; [apply same_slot_refl|done].
Qed.

Lemma machine_ok_rtc v0 r0 s s' : machine_ok v0 r0 s -> rtc machine_step s s' -> machine_ok v0 r0 s'.
Proof. intros Hs. induction 1 as [|s s1 s2 Hst _ IH]; [done|]. apply IH. by eapply machine_step_ok. Qed.

(** What every state reached from a prepared VM satisfies. *)
Lemma prepared_reach h cfg net vm uart v r :
  host_ok h -> cfg_wf cfg -> prepare h cfg net = inl vm ->
  rtc machine_step (vm_pl011 vm, attach_all (vm_virtio vm), vm_mem vm) (uart, v, r) ->
  sound v /\ ram_wf r /\ same_region (vm_mem vm) r /\ kinds v = kinds (vm_virtio vm) /\
  Forall2 same_slot (attach_all (vm_virtio vm)) v.
Proof.
  intros Hh Hc Hp Hr. destruct (prepare_devices h cfg net vm Hh Hp) as (_ & Hs & _).
  destruct (prepare_ram h cfg net vm Hc Hp) as [Hw _]. destruct (attach_all_ok _ Hs) as [(Hpl & Hsw & Hsh) Hk].
  pose proof (machine_ok_rtc _ _ _ _ (machine_ok_start _ _ (vm_pl011 vm) Hsw Hw) Hr) as (Hsl & Hv & Hr' & Hreg).
  split; [split; [by eapply same_slots_placed|split; [done|]]|].
  { clear -Hsl Hsh. induction Hsl as [|d0 d v0 v (_ & _ & _ & [Hk _] & Hl) _ IH]; [done|].
    apply Forall_cons in Hsh as [Hd Hsh]. constructor; [|by apply IH]. unfold shaped in *. by rewrite Hl, Hd, Hk. }
  split; [done|]. split; [done|]. split; [|done]. by rewrite (same_slots_kinds _ _ Hsl), Hk.
Qed.

(** ** Capturing and rebuilding the device set *)

Lemma has_device_kinds id v : has_device id v = existsb (fun k => kind_id k =? id) (kinds v).
Proof.
  unfold has_device, kinds. induction v as [|d v IH]; [done|]. cbn [existsb map]. by rewrite IH, device_id_kind.
Qed.

Lemma existsb_map_blk id (l : list (string * bool)) :
  id <> 2 -> existsb (fun k => kind_id k =? id) (map (fun d => KBlk (snd d)) l) = false.
Proof.
  intros Hid. induction l as [|x l IH]; [done|]. cbn [map existsb kind_id]. rewrite IH.
  destruct (Z.eqb_spec 2 id); [congruence|done].
Qed.

Lemma restore_states_capture v v' :
  Forall slot_wf v -> Forall shaped v -> Forall shaped v' -> kinds v' = kinds v ->
  capture_states (restore_states v' (capture_states v)) = capture_states v.
Proof.
  intros Hw. revert v'. induction Hw as [|d v Hd Hw IH]; intros v' Hs Hs' Hk.
  { by destruct v'. }
  destruct v' as [|d' v']; [done|]. unfold kinds in Hk. cbn [map] in Hk. injection Hk as Hk1 Hk2.
  apply Forall_cons in Hs as [Hs1 Hs]. apply Forall_cons in Hs' as [Hs1' Hs'].
  cbn. f_equal; [|by apply IH]. unfold capture at 1 3. cbn.
  rewrite zip_restore_capture; [done|apply Hd|]. unfold shaped in *. congruence.
Qed.

Lemma prepared_vcpus h cfg net vm : prepare h cfg net = inl vm -> vm_vcpus vm = clamp (cfg_vcpus cfg) 1 8.
Proof.
  unfold prepare, bindR. repeat (case_match; try done); by intros [= <-].
Qed.

(** The host can reopen everything a snapshot names. *)
Record host_opens (h : Host) (disk : option string) (path : string) : Prop := {
  ho_mmap : mmap_ok h = true;
  ho_disk : forall p, disk = Some p -> exists d, open_disk h p false = inl d;
  ho_rng : exists d, open_rng h = inl d;
  ho_vsock : exists b, bind_vsock h path = Some b
}.

(** A snapshot whose parts the host can open restores exactly when the
    rebuilt device list is as long as the captured one. *)
Lemma restore_from_opens h ld b path :
  host_opens h (ld_disk ld) path -> ld_mem_file ld <> None ->
  length ((if opt_some (ld_disk ld) then [KBlk false] else []) ++ [KRng] ++ net_kinds (ld_net ld) ++
    vsock_kinds (ld_vsock ld) ++ [KBalloon]) = length (ld_virtio ld) ->
  exists vm, restore_from h ld (Some b) (Some path) = inl vm.
Proof.
  intros [Hm Hd [rng Hr] [vb Hv]] Hf Hl. unfold restore_from, from_snapshot_cow, bindR.
  destruct (ld_mem_file ld); [|done]. rewrite Hm, Hr, Hv.
  destruct (ld_disk ld) as [p|]; [destruct (Hd p eq_refl) as [d Ho]; unfold push_disk, bindR; rewrite Ho|];
    destruct (ld_net ld), (ld_vsock ld); cbn in Hl |- *; rewrite <- Hl; cbn; eauto.
Qed.

Lemma restored_mem h ld net vsock vm :
  restore_from h ld net vsock = inl vm ->
  from_snapshot_cow (ld_mem_file ld) (mmap_ok h) (ld_mem_base ld) = inl (vm_mem vm) /\
  vm_vcpus vm = clamp (ld_vcpus ld) 1 8.
Proof.
  unfold restore_from, bindR. destruct (from_snapshot_cow _ _ _) as [mem|]; [|done].
  repeat (case_match; try done); by intros [= <-].
Qed.

(** A snapshot of the prepared devices, whatever state they are in. *)
Lemma fork_devices h h' cfg net vm v r b path :
  host_ok h -> host_ok h' -> prepare h cfg net = inl vm ->
  Forall slot_wf v -> Forall shaped v -> kinds v = kinds (vm_virtio vm) ->
  host_opens h' (cfg_disk cfg) path ->
  let snap := snapshot_of r (vm_vcpus vm) (cfg_disk cfg) v in
  match restore_from h' snap (Some b) (Some path) with
  | inl vm' =>
      cfg_data_disks cfg = [] /\ vm_mem vm' = r /\ vm_vcpus vm' = vm_vcpus vm /\
      kinds (vm_virtio vm') = kinds v /\
      capture_states (restore_states (vm_virtio vm') (ld_virtio snap)) = capture_states v /\
      capture_states (restore_states (attach_all (vm_virtio vm')) (ld_virtio snap)) = capture_states v
  | inr e => cfg_data_disks cfg <> []
  end.
Proof.
  intros Hh Hh' Hp Hw Hsh Hk Ho snap.
  destruct (prepare_devices h cfg net vm Hh Hp) as (Hkp & _). rewrite Hkp in Hk. clear Hkp.
  set (nb := opt_some net) in *. set (vb := match cfg_vsock cfg with Some _ => _ | None => false end) in *.
  clearbody nb vb.
  assert (Hn : ld_net snap = nb).
  { cbn. rewrite has_device_kinds, Hk, !existsb_app, existsb_map_blk by lia. by destruct (opt_some _), nb, vb. }
  assert (Hv : ld_vsock snap = vb).
  { cbn. rewrite has_device_kinds, Hk, !existsb_app, existsb_map_blk by lia. by destruct (opt_some _), nb, vb. }
  assert (Hlen : length (ld_virtio snap) = length (kinds v)) by (cbn; unfold capture_states, kinds; by rewrite !length_map).
  destruct (restore_from h' snap (Some b) (Some path)) as [vm'|e] eqn:Hf.
  - destruct (restore_devices h' snap _ _ vm' Hh' Hf) as (Hk' & Hsd & _ & Hl').
    pose proof Hsd as (_ & Hw' & Hsh').
    destruct (restored_mem h' snap _ _ vm' Hf) as [Hm Hvc].
    rewrite Hn, Hv in Hk'. change (ld_disk snap) with (cfg_disk cfg) in Hk'.
    assert (Hnil : cfg_data_disks cfg = []).
    { rewrite Hlen, <- length_kinds, Hk', Hk, !length_app, length_map in Hl'.
      destruct (cfg_data_disks cfg); [done|]. simpl in Hl'. lia. }
    rewrite Hnil in Hk.
    assert (Hkk : kinds (vm_virtio vm') = kinds v) by (rewrite Hk', Hk; reflexivity).
    split; [done|]. split.
    { unfold from_snapshot_cow in Hm. cbn in Hm. rewrite (ho_mmap _ _ _ Ho) in Hm. injection Hm as <-. by destruct r. }
    split. { rewrite Hvc. cbn. rewrite (prepared_vcpus h cfg net vm Hp). unfold clamp. lia. }
    split; [done|]. split; [cbn; by apply restore_states_capture|]. cbn.
    destruct (attach_all_ok (vm_virtio vm')) as [(_ & _ & Hsa) Hka]; [done|].
    apply restore_states_capture; [done..|congruence].
  - intros Hnil. rewrite Hnil in Hk.
    destruct (restore_from_opens h' snap b path Ho) as [vm' E']; [done| |congruence].
    rewrite Hn, Hv, Hlen, Hk. done.
Qed.

(** ** Properties *)

(** every exit reaches exactly the device whose window holds the address.
    An access inside window [i] is answered by device [i] alone, from its
    transport: the value read is its register, a write changes only it, guest
    RAM and nothing else of the machine, and the line driven is interrupt
    [34 + i] at its new level; the UART and the other devices are untouched. *)
Theorem dispatch_routes uart v r access intid (i : nat) d :
  placed v -> v !! i = Some d ->
  layout.VIRTIO_MMIO_BASE + Z.of_nat i * layout.VIRTIO_MMIO_STRIDE <= ac_ipa access <
    layout.VIRTIO_MMIO_BASE + (Z.of_nat i + 1) * layout.VIRTIO_MMIO_STRIDE ->
  let off := ac_ipa access - vd_base d in
  let '(uart', v', r', eff) := dispatch_mmio intid access uart v r in
  0 <= off < layout.VIRTIO_MMIO_STRIDE /\ uart' = uart /\
  (forall j, j <> i -> v' !! j = v !! j) /\
  (exists m, r' = snd (fst (mmio_access (vd_mmio d) r off (ac_write access))) /\
    m = fst (fst (mmio_access (vd_mmio d) r off (ac_write access))) /\
    v' !! i = Some (mkDev (vd_base d) (vd_size d) (vd_intid d) (set_dev m (fst (take_throttle (mm_dev m))))) /\
    ef_irq eff = Some (34 + Z.of_nat i, irq_level m) /\
    (ac_write access = None -> ef_read eff = Some (mmio_read (vd_mmio d) off) /\ r' = r)).
Proof.
  intros Hp Hi Ha. destruct (Hp i d Hi) as (Hb & Hs & Hn).
  assert (Hc : vd_contains d (ac_ipa access) = true) by (by apply (contains_iff d i)).
  cbv zeta. unfold dispatch_mmio. cbv zeta.
  assert (Hu : (layout.PL011_BASE <=? ac_ipa access) && (ac_ipa access <? layout.PL011_BASE + layout.PL011_SIZE) = false).
  { apply andb_false_iff. right. apply Z.ltb_ge. unfold layout.PL011_BASE, layout.PL011_SIZE,
      layout.VIRTIO_MMIO_BASE, layout.VIRTIO_MMIO_STRIDE in *. lia. }
  rewrite Hu, (find_window v i d _ Hp Hi Hc). unfold mmio_access.
  assert (Hoff : 0 <= ac_ipa access - vd_base d < layout.VIRTIO_MMIO_STRIDE)
    by (rewrite Hb; unfold layout.VIRTIO_MMIO_STRIDE in *; lia).
  destruct (ac_write access) as [w|]; [destruct (mmio_write _ _ _ _) as [m r']|];
    cbn [fst snd]; destruct (take_throttle _) as [dev th] eqn:Et;
    (split; [exact Hoff|split; [done|split; [intros j Hj; by rewrite list_lookup_insert_ne|]]]);
    eexists; (split; [reflexivity|split; [reflexivity|]]); rewrite Et; cbn [fst];
    rewrite list_lookup_insert_eq by (by eapply lookup_lt_Some);
    (split; [reflexivity|split; [by rewrite Hn|done]]).
Qed.

(** an access that no window holds is the UART's when it lies in the UART
    page, and otherwise reads zero and changes nothing. *)
Theorem dispatch_elsewhere uart v r access intid :
  placed v -> zlen v <= 128 ->
  ~ (layout.VIRTIO_MMIO_BASE <= ac_ipa access < layout.VIRTIO_MMIO_BASE + 128 * layout.VIRTIO_MMIO_STRIDE) ->
  let '(uart', v', r', eff) := dispatch_mmio intid access uart v r in
  v' = v /\ r' = r /\ ef_sleep eff = None /\
  (layout.PL011_BASE <= ac_ipa access < layout.PL011_BASE + layout.PL011_SIZE ->
     ef_irq eff = Some (intid, uart_irq_level uart')) /\
  (~ layout.PL011_BASE <= ac_ipa access < layout.PL011_BASE + layout.PL011_SIZE ->
     uart' = uart /\ ef_irq eff = None /\
     ef_read eff = match ac_write access with Some _ => None | None => Some 0 end).
Proof.
  intros Hp Hn Ha. unfold dispatch_mmio. cbv zeta.
  destruct (_ && _) eqn:Hu.
  { apply andb_true_iff in Hu as [Hu1%Z.leb_le Hu2%Z.ltb_lt].
    destruct (ac_write access); [|destruct (uart_read uart _)]; (do 3 (split; [done|])); (split; [done|lia]). }
  destruct (list_find _ v) as [[i d]|] eqn:Hf.
  { exfalso. apply list_find_Some in Hf as (Hi & Hc & _). destruct (Hp i d Hi) as (Hb & Hs & _).
    apply (contains_iff d i _ Hb Hs) in Hc. apply lookup_lt_Some in Hi. apply Ha.
    unfold zlen, layout.VIRTIO_MMIO_STRIDE in *. lia. }
  do 3 (split; [done|]). split; [|done].
  intros Hin. apply andb_false_iff in Hu as [Hu%Z.leb_gt|Hu%Z.ltb_ge]; lia.
Qed.

Lemma prepared_few h cfg net vm : host_ok h -> prepare h cfg net = inl vm -> zlen (cfg_data_disks cfg) <= 217 ->
  (length (vm_virtio vm) <= 222)%nat.
Proof.
  intros Hh Hp Hl. destruct (prepare_devices h cfg net vm Hh Hp) as (Hk & _).
  unfold zlen in Hl. rewrite <- length_kinds, Hk, !length_app, length_map.
  assert (A1 : forall b, (length (net_kinds b) <= 1)%nat) by (intros []; simpl; lia).
  assert (A2 : forall b, (length (vsock_kinds b) <= 1)%nat) by (intros []; simpl; lia).
  pose proof (A1 (opt_some net)).
  pose proof (A2 (match cfg_vsock cfg with Some p => opt_some (bind_vsock h p) | None => false end)).
  destruct (opt_some (cfg_disk cfg)); simpl; lia.
Qed.

(** the address map of a prepared VM. Its windows are pairwise disjoint,
    above the GIC and the UART and (for up to 217 extra disks) below RAM, and
    every device has its own interrupt, none of them the UART's and all
    among the 256 both interrupt controllers implement. *)
Theorem prepared_address_map h cfg net vm (i j : nat) d e :
  host_ok h -> prepare h cfg net = inl vm -> zlen (cfg_data_disks cfg) <= 217 ->
  vm_virtio vm !! i = Some d -> vm_virtio vm !! j = Some e ->
  layout.GIC_CPU_BASE + layout.GIC_CPU_SIZE <= vd_base d /\
  layout.PL011_BASE + layout.PL011_SIZE <= vd_base d /\
  vd_base d + vd_size d <= layout.RAM_BASE /\
  layout.GIC_SPI_BASE + layout.PL011_SPI < vd_intid d < 256 /\
  (i <> j -> (vd_base d + vd_size d <= vd_base e \/ vd_base e + vd_size e <= vd_base d) /\ vd_intid d <> vd_intid e).
Proof.
  intros Hh Hp Hl Hi Hj. destruct (prepare_devices h cfg net vm Hh Hp) as (_ & (Hpl & _) & _).
  pose proof (prepared_few h cfg net vm Hh Hp Hl) as Hlen.
  destruct (Hpl i d Hi) as (B1 & S1 & I1). destruct (Hpl j e Hj) as (B2 & S2 & I2).
  apply lookup_lt_Some in Hi. apply lookup_lt_Some in Hj. rewrite B1, S1, I1, B2, S2, I2.
  unfold layout.GIC_CPU_BASE, layout.GIC_CPU_SIZE, layout.PL011_BASE, layout.PL011_SIZE, layout.RAM_BASE,
    layout.GIC_SPI_BASE, layout.PL011_SPI, layout.VIRTIO_MMIO_BASE, layout.VIRTIO_MMIO_STRIDE, layout.VIRTIO_SPI_BASE.
  repeat split; lia.
Qed.

(** C1: whatever the guest, the console, the network and the daemon do, every
    state a prepared VM reaches keeps every transport well formed, keeps the
    device set and its windows, never resizes guest RAM, and never changes a
    byte of a disk attached read-only. *)
Theorem machine_safe h cfg net vm uart v r :
  host_ok h -> cfg_wf cfg -> prepare h cfg net = inl vm ->
  rtc machine_step (vm_pl011 vm, attach_all (vm_virtio vm), vm_mem vm) (uart, v, r) ->
  placed v /\ Forall (fun d => mmio_wf (vd_mmio d)) v /\ ram_wf r /\
  ram_base r = layout.RAM_BASE /\ ram_len r = cfg_mem_size cfg /\ kinds v = kinds (vm_virtio vm) /\
  (forall i d0 d, vm_virtio vm !! i = Some d0 -> v !! i = Some d ->
     kind_of (mm_dev (vd_mmio d0)) = KBlk false ->
     blk_disk <$> any_blk (mm_dev (vd_mmio d)) = blk_disk <$> any_blk (mm_dev (vd_mmio d0))).
Proof.
  intros Hh Hc Hp Hr. destruct (prepared_reach h cfg net vm uart v r Hh Hc Hp Hr) as ((Hpl & Hw & _) & Hr' & [Hb Hl] & Hk & Hs).
  destruct (prepare_ram h cfg net vm Hc Hp) as (_ & Hb0 & Hl0).
  split; [done|]. split; [exact Hw|]. split; [done|]. split; [congruence|]. split; [congruence|]. split; [done|].
  intros i d0 d Hi0 Hi Hro.
  assert (Hia : attach_all (vm_virtio vm) !! i = Some (mkDev (vd_base d0) (vd_size d0) (vd_intid d0) (attach (vd_mmio d0))))
    by (unfold attach_all; by rewrite list_lookup_fmap, Hi0).
  destruct (Forall2_lookup_lr _ _ _ _ _ _ Hs Hia Hi) as (_ & _ & _ & [_ Hf] & _). by apply Hf.
Qed.

(** [load_kernel] succeeds exactly on an image with a header, the arm64
    magic and room in RAM at its load address, every other image being refused
    with RAM untouched; then the entry point is the load address, the image is
    there byte for byte and no other byte of RAM changed. *)
Theorem load_kernel_places mem image :
  let off := of_le_bytes (slice 0x08 8 image) in
  let entry := u64 (ram_base mem + (if off =? 0 then layout.KERNEL_OFFSET else off)) in
  if (64 <=? zlen image) && (of_le_bytes (slice 0x38 4 image) =? ARM64_MAGIC) && ram_in_range mem entry (zlen image)
  then exists mem', load_kernel mem image = inl (mem', entry) /\ same_region mem mem' /\
    ram_read mem' entry (zlen image) = Some image /\
    forall a, within entry (zlen image) a = false -> ram_at mem' a = ram_at mem a
  else load_kernel mem image = inr ELoader.
Proof.
  cbv zeta. unfold load_kernel. rewrite (Z.ltb_antisym 64). destruct (64 <=? zlen image); [|done].
  destruct (_ =? ARM64_MAGIC); [|done]. cbn [negb andb]. cbv zeta. rewrite GuestMemory_write_eq.
  change (wadd64 (ram_base mem)) with (fun x => u64 (ram_base mem + x)). cbv beta.
  set (entry := u64 _).
  destruct (ram_in_range mem entry (zlen image)) eqn:Hr.
  - assert (Hs : snd (ram_write mem entry image) = true).
    { unfold ram_in_range in Hr. unfold ram_write. by destruct (ram_offset _ _ _). }
    rewrite Hs. eexists. split; [reflexivity|]. split; [apply ram_write_same_region|].
    split; [by apply ram_read_write_same|]. intros a Ha. apply ram_at_write_outside.
    unfold within in Ha. intros Hin. apply andb_false_iff in Ha as [Ha%Z.leb_gt|Ha%Z.ltb_ge]; lia.
  - assert (Hs : snd (ram_write mem entry image) = false).
    { unfold ram_in_range in Hr. unfold ram_write. by destruct (ram_offset _ _ _). }
    by rewrite Hs.
Qed.

(** C21: a data abort decodes exactly when its class is a lower-EL data abort
    with a valid syndrome, and then to the fields of the architecture: SAS
    gives a width of 1, 2, 4 or 8 bytes, SRT the register, WnR the direction,
    and a store carries that register's value. *)
Theorem decode_data_abort_spec esr ipa get_x :
  fits 64 esr ->
  decode_data_abort esr ipa get_x =
    if (field esr 26 6 =? 0x24) && (field esr 24 1 =? 1) then
      Some (mkAccess ipa (2 ^ field esr 22 2)
              (if field esr 6 1 =? 1 then Some (get_x (field esr 16 5)) else None), field esr 16 5)
    else None.
Proof.
  intros He. unfold decode_data_abort. cbv zeta.
  assert (Hfld : forall x lo n, 0 <= lo -> 0 <= n -> Z.land (Z.shiftr x lo) (Z.ones n) = field x lo n).
  { intros. unfold field. rewrite Z.land_ones, Z.shiftr_div_pow2 by lia. done. }
  assert (Hiss : forall lo n, 0 <= lo -> 0 <= n -> lo + n <= 25 -> field (Z.land esr (Z.ones 25)) lo n = field esr lo n).
  { intros lo n H1' H2' H3'. rewrite <- !Hfld by lia. apply Z.bits_inj_iff'. intros k Hk.
    rewrite !Z.land_spec, !Z.shiftr_spec, Z.land_spec by lia. rewrite (Z.testbit_ones_nonneg n k) by lia.
    destruct (Z.ltb_spec k n); rewrite ?andb_true_r, ?andb_false_r; [|done].
    rewrite Z.testbit_ones_nonneg by lia. destruct (Z.ltb_spec (k + lo) 25); [by rewrite andb_true_r|lia]. }
  change 0x3f with (Z.ones 6). change 0x1ffffff with (Z.ones 25). change 0x1f with (Z.ones 5).
  change 3 with (Z.ones 2). change (Z.land (Z.shiftr (Z.land esr (Z.ones 25)) 24) 1) with
    (Z.land (Z.shiftr (Z.land esr (Z.ones 25)) 24) (Z.ones 1)).
  change (Z.land (Z.shiftr (Z.land esr (Z.ones 25)) 6) 1) with
    (Z.land (Z.shiftr (Z.land esr (Z.ones 25)) 6) (Z.ones 1)).
  rewrite !Hfld, !Hiss by lia. clear Hfld Hiss.
  assert (Hrng : forall lo n, 0 < n -> 0 <= field esr lo n < 2 ^ n) by (intros; apply Z.mod_pos_bound; lia).
  destruct (field esr 26 6 =? 0x24); cbn [negb andb]; [|done].
  pose proof (Hrng 24 1 eq_refl) as B24. pose proof (Hrng 22 2 eq_refl) as B22. pose proof (Hrng 16 5 eq_refl) as B16.
  destruct (Z.eqb_spec (field esr 24 1) 0) as [Ez|Ez]; destruct (Z.eqb_spec (field esr 24 1) 1) as [Ew|Ew]; try done; try lia.
  rewrite !(u8_id (field esr 16 5)) by lia.
  assert (Hsz : u8 (Z.shiftl 1 (field esr 22 2)) = 2 ^ field esr 22 2).
  { rewrite Z.shiftl_mul_pow2, Z.mul_1_l by lia. apply u8_id.
    assert (Hcase : field esr 22 2 = 0 \/ field esr 22 2 = 1 \/ field esr 22 2 = 2 \/ field esr 22 2 = 3) by lia.
    destruct Hcase as [-> | [-> | [-> | -> ]]]; lia. }
  by rewrite Hsz.
Qed.


End Machine.

(** ** A concrete machine and witnesses *)

(** A 64-byte image asking for offset 16: header only. *)
Definition demo_image : list Z :=
  splice 0x38 (le_bytes 4 ARM64_MAGIC) (splice 8 (le_bytes 8 16) (zeros 64)).

Definition demo_cfg (data : list (string * bool)) : VmConfig :=
  mkConfig 256 1 demo_image None (Some "root.ext4"%string) data (Some "/run/vsock"%string).

Definition demo_host : Host (F := MemFile) (L := unit) (E := unit) (VB := Peers) :=
  mkHost (fun _ w => inl (demo_disk w)) (inl (mkRng tt)) (fun _ => Some (mkPeers [])) None true.

Definition demo_vm_of (data : list (string * bool)) :=
  prepare (VS := Pipe) demo_host (demo_cfg data) (Some (mkFrameQueue [] [])).

Definition demo_vm : Vm (F := MemFile) (L := unit) (E := unit) (B := FrameQueue) (VB := Peers) (VS := Pipe) :=
  match demo_vm_of [] with
  | inl vm => vm
  | inr _ => mkVm (GuestMemory_new 0 0) 1 Pl011_new [] 0 0 0 None
  end.

(** The driver of the root disk acknowledging it: a store to its status register. *)
Definition demo_store : MmioAccess := mkAccess (layout.VIRTIO_MMIO_BASE + STATUS) 4 (Some 1).
Definition demo_state := fst (dispatch_mmio 33 demo_store (vm_pl011 demo_vm) (attach_all (vm_virtio demo_vm)) (vm_mem demo_vm)).

Lemma demo_prepared : demo_vm_of [] = inl demo_vm.
Proof. reflexivity. Qed.
Lemma demo_host_ok : host_ok demo_host.
Proof. intros p w d [= <-]. split; [done|]. simpl. lia. Qed.
Lemma demo_cfg_wf data : cfg_wf (demo_cfg data).
Proof. split; [simpl; lia| |exact I]. repeat apply splice_wf; (apply le_bytes_wf || apply zeros_wf). Qed.
Lemma demo_reached :
  rtc machine_step (vm_pl011 demo_vm, attach_all (vm_virtio demo_vm), vm_mem demo_vm)
    (fst (fst demo_state), snd (fst demo_state), snd demo_state).
Proof.
  apply rtc_once. pose proof (step_dispatch 33 demo_store (vm_pl011 demo_vm)
    (attach_all (vm_virtio demo_vm)) (vm_mem demo_vm)) as Hs.
  fold demo_state in Hs. by destruct demo_state as [[u v] r].
Qed.
Lemma demo_opens : host_opens demo_host (Some "root.ext4"%string) "/run/vsock".
Proof. split; [done|by eexists|by eexists|by eexists]. Qed.
Lemma demo_placed : placed (vm_virtio demo_vm).
Proof. exact (proj1 (proj1 (proj2 (prepare_devices demo_host (demo_cfg []) (Some (mkFrameQueue [] [])) demo_vm demo_host_ok demo_prepared)))). Qed.

Lemma dispatch_routes_witness :
  exists d, vm_virtio demo_vm !! 1%nat = Some d /\
    ef_read (snd (dispatch_mmio 33 (mkAccess (layout.VIRTIO_MMIO_BASE + 0x200 + DEVICE_ID) 4 None)
      (vm_pl011 demo_vm) (vm_virtio demo_vm) (vm_mem demo_vm))) = Some 4.
Proof.
  eexists. split; [reflexivity|].
  pose proof (dispatch_routes (vm_pl011 demo_vm) (vm_virtio demo_vm) (vm_mem demo_vm)
    (mkAccess (layout.VIRTIO_MMIO_BASE + 0x200 + DEVICE_ID) 4 None) 33 1 _ demo_placed eq_refl) as Hd.
  destruct (dispatch_mmio _ _ _ _ _) as [[[u v] r] eff].
  destruct Hd as (_ & _ & _ & m & _ & _ & _ & _ & Hr); [vm_compute; split; [discriminate|reflexivity]|].
  destruct (Hr eq_refl) as [Hv _]. exact Hv.
Defined.

Lemma dispatch_elsewhere_witness :
  ef_read (snd (dispatch_mmio 33 (mkAccess 0x0a000000 4 None)
    (vm_pl011 demo_vm) (vm_virtio demo_vm) (vm_mem demo_vm))) = Some 0.
Proof.
  pose proof (dispatch_elsewhere (vm_pl011 demo_vm) (vm_virtio demo_vm) (vm_mem demo_vm)
    (mkAccess 0x0a000000 4 None) 33 demo_placed) as Hd.
  destruct (dispatch_mmio _ _ _ _ _) as [[[u v] r] eff].
  destruct Hd as (_ & _ & _ & _ & Hd); [vm_compute; discriminate|vm_compute; intros [? _]; done|].
  apply Hd. vm_compute. intros [_ Hx]. discriminate Hx.
Defined.

Lemma prepared_address_map_witness :
  exists d e, vm_virtio demo_vm !! 0%nat = Some d /\ vm_virtio demo_vm !! 4%nat = Some e /\
    vd_intid d <> vd_intid e /\ vd_base e + vd_size e <= layout.RAM_BASE.
Proof.
  do 2 eexists. split; [reflexivity|]. split; [reflexivity|].
  pose proof (prepared_address_map demo_host (demo_cfg []) (Some (mkFrameQueue [] [])) demo_vm 4 0 _ _ demo_host_ok demo_prepared
    ltac:(vm_compute; discriminate) eq_refl eq_refl) as (_ & _ & Hb & _ & Hd).
  destruct (Hd ltac:(discriminate)) as [_ Hi]. split; [intros Hx; by apply Hi|exact Hb].
Defined.

Lemma machine_safe_witness :
  ram_len (snd demo_state) = 256 /\ kinds (snd (fst demo_state)) = [KBlk false; KRng; KNet; KVsock; KBalloon].
Proof.
  destruct (machine_safe demo_host (demo_cfg []) (Some (mkFrameQueue [] [])) demo_vm _ _ _ demo_host_ok (demo_cfg_wf []) demo_prepared demo_reached)
    as (_ & _ & _ & _ & Hl & Hk & _).
  split; [exact Hl|]. rewrite Hk. reflexivity.
Defined.

Lemma decode_data_abort_spec_witness :
  decode_data_abort 0x93830046 0x09000000 (fun x => x + 100) = Some (mkAccess 0x09000000 4 (Some 103), 3).
Proof.
  rewrite (decode_data_abort_spec 0x93830046 0x09000000 (fun x => x + 100)); [reflexivity|lia].
Defined.

