(* ===== verification/Hvf.v ===== *)
(** * Hvf: the Apple Silicon backend's vcpu (crates/amber-hvf/src/lib.rs, with
    the masks of crates/amber-core/src/cpu.rs)

    [HvfVcpu::run] turns raw exits into the run loop's vocabulary: it drives
    the software GIC and the timer line before each guest entry, serves GIC
    accesses, PSCI calls and trapped system registers in place, and surfaces
    the rest. Hypervisor.framework is an interface whose state includes the
    guest, so [hv_vcpu_run] stands for everything the guest does between two
    exits. The code threads the state of the vcpu and of what the vcpus share
    through calls that can fail: a state and error monad. At the end the
    vcpus' threads are interleaved ([hvf_step]). *)

From S2P Require Import Prelude Memory VirtioMmio Virtqueue Devices Net Vsock Gicv2 Pl011 Machine.

(** ** CPU templates (cpu.rs) *)

Definition enc (op0 op1 crn crm op2 : Z) : Z :=
  Z.lor (Z.lor (Z.lor (Z.lor (Z.shiftl op0 14) (Z.shiftl op1 11)) (Z.shiftl crn 7)) (Z.shiftl crm 3)) op2.

Definition ID_AA64ISAR0_EL1 : Z := enc 3 0 0 6 0.

Record Override := mkOverride { ov_reg : Z; ov_and_mask : Z; ov_or_value : Z }.
Record CpuTemplate := mkCpuTemplate { ct_name : string; ct_overrides : list Override }.

Definition CRYPTO_FIELDS : Z := Z.lor (Z.shiftl 0xfff 4) (Z.shiftl 0xfff 32).

(** [!x] of a [u64]. *)
Definition not64 (x : Z) : Z := u64 (Z.lnot x).

Definition NO_CRYPTO : list Override := [mkOverride ID_AA64ISAR0_EL1 (not64 CRYPTO_FIELDS) 0].

Definition TEMPLATES : list CpuTemplate := [mkCpuTemplate "host" []; mkCpuTemplate "no-crypto" NO_CRYPTO].

Definition by_name (name : string) : option CpuTemplate :=
  List.find (fun t => String.eqb (ct_name t) name) TEMPLATES.
Definition names : list string := map ct_name TEMPLATES.

(** ** Hypervisor.framework *)

Definition HV_REG_X0 : Z := 0.
Definition HV_REG_PC : Z := 31.
Definition HV_REG_FPCR : Z := 32.
Definition HV_REG_FPSR : Z := 33.
Definition HV_REG_CPSR : Z := 34.
Definition HV_EXIT_REASON_CANCELED : Z := 0.
Definition HV_EXIT_REASON_EXCEPTION : Z := 1.
Definition HV_EXIT_REASON_VTIMER_ACTIVATED : Z := 2.
Definition HV_SYS_REG_MPIDR_EL1 : Z := 0xc005.
Definition HV_SYS_REG_CNTV_CTL_EL0 : Z := 0xdf19.
Definition HV_SYS_REG_CNTV_CVAL_EL0 : Z := 0xdf1a.
Definition EC_HVC64 : Z := 0x16.
Definition EC_MSR_TRAP : Z := 0x18.
Definition EC_WFX : Z := 0x01.
Definition VTIMER_INTID : Z := 27.

Record HvExit := mkExit { ex_reason : Z; ex_syndrome : Z; ex_physical_address : Z }.

(** The calls on one vcpu handle; [None] is any status but [HV_SUCCESS]. *)
Class HvVcpu (V : Type) := {
  hv_vcpu_get_reg : V -> Z -> option Z;
  hv_vcpu_set_reg : V -> Z -> Z -> option V;
  hv_vcpu_get_sys_reg : V -> Z -> option Z;
  hv_vcpu_set_sys_reg : V -> Z -> Z -> option V;
  hv_vcpu_run : V -> option (V * HvExit);
  hv_vcpu_set_vtimer_mask : V -> bool -> option V;
  hv_vcpu_set_pending_interrupt : V -> bool -> option V;
  hv_vcpu_get_vtimer_offset : V -> option Z;
  hv_vcpu_set_vtimer_offset : V -> Z -> option V;
  hv_vcpu_get_simd_fp_reg : V -> Z -> list Z
}.

(** A register the framework lets a caller name: X0 to X30, PC, FPCR, FPSR,
    CPSR. *)
Definition hv_reg (r : Z) : Prop := 0 <= r <= 34.

(** Documented behaviour: a named register can be read and written and holds
    what was written to it alone; the timer offset is independent of the
    registers. System registers may be refused, and the ID registers are
    virtualized: what is written is what is read. The timer's calls succeed on a live vcpu. *)
Class HvVcpuLaws (V : Type) `{HvVcpu V} := {
  hv_get_ok : forall v r, hv_reg r -> exists x, hv_vcpu_get_reg v r = Some x /\ fits 64 x;
  hv_set_ok : forall v r x, hv_reg r -> exists v', hv_vcpu_set_reg v r x = Some v';
  hv_get_set : forall v v' r r' x, hv_reg r -> fits 64 x -> hv_vcpu_set_reg v r x = Some v' ->
    hv_vcpu_get_reg v' r' = if r' =? r then Some x else hv_vcpu_get_reg v r';
  hv_sys_set : forall v v' r x, hv_vcpu_set_sys_reg v r x = Some v' ->
    (forall r', hv_vcpu_get_reg v' r' = hv_vcpu_get_reg v r') /\
    hv_vcpu_get_vtimer_offset v' = hv_vcpu_get_vtimer_offset v;
  hv_sys_id : forall v r x, r = ID_AA64ISAR0_EL1 -> fits 64 x ->
    exists v', hv_vcpu_set_sys_reg v r x = Some v' /\ hv_vcpu_get_sys_reg v' r = Some x /\
      forall r', r' <> r -> hv_vcpu_get_sys_reg v' r' = hv_vcpu_get_sys_reg v r';
  hv_reg_offset : forall v v' r x, hv_vcpu_set_reg v r x = Some v' ->
    hv_vcpu_get_vtimer_offset v' = hv_vcpu_get_vtimer_offset v;
  hv_set_offset : forall v v' x, fits 64 x -> hv_vcpu_set_vtimer_offset v x = Some v' ->
    hv_vcpu_get_vtimer_offset v' = Some x /\ forall r, hv_vcpu_get_reg v' r = hv_vcpu_get_reg v r;
  hv_mask_regs : forall v v' b, hv_vcpu_set_vtimer_mask v b = Some v' ->
    (forall r, hv_vcpu_get_reg v' r = hv_vcpu_get_reg v r) /\
    hv_vcpu_get_vtimer_offset v' = hv_vcpu_get_vtimer_offset v;
  hv_offset_ok : forall v, exists x, hv_vcpu_get_vtimer_offset v = Some x /\ fits 64 x;
  hv_set_offset_ok : forall v x, exists v', hv_vcpu_set_vtimer_offset v x = Some v';
  hv_mask_ok : forall v b, exists v', hv_vcpu_set_vtimer_mask v b = Some v';
  hv_pend_regs : forall v v' b, hv_vcpu_set_pending_interrupt v b = Some v' ->
    forall r, hv_vcpu_get_reg v' r = hv_vcpu_get_reg v r
}.

(** ** State *)

(** [CpuOn]. *)
Inductive CpuOn := Off | Posted (entry ctx : Z) | On.

(** What the vcpus share: PSCI slots, the software GIC (if any), the stop and
    yield flags, and how often every vcpu was forced out ([hv_vcpus_exit]). *)
Record VmShared := mkShared {
  cpu_on : list CpuOn;
  swgic : option GicV2;
  stop : bool;
  yield_now : bool;
  kicks : N
}.

Record HvfVcpu (V : Type) := mkVcpu {
  handle : V;
  cpu : nat;
  started : bool;
  pending_read_reg : Z;
  vtimer_masked : bool
}.
Arguments mkVcpu {V}.
Arguments handle {V}.
Arguments cpu {V}.
Arguments started {V}.
Arguments pending_read_reg {V}.
Arguments vtimer_masked {V}.

Inductive VmExit :=
| Mmio (access : MmioAccess)
| Idle
| Shutdown
| Fault (pc esr ipa : Z).

Definition set_cpu_on (s : VmShared) (l : list CpuOn) : VmShared := mkShared l (swgic s) (stop s) (yield_now s) (kicks s).
Definition set_gic (s : VmShared) (g : GicV2) : VmShared := mkShared (cpu_on s) (Some g) (stop s) (yield_now s) (kicks s).
Definition set_stop (s : VmShared) : VmShared := mkShared (cpu_on s) (swgic s) true (yield_now s) (kicks s).
Definition set_yield_now (s : VmShared) (b : bool) : VmShared := mkShared (cpu_on s) (swgic s) (stop s) b (kicks s).
(** [hv_vcpus_exit] on every registered handle. *)
Definition vcpus_exit (s : VmShared) : VmShared :=
  mkShared (cpu_on s) (swgic s) (stop s) (yield_now s) (kicks s + 1).

(** [self.swgic.is_some()]. *)
Definition sw_on (s : VmShared) : bool := match swgic s with Some _ => true | None => false end.

(** [HvfVm::create], what it leaves in memory ([sw] is [swgic_mode]). *)
Definition hvf_create (sw : bool) (vcpus : nat) : VmShared + Error :=
  let vcpus := Nat.max vcpus 1 in
  if sw then inl (mkShared (replicate vcpus Off) (Some (with_cpus vcpus)) false false 0)
  else if (1 <? vcpus)%nat then inr EBackend
  else inl (mkShared (replicate vcpus Off) None false false 0).

(** ** The in-kernel GIC's placement *)

(** [GicInfo] and [GicKind] (lib.rs). *)
Inductive GicKind := V2 | V3.
Record GicInfo := mkGicInfo { dist_base : Z; dist_size : Z; redist_base : Z; redist_size : Z; gic_kind : GicKind }.

(** [(x + a - 1) & !(a - 1)]. *)
Definition align_up (x a : Z) : Z :=
  if a =? 0 then x else Z.land (wadd64 x (a - 1)) (not64 (a - 1)).

(** [create_gic]'s choice of addresses, from the sizes and the alignment the
    host reports; what follows in the source configures the framework. *)
Definition create_gic (dist_sz redist_sz redist_align : Z) : GicInfo + Error :=
  let dist := layout.GIC_DIST_BASE in
  if layout.PL011_BASE <? wadd64 dist dist_sz then inr EBackend
  else
    let redist := align_up (layout.PL011_BASE + layout.PL011_SIZE) redist_align in
    if layout.RAM_BASE <? wadd64 redist redist_sz then inr EBackend
    else inl (mkGicInfo dist dist_sz redist redist_sz V3).

(** [create]'s description of the software GIC. *)
Definition sw_gic_info : GicInfo :=
  mkGicInfo layout.GIC_DIST_BASE layout.GIC_DIST_SIZE layout.GIC_CPU_BASE layout.GIC_CPU_SIZE V2.

(** [set_irq], [request_stop] and [set_yield] of the hypervisor; in-kernel
    lines are the framework's. *)
Definition hvf_set_irq (s : VmShared) (intid : Z) (level : bool) : VmShared :=
  match swgic s with Some g => set_gic s (set_level g 0 intid level) | None => s end.
Definition request_stop (s : VmShared) : VmShared := vcpus_exit (set_stop s).
Definition hvf_set_yield (s : VmShared) (on : bool) : VmShared :=
  let s' := set_yield_now s on in if on then vcpus_exit s' else s'.

(** [capture_gic] and [restore_gic] of the software GIC (the in-kernel one's
    state is the framework's). *)
Definition hvf_capture_gic (s : VmShared) : option (list Z) := gic_capture <$> swgic s.
Definition hvf_restore_gic (s : VmShared) (blob : list Z) : VmShared :=
  match swgic s with Some g => set_gic s (gic_restore g blob) | None => s end.

(** [CpuSnapshot] (snapshot.rs), the fields this backend fills. *)
Record CpuSnapshot := mkCpuSnapshot {
  cs_x : list Z;
  cs_pc : Z;
  cs_cpsr : Z;
  cs_fpcr : Z;
  cs_fpsr : Z;
  cs_vtimer_offset : Z;
  cs_mono : Z;
  cs_sysregs : list (Z * Z);
  cs_fp : list (list Z)
}.

(** ** The register table (sysregs.rs) *)

Definition SYS_REGS : list (Z * string) := [
  (0x8004, "DBGBVR0_EL1"); (0x8005, "DBGBCR0_EL1"); (0x8006, "DBGWVR0_EL1"); (0x8007, "DBGWCR0_EL1");
  (0x800c, "DBGBVR1_EL1"); (0x800d, "DBGBCR1_EL1"); (0x800e, "DBGWVR1_EL1"); (0x800f, "DBGWCR1_EL1");
  (0x8010, "MDCCINT_EL1"); (0x8012, "MDSCR_EL1"); (0x8014, "DBGBVR2_EL1"); (0x8015, "DBGBCR2_EL1");
  (0x8016, "DBGWVR2_EL1"); (0x8017, "DBGWCR2_EL1"); (0x801c, "DBGBVR3_EL1"); (0x801d, "DBGBCR3_EL1");
  (0x801e, "DBGWVR3_EL1"); (0x801f, "DBGWCR3_EL1"); (0x8024, "DBGBVR4_EL1"); (0x8025, "DBGBCR4_EL1");
  (0x8026, "DBGWVR4_EL1"); (0x8027, "DBGWCR4_EL1"); (0x802c, "DBGBVR5_EL1"); (0x802d, "DBGBCR5_EL1");
  (0x802e, "DBGWVR5_EL1"); (0x802f, "DBGWCR5_EL1"); (0x8034, "DBGBVR6_EL1"); (0x8035, "DBGBCR6_EL1");
  (0x8036, "DBGWVR6_EL1"); (0x8037, "DBGWCR6_EL1"); (0x803c, "DBGBVR7_EL1"); (0x803d, "DBGBCR7_EL1");
  (0x803e, "DBGWVR7_EL1"); (0x803f, "DBGWCR7_EL1"); (0x8044, "DBGBVR8_EL1"); (0x8045, "DBGBCR8_EL1");
  (0x8046, "DBGWVR8_EL1"); (0x8047, "DBGWCR8_EL1"); (0x804c, "DBGBVR9_EL1"); (0x804d, "DBGBCR9_EL1");
  (0x804e, "DBGWVR9_EL1"); (0x804f, "DBGWCR9_EL1"); (0x8054, "DBGBVR10_EL1"); (0x8055, "DBGBCR10_EL1");
  (0x8056, "DBGWVR10_EL1"); (0x8057, "DBGWCR10_EL1"); (0x805c, "DBGBVR11_EL1"); (0x805d, "DBGBCR11_EL1");
  (0x805e, "DBGWVR11_EL1"); (0x805f, "DBGWCR11_EL1"); (0x8064, "DBGBVR12_EL1"); (0x8065, "DBGBCR12_EL1");
  (0x8066, "DBGWVR12_EL1"); (0x8067, "DBGWCR12_EL1"); (0x806c, "DBGBVR13_EL1"); (0x806d, "DBGBCR13_EL1");
  (0x806e, "DBGWVR13_EL1"); (0x806f, "DBGWCR13_EL1"); (0x8074, "DBGBVR14_EL1"); (0x8075, "DBGBCR14_EL1");
  (0x8076, "DBGWVR14_EL1"); (0x8077, "DBGWCR14_EL1"); (0x807c, "DBGBVR15_EL1"); (0x807d, "DBGBCR15_EL1");
  (0x807e, "DBGWVR15_EL1"); (0x807f, "DBGWCR15_EL1"); (0xc000, "MIDR_EL1"); (0xc005, "MPIDR_EL1");
  (0xc020, "ID_AA64PFR0_EL1"); (0xc021, "ID_AA64PFR1_EL1"); (0xc028, "ID_AA64DFR0_EL1"); (0xc029, "ID_AA64DFR1_EL1");
  (0xc030, "ID_AA64ISAR0_EL1"); (0xc031, "ID_AA64ISAR1_EL1"); (0xc038, "ID_AA64MMFR0_EL1"); (0xc039, "ID_AA64MMFR1_EL1");
  (0xc03a, "ID_AA64MMFR2_EL1"); (0xc080, "SCTLR_EL1"); (0xc082, "CPACR_EL1"); (0xc100, "TTBR0_EL1");
  (0xc101, "TTBR1_EL1"); (0xc102, "TCR_EL1"); (0xc108, "APIAKEYLO_EL1"); (0xc109, "APIAKEYHI_EL1");
  (0xc10a, "APIBKEYLO_EL1"); (0xc10b, "APIBKEYHI_EL1"); (0xc110, "APDAKEYLO_EL1"); (0xc111, "APDAKEYHI_EL1");
  (0xc112, "APDBKEYLO_EL1"); (0xc113, "APDBKEYHI_EL1"); (0xc118, "APGAKEYLO_EL1"); (0xc119, "APGAKEYHI_EL1");
  (0xc200, "SPSR_EL1"); (0xc201, "ELR_EL1"); (0xc208, "SP_EL0"); (0xc288, "AFSR0_EL1");
  (0xc289, "AFSR1_EL1"); (0xc290, "ESR_EL1"); (0xc300, "FAR_EL1"); (0xc3a0, "PAR_EL1");
  (0xc510, "MAIR_EL1"); (0xc518, "AMAIR_EL1"); (0xc600, "VBAR_EL1"); (0xc681, "CONTEXTIDR_EL1");
  (0xc684, "TPIDR_EL1"); (0xc708, "CNTKCTL_EL1"); (0xd000, "CSSELR_EL1"); (0xde82, "TPIDR_EL0");
  (0xde83, "TPIDRRO_EL0"); (0xdf19, "CNTV_CTL_EL0"); (0xdf1a, "CNTV_CVAL_EL0"); (0xe208, "SP_EL1")
].

(** ** The state and error monad *)

Section Hvf.
Context {V : Type} `{HvVcpu V}.

Definition St : Type := (VmShared * HvfVcpu V)%type.
(** A call: the state it leaves (also when it fails) and [Result]. *)
Definition M (A : Type) : Type := St -> St * (A + Error).

Definition ret {A} (a : A) : M A := fun s => (s, inl a).
Definition fail {A} (e : Error) : M A := fun s => (s, inr e).
Definition bind {A B} (m : M A) (f : A -> M B) : M B := fun s =>
  match m s with (s', inl a) => f a s' | (s', inr e) => (s', inr e) end.
#[local] Notation "x <- m ;; k" := (bind m (fun x => k)) (at level 90, m at level 80, right associativity).
#[local] Notation "m ;;; k" := (bind m (fun _ => k)) (at level 90, right associativity).

Definition gets {A} (f : VmShared -> HvfVcpu V -> A) : M A := fun s => (s, inl (f (fst s) (snd s))).
Definition modify_shared (f : VmShared -> VmShared) : M unit := fun s => ((f (fst s), snd s), inl tt).
Definition modify_vcpu (f : HvfVcpu V -> HvfVcpu V) : M unit := fun s => ((fst s, f (snd s)), inl tt).

Definition set_handle (h : V) (v : HvfVcpu V) : HvfVcpu V :=
  mkVcpu h (cpu v) (started v) (pending_read_reg v) (vtimer_masked v).
Definition set_started (v : HvfVcpu V) : HvfVcpu V :=
  mkVcpu (handle v) (cpu v) true (pending_read_reg v) (vtimer_masked v).
Definition set_pending_read (r : Z) (v : HvfVcpu V) : HvfVcpu V :=
  mkVcpu (handle v) (cpu v) (started v) r (vtimer_masked v).
Definition set_masked (v : HvfVcpu V) : HvfVcpu V :=
  mkVcpu (handle v) (cpu v) (started v) (pending_read_reg v) true.

(** [check] of a call that reads, and of one that changes the handle. *)
Definition check_get {A} (f : V -> option A) : M A := fun s =>
  match f (handle (snd s)) with Some a => (s, inl a) | None => (s, inr EBackend) end.
Definition check_set (f : V -> option V) : M unit := fun s =>
  match f (handle (snd s)) with
  | Some h => ((fst s, set_handle h (snd s)), inl tt)
  | None => (s, inr EBackend)
  end.

(** ** Registers *)

Definition reg (r : Z) : M Z := check_get (fun h => hv_vcpu_get_reg h r).
Definition set_reg (r x : Z) : M unit := check_set (fun h => hv_vcpu_set_reg h r x).
Definition get_sys (r : Z) : M Z := check_get (fun h => hv_vcpu_get_sys_reg h r).
Definition get_x (idx : Z) : M Z := reg (HV_REG_X0 + idx).
Definition set_x (idx x : Z) : M unit := set_reg (HV_REG_X0 + idx) x.
Definition pc : M Z := reg HV_REG_PC.
Definition set_pc (x : Z) : M unit := set_reg HV_REG_PC x.
(** [let pc = self.pc()?; self.set_pc(pc + 4)?]. *)
Definition step_pc : M unit := p <- pc ;; set_pc (wadd64 p 4).

Definition complete_mmio_read (value : Z) : M unit :=
  r <- gets (fun _ v => pending_read_reg v) ;;
  if negb (r =? 31) then set_x r value else ret tt.

Definition advance_mmio : M unit := step_pc.

Definition PSTATE_EL1H_DAIF : Z := 0x3c5.

Definition set_boot_regs (entry dtb : Z) : M unit :=
  set_reg HV_REG_X0 dtb ;;;
  set_reg (HV_REG_X0 + 1) 0 ;;;
  set_reg (HV_REG_X0 + 2) 0 ;;;
  set_reg (HV_REG_X0 + 3) 0 ;;;
  set_reg HV_REG_CPSR PSTATE_EL1H_DAIF ;;;
  set_reg HV_REG_PC entry.

Fixpoint apply_overrides (ovs : list Override) : M unit :=
  match ovs with
  | [] => ret tt
  | ov :: ovs' =>
      cur <- get_sys (ov_reg ov) ;;
      check_set (fun h => hv_vcpu_set_sys_reg h (ov_reg ov) (Z.lor (Z.land cur (ov_and_mask ov)) (ov_or_value ov))) ;;;
      apply_overrides ovs'
  end.
Definition apply_cpu_template (t : CpuTemplate) : M unit := apply_overrides (ct_overrides t).

(** [HvfVm::create_vcpu], from the handle the framework created. *)
Definition create_vcpu (sh : VmShared) (h : V) (id : Z) : St + Error :=
  match hv_vcpu_set_sys_reg h HV_SYS_REG_MPIDR_EL1 (Z.lor 0x80000000 id) with
  | None => inr EBackend
  | Some h' =>
      inl (if id =? 0 then set_cpu_on sh (<[0%nat := On]> (cpu_on sh)) else sh,
           mkVcpu h' (Z.to_nat id) (id =? 0) 31 false)
  end.

(** ** Guest entry *)

(** The virtual timer's output: enabled, not masked, fired. *)
Definition timer_due (ctl : Z) : bool :=
  nz (Z.land ctl 1) && (Z.land ctl 2 =? 0) && nz (Z.land ctl 4).

Definition swgic_prep : M unit :=
  g0 <- gets (fun sh _ => swgic sh) ;;
  match g0 with
  | None => ret tt
  | Some _ =>
      masked <- gets (fun _ v => vtimer_masked v) ;;
      (if masked then ret tt
       else check_set (fun h => hv_vcpu_set_vtimer_mask h true) ;;; modify_vcpu set_masked) ;;;
      due <- gets (fun _ v => timer_due (default 0 (hv_vcpu_get_sys_reg (handle v) HV_SYS_REG_CNTV_CTL_EL0))) ;;
      c <- gets (fun _ v => cpu v) ;;
      modify_shared (fun sh => match swgic sh with
                               | Some g => set_gic sh (set_level g c VTIMER_INTID due) | None => sh end) ;;;
      pend <- gets (fun sh _ => match swgic sh with Some g => irq_pending g c | None => false end) ;;
      if pend : bool then check_set (fun h => hv_vcpu_set_pending_interrupt h true) else ret tt
  end.

(** ** Exits served in place *)

(** [(base..base + size).contains(&a)]. *)
Definition in_window (base size a : Z) : bool := (base <=? a) && (a <? base + size).

(** [swgic_mmio]: whether the access was the GIC's. *)
Definition swgic_mmio (access : MmioAccess) (r : Z) : M bool :=
  g0 <- gets (fun sh _ => swgic sh) ;;
  c <- gets (fun _ v => cpu v) ;;
  match g0 with
  | None => ret false
  | Some g =>
      let ipa := ac_ipa access in
      let in_dist := in_window layout.GIC_DIST_BASE layout.GIC_DIST_SIZE ipa in
      let in_cpu := in_window layout.GIC_CPU_BASE layout.GIC_CPU_SIZE ipa in
      if negb (in_dist || in_cpu) then ret false
      else
        let is_cpu := negb in_dist in
        let off := ipa - (if is_cpu then layout.GIC_CPU_BASE else layout.GIC_DIST_BASE) in
        match ac_write access with
        | None =>
            let '(g', v) := if is_cpu then cpu_read g c off (ac_size access)
                            else (g, dist_read g c off (ac_size access)) in
            modify_shared (fun sh => set_gic sh g') ;;;
            (if negb (r =? 31) then set_x r v else ret tt) ;;;
            ret true
        | Some value =>
            if is_cpu then
              modify_shared (fun sh => set_gic sh (cpu_write g c off (ac_size access) value)) ;;; ret true
            else
              modify_shared (fun sh => set_gic sh (dist_write g c off (ac_size access) value)) ;;;
              (if off =? 0xf00 then modify_shared vcpus_exit else ret tt) ;;;
              ret true
        end
  end.

(** PSCI over HVC. [Some] is an exit to surface. *)
Definition MINUS (n : Z) : Z := u64 (- n).

Definition psci_call : M (option VmExit) :=
  func <- get_x 0 ;;
  if (func =? 0x84000008) || (func =? 0x84000009) then ret (Some Shutdown)
  else if func =? 0x84000000 then set_x 0 0x00010000 ;;; ret None
  else if (func =? 0x84000003) || (func =? 0xc4000003) then
    t <- get_x 1 ;;
    entry <- get_x 2 ;;
    ctx <- get_x 3 ;;
    let target := Z.to_nat (Z.land t 0xff) in
    slot <- gets (fun sh _ => cpu_on sh !! target) ;;
    match slot with
    | Some Off =>
        modify_shared (fun sh => set_cpu_on sh (<[target := Posted entry ctx]> (cpu_on sh))) ;;;
        set_x 0 0 ;;; ret None
    | Some _ => set_x 0 (MINUS 4) ;;; ret None
    | None => set_x 0 (MINUS 2) ;;; ret None
    end
  else if (func =? 0x84000004) || (func =? 0xc4000004) then
    t <- get_x 1 ;;
    slot <- gets (fun sh _ => cpu_on sh !! Z.to_nat (Z.land t 0xff)) ;;
    set_x 0 (match slot with Some On | Some (Posted _ _) => 0 | _ => 1 end) ;;; ret None
  else set_x 0 (MINUS 1) ;;; ret None.

(** A trapped system register: reads give 0, writes are dropped. *)
Definition msr_trap (esr : Z) : M unit :=
  let direction_read := Z.land esr 1 =? 1 in
  let rt := Z.land (Z.shiftr esr 5) 0x1f in
  (if direction_read && negb (rt =? 31) then set_x rt 0 else ret tt) ;;;
  step_pc.

(** A data abort (or anything else an exception can be). *)
Definition abort_exit (esr ipa : Z) : M (option VmExit) :=
  h <- gets (fun _ v => handle v) ;;
  match decode_data_abort esr ipa (fun i => default 0 (hv_vcpu_get_reg h (HV_REG_X0 + i))) with
  | Some (access, r) =>
      hit <- swgic_mmio access r ;;
      if hit : bool then step_pc ;;; ret None
      else modify_vcpu (set_pending_read r) ;;; ret (Some (Mmio access))
  | None =>
      p <- gets (fun _ v => default 0 (hv_vcpu_get_reg (handle v) HV_REG_PC)) ;;
      ret (Some (Fault p esr ipa))
  end.

Definition exception_exit (esr ipa : Z) : M (option VmExit) :=
  let ec := Z.land (Z.shiftr esr 26) 0x3f in
  if ec =? EC_WFX then
    sw <- gets (fun sh _ => sw_on sh) ;;
    (if sw : bool then step_pc else ret tt) ;;; ret (Some Idle)
  else if ec =? EC_HVC64 then psci_call
  else if ec =? EC_MSR_TRAP then msr_trap esr ;;; ret None
  else abort_exit esr ipa.

(** One turn's match on the exit reason: [None] resumes in place. *)
Definition handle_exit (e : HvExit) : M (option VmExit) :=
  sw <- gets (fun sh _ => sw_on sh) ;;
  if ex_reason e =? HV_EXIT_REASON_EXCEPTION then exception_exit (ex_syndrome e) (ex_physical_address e)
  else if ex_reason e =? HV_EXIT_REASON_VTIMER_ACTIVATED then
    check_set (fun h => hv_vcpu_set_vtimer_mask h sw) ;;; ret None
  else if ex_reason e =? HV_EXIT_REASON_CANCELED then
    leave <- gets (fun sh _ => stop sh || yield_now sh) ;;
    ret (if leave : bool then Some Idle else if sw : bool then None else Some Idle)
  else
    p <- gets (fun _ v => default 0 (hv_vcpu_get_reg (handle v) HV_REG_PC)) ;;
    ret (Some (Fault p 0 0)).

Definition hv_run : M HvExit := fun s =>
  match hv_vcpu_run (handle (snd s)) with
  | Some (h, e) => ((fst s, set_handle h (snd s)), inl e)
  | None => (s, inr EBackend)
  end.

(** One turn of the loop of [run], and the loop for a started vcpu with no
    other thread in between ([None]: still running when the fuel ends). *)
Definition run_turn : M (option VmExit) := swgic_prep ;;; e <- hv_run ;; handle_exit e.

Fixpoint run_loop (fuel : nat) (s : St) : option (St * (VmExit + Error)) :=
  match fuel with
  | O => None
  | S fuel' =>
      match run_turn s with
      | (s', inl (Some e)) => Some (s', inl e)
      | (s', inl None) => run_loop fuel' s'
      | (s', inr err) => Some (s', inr err)
      end
  end.

(** ** Parking *)

Inductive ParkRes := Entered | Waits | Leaves (e : VmExit).

(** One look at the slot by a vcpu that has not been started; [timed_out] is
    how the wait that preceded it ended, if there was one. *)
Definition park_look (timed_out : bool) : M ParkRes :=
  if timed_out then ret (Leaves Idle)
  else
    c <- gets (fun _ v => cpu v) ;;
    slot <- gets (fun sh _ => cpu_on sh !! c) ;;
    match slot with
    | Some (Posted entry ctx) =>
        modify_shared (fun sh => set_cpu_on sh (<[c := On]> (cpu_on sh))) ;;;
        set_reg HV_REG_CPSR 0x3c5 ;;;
        set_pc entry ;;;
        set_x 0 ctx ;;;
        modify_vcpu set_started ;;;
        ret Entered
    | _ =>
        st <- gets (fun sh _ => stop sh) ;;
        ret (if st : bool then Leaves Idle else Waits)
    end.

(** ** Timer deadline *)

(** [mach_ticks_to_ns] with the host's timebase. *)
Definition mach_ticks_to_ns (numer denom ticks : Z) : Z :=
  if denom =? 0 then ticks else u64 (ticks * numer / denom).

Definition pending_timer_ns (mach_now numer denom : Z) : M (option Z) :=
  ctl <- get_sys HV_SYS_REG_CNTV_CTL_EL0 ;;
  if (Z.land ctl 1 =? 0) || nz (Z.land ctl 2) then ret None
  else if nz (Z.land ctl 4) then ret (Some 0)
  else
    cval <- get_sys HV_SYS_REG_CNTV_CVAL_EL0 ;;
    offset <- check_get hv_vcpu_get_vtimer_offset ;;
    let now := u64 (mach_now - offset) in
    ret (Some (if cval <=? now then 0 else mach_ticks_to_ns numer denom (cval - now))).

(** ** Capture and restore *)

Fixpoint regs_from (n : nat) (r : Z) : M (list Z) :=
  match n with
  | O => ret []
  | S n' => x <- reg r ;; xs <- regs_from n' (r + 1) ;; ret (x :: xs)
  end.

(** The system registers that can be read, with their ids. *)
Definition readable_sysregs (h : V) : list (Z * Z) :=
  omap (fun p : Z * string => (fun v => (fst p, v)) <$> hv_vcpu_get_sys_reg h (fst p)) SYS_REGS.

Definition capture (mono : Z) : M CpuSnapshot :=
  x <- regs_from 31 HV_REG_X0 ;;
  vtimer_offset <- check_get hv_vcpu_get_vtimer_offset ;;
  sysregs <- gets (fun _ v => readable_sysregs (handle v)) ;;
  fp <- gets (fun _ v => map (fun q => hv_vcpu_get_simd_fp_reg (handle v) (Z.of_nat q)) (seq 0 32)) ;;
  p <- reg HV_REG_PC ;;
  cpsr <- reg HV_REG_CPSR ;;
  fpcr <- reg HV_REG_FPCR ;;
  fpsr <- reg HV_REG_FPSR ;;
  ret (mkCpuSnapshot x p cpsr fpcr fpsr vtimer_offset mono sysregs fp).

Fixpoint set_regs_from (r : Z) (xs : list Z) : M unit :=
  match xs with
  | [] => ret tt
  | x :: xs' => set_reg r x ;;; set_regs_from (r + 1) xs'
  end.

(** A system register is written whether or not it accepts the value. *)
Definition set_sys_quiet (r x : Z) : M unit :=
  modify_vcpu (fun v => set_handle (default (handle v) (hv_vcpu_set_sys_reg (handle v) r x)) v).

Fixpoint restore_sysregs (restore_cntv : bool) (l : list (Z * Z)) : M unit :=
  match l with
  | [] => ret tt
  | (id, x) :: l' =>
      (if negb restore_cntv && ((id =? HV_SYS_REG_CNTV_CTL_EL0) || (id =? HV_SYS_REG_CNTV_CVAL_EL0))
       then ret tt else set_sys_quiet id x) ;;;
      restore_sysregs restore_cntv l'
  end.

(** [alter] is [get_mut]: a slot the machine does not have is left alone. *)
Definition restore (now : Z) (s : CpuSnapshot) : M unit :=
  modify_vcpu set_started ;;;
  c <- gets (fun _ v => cpu v) ;;
  modify_shared (fun sh => set_cpu_on sh (alter (fun _ => On) c (cpu_on sh))) ;;;
  set_regs_from HV_REG_X0 (cs_x s) ;;;
  let captured_cntvct := u64 (cs_mono s - cs_vtimer_offset s) in
  let new_offset := u64 (now - captured_cntvct) in
  check_set (fun h => hv_vcpu_set_vtimer_offset h new_offset) ;;;
  check_set (fun h => hv_vcpu_set_vtimer_mask h false) ;;;
  restore_cntv <- gets (fun sh _ => sw_on sh) ;;
  restore_sysregs restore_cntv (cs_sysregs s) ;;;
  set_reg HV_REG_FPCR (cs_fpcr s) ;;;
  set_reg HV_REG_FPSR (cs_fpsr s) ;;;
  set_reg HV_REG_CPSR (cs_cpsr s) ;;;
  set_reg HV_REG_PC (cs_pc s).

(** ** Threads *)

(** Where a vcpu's thread is: outside [run], waiting for CPU_ON, at the top of
    the loop, in the guest, or ended by an error. *)
Inductive Phase := TOut | TPark | TTop | TGuest | TDead.

Record HvfWorld := mkWorld { w_sh : VmShared; w_threads : list (HvfVcpu V * Phase) }.

Definition put_thread (w : HvfWorld) (i : nat) (s : St) (p : Phase) : HvfWorld :=
  mkWorld (fst s) (<[i := (snd s, p)]> (w_threads w)).

Definition after_park (r : ParkRes + Error) : Phase :=
  match r with inl Entered => TTop | inl Waits => TPark | inl (Leaves _) => TOut | inr _ => TDead end.
Definition after_prep (r : unit + Error) : Phase := match r with inl _ => TGuest | inr _ => TDead end.
Definition after_exit (r : option VmExit + Error) : Phase :=
  match r with inl None => TTop | inl (Some _) => TOut | inr _ => TDead end.

(** One step of one thread: its call of [run], a look at its slot, a guest
    entry, an exit, or the completion of a device access by the run loop; or
    a device line, a stop or a yield from elsewhere. *)
Inductive hvf_step : HvfWorld -> HvfWorld -> Prop :=
| h_call w i v : w_threads w !! i = Some (v, TOut) ->
    hvf_step w (put_thread w i (w_sh w, v) (if started v then TTop else TPark))
| h_park w i v timed_out s r : w_threads w !! i = Some (v, TPark) ->
    park_look timed_out (w_sh w, v) = (s, r) -> hvf_step w (put_thread w i s (after_park r))
| h_prep w i v s r : w_threads w !! i = Some (v, TTop) ->
    swgic_prep (w_sh w, v) = (s, r) -> hvf_step w (put_thread w i s (after_prep r))
| h_exit w i v h e s r : w_threads w !! i = Some (v, TGuest) ->
    hv_vcpu_run (handle v) = Some (h, e) -> handle_exit e (w_sh w, set_handle h v) = (s, r) ->
    hvf_step w (put_thread w i s (after_exit r))
| h_run_fails w i v : w_threads w !! i = Some (v, TGuest) -> hv_vcpu_run (handle v) = None ->
    hvf_step w (put_thread w i (w_sh w, v) TDead)
| h_complete w i v value s : w_threads w !! i = Some (v, TOut) ->
    (complete_mmio_read value ;;; advance_mmio) (w_sh w, v) = (s, inl tt) -> hvf_step w (put_thread w i s TOut)
| h_stored w i v s : w_threads w !! i = Some (v, TOut) ->
    advance_mmio (w_sh w, v) = (s, inl tt) -> hvf_step w (put_thread w i s TOut)
| h_irq w intid level : hvf_step w (mkWorld (hvf_set_irq (w_sh w) intid level) (w_threads w))
| h_stop w : hvf_step w (mkWorld (request_stop (w_sh w)) (w_threads w))
| h_yield w on : hvf_step w (mkWorld (hvf_set_yield (w_sh w) on) (w_threads w)).

(** [n] vcpus on fresh handles, the primary's slot on, nothing running. *)
Definition hvf_start (hs : list V) : HvfWorld :=
  mkWorld (mkShared (On :: replicate (length hs - 1) Off) (Some (with_cpus (length hs))) false false 0)
    (imap (fun i h => (mkVcpu h i (i =? 0)%nat 31 false, TOut)) hs).

Definition slot (w : HvfWorld) (i : nat) : option CpuOn := cpu_on (w_sh w) !! i.

(** Register [r] as the guest left it. *)
Definition xh (h : V) (r : Z) : Z := default 0 (hv_vcpu_get_reg h r).
End Hvf.

Arguments HvfWorld V : clear implicits.
Arguments St V : clear implicits.
Arguments mkWorld {V}.
Arguments w_sh {V}.
Arguments w_threads {V}.

(** ** Lemmas *)

Section HvfLaws.
Context {V : Type} `{HvVcpuLaws V}.

#[local] Notation "x <- m ;; k" := (bind m (fun x => k)) (at level 90, m at level 80, right associativity).
#[local] Notation "m ;;; k" := (bind m (fun _ => k)) (at level 90, right associativity).

Ltac regs := unfold hv_reg, HV_REG_X0, HV_REG_PC, HV_REG_FPCR, HV_REG_FPSR, HV_REG_CPSR in *; lia.

Lemma xh_fits (h : V) (r : Z) : hv_reg r -> fits 64 (xh h r).
Proof. intros Hr. unfold xh. by destruct (hv_get_ok h r Hr) as [x [-> Hx]]. Qed.

Lemma reg_ok (s : St V) (r : Z) : hv_reg r -> reg r s = (s, inl (xh (handle (snd s)) r)).
Proof. intros Hr. unfold reg, check_get, xh. by destruct (hv_get_ok (handle (snd s)) r Hr) as [x [-> Hx]]. Qed.

Lemma set_reg_ok (s : St V) (r x : Z) : hv_reg r -> fits 64 x ->
  exists h, set_reg r x s = ((fst s, set_handle h (snd s)), inl tt) /\
    hv_vcpu_get_vtimer_offset h = hv_vcpu_get_vtimer_offset (handle (snd s)) /\
    forall r', hv_vcpu_get_reg h r' = if r' =? r then Some x else hv_vcpu_get_reg (handle (snd s)) r'.
Proof.
  intros Hr Hx. unfold set_reg, check_set.
  destruct (hv_set_ok (handle (snd s)) r x Hr) as [h Hh]. rewrite Hh. exists h.
  split; [done|]. split; [by eapply hv_reg_offset|]. intros r'. by eapply hv_get_set.
Qed.

Lemma bind_ok {A B} (m : M A) (f : A -> M B) (s s' : St V) (a : A) :
  m s = (s', inl a) -> bind m f s = f a s'.
Proof. intros E. unfold bind. by rewrite E. Qed.

Lemma bind_assoc {A B C} (m : M A) (f : A -> M B) (g : B -> M C) (s : St V) :
  bind (bind m f) g s = bind m (fun a => bind (f a) g) s.
Proof. unfold bind. destruct (m s) as [s' [a|e]]; done. Qed.

(** *** Calls that leave the slots and the thread's identity alone *)

Definition quiet {A} (m : M A) : Prop := forall s : St V,
  cpu_on (fst (fst (m s))) = cpu_on (fst s) /\ cpu (snd (fst (m s))) = cpu (snd s) /\
  started (snd (fst (m s))) = started (snd s).

Lemma quiet_ret {A} (a : A) : quiet (ret a).
Proof. done. Qed.
Lemma quiet_gets {A} (f : VmShared -> HvfVcpu V -> A) : quiet (gets f).
Proof. done. Qed.
Lemma quiet_bind {A B} (m : M A) (f : A -> M B) : quiet m -> (forall a, quiet (f a)) -> quiet (bind m f).
Proof.
  intros Hm Hf s. specialize (Hm s). unfold bind. destruct (m s) as [s' [a|e]]; [|done].
  destruct Hm as (A1 & A2 & A3), (Hf a s') as (B1 & B2 & B3). cbn in *.
  split; [by rewrite B1|]. split; [by rewrite B2|by rewrite B3].
Qed.
Lemma quiet_check_get {A} (f : V -> option A) : quiet (check_get f).
Proof. intros s. unfold check_get. by destruct (f _). Qed.
Lemma quiet_check_set (f : V -> option V) : quiet (check_set f).
Proof. intros s. unfold check_set. by destruct (f _). Qed.
Lemma quiet_shared (f : VmShared -> VmShared) :
  (forall sh, cpu_on (f sh) = cpu_on sh) -> quiet (modify_shared (V:=V) f).
Proof. intros Hf s. cbn. done. Qed.

Lemma quiet_vcpu (f : HvfVcpu V -> HvfVcpu V) :
  (forall v, cpu (f v) = cpu v) -> (forall v, started (f v) = started v) -> quiet (modify_vcpu f).
Proof. intros Hf Hg s. cbn. done. Qed.

Ltac quiet_solve := repeat first
  [ apply quiet_ret | apply quiet_gets | apply quiet_check_get | apply quiet_check_set
  | apply quiet_bind; [|intros ?]
  | apply quiet_shared; by intros [? [] ? ? ?]
  | apply quiet_vcpu; [by intros []|by intros []]
  | match goal with
    | |- quiet (match ?x with _ => _ end) => destruct x
    | |- quiet (let '(_, _) := ?x in _) => destruct x
    end ].

Lemma step_pc_quiet : quiet step_pc.
Proof. unfold step_pc, pc, set_pc, reg, set_reg. quiet_solve. Qed.
Lemma set_x_quiet r x : quiet (set_x r x).
Proof. unfold set_x, set_reg. quiet_solve. Qed.
Lemma swgic_prep_quiet : quiet swgic_prep.
Proof. unfold swgic_prep. quiet_solve. Qed.
Lemma swgic_mmio_quiet a r : quiet (swgic_mmio a r).
Proof. unfold swgic_mmio, set_x, set_reg. quiet_solve. Qed.
Lemma msr_trap_quiet esr : quiet (msr_trap esr).
Proof. unfold msr_trap, step_pc, set_x, pc, set_pc, reg, set_reg. cbv zeta. quiet_solve. Qed.
Lemma abort_exit_quiet esr ipa : quiet (abort_exit esr ipa).
Proof.
  unfold abort_exit. apply quiet_bind; [quiet_solve|intros h].
  destruct (decode_data_abort _ _ _) as [[a r]|]; [|quiet_solve].
  apply quiet_bind; [apply swgic_mmio_quiet|intros []]; [|quiet_solve].
  apply quiet_bind; [apply step_pc_quiet|quiet_solve].
Qed.
Lemma complete_quiet x : quiet (complete_mmio_read x ;;; advance_mmio).
Proof.
  unfold complete_mmio_read, advance_mmio.
  apply quiet_bind; [|intros _; apply step_pc_quiet].
  apply quiet_bind; [quiet_solve|intros r]. destruct (negb _); [apply set_x_quiet|quiet_solve].
Qed.

(** *** PSCI *)

(** What a PSCI call does to x0 and the slots, by its function id. *)
Definition psci_ref (func x1 x2 x3 : Z) (l : list CpuOn) : Z * list CpuOn :=
  let target := Z.to_nat (Z.land x1 0xff) in
  if func =? 0x84000000 then (0x00010000, l)
  else if (func =? 0x84000003) || (func =? 0xc4000003) then
    match l !! target with
    | Some Off => (0, <[target := Posted x2 x3]> l)
    | Some _ => (MINUS 4, l)
    | None => (MINUS 2, l)
    end
  else if (func =? 0x84000004) || (func =? 0xc4000004) then
    (match l !! target with Some On | Some (Posted _ _) => 0 | _ => 1 end, l)
  else (MINUS 1, l).

Lemma set_x0_answer (s : St V) (x : Z) (f : VmShared -> VmShared) :
  fits 64 x ->
  exists h', (set_x 0 x ;;; ret None) (f (fst s), snd s) = ((f (fst s), set_handle h' (snd s)), @inl (option VmExit) Error None) /\
    xh h' 0 = x /\ forall r, 1 <= r <= 34 -> xh h' r = xh (handle (snd s)) r.
Proof.
  intros Hx. destruct (set_reg_ok (f (fst s), snd s) 0 x ltac:(regs) Hx) as (h & E & _ & Hr).
  exists h. unfold set_x. change (HV_REG_X0 + 0) with 0. erewrite bind_ok by exact E. split; [done|].
  unfold xh. rewrite Hr. split; [done|]. intros r Hrr. rewrite Hr.
  by rewrite (proj2 (Z.eqb_neq r 0)) by lia.
Qed.

Lemma psci_call_spec (s : St V) :
  let h := handle (snd s) in
  if (xh h 0 =? 0x84000008) || (xh h 0 =? 0x84000009) then psci_call s = (s, inl (Some Shutdown))
  else exists h', psci_call s = ((set_cpu_on (fst s) (snd (psci_ref (xh h 0) (xh h 1) (xh h 2) (xh h 3) (cpu_on (fst s)))),
                                   set_handle h' (snd s)), inl None) /\
    xh h' 0 = fst (psci_ref (xh h 0) (xh h 1) (xh h 2) (xh h 3) (cpu_on (fst s))) /\
    forall r, 1 <= r <= 34 -> xh h' r = xh h r.
Proof.
  cbv zeta. unfold psci_call.
  assert (G : forall i, 0 <= i <= 30 -> get_x i s = (s, inl (xh (handle (snd s)) i)))
    by (intros i Hi; unfold get_x, HV_REG_X0; apply reg_ok; unfold hv_reg; lia).
  erewrite bind_ok by (apply G; lia).
  set (f := xh (handle (snd s)) 0).
  destruct ((f =? 0x84000008) || (f =? 0x84000009)); [done|].
  assert (Same : fst s = set_cpu_on (fst s) (cpu_on (fst s))) by (by destruct s as [[] ?]).
  assert (A : forall (x : Z) (l : list CpuOn), fits 64 x ->
    exists h', (set_x 0 x ;;; ret None) (set_cpu_on (fst s) l, snd s) =
        ((set_cpu_on (fst s) l, set_handle h' (snd s)), @inl (option VmExit) Error None) /\
      xh h' 0 = x /\ forall r, 1 <= r <= 34 -> xh h' r = xh (handle (snd s)) r).
  { intros x l Hx. exact (set_x0_answer s x (fun sh => set_cpu_on sh l) Hx). }
  assert (A0 : forall x, fits 64 x -> exists h', (set_x 0 x ;;; ret None) s =
        ((set_cpu_on (fst s) (cpu_on (fst s)), set_handle h' (snd s)), @inl (option VmExit) Error None) /\
      xh h' 0 = x /\ forall r, 1 <= r <= 34 -> xh h' r = xh (handle (snd s)) r).
  { intros x Hx. destruct (A x (cpu_on (fst s)) Hx) as (h' & E & R). rewrite <- Same, <- surjective_pairing in E.
    exists h'. rewrite <- Same. by split. }
  unfold psci_ref. destruct (f =? 0x84000000); [apply A0; cbn [fst snd]; lia|].
  destruct ((f =? 0x84000003) || (f =? 0xc4000003)).
  { erewrite bind_ok by (apply G; lia). erewrite bind_ok by (apply G; lia).
    erewrite bind_ok by (apply G; lia). cbv zeta. erewrite bind_ok by done.
    set (target := Z.to_nat _).
    destruct (cpu_on (fst s) !! target) as [[]|]; [|apply A0; cbn [fst]; vm_compute; split; congruence..].
    erewrite bind_ok by done. apply A; cbn [fst snd]; lia. }
  destruct ((f =? 0x84000004) || (f =? 0xc4000004)).
  { erewrite bind_ok by (apply G; lia). erewrite bind_ok by done.
    destruct (cpu_on (fst s) !! _) as [[]|]; apply A0; cbn [fst snd]; lia. }
  apply A0. vm_compute; split; congruence.
Qed.

(** *** Parking and the slots *)

Lemma park_look_spec (b : bool) (s : St V) :
  (forall e c, cpu_on (fst s) !! cpu (snd s) = Some (Posted e c) -> fits 64 e /\ fits 64 c) ->
  match cpu_on (fst s) !! cpu (snd s), b with
  | Some (Posted entry ctx), false =>
      exists h, park_look b s =
          ((set_cpu_on (fst s) (<[cpu (snd s) := On]> (cpu_on (fst s))), set_started (set_handle h (snd s))), inl Entered) /\
        xh h HV_REG_PC = entry /\ xh h 0 = ctx /\ xh h HV_REG_CPSR = 0x3c5 /\
        forall r, 1 <= r <= 33 -> r <> HV_REG_PC -> xh h r = xh (handle (snd s)) r
  | _, _ => park_look b s = (s, inl (Leaves Idle)) \/ park_look b s = (s, inl Waits)
  end.
Proof.
  intros Hf. unfold park_look. destruct b; [destruct (cpu_on _ !! _) as [[]|]; by left|].
  erewrite bind_ok by done. erewrite bind_ok by done.
  destruct (cpu_on (fst s) !! cpu (snd s)) as [[|entry ctx|]|] eqn:E;
    try (erewrite bind_ok by done; destruct (stop (fst s)); [by left|by right]).
  destruct (Hf _ _ eq_refl) as [He Hc]. erewrite bind_ok by done.
  set (s1 := (_, snd s)).
  destruct (set_reg_ok s1 HV_REG_CPSR 0x3c5 ltac:(regs) ltac:(lia)) as (h1 & E1 & _ & R1).
  erewrite bind_ok by exact E1.
  destruct (set_reg_ok (fst s1, set_handle h1 (snd s1)) HV_REG_PC entry ltac:(regs) He) as (h2 & E2 & _ & R2).
  unfold set_pc. erewrite bind_ok by exact E2.
  destruct (set_reg_ok (fst s1, set_handle h2 (snd s1)) HV_REG_X0 ctx ltac:(regs) Hc) as (h3 & E3 & _ & R3).
  unfold set_x. change (HV_REG_X0 + 0) with HV_REG_X0. erewrite bind_ok by exact E3.
  exists h3. split; [done|]. cbn [fst snd handle set_handle] in R1, R2, R3.
  unfold xh. split; [by rewrite R3, R2|]. split; [by rewrite R3|]. split; [by rewrite R3, R2, R1|].
  intros r Hr Hn. rewrite R3, R2, R1. unfold HV_REG_X0, HV_REG_CPSR, HV_REG_PC in *.
  rewrite (proj2 (Z.eqb_neq r 0)), (proj2 (Z.eqb_neq r 31)), (proj2 (Z.eqb_neq r 34)) by lia. done.
Qed.

(** The exit was a CPU_ON call, by the framework's account of it. *)
Definition cpu_on_call (e : HvExit) (h : V) (target : nat) (entry ctx : Z) : Prop :=
  ex_reason e = HV_EXIT_REASON_EXCEPTION /\ Z.land (Z.shiftr (ex_syndrome e) 26) 0x3f = EC_HVC64 /\
  (xh h 0 = 0x84000003 \/ xh h 0 = 0xc4000003) /\
  target = Z.to_nat (Z.land (xh h 1) 0xff) /\ entry = xh h 2 /\ ctx = xh h 3.

Lemma handle_exit_slots (e : HvExit) (s : St V) :
  let s' := fst (handle_exit e s) in
  cpu (snd s') = cpu (snd s) /\ started (snd s') = started (snd s) /\
  (cpu_on (fst s') = cpu_on (fst s) \/
   exists target entry ctx, cpu_on_call e (handle (snd s)) target entry ctx /\
     cpu_on (fst s) !! target = Some Off /\ xh (handle (snd s')) 0 = 0 /\
     cpu_on (fst s') = <[target := Posted entry ctx]> (cpu_on (fst s))).
Proof.
  cbv zeta. unfold handle_exit. erewrite bind_ok by done.
  assert (Q : forall m : M (option VmExit), quiet m ->
    cpu (snd (fst (m s))) = cpu (snd s) /\ started (snd (fst (m s))) = started (snd s) /\
    cpu_on (fst (fst (m s))) = cpu_on (fst s)) by (intros m Hm; destruct (Hm s) as (? & ? & ?); done).
  assert (Q' : forall m : M (option VmExit), quiet m ->
    cpu (snd (fst (m s))) = cpu (snd s) /\ started (snd (fst (m s))) = started (snd s) /\
    (cpu_on (fst (fst (m s))) = cpu_on (fst s) \/ exists target entry ctx,
       cpu_on_call e (handle (snd s)) target entry ctx /\
       cpu_on (fst s) !! target = Some Off /\ xh (handle (snd (fst (m s)))) 0 = 0 /\
       cpu_on (fst (fst (m s))) = <[target := Posted entry ctx]> (cpu_on (fst s))))
    by (intros m Hm; destruct (Q m Hm) as (? & ? & ?); auto).
  destruct (Z.eqb_spec (ex_reason e) HV_EXIT_REASON_EXCEPTION) as [Er|_]; [|apply Q'; quiet_solve].
  unfold exception_exit. cbv zeta.
  destruct (_ =? EC_WFX); [apply Q'|].
  { apply quiet_bind; [quiet_solve|intros []]; (apply quiet_bind; [|quiet_solve]);
      [apply step_pc_quiet|quiet_solve]. }
  destruct (Z.eqb_spec (Z.land (Z.shiftr (ex_syndrome e) 26) 63) EC_HVC64) as [Eh|_].
  2: { destruct (_ =? EC_MSR_TRAP); apply Q'; [|apply abort_exit_quiet].
       apply quiet_bind; [apply msr_trap_quiet|quiet_solve]. }
  clear Q Q'. pose proof (psci_call_spec s) as P. cbv zeta in P.
  destruct (_ || _); [rewrite P; auto|].
  destruct P as (h' & -> & Hx0 & _). cbn [fst snd]. split; [done|]. split; [done|].
  cbn [cpu_on set_cpu_on handle set_handle]. rewrite Hx0. unfold psci_ref.
  destruct (_ =? 0x84000000); [by left|].
  destruct ((xh (handle (snd s)) 0 =? 0x84000003) || _) eqn:Eo.
  2: { left. by destruct ((_ =? 0x84000004) || _). }
  destruct (cpu_on (fst s) !! _) as [[]|] eqn:El; [|by left..].
  right. eexists _, _, _. split; [|by split_and!].
  apply orb_true_iff in Eo. rewrite !Z.eqb_eq in Eo. by split_and!.
Qed.

(** *** The invariant of the threads *)

Definition thread_ok (l : list CpuOn) (i : nat) (t : HvfVcpu V * Phase) : Prop :=
  cpu (fst t) = i /\ (started (fst t) = true <-> l !! i = Some On) /\
  (snd t = TTop \/ snd t = TGuest -> started (fst t) = true).

Record hvf_inv (w : HvfWorld V) : Prop := {
  hi_threads : forall i t, w_threads w !! i = Some t -> thread_ok (cpu_on (w_sh w)) i t;
  hi_len : length (cpu_on (w_sh w)) = length (w_threads w);
  hi_posted : forall i e c, cpu_on (w_sh w) !! i = Some (Posted e c) -> fits 64 e /\ fits 64 c
}.

(** A step that changes no slot and keeps the thread's identity. *)
Lemma hvf_inv_same (w : HvfWorld V) (i : nat) (v v' : HvfVcpu V) (p p' : Phase) (sh : VmShared) :
  hvf_inv w -> w_threads w !! i = Some (v, p) -> cpu_on sh = cpu_on (w_sh w) ->
  cpu v' = cpu v -> started v' = started v -> (p' = TTop \/ p' = TGuest -> started v = true) ->
  hvf_inv (put_thread w i (sh, v') p').
Proof.
  intros [T L P] Ei Es Ec Est Hp. constructor; cbn [w_sh w_threads put_thread fst snd]; rewrite ?Es.
  - intros j t. rewrite list_lookup_insert_Some. intros [(-> & <- & _)|[_ Ht]]; [|by apply T].
    destruct (T _ _ Ei) as (A & B & _). unfold thread_ok. cbn [fst snd] in *. by rewrite Ec, Est.
  - by rewrite length_insert.
  - exact P.
Qed.

Lemma started_phase (w : HvfWorld V) (i : nat) (v : HvfVcpu V) (p : Phase) :
  hvf_inv w -> w_threads w !! i = Some (v, p) -> p = TTop \/ p = TGuest -> started v = true.
Proof. intros [T _ _] Ei. by destruct (T _ _ Ei) as (_ & _ & ?). Qed.

(** How a slot may change in a step. *)
Definition slot_change (w w' : HvfWorld V) (i : nat) (a b : CpuOn) : Prop :=
  match a, b with
  | Off, Posted entry ctx =>
      exists j v h x v' p', w_threads w !! j = Some (v, TGuest) /\ hv_vcpu_run (handle v) = Some (h, x) /\
        cpu_on_call x h i entry ctx /\ w_threads w' !! j = Some (v', p') /\ xh (handle v') 0 = 0
  | Posted entry ctx, On =>
      exists v', w_threads w' !! i = Some (v', TTop) /\ started v' = true /\ xh (handle v') HV_REG_PC = entry /\
        xh (handle v') 0 = ctx /\ xh (handle v') HV_REG_CPSR = 0x3c5
  | _, _ => a = b
  end.

Definition step_good (w w' : HvfWorld V) : Prop :=
  hvf_inv w' /\ forall i a, slot w i = Some a -> exists b, slot w' i = Some b /\ slot_change w w' i a b.

Lemma step_good_same (w w' : HvfWorld V) :
  hvf_inv w' -> cpu_on (w_sh w') = cpu_on (w_sh w) -> step_good w w'.
Proof.
  intros Hi E. split; [done|]. intros i a Ha. exists a. unfold slot in *. rewrite E.
  split; [done|]. by destruct a.
Qed.

Lemma put_thread_good (w : HvfWorld V) (i : nat) (v : HvfVcpu V) (p p' : Phase) (s : St V) :
  hvf_inv w -> w_threads w !! i = Some (v, p) -> cpu_on (fst s) = cpu_on (w_sh w) ->
  cpu (snd s) = cpu v -> started (snd s) = started v -> (p' = TTop \/ p' = TGuest -> started v = true) ->
  step_good w (put_thread w i s p').
Proof.
  intros Hi Ei E Ec Es Hp. apply step_good_same; [|done]. destruct s as [sh v']. by eapply hvf_inv_same.
Qed.

Lemma quiet_good {A} (m : M A) (w : HvfWorld V) (i : nat) (v : HvfVcpu V) (p p' : Phase) (s : St V) (r : A + Error) :
  quiet m -> hvf_inv w -> w_threads w !! i = Some (v, p) -> m (w_sh w, v) = (s, r) ->
  (p' = TTop \/ p' = TGuest -> started v = true) -> step_good w (put_thread w i s p').
Proof.
  intros Hm Hi Ei E Hp. destruct (Hm (w_sh w, v)) as (A1 & A2 & A3). rewrite E in A1, A2, A3.
  by eapply put_thread_good.
Qed.

Lemma shared_good (w : HvfWorld V) (sh : VmShared) :
  hvf_inv w -> cpu_on sh = cpu_on (w_sh w) -> step_good w (mkWorld sh (w_threads w)).
Proof.
  intros [T L P] E. apply step_good_same; [|done].
  constructor; cbn [w_sh w_threads]; by rewrite ?E.
Qed.

Lemma lookup_insert_case {A} (l : list A) (k j : nat) (c x : A) :
  <[k := c]> l !! j = Some x -> (k = j /\ x = c /\ (j < length l)%nat) \/ (k <> j /\ l !! j = Some x).
Proof. rewrite list_lookup_insert_Some. intros [(-> & <- & Hl)|?]; [left; by split_and!|by right]. Qed.

(** CPU_ON posts to an [Off] slot. *)
Lemma post_inv (w : HvfWorld V) (k i : nat) (e c : Z) (v v' : HvfVcpu V) (p p' : Phase) (sh : VmShared) :
  hvf_inv w -> w_threads w !! i = Some (v, p) -> cpu_on (w_sh w) !! k = Some Off ->
  cpu_on sh = <[k := Posted e c]> (cpu_on (w_sh w)) -> fits 64 e -> fits 64 c ->
  cpu v' = cpu v -> started v' = started v -> started v = true ->
  hvf_inv (put_thread w i (sh, v') p').
Proof.
  intros [T L P] Ei Ek Es He Hc Ec Est Hs. constructor; cbn [w_sh w_threads put_thread fst snd]; rewrite Es.
  - assert (Keep : forall j t, thread_ok (cpu_on (w_sh w)) j t ->
      thread_ok (<[k := Posted e c]> (cpu_on (w_sh w))) j t).
    { intros j t (A & B & C). split; [done|]. split; [|done]. rewrite B.
      destruct (decide (k = j)) as [->|]; [|by rewrite list_lookup_insert_ne].
      rewrite list_lookup_insert_eq by (by eapply lookup_lt_Some). rewrite Ek. by split. }
    intros j t [(<- & -> & _)|[_ Ht]]%lookup_insert_case; [|by apply Keep, T].
    destruct (Keep _ _ (T _ _ Ei)) as (A & B & _). unfold thread_ok. cbn [fst snd] in *.
    by rewrite Ec, Est.
  - by rewrite !length_insert.
  - intros j e' c' [(-> & [= -> ->] & _)|[_ Hj]]%lookup_insert_case; [done|by eapply P].
Qed.

(** A posted vcpu takes its slot. *)
Lemma enter_inv (w : HvfWorld V) (i : nat) (v v' : HvfVcpu V) (p : Phase) (sh : VmShared) :
  hvf_inv w -> w_threads w !! i = Some (v, p) -> cpu_on sh = <[i := On]> (cpu_on (w_sh w)) ->
  cpu v' = cpu v -> started v' = true -> hvf_inv (put_thread w i (sh, v') TTop).
Proof.
  intros [T L P] Ei Es Ec Est. constructor; cbn [w_sh w_threads put_thread fst snd]; rewrite Es.
  - intros j t [(<- & -> & Hl)|[Hn Ht]]%lookup_insert_case.
    + destruct (T _ _ Ei) as (A & _). unfold thread_ok. cbn [fst snd] in *.
      rewrite Ec, Est, list_lookup_insert_eq by (by rewrite L). by split_and!.
    + destruct (T _ _ Ht) as (A & B & C). unfold thread_ok. by rewrite list_lookup_insert_ne.
  - by rewrite !length_insert.
  - intros j e' c' [(-> & [=] & _)|[_ Hj]]%lookup_insert_case. by eapply P.
Qed.

Lemma park_good (w : HvfWorld V) (i : nat) (v : HvfVcpu V) (b : bool) (s : St V) (r : ParkRes + Error) :
  hvf_inv w -> w_threads w !! i = Some (v, TPark) -> park_look b (w_sh w, v) = (s, r) ->
  step_good w (put_thread w i s (after_park r)).
Proof.
  intros Hi Ei E. pose proof Hi as [T L P]. destruct (T _ _ Ei) as (Ec & _). cbn in Ec.
  pose proof (park_look_spec b (w_sh w, v)) as S. cbn [fst snd] in S. rewrite Ec in S.
  specialize (S (P i)).
  assert (Same : forall r', (r' = Leaves Idle \/ r' = Waits) -> park_look b (w_sh w, v) = ((w_sh w, v), inl r') ->
    step_good w (put_thread w i s (after_park r))).
  { intros r' Hr E'. rewrite E in E'. injection E' as -> ->.
    eapply put_thread_good; [done..|]. destruct Hr; subst; cbn; intuition congruence. }
  destruct (cpu_on (w_sh w) !! i) as [[|entry ctx|]|] eqn:El; [|destruct b|..];
    try (destruct S as [S|S]; (eapply Same; [|exact S]); auto).
  destruct S as (h & S & Hpc & Hx0 & Hps & _). rewrite E in S. injection S as -> ->. cbn [after_park].
  split; [by eapply enter_inv|]. unfold slot. cbn [w_sh put_thread fst snd cpu_on set_cpu_on].
  intros j a Ha. destruct (decide (i = j)) as [<-|Hn].
  - rewrite El in Ha. injection Ha as <-. exists On. split; [apply list_lookup_insert_eq; by eapply lookup_lt_Some|].
    eexists. split; [cbn; apply list_lookup_insert_eq; by eapply lookup_lt_Some|]. by split_and!.
  - exists a. rewrite list_lookup_insert_ne by done. split; [done|]. by destruct a.
Qed.

Lemma exit_good (w : HvfWorld V) (i : nat) (v : HvfVcpu V) (h : V) (x : HvExit) (s : St V) (r : option VmExit + Error) :
  hvf_inv w -> w_threads w !! i = Some (v, TGuest) -> hv_vcpu_run (handle v) = Some (h, x) ->
  handle_exit x (w_sh w, set_handle h v) = (s, r) -> step_good w (put_thread w i s (after_exit r)).
Proof.
  intros Hi Ei Er E. assert (Hst : started v = true) by (eapply started_phase; [done..|by right]).
  pose proof (handle_exit_slots x (w_sh w, set_handle h v)) as S. cbv zeta in S. rewrite E in S. cbn [fst snd] in S.
  destruct S as (Ec & Es & [Eq|(k & e & c & Hcall & Ek & Hx0 & Eq)]); [by eapply put_thread_good|].
  pose proof Hcall as (_ & _ & _ & _ & -> & ->). destruct s as [sh v']. cbn [fst snd] in *.
  split.
  { eapply post_inv; try done; apply xh_fits; regs. }
  unfold slot. cbn [w_sh put_thread fst snd]. rewrite Eq. intros j a Ha.
  destruct (decide (k = j)) as [<-|Hn].
  - rewrite Ek in Ha. injection Ha as <-. eexists. split; [apply list_lookup_insert_eq; by eapply lookup_lt_Some|].
    exists i, v, h, x, v', (after_exit r). split; [done|]. split; [done|]. split; [done|].
    split; [|done]. cbn. apply list_lookup_insert_eq. by eapply lookup_lt_Some.
  - exists a. rewrite list_lookup_insert_ne by done. split; [done|]. by destruct a.
Qed.

Lemma hvf_step_good (w w' : HvfWorld V) : hvf_inv w -> hvf_step w w' -> step_good w w'.
Proof.
  intros Hi Hst. destruct Hst as [w i v Ei|w i v b s r Ei E|w i v s r Ei E|w i v h x s r Ei Er E|w i v Ei Er
    |w i v x s Ei E|w i v s Ei E|w intid level|w|w on].
  - eapply put_thread_good; [done..|]. destruct (started v); [done|by intros [?|?]].
  - by eapply park_good.
  - eapply quiet_good; [apply swgic_prep_quiet|done..|]. intros _. eapply started_phase; [done..|by left].
  - by eapply exit_good.
  - eapply put_thread_good; [done..|]. by intros [ [=] | [=] ].
  - eapply quiet_good; [apply complete_quiet|done..|]. by intros [ [=] | [=] ].
  - eapply quiet_good; [apply step_pc_quiet|done..|]. by intros [ [=] | [=] ].
  - apply shared_good; [done|]. unfold hvf_set_irq. by destruct (swgic _).
  - by apply shared_good.
  - apply shared_good; [done|]. by destruct on.
Qed.

Lemma hvf_start_inv (hs : list V) : (0 < length hs)%nat -> hvf_inv (hvf_start hs).
Proof.
  intros Hl. constructor; cbn [w_sh w_threads hvf_start cpu_on].
  - intros i t. rewrite list_lookup_imap. destruct (hs !! i) as [h|] eqn:Eh; intros [= <-].
    apply lookup_lt_Some in Eh. split; [done|]. cbn [fst snd started]. destruct i as [|i]; [cbn; split; [by split|by intros [?|?]]|].
    change ((On :: ?l) !! S i) with (l !! i). rewrite lookup_replicate_2 by lia. cbn. split; [by split|by intros [?|?]].
  - rewrite length_imap. cbn. rewrite length_replicate. lia.
  - intros [|i] e c; [done|]. change ((On :: ?l) !! S i) with (l !! i). by intros [[=] _]%lookup_replicate_1.
Qed.

Lemma hvf_reach (hs : list V) (w : HvfWorld V) :
  (0 < length hs)%nat -> rtc hvf_step (hvf_start hs) w -> hvf_inv w.
Proof.
  intros Hl Hr. apply hvf_start_inv in Hl. induction Hr as [|x y z S _ IH]; [done|].
  apply IH. exact (proj1 (hvf_step_good _ _ Hl S)).
Qed.

(** *** Data aborts *)

Lemma land_ones_range (x n : Z) : 0 <= n -> fits n (Z.land x (Z.ones n)).
Proof. intros Hn. rewrite Z.land_ones by done. apply Z.mod_pos_bound. by apply Z.pow_pos_nonneg. Qed.

Lemma decode_srt esr ipa (get : Z -> Z) a r :
  decode_data_abort esr ipa get = Some (a, r) ->
  Z.land (Z.shiftr esr 26) 0x3f = 0x24 /\ 0 <= r <= 31 /\ ac_ipa a = ipa.
Proof.
  unfold decode_data_abort. cbv zeta. destruct (Z.eqb_spec (Z.land (Z.shiftr esr 26) 63) 0x24) as [E|]; [|done].
  cbn [negb]. destruct (_ =? 0); [done|]. intros [= <- <-]. split; [done|]. split; [|done].
  pose proof (land_ones_range (Z.shiftr (Z.land esr 0x1ffffff) 16) 5 ltac:(lia)) as Hl.
  change (Z.ones 5) with 0x1f in Hl. unfold u8. rewrite Z.mod_small; lia.
Qed.

Lemma step_pc_ok (s : St V) :
  exists h, step_pc s = ((fst s, set_handle h (snd s)), inl tt) /\
    forall r, xh h r = if r =? HV_REG_PC then wadd64 (xh (handle (snd s)) HV_REG_PC) 4 else xh (handle (snd s)) r.
Proof.
  unfold step_pc, pc, set_pc. erewrite bind_ok by (apply reg_ok; regs).
  destruct (set_reg_ok s HV_REG_PC (wadd64 (xh (handle (snd s)) HV_REG_PC) 4) ltac:(regs) ltac:(apply u64_range))
    as (h & E & _ & R).
  exists h. split; [done|]. intros r. unfold xh at 1. rewrite R. by destruct (r =? HV_REG_PC).
Qed.

Lemma exception_abort (s : St V) (x : HvExit) (a : MmioAccess) (r : Z) :
  ex_reason x = HV_EXIT_REASON_EXCEPTION ->
  decode_data_abort (ex_syndrome x) (ex_physical_address x)
    (fun i => default 0 (hv_vcpu_get_reg (handle (snd s)) (HV_REG_X0 + i))) = Some (a, r) ->
  handle_exit x s = (hit <- swgic_mmio a r ;;
    if hit : bool then step_pc ;;; ret None else modify_vcpu (set_pending_read r) ;;; ret (Some (Mmio a))) s.
Proof.
  intros Er Ed. destruct (decode_srt _ _ _ _ _ Ed) as (Ec & _ & _).
  unfold handle_exit. erewrite bind_ok by done. rewrite Er. cbn [Z.eqb HV_EXIT_REASON_EXCEPTION Pos.eqb].
  unfold exception_exit. cbv zeta. rewrite Ec. cbn [Z.eqb EC_WFX EC_HVC64 EC_MSR_TRAP Pos.eqb].
  unfold abort_exit. erewrite bind_ok by done. by rewrite Ed.
Qed.

Lemma swgic_mmio_miss (s : St V) (a : MmioAccess) (r : Z) :
  in_window layout.GIC_DIST_BASE layout.GIC_DIST_SIZE (ac_ipa a) = false ->
  in_window layout.GIC_CPU_BASE layout.GIC_CPU_SIZE (ac_ipa a) = false ->
  swgic_mmio a r s = (s, inl false).
Proof.
  intros Hd Hc. unfold swgic_mmio. erewrite bind_ok by done. erewrite bind_ok by done.
  destruct (swgic (fst s)); [|done]. cbv zeta. by rewrite Hd, Hc.
Qed.

(** What the controller answers to an access: its new state and, for a load,
    the value. *)
Definition gic_answer (g : GicV2) (c : nat) (a : MmioAccess) : GicV2 * option Z :=
  if in_window layout.GIC_DIST_BASE layout.GIC_DIST_SIZE (ac_ipa a) then
    let off := ac_ipa a - layout.GIC_DIST_BASE in
    match ac_write a with
    | Some v => (dist_write g c off (ac_size a) v, None)
    | None => (g, Some (dist_read g c off (ac_size a)))
    end
  else
    let off := ac_ipa a - layout.GIC_CPU_BASE in
    match ac_write a with
    | Some v => (cpu_write g c off (ac_size a) v, None)
    | None => let '(g', v) := cpu_read g c off (ac_size a) in (g', Some v)
    end.

Lemma set_xfer (s : St V) (r x : Z) : 0 <= r <= 31 -> fits 64 x ->
  exists h, (if negb (r =? 31) then set_x r x else ret tt) s = ((fst s, set_handle h (snd s)), inl tt) /\
    forall i, xh h i = if (i =? r) && negb (r =? 31) then x else xh (handle (snd s)) i.
Proof.
  intros Hr Hx. destruct (Z.eqb_spec r 31) as [->|Hn]; cbn [negb].
  - exists (handle (snd s)). split; [by destruct s as [? []]|]. intros i. by rewrite andb_false_r.
  - destruct (set_reg_ok s r x ltac:(regs) Hx) as (h & E & _ & R). exists h. unfold set_x, HV_REG_X0.
    rewrite Z.add_0_l. split; [done|]. intros i. unfold xh. rewrite R, andb_true_r. by destruct (i =? r).
Qed.

Lemma extract_fits reg off size : fits 64 (extract reg off size).
Proof.
  unfold extract. cbv zeta. set (x := Z.shiftr _ _).
  pose proof (land_ones_range x 8 ltac:(lia)). pose proof (land_ones_range x 16 ltac:(lia)).
  pose proof (land_ones_range x 32 ltac:(lia)).
  change (Z.ones 8) with 0xff in *. change (Z.ones 16) with 0xffff in *. change (Z.ones 32) with 0xffffffff in *.
  destruct (size =? 1); [lia|]. destruct (size =? 2); lia.
Qed.

Lemma gic_answer_fits (g : GicV2) (c : nat) (a : MmioAccess) (v : Z) :
  snd (gic_answer g c a) = Some v -> fits 64 v.
Proof.
  unfold gic_answer, dist_read, cpu_read. cbv zeta. destruct (in_window _ _ _).
  - destruct (ac_write a); [done|]. intros [= <-]. apply extract_fits.
  - destruct (ac_write a); [done|]. 
    match goal with |- context [if ?b then ?c else ?d] => destruct (if b then c else d) as [g' x] end.
    intros [= <-]. apply extract_fits.
Qed.

(** An access inside the controller's windows. *)
Lemma swgic_mmio_hit (s : St V) (g : GicV2) (a : MmioAccess) (r : Z) :
  swgic (fst s) = Some g -> 0 <= r <= 31 ->
  in_window layout.GIC_DIST_BASE layout.GIC_DIST_SIZE (ac_ipa a) = true \/
  in_window layout.GIC_CPU_BASE layout.GIC_CPU_SIZE (ac_ipa a) = true ->
  exists sh h, swgic_mmio a r s = ((sh, set_handle h (snd s)), inl true) /\
    swgic sh = Some (fst (gic_answer g (cpu (snd s)) a)) /\ cpu_on sh = cpu_on (fst s) /\
    stop sh = stop (fst s) /\ yield_now sh = yield_now (fst s) /\
    forall i, xh h i = match snd (gic_answer g (cpu (snd s)) a) with
                       | Some v => if (i =? r) && negb (r =? 31) then v else xh (handle (snd s)) i
                       | None => xh (handle (snd s)) i
                       end.
Proof.
  intros Eg Hr Hw. pose proof (gic_answer_fits g (cpu (snd s)) a) as Hf.
  unfold swgic_mmio. erewrite bind_ok by done. erewrite bind_ok by done. rewrite Eg. cbv zeta.
  apply orb_true_iff in Hw. rewrite Hw. cbn [negb].
  assert (Id : forall s1 : St V, s1 = (fst s1, set_handle (handle (snd s1)) (snd s1))) by (by intros [? []]).
  unfold gic_answer in *. destruct (in_window layout.GIC_DIST_BASE _ _); cbn [negb] in *; cbv zeta in *.
  - destruct (ac_write a) as [x|].
    + erewrite bind_ok by done. destruct (_ =? 0xf00); (erewrite bind_ok by done);
        eexists _, (handle (snd s)); by destruct s as [? []].
    + erewrite bind_ok by done. destruct (set_xfer (set_gic (fst s) g, snd s) r _ Hr (Hf _ eq_refl)) as (h & E & R).
      erewrite bind_ok by exact E. by eexists _, h.
  - destruct (ac_write a) as [x|].
    + erewrite bind_ok by done. eexists _, (handle (snd s)); by destruct s as [? []].
    + destruct (cpu_read _ _ _ _) as [g' x]. erewrite bind_ok by done.
      destruct (set_xfer (set_gic (fst s) g', snd s) r _ Hr (Hf _ eq_refl)) as (h & E & R).
      erewrite bind_ok by exact E. by eexists _, h.
Qed.

(** *** Capture and restore *)

Lemma regs_from_ok (n : nat) (s : St V) (r : Z) :
  0 <= r -> r + Z.of_nat n <= 35 ->
  regs_from n r s = (s, inl (map (fun i => xh (handle (snd s)) (r + Z.of_nat i)) (seq 0 n))).
Proof.
  revert r. induction n as [|n IH]; intros r Hr Hn; [done|].
  cbn [regs_from]. erewrite bind_ok by (apply reg_ok; regs). erewrite bind_ok by (apply IH; lia).
  unfold ret. do 2 f_equal. cbn [seq map]. rewrite <- seq_shift, map_map. f_equal; [f_equal; lia|].
  apply map_ext. intros i. f_equal. lia.
Qed.

(** A run that writes some registers and leaves the timer offset alone. *)
Definition wrote (s : St V) (m : M unit) (f : Z -> Z) : Prop :=
  exists h, m s = ((fst s, set_handle h (snd s)), inl tt) /\ (forall r, hv_reg r -> xh h r = f r) /\
    hv_vcpu_get_vtimer_offset h = hv_vcpu_get_vtimer_offset (handle (snd s)).

Lemma wrote_reg (s : St V) (r x : Z) : hv_reg r -> fits 64 x ->
  wrote s (set_reg r x) (fun r' => if r' =? r then x else xh (handle (snd s)) r').
Proof.
  intros Hr Hx. destruct (set_reg_ok s r x Hr Hx) as (h & E & O & R). exists h. split; [done|]. split; [|done].
  intros r' _. unfold xh. rewrite R. by destruct (r' =? r).
Qed.

Lemma wrote_seq (s : St V) (m k : M unit) (f g : Z -> Z) :
  wrote s m f ->
  (forall h, (forall r, hv_reg r -> xh h r = f r) -> wrote (fst s, set_handle h (snd s)) k g) ->
  wrote s (m ;;; k) g.
Proof.
  intros (h & E & R & O) Hk. destruct (Hk h R) as (h' & E' & R' & O'). cbn [fst snd] in *.
  exists h'. split; [erewrite bind_ok by exact E; by destruct s as [? []]|]. split; [done|].
  rewrite O'. by destruct (snd s).
Qed.

Lemma wrote_regs (xs : list Z) : forall (s : St V) (r : Z),
  0 <= r -> r + zlen xs <= 35 -> Forall (fun x => fits 64 x) xs ->
  wrote s (set_regs_from r xs) (fun r' => default (xh (handle (snd s)) r') (if r <=? r' then xs !! Z.to_nat (r' - r) else None)).
Proof.
  induction xs as [|x xs IH]; intros s r Hr Hl Hx.
  { exists (handle (snd s)). split; [by destruct s as [? []]|]. split; [|done]. intros r' _. by destruct (r <=? r'). }
  apply Forall_cons in Hx as [Hx Hxs]. rewrite zlen_cons in Hl. pose proof (zlen_nonneg xs).
  cbn [set_regs_from]. eapply wrote_seq; [by apply wrote_reg; [regs|]|].
  intros h Rh. destruct (IH (fst s, set_handle h (snd s)) (r + 1) ltac:(lia) ltac:(lia) Hxs) as (h' & E & R & O).
  exists h'. split; [done|]. split; [|done]. intros r' Hr'. rewrite R by done. cbn [snd handle set_handle].
  rewrite Rh by done. destruct (Z.leb_spec (r + 1) r'), (Z.leb_spec r r'); try lia.
  - replace (Z.to_nat (r' - r)) with (S (Z.to_nat (r' - (r + 1)))) by lia.
    rewrite (proj2 (Z.eqb_neq r' r)) by lia. done.
  - replace r' with r by lia. rewrite Z.eqb_refl, Z.sub_diag. done.
  - by rewrite (proj2 (Z.eqb_neq r' r)) by lia.
Qed.

Lemma wrote_sysregs (b : bool) (l : list (Z * Z)) : forall s : St V,
  wrote s (restore_sysregs b l) (xh (handle (snd s))).
Proof.
  assert (Skip : forall s : St V, wrote s (ret tt) (xh (handle (snd s)))).
  { intros s. exists (handle (snd s)). by destruct s as [? []]. }
  induction l as [|[id x] l IH]; intros s; [apply Skip|].
  cbn [restore_sysregs]. eapply wrote_seq with (f := xh (handle (snd s))).
  - destruct (_ && _); [apply Skip|]. unfold set_sys_quiet.
    exists (default (handle (snd s)) (hv_vcpu_set_sys_reg (handle (snd s)) id x)). split; [done|].
    destruct (hv_vcpu_set_sys_reg (handle (snd s)) id x) as [h|] eqn:E; [|done].
    destruct (hv_sys_set _ _ _ _ E) as [R O]. split; [|done]. intros r _. unfold xh. cbn [default]. by rewrite R.
  - intros h Rh. destruct (IH (fst s, set_handle h (snd s))) as (h' & E & R & O). exists h'.
    split; [done|]. split; [|done]. intros r Hr. by rewrite R, <- Rh.
Qed.

(** The virtual counter: the host's clock less the offset. *)
Definition cntvct (now offset : Z) : Z := u64 (now - offset).

Lemma cntvct_continuous (now mono offset : Z) :
  cntvct now (u64 (now - u64 (mono - offset))) = cntvct mono offset.
Proof. unfold cntvct, u64. rewrite Zminus_mod_idemp_r. rewrite Z.sub_sub_distr, Z.sub_diag, Z.add_0_l. apply Z.mod_mod. lia. Qed.

Lemma restore_ok (s : St V) (now : Z) (c : CpuSnapshot) (f : Z -> Z) :
  cs_x c = map (fun i => f (Z.of_nat i)) (seq 0 31) -> (forall r, hv_reg r -> fits 64 (f r)) ->
  cs_pc c = f HV_REG_PC -> cs_cpsr c = f HV_REG_CPSR -> cs_fpcr c = f HV_REG_FPCR -> cs_fpsr c = f HV_REG_FPSR ->
  exists sh h, restore now c s = ((sh, set_handle h (set_started (snd s))), inl tt) /\
    cpu_on sh = alter (fun _ => On) (cpu (snd s)) (cpu_on (fst s)) /\ swgic sh = swgic (fst s) /\
    (forall r, hv_reg r -> xh h r = f r) /\
    hv_vcpu_get_vtimer_offset h = Some (u64 (now - u64 (cs_mono c - cs_vtimer_offset c))).
Proof.
  intros Ex Hf Epc Eps Efc Efs. unfold restore. erewrite bind_ok by done. erewrite bind_ok by done.
  erewrite bind_ok by done. cbn [fst snd modify_vcpu modify_shared cpu set_started].
  set (sh := set_cpu_on _ _). set (v0 := set_started (snd s)).
  assert (Hlen : zlen (cs_x c) = 31) by (rewrite Ex; done).
  destruct (wrote_regs (cs_x c) (sh, v0) HV_REG_X0 ltac:(regs) ltac:(regs)) as (h1 & E1 & R1 & _).
  { rewrite Ex, Forall_map. apply Forall_forall. intros i Hi%elem_of_seq. apply Hf. regs. }
  erewrite bind_ok by exact E1. cbv zeta. cbn [fst snd] in *.
  set (off := u64 (now - _)).
  destruct (hv_set_offset_ok h1 off) as [h2 E2].
  destruct (hv_set_offset _ _ _ ltac:(apply u64_range) E2) as [O2 R2].
  erewrite bind_ok by (unfold check_set; cbn [snd handle set_handle]; by rewrite E2).
  destruct (hv_mask_ok h2 false) as [h3 E3]. destruct (hv_mask_regs _ _ _ E3) as [R3 O3].
  cbn [fst snd]. erewrite bind_ok by (unfold check_set; cbn [snd handle set_handle]; by rewrite E3).
  erewrite bind_ok by done. cbn [fst snd].
  set (s3 := (sh, set_handle h3 _)).
  assert (W : wrote s3 (restore_sysregs (sw_on sh) (cs_sysregs c) ;;; set_reg HV_REG_FPCR (cs_fpcr c) ;;;
    set_reg HV_REG_FPSR (cs_fpsr c) ;;; set_reg HV_REG_CPSR (cs_cpsr c) ;;; set_reg HV_REG_PC (cs_pc c)) f).
  { eapply wrote_seq; [apply wrote_sysregs|]. intros h4 R4.
    eapply wrote_seq; [apply wrote_reg; [regs|rewrite Efc; apply Hf; regs]|]. intros h5 R5.
    eapply wrote_seq; [apply wrote_reg; [regs|rewrite Efs; apply Hf; regs]|]. intros h6 R6.
    eapply wrote_seq; [apply wrote_reg; [regs|rewrite Eps; apply Hf; regs]|]. intros h7 R7.
    destruct (wrote_reg (fst s3, set_handle h7 (snd s3)) HV_REG_PC (cs_pc c) ltac:(regs)
      ltac:(rewrite Epc; apply Hf; regs)) as (h8 & E8 & R8 & O8).
    exists h8. split; [done|]. split; [|done]. intros r Hr. rewrite R8 by done. cbn [snd fst handle set_handle] in *.
    destruct (Z.eqb_spec r HV_REG_PC) as [->|Np]; [done|]. rewrite R7 by done.
    destruct (Z.eqb_spec r HV_REG_CPSR) as [->|Nc]; [done|]. rewrite R6 by done.
    destruct (Z.eqb_spec r HV_REG_FPSR) as [->|Ns]; [done|]. rewrite R5 by done.
    destruct (Z.eqb_spec r HV_REG_FPCR) as [->|Nf]; [done|]. rewrite R4 by done.
    unfold xh, s3. cbn [snd handle set_handle]. rewrite R3, R2. fold (xh h1 r). rewrite R1 by done.
    assert (Hx : 0 <= r <= 30) by regs. unfold HV_REG_X0. rewrite (proj2 (Z.leb_le 0 r)) by lia.
    rewrite Z.sub_0_r, Ex, list_lookup_fmap, lookup_seq_lt by lia. cbn. f_equal. lia. }
  destruct W as (h & E & R & O). exists sh, h. unfold s3 in E. cbn [fst snd] in E.
  split; [exact E|]. split; [done|]. split; [by destruct (fst s)|]. split; [done|].
  rewrite O. unfold s3. cbn [snd handle set_handle]. rewrite O3. exact O2.
Qed.

(** ** Properties *)

(** C22: secondary vcpus come up once, where the guest said. However the vcpus'
    threads, device lines, stops and yields interleave, a vcpu has been
    started exactly when its slot is on, and only started vcpus enter the
    guest; a slot is posted only by a CPU_ON call that names it, with that
    call's entry and context and a success in the caller's x0, and turns on
    only when its own vcpu starts, at that entry, with that context in x0, at
    EL1 with interrupts masked. No other change of a slot ever happens. *)
Theorem cpu_on_lifecycle (hs : list V) (w w' : HvfWorld V) (i : nat) (v : HvfVcpu V) (p : Phase) (a : CpuOn) :
  (0 < length hs)%nat -> rtc hvf_step (hvf_start hs) w -> hvf_step w w' ->
  w_threads w !! i = Some (v, p) -> slot w i = Some a ->
  (started v = true <-> a = On) /\ (p = TGuest -> a = On) /\
  exists b, slot w' i = Some b /\ slot_change w w' i a b.
Proof.
  intros Hl Hr Hs Ei Ea. pose proof (hvf_reach _ _ Hl Hr) as Hi. pose proof Hi as [T _ _].
  destruct (T _ _ Ei) as (_ & B & C). cbn [fst snd] in B, C. unfold slot in *. rewrite Ea in B.
  assert (B' : started v = true <-> a = On) by (rewrite B; split; [by intros [= ->]|by intros ->]).
  split; [done|]. split; [intros ->; apply B', C; by right|].
  by apply (hvf_step_good _ _ Hi Hs).
Qed.

(** data aborts are routed. With the software GIC, an access inside the
    controller's windows is answered by the controller for this vcpu (its
    state and the loaded value are those of its register functions), the
    destination register is written (unless it is the zero register) and the
    instruction is stepped, all without leaving [run]; any other access is
    surfaced with nothing changed but the note of its destination, and once
    the run loop hands back a value the load has completed in full. *)
Theorem data_abort_routed (s : St V) (g : GicV2) (x : HvExit) (a : MmioAccess) (r : Z) :
  swgic (fst s) = Some g -> ex_reason x = HV_EXIT_REASON_EXCEPTION ->
  decode_data_abort (ex_syndrome x) (ex_physical_address x)
    (fun i => default 0 (hv_vcpu_get_reg (handle (snd s)) (HV_REG_X0 + i))) = Some (a, r) ->
  let h0 := handle (snd s) in
  let loaded v i := if i =? HV_REG_PC then wadd64 (xh h0 HV_REG_PC) 4
                    else if i =? r then v else xh h0 i in
  if in_window layout.GIC_DIST_BASE layout.GIC_DIST_SIZE (ac_ipa a) ||
     in_window layout.GIC_CPU_BASE layout.GIC_CPU_SIZE (ac_ipa a)
  then exists sh h, handle_exit x s = ((sh, set_handle h (snd s)), inl None) /\
    swgic sh = Some (fst (gic_answer g (cpu (snd s)) a)) /\ cpu_on sh = cpu_on (fst s) /\
    forall i, 0 <= i <= 31 -> xh h i = loaded (default (xh h0 r) (snd (gic_answer g (cpu (snd s)) a))) i
  else handle_exit x s = ((fst s, set_pending_read r (snd s)), inl (Some (Mmio a))) /\
    forall v, fits 64 v -> exists h,
      (complete_mmio_read v ;;; advance_mmio) (fst s, set_pending_read r (snd s)) =
        ((fst s, set_handle h (set_pending_read r (snd s))), inl tt) /\
      forall i, 0 <= i <= 31 -> xh h i = loaded v i.
Proof.
  intros Eg Er Ed. cbv zeta. destruct (decode_srt _ _ _ _ _ Ed) as (_ & Hr & _).
  rewrite (exception_abort s x a r Er Ed). destruct (_ || _) eqn:Ew.
  - apply orb_true_iff in Ew. destruct (swgic_mmio_hit s g a r Eg Hr Ew) as (sh & h & E & E1 & E2 & _ & _ & R).
    erewrite bind_ok by exact E. destruct (step_pc_ok (sh, set_handle h (snd s))) as (h' & E' & R').
    erewrite bind_ok by exact E'. exists sh, h'. split; [done|]. split; [done|]. split; [done|].
    intros i Hi. rewrite R'. cbn [snd handle set_handle]. rewrite !R. unfold HV_REG_PC.
    destruct (gic_answer g _ a) as [g' [v|]]; cbn [fst snd default]; destruct (Z.eqb_spec i 31), (Z.eqb_spec i r), (Z.eqb_spec r 31); subst;
      try lia; cbn [andb negb]; try done; destruct (31 =? r) eqn:?; cbn; (done || lia).
  - apply orb_false_iff in Ew as [Ed' Ec']. erewrite bind_ok by (by apply swgic_mmio_miss). split; [done|].
    intros v Hv. unfold complete_mmio_read, advance_mmio. set (s1 := (fst s, _)). rewrite bind_assoc.
    erewrite bind_ok by done. destruct (set_xfer s1 r v Hr Hv) as (h & E & R).
    change (pending_read_reg (snd s1)) with r.
    erewrite bind_ok by exact E. destruct (step_pc_ok (fst s1, set_handle h (snd s1))) as (h' & E' & R').
    exists h'. split; [exact E'|]. intros i Hi. rewrite R'. cbn [snd handle set_handle]. rewrite !R. unfold HV_REG_PC.
    cbn [s1 snd handle set_pending_read].
    destruct (Z.eqb_spec i 31), (Z.eqb_spec i r), (Z.eqb_spec r 31); subst; try lia; cbn [andb negb]; try done;
      destruct (31 =? r) eqn:?; cbn; (done || lia).
Qed.

(** a store of the zero register stores the program counter. Register
    number 31 is xzr in a syndrome but PC in the framework, and the store path
    (unlike the load paths) has no test for it: a device store from xzr, which
    the architecture defines as a store of 0, reaches the device as the
    guest's PC. *)
Theorem xzr_store_sends_pc (s : St V) (x : HvExit) (esr ipa : Z) :
  x = mkExit HV_EXIT_REASON_EXCEPTION esr ipa ->
  Z.land (Z.shiftr esr 26) 0x3f = 0x24 -> Z.testbit esr 24 = true -> Z.testbit esr 6 = true ->
  Z.land (Z.shiftr esr 16) 0x1f = 31 ->
  in_window layout.GIC_DIST_BASE layout.GIC_DIST_SIZE ipa = false ->
  in_window layout.GIC_CPU_BASE layout.GIC_CPU_SIZE ipa = false ->
  exists a s', handle_exit x s = (s', inl (Some (Mmio a))) /\ ac_ipa a = ipa /\
    ac_write a = Some (xh (handle (snd s)) HV_REG_PC).
Proof.
  intros -> Hc Hv Hw Ht Hd Hg.
  assert (Bit : forall n, 0 <= n < 25 -> Z.testbit (Z.land esr 0x1ffffff) n = Z.testbit esr n).
  { intros n Hn. change 0x1ffffff with (Z.ones 25). rewrite Z.land_spec, Z.ones_spec_low by lia. apply andb_true_r. }
  assert (One : forall n, 0 <= n < 25 -> Z.testbit esr n = true -> Z.land (Z.shiftr (Z.land esr 0x1ffffff) n) 1 = 1).
  { intros n Hn Hb. change 1 with (Z.ones 1) at 1. rewrite Z.land_ones by lia. change (2 ^ 1) with 2.
    rewrite Zmod_odd, <- Z.bit0_odd, Z.shiftr_spec, Z.add_0_l, Bit, Hb by lia. done. }
  assert (Srt : Z.land (Z.shiftr (Z.land esr 0x1ffffff) 16) 0x1f = 31).
  { etrans; [|exact Ht]. apply Z.bits_inj'. intros n Hn. rewrite !(Z.land_spec _ 31), !Z.shiftr_spec by lia.
    change 0x1f with (Z.ones 5). destruct (Z.ltb_spec n 5).
    - by rewrite Bit by lia.
    - rewrite Z.ones_spec_high by lia. by rewrite !andb_false_r. }
  assert (Ed : exists a, decode_data_abort esr ipa
      (fun i => default 0 (hv_vcpu_get_reg (handle (snd s)) (HV_REG_X0 + i))) = Some (a, 31) /\
      ac_ipa a = ipa /\ ac_write a = Some (xh (handle (snd s)) HV_REG_PC)).
  { unfold decode_data_abort. cbv zeta. rewrite Hc, (One 24), (One 6), Srt by (done || lia). by eexists. }
  destruct Ed as (a & Ed & Ea & Ew). eexists a, _.
  rewrite (exception_abort s (mkExit _ esr ipa) a 31 eq_refl Ed).
  erewrite bind_ok by (by apply swgic_mmio_miss; rewrite Ea). by split.
Qed.

Lemma vcpu_resumes (s s2 : St V) (mono now : Z) :
  exists c offset, capture mono s = (s, inl c) /\ hv_vcpu_get_vtimer_offset (handle (snd s)) = Some offset /\
    exists sh h, restore now c s2 = ((sh, set_handle h (set_started (snd s2))), inl tt) /\
      cpu_on sh = alter (fun _ => On) (cpu (snd s2)) (cpu_on (fst s2)) /\ swgic sh = swgic (fst s2) /\
      (forall r, hv_reg r -> hv_vcpu_get_reg h r = hv_vcpu_get_reg (handle (snd s)) r) /\
      exists offset', hv_vcpu_get_vtimer_offset h = Some offset' /\ cntvct now offset' = cntvct mono offset.
Proof.
  destruct (hv_offset_ok (handle (snd s))) as (offset & Eo & _).
  set (f := xh (handle (snd s))).
  eexists _, offset. split.
  { unfold capture. erewrite bind_ok by (apply regs_from_ok; regs).
    erewrite bind_ok by (unfold check_get; by rewrite Eo).
    do 2 erewrite bind_ok by done. do 4 erewrite bind_ok by (apply reg_ok; regs). done. }
  split; [done|]. set (c := mkCpuSnapshot _ _ _ _ _ _ _ _ _).
  destruct (restore_ok s2 now c f) as (sh & h & E & E1 & E2 & R & O); [done|intros r Hr; by apply xh_fits|done..|].
  exists sh, h. split; [done|]. split; [done|]. split; [done|]. split.
  { intros r Hr. specialize (R r Hr). unfold xh, f in R.
    destruct (hv_get_ok h r Hr) as (x & Ex & _), (hv_get_ok (handle (snd s)) r Hr) as (y & Ey & _).
    unfold xh in R. rewrite Ex, Ey in R. cbn in R. by rewrite Ex, Ey, R. }
  eexists. split; [exact O|]. apply cntvct_continuous.
Qed.

(** a restored vcpu resumes where the captured one stopped. Capturing
    never fails; restoring the snapshot at any later time into any vcpu
    succeeds, gives it the same general registers, PC, PSTATE, FPCR and FPSR,
    marks it started in both places so that it does not wait for CPU_ON, and
    sets the timer offset so that the guest's virtual counter continues from
    the captured value, whatever the host's clocks read. *)
Theorem vcpu_restore_resumes (s s2 : St V) (mono now : Z) :
  exists c offset, capture mono s = (s, inl c) /\ hv_vcpu_get_vtimer_offset (handle (snd s)) = Some offset /\
    exists sh h, restore now c s2 = ((sh, set_handle h (set_started (snd s2))), inl tt) /\
      cpu_on sh = alter (fun _ => On) (cpu (snd s2)) (cpu_on (fst s2)) /\ swgic sh = swgic (fst s2) /\
      (forall r, hv_reg r -> hv_vcpu_get_reg h r = hv_vcpu_get_reg (handle (snd s)) r) /\
      exists offset', hv_vcpu_get_vtimer_offset h = Some offset' /\ cntvct now offset' = cntvct mono offset.
Proof. apply vcpu_resumes. Qed.

(** the no-crypto template hides exactly the crypto fields. Applied to
    any vcpu it succeeds, the guest then reads ID_AA64ISAR0 with AES, SHA1,
    SHA2 (bits 4 to 15) and SHA3, SM3, SM4 (bits 32 to 43) clear and every
    other bit as before, and no other system register changes; the host
    template changes nothing. *)
Theorem no_crypto_hides (s : St V) (x : Z) :
  hv_vcpu_get_sys_reg (handle (snd s)) ID_AA64ISAR0_EL1 = Some x -> fits 64 x ->
  exists t h y, by_name "no-crypto" = Some t /\
    apply_cpu_template t s = ((fst s, set_handle h (snd s)), inl tt) /\
    hv_vcpu_get_sys_reg h ID_AA64ISAR0_EL1 = Some y /\
    (forall b, 0 <= b -> Z.testbit y b = Z.testbit x b && negb (((4 <=? b) && (b <? 16)) || ((32 <=? b) && (b <? 44)))) /\
    (forall r, r <> ID_AA64ISAR0_EL1 -> hv_vcpu_get_sys_reg h r = hv_vcpu_get_sys_reg (handle (snd s)) r) /\
    exists t0, by_name "host" = Some t0 /\ apply_cpu_template t0 s = (s, inl tt).
Proof.
  intros Ex Hx. set (m := not64 CRYPTO_FIELDS).
  assert (Hy : fits 64 (Z.lor (Z.land x m) 0)).
  { rewrite Z.lor_0_r. apply land_range; [done|]. by vm_compute. }
  destruct (hv_sys_id (handle (snd s)) ID_AA64ISAR0_EL1 (Z.lor (Z.land x m) 0) eq_refl Hy) as (h & Eh & Er & Ro).
  exists (mkCpuTemplate "no-crypto" NO_CRYPTO), h, (Z.lor (Z.land x m) 0). split; [done|]. split.
  { unfold apply_cpu_template. cbn [ct_overrides NO_CRYPTO apply_overrides ov_reg ov_and_mask ov_or_value].
    fold m. erewrite bind_ok by (unfold get_sys, check_get; by rewrite Ex).
    erewrite bind_ok by (unfold check_set; by rewrite Eh). done. }
  split; [done|]. split; [|split; [done|by eexists]].
  intros b Hb. rewrite Z.lor_0_r, Z.land_spec.
  destruct (Z.ltb_spec b 64).
  2: { assert (Hbit : Z.testbit x b = false)
         by (rewrite <- (Z.mod_small x (2 ^ 64)) by lia; apply Z.mod_pow2_bits_high; lia). by rewrite Hbit. }
  f_equal. unfold m, not64, u64. rewrite Z.mod_pow2_bits_low, Z.lnot_spec by lia. f_equal.
  unfold CRYPTO_FIELDS. rewrite Z.lor_spec, !Z.shiftl_spec by lia. change 0xfff with (Z.ones 12).
  f_equal; (destruct (Z.leb_spec 4 b), (Z.ltb_spec b 16), (Z.leb_spec 32 b), (Z.ltb_spec b 44); cbn; try lia;
    first [rewrite Z.ones_spec_low by lia; done | rewrite Z.ones_spec_high by lia; done | rewrite Z.testbit_neg_r by lia; done]).
Qed.
End HvfLaws.

(** the names are exactly what the lookup finds, each its own template, so an
    unknown name is told apart from passthrough. *)
Theorem names_found (name : string) :
  match by_name name with Some t => ct_name t = name /\ In name names | None => ~ In name names end.
Proof.
  unfold by_name. destruct (List.find _ TEMPLATES) as [t|] eqn:E.
  - apply List.find_some in E as [I E]. apply String.eqb_eq in E. split; [done|]. rewrite <- E. by apply in_map.
  - intros (t & <- & I)%in_map_iff. pose proof (List.find_none _ _ E t I) as F. cbn beta in F. by rewrite String.eqb_refl in F.
Qed.

(** the in-kernel GIC's regions are placed clear of the UART and of RAM,
    the distributor below the UART and the redistributors, aligned as asked,
    above it, for any sizes and power-of-two alignment the host reports;
    anything that does not fit is refused. But the test is against RAM only:
    the placement accepts redistributors that cover the virtio windows, which
    start below RAM. *)
Theorem gic_placement (dsz rsz k : Z) :
  fits 32 dsz -> fits 32 rsz -> 0 <= k < 32 ->
  match create_gic dsz rsz (2 ^ k) with
  | inl i =>
      dist_base i + dist_size i <= layout.PL011_BASE /\ dist_size i = dsz /\ redist_size i = rsz /\
      layout.PL011_BASE + layout.PL011_SIZE <= redist_base i < layout.PL011_BASE + layout.PL011_SIZE + 2 ^ k /\
      redist_base i mod 2 ^ k = 0 /\ redist_base i + redist_size i <= layout.RAM_BASE
  | inr _ =>
      layout.PL011_BASE < layout.GIC_DIST_BASE + dsz \/
      layout.RAM_BASE < align_up (layout.PL011_BASE + layout.PL011_SIZE) (2 ^ k) + rsz
  end /\
  exists i, create_gic 0x10000 0x4000000 0x10000 = inl i /\
    redist_base i <= layout.VIRTIO_MMIO_BASE < redist_base i + redist_size i.
Proof.
  intros Hd Hr Hk. split; [|by eexists].
  assert (Hp : 0 < 2 ^ k <= 2 ^ 31) by (split; [by apply Z.pow_pos_nonneg; lia|apply Z.pow_le_mono_r; lia]).
  assert (A : align_up (layout.PL011_BASE + layout.PL011_SIZE) (2 ^ k) =
    (layout.PL011_BASE + layout.PL011_SIZE + (2 ^ k - 1)) / 2 ^ k * 2 ^ k).
  { unfold align_up. rewrite (proj2 (Z.eqb_neq _ _)) by lia. unfold not64, wadd64, u64, layout.PL011_BASE, layout.PL011_SIZE.
    set (x := 150994944 + 4096 + (2 ^ k - 1)). rewrite (Z.mod_small x) by lia.
    rewrite <- Z.shiftr_div_pow2, <- Z.shiftl_mul_pow2 by lia.
    rewrite <- Z.ldiff_ones_r by lia. rewrite Z.ones_equiv, <- Z.sub_1_r.
    apply Z.bits_inj'. intros n Hn. rewrite Z.land_spec, Z.ldiff_spec.
    destruct (Z.ltb_spec n 64) as [Hs|Hs].
    - rewrite Z.mod_pow2_bits_low, Z.lnot_spec by lia. done.
    - assert (E : Z.testbit x n = false)
        by (rewrite <- (Z.mod_small x (2 ^ 64)) by lia; apply Z.mod_pow2_bits_high; lia). by rewrite E. }
  pose proof (Z.div_mod (layout.PL011_BASE + layout.PL011_SIZE + (2 ^ k - 1)) (2 ^ k) ltac:(lia)) as D.
  pose proof (Z.mod_pos_bound (layout.PL011_BASE + layout.PL011_SIZE + (2 ^ k - 1)) (2 ^ k) ltac:(lia)) as M.
  unfold create_gic. cbv zeta. rewrite A. set (q := _ / _) in *.
  assert (Q : layout.PL011_BASE + layout.PL011_SIZE <= q * 2 ^ k < layout.PL011_BASE + layout.PL011_SIZE + 2 ^ k) by lia.
  unfold wadd64, u64. rewrite !Z.mod_small
    by (unfold layout.GIC_DIST_BASE, layout.PL011_BASE, layout.PL011_SIZE in *; lia).
  destruct (Z.ltb_spec layout.PL011_BASE (layout.GIC_DIST_BASE + dsz)); [by left|].
  destruct (Z.ltb_spec layout.RAM_BASE (q * 2 ^ k + rsz)); [by right|]. cbn [dist_base dist_size redist_base redist_size].
  split; [done|]. split; [done|]. split; [done|]. split; [done|]. split; [|done]. apply Z.mod_mul. lia.
Qed.

(** ** Witnesses *)

(** A framework vcpu whose guest is a script: each entry writes some registers
    and exits. *)
Record DemoVcpu := mkDemo {
  dv_reg : Z -> Z;
  dv_sys : Z -> Z;
  dv_off : Z;
  dv_script : list (list (Z * Z) * HvExit)
}.

Definition upd (f : Z -> Z) (r x : Z) : Z -> Z := fun r' => if r' =? r then x else f r'.
Definition named (r : Z) : bool := (0 <=? r) && (r <=? 34).

#[export] Instance DemoVcpu_HvVcpu : HvVcpu DemoVcpu := {
  hv_vcpu_get_reg v r := if named r then Some (u64 (dv_reg v r)) else None;
  hv_vcpu_set_reg v r x := if named r then Some (mkDemo (upd (dv_reg v) r x) (dv_sys v) (dv_off v) (dv_script v)) else None;
  hv_vcpu_get_sys_reg v r := Some (dv_sys v r);
  hv_vcpu_set_sys_reg v r x := Some (mkDemo (dv_reg v) (upd (dv_sys v) r x) (dv_off v) (dv_script v));
  hv_vcpu_run v := match dv_script v with
    | [] => None
    | (ws, e) :: l => Some (mkDemo (foldl (fun f p => upd f (fst p) (snd p)) (dv_reg v) ws) (dv_sys v) (dv_off v) l, e)
    end;
  hv_vcpu_set_vtimer_mask v _ := Some v;
  hv_vcpu_set_pending_interrupt v _ := Some v;
  hv_vcpu_get_vtimer_offset v := Some (u64 (dv_off v));
  hv_vcpu_set_vtimer_offset v x := Some (mkDemo (dv_reg v) (dv_sys v) x (dv_script v));
  hv_vcpu_get_simd_fp_reg _ _ := replicate 16 0
}.

#[export] Instance DemoVcpu_Laws : HvVcpuLaws DemoVcpu.
Proof.
  assert (N : forall r, hv_reg r -> named r = true) by (intros r Hr; unfold named, hv_reg in *; lia).
  constructor; cbn.
  - intros v r Hr. rewrite N by done. eexists. split; [done|]. apply u64_range.
  - intros v r x Hr. rewrite N by done. by eexists.
  - intros v v' r r' x Hr Hx. rewrite N by done. intros [= <-]. cbn. unfold upd.
    destruct (Z.eqb_spec r' r) as [->|]; [|done]. rewrite N by done. by rewrite u64_id.
  - by intros v v' r x [= <-].
  - intros v r x -> Hx. eexists. split; [done|]. cbn. unfold upd. rewrite Z.eqb_refl. split; [done|].
    intros r' Hr'. by rewrite (proj2 (Z.eqb_neq _ _) Hr').
  - intros v v' r x. destruct (named r); [|done]. by intros [= <-].
  - intros v v' x Hx [= <-]. cbn. by rewrite u64_id.
  - by intros v v' b [= <-].
  - intros v. eexists. split; [done|]. apply u64_range.
  - by eexists.
  - by eexists.
  - by intros v v' b [= <-].
Qed.

Definition demo_vcpu (l : list (list (Z * Z) * HvExit)) : DemoVcpu := mkDemo (fun r => r * 0x1000) (fun _ => 0x200110) 7 l.

(** A CPU_ON of cpu 1 at 0x4020_0000 with context 0x77. *)
Definition hvc : HvExit := mkExit HV_EXIT_REASON_EXCEPTION (Z.shiftl EC_HVC64 26) 0.
Definition demo_hs : list DemoVcpu :=
  [demo_vcpu [([(0, 0xc4000003); (1, 1); (2, 0x40200000); (3, 0x77)], hvc)]; demo_vcpu []].
Definition demo_w1 : HvfWorld DemoVcpu := put_thread (hvf_start demo_hs) 0
  (w_sh (hvf_start demo_hs), mkVcpu (demo_vcpu [([(0, 0xc4000003); (1, 1); (2, 0x40200000); (3, 0x77)], hvc)]) 0 true 31 false) TTop.
Definition thread_v (w : HvfWorld DemoVcpu) (i : nat) : HvfVcpu DemoVcpu :=
  match w_threads w !! i with Some (v, _) => v | None => mkVcpu (demo_vcpu []) i false 31 false end.
Definition demo_w2 : HvfWorld DemoVcpu :=
  put_thread demo_w1 0 (fst (swgic_prep (w_sh demo_w1, thread_v demo_w1 0))) TGuest.
Definition after_run (v : HvfVcpu DemoVcpu) : HvfVcpu DemoVcpu :=
  match hv_vcpu_run (handle v) with Some (h, _) => set_handle h v | None => v end.
Definition demo_w3 : HvfWorld DemoVcpu :=
  put_thread demo_w2 0 (fst (handle_exit hvc (w_sh demo_w2, after_run (thread_v demo_w2 0)))) TTop.

Lemma split_snd {A B} (p : A * B) (r : B) : snd p = r -> p = (fst p, r).
Proof. destruct p. by intros <-. Qed.

Lemma demo_steps : hvf_step (hvf_start demo_hs) demo_w1 /\ hvf_step demo_w1 demo_w2 /\ hvf_step demo_w2 demo_w3.
Proof.
  split; [|split].
  - exact (h_call (hvf_start demo_hs) 0 _ eq_refl).
  - refine (h_prep demo_w1 0 (thread_v demo_w1 0) _ (inl tt) eq_refl _). apply split_snd. vm_compute. reflexivity.
  - refine (h_exit demo_w2 0 (thread_v demo_w2 0) _ hvc _ (inl None) eq_refl eq_refl _).
    apply split_snd. vm_compute. reflexivity.
Qed.

Lemma cpu_on_lifecycle_witness :
  slot demo_w2 1 = Some Off /\ slot demo_w3 1 = Some (Posted 0x40200000 0x77) /\
  slot_change demo_w2 demo_w3 1 Off (Posted 0x40200000 0x77).
Proof.
  split; [vm_compute; reflexivity|]. split; [vm_compute; reflexivity|].
  destruct demo_steps as (S1 & S2 & S3).
  destruct (cpu_on_lifecycle demo_hs demo_w2 demo_w3 1 (mkVcpu (demo_vcpu []) 1 false 31 false) TOut Off) as (_ & _ & b & Eb & C).
  - cbn. lia.
  - eapply rtc_l; [exact S1|]. eapply rtc_l; [exact S2|]. apply rtc_refl.
  - exact S3.
  - reflexivity.
  - vm_compute. reflexivity.
  - assert (E : slot demo_w3 1 = Some (Posted 0x40200000 0x77)) by (vm_compute; reflexivity).
    rewrite E in Eb. injection Eb as <-. exact C.
Defined.

Definition demo_st : St DemoVcpu :=
  (mkShared [On; Off] (Some (with_cpus 2)) false false 0, mkVcpu (demo_vcpu []) 0 true 31 false).
(** A word load to x3 from GICD_TYPER. *)
Definition typer_load : HvExit := mkExit HV_EXIT_REASON_EXCEPTION 0x93830006 0x08000004.

Lemma data_abort_routed_witness :
  exists sh h, handle_exit typer_load demo_st = ((sh, set_handle h (snd demo_st)), inl None) /\
    xh h 3 = 0x27 /\ xh h 31 = 0x1f004 /\ xh h 2 = 0x2000.
Proof.
  pose proof (data_abort_routed demo_st (with_cpus 2) typer_load (mkAccess 0x08000004 4 None) 3
    eq_refl eq_refl eq_refl) as P.
  cbv zeta in P. destruct P as (sh & h & E & _ & _ & R). exists sh, h. split; [exact E|].
  rewrite !R by lia. vm_compute. by split_and!.
Defined.

(** A word store of xzr to the virtio STATUS register at PC 0x1f000. *)
Lemma xzr_store_sends_pc_witness :
  exists a s', handle_exit (mkExit HV_EXIT_REASON_EXCEPTION 0x939f0046 0x0a000070) demo_st = (s', inl (Some (Mmio a))) /\
    ac_ipa a = 0x0a000070 /\ ac_write a = Some 0x1f000.
Proof. exact (xzr_store_sends_pc demo_st _ 0x939f0046 0x0a000070 eq_refl eq_refl eq_refl eq_refl eq_refl eq_refl eq_refl). Defined.

Lemma vcpu_restore_resumes_witness :
  exists c offset, capture 5 demo_st = (demo_st, inl c) /\ hv_vcpu_get_vtimer_offset (handle (snd demo_st)) = Some offset /\
    exists sh h, restore 90 c demo_st = ((sh, set_handle h (set_started (snd demo_st))), inl tt) /\
      cpu_on sh = alter (fun _ => On) (cpu (snd demo_st)) (cpu_on (fst demo_st)) /\ swgic sh = swgic (fst demo_st) /\
      (forall r, hv_reg r -> hv_vcpu_get_reg h r = hv_vcpu_get_reg (handle (snd demo_st)) r) /\
      exists offset', hv_vcpu_get_vtimer_offset h = Some offset' /\ cntvct 90 offset' = cntvct 5 offset.
Proof. exact (vcpu_restore_resumes demo_st demo_st 5 90). Defined.

Lemma no_crypto_hides_witness :
  exists t h y, by_name "no-crypto" = Some t /\
    apply_cpu_template t demo_st = ((fst demo_st, set_handle h (snd demo_st)), inl tt) /\
    hv_vcpu_get_sys_reg h ID_AA64ISAR0_EL1 = Some y /\ y = 0x200000.
Proof.
  assert (Ex : hv_vcpu_get_sys_reg (handle (snd demo_st)) ID_AA64ISAR0_EL1 = Some 0x200110) by reflexivity.
  destruct (no_crypto_hides demo_st 0x200110 Ex ltac:(lia)) as (t & h & y & E1 & E2 & E3 & B & _).
  exists t, h, y. split; [exact E1|]. split; [exact E2|]. split; [exact E3|].
  apply Z.bits_inj'. intros b Hb. rewrite B by lia.
  destruct (Z.ltb_spec b 64) as [Hs|Hs].
  - assert (A : forallb (fun n => let b := Z.of_nat n in
      Bool.eqb (Z.testbit 0x200110 b && negb (((4 <=? b) && (b <? 16)) || ((32 <=? b) && (b <? 44)))) (Z.testbit 0x200000 b))
      (seq 0 64) = true) by reflexivity.
    rewrite List.forallb_forall in A. specialize (A (Z.to_nat b)). cbv zeta in A. rewrite Z2Nat.id in A by lia.
    apply Bool.eqb_prop, A, in_seq. lia.
  - rewrite <- (Z.mod_small 0x200110 (2 ^ 64)), <- (Z.mod_small 0x200000 (2 ^ 64)) by lia.
    by rewrite !Z.mod_pow2_bits_high by lia.
Defined.

Lemma gic_placement_witness :
  exists i, create_gic 0x10000 0x2000000 (2 ^ 16) = inl i /\ redist_base i = 0x09010000 /\
    redist_base i + redist_size i <= layout.RAM_BASE.
Proof.
  pose proof (gic_placement 0x10000 0x2000000 16 ltac:(lia) ltac:(lia) ltac:(lia)) as [P _].
  assert (E : create_gic 0x10000 0x2000000 (2 ^ 16) = inl (mkGicInfo 0x08000000 0x10000 0x09010000 0x2000000 V3))
    by (vm_compute; reflexivity).
  rewrite E in P. eexists. split; [exact E|]. split; [done|]. apply P.
Defined.
