(* ===== verification/KvmVcpu.v ===== *)
(** * KvmVcpu: the Linux backend's VM and vcpus
    (crates/amber-kvm/src/backend.rs)

    KVM keeps the interrupt controller, the timer and PSCI; the backend maps
    ONE_REG ids, translates [KVM_RUN] exits and saves the register file. The
    vcpu file descriptor is an interface: registers by 64-bit id, the list of
    ids, whether the vcpu is powered, and a run that ends in an exit. *)

From S2P Require Import Prelude Memory Virtqueue VirtioMmio Devices Net Vsock Pl011 Machine Gicv2 Hvf.

(** ** Register ids *)

(** <linux/kvm.h>. *)
Definition KVM_REG_ARM64 : Z := 0x6000000000000000.
Definition KVM_REG_SIZE_U64 : Z := 0x0030000000000000.
Definition KVM_REG_ARM_CORE : Z := 0x00100000.
Definition KVM_REG_ARM64_SYSREG : Z := 0x00130000.

Definition core_reg (byte_off : Z) : Z :=
  Z.lor (Z.lor (Z.lor KVM_REG_ARM64 KVM_REG_SIZE_U64) KVM_REG_ARM_CORE) (byte_off / 4).
Definition x_reg (i : Z) : Z := core_reg (i * 8).
Definition PC_REG : Z := core_reg (32 * 8).
Definition PSTATE_REG : Z := core_reg (33 * 8).
Definition kvm_sysreg_id (e : Z) : Z :=
  Z.lor (Z.lor (Z.lor KVM_REG_ARM64 KVM_REG_SIZE_U64) KVM_REG_ARM64_SYSREG) e.

(** [1usize << ((id >> 52) & 0xf)]. *)
Definition reg_size (id : Z) : Z := Z.shiftl 1 (Z.land (Z.shiftr id 52) 0xf).

(** ** The vcpu descriptor *)

(** How [KVM_RUN] ends: an exit, EINTR, or another errno. *)
Inductive KvmExit :=
| KMmio (phys_addr len : Z) (is_write : bool) (data : list Z)
| KSystemEvent
| KIntr
| KFailEntry
| KInternalError
| KOther (reason : Z).
Inductive KvmRet := KExit (e : KvmExit) | KEintr | KErrno.

Class KvmFd (V : Type) := {
  get_one_reg : V -> Z -> Z -> option (list Z);
  set_one_reg : V -> Z -> list Z -> option V;
  (** the ids, or the count when the buffer holds fewer *)
  get_reg_list : V -> Z -> list Z + Z;
  kvm_powered : V -> bool;
  kvm_run : V -> V * KvmRet
}.

(** Documented behaviour. A read fills the buffer; a write that is accepted is
    what is read, changes no other register, and never changes whether the
    vcpu is powered (that is KVM_SET_MP_STATE's); the list is complete when
    the buffer is large enough, and its length is reported when it is not. *)
Class KvmFdLaws (V : Type) `{KvmFd V} := {
  kvm_get_len : forall v id n bs, get_one_reg v id n = Some bs -> zlen bs = n;
  kvm_get_set : forall v v' id bs id' n, set_one_reg v id bs = Some v' ->
    get_one_reg v' id' n = if id' =? id then (if n =? zlen bs then Some bs else None) else get_one_reg v id' n;
  kvm_set_power : forall v v' id bs, set_one_reg v id bs = Some v' -> kvm_powered v' = kvm_powered v;
  kvm_list_size : forall v n l, get_reg_list v n = inl l -> zlen l <= n;
  kvm_list_grow : forall v n k, get_reg_list v n = inr k -> exists l, get_reg_list v k = inl l
}.

(** ** State *)

Record KvmVcpu (V : Type) := mkKvmVcpu {
  fd : V;
  (** the MMIO data bytes of the shared [kvm_run] page *)
  run_data : list Z;
  mmio_len : Z;
  tid_registered : bool
}.
Arguments mkKvmVcpu {V}.
Arguments fd {V}.
Arguments run_data {V}.
Arguments mmio_len {V}.
Arguments tid_registered {V}.

Record KvmVm (V : Type) := mkKvmVm {
  kvm_gic : GicInfo;
  kvm_vcpus : nat;
  kick_tids : list Z;
  pending_vcpus : list (option (KvmVcpu V))
}.
Arguments mkKvmVm {V}.
Arguments kvm_gic {V}.
Arguments kvm_vcpus {V}.
Arguments kick_tids {V}.
Arguments pending_vcpus {V}.

Definition GICD_BASE : Z := 0x08000000.
Definition GICD_SIZE : Z := 0x00010000.
Definition GICR_BASE : Z := 0x080a0000.
Definition GICR_PER_CPU : Z := 0x00020000.
Definition NR_IRQS : Z := 256.

Section Kvm.
Context {V : Type} `{KvmFd V}.

(** ** Creation *)

(** [init_vcpu]: what the kernel returns for vcpu [id], initialised powered
    off unless it is the first, or a failure of one of its calls. *)
Definition init_vcpu (fds : nat -> bool -> option V) (id : nat) : KvmVcpu V + Error :=
  match fds id (negb (id =? 0)%nat) with
  | Some v => inl (mkKvmVcpu v (replicate 8 0) 0 false)
  | None => inr EBackend
  end.

Fixpoint init_vcpus (fds : nat -> bool -> option V) (ids : list nat) : list (option (KvmVcpu V)) + Error :=
  match ids with
  | [] => inl []
  | id :: ids' =>
      match init_vcpu fds id with
      | inr e => inr e
      | inl v => match init_vcpus fds ids' with inl l => inl (Some v :: l) | inr e => inr e end
      end
  end.

(** [KvmVm::create]; [ok] is whether the VM and controller calls succeed. *)
Definition kvm_create (ok : bool) (fds : nat -> bool -> option V) (vcpus : nat) : KvmVm V + Error :=
  if negb ok then inr EBackend
  else
    let n := Nat.max vcpus 1 in
    match init_vcpus fds (seq 0 n) with
    | inr e => inr e
    | inl l =>
        inl (mkKvmVm (mkGicInfo GICD_BASE GICD_SIZE GICR_BASE (wmul64 GICR_PER_CPU (Z.of_nat n)) V3) n [] l)
    end.

(** [pending.get_mut(id).and_then(Option::take)]. *)
Definition kvm_create_vcpu (vm : KvmVm V) (id : nat) : KvmVm V * (KvmVcpu V + Error) :=
  match pending_vcpus vm !! id with
  | Some (Some v) =>
      (mkKvmVm (kvm_gic vm) (kvm_vcpus vm) (kick_tids vm) (<[id := None]> (pending_vcpus vm)), inl v)
  | _ => (vm, inr EBackend)
  end.

(** The argument of KVM_IRQ_LINE. *)
Definition irq_line (intid : Z) : Z := Z.lor (u32 (Z.shiftl 1 24)) intid.

(** ** Registers *)

Definition set_fd (v : KvmVcpu V) (f : V) : KvmVcpu V := mkKvmVcpu f (run_data v) (mmio_len v) (tid_registered v).

Definition k_set_reg (v : KvmVcpu V) (id val : Z) : KvmVcpu V * (unit + Error) :=
  match set_one_reg (fd v) id (le_bytes 8 val) with
  | Some f => (set_fd v f, inl tt)
  | None => (v, inr EBackend)
  end.

Definition k_get_reg (v : KvmVcpu V) (id : Z) : Z + Error :=
  match get_one_reg (fd v) id 8 with Some bs => inl (of_le_bytes bs) | None => inr EBackend end.

(** [set_reg]s in sequence, the first failure ending it. *)
Fixpoint k_set_regs (v : KvmVcpu V) (l : list (Z * Z)) : KvmVcpu V * (unit + Error) :=
  match l with
  | [] => (v, inl tt)
  | (id, val) :: l' =>
      match k_set_reg v id val with (v', inl _) => k_set_regs v' l' | (v', inr e) => (v', inr e) end
  end.

Definition k_set_boot_regs (v : KvmVcpu V) (entry dtb : Z) : KvmVcpu V * (unit + Error) :=
  k_set_regs v [(PSTATE_REG, 0x3c5); (PC_REG, entry); (x_reg 0, dtb)].

Definition k_get_x (v : KvmVcpu V) (idx : Z) : Z + Error := k_get_reg v (x_reg idx).
Definition k_set_x (v : KvmVcpu V) (idx val : Z) : KvmVcpu V * (unit + Error) := k_set_reg v (x_reg idx) val.
Definition k_pc (v : KvmVcpu V) : Z + Error := k_get_reg v PC_REG.
Definition k_set_pc (v : KvmVcpu V) (val : Z) : KvmVcpu V * (unit + Error) := k_set_reg v PC_REG val.

Fixpoint k_apply_overrides (v : KvmVcpu V) (ovs : list Override) : KvmVcpu V * (unit + Error) :=
  match ovs with
  | [] => (v, inl tt)
  | ov :: ovs' =>
      let id := kvm_sysreg_id (ov_reg ov) in
      match k_get_reg v id with
      | inr e => (v, inr e)
      | inl cur =>
          match k_set_reg v id (Z.lor (Z.land cur (ov_and_mask ov)) (ov_or_value ov)) with
          | (v', inl _) => k_apply_overrides v' ovs'
          | (v', inr e) => (v', inr e)
          end
      end
  end.
Definition k_apply_cpu_template (v : KvmVcpu V) (t : CpuTemplate) : KvmVcpu V * (unit + Error) :=
  k_apply_overrides v (ct_overrides t).

(** ** Running *)

Definition set_mmio_len (v : KvmVcpu V) (n : Z) : KvmVcpu V := mkKvmVcpu (fd v) (run_data v) n (tid_registered v).

(** [run] on the thread [tid], with the VM's list of threads. *)
Definition k_run (tids : list Z) (tid : Z) (v : KvmVcpu V) : list Z * KvmVcpu V * (VmExit + Error) :=
  let '(tids, reg) := if tid_registered v then (tids, true) else (tids ++ [tid], true) in
  let '(f, r) := kvm_run (fd v) in
  let v1 := mkKvmVcpu f (match r with KExit (KMmio _ _ _ d) => d | _ => run_data v end) (mmio_len v) reg in
  match r with
  | KEintr => (tids, v1, inl Idle)
  | KErrno => (tids, v1, inr EBackend)
  | KExit (KMmio ipa len is_write data) =>
      if is_write then
        let b := splice 0 (take (Z.to_nat len) data) (replicate 8 0) in
        (tids, v1, inl (Mmio (mkAccess ipa (u8 len) (Some (of_le_bytes b)))))
      else (tids, set_mmio_len v1 len, inl (Mmio (mkAccess ipa (u8 len) None)))
  | KExit KSystemEvent => (tids, v1, inl Shutdown)
  | KExit KIntr => (tids, v1, inl Idle)
  | KExit KFailEntry | KExit KInternalError =>
      (tids, v1, inl (Fault (match k_pc v1 with inl p => p | inr _ => 0 end) 0 0))
  | KExit (KOther _) => (tids, v1, inr EBackend)
  end.

Definition k_complete_mmio_read (v : KvmVcpu V) (value : Z) : KvmVcpu V :=
  let len := Z.to_nat (Z.min (mmio_len v) 8) in
  mkKvmVcpu (fd v) (splice 0 (take len (le_bytes 8 value)) (run_data v)) (mmio_len v) (tid_registered v).

Definition k_advance_mmio (v : KvmVcpu V) : KvmVcpu V * (unit + Error) := (v, inl tt).

(** ** Capture and restore *)

Fixpoint read_regs (f : V) (ids : list Z) : list (Z * list Z) + Error :=
  match ids with
  | [] => inl []
  | id :: ids' =>
      match get_one_reg f id (reg_size id) with
      | None => inr EBackend
      | Some bs => match read_regs f ids' with inl l => inl ((id, bs) :: l) | inr e => inr e end
      end
  end.

(** The list of ids: a first probe with room for one, then one with room for
    the count reported. *)
Definition reg_list (f : V) : list Z + Error :=
  match get_reg_list f 1 with
  | inl l => inl l
  | inr n => match get_reg_list f n with inl l => inl l | inr _ => inr EBackend end
  end.

(** [kvm_regs] of the snapshot. *)
Definition k_capture (v : KvmVcpu V) : list (Z * list Z) + Error :=
  match reg_list (fd v) with inl ids => read_regs (fd v) ids | inr e => inr e end.

Fixpoint write_regs (f : V) (l : list (Z * list Z)) : V :=
  match l with
  | [] => f
  | (id, bs) :: l' => write_regs (default f (set_one_reg f id bs)) l'
  end.

Definition k_restore (v : KvmVcpu V) (kvm_regs : list (Z * list Z)) : KvmVcpu V * (unit + Error) :=
  match kvm_regs with
  | [] => (v, inr ESnapshot)
  | _ => (set_fd v (write_regs (fd v) kvm_regs), inl tt)
  end.
End Kvm.

(** ** Lemmas *)

Lemma core_reg_eq (off : Z) : 0 <= off < 2 ^ 18 -> core_reg off = 0x6030000000100000 + off / 4.
Proof.
  intros Ho. unfold core_reg. change (Z.lor _ KVM_REG_ARM_CORE) with 0x6030000000100000.
  assert (Hq : 0 <= off / 4 < 2 ^ 16) by (split; [apply Z.div_pos; lia|apply Z.div_lt_upper_bound; lia]).
  apply Z.bits_inj'. intros n Hn. rewrite Z.lor_spec.
  rewrite Z.add_nocarry_lxor, Z.lxor_spec.
  - destruct (Z.ltb_spec n 20).
    + assert (E : Z.testbit 0x6030000000100000 n = false).
      { change 0x6030000000100000 with (Z.shiftl 0x60300000001 20). rewrite Z.shiftl_spec by lia. apply Z.testbit_neg_r. lia. }
      rewrite E. by destruct (Z.testbit (off / 4) n).
    + assert (E : Z.testbit (off / 4) n = false).
      { rewrite <- (Z.mod_small (off / 4) (2 ^ 20)) by lia. apply Z.mod_pow2_bits_high. lia. }
      rewrite E. by destruct (Z.testbit 0x6030000000100000 n).
  - apply Z.bits_inj'. intros k Hk. rewrite Z.land_spec, Z.bits_0.
    destruct (Z.ltb_spec k 20).
    + change 0x6030000000100000 with (Z.shiftl 0x60300000001 20). rewrite Z.shiftl_spec by lia.
      by rewrite Z.testbit_neg_r by lia.
    + rewrite <- (Z.mod_small (off / 4) (2 ^ 20)) by lia. rewrite Z.mod_pow2_bits_high by lia. apply andb_false_r.
Qed.

Lemma x_reg_eq (i : Z) : 0 <= i <= 33 -> x_reg i = 0x6030000000100000 + 2 * i.
Proof.
  intros Hi. unfold x_reg. rewrite core_reg_eq by lia. f_equal.
  replace (i * 8) with (2 * i * 4) by lia. by apply Z.div_mul.
Qed.

Lemma of_le_bytes_pad (l : list Z) (k : nat) : of_le_bytes (l ++ replicate k 0) = of_le_bytes l.
Proof.
  induction l as [|b l IH]; cbn [app of_le_bytes]; [|by rewrite IH].
  induction k as [|k IH]; [done|]. cbn [replicate of_le_bytes]. by rewrite IH.
Qed.

Lemma take_le_bytes (n m : nat) (v : Z) : (n <= m)%nat -> take n (le_bytes m v) = le_bytes n v.
Proof.
  revert m v. induction n as [|n IH]; intros m v Hn; [done|]. destruct m as [|m]; [lia|].
  cbn [le_bytes take]. f_equal. apply IH. lia.
Qed.

Section KvmLaws.
Context {V : Type} `{KvmFdLaws V}.

(** Values of the registers written by [k_set_regs]. *)
Lemma k_set_regs_ok (l : list (Z * Z)) : forall v : KvmVcpu V,
  (forall f id x, id ∈ map fst l -> is_Some (set_one_reg f id (le_bytes 8 x))) ->
  NoDup (map fst l) -> Forall (fun p => fits 64 (snd p)) l ->
  exists f, k_set_regs v l = (set_fd v f, inl tt) /\
    (forall id x, (id, x) ∈ l -> k_get_reg (set_fd v f) id = inl x) /\
    (forall id n, id ∉ map fst l -> get_one_reg f id n = get_one_reg (fd v) id n).
Proof.
  induction l as [|[id x] l IH]; intros v Hacc Hnd Hx.
  { exists (fd v). split; [by destruct v|]. split; [by intros ? ? ?%elem_of_nil|done]. }
  cbn [map fst] in Hnd. apply NoDup_cons in Hnd as [Hni Hnd]. apply Forall_cons in Hx as [Hx Hxs].
  cbn [k_set_regs]. unfold k_set_reg.
  destruct (Hacc (fd v) id x) as [f Ef]; [by left|]. rewrite Ef.
  destruct (IH (set_fd v f)) as (f' & E & G & O); [|done..|].
  { intros f0 id0 bs0 Hin. apply Hacc. by right. }
  exists f'. split; [exact E|]. split.
  - intros id' x' [[= -> ->]|Hin]%elem_of_cons; [|by apply G].
    unfold k_get_reg. cbn [fd set_fd]. rewrite (O id 8 Hni). cbn [fd set_fd].
    rewrite (kvm_get_set _ _ _ _ _ _ Ef), Z.eqb_refl, zlen_le_bytes. cbn [Z.eqb Z.of_nat Pos.eqb].
    change (8 =? Z.of_nat 8) with true. cbn iota. f_equal. by apply of_le_bytes_le_bytes_id.
  - intros id' n [Hne Hni']%not_elem_of_cons. rewrite O by done. cbn [fd set_fd].
    rewrite (kvm_get_set _ _ _ _ _ _ Ef). by rewrite (proj2 (Z.eqb_neq id' id) Hne).
Qed.

Lemma read_regs_ok (f : V) (ids : list Z) (l : list (Z * list Z)) :
  read_regs f ids = inl l -> map fst l = ids /\
    Forall (fun p => get_one_reg f (fst p) (reg_size (fst p)) = Some (snd p)) l.
Proof.
  revert l. induction ids as [|id ids IH]; intros l; cbn [read_regs]; [by intros [= <-]|].
  destruct (get_one_reg f id (reg_size id)) as [bs|] eqn:E; [|done].
  destruct (read_regs f ids) as [l'|]; [|done]. intros [= <-].
  destruct (IH l' eq_refl) as [IH1 IH2]. cbn [map fst]. split; [by rewrite IH1|]. by constructor.
Qed.

Lemma write_regs_power (l : list (Z * list Z)) : forall f, kvm_powered (write_regs f l) = kvm_powered f.
Proof.
  induction l as [|[id bs] l IH]; intros f; [done|]. cbn [write_regs]. rewrite IH.
  destruct (set_one_reg f id bs) as [f'|] eqn:E; [|done]. by eapply kvm_set_power.
Qed.

Lemma write_regs_other (l : list (Z * list Z)) : forall f id n,
  id ∉ map fst l -> get_one_reg (write_regs f l) id n = get_one_reg f id n.
Proof.
  induction l as [|[id bs] l IH]; intros f id' n; [done|]. cbn [map fst write_regs].
  intros [Hne Hni]%not_elem_of_cons. rewrite IH by done.
  destruct (set_one_reg f id bs) as [f'|] eqn:E; [|done]. cbn [default].
  rewrite (kvm_get_set _ _ _ _ _ _ E). by rewrite (proj2 (Z.eqb_neq id' id) Hne).
Qed.

(** Which registers accept writes, where that depends on the register alone. *)
Lemma write_regs_ok (acc : Z -> bool) (l : list (Z * list Z)) :
  (forall f id bs, (id, bs) ∈ l -> is_Some (set_one_reg f id bs) <-> acc id = true) ->
  NoDup (map fst l) -> forall f id bs, (id, bs) ∈ l ->
  get_one_reg (write_regs f l) id (zlen bs) = if acc id then Some bs else get_one_reg f id (zlen bs).
Proof.
  induction l as [|[id bs] l IH]; intros Hacc Hnd f id' bs' Hin; [by apply elem_of_nil in Hin|].
  cbn [map fst] in *. apply NoDup_cons in Hnd as [Hni Hnd]. cbn [write_regs].
  apply elem_of_cons in Hin as [[= -> ->]|Hin].
  - rewrite write_regs_other by done. pose proof (Hacc f id bs ltac:(by left)) as Ha.
    destruct (set_one_reg f id bs) as [f'|] eqn:E; cbn [default].
    + rewrite (kvm_get_set _ _ _ _ _ _ E), !Z.eqb_refl. by rewrite (proj1 Ha) by eauto.
    + destruct (acc id); [|done]. by destruct (proj2 Ha eq_refl).
  - rewrite IH; [|intros; apply Hacc; by right|done|done].
    destruct (acc id'); [done|]. destruct (set_one_reg f id bs) as [f'|] eqn:E; [|done]. cbn [default].
    rewrite (kvm_get_set _ _ _ _ _ _ E). destruct (Z.eqb_spec id' id) as [->|]; [|done].
    destruct Hni. apply list_elem_of_In, in_map_iff. exists (id, bs'). split; [done|by apply list_elem_of_In].
Qed.
End KvmLaws.

(** *** Handing out vcpus *)

Section KvmVcpus.
Context {V : Type} `{KvmFd V}.

Lemma init_vcpus_ok (fds : nat -> bool -> option V) (ids : list nat) : forall l,
  init_vcpus fds ids = inl l -> length l = length ids /\
    forall k i, ids !! k = Some i -> exists v, init_vcpu fds i = inl v /\ l !! k = Some (Some v).
Proof.
  induction ids as [|id ids IH]; intros l; cbn [init_vcpus]; [intros [= <-]; by split|].
  destruct (init_vcpu fds id) as [v|] eqn:Ev; [|done].
  destruct (init_vcpus fds ids) as [l'|]; [|done]. intros [= <-]. destruct (IH l' eq_refl) as [Hl Hk].
  split; [by cbn; rewrite Hl|]. intros [|k] i; [intros [= <-]; by exists v|apply Hk].
Qed.

Lemma kvm_create_ok (fds : nat -> bool -> option V) (n : nat) (vm : KvmVm V) :
  kvm_create true fds n = inl vm -> length (pending_vcpus vm) = Nat.max n 1 /\
    forall i, (i < Nat.max n 1)%nat -> exists v, init_vcpu fds i = inl v /\ pending_vcpus vm !! i = Some (Some v).
Proof.
  unfold kvm_create. cbn [negb]. destruct (init_vcpus fds _) as [l|] eqn:El; [|done]. intros [= <-].
  destruct (init_vcpus_ok _ _ _ El) as [Hl Hk]. cbn [pending_vcpus]. rewrite length_seq in Hl.
  split; [done|]. intros i Hi. apply Hk. by rewrite lookup_seq_lt.
Qed.

Lemma taken_lookup (ids : list nat) : forall (vm : KvmVm V) (id : nat),
  pending_vcpus (foldl (fun m i => fst (kvm_create_vcpu m i)) vm ids) !! id =
    if existsb (Nat.eqb id) ids then const None <$> pending_vcpus vm !! id else pending_vcpus vm !! id.
Proof.
  induction ids as [|i ids IH]; intros vm id; [done|]. cbn [foldl existsb]. rewrite IH.
  assert (E : pending_vcpus (fst (kvm_create_vcpu vm i)) !! id =
    if (id =? i)%nat then const None <$> pending_vcpus vm !! id else pending_vcpus vm !! id).
  { unfold kvm_create_vcpu. destruct (Nat.eqb_spec id i) as [->|Hn].
    - destruct (pending_vcpus vm !! i) as [[v|]|] eqn:Ei; cbn [fst pending_vcpus]; [|by rewrite Ei..].
      rewrite list_lookup_insert_eq; [done|]. by eapply lookup_lt_Some.
    - destruct (pending_vcpus vm !! i) as [[v|]|]; cbn [fst pending_vcpus]; [|done..].
      by rewrite list_lookup_insert_ne. }
  rewrite E. destruct (id =? i)%nat; [|done]. cbn [orb].
  destruct (existsb _ ids); [|done]. by destruct (pending_vcpus vm !! id).
Qed.
End KvmVcpus.

(** ** Properties *)

Section KvmProperties.
Context {V : Type} `{KvmFdLaws V}.

(** the boot registers. Where the kernel accepts the three writes, the
    vcpu has PSTATE at EL1h with interrupts masked, PC at the entry and x0 at
    the device tree, no other register changes, and no two of the registers
    x0 to x30, PC and PSTATE share an id, so none of them is one of these. *)
Theorem kvm_boot_regs (v : KvmVcpu V) (entry dtb : Z) :
  (forall f id x, id ∈ [PSTATE_REG; PC_REG; x_reg 0] -> is_Some (set_one_reg f id (le_bytes 8 x))) ->
  fits 64 entry -> fits 64 dtb ->
  exists f, k_set_boot_regs v entry dtb = (set_fd v f, inl tt) /\
    k_get_reg (set_fd v f) PSTATE_REG = inl 0x3c5 /\ k_pc (set_fd v f) = inl entry /\
    k_get_x (set_fd v f) 0 = inl dtb /\
    (forall i, 1 <= i <= 31 -> k_get_x (set_fd v f) i = k_get_x v i) /\
    (forall i j, 0 <= i <= 33 -> 0 <= j <= 33 -> x_reg i = x_reg j -> i = j).
Proof.
  intros Hacc He Hd.
  assert (Inj : forall i j, 0 <= i <= 33 -> 0 <= j <= 33 -> x_reg i = x_reg j -> i = j).
  { intros i j Hi Hj. rewrite !x_reg_eq by lia. lia. }
  destruct (k_set_regs_ok [(PSTATE_REG, 0x3c5); (PC_REG, entry); (x_reg 0, dtb)] v) as (f & E & G & O).
  - exact Hacc.
  - vm_compute. repeat constructor; rewrite ?list_elem_of_In; cbn; intuition congruence.
  - repeat constructor; cbn [snd]; lia.
  - exists f. split; [exact E|]. split; [apply G; left|]. split; [apply G; right; left|].
    split; [apply G; right; right; left|]. split; [|exact Inj].
    intros i Hi. unfold k_get_x, k_get_reg. cbn [fd set_fd]. rewrite O; [done|].
    cbn [map fst]. change PSTATE_REG with (x_reg 33). change PC_REG with (x_reg 32).
    rewrite !not_elem_of_cons. split_and!; [intros ?%Inj; lia..|apply not_elem_of_nil].
Qed.

(** MMIO through the run page. A store reaches the run loop as its bytes
    read little-endian; a load is surfaced without data, and completing it
    writes exactly the load's bytes of the value into the page (the others
    stay), where the kernel reads them back as the value at the load's width. *)
Theorem kvm_mmio (tids : list Z) (tid : Z) (v : KvmVcpu V) (f : V) (ipa len value : Z) (is_write : bool) (data : list Z) :
  kvm_run (fd v) = (f, KExit (KMmio ipa len is_write data)) ->
  0 <= len <= 8 -> length data = 8%nat -> bytes_wf data -> fits 64 value ->
  let '(tids', v', r) := k_run tids tid v in
  tids' = (if tid_registered v then tids else tids ++ [tid]) /\ tid_registered v' = true /\ fd v' = f /\
  r = inl (Mmio (mkAccess ipa len (if is_write then Some (of_le_bytes (take (Z.to_nat len) data)) else None))) /\
  (is_write = false ->
    let page := run_data (k_complete_mmio_read v' value) in
    of_le_bytes (take (Z.to_nat len) page) = value mod 256 ^ len /\
    drop (Z.to_nat len) page = drop (Z.to_nat len) data).
Proof.
  intros Er Hlen Hd Hb Hv. unfold k_run. rewrite Er.
  assert (Pad : of_le_bytes (splice 0 (take (Z.to_nat len) data) (replicate 8 0)) = of_le_bytes (take (Z.to_nat len) data)).
  { unfold splice. cbn [take app]. change (take (Z.to_nat 0) (replicate 8 0)) with (@nil Z). cbn [app].
    by rewrite drop_replicate, of_le_bytes_pad. }
  assert (Page : forall w : KvmVcpu V, run_data w = data -> mmio_len w = len ->
    of_le_bytes (take (Z.to_nat len) (run_data (k_complete_mmio_read w value))) = value mod 256 ^ len /\
    drop (Z.to_nat len) (run_data (k_complete_mmio_read w value)) = drop (Z.to_nat len) data).
  { intros w Ed El. unfold k_complete_mmio_read. rewrite El, Ed, Z.min_l by lia. cbn [run_data].
    rewrite take_le_bytes by lia. unfold splice. change (take (Z.to_nat 0) data) with (@nil Z). cbn [app].
    rewrite length_le_bytes, take_app_length', drop_app_length' by (by rewrite length_le_bytes).
    split; [|done]. rewrite of_le_bytes_le_bytes. by rewrite Z2Nat.id by lia. }
  destruct (tid_registered v), is_write; cbn [fst snd fd tid_registered set_mmio_len run_data mmio_len];
    (split; [done|]); (split; [done|]); (split; [done|]); rewrite ?Pad, (u8_id len) by lia; (split; [done|]); try done;
    intros _; by apply Page.
Qed.

(** a snapshot of the register file restores every register the kernel
    lets be written, at its own width, and leaves the others (read-only
    identification registers) as they are on the new vcpu; the capture reads
    the kernel's complete list, however long. But whether the vcpu is powered
    is not a register: a restored secondary, created powered off, stays off,
    although the captured guest had turned it on. *)
Theorem kvm_restore_registers (v w : KvmVcpu V) (snap : list (Z * list Z)) (acc : Z -> bool) :
  k_capture v = inl snap -> snap <> [] -> NoDup (map fst snap) ->
  (forall f id bs, (id, bs) ∈ snap -> is_Some (set_one_reg f id bs) <-> acc id = true) ->
  exists w', k_restore w snap = (w', inl tt) /\ reg_list (fd v) = inl (map fst snap) /\
    (forall id, id ∈ map fst snap ->
      get_one_reg (fd w') id (reg_size id) =
      get_one_reg (fd (if acc id then v else w)) id (reg_size id)) /\
    kvm_powered (fd w') = kvm_powered (fd w).
Proof.
  unfold k_capture. intros Hc Hne Hnd Hacc. destruct (reg_list (fd v)) as [ids|] eqn:El; [|done].
  destruct (read_regs_ok _ _ _ Hc) as [<- Hr]. exists (set_fd w (write_regs (fd w) snap)).
  split; [by destruct snap|]. split; [done|]. cbn [fd set_fd]. split; [|apply write_regs_power].
  intros id Hin. apply list_elem_of_In, in_map_iff in Hin as ([id' bs] & <- & Hin%list_elem_of_In). cbn [fst].
  rewrite Forall_forall in Hr. pose proof (Hr _ Hin) as Eg. cbn [fst snd] in Eg.
  rewrite <- (kvm_get_len _ _ _ _ Eg).
  rewrite (write_regs_ok acc snap Hacc Hnd (fd w) id' bs Hin). destruct (acc id'); [|done].
  by rewrite (kvm_get_len _ _ _ _ Eg), Eg.
Qed.

(** every vcpu is handed out once. A VM created for [n] vcpus has exactly
    the ids below [max n 1], the first powered on and the others off as the
    kernel was asked; whatever ids are requested in whatever order, a request
    gets the vcpu of that id if it is the first for it and an error otherwise,
    so no vcpu is ever given to two threads. *)
Theorem kvm_vcpus_once (fds : nat -> bool -> option V) (n : nat) (vm : KvmVm V) (ids : list nat) (id : nat) :
  kvm_create true fds n = inl vm ->
  let vm' := foldl (fun m i => fst (kvm_create_vcpu m i)) vm ids in
  snd (kvm_create_vcpu vm' id) =
    if (id <? Nat.max n 1)%nat && negb (existsb (Nat.eqb id) ids)
    then init_vcpu fds id else inr EBackend.
Proof.
  intros Hc vm'. destruct (kvm_create_ok _ _ _ Hc) as [Hlen Hin].
  pose proof (taken_lookup ids vm id) as Ht. fold vm' in Ht.
  unfold kvm_create_vcpu. rewrite Ht. destruct (Nat.ltb_spec id (Nat.max n 1)) as [Hi|Hi]; cbn [andb].
  - destruct (Hin id Hi) as (v & Ev & Eq). rewrite Eq, Ev. by destruct (existsb _ ids).
  - rewrite (proj2 (lookup_ge_None _ _)) by lia. by destruct (existsb _ ids).
Qed.
End KvmProperties.

(** ** Witnesses *)

(** A descriptor over an association list of registers, the last one
    read-only. *)
Record DemoFd := mkDemoFd { df_regs : list (Z * list Z); df_on : bool; df_exit : KvmRet }.
Definition RO_REG : Z := 0x603000000013c030.

Definition df_find (l : list (Z * list Z)) (id n : Z) : option (list Z) :=
  match List.find (fun p => fst p =? id) l with
  | Some (_, bs) => if n =? zlen bs then Some bs else None
  | None => None
  end.

#[export] Instance DemoFd_KvmFd : KvmFd DemoFd := {
  get_one_reg v id n := df_find (df_regs v) id n;
  set_one_reg v id bs :=
    if id =? RO_REG then None else Some (mkDemoFd ((id, bs) :: df_regs v) (df_on v) (df_exit v));
  get_reg_list v n :=
    let ids := nodup Z.eq_dec (map fst (df_regs v)) in if zlen ids <=? n then inl ids else inr (zlen ids);
  kvm_powered v := df_on v;
  kvm_run v := (v, df_exit v)
}.

#[export] Instance DemoFd_Laws : KvmFdLaws DemoFd.
Proof.
  constructor; cbn.
  - intros v id n bs. unfold df_find. destruct (List.find _ _) as [[i b]|]; [|done].
    destruct (Z.eqb_spec n (zlen b)) as [->|]; [|done]. by intros [= <-].
  - intros v v' id bs id' n. destruct (_ =? RO_REG); [done|]. intros [= <-]. cbn [df_regs].
    unfold df_find at 1. cbn [List.find fst]. rewrite (Z.eqb_sym id id').
    by destruct (Z.eqb_spec id' id) as [->|].
  - intros v v' id bs. destruct (_ =? RO_REG); [done|]. by intros [= <-].
  - intros v n l. destruct (Z.leb_spec (zlen (nodup Z.eq_dec (map fst (df_regs v)))) n); [|done]. by intros [= <-].
  - intros v n k. destruct (_ <=? n); [done|]. intros [= <-]. rewrite Z.leb_refl. by eexists.
Qed.

Definition demo_fd : DemoFd :=
  mkDemoFd [(x_reg 0, le_bytes 8 5); (PC_REG, le_bytes 8 0x40201000); (RO_REG, le_bytes 8 0x110)] true
    (KExit (KMmio 0x0c000000 4 false [9; 9; 9; 9; 7; 7; 7; 7])).
Definition demo_off : DemoFd := mkDemoFd [(RO_REG, le_bytes 8 0x20)] false KEintr.
Definition demo_kvcpu (f : DemoFd) : KvmVcpu DemoFd := mkKvmVcpu f (replicate 8 0) 0 false.

Lemma kvm_boot_regs_witness :
  exists f, k_set_boot_regs (demo_kvcpu demo_fd) 0x40200000 0x40100000 = (set_fd (demo_kvcpu demo_fd) f, inl tt) /\
    k_pc (set_fd (demo_kvcpu demo_fd) f) = inl 0x40200000.
Proof.
  destruct (kvm_boot_regs (demo_kvcpu demo_fd) 0x40200000 0x40100000) as (f & E & _ & P & _); [|lia|lia|].
  - intros f id x Hin%list_elem_of_In. destruct Hin as [<-|[<-|[<-|Hf]]]; [by eexists..|destruct Hf].
  - by exists f.
Defined.

Lemma kvm_mmio_witness :
  let v' := snd (fst (k_run [] 42 (demo_kvcpu demo_fd))) in
  snd (k_run [] 42 (demo_kvcpu demo_fd)) = inl (Mmio (mkAccess 0x0c000000 4 None)) /\
  of_le_bytes (take 4 (run_data (k_complete_mmio_read v' 0x1_74726976))) = 0x74726976.
Proof.
  pose proof (kvm_mmio [] 42 (demo_kvcpu demo_fd) demo_fd 0x0c000000 4 0x1_74726976 false [9; 9; 9; 9; 7; 7; 7; 7]
    eq_refl ltac:(lia) eq_refl ltac:(repeat constructor; unfold is_byte; lia) ltac:(lia)) as P.
  cbv zeta. destruct (k_run [] 42 (demo_kvcpu demo_fd)) as [[tids v'] r]. destruct P as (_ & _ & _ & -> & P).
  split; [done|]. exact (proj1 (P eq_refl)).
Defined.

(** The secondary's PC comes back, its read-only register and its power state
    do not. *)
Lemma kvm_restore_registers_witness :
  exists snap w', k_capture (demo_kvcpu demo_fd) = inl snap /\
    k_restore (demo_kvcpu demo_off) snap = (w', inl tt) /\
    get_one_reg (fd w') PC_REG 8 = Some (le_bytes 8 0x40201000) /\
    get_one_reg (fd w') RO_REG 8 = Some (le_bytes 8 0x20) /\ kvm_powered (fd w') = false.
Proof.
  set (snap := [(x_reg 0, le_bytes 8 5); (PC_REG, le_bytes 8 0x40201000); (RO_REG, le_bytes 8 0x110)]).
  destruct (kvm_restore_registers (demo_kvcpu demo_fd) (demo_kvcpu demo_off) snap (fun id => negb (id =? RO_REG)))
    as (w' & E & _ & R & P).
  - vm_compute. reflexivity.
  - done.
  - vm_compute. repeat constructor; rewrite ?list_elem_of_In; cbn; intuition congruence.
  - intros f id bs _. cbn. by destruct (id =? RO_REG).
  - exists snap, w'. split; [vm_compute; reflexivity|]. split; [exact E|].
    split; [exact (R PC_REG ltac:(right; left))|]. split; [exact (R RO_REG ltac:(right; right; left))|exact P].
Defined.

Lemma kvm_vcpus_once_witness :
  let fds := fun (_ : nat) (off : bool) => Some (if off then demo_off else demo_fd) in
  exists vm, kvm_create true fds 2 = inl vm /\
    snd (kvm_create_vcpu (fst (kvm_create_vcpu vm 0)) 1) = inl (demo_kvcpu demo_off) /\
    snd (kvm_create_vcpu (fst (kvm_create_vcpu vm 0)) 0) = inr EBackend.
Proof.
  intros fds. eexists. split; [reflexivity|]. split.
  - exact (kvm_vcpus_once fds 2 _ [0%nat] 1 eq_refl).
  - exact (kvm_vcpus_once fds 2 _ [0%nat] 0 eq_refl).
Defined.
