(* ===== verification/SnapFile.v ===== *)
(** * SnapFile: the snapshot directory (crates/amber-core/src/snapshot.rs)

    A directory of the host as a map from names to contents. Writing goes file
    by file, and each write may fail, leaving the file as it was or holding
    what was written of it. serde's encoding is the interface of [Proto].

    [snapshot_files_roundtrip]: what is written is read back, whatever the
    directory held, and gives [Machine.restore_from] its input;
    [torn_write_mixes]: a write that fails over an older snapshot;
    [corrupt_devices_refused]: a device file that is there must parse. *)

From S2P Require Import Prelude Memory VirtioMmio Proto Machine.
From stdpp Require Import pretty.

#[local] Open Scope Z_scope.

Record Meta := mkMeta {
  me_mem_base : Z;
  me_mem_size : Z;
  me_disk : option string;
  me_gic_kind : option string;
  me_net : bool;
  me_vsock : bool;
  me_vcpus : Z
}.

Record DevState := mkDevs { dv_pl011 : list Z; dv_virtio : list VirtioDevState }.
Definition DevState_default : DevState := mkDevs [] [].

(** What the host does with one write. *)
Inductive WriteRes := Written | WriteFailed (left_behind : option (list Z)).

(** What it does with one read. *)
Inductive FileRes := Contents (bs : list Z) | NotFound | Unreadable.

Abbreviation Dir := (gmap string (list Z)).

Section SnapFile.
(** A vcpu's captured registers. *)
Context {C : Type} `{Serde C} `{Serde Meta} `{Serde DevState}.

Record Loaded := mkLoaded {
  lo_meta : Meta;
  lo_cpu : C;
  lo_cpus : list C;
  lo_gic : list Z;
  lo_dev : DevState
}.

Definition cpu_file (i : nat) : string := if (i =? 0)%nat then "cpu.json" else "cpu" +:+ pretty i +:+ ".json".

(** [std::fs::write]. *)
Definition write_file (host : string -> WriteRes) (d : Dir) (name : string) (bs : list Z) : Dir * bool :=
  match host name with
  | Written => (<[name := bs]> d, true)
  | WriteFailed None => (d, false)
  | WriteFailed (Some bs') => (<[name := bs']> d, false)
  end.

(** Writes in order, the first failure ending them. *)
Fixpoint write_files (host : string -> WriteRes) (d : Dir) (l : list (string * list Z)) : Dir * bool :=
  match l with
  | [] => (d, true)
  | (name, bs) :: l' =>
      match write_file host d name bs with
      | (d1, true) => write_files host d1 l'
      | (d1, false) => (d1, false)
      end
  end.

Definition meta_of (mem : GuestRam) (cpus : list C) (disk gic_kind : option string) (net vsock : bool) : Meta :=
  mkMeta (ram_base mem) (ram_len mem) disk gic_kind net vsock (Z.max (zlen cpus) 1).

Definition snapshot_files (mem : GuestRam) (cpus : list C) (gic : list Z) (disk gic_kind : option string)
    (dev : DevState) (net vsock : bool) : list (string * list Z) :=
  [("dev.json", to_vec dev); ("mem.bin", ram_bytes mem); ("gic.bin", gic);
   ("meta.json", to_vec (meta_of mem cpus disk gic_kind net vsock))]
  ++ imap (fun i cpu => (cpu_file i, to_vec cpu)) cpus.

(** [write]: [mkdir] is whether the directory could be made. *)
Definition write (mkdir : bool) (host : string -> WriteRes) (d : Dir) (mem : GuestRam) (cpus : list C) (gic : list Z)
    (disk gic_kind : option string) (dev : DevState) (net vsock : bool) : Dir * bool :=
  if mkdir then write_files host d (snapshot_files mem cpus gic disk gic_kind dev net vsock) else (d, false).

(** [std::fs::read]; [bad] are the files the host refuses to read. *)
Definition read_file (bad : string -> bool) (d : Dir) (name : string) : FileRes :=
  match d !! name with
  | None => NotFound
  | Some bs => if bad name then Unreadable else Contents bs
  end.

Definition read_json {A} `{Serde A} (bad : string -> bool) (d : Dir) (name : string) : option A :=
  match read_file bad d name with Contents bs => from_slice bs | _ => None end.

(** vcpus [i] to [i + n - 1]. *)
Fixpoint read_cpus (bad : string -> bool) (d : Dir) (n i : nat) : option (list C) :=
  match n with
  | O => Some []
  | S n' =>
      match read_json bad d (cpu_file i) with
      | None => None
      | Some c => match read_cpus bad d n' (S i) with None => None | Some l => Some (c :: l) end
      end
  end.

Definition read (bad : string -> bool) (d : Dir) : Result Loaded :=
  match read_json bad d "meta.json" with
  | None => inr ESnapshot
  | Some meta =>
      match read_json bad d "cpu.json" with
      | None => inr ESnapshot
      | Some cpu =>
          match read_cpus bad d (Z.to_nat (me_vcpus meta) - 1) 1 with
          | None => inr ESnapshot
          | Some cpus =>
              match read_file bad d "gic.bin" with
              | Contents gic =>
                  match read_file bad d "dev.json" with
                  | Contents b =>
                      match from_slice b with
                      | Some dev => inl (mkLoaded meta cpu cpus gic dev)
                      | None => inr ESnapshot
                      end
                  | NotFound => inl (mkLoaded meta cpu cpus gic DevState_default)
                  | Unreadable => inr ESnapshot
                  end
              | _ => inr ESnapshot
              end
          end
      end
  end.

Definition load_mem (bad : string -> bool) (d : Dir) (mem : GuestRam) : Result GuestRam :=
  match read_file bad d "mem.bin" with
  | Contents bytes => GuestMemory_write mem (ram_base mem) bytes
  | _ => inr ESnapshot
  end.

(** What [Vm::restore_from] takes from a loaded snapshot and its directory. *)
Definition machine_loaded (d : Dir) (l : Loaded) : Machine.Loaded :=
  Machine.mkLoaded (me_mem_base (lo_meta l)) (d !! "mem.bin") (me_vcpus (lo_meta l)) (me_disk (lo_meta l))
    (me_net (lo_meta l)) (me_vsock (lo_meta l)) (dv_virtio (lo_dev l)).
End SnapFile.

Arguments Loaded C : clear implicits.

(** ** Properties *)

Section Theorems.
Context {C : Type} `{SerdeOk C} `{SerdeOk Meta} `{SerdeOk DevState}.

Lemma string_app_inj (a b c : string) : a +:+ b = a +:+ c -> b = c.
Proof. induction a as [|x a IH]; [done|]. cbn. intros [= E]. by apply IH. Qed.

Lemma string_app_length (a b : string) : String.length (a +:+ b) = (String.length a + String.length b)%nat.
Proof. induction a as [|x a IH]; [done|]. change (S (String.length (a +:+ b)) = S (String.length a + String.length b)). by rewrite IH. Qed.

Lemma string_app_inj_r (c a b : string) : a +:+ c = b +:+ c -> a = b.
Proof.
  revert b. induction a as [|x a IH]; intros [|y b]; [done| | |].
  - intros E. apply (f_equal String.length) in E. rewrite !string_app_length in E. cbn in E. lia.
  - intros E. apply (f_equal String.length) in E. rewrite !string_app_length in E. cbn in E. lia.
  - intros [= -> E]. f_equal. by apply IH.
Qed.

Lemma pretty_N_go_length (x : N) : forall s, (String.length s <= String.length (pretty_N_go x s))%nat.
Proof.
  induction (N.lt_wf_0 x) as [x _ IH]. intros s. destruct (decide (0 < x)%N) as [Hx|Hx].
  - rewrite pretty_N_go_step by done. etransitivity; [|apply IH; by apply N.div_lt]. cbn. lia.
  - assert (x = 0%N) as -> by lia. by rewrite pretty_N_go_0.
Qed.

Lemma pretty_nat_nonempty (i : nat) : (i <> 0)%nat -> pretty i <> EmptyString.
Proof.
  intros Hi E. apply (f_equal String.length) in E. unfold pretty, pretty_nat, pretty, pretty_N in E.
  rewrite decide_False in E by lia. rewrite pretty_N_go_step in E by lia.
  pose proof (pretty_N_go_length (N.of_nat i `div` 10) (String (pretty_N_char (N.of_nat i `mod` 10)) EmptyString)). cbn in *. lia.
Qed.

(** Every file of a snapshot has a name of its own. *)
#[export] Instance cpu_file_inj : Inj eq eq cpu_file.
Proof.
  intros i j. unfold cpu_file. destruct (i =? 0)%nat eqn:Ei, (j =? 0)%nat eqn:Ej; rewrite ?Nat.eqb_eq, ?Nat.eqb_neq in *; intros E.
  - lia.
  - exfalso. change "cpu.json" with ("cpu" +:+ ".json") in E. apply string_app_inj in E.
    change ".json" with (EmptyString +:+ ".json") in E at 1. apply string_app_inj_r in E. by destruct (pretty_nat_nonempty j Ej).
  - exfalso. change "cpu.json" with ("cpu" +:+ ".json") in E. apply string_app_inj in E. symmetry in E.
    change ".json" with (EmptyString +:+ ".json") in E at 1. apply string_app_inj_r in E. by destruct (pretty_nat_nonempty i Ei).
  - apply string_app_inj, string_app_inj_r in E. by apply (inj pretty).
Qed.

Lemma cpu_file_fresh (i : nat) (name : string) :
  name ∈ ["dev.json"; "mem.bin"; "gic.bin"; "meta.json"] -> cpu_file i <> name.
Proof.
  assert (Hc : exists s, cpu_file i = "c" +:+ s) by (unfold cpu_file; destruct (i =? 0)%nat; eexists; reflexivity).
  destruct Hc as [s ->]. intros Hin E. subst.
  repeat (apply elem_of_cons in Hin as [E|Hin]; [discriminate E|]). by apply elem_of_nil in Hin.
Qed.

Lemma write_files_ok (host : string -> WriteRes) (l : list (string * list Z)) : (forall n, host n = Written) -> NoDup (map fst l) ->
  forall d, exists d', write_files host d l = (d', true) /\
    (forall name bs, (name, bs) ∈ l -> d' !! name = Some bs) /\ (forall name, name ∉ map fst l -> d' !! name = d !! name).
Proof.
  intros Hh. induction l as [|[name bs] l IH]; cbn; intros Hn d.
  { exists d. split; [done|]. split; [by intros ? ? ?%elem_of_nil|done]. }
  apply NoDup_cons in Hn as [Hni Hn]. unfold write_file. rewrite Hh. destruct (IH Hn (<[name := bs]> d)) as (d' & E & A & B).
  exists d'. split; [done|]. split.
  - intros n b [[= -> ->]|Hin]%elem_of_cons; [|by apply A]. by rewrite B, lookup_insert_eq.
  - intros n [Hne Hnin]%not_elem_of_cons. by rewrite B, lookup_insert_ne.
Qed.

Lemma imap_cpu_names (cpus : list C) (i : nat) :
  map fst (imap (fun j cpu => (cpu_file (i + j), to_vec cpu)) cpus) = map cpu_file (seq i (length cpus)).
Proof.
  revert i. induction cpus as [|c cpus IH]; intros i; [done|]. cbn. rewrite Nat.add_0_r. f_equal.
  rewrite <- IH. f_equal. apply imap_ext. intros j x _. cbn. by rewrite Nat.add_succ_r.
Qed.

Lemma snapshot_files_NoDup mem (cpus : list C) gic disk kind dev net vsock :
  NoDup (map fst (snapshot_files mem cpus gic disk kind dev net vsock)).
Proof.
  unfold snapshot_files. rewrite map_app. pose proof (imap_cpu_names cpus 0) as E. cbn [Nat.add] in E. rewrite E.
  apply NoDup_app. split; [|split].
  - apply (bool_decide_unpack _). by vm_compute.
  - intros name Hin Hc. apply list_elem_of_In, in_map_iff in Hc as (i & <- & _). by eapply cpu_file_fresh.
  - apply (NoDup_fmap_2 cpu_file). apply NoDup_ListNoDup, seq_NoDup.
Qed.

Lemma read_cpus_ok (bad : string -> bool) (d : Dir) : (forall n, bad n = false) -> forall (cpus : list C) i,
  (forall k c, cpus !! k = Some c -> d !! cpu_file (i + k) = Some (to_vec c)) -> read_cpus bad d (length cpus) i = Some cpus.
Proof.
  intros Hb. induction cpus as [|c cpus IH]; intros i Hd; [done|]. cbn. unfold read_json, read_file.
  specialize (Hd O) as H0'. rewrite Nat.add_0_r in H0'. rewrite (H0' c eq_refl), Hb, serde_ok.
  rewrite IH; [done|]. intros k x Hk. rewrite Nat.add_succ_comm. by apply Hd.
Qed.

(** What a whole snapshot in the directory reads as. *)
Lemma read_written (bad : string -> bool) (d : Dir) mem c (cpus : list C) gic disk kind dev net vsock (dev' : DevState) :
  (forall n, bad n = false) -> zlen (c :: cpus) < 2 ^ 64 ->
  (forall name bs, (name, bs) ∈ snapshot_files mem (c :: cpus) gic disk kind dev net vsock -> name <> "dev.json" -> name <> "mem.bin" -> d !! name = Some bs) ->
  d !! "dev.json" = Some (to_vec dev') ->
  read bad d = inl (mkLoaded (meta_of mem (c :: cpus) disk kind net vsock) c cpus gic dev').
Proof.
  intros Hb Hl Hd Hdev. unfold read, read_json, read_file.
  assert (Hc : forall k x, (c :: cpus) !! k = Some x -> d !! cpu_file k = Some (to_vec x)).
  { intros k x Hk. apply Hd; try (apply cpu_file_fresh; apply (bool_decide_unpack _); by vm_compute).
    unfold snapshot_files. apply elem_of_app. right. apply elem_of_lookup_imap. eauto. }
  rewrite (Hd "meta.json" (to_vec (meta_of mem (c :: cpus) disk kind net vsock))) by (try discriminate; by (do 3 right; left)).
  rewrite Hb, serde_ok. pose proof (Hc O c eq_refl) as Hc0. cbn in Hc0. rewrite Hc0, Hb, serde_ok.
  assert (En : (Z.to_nat (me_vcpus (meta_of mem (c :: cpus) disk kind net vsock)) - 1 = length cpus)%nat) by (cbn -[Z.max]; unfold zlen; cbn; lia).
  rewrite En, read_cpus_ok by (done || (intros k x Hk; by apply (Hc (S k)))).
  rewrite (Hd "gic.bin" gic) by (try discriminate; by (do 2 right; left)). by rewrite Hb, Hdev, Hb, serde_ok.
Qed.

Lemma write_all (host : string -> WriteRes) (d : Dir) mem (cpus : list C) gic disk kind dev net vsock :
  (forall n, host n = Written) -> exists d', write true host d mem cpus gic disk kind dev net vsock = (d', true) /\
    forall name bs, (name, bs) ∈ snapshot_files mem cpus gic disk kind dev net vsock -> d' !! name = Some bs.
Proof.
  intros Hh. destruct (write_files_ok host _ Hh (snapshot_files_NoDup mem cpus gic disk kind dev net vsock) d) as (d' & E & A & _).
  by exists d'.
Qed.

Lemma files_roundtrip (host : string -> WriteRes) (bad : string -> bool) (d : Dir) (mem : GuestRam) (c : C)
    (cpus : list C) (gic : list Z) (disk kind : option string) (dev : DevState) (net vsock : bool) :
  (forall n, host n = Written) -> (forall n, bad n = false) -> ram_wf mem -> zlen (c :: cpus) < 2 ^ 64 ->
  exists d', write true host d mem (c :: cpus) gic disk kind dev net vsock = (d', true) /\
    let l := mkLoaded (meta_of mem (c :: cpus) disk kind net vsock) c cpus gic dev in
    read bad d' = inl l /\
    load_mem bad d' (GuestMemory_new (me_mem_base (lo_meta l)) (me_mem_size (lo_meta l))) = inl mem /\
    machine_loaded d' l = Machine.mkLoaded (ram_base mem) (Some (ram_bytes mem)) (zlen (c :: cpus)) disk net vsock (dv_virtio dev).
Proof.
  intros Hh Hb Hw Hl. destruct (write_all host d mem (c :: cpus) gic disk kind dev net vsock Hh) as (d' & E & A).
  exists d'. split; [done|]. cbv zeta.
  assert (Hmem : d' !! "mem.bin" = Some (ram_bytes mem)) by (apply A; right; by left).
  split; [|split].
  - apply (read_written bad d' mem c cpus gic disk kind dev net vsock dev); [done|done|by intros; apply A|]. apply A. by left.
  - unfold load_mem, read_file. rewrite Hmem, Hb. cbn [lo_meta me_mem_base me_mem_size meta_of].
    unfold GuestMemory_write, GuestMemory_new, ram_len. cbn [ram_base ram_bytes].
    pose proof (zlen_nonneg (ram_bytes mem)). destruct Hw as [W1 W2 _]. unfold ram_len in W2.
    rewrite Z.ltb_irrefl, Z.sub_diag, zlen_zeros by done. cbn [Z.add].
    rewrite (proj2 (Z.ltb_lt _ _)), (proj2 (Z.leb_le _ _)) by lia. cbn [andb]. do 2 f_equal. destruct mem as [b bs]. cbn in *. f_equal.
    unfold splice, zlen, zeros. cbn. rewrite drop_replicate. replace (_ - _)%nat with O by lia. by rewrite app_nil_r.
  - unfold machine_loaded. cbn. rewrite Hmem. f_equal. unfold zlen. cbn. lia.
Qed.

(** C25: a snapshot on disk is the snapshot taken. Written without a failure
    into any directory, whatever files it held, it is read back as exactly
    the state captured: metadata, every vcpu's registers in order, the
    interrupt controller's blob and the devices; its memory image loads into
    a region of the same size byte for byte, and [restore_from] is given what
    the vcpu loop recorded of the VM. *)
Theorem snapshot_files_roundtrip (host : string -> WriteRes) (bad : string -> bool) (d : Dir) (mem : GuestRam) (c : C)
    (cpus : list C) (gic : list Z) (disk kind : option string) (dev : DevState) (net vsock : bool) :
  (forall n, host n = Written) -> (forall n, bad n = false) -> ram_wf mem -> zlen (c :: cpus) < 2 ^ 64 ->
  exists d', write true host d mem (c :: cpus) gic disk kind dev net vsock = (d', true) /\
    let l := mkLoaded (meta_of mem (c :: cpus) disk kind net vsock) c cpus gic dev in
    read bad d' = inl l /\
    load_mem bad d' (GuestMemory_new (me_mem_base (lo_meta l)) (me_mem_size (lo_meta l))) = inl mem /\
    machine_loaded d' l = Machine.mkLoaded (ram_base mem) (Some (ram_bytes mem)) (zlen (c :: cpus)) disk net vsock (dv_virtio dev).
Proof. apply files_roundtrip. Qed.

(** a write that fails half-way over an older snapshot leaves a directory
    that still reads as a snapshot. When the interrupt controller's blob
    cannot be written, the caller is told, but a later restore is given the
    new memory and devices with the old registers and interrupt controller. *)
Theorem torn_write_mixes (host : string -> WriteRes) (bad : string -> bool) (d : Dir) (mem1 mem2 : GuestRam) (c1 : C)
    (cpus1 cpus2 : list C) (gic1 gic2 : list Z) (disk1 disk2 kind1 kind2 : option string) (dev1 dev2 : DevState) (net1 net2 vsock1 vsock2 : bool) :
  (forall n, bad n = false) -> zlen (c1 :: cpus1) < 2 ^ 64 ->
  write true (fun _ => Written) ∅ mem1 (c1 :: cpus1) gic1 disk1 kind1 dev1 net1 vsock1 = (d, true) ->
  host "dev.json" = Written -> host "mem.bin" = Written -> host "gic.bin" = WriteFailed None ->
  exists d', write true host d mem2 cpus2 gic2 disk2 kind2 dev2 net2 vsock2 = (d', false) /\
    read bad d' = inl (mkLoaded (meta_of mem1 (c1 :: cpus1) disk1 kind1 net1 vsock1) c1 cpus1 gic1 dev2) /\
    d' !! "mem.bin" = Some (ram_bytes mem2).
Proof.
  intros Hb Hl E1 Hd Hm Hg.
  destruct (write_all (fun _ => Written) ∅ mem1 (c1 :: cpus1) gic1 disk1 kind1 dev1 net1 vsock1) as (d0 & E & A); [done|].
  rewrite E in E1. injection E1 as <-. unfold write, snapshot_files. cbn [app write_files]. unfold write_file. rewrite Hd, Hm, Hg.
  eexists. split; [done|]. split; [|apply lookup_insert_eq].
  apply (read_written bad _ mem1 c1 cpus1 gic1 disk1 kind1 dev1 net1 vsock1 dev2); [done|done| |by rewrite lookup_insert_ne, lookup_insert_eq].
  intros name bs Hin N1 N2. rewrite !lookup_insert_ne by done. by apply A.
Qed.

(** The registry of optional files: absent device state is the default, but a
    corrupt one is an error, never the default. *)
Theorem corrupt_devices_refused (bad : string -> bool) (d : Dir) (bs : list Z) :
  d !! "dev.json" = Some bs -> (bad "dev.json" = true \/ from_slice (A := DevState) bs = None) -> forall l, read (C := C) bad d <> inl l.
Proof.
  intros Hd Hc l. unfold read. destruct (read_json bad d "meta.json") as [m|]; [|done].
  destruct (read_json bad d "cpu.json"); [|done]. destruct (read_cpus _ _ _ _); [|done]. destruct (read_file bad d "gic.bin"); try done.
  unfold read_file. rewrite Hd. destruct (bad "dev.json"); [done|]. destruct Hc as [|Hc]; [done|]. by rewrite Hc.
Qed.
End Theorems.

(** ** A concrete encoding *)

#[export] Instance VirtioDevState_eq_dec : EqDecision VirtioDevState.
Proof. solve_decision. Defined.
#[export] Instance VirtioDevState_countable : Countable VirtioDevState.
Proof.
  refine (inj_countable' (fun v => (ds_status v, ds_interrupt_status v, ds_queues v)) (fun '(a, b, c) => mkDevState a b c) _). by intros [].
Defined.
#[export] Instance DevState_eq_dec : EqDecision DevState.
Proof. solve_decision. Defined.
#[export] Instance DevState_countable : Countable DevState.
Proof. refine (inj_countable' (fun v => (dv_pl011 v, dv_virtio v)) (fun '(a, b) => mkDevs a b) _). by intros []. Defined.
#[export] Instance Meta_eq_dec : EqDecision Meta.
Proof. solve_decision. Defined.
#[export] Instance Meta_countable : Countable Meta.
Proof.
  refine (inj_countable' (fun m => (me_mem_base m, me_mem_size m, me_disk m, me_gic_kind m, me_net m, me_vsock m, me_vcpus m))
    (fun '(a, b, c, d, e, f, g) => mkMeta a b c d e f g) _). by intros [].
Defined.


#[local] Instance demo_serde_Z : Serde Z := demo_serde Z.
#[local] Instance demo_serde_Meta : Serde Meta := demo_serde Meta.
#[local] Instance demo_serde_Dev : Serde DevState := demo_serde DevState.
#[local] Instance demo_ok_Z : SerdeOk Z.
Proof. apply demo_serde_ok. Defined.
#[local] Instance demo_ok_Meta : SerdeOk Meta.
Proof. apply demo_serde_ok. Defined.
#[local] Instance demo_ok_Dev : SerdeOk DevState.
Proof. apply demo_serde_ok. Defined.

Definition demo_mem (b : Z) : GuestRam := mkRam 0x40000000 [b; b; b; b].
Lemma demo_mem_wf b : is_byte b -> ram_wf (demo_mem b).
Proof. intros Hb. split; cbn; [lia|unfold ram_len, zlen; cbn; lia|apply Forall_forall; intros x Hx; repeat (apply elem_of_cons in Hx as [->|Hx]; [done|]); by apply elem_of_nil in Hx]. Qed.
Definition demo_old : Dir :=
  fst (write true (fun _ => Written) ∅ (demo_mem 1) [10; 11] [7] None None (mkDevs [1] []) false false).

Lemma snapshot_files_roundtrip_witness :
  exists d', write true (fun _ => Written) demo_old (demo_mem 2) [20] [8] None (Some "v2") (mkDevs [2] []) true false = (d', true) /\
    let l := mkLoaded (meta_of (demo_mem 2) [20] None (Some "v2") true false) 20 [] [8] (mkDevs [2] []) in
    read (fun _ => false) d' = inl l /\
    load_mem (fun _ => false) d' (GuestMemory_new (me_mem_base (lo_meta l)) (me_mem_size (lo_meta l))) = inl (demo_mem 2) /\
    machine_loaded d' l = Machine.mkLoaded 0x40000000 (Some [2; 2; 2; 2]) 1 None true false [].
Proof.
  apply (snapshot_files_roundtrip (fun _ => Written) (fun _ => false) demo_old (demo_mem 2) 20 [] [8] None (Some "v2") (mkDevs [2] []) true false);
    [done|done|apply demo_mem_wf; unfold is_byte; lia|vm_compute; done].
Defined.

Lemma torn_write_mixes_witness :
  exists d', write true (fun n => if String.eqb n "gic.bin" then WriteFailed None else Written) demo_old (demo_mem 2) [20; 21] [8] None None
      (mkDevs [2] []) false false = (d', false) /\
    read (fun _ => false) d' = inl (mkLoaded (meta_of (demo_mem 1) [10; 11] None None false false) 10 [11] [7] (mkDevs [2] [])) /\
    d' !! "mem.bin" = Some [2; 2; 2; 2].
Proof.
  apply (torn_write_mixes _ (fun _ => false) demo_old (demo_mem 1) (demo_mem 2) 10 [11] [20; 21] [7] [8] None None None None
    (mkDevs [1] []) (mkDevs [2] []) false false false false); [done|vm_compute; done|unfold demo_old; by vm_compute|done..].
Defined.
