(* ===== verification/Cpio.v ===== *)
(** * Cpio: the initramfs writer (crates/amber-image/src/cpio.rs)

    A newc archive built in memory. Names and targets are the bytes of the
    source's strings; gzip (flate2) is an argument. The archive is specified
    by a reader of the newc format. *)

From S2P Require Import Prelude.

(** ** Writer *)

(** Octal 040000, 100000, 120000, 020000. *)
Definition S_IFDIR : Z := 0x4000.
Definition S_IFREG : Z := 0x8000.
Definition S_IFLNK : Z := 0xa000.
Definition S_IFCHR : Z := 0x2000.

Record Cpio := mkCpio { buf : list Z; ino : Z }.
Definition Cpio_new : Cpio := mkCpio [] 0.

(** The ASCII bytes of a text. *)
Definition text (s : string) : list Z :=
  map (fun a => Z.of_nat (Ascii.nat_of_ascii a)) (String.list_ascii_of_string s).

Definition hex_digit (d : Z) : Z := if d <? 10 then 48 + d else 87 + d.

(** [{f:08x}] of a [u32]: its eight digits, most significant first. *)
Fixpoint hex_digits (n : nat) (f : Z) : list Z :=
  match n with O => [] | S n' => hex_digit (Z.shiftr f (4 * Z.of_nat n') mod 16) :: hex_digits n' f end.
Definition hex8 (f : Z) : list Z := hex_digits 8 f.

Definition header (ino mode filesize namesize : Z) (rdev : Z * Z) (nlink : Z) : list Z :=
  let fields := [ino; mode; 0; 0; nlink; 0; u32 filesize; 0; 0; fst rdev; snd rdev; u32 namesize; 0] in
  text "070701" ++ concat (map hex8 fields).

(** [while !len.is_multiple_of(4) { push(0) }]; four turns always suffice. *)
Fixpoint pad4_loop (fuel : nat) (b : list Z) : list Z :=
  match fuel with
  | O => b
  | S fuel' => if zlen b mod 4 =? 0 then b else pad4_loop fuel' (b ++ [0])
  end.
Definition pad4 : list Z -> list Z := pad4_loop 4.

Definition record (c : Cpio) (name : list Z) (mode : Z) (data : list Z) (rdev : Z * Z) : Cpio :=
  let i := wadd32 (ino c) 1 in
  let name_z := name ++ [0] in
  let hdr := header i mode (zlen data) (zlen name_z) rdev 1 in
  let b := pad4 (buf c ++ hdr ++ name_z) in
  mkCpio (pad4 (b ++ data)) i.

Definition dir (c : Cpio) (name : list Z) (mode : Z) : Cpio := record c name (Z.lor S_IFDIR mode) [] (0, 0).
Definition file (c : Cpio) (name data : list Z) (mode : Z) : Cpio := record c name (Z.lor S_IFREG mode) data (0, 0).
Definition symlink (c : Cpio) (name target : list Z) : Cpio := record c name (Z.lor S_IFLNK 0x1ff) target (0, 0).
Definition char_dev (c : Cpio) (name : list Z) (mode major minor : Z) : Cpio :=
  record c name (Z.lor S_IFCHR mode) [] (major, minor).

Definition TRAILER : list Z := text "TRAILER!!!".

(** What [finish_gz] compresses, and [finish_gz] itself. *)
Definition finish (c : Cpio) : list Z :=
  let name := TRAILER ++ [0] in
  pad4 (buf c ++ header 0 0 0 (zlen name) (0, 0) 1 ++ name).
Definition finish_gz (gz : list Z -> option (list Z)) (c : Cpio) : option (list Z) := gz (finish c).

(** ** Reader of the format *)

Record Entry := mkEntry { e_ino : Z; e_mode : Z; e_name : list Z; e_data : list Z; e_rdev : Z * Z }.

Definition unhex (b : Z) : option Z :=
  if (48 <=? b) && (b <? 58) then Some (b - 48)
  else if (97 <=? b) && (b <? 103) then Some (b - 87) else None.

Fixpoint parse_hex (acc : Z) (bs : list Z) : option Z :=
  match bs with [] => Some acc | b :: bs' => d ← unhex b; parse_hex (16 * acc + d) bs' end.

(** [n] bytes, or nothing when the stream is shorter. *)
Definition take_exact (n : Z) (bs : list Z) : option (list Z * list Z) :=
  if n <=? zlen bs then Some (take (Z.to_nat n) bs, drop (Z.to_nat n) bs) else None.

Fixpoint parse_fields (n : nat) (bs : list Z) : option (list Z * list Z) :=
  match n with
  | O => Some ([], bs)
  | S n' =>
      '(h, r) ← take_exact 8 bs; x ← parse_hex 0 h; '(xs, r') ← parse_fields n' r; Some (x :: xs, r')
  end.

(** The bytes from a multiple of 4 on, after [n] bytes that began at one. *)
Definition skip_pad (n : Z) (bs : list Z) : option (list Z) :=
  snd <$> take_exact (- n mod 4) bs.

(** One record: its entry and the rest. *)
Definition parse_record (bs : list Z) : option (Entry * list Z) :=
  '(magic, r) ← take_exact 6 bs;
  if decide (magic = text "070701") then
    '(f, r) ← parse_fields 13 r;
    match f with
    | [ino; mode; _; _; _; _; filesize; _; _; major; minor; namesize; _] =>
        '(name_z, r) ← take_exact namesize r;
        r ← skip_pad (110 + namesize) r;
        '(data, r) ← take_exact filesize r;
        r ← skip_pad filesize r;
        if decide (list.last name_z = Some 0 /\ (0 ∉ removelast name_z)) then
          Some (mkEntry ino mode (removelast name_z) data (major, minor), r)
        else None
    | _ => None
    end
  else None.

(** The records up to the trailer. *)
Fixpoint parse_archive (fuel : nat) (bs : list Z) : option (list Entry) :=
  match fuel with
  | O => None
  | S fuel' =>
      '(e, r) ← parse_record bs;
      if decide (e_name e = TRAILER) then Some []
      else es ← parse_archive fuel' r; Some (e :: es)
  end.

(** ** Lemmas *)

Lemma pad4_loop_eq (fuel : nat) : forall b : list Z, - zlen b mod 4 <= Z.of_nat fuel ->
  pad4_loop fuel b = b ++ replicate (Z.to_nat (- zlen b mod 4)) 0.
Proof.
  induction fuel as [|fuel IH]; intros b Hf; cbn [pad4_loop].
  { replace (Z.to_nat (- zlen b mod 4)) with 0%nat by (Z.div_mod_to_equations; lia). by rewrite app_nil_r. }
  destruct (Z.eqb_spec (zlen b mod 4) 0) as [E|E].
  { replace (Z.to_nat (- zlen b mod 4)) with 0%nat by (Z.div_mod_to_equations; lia). by rewrite app_nil_r. }
  rewrite IH; rewrite zlen_app; change (zlen [0]) with 1; [|Z.div_mod_to_equations; lia].
  rewrite <- app_assoc. f_equal.
  replace (Z.to_nat (- zlen b mod 4)) with (S (Z.to_nat (- (zlen b + 1) mod 4))) by (Z.div_mod_to_equations; lia).
  done.
Qed.

Lemma pad4_eq (b : list Z) : pad4 b = b ++ replicate (Z.to_nat (- zlen b mod 4)) 0.
Proof. apply pad4_loop_eq. Z.div_mod_to_equations; lia. Qed.

Lemma pad4_len (b : list Z) : zlen (pad4 b) mod 4 = 0.
Proof.
  rewrite pad4_eq, zlen_app. unfold zlen at 2. rewrite length_replicate.
  Z.div_mod_to_equations; lia.
Qed.

Lemma skip_pad_zeros (n : Z) (k : nat) (r : list Z) :
  Z.of_nat k = - n mod 4 -> skip_pad n (replicate k 0 ++ r) = Some r.
Proof.
  intros Hk. unfold skip_pad, take_exact. rewrite <- Hk, zlen_app. unfold zlen at 1. rewrite length_replicate.
  pose proof (zlen_nonneg r). rewrite (proj2 (Z.leb_le _ _)) by lia. cbn. f_equal.
  rewrite Nat2Z.id. by rewrite drop_app_length' by (by rewrite length_replicate).
Qed.

Lemma take_exact_app (a r : list Z) : take_exact (zlen a) (a ++ r) = Some (a, r).
Proof.
  unfold take_exact. rewrite zlen_app. pose proof (zlen_nonneg r). rewrite (proj2 (Z.leb_le _ _)) by lia.
  unfold zlen. rewrite Nat2Z.id. by rewrite take_app_length, drop_app_length.
Qed.

Lemma take_exact_app' (n : Z) (a r : list Z) : n = zlen a -> take_exact n (a ++ r) = Some (a, r).
Proof. intros ->. apply take_exact_app. Qed.

(** *** Hexadecimal fields *)

Lemma unhex_digit (d : Z) : 0 <= d < 16 -> unhex (hex_digit d) = Some d.
Proof.
  intros Hd. unfold hex_digit, unhex. destruct (Z.ltb_spec d 10).
  - rewrite (proj2 (andb_true_iff _ _)) by lia. f_equal. lia.
  - destruct ((48 <=? 87 + d) && (87 + d <? 58)) eqn:E; [lia|].
    rewrite (proj2 (andb_true_iff _ _)) by lia. f_equal. lia.
Qed.

Lemma length_hex_digits (n : nat) (f : Z) : length (hex_digits n f) = n.
Proof. induction n as [|n IH]; [done|]. cbn. by rewrite IH. Qed.

Lemma parse_hex_digits (n : nat) (f acc : Z) : 0 <= f ->
  parse_hex acc (hex_digits n f) = Some (acc * 16 ^ Z.of_nat n + f mod 16 ^ Z.of_nat n).
Proof.
  intros Hf. revert acc. induction n as [|n IH]; intros acc; cbn [hex_digits parse_hex].
  { f_equal. change (16 ^ Z.of_nat 0) with 1. rewrite Z.mod_1_r. lia. }
  rewrite unhex_digit by (apply Z.mod_pos_bound; lia). cbn [mbind option_bind]. rewrite IH. f_equal.
  rewrite Nat2Z.inj_succ, Z.pow_succ_r by lia. rewrite Z.shiftr_div_pow2 by lia.
  replace (2 ^ (4 * Z.of_nat n)) with (16 ^ Z.of_nat n) by (rewrite Z.pow_mul_r by lia; done).
  set (w := 16 ^ Z.of_nat n). assert (0 < w) by (apply Z.pow_pos_nonneg; lia).
  rewrite (Z.mul_comm 16 w), (Z.rem_mul_r f w 16) by lia. lia.
Qed.

Lemma parse_hex8 (f : Z) : fits 32 f -> parse_hex 0 (hex8 f) = Some f.
Proof.
  intros Hf. unfold hex8. rewrite parse_hex_digits by lia. f_equal. rewrite Z.mod_small; lia.
Qed.

Lemma zlen_hex8 (f : Z) : zlen (hex8 f) = 8.
Proof. unfold zlen, hex8. by rewrite length_hex_digits. Qed.

Lemma parse_fields_ok (fs : list Z) (r : list Z) : Forall (fun f => fits 32 f) fs ->
  parse_fields (length fs) (concat (map hex8 fs) ++ r) = Some (fs, r).
Proof.
  induction 1 as [|f fs Hf _ IH]; [done|]. cbn [length map concat parse_fields]. rewrite <- app_assoc.
  rewrite (take_exact_app' 8 (hex8 f)) by (by rewrite zlen_hex8). cbn [mbind option_bind].
  rewrite parse_hex8 by done. cbn [mbind option_bind]. by rewrite IH.
Qed.

Lemma zlen_header i m fs ns rd nl : zlen (header i m fs ns rd nl) = 110.
Proof. unfold header. cbv zeta. rewrite zlen_app. cbn [map concat]. rewrite !zlen_app, !zlen_hex8. done. Qed.

(** *** Records *)

(** What [record] appends to an aligned archive. *)
Definition record_bytes (i : Z) (name : list Z) (mode : Z) (data : list Z) (rdev : Z * Z) : list Z :=
  header i mode (zlen data) (zlen name + 1) rdev 1 ++ (name ++ [0]) ++
  replicate (Z.to_nat (- (110 + (zlen name + 1)) mod 4)) 0 ++ data ++ replicate (Z.to_nat (- zlen data mod 4)) 0.

Lemma record_buf (c : Cpio) name mode data rdev : zlen (buf c) mod 4 = 0 ->
  buf (record c name mode data rdev) = buf c ++ record_bytes (wadd32 (ino c) 1) name mode data rdev /\
  zlen (buf (record c name mode data rdev)) mod 4 = 0.
Proof.
  intros Hc. split; [|apply pad4_len]. unfold record, record_bytes. cbn [buf].
  rewrite pad4_eq. set (b := pad4 (buf c ++ _)).
  assert (Hb : zlen b mod 4 = 0) by apply pad4_len.
  replace (- zlen (b ++ data) mod 4) with (- zlen data mod 4) by (rewrite zlen_app; Z.div_mod_to_equations; lia).
  unfold b. rewrite pad4_eq, !zlen_app, zlen_header. change (zlen [0]) with 1.
  replace (- (zlen (buf c) + (110 + (zlen name + 1))) mod 4) with (- (110 + (zlen name + 1)) mod 4)
    by (Z.div_mod_to_equations; lia).
  by rewrite <- !app_assoc.
Qed.

Lemma parse_record_ok (i : Z) name mode data rdev r :
  fits 32 i -> fits 32 mode -> fits 32 (fst rdev) -> fits 32 (snd rdev) ->
  fits 32 (zlen name + 1) -> fits 32 (zlen data) -> 0 ∉ name ->
  parse_record (record_bytes i name mode data rdev ++ r) = Some (mkEntry i mode name data rdev, r).
Proof.
  intros Hi Hm H1 H2 Hn Hd Hz. unfold parse_record, record_bytes, header. cbv zeta.
  rewrite <- !app_assoc. rewrite (take_exact_app' 6 (text "070701")) by done. cbn [mbind option_bind].
  rewrite decide_True by done.
  set (u := u32 (zlen data)). set (w := u32 (zlen name + 1)).
  assert (Eu : u = zlen data) by (by apply u32_id). assert (Ew : w = zlen name + 1) by (by apply u32_id).
  change 13%nat with (length [i; mode; 0; 0; 1; 0; u; 0; 0; fst rdev; snd rdev; w; 0]).
  rewrite parse_fields_ok by (repeat constructor; lia). cbn [mbind option_bind].
  rewrite Ew. rewrite (app_assoc name [0]). rewrite take_exact_app' by (rewrite zlen_app; done).
  cbn [mbind option_bind]. rewrite skip_pad_zeros
    by (rewrite Z2Nat.id; [done|apply Z.mod_pos_bound; lia]).
  cbn [mbind option_bind]. rewrite Eu, take_exact_app. cbn [mbind option_bind].
  rewrite skip_pad_zeros by (rewrite Z2Nat.id; [done|apply Z.mod_pos_bound; lia]). cbn [mbind option_bind].
  rewrite removelast_last. rewrite decide_True; [by destruct rdev|].
  split; [|done]. by rewrite last_snoc.
Qed.

Inductive Op :=
| ODir (name : list Z) (mode : Z)
| OFile (name data : list Z) (mode : Z)
| OSymlink (name target : list Z)
| OCharDev (name : list Z) (mode major minor : Z).

Definition apply_op (c : Cpio) (o : Op) : Cpio :=
  match o with
  | ODir n m => dir c n m
  | OFile n d m => file c n d m
  | OSymlink n t => symlink c n t
  | OCharDev n m a b => char_dev c n m a b
  end.

(** The entry an operation asks for. *)
Definition op_entry (i : Z) (o : Op) : Entry :=
  match o with
  | ODir n m => mkEntry i (Z.lor S_IFDIR m) n [] (0, 0)
  | OFile n d m => mkEntry i (Z.lor S_IFREG m) n d (0, 0)
  | OSymlink n t => mkEntry i (Z.lor S_IFLNK 0x1ff) n t (0, 0)
  | OCharDev n m a b => mkEntry i (Z.lor S_IFCHR m) n [] (a, b)
  end.

Definition entry_wf (e : Entry) : Prop :=
  fits 32 (e_mode e) /\ fits 32 (fst (e_rdev e)) /\ fits 32 (snd (e_rdev e)) /\
  fits 32 (zlen (e_name e) + 1) /\ fits 32 (zlen (e_data e)) /\ (0 ∉ e_name e) /\ e_name e <> TRAILER.

Definition op_wf (o : Op) : Prop := entry_wf (op_entry 0 o).

Lemma apply_op_record (c : Cpio) (o : Op) :
  exists name mode data rdev, op_entry (wadd32 (ino c) 1) o = mkEntry (wadd32 (ino c) 1) mode name data rdev /\
    op_entry 0 o = mkEntry 0 mode name data rdev /\ apply_op c o = record c name mode data rdev.
Proof. destruct o; by eexists _, _, _, _. Qed.

(** The operations' records, inode numbers counting from [i]. *)
Fixpoint entries (i : Z) (ops : list Op) : list Entry :=
  match ops with [] => [] | o :: ops' => op_entry i o :: entries (i + 1) ops' end.

Lemma parse_ops (ops : list Op) : forall c tail, zlen (buf c) mod 4 = 0 -> 0 <= ino c ->
  ino c + Z.of_nat (length ops) < 2 ^ 32 -> Forall op_wf ops ->
  exists bs, buf (foldl apply_op c ops) = buf c ++ bs /\ zlen (buf (foldl apply_op c ops)) mod 4 = 0 /\
    forall fuel, parse_archive (length ops + fuel) (bs ++ tail) =
      (fun es => entries (ino c + 1) ops ++ es) <$> parse_archive fuel tail.
Proof.
  induction ops as [|o ops IH]; intros c tail Hc Hi Hl Hw.
  { exists []. rewrite app_nil_r. split; [done|]. split; [done|]. intros fuel. cbn.
    by destruct (parse_archive fuel tail). }
  apply Forall_cons in Hw as [Ho Hw]. cbn [length] in Hl.
  destruct (apply_op_record c o) as (name & mode & data & rdev & E1 & E0 & Ea).
  assert (Ei : wadd32 (ino c) 1 = ino c + 1) by (unfold wadd32; apply u32_id; lia). rewrite Ei in E1.
  destruct (record_buf c name mode data rdev Hc) as [Eb Em]. rewrite Ei in Eb.
  destruct (IH (apply_op c o) tail) as (bs & Ebs & Ebm & P).
  { by rewrite Ea. } { rewrite Ea. cbn [record ino]. lia. } { rewrite Ea. cbn [record ino]. lia. } { done. }
  exists (record_bytes (ino c + 1) name mode data rdev ++ bs). cbn [foldl]. split; [by rewrite Ebs, Ea, Eb, app_assoc|].
  split; [done|]. intros fuel. cbn [length Nat.add parse_archive]. rewrite <- app_assoc.
  unfold op_wf in Ho. rewrite E0 in Ho. destruct Ho as (A1 & A2 & A3 & A4 & A5 & A6 & A7). cbn [e_mode e_rdev e_name e_data] in *.
  rewrite parse_record_ok by (done || lia). cbn [mbind option_bind e_name]. rewrite decide_False by done.
  rewrite P, Ea. cbn [record ino]. rewrite Ei. cbn [entries]. rewrite E1.
  by destruct (parse_archive fuel tail).
Qed.

Lemma finish_trailer (c : Cpio) :
  zlen (buf c) mod 4 = 0 -> finish c = buf c ++ record_bytes 0 TRAILER 0 [] (0, 0).
Proof.
  intros Hc. unfold finish. cbv zeta. rewrite pad4_eq, <- !app_assoc, !zlen_app, zlen_header.
  replace (- (zlen (buf c) + (110 + (zlen TRAILER + zlen [0]))) mod 4) with 3
    by (change (zlen TRAILER) with 10; change (zlen [0]) with 1; Z.div_mod_to_equations; lia).
  reflexivity.
Qed.

Lemma trailer_parses (fuel : nat) : parse_archive (S fuel) (record_bytes 0 TRAILER 0 [] (0, 0)) = Some [].
Proof. reflexivity. Qed.

(** ** Properties *)

(** the archive is what was asked for. Whatever directories, files,
    symbolic links and device nodes are added (names without a NUL and not the
    trailer's, sizes below 4 GiB), a reader of the newc format finds in the
    finished archive exactly these entries, in order, each with its type and
    permission bits, its bytes and its device numbers, under inode numbers
    counting from 1, and then the trailer; and the archive's length is a
    multiple of 4. *)
Theorem cpio_roundtrip (ops : list Op) :
  Forall op_wf ops -> Z.of_nat (length ops) < 2 ^ 32 ->
  let archive := finish (foldl apply_op Cpio_new ops) in
  parse_archive (S (length ops)) archive = Some (entries 1 ops) /\ zlen archive mod 4 = 0.
Proof.
  intros Hw Hl. cbv zeta.
  destruct (parse_ops ops Cpio_new (record_bytes 0 TRAILER 0 [] (0, 0))) as (bs & Eb & Em & P); [done|done|cbn; lia|done|].
  rewrite finish_trailer by done. rewrite Eb. cbn [buf Cpio_new app]. split.
  - replace (S (length ops)) with (length ops + 1)%nat by lia. rewrite P, trailer_parses. cbn.
    by rewrite app_nil_r.
  - rewrite Eb in Em. cbn [buf Cpio_new app] in Em. rewrite zlen_app.
    change (zlen (record_bytes 0 TRAILER 0 [] (0, 0))) with 124. Z.div_mod_to_equations; lia.
Qed.

(** ** Witness *)

Definition demo_ops : list Op :=
  [ODir (text "dev") 0x1ed; OCharDev (text "dev/console") 0x180 5 1; OFile (text "init") [35; 33] 0x1ed;
   OSymlink (text "bin/sh") (text "busybox")].

Lemma cpio_roundtrip_witness :
  parse_archive 5 (finish (foldl apply_op Cpio_new demo_ops)) =
    Some [mkEntry 1 0x41ed (text "dev") [] (0, 0); mkEntry 2 0x2180 (text "dev/console") [] (5, 1);
          mkEntry 3 0x81ed (text "init") [35; 33] (0, 0); mkEntry 4 0xa1ff (text "bin/sh") (text "busybox") (0, 0)].
Proof.
  refine (proj1 (cpio_roundtrip demo_ops _ _)); [|cbn; lia].
  unfold demo_ops. repeat apply Forall_cons_2; [..|apply Forall_nil_2]; unfold op_wf, entry_wf; cbn;
    split_and!; apply (bool_decide_unpack _); vm_compute; exact I.
Defined.
