(* ===== verification/Fs.v ===== *)
(** * Fs: the host's file system, as the image code sees it

    The state is a map from real paths to nodes, with the system calls the
    standard library makes ([walk] resolves symbolic links as the kernel
    does) and [std::path]'s operations on paths. Permissions never forbid an
    access: the model is of a host user who may do what the code asks. Hard
    links share their node's content by copying it, which no later step can
    tell apart: a file is unlinked before it is written again, and only
    directories have their mode changed in place. The lemmas say how the
    resolution of a path behaves as nodes come and go, and what it is for a
    change to stay below a directory. *)

From S2P Require Import Prelude.

(** ** Paths *)

(** [std::path::Component]; a trailing separator is a final [CurDir]. *)
Inductive Comp := RootDir | CurDir | ParentDir | Normal (s : string).
Definition Path : Type := list Comp.

#[export] Instance Comp_eq_dec : EqDecision Comp.
Proof. solve_decision. Defined.

Definition keep_comp (c : Comp) : bool := match c with CurDir => false | _ => true end.

(** [components()]: [CurDir] only stays in front. *)
Definition components (p : Path) : Path :=
  match p with [] => [] | c :: p' => c :: List.filter keep_comp p' end.

Definition path_parent (p : Path) : option Path :=
  match components p with [] | [RootDir] => None | c => Some (removelast c) end.

Definition file_name (p : Path) : option string :=
  match list.last (components p) with Some (Normal s) => Some s | _ => None end.

Definition join (p q : Path) : Path :=
  match q with [] => p ++ [CurDir] | RootDir :: _ => q | _ => p ++ q end.

(** A name without separators, as a path. *)
Definition path_of_name (s : string) : Path :=
  if String.eqb s EmptyString then [] else if String.eqb s "." then [CurDir]
  else if String.eqb s ".." then [ParentDir] else [Normal s].

(** ** The file system *)

Inductive Node :=
| NDir (mode : Z)
| NFile (data : list Z) (mode : Z)
| NLink (target : Path).

(** Nodes by real path from the root, which is a directory itself. *)
Abbreviation Real := (list string).
Abbreviation Fs := (gmap Real Node).

(** Why a call failed, as far as the code looks: no such file, or else. *)
Inductive Errno := ENOENT | EOTHER.

(** The kernel's limit on symbolic links in one resolution. *)
Definition MAXSYMLINKS : nat := 40.

(** Path resolution from [cur]: where the path leads and how many links may
    still be followed. [follow]: also a link in last place; [creat]: the last
    component may be missing. *)
Fixpoint walk (links : nat) (fs : Fs) (follow creat : bool) : Real -> Path -> (Real * nat) + Errno :=
  fix go (cur : Real) (p : Path) {struct p} : (Real * nat) + Errno :=
    match p with
    | [] => inl (cur, links)
    | RootDir :: p' => go [] p'
    | CurDir :: p' => go cur p'
    | ParentDir :: p' => go (removelast cur) p'
    | Normal s :: p' =>
        let c := cur ++ [s] in
        match fs !! c with
        | None => if creat && bool_decide (p' = []) then inl (c, links) else inr ENOENT
        | Some (NDir _) => go c p'
        | Some (NFile _ _) => if decide (p' = []) then inl (c, links) else inr EOTHER
        | Some (NLink t) =>
            if bool_decide (p' = []) && negb follow then inl (c, links)
            else match links with O => inr EOTHER | S l => walk l fs follow creat cur (t ++ p') end
        end
    end.

Definition resolve (fs : Fs) (follow creat : bool) (p : Path) : Real + Errno :=
  match p with
  | [] => inr ENOENT
  | _ => match walk MAXSYMLINKS fs follow creat [] p with inl (r, _) => inl r | inr e => inr e end
  end.

Definition canonicalize (fs : Fs) (p : Path) : Real + Errno := resolve fs true false p.

Definition is_dir_at (fs : Fs) (r : Real) : bool :=
  match r with [] => true | _ => match fs !! r with Some (NDir _) => true | _ => false end end.

(** [path.exists()] and [path.is_dir()]. *)
Definition fs_exists (fs : Fs) (p : Path) : bool := match canonicalize fs p with inl _ => true | inr _ => false end.
Definition is_dir (fs : Fs) (p : Path) : bool :=
  match canonicalize fs p with inl r => is_dir_at fs r | inr _ => false end.

(** A path's directory and last name, where it ends in a name. *)
Definition split_last (p : Path) : option (Path * string) :=
  match list.last p with Some (Normal s) => Some (removelast p, s) | _ => None end.

(** Where a call that makes a new name would put it. *)
Definition new_place (fs : Fs) (p : Path) : Real + Errno :=
  match split_last p with
  | None => inr EOTHER
  | Some (d, s) =>
      match canonicalize fs d with
      | inr e => inr e
      | inl r =>
          if negb (is_dir_at fs r) then inr EOTHER
          else match fs !! (r ++ [s]) with Some _ => inr EOTHER | None => inl (r ++ [s]) end
      end
  end.

Section Calls.
(** The mode of new directories under the process's umask, and whether the
    host's file system has hard links. *)
Variable dir_mode : Z.
Variable host_links : bool.

Definition mkdir (fs : Fs) (p : Path) : Fs * option Errno :=
  match new_place fs p with inl r => (<[r := NDir dir_mode]> fs, None) | inr e => (fs, Some e) end.

(** [fs::create_dir_all]; [n] is at least the number of components. *)
Fixpoint create_dir_all (n : nat) (fs : Fs) (p : Path) : Fs * bool :=
  match p with
  | [] => (fs, true)
  | _ =>
      match mkdir fs p with
      | (fs1, None) => (fs1, true)
      | (_, Some EOTHER) => (fs, is_dir fs p)
      | (_, Some ENOENT) =>
          match n, path_parent p with
          | S n', Some d =>
              match create_dir_all n' fs d with
              | (fs1, false) => (fs1, false)
              | (fs1, true) =>
                  match mkdir fs1 p with (fs2, None) => (fs2, true) | (_, Some _) => (fs1, is_dir fs1 p) end
              end
          | _, _ => (fs, false)
          end
      end
  end.
Definition fs_create_dir_all (fs : Fs) (p : Path) : Fs * bool := create_dir_all (length p) fs p.

(** [fs::set_permissions]. *)
Definition set_permissions (fs : Fs) (p : Path) (mode : Z) : Fs :=
  match canonicalize fs p with
  | inl r => alter (fun n => match n with NDir _ => NDir mode | NFile d _ => NFile d mode | NLink t => NLink t end) r fs
  | inr _ => fs
  end.

Definition below (r k : Real) : Prop := r `prefix_of` k /\ k <> r.
#[local] Instance below_dec (r k : Real) : Decision (below r k).
Proof. unfold below. apply _. Defined.

Definition delete_below (r : Real) (fs : Fs) : Fs := filter (fun kv => ~ below r (fst kv)) fs.

(** The path without trailing separators. *)
Fixpoint strip_slash (p : Path) : Path :=
  match p with
  | [] => []
  | c :: p' => match strip_slash p' with [] => if keep_comp c then [c] else [] | p'' => c :: p'' end
  end.

(** [fs::remove_dir_all]: everything below the directory goes, then the
    directory itself, if the path names it. *)
Definition remove_dir_all (fs : Fs) (p : Path) : Fs * bool :=
  match resolve fs false false p with
  | inr _ => (fs, false)
  | inl r =>
      match fs !! r with
      | Some (NLink _) => (delete r fs, true)
      | Some (NFile _ _) => (fs, false)
      | _ =>
          let fs1 := delete_below r fs in
          match list.last (strip_slash p), resolve fs false false (strip_slash p) with
          | Some (Normal _), inl r' => if decide (r' = r) then (delete r fs1, true) else (fs1, false)
          | _, _ => (fs1, false)
          end
      end
  end.

(** [fs::remove_file]. *)
Definition remove_file (fs : Fs) (p : Path) : Fs * bool :=
  match resolve fs false false p with
  | inl r => if is_dir_at fs r then (fs, false) else (delete r fs, true)
  | inr _ => (fs, false)
  end.

(** Opening for writing: created, truncated, or through a link. *)
Definition file_create (fs : Fs) (p : Path) (data : list Z) (mode : Z) : Fs * bool :=
  match resolve fs true true p with
  | inr _ => (fs, false)
  | inl r =>
      if is_dir_at fs r then (fs, false)
      else match fs !! r with
           | Some (NFile _ m) => (<[r := NFile data m]> fs, true)
           | _ => (<[r := NFile data mode]> fs, true)
           end
  end.

Definition make_symlink (fs : Fs) (target p : Path) : Fs * bool :=
  match target, new_place fs p with
  | _ :: _, inl r => (<[r := NLink target]> fs, true)
  | _, _ => (fs, false)
  end.

(** [fs::hard_link] (a link in last place is linked, not followed) and
    [fs::copy] (it is followed). *)
Definition hard_link (fs : Fs) (src p : Path) : Fs * bool :=
  if negb host_links then (fs, false)
  else
    match resolve fs false false src, new_place fs p with
    | inl s, inl r =>
        match fs !! s with
        | Some (NFile d m) => (<[r := NFile d m]> fs, true)
        | Some (NLink t) => (<[r := NLink t]> fs, true)
        | _ => (fs, false)
        end
    | _, _ => (fs, false)
    end.

Definition fs_copy (fs : Fs) (src p : Path) : Fs * bool :=
  match canonicalize fs src with
  | inl s => match fs !! s with Some (NFile d m) => file_create fs p d m | _ => (fs, false) end
  | inr _ => (fs, false)
  end.

(** [fs::rename] of a file or a link; a directory is not replaced. *)
Definition rename (fs : Fs) (p q : Path) : Fs * bool :=
  match resolve fs false false p, resolve fs false true q with
  | inl r, inl r' =>
      match fs !! r with
      | None => (fs, false)
      | Some n =>
          if is_dir_at fs r || is_dir_at fs r' then (fs, false)
          else if decide (r = r') then (fs, true) else (<[r' := n]> (delete r fs), true)
      end
  | _, _ => (fs, false)
  end.

(** The names in a directory. *)
Definition read_dir (fs : Fs) (r : Real) : list string :=
  omap (fun kv : Real * Node => match list.last (fst kv) with
          | Some s => if decide (fst kv = r ++ [s]) then Some s else None | None => None end) (map_to_list fs).
End Calls.

(** ** Resolution *)

(** What every file system of a kernel satisfies: the parent of a node is the
    root, which is not recorded, or a directory. *)
Definition fs_wf (fs : Fs) : Prop :=
  fs !! [] = None /\ forall k s, is_Some (fs !! (k ++ [s])) -> is_dir_at fs k = true.

Lemma is_dir_at_snoc (fs : Fs) (k : Real) (s : string) :
  is_dir_at fs (k ++ [s]) = match fs !! (k ++ [s]) with Some (NDir _) => true | _ => false end.
Proof. unfold is_dir_at. by destruct (k ++ [s]) eqn:E; [destruct k|rewrite <- E]. Qed.

Lemma wf_parent (fs : Fs) (r : Real) : fs_wf fs -> is_dir_at fs r = true -> is_dir_at fs (removelast r) = true.
Proof.
  intros W D. destruct r as [|a r' _] using rev_ind; [done|]. rewrite removelast_last. apply (proj2 W _ a).
  rewrite is_dir_at_snoc in D. by destruct (fs !! (r' ++ [a])).
Qed.

(** A path's directory first, then the rest. *)
Lemma walk_app (fs : Fs) (f c : bool) (q : Path) : fs_wf fs -> q <> [] -> forall links cur p,
  is_dir_at fs cur = true ->
  walk links fs f c cur (p ++ q) =
  match walk links fs true false cur p with
  | inl (r, l) => if is_dir_at fs r then walk l fs f c r q else inr EOTHER
  | inr e => inr e
  end.
Proof.
  intros W Q. assert (N : forall p : Path, p ++ q <> []) by (intros p [_ E]%app_nil; done).
  induction links as [|links IHl]; intros cur p; revert cur; induction p as [|a p IH]; intros cur D.
  1,3: simpl; by rewrite D.
  all: destruct a as [| | |s]; try (apply IH; done || by apply wf_parent).
  all: cbn [app]; simpl walk; destruct (fs !! (cur ++ [s])) as [[m|x m|t]|] eqn:E.
  all: try (apply IH; by rewrite is_dir_at_snoc, E).
  all: rewrite ?(decide_False (P := p ++ q = [])), ?(bool_decide_eq_false_2 (p ++ q = [])) by apply N.
  all: rewrite ?andb_false_r, ?andb_false_l; cbn [andb negb].
  all: try done.
  all: try (destruct (decide (p = [])); [by rewrite is_dir_at_snoc, E|done]).
  rewrite app_assoc. by apply IHl.
Qed.

(** The result of a resolution, one component further. *)
Lemma resolve_snoc (fs : Fs) (f c : bool) (d : Path) (s : string) : fs_wf fs -> d <> [] ->
  (forall r t, canonicalize fs d = inl r -> fs !! (r ++ [s]) = Some (NLink t) -> f = false) ->
  resolve fs f c (d ++ [Normal s]) =
  match canonicalize fs d with
  | inl r =>
      if is_dir_at fs r then match fs !! (r ++ [s]) with Some _ => inl (r ++ [s]) | None => if c then inl (r ++ [s]) else inr ENOENT end
      else inr EOTHER
  | inr e => inr e
  end.
Proof.
  intros W Nd L. unfold canonicalize, resolve in *.
  destruct (d ++ [Normal s]) as [|b q] eqn:Eq; [by destruct d|]. rewrite <- Eq. clear Eq.
  destruct d as [|a d]; [done|]. remember (a :: d) as d' eqn:Ed. clear Ed Nd a d.
  rewrite walk_app by done.
  destruct (walk MAXSYMLINKS fs true false [] d') as [[r l]|e] eqn:E; [|done].
  destruct (is_dir_at fs r); [|done].
  destruct l; simpl; destruct (fs !! (r ++ [s])) as [[m|x m|t]|] eqn:Es; try done; try by destruct c.
  all: by rewrite (L r t eq_refl Es).
Qed.

Lemma canonicalize_up (fs : Fs) (d : Path) (s : string) (e : Errno) : fs_wf fs -> d <> [] ->
  canonicalize fs d = inr e -> canonicalize fs (d ++ [Normal s]) = inr e.
Proof.
  intros W Nd E. unfold canonicalize in E |- *. rewrite resolve_snoc; [|done..|].
  { unfold canonicalize. by rewrite E. }
  intros r t E'. unfold canonicalize in E'. congruence.
Qed.

(** ** Changes below a directory *)

(** As seen by resolution: the same kind of node, links with the same target. *)
Definition shape (n : Node) : Node :=
  match n with NDir _ => NDir 0 | NFile _ _ => NFile [] 0 | NLink t => NLink t end.

Definition more (fs fs' : Fs) : Prop :=
  forall k n, fs !! k = Some n -> exists n', fs' !! k = Some n' /\ shape n' = shape n.

Lemma walk_more (fs fs' : Fs) (f : bool) (x : Real * nat) : more fs fs' -> forall links cur p,
  walk links fs f false cur p = inl x -> walk links fs' f false cur p = inl x.
Proof.
  intros M. induction links as [|links IHl]; intros cur p; revert cur; induction p as [|a p IH]; intros cur; try done.
  all: destruct a as [| | |s]; try apply IH.
  all: simpl; destruct (fs !! (cur ++ [s])) as [n|] eqn:E; [|done].
  all: destruct (M _ _ E) as (n' & -> & S); destruct n, n'; try discriminate S; try done; try apply IH.
  all: injection S as ->; destruct (bool_decide (p = []) && negb f); try done; apply IHl.
Qed.

Lemma resolve_more (fs fs' : Fs) (f : bool) (p : Path) (r : Real) :
  more fs fs' -> resolve fs f false p = inl r -> resolve fs' f false p = inl r.
Proof.
  intros M. unfold resolve. destruct p as [|a p]; [done|].
  destruct (walk MAXSYMLINKS fs f false [] (a :: p)) as [x|] eqn:E; [|done]. by rewrite (walk_more _ _ _ _ M _ _ _ E).
Qed.

Lemma is_dir_more (fs fs' : Fs) (r : Real) : more fs fs' -> is_dir_at fs r = true -> is_dir_at fs' r = true.
Proof.
  intros M D. destruct r as [|a r _] using rev_ind; [done|]. rewrite is_dir_at_snoc in D |- *.
  destruct (fs !! (r ++ [a])) as [n|] eqn:E; [|done].
  destruct (M _ _ E) as (n' & -> & S). by destruct n, n'.
Qed.

(** Nothing changes but strictly below [R], except the mode of a directory. *)
Definition same_node (a b : option Node) : Prop :=
  a = b \/ exists m m', a = Some (NDir m) /\ b = Some (NDir m').
Definition agree (R : Real) (fs fs' : Fs) : Prop := forall k, ~ below R k -> same_node (fs !! k) (fs' !! k).

#[export] Instance agree_preorder (R : Real) : PreOrder (agree R).
Proof.
  split.
  - intros fs k _. by left.
  - intros a b c H1 H2 k Hk. destruct (H1 k Hk) as [E1|(m & m1 & E1 & E1')], (H2 k Hk) as [E2|(m2 & m' & E2 & E2')].
    + left. congruence.
    + rewrite <- E1 in E2. right; eauto.
    + rewrite E2 in E1'. right; eauto.
    + right; eauto.
Qed.

(** A change that keeps a file system well formed and stays below [R]. *)
Definition stays (R : Real) (fs fs' : Fs) : Prop := fs_wf fs -> fs_wf fs' /\ agree R fs fs'.

#[export] Instance stays_preorder (R : Real) : PreOrder (stays R).
Proof.
  split; [by intros fs W|]. intros a b c H1 H2 W. destruct (H1 W) as [W1 A1], (H2 W1) as [W2 A2].
  split; [done|]. by transitivity b.
Qed.

Lemma below_snoc (R r : Real) (s : string) : R `prefix_of` r -> below R (r ++ [s]).
Proof.
  intros [q ->]. split; [rewrite <- app_assoc; by eexists|].
  intros E. apply (f_equal length) in E. rewrite !length_app in E. cbn in E. lia.
Qed.

Lemma agree_insert (R r : Real) (s : string) (n : Node) (fs : Fs) :
  R `prefix_of` r -> agree R fs (<[r ++ [s] := n]> fs).
Proof.
  intros P k Hk. left. destruct (decide (k = r ++ [s])) as [->|Hn]; [|by rewrite lookup_insert_ne].
  destruct (Hk (below_snoc _ _ s P)).
Qed.

Lemma wf_insert (fs : Fs) (r : Real) (s : string) (n : Node) :
  is_dir_at fs r = true -> (forall m, fs !! (r ++ [s]) = Some (NDir m) -> exists m', n = NDir m') ->
  fs_wf fs -> fs_wf (<[r ++ [s] := n]> fs).
Proof.
  intros D N [W0 W]. split; [rewrite lookup_insert_ne; [done|by destruct r]|]. intros k s' Hx.
  assert (Dk : is_dir_at fs k = true).
  { destruct (decide (k ++ [s'] = r ++ [s])) as [[-> _]%app_inj_tail|Hn]; [done|].
    rewrite lookup_insert_ne in Hx by done. by apply (W k s'). }
  destruct k as [|a k' _] using rev_ind; [done|]. rewrite is_dir_at_snoc in Dk |- *.
  destruct (decide (k' ++ [a] = r ++ [s])) as [E|Hn]; [|by rewrite lookup_insert_ne].
  rewrite E, lookup_insert_eq. rewrite E in Dk. destruct (fs !! (r ++ [s])) as [[m| |]|]; try done.
  by destruct (N m eq_refl) as [m' ->].
Qed.

Lemma stays_insert (R r : Real) (s : string) (n : Node) (fs : Fs) :
  R `prefix_of` r -> is_dir_at fs r = true ->
  (forall m, fs !! (r ++ [s]) = Some (NDir m) -> exists m', n = NDir m') ->
  stays R fs (<[r ++ [s] := n]> fs).
Proof. intros. split; [by apply wf_insert|by apply agree_insert]. Qed.

(** Fewer nodes, none lost outside what lies strictly below [R]. *)
Lemma stays_fewer (R : Real) (fs fs' : Fs) :
  fs' ⊆ fs -> (forall k, ~ below R k -> fs' !! k = fs !! k) ->
  (forall k s n, fs' !! (k ++ [s]) = Some n -> is_Some (fs !! k) -> is_Some (fs' !! k)) ->
  stays R fs fs'.
Proof.
  intros S A C [W0 W]. split; [|intros k Hk; left; by rewrite A].
  split; [destruct (fs' !! []) eqn:E; [|done]; apply (lookup_weaken _ fs) in E; [congruence|done]|].
  intros k s [n Hn]. pose proof (lookup_weaken _ _ _ _ Hn S) as Hn'. pose proof (W k s (mk_is_Some _ _ Hn')) as D.
  destruct k as [|a k _] using rev_ind; [done|]. rewrite is_dir_at_snoc in D |- *.
  destruct (fs !! (k ++ [a])) as [x|] eqn:Ex; [|done].
  destruct (C _ _ _ Hn (mk_is_Some _ _ Ex)) as [y Ey]. pose proof (lookup_weaken _ _ _ _ Ey S) as Ey'.
  rewrite Ey. by replace y with x by congruence.
Qed.

Lemma lookup_delete_below (r k : Real) (fs : Fs) :
  delete_below r fs !! k = if decide (below r k) then None else fs !! k.
Proof.
  unfold delete_below. destruct (decide (below r k)) as [B|B].
  - apply map_lookup_filter_None. right. intros x _ Hn. by destruct Hn.
  - destruct (fs !! k) eqn:E.
    + by apply map_lookup_filter_Some.
    + apply map_lookup_filter_None. by left.
Qed.

Lemma more_subset (fs fs' : Fs) : fs ⊆ fs' -> more fs fs'.
Proof. intros S k n E. exists n. by rewrite (lookup_weaken _ _ _ _ E S). Qed.

Lemma no_children (fs : Fs) (k : Real) (s s' : string) :
  fs_wf fs -> fs !! (k ++ [s]) = None -> fs !! ((k ++ [s]) ++ [s']) = None.
Proof.
  intros W E. destruct (fs !! ((k ++ [s]) ++ [s'])) eqn:E'; [|done].
  assert (D : is_dir_at fs (k ++ [s]) = true) by (apply (proj2 W _ s'); by eexists).
  rewrite is_dir_at_snoc, E in D. done.
Qed.

(** ** Absolute paths of plain names *)

Definition parts (ns : list string) : Path := RootDir :: map Normal ns.

Lemma parts_snoc (ns : list string) (s : string) : parts (ns ++ [s]) = parts ns ++ [Normal s].
Proof. unfold parts. by rewrite map_app. Qed.

Lemma parts_ne (ns : list string) : parts ns <> [].
Proof. done. Qed.

Lemma components_parts (ns : list string) : components (parts ns) = parts ns.
Proof.
  unfold parts. simpl. f_equal. induction ns as [|a ns IH]; [done|]. simpl. by rewrite IH.
Qed.

Lemma path_parent_parts (ns : list string) (s : string) : path_parent (parts (ns ++ [s])) = Some (parts ns).
Proof.
  unfold path_parent. rewrite components_parts, parts_snoc. unfold parts at 1.
  assert (E : removelast ((RootDir :: map Normal ns) ++ [Normal s]) = parts ns) by apply removelast_last.
  cbn [app] in E |- *. destruct (map Normal ns ++ [Normal s]) eqn:Eq; [by apply app_eq_nil in Eq as [_ [=]]|]. by rewrite E.
Qed.

Lemma last_snoc_path (p : Path) (c : Comp) : list.last (p ++ [c]) = Some c.
Proof. apply last_snoc. Qed.

(** ** Files in a directory *)

Definition is_file (n : Node) : bool := match n with NFile _ _ => true | _ => false end.

(** Resolution of a directory looks at directories and links only. *)
Definition keeps_dirs (fs fs' : Fs) : Prop := forall k n, fs !! k = Some n -> is_file n = false -> fs' !! k = Some n.

Lemma is_dir_keeps fs fs' k : keeps_dirs fs fs' -> is_dir_at fs k = true -> is_dir_at fs' k = true.
Proof.
  intros D. destruct k as [|x k]; [done|]. unfold is_dir_at. destruct (fs !! (x :: k)) as [n|] eqn:E; [|done].
  destruct n; try done. by rewrite (D _ _ E).
Qed.

Lemma walk_keeps fs fs' (x : Real * nat) : keeps_dirs fs fs' -> is_dir_at fs (fst x) = true -> forall links cur p,
  walk links fs true false cur p = inl x -> walk links fs' true false cur p = inl x.
Proof.
  intros D X. induction links as [|links IHl]; intros cur p; revert cur; induction p as [|a p IH]; intros cur; try done.
  all: destruct a as [| | |s]; try apply IH.
  all: simpl; destruct (fs !! (cur ++ [s])) as [n|] eqn:E; [|done].
  all: destruct n as [m|d m|t]; try (rewrite (D _ _ E) by done; rewrite ?andb_false_r; try done; apply IH || apply IHl).
  all: destruct (decide (p = [])); [|done]; intros [= <-]; cbn [fst] in X; by rewrite is_dir_at_snoc, E in X.
Qed.

Lemma canonicalize_keeps fs fs' p r : keeps_dirs fs fs' -> is_dir_at fs r = true ->
  canonicalize fs p = inl r -> canonicalize fs' p = inl r.
Proof.
  intros D R. unfold canonicalize, resolve. destruct p as [|a p]; [done|].
  destruct (walk MAXSYMLINKS fs true false [] (a :: p)) as [[x l]|] eqn:E; [|done]. intros [= ->].
  by rewrite (walk_keeps fs fs' (r, l)).
Qed.

Lemma keeps_insert fs k n : (forall m, fs !! k = Some m -> is_file m = true) -> keeps_dirs fs (<[k := n]> fs).
Proof.
  intros F k' m E N. destruct (decide (k = k')) as [->|]; [|by rewrite lookup_insert_ne]. by rewrite (F _ E) in N.
Qed.

Lemma keeps_delete fs k : (forall m, fs !! k = Some m -> is_file m = true) -> keeps_dirs fs (delete k fs).
Proof.
  intros F k' m E N. destruct (decide (k = k')) as [->|]; [|by rewrite lookup_delete_ne]. by rewrite (F _ E) in N.
Qed.

Lemma wf_delete fs k : fs_wf fs -> is_dir_at fs k = false -> fs_wf (delete k fs).
Proof.
  intros [W0 W] D. split; [by rewrite lookup_delete_None; right|]. intros k' s X.
  destruct (decide (k = k' ++ [s])) as [->|N]; [rewrite lookup_delete_eq in X; by destruct X|].
  rewrite lookup_delete_ne in X by done. specialize (W _ _ X).
  destruct k' as [|x k'']; [done|]. unfold is_dir_at in *.
  destruct (decide (k = x :: k'')) as [->|]; [by rewrite W in D|]. by rewrite lookup_delete_ne.
Qed.


Lemma snoc_ne {A} (l : list A) (a b : A) : a <> b -> l ++ [a] <> l ++ [b].
Proof. by intros N [_ [=]]%app_inj_tail. Qed.

Section Slots.
Variables (d : Path) (r : Real).

(** A directory by its path, and a name in it that is free or a file's. *)
Definition dir_ok (fs : Fs) : Prop := fs_wf fs /\ d <> [] /\ canonicalize fs d = inl r /\ is_dir_at fs r = true.
Definition slot (fs : Fs) (name : string) : Prop := forall m, fs !! (r ++ [name]) = Some m -> is_file m = true.

Lemma slot_not_dir fs name : slot fs name -> is_dir_at fs (r ++ [name]) = false.
Proof.
  intros C. rewrite is_dir_at_snoc. destruct (fs !! (r ++ [name])) as [n|] eqn:E; [|done].
  pose proof (C _ E). by destruct n.
Qed.

Lemma slot_insert fs name name' x m : slot fs name -> slot (<[r ++ [name'] := NFile x m]> fs) name.
Proof.
  intros C k L. destruct (decide (name' = name)) as [->|N].
  - rewrite lookup_insert_eq in L. by injection L as <-.
  - rewrite lookup_insert_ne in L by by apply snoc_ne. by apply C.
Qed.

Lemma slot_delete fs name k : slot fs name -> slot (delete k fs) name.
Proof. intros C m L. apply lookup_delete_Some in L as [_ L]. by apply C. Qed.

Lemma dir_insert fs name x m : dir_ok fs -> slot fs name -> dir_ok (<[r ++ [name] := NFile x m]> fs).
Proof.
  intros (W & N & E & D) C. pose proof (keeps_insert fs (r ++ [name]) (NFile x m) C) as K.
  split; [|split; [done|split]].
  - apply wf_insert; try done. intros k L. by pose proof (C _ L).
  - by apply (canonicalize_keeps fs).
  - by apply (is_dir_keeps fs).
Qed.

Lemma dir_delete fs name : dir_ok fs -> slot fs name -> dir_ok (delete (r ++ [name]) fs).
Proof.
  intros (W & N & E & D) C. pose proof (keeps_delete fs (r ++ [name]) C) as K.
  split; [|split; [done|split]].
  - apply wf_delete; [done|]. by apply slot_not_dir.
  - by apply (canonicalize_keeps fs).
  - by apply (is_dir_keeps fs).
Qed.

Lemma slot_resolve fs f c name : dir_ok fs -> slot fs name ->
  resolve fs f c (d ++ [Normal name]) =
  match fs !! (r ++ [name]) with Some _ => inl (r ++ [name]) | None => if c then inl (r ++ [name]) else inr ENOENT end.
Proof.
  intros (W & N & E & D) C. rewrite resolve_snoc by (try done; intros r' t E' L;
    rewrite E in E'; injection E' as <-; by pose proof (C _ L)).
  by rewrite E, D.
Qed.

Lemma slot_canonicalize fs name x m : dir_ok fs -> fs !! (r ++ [name]) = Some (NFile x m) ->
  canonicalize fs (d ++ [Normal name]) = inl (r ++ [name]).
Proof.
  intros D E. unfold canonicalize. rewrite slot_resolve; [by rewrite E|done|].
  intros k L. rewrite E in L. by injection L as <-.
Qed.

Lemma slot_create fs name x mode : dir_ok fs -> slot fs name ->
  exists m, file_create fs (d ++ [Normal name]) x mode = (<[r ++ [name] := NFile x m]> fs, true).
Proof.
  intros D C. unfold file_create. rewrite slot_resolve by done.
  destruct (fs !! (r ++ [name])) as [n|] eqn:E; rewrite slot_not_dir, E by done; [|by exists mode].
  pose proof (C _ E). destruct n as [|x' m|]; try done. by exists m.
Qed.

Lemma slot_remove fs name x m : dir_ok fs -> fs !! (r ++ [name]) = Some (NFile x m) ->
  remove_file fs (d ++ [Normal name]) = (delete (r ++ [name]) fs, true).
Proof.
  intros D E. assert (C : slot fs name) by (intros k L; rewrite E in L; by injection L as <-).
  unfold remove_file. rewrite slot_resolve by done. by rewrite E, slot_not_dir.
Qed.

Lemma slot_rename fs a b x m : dir_ok fs -> slot fs b -> a <> b -> fs !! (r ++ [a]) = Some (NFile x m) ->
  rename fs (d ++ [Normal a]) (d ++ [Normal b]) = (<[r ++ [b] := NFile x m]> (delete (r ++ [a]) fs), true).
Proof.
  intros D C N E. assert (Ca : slot fs a) by (intros k L; rewrite E in L; by injection L as <-).
  unfold rename. rewrite !slot_resolve, E by done.
  assert (r ++ [a] <> r ++ [b]) by by apply snoc_ne.
  destruct (fs !! (r ++ [b])); rewrite E, !slot_not_dir by done; cbn [orb]; by rewrite decide_False.
Qed.
End Slots.
