(* ===== verification/Flatten.v ===== *)
(** * Flatten: applying image layers (crates/amber-image/src/flatten.rs)

    Layers are applied to a directory of the host's file system (see [Fs]).
    The tar reader is an argument: a layer is the entries it yields, each
    possibly an error.

    [flatten_contained]: whatever the layers hold, nothing outside the
    destination's tree changes but modes of directories; [whiteout_escapes]:
    the whiteouts for which that fails. [flatten_writes_file] and
    [flatten_budget]: what an accepted file leaves behind and what an image
    costs. *)

From S2P Require Import Prelude Fs.

Section Flatten.
(** Modes of new directories and files under the process's umask, and whether
    the host's file system has hard links. *)
Variable dir_mode file_mode : Z.
Variable host_links : bool.

(** ** flatten.rs *)

Definition WH_PREFIX : string := ".wh.".
Definition WH_OPAQUE : string := ".wh..wh..opq".
Definition MAX_TOTAL_BYTES : Z := Z.shiftl 8 30.

Inductive EntryType := TDirectory | TRegular | TContinuous | TSymlink | TLink | TOther.

(** What the tar reader gives for an entry. *)
Record TarEntry := mkTar {
  t_path : Path;
  t_kind : EntryType;
  t_mode : option Z;
  t_link : option Path;
  t_data : list Z
}.

Fixpoint sanitize_loop (out : Path) (p : Path) : option Path :=
  match p with
  | [] => Some out
  | Normal s :: p' => sanitize_loop (out ++ [Normal s]) p'
  | CurDir :: p' => sanitize_loop out p'
  | _ => None
  end.
Definition sanitize (p : Path) : option Path :=
  out ← sanitize_loop [] (components p); match out with [] => None | _ => Some out end.

(** The deepest ancestor, from [p] itself on, that exists decides. *)
Fixpoint within_from (n : nat) (fs : Fs) (root : Real) (p : Path) : bool :=
  match canonicalize fs p with
  | inl c => bool_decide (root `prefix_of` c)
  | inr _ => match n, path_parent p with S n', Some d => within_from n' fs root d | _, _ => false end
  end.
Definition within_root (fs : Fs) (root : Real) (out : Path) : bool :=
  match path_parent out with Some d => within_from (length d) fs root d | None => false end.

Fixpoint strip_parents (n : nat) (p : Path) : option Path :=
  match n with O => Some p | S n' => d ← path_parent p; strip_parents n' d end.
Definition rootfs_root (out entry_rel : Path) : option Path :=
  rel ← sanitize entry_rel; strip_parents (length (components rel)) out.

Definition remove_any (fs : Fs) (p : Path) : Fs * bool :=
  match resolve fs false false p with
  | inl r => if is_dir_at fs r then remove_dir_all fs p else remove_file fs p
  | inr _ => (fs, true)
  end.

(** Removals in order, the first failure ending them. *)
Fixpoint remove_all (fs : Fs) (ps : list Path) : Fs * bool :=
  match ps with
  | [] => (fs, true)
  | p :: ps' => match remove_any fs p with (fs1, true) => remove_all fs1 ps' | (fs1, false) => (fs1, false) end
  end.

Definition clear_dir (fs : Fs) (dir : Path) : Fs * bool :=
  match canonicalize fs dir with
  | inr _ => (fs, true)
  | inl r =>
      if is_dir_at fs r then remove_all fs (map (fun s => join dir [Normal s]) (read_dir fs r)) else (fs, false)
  end.

(** [create_dir_all(parent)?; remove_any(out)?], before a new node is made. *)
Definition make_room (fs : Fs) (out : Path) : Fs * bool :=
  match (match path_parent out with Some d => fs_create_dir_all dir_mode fs d | None => (fs, true) end) with
  | (fs1, true) => remove_any fs1 out
  | (fs1, false) => (fs1, false)
  end.

(** [extract]: the bytes written, or an error. *)
Definition extract (fs : Fs) (root : Real) (e : TarEntry) (out : Path) (budget : Z) : Fs * option Z :=
  let mode := default 0x1a4 (t_mode e) in
  match t_kind e with
  | TDirectory =>
      match fs_create_dir_all dir_mode fs out with
      | (fs1, true) => (set_permissions fs1 out mode, Some 0)
      | (fs1, false) => (fs1, None)
      end
  | TRegular | TContinuous =>
      match make_room fs out with
      | (fs1, false) => (fs1, None)
      | (fs1, true) =>
          let n := Z.min (zlen (t_data e)) (Z.min (budget + 1) (2 ^ 64 - 1)) in
          match file_create fs1 out (take (Z.to_nat n) (t_data e)) file_mode with
          | (fs2, false) => (fs2, None)
          | (fs2, true) => if budget <? n then (fs2, None) else (set_permissions fs2 out mode, Some n)
          end
      end
  | TSymlink =>
      match t_link e with
      | None => (fs, Some 0)
      | Some target =>
          match make_room fs out with
          | (fs1, false) => (fs1, None)
          | (fs1, true) => let '(fs2, ok) := make_symlink fs1 target out in (fs2, if ok then Some 0 else None)
          end
      end
  | TLink =>
      match t_link e, rootfs_root out (t_path e) with
      | Some target, Some link_root =>
          let src := join link_root (default [] (sanitize target)) in
          if negb (within_root fs root src) then (fs, Some 0)
          else
            match make_room fs out with
            | (fs1, false) => (fs1, None)
            | (fs1, true) =>
                match hard_link host_links fs1 src out with
                | (fs2, true) => (fs2, Some 0)
                | (fs2, false) => (fst (fs_copy fs2 src out), Some 0)
                end
            end
      | _, _ => (fs, Some 0)
      end
  | TOther => (fs, Some 0)
  end.

(** [name.strip_prefix(WH_PREFIX)]. *)
Definition strip_wh (name : string) : option string :=
  if String.prefix WH_PREFIX name then Some (String.substring 4 (String.length name - 4) name) else None.

(** The loop body: the tree and the bytes written so far, or an error. *)
Definition apply_entry (dest : Path) (root : Real) (max_total : Z) (fs : Fs) (written : Z) (e : TarEntry)
    : Fs * option Z :=
  match sanitize (t_path e) with
  | None => (fs, Some written)
  | Some rel =>
      let dir := join dest (default [] (path_parent rel)) in
      let whiteout := n ← file_name rel; strip_wh n in
      if decide (file_name rel = Some WH_OPAQUE) then
        if within_root fs root (join dir [Normal "_"])
        then let '(fs1, ok) := clear_dir fs dir in (fs1, if ok then Some written else None)
        else (fs, Some written)
      else
        match whiteout with
        | Some target =>
            let victim := join dir (path_of_name target) in
            if within_root fs root victim
            then let '(fs1, ok) := remove_any fs victim in (fs1, if ok then Some written else None)
            else (fs, Some written)
        | None =>
            let out := join dest rel in
            if negb (within_root fs root out) then (fs, Some written)
            else
              match extract fs root e out (max_total - written) with
              | (fs1, Some n) => (fs1, Some (written + n))
              | (fs1, None) => (fs1, None)
              end
        end
  end.

(** Entries of all layers in order; [None] is an error of the reader. *)
Fixpoint apply_entries (dest : Path) (root : Real) (max_total : Z) (fs : Fs) (written : Z)
    (es : list (option TarEntry)) : Fs * option Z :=
  match es with
  | [] => (fs, Some written)
  | None :: _ => (fs, None)
  | Some e :: es' =>
      match apply_entry dest root max_total fs written e with
      | (fs1, Some w) => apply_entries dest root max_total fs1 w es'
      | (fs1, None) => (fs1, None)
      end
  end.

Definition flatten_limited (fs : Fs) (layers : list (list (option TarEntry))) (dest : Path) (max_total : Z)
    : Fs * bool :=
  match (if fs_exists fs dest then remove_dir_all fs dest else (fs, true)) with
  | (fs1, false) => (fs1, false)
  | (fs1, true) =>
      match fs_create_dir_all dir_mode fs1 dest with
      | (fs2, false) => (fs2, false)
      | (fs2, true) =>
          match canonicalize fs2 dest with
          | inr _ => (fs2, false)
          | inl root =>
              let '(fs3, r) := apply_entries dest root max_total fs2 0 (concat layers) in
              (fs3, match r with Some _ => true | None => false end)
          end
      end
  end.
Definition flatten (fs : Fs) (layers : list (list (option TarEntry))) (dest : Path) : Fs * bool :=
  flatten_limited fs layers dest MAX_TOTAL_BYTES.
End Flatten.

(** ** Containment *)

Section Staying.
Variable dir_mode file_mode : Z.
Variable R : Real.

Lemma mkdir_snoc (fs : Fs) (d : Path) (s : string) :
  mkdir dir_mode fs (d ++ [Normal s]) =
  match canonicalize fs d with
  | inr e => (fs, Some e)
  | inl r =>
      if is_dir_at fs r then match fs !! (r ++ [s]) with Some _ => (fs, Some EOTHER) | None => (<[r ++ [s] := NDir dir_mode]> fs, None) end
      else (fs, Some EOTHER)
  end.
Proof.
  unfold mkdir, new_place, split_last. rewrite last_snoc_path, removelast_last.
  destruct (canonicalize fs d) as [r|e]; [|done]. destruct (is_dir_at fs r); [|done]. cbn [negb]. by destruct (fs !! (r ++ [s])).
Qed.

(** A new node is found under its name. *)
Lemma canonicalize_insert (fs : Fs) (d : Path) (s : string) (r : Real) (n : Node) :
  fs_wf fs -> d <> [] -> canonicalize fs d = inl r -> is_dir_at fs r = true -> fs !! (r ++ [s]) = None ->
  match n with NLink _ => False | _ => True end ->
  canonicalize (<[r ++ [s] := n]> fs) d = inl r /\
  canonicalize (<[r ++ [s] := n]> fs) (d ++ [Normal s]) = inl (r ++ [s]).
Proof.
  intros W Nd E D N Hn. assert (M : more fs (<[r ++ [s] := n]> fs)) by (by apply more_subset, insert_subseteq).
  assert (E' : canonicalize (<[r ++ [s] := n]> fs) d = inl r) by (by apply (resolve_more fs)).
  split; [done|]. unfold canonicalize at 1. rewrite resolve_snoc.
  - rewrite E', (is_dir_more _ _ _ M D), lookup_insert_eq. done.
  - apply wf_insert; [done| |done]. congruence.
  - done.
  - intros r' t E2. rewrite E' in E2. injection E2 as <-. rewrite lookup_insert_eq. intros [= ->]. done.
Qed.

Lemma is_dir_inv (fs : Fs) (p : Path) : is_dir fs p = true -> exists r, canonicalize fs p = inl r /\ is_dir_at fs r = true.
Proof. unfold is_dir. destruct (canonicalize fs p) as [r|]; [|done]. eauto. Qed.

Definition lands (fs fs' : Fs) (p : Path) : Prop :=
  exists r, canonicalize fs' p = inl r /\ R `prefix_of` r /\ is_dir_at fs' r = true /\
    forall e, canonicalize fs p = inr e -> forall s, fs' !! (r ++ [s]) = None.

Lemma within_from_ok (m : nat) (fs : Fs) (p : Path) (r : Real) :
  within_from m fs R p = true -> canonicalize fs p = inl r -> R `prefix_of` r.
Proof. destruct m; simpl; intros Hw E; rewrite E in Hw; by apply bool_decide_eq_true in Hw. Qed.

Lemma within_from_up (m : nat) (fs : Fs) (ns : list string) (s : string) (e : Errno) :
  within_from m fs R (parts (ns ++ [s])) = true -> canonicalize fs (parts (ns ++ [s])) = inr e ->
  exists m', within_from m' fs R (parts ns) = true.
Proof.
  destruct m as [|m]; simpl; intros Hw E; rewrite E in Hw; [done|]. rewrite path_parent_parts in Hw. eauto.
Qed.

(** Making the missing directories of a path whose deepest existing ancestor
    is inside [R] changes nothing outside, and ends inside. *)
Lemma create_dir_all_stays (ns : list string) : forall n m fs fs' ok,
  fs_wf fs -> within_from m fs R (parts ns) = true -> create_dir_all dir_mode n fs (parts ns) = (fs', ok) ->
  stays R fs fs' /\ (ok = true -> lands fs fs' (parts ns)).
Proof.
  induction ns as [|s ns IH] using rev_ind; intros n m fs fs' ok W Hw.
  { destruct n; simpl; intros [= <- <-]; (split; [reflexivity|]); intros _;
      exists []; (split; [done|]); (split; [by apply (within_from_ok m fs [RootDir])|]); done. }
  assert (Nd : parts ns <> []) by done.
  assert (Ex : forall b, b = true -> b = is_dir fs (parts (ns ++ [s])) -> lands fs fs (parts (ns ++ [s]))).
  { intros b -> (r & E & D)%eq_sym%is_dir_inv. exists r. split; [done|]. split; [by eapply within_from_ok|].
    split; [done|]. congruence. }
  assert (New : forall fs1 r, fs_wf fs1 -> R `prefix_of` r -> canonicalize fs1 (parts ns) = inl r -> is_dir_at fs1 r = true ->
      fs1 !! (r ++ [s]) = None ->
      stays R fs1 (<[r ++ [s] := NDir dir_mode]> fs1) /\ lands fs (<[r ++ [s] := NDir dir_mode]> fs1) (parts (ns ++ [s]))).
  { intros fs1 r W1 P E D N. split; [apply stays_insert; [done..|congruence]|].
    destruct (canonicalize_insert _ _ _ _ (NDir dir_mode) W1 Nd E D N I) as [_ E']. rewrite <- parts_snoc in E'.
    exists (r ++ [s]). split; [done|]. split; [by apply prefix_app_r|]. rewrite is_dir_at_snoc, lookup_insert_eq. split; [done|].
    intros _ _ s'. rewrite lookup_insert_ne; [by apply no_children|].
    intros E2. apply (f_equal length) in E2. rewrite !length_app in E2. cbn in E2. lia. }
  destruct n as [|n]; simpl; change (RootDir :: map Normal (ns ++ [s])) with (parts (ns ++ [s])).
  all: destruct (mkdir dir_mode fs (parts (ns ++ [s]))) as [fs1 [[]|]] eqn:Em.
  all: try (intros [= <- <-]; split; [reflexivity|]; intros Hb; exact (Ex _ Hb eq_refl)).
  all: rewrite parts_snoc, mkdir_snoc in Em; destruct (canonicalize fs (parts ns)) as [r|e0] eqn:Er; try discriminate Em.
  all: try (destruct (is_dir_at fs r) eqn:D; [|discriminate Em]; destruct (fs !! (r ++ [s])) eqn:N; [discriminate Em|]).
  all: try discriminate Em.
  1: by intros [= <- <-].
  1, 3: injection Em as <-; intros [= <- <-].
  1, 2: assert (P : R `prefix_of` r).
  1, 3: assert (Ep : canonicalize fs (parts (ns ++ [s])) = inr ENOENT);
    [rewrite parts_snoc; unfold canonicalize; rewrite resolve_snoc; [by rewrite Er, D, N|done|done|congruence]|];
    destruct (within_from_up _ _ _ _ _ Hw Ep) as [m' Hw']; by eapply within_from_ok.
  1, 2: by destruct (New fs r W P Er D N).
  injection Em as <- ->. rewrite path_parent_parts.
  pose proof (canonicalize_up _ _ s _ W Nd Er) as Ep. rewrite <- parts_snoc in Ep.
  destruct (within_from_up _ _ _ _ _ Hw Ep) as [m' Hw'].
  destruct (create_dir_all dir_mode n fs (parts ns)) as [fs2 []] eqn:Ec; [|intros [= <- <-]; by destruct (IH _ _ _ _ _ W Hw' Ec)].
  destruct (IH _ _ _ _ _ W Hw' Ec) as [S1 L]. destruct (S1 W) as [W2 _]. destruct (L eq_refl) as (r & E2 & P & D & F).
  rewrite parts_snoc, mkdir_snoc, E2, D, (F _ Er). intros [= <- <-].
  destruct (New fs2 r W2 P E2 D (F _ Er s)) as [S2 L2]. split; [by transitivity fs2|]. by rewrite <- parts_snoc.
Qed.

Lemma strip_slash_snoc (d : Path) (s : string) : strip_slash (d ++ [Normal s]) = d ++ [Normal s].
Proof. induction d as [|c d IH]; [done|]. simpl. rewrite IH. by destruct d. Qed.

Lemma resolve_name (fs : Fs) (c : bool) (d : Path) (s : string) : fs_wf fs -> d <> [] ->
  resolve fs false c (d ++ [Normal s]) =
  match canonicalize fs d with
  | inl r =>
      if is_dir_at fs r then match fs !! (r ++ [s]) with Some _ => inl (r ++ [s]) | None => if c then inl (r ++ [s]) else inr ENOENT end
      else inr EOTHER
  | inr e => inr e
  end.
Proof. intros. by apply resolve_snoc. Qed.

(** The file system without the tree at [r]. *)
Definition without (r : Real) (fs : Fs) : Fs := delete r (delete_below r fs).

Lemma lookup_without (r k : Real) (fs : Fs) : without r fs !! k = if decide (r `prefix_of` k) then None else fs !! k.
Proof.
  unfold without. destruct (decide (k = r)) as [->|Hn]; [by rewrite lookup_delete_eq, decide_True|].
  rewrite lookup_delete_ne, lookup_delete_below by done. unfold below.
  destruct (decide (r `prefix_of` k)); [by rewrite decide_True|by rewrite decide_False by (intros [? _]; done)].
Qed.

Lemma without_stays (fs : Fs) (r : Real) (s : string) : R `prefix_of` r -> stays R fs (without (r ++ [s]) fs).
Proof.
  intros P. pose proof (below_snoc R r s P) as [P' _]. apply stays_fewer.
  - apply map_subseteq_spec. intros k n. rewrite lookup_without. by destruct (decide _).
  - intros k Hk. rewrite lookup_without. destruct (decide _) as [Q|]; [|done]. destruct Hk. split; [by etransitivity|].
    intros ->. apply prefix_length in Q, P. rewrite length_app in Q. cbn in Q. lia.
  - intros k s' n. rewrite !lookup_without. destruct (decide (_ `prefix_of` k ++ [s'])) as [|Q]; [done|]. intros _.
    rewrite decide_False; [done|]. intros Q'. apply Q. by apply prefix_app_r.
Qed.

Lemma delete_leaf_stays (fs : Fs) (r : Real) (s : string) : fs_wf fs -> R `prefix_of` r ->
  is_dir_at fs (r ++ [s]) = false -> stays R fs (delete (r ++ [s]) fs).
Proof.
  intros W P D. pose proof (below_snoc R r s P) as B. apply stays_fewer.
  - apply delete_subseteq.
  - intros k Hk. rewrite lookup_delete_ne; [done|]. by intros <-.
  - intros k s' n Hn Hk. destruct (decide (k = r ++ [s])) as [->|Hne]; [|by rewrite lookup_delete_ne].
    apply (lookup_weaken _ fs) in Hn; [|apply delete_subseteq]. rewrite (proj2 W _ s') in D; [done|by eexists].
Qed.

Lemma remove_any_stays (fs fs' : Fs) (d : Path) (s : string) (ok : bool) : fs_wf fs -> d <> [] ->
  (forall r, canonicalize fs d = inl r -> R `prefix_of` r) -> remove_any fs (d ++ [Normal s]) = (fs', ok) ->
  stays R fs fs' /\ fs' ⊆ fs /\
  forall r, canonicalize fs d = inl r -> ok = true -> fs' !! (r ++ [s]) = None \/ is_dir_at fs r = false.
Proof.
  intros W Nd Hr. unfold remove_any, remove_dir_all, remove_file.
  rewrite !strip_slash_snoc, !last_snoc_path, !resolve_name by done.
  destruct (canonicalize fs d) as [r|e]; [|intros [= <- <-]; (split; [reflexivity|]); by split].
  specialize (Hr r eq_refl). destruct (is_dir_at fs r) eqn:D.
  2: { intros [= <- <-]. split; [reflexivity|]. split; [done|]. intros _ [= <-]. by right. }
  destruct (fs !! (r ++ [s])) as [n|] eqn:N.
  2: { intros [= <- <-]. split; [reflexivity|]. split; [done|]. intros _ [= <-]. by left. }
  destruct (is_dir_at fs (r ++ [s])) eqn:D'.
  - rewrite is_dir_at_snoc, N in D'. destruct n; try done. rewrite N, decide_True by done. intros [= <- <-].
    split; [by apply without_stays|]. split; [|intros _ [= <-] _; left; apply lookup_delete_eq].
    etransitivity; [apply delete_subseteq|]. apply map_filter_subseteq.
  - intros [= <- <-]. split; [by apply delete_leaf_stays|]. split; [apply delete_subseteq|].
    intros _ [= <-] _. left. apply lookup_delete_eq.
Qed.

Lemma remove_all_stays (dir : Path) (names : list string) : dir <> [] -> forall fs fs' ok, fs_wf fs ->
  (forall r, canonicalize fs dir = inl r -> R `prefix_of` r) ->
  remove_all fs (map (fun s => join dir [Normal s]) names) = (fs', ok) -> stays R fs fs'.
Proof.
  intros Nd. induction names as [|s names IH]; simpl; intros fs fs' ok W Hr; [by intros [= <- <-]|].
  destruct (remove_any fs (dir ++ [Normal s])) as [fs1 ok1] eqn:E.
  destruct (remove_any_stays _ _ _ _ _ W Nd Hr E) as (S & Sub & _).
  destruct ok1; [|by intros [= <- <-]]. intros E2. transitivity fs1; [done|]. apply IH in E2; [done|by apply S|].
  intros r Er. apply Hr. eapply resolve_more; [|exact Er]. by apply more_subset.
Qed.

Lemma clear_dir_stays (fs fs' : Fs) (dir : Path) (ok : bool) : fs_wf fs -> dir <> [] ->
  (forall r, canonicalize fs dir = inl r -> R `prefix_of` r) -> clear_dir fs dir = (fs', ok) -> stays R fs fs'.
Proof.
  intros W Nd Hr. pose proof (fun names => remove_all_stays dir names Nd fs fs' ok W Hr) as A. unfold clear_dir. destruct (canonicalize fs dir) as [r|]; [|by intros [= <- <-]].
  destruct (is_dir_at fs r); [apply A|by intros [= <- <-]].
Qed.

(** A place inside [R] where nothing is. *)
Definition vacant (fs : Fs) (ns : list string) (s : string) : Prop :=
  forall r, canonicalize fs (parts ns) = inl r -> R `prefix_of` r /\ fs !! (r ++ [s]) = None.

Lemma make_room_stays (fs fs' : Fs) (ns : list string) (s : string) (ok : bool) : fs_wf fs ->
  within_root fs R (parts (ns ++ [s])) = true -> make_room dir_mode fs (parts (ns ++ [s])) = (fs', ok) ->
  stays R fs fs' /\ (ok = true -> vacant fs' ns s).
Proof.
  intros W. unfold within_root, make_room, fs_create_dir_all. rewrite path_parent_parts. intros Hw.
  destruct (create_dir_all dir_mode (length (parts ns)) fs (parts ns)) as [fs1 ok1] eqn:E1.
  destruct (create_dir_all_stays _ _ _ _ _ _ W Hw E1) as [S1 L]. destruct (S1 W) as [W1 _].
  destruct ok1; [|by intros [= <- <-]]. destruct (L eq_refl) as (r1 & Er1 & P1 & D1 & _).
  rewrite parts_snoc. intros E2. apply remove_any_stays in E2 as (S2 & Sub & Va); [|done..|congruence].
  split; [by transitivity fs1|]. intros -> r Er. apply (resolve_more _ fs1) in Er; [|by apply more_subset].
  unfold canonicalize in Er1. rewrite Er1 in Er. injection Er as <-. split; [done|].
  destruct (Va r1 Er1 eq_refl) as [|]; [done|congruence].
Qed.

Lemma set_permissions_stays (fs : Fs) (p : Path) (mode : Z) :
  (forall r, canonicalize fs p = inl r -> is_dir_at fs r = true \/ below R r) -> stays R fs (set_permissions fs p mode).
Proof.
  intros Hp W. unfold set_permissions. destruct (canonicalize fs p) as [r|]; [|by split].
  specialize (Hp r eq_refl). set (g := fun n : Node => _).
  assert (G : forall n, shape (g n) = shape n) by by intros [].
  assert (Sh : forall k, shape <$> alter g r fs !! k = shape <$> fs !! k).
  { intros k. destruct (decide (k = r)) as [->|]; [|by rewrite lookup_alter_ne].
    rewrite lookup_alter_eq. destruct (fs !! r); [|done]. cbn. by rewrite G. }
  split; [split|].
  - specialize (Sh []). rewrite (proj1 W) in Sh. by destruct (alter g r fs !! []).
  - intros k s Hx. assert (D : is_dir_at fs k = true).
    { apply (proj2 W k s). specialize (Sh (k ++ [s])). destruct (fs !! (k ++ [s])); [by eexists|].
      destruct Hx as [x Hx]. by rewrite Hx in Sh. }
    destruct k as [|a k _] using rev_ind; [done|]. rewrite is_dir_at_snoc in D |- *. specialize (Sh (k ++ [a])).
    destruct (fs !! (k ++ [a])) as [n|]; [|done]. destruct (alter g r fs !! (k ++ [a])) as [n'|]; [|done].
    injection Sh as Sh. by destruct n, n'.
  - intros k Hk. destruct (decide (k = r)) as [->|]; [|rewrite lookup_alter_ne by done; by left].
    destruct Hp as [D|B]; [|done]. rewrite lookup_alter_eq. destruct r as [|a r _] using rev_ind.
    + left. by rewrite (proj1 W).
    + rewrite is_dir_at_snoc in D. destruct (fs !! (r ++ [a])) as [[m| |]|]; try done. right. cbn. eauto.
Qed.

(** Opening a vacant place for writing makes the file there, or fails. *)
Lemma file_create_vacant (fs fs' : Fs) (ns : list string) (s : string) (data : list Z) (mode : Z) (ok : bool) :
  fs_wf fs -> vacant fs ns s -> file_create fs (parts (ns ++ [s])) data mode = (fs', ok) ->
  (ok = false /\ fs' = fs) \/
  (ok = true /\ exists r, R `prefix_of` r /\ is_dir_at fs r = true /\ fs !! (r ++ [s]) = None /\ fs' = <[r ++ [s] := NFile data mode]> fs /\
     canonicalize fs' (parts (ns ++ [s])) = inl (r ++ [s])).
Proof.
  intros W V. unfold file_create. rewrite parts_snoc. rewrite resolve_snoc.
  2, 3: done. 2: { intros r t E. destruct (V r E) as [_ N]. congruence. }
  destruct (canonicalize fs (parts ns)) as [r|] eqn:E; [|intros [= <- <-]; by left].
  destruct (is_dir_at fs r) eqn:D; [|intros [= <- <-]; by left]. destruct (V r E) as [P N].
  rewrite N, is_dir_at_snoc, N. intros [= <- <-]. right. split; [done|]. exists r. do 3 (split; [done|]). split; [done|].
  by destruct (canonicalize_insert _ _ _ _ (NFile data mode) W (parts_ne ns) E D N I).
Qed.

Lemma file_create_stays (fs fs' : Fs) (ns : list string) (s : string) (data : list Z) (mode : Z) (ok : bool) :
  fs_wf fs -> vacant fs ns s -> file_create fs (parts (ns ++ [s])) data mode = (fs', ok) -> stays R fs fs'.
Proof.
  intros W V E. destruct (file_create_vacant _ _ _ _ _ _ _ W V E) as [[_ ->]|(_ & r & P & D & N & -> & _)]; [done|].
  apply stays_insert; [done..|congruence].
Qed.

Lemma new_place_vacant (fs : Fs) (ns : list string) (s : string) (p : Real) : vacant fs ns s ->
  new_place fs (parts (ns ++ [s])) = inl p ->
  exists r, p = r ++ [s] /\ R `prefix_of` r /\ is_dir_at fs r = true /\ fs !! (r ++ [s]) = None.
Proof.
  intros V. unfold new_place, split_last. rewrite parts_snoc, last_snoc_path, removelast_last.
  destruct (canonicalize fs (parts ns)) as [r|] eqn:E; [|done]. destruct (V r E) as [P N].
  destruct (is_dir_at fs r) eqn:D; [|done]. rewrite N. cbn [negb]. intros [= <-]. eauto.
Qed.

Lemma make_symlink_stays (fs fs' : Fs) (t : Path) (ns : list string) (s : string) (ok : bool) :
  vacant fs ns s -> make_symlink fs t (parts (ns ++ [s])) = (fs', ok) -> stays R fs fs'.
Proof.
  intros V. unfold make_symlink. destruct t as [|a t]; [by intros [= <- <-]|].
  destruct (new_place fs (parts (ns ++ [s]))) as [p|] eqn:E; [|by intros [= <- <-]].
  destruct (new_place_vacant _ _ _ _ V E) as (r & -> & P & D & N). intros [= <- <-].
  apply stays_insert; [done..|congruence].
Qed.

Lemma hard_link_stays (links ok : bool) (fs fs' : Fs) (src : Path) (ns : list string) (s : string) :
  vacant fs ns s -> hard_link links fs src (parts (ns ++ [s])) = (fs', ok) -> stays R fs fs' /\ (ok = false -> fs' = fs).
Proof.
  intros V. unfold hard_link. destruct (negb links); [by intros [= <- <-]|].
  destruct (resolve fs false false src) as [q|]; [|by intros [= <- <-]].
  destruct (new_place fs (parts (ns ++ [s]))) as [p|] eqn:E; [|by intros [= <- <-]].
  destruct (new_place_vacant _ _ _ _ V E) as (r & -> & P & D & N).
  destruct (fs !! q) as [[m|x m|t]|]; intros [= <- <-]; (split; [|done]); try reflexivity.
  all: apply stays_insert; [done..|congruence].
Qed.

Lemma fs_copy_stays (fs : Fs) (src : Path) (ns : list string) (s : string) :
  fs_wf fs -> vacant fs ns s -> stays R fs (fst (fs_copy fs src (parts (ns ++ [s])))).
Proof.
  intros W V. unfold fs_copy. destruct (canonicalize fs src) as [q|]; [|done].
  destruct (fs !! q) as [[m|x m|t]|]; try done.
  destruct (file_create fs (parts (ns ++ [s])) x m) as [fs' ok] eqn:E. by eapply file_create_stays.
Qed.

(** A name that resolves is a node of the directory before it. *)
Lemma canonicalize_snoc_inv (fs : Fs) (d : Path) (s : string) (q : Real) : fs_wf fs -> d <> [] ->
  canonicalize fs (d ++ [Normal s]) = inl q ->
  exists r, canonicalize fs d = inl r /\ is_dir_at fs r = true /\ is_Some (fs !! (r ++ [s])).
Proof.
  intros W Nd. unfold canonicalize, resolve.
  destruct (d ++ [Normal s]) as [|b l] eqn:Eq; [by destruct d|]. rewrite <- Eq. clear Eq.
  destruct d as [|a d]; [done|]. remember (a :: d) as d' eqn:Ed. clear Ed Nd a d. rewrite walk_app by done.
  destruct (walk MAXSYMLINKS fs true false [] d') as [[r n]|e]; [|done].
  destruct (is_dir_at fs r) eqn:D; [|done]. intros E. exists r. split; [done|]. split; [done|].
  destruct n; simpl in E; (destruct (fs !! (r ++ [s])) eqn:N; [by eexists|done]).
Qed.

(** A directory entry: an existing one, wherever a link leads, is kept. *)
Lemma create_dir_out (fs fs' : Fs) (ns : list string) (s : string) (n : nat) (ok : bool) :
  fs_wf fs -> within_root fs R (parts (ns ++ [s])) = true ->
  create_dir_all dir_mode n fs (parts (ns ++ [s])) = (fs', ok) ->
  stays R fs fs' /\ (ok = true -> exists r, canonicalize fs' (parts (ns ++ [s])) = inl r /\ is_dir_at fs' r = true).
Proof.
  intros W Hw E. unfold within_root in Hw. rewrite path_parent_parts in Hw.
  destruct (canonicalize fs (parts (ns ++ [s]))) as [q|e] eqn:Eq.
  - pose proof Eq as Eq'. rewrite parts_snoc in Eq'. apply canonicalize_snoc_inv in Eq' as (r & Er & D & x & Ex); [|done..].
    assert (Em : mkdir dir_mode fs (parts (ns ++ [s])) = (fs, Some EOTHER)).
    { rewrite parts_snoc, mkdir_snoc, Er, D, Ex. done. }
    assert (E' : (fs', ok) = (fs, is_dir fs (parts (ns ++ [s])))).
    { rewrite <- E. destruct n; simpl; change (RootDir :: map Normal (ns ++ [s])) with (parts (ns ++ [s])); by rewrite Em. }
    injection E' as -> ->. split; [done|]. apply is_dir_inv.
  - assert (Hw' : within_from (S (length (parts ns))) fs R (parts (ns ++ [s])) = true).
    { cbn [within_from]. rewrite Eq. by rewrite path_parent_parts. }
    destruct (create_dir_all_stays _ _ _ _ _ _ W Hw' E) as [S L]. split; [done|].
    intros Ho. destruct (L Ho) as (r & Er & _ & D & _). eauto.
Qed.

Lemma extract_stays (links : bool) (fs fs' : Fs) (e : TarEntry) (ns : list string) (s : string) (budget : Z) (r : option Z) :
  fs_wf fs -> within_root fs R (parts (ns ++ [s])) = true ->
  extract dir_mode file_mode links fs R e (parts (ns ++ [s])) budget = (fs', r) -> stays R fs fs'.
Proof.
  intros W Hw. unfold extract.
  assert (MR : forall fs1 ok1, make_room dir_mode fs (parts (ns ++ [s])) = (fs1, ok1) ->
    stays R fs fs1 /\ fs_wf fs1 /\ (ok1 = true -> vacant fs1 ns s)).
  { intros fs1 ok1 E. destruct (make_room_stays _ _ _ _ _ W Hw E) as [S V]. by destruct (S W). }
  destruct (make_room dir_mode fs (parts (ns ++ [s]))) as [fs1 ok1]. destruct (MR fs1 ok1 eq_refl) as (S1 & W1 & V). clear MR.
  assert (Reg : forall data n bud, (match ok1 with
      | false => (fs1, None)
      | true => match file_create fs1 (parts (ns ++ [s])) data file_mode with
          | (fs2, false) => (fs2, None)
          | (fs2, true) => if bud <? n then (fs2, None) else (set_permissions fs2 (parts (ns ++ [s])) (default 0x1a4 (t_mode e)), Some n)
          end end) = (fs', r) -> stays R fs fs').
  { intros data n bud. destruct ok1; [|by intros [= <- <-]].
    destruct (file_create fs1 (parts (ns ++ [s])) data file_mode) as [fs2 ok2] eqn:E2.
    pose proof (file_create_stays _ _ _ _ _ _ _ W1 (V eq_refl) E2) as S2.
    assert (S12 : stays R fs fs2) by (by transitivity fs1).
    destruct ok2; [|by intros [= <- <-]]. destruct (bud <? n); intros [= <- <-]; [done|].
    transitivity fs2; [done|]. apply set_permissions_stays. intros q Eq.
    destruct (file_create_vacant _ _ _ _ _ _ _ W1 (V eq_refl) E2) as [[? _]|(_ & r2 & P & D & N & -> & Ec)]; [done|].
    rewrite Ec in Eq. injection Eq as <-. right. by apply below_snoc. }
  destruct (t_kind e).
  - unfold fs_create_dir_all. destruct (create_dir_all _ _ fs _) as [fs2 ok2] eqn:E2.
    destruct (create_dir_out _ _ _ _ _ _ W Hw E2) as [S2 L]. destruct ok2; intros [= <- <-]; [|done].
    transitivity fs2; [done|]. apply set_permissions_stays. intros q Eq. left.
    destruct (L eq_refl) as (r2 & Er & D). congruence.
  - exact (Reg _ _ _).
  - exact (Reg _ _ _).
  - destruct (t_link e) as [t|]; [|by intros [= <- <-]]. destruct ok1; [|by intros [= <- <-]].
    destruct (make_symlink fs1 t (parts (ns ++ [s]))) as [fs2 ok2] eqn:E2. intros [= <- <-].
    transitivity fs1; [done|]. exact (make_symlink_stays _ _ _ _ _ _ (V eq_refl) E2).
  - destruct (t_link e) as [t|]; [|by intros [= <- <-]].
    destruct (rootfs_root _ _) as [lr|]; [|by intros [= <- <-]].
    destruct (within_root fs R (join lr _)); [|by intros [= <- <-]]. cbn [negb].
    destruct ok1; [|by intros [= <- <-]].
    destruct (hard_link links fs1 _ _) as [fs2 ok2] eqn:E2.
    destruct (hard_link_stays _ _ _ _ _ _ _ (V eq_refl) E2) as [S2 Eq].
    destruct ok2; intros [= <- <-]; (transitivity fs1; [done|]); [done|]. rewrite (Eq eq_refl).
    by apply fs_copy_stays, V.
  - by intros [= <- <-].
Qed.

(** ** Entries *)

Lemma sanitize_loop_normal (p : Path) : forall out x, sanitize_loop out p = Some x ->
  exists rs, x = out ++ map Normal rs.
Proof.
  induction p as [|c p IH]; intros out x; simpl.
  - intros [= <-]. exists []. by rewrite app_nil_r.
  - destruct c as [| | |s]; try done; [apply IH|]. intros (rs & ->)%IH. exists (s :: rs). by rewrite <- app_assoc.
Qed.

(** What [sanitize] lets through has plain names only, at least one. *)
Lemma sanitize_names (p rel : Path) : sanitize p = Some rel -> exists rs s, rel = map Normal (rs ++ [s]).
Proof.
  unfold sanitize. destruct (sanitize_loop [] (components p)) as [x|] eqn:E; [|done]. cbn.
  apply sanitize_loop_normal in E as (rs & ->). cbn [app]. destruct rs as [|a rs _] using rev_ind; [done|].
  rewrite map_app. destruct (map Normal rs ++ map Normal [a]) eqn:E; [by apply app_eq_nil in E as [_ [=]]|].
  rewrite <- E. intros [= <-]. exists rs, a. by rewrite map_app.
Qed.

Lemma components_names (ns : list string) : components (map Normal ns) = map Normal ns.
Proof.
  destruct ns as [|a ns]; [done|]. simpl. f_equal. induction ns as [|b ns IH]; [done|]. simpl. by rewrite IH.
Qed.

Lemma file_name_names (rs : list string) (s : string) : file_name (map Normal (rs ++ [s])) = Some s.
Proof. unfold file_name. rewrite components_names, map_app. cbn [map]. by rewrite last_snoc_path. Qed.

Lemma path_parent_names (rs : list string) (s : string) : path_parent (map Normal (rs ++ [s])) = Some (map Normal rs).
Proof.
  unfold path_parent. rewrite components_names.
  assert (E : removelast (map Normal (rs ++ [s])) = map Normal rs) by (rewrite map_app; apply removelast_last).
  destruct rs as [|a rs]; [done|]. cbn [app map] in E |- *. by rewrite E.
Qed.

(** The directory of an entry, as the code joins it. *)
Lemma entry_dir (fs : Fs) (ds rs : list string) (x : string) (r : Real) : fs_wf fs ->
  let dir := join (parts ds) (map Normal rs) in
  within_root fs R (dir ++ [Normal x]) = true -> canonicalize fs dir = inl r -> R `prefix_of` r.
Proof.
  intros W dir Hw E. assert (E2 : path_parent (dir ++ [Normal x]) = Some (parts (ds ++ rs)) /\ canonicalize fs (parts (ds ++ rs)) = inl r).
  { subst dir. destruct rs as [|a rs].
    - rewrite app_nil_r. cbn [join map] in *. split.
      + rewrite <- app_assoc. rewrite <- (path_parent_parts ds x). rewrite parts_snoc. unfold path_parent.
        assert (Ec : components (parts ds ++ [CurDir; Normal x]) = components (parts ds ++ [Normal x])).
        { unfold parts. simpl. f_equal. rewrite !List.filter_app. done. }
        cbn [app]. by rewrite Ec.
      + unfold canonicalize, resolve in E |- *. destruct (parts ds ++ [CurDir]) as [|b0 l0] eqn:Eq; [done|].
        rewrite <- Eq in E. rewrite walk_app in E by done. destruct (parts ds) as [|b l] eqn:Ep; [done|].
        destruct (walk MAXSYMLINKS fs true false [] (b :: l)) as [[q n]|]; [|done].
        destruct (is_dir_at fs q); [|done]. by destruct n.
    - assert (Ej : join (parts ds) (map Normal (a :: rs)) = parts (ds ++ a :: rs)) by (unfold parts; by rewrite map_app).
      rewrite Ej in E |- *. rewrite <- parts_snoc. split; [apply path_parent_parts|done]. }
  destruct E2 as [E2 E3]. unfold within_root in Hw. rewrite E2 in Hw. by eapply within_from_ok.
Qed.
End Staying.

(** A whiteout of a plain name. The others ([.wh.], [.wh..] and [.wh...]) name
    the directory itself, twice, and its parent. *)
Definition plain_whiteout (e : TarEntry) : Prop :=
  forall rel n t, sanitize (t_path e) = Some rel -> file_name rel = Some n -> strip_wh n = Some t ->
  t <> EmptyString /\ t <> "." /\ t <> "..".

Lemma apply_entry_stays (dir_mode file_mode : Z) (links : bool) (ds : list string) (R : Real) (max_total : Z)
    (fs fs' : Fs) (w : Z) (e : TarEntry) (r : option Z) :
  plain_whiteout e -> fs_wf fs ->
  apply_entry dir_mode file_mode links (parts ds) R max_total fs w e = (fs', r) -> stays R fs fs'.
Proof.
  intros Hp W. unfold apply_entry. destruct (sanitize (t_path e)) as [rel|] eqn:Es; [|by intros [= <- <-]].
  destruct (sanitize_names _ _ Es) as (rs & s & ->).
  rewrite path_parent_names, file_name_names. cbn [default from_option mbind option_bind].
  assert (Nd : join (parts ds) (map Normal rs) <> []) by by destruct rs.
  assert (J : forall x, join (join (parts ds) (map Normal rs)) [Normal x] = join (parts ds) (map Normal rs) ++ [Normal x]) by done.
  destruct (decide (Some s = Some WH_OPAQUE)).
  - rewrite J. destruct (within_root fs R _) eqn:Hw; [|by intros [= <- <-]].
    destruct (clear_dir fs _) as [fs1 ok] eqn:E. intros [= <- <-].
    eapply clear_dir_stays; [done|exact Nd| |exact E]. intros q Eq. by eapply entry_dir.
  - destruct (strip_wh s) as [t|] eqn:Et.
    + destruct (Hp _ s t Es (file_name_names _ _) Et) as (N1 & N2 & N3).
      assert (Ep : path_of_name t = [Normal t]).
      { unfold path_of_name. by rewrite !(proj2 (String.eqb_neq _ _)). }
      rewrite Ep, J. destruct (within_root fs R _) eqn:Hw; [|by intros [= <- <-]].
      destruct (remove_any fs _) as [fs1 ok] eqn:E. intros [= <- <-].
      eapply remove_any_stays; [done|exact Nd| |exact E]. intros q Eq. by eapply entry_dir.
    + assert (Ej : join (parts ds) (map Normal (rs ++ [s])) = parts ((ds ++ rs) ++ [s])).
      { unfold parts. rewrite !map_app. cbn [map]. rewrite <- app_assoc. by destruct rs. }
      rewrite Ej. destruct (within_root fs R (parts _)) eqn:Hw; [|by intros [= <- <-]]. cbn [negb].
      destruct (extract _ _ _ _ _ _ _ _) as [fs1 o] eqn:E.
      intros Eo. assert (E1 : fs1 = fs') by (destruct o; congruence). subst fs1. by eapply extract_stays.
Qed.

Lemma apply_entries_stays (dir_mode file_mode : Z) (links : bool) (ds : list string) (R : Real) (max_total : Z)
    (es : list (option TarEntry)) (fs' : Fs) (r : option Z) :
  (forall e, Some e ∈ es -> plain_whiteout e) -> forall fs w, fs_wf fs ->
  apply_entries dir_mode file_mode links (parts ds) R max_total fs w es = (fs', r) -> stays R fs fs'.
Proof.
  induction es as [|[e|] es IH]; simpl; intros Hp fs w W; try by intros [= <- <-].
  destruct (apply_entry _ _ _ _ _ _ _ _ _) as [fs1 o] eqn:Ee.
  assert (S : stays R fs fs1) by (eapply apply_entry_stays; [apply Hp; left|done|exact Ee]).
  destruct o as [w1|]; [|by intros [= <- <-]]. intros E. transitivity fs1; [done|].
  eapply IH; [|by apply S|exact E]. intros e' He. apply Hp. by right.
Qed.

(** Taking away what is at a destination leaves everything else. *)
Lemma remove_dest (fs fs1 : Fs) (d : Path) (P : Real) (s : string) (ok : bool) :
  fs_wf fs -> d <> [] -> canonicalize fs d = inl P -> is_dir_at fs P = true ->
  remove_dir_all fs (d ++ [Normal s]) = (fs1, ok) ->
  fs_wf fs1 /\ more (without (P ++ [s]) fs) fs1 /\ (forall k, ~ (P ++ [s]) `prefix_of` k -> fs1 !! k = fs !! k) /\
  (ok = true -> fs1 !! (P ++ [s]) = None).
Proof.
  intros W Nd E D. assert (Id : more (without (P ++ [s]) fs) fs).
  { intros k n. rewrite lookup_without. destruct (decide _); [done|eauto]. }
  unfold remove_dir_all. rewrite strip_slash_snoc, last_snoc_path, !resolve_name, E, D by done.
  destruct (fs !! (P ++ [s])) as [[m|x m|t]|] eqn:N; rewrite ?N; [rewrite decide_True by done| | |]; intros [= <- <-]; try (split; [done|]; split; [done|]; by split).
  - change (delete (P ++ [s]) (delete_below (P ++ [s]) fs)) with (without (P ++ [s]) fs).
    split; [by apply (without_stays P _ P s (reflexivity _))|]. split; [by apply more_subset|].
    split; [intros k Hk; by rewrite lookup_without, decide_False|]. intros _. by rewrite lookup_without, decide_True.
  - split; [apply (delete_leaf_stays P fs P s W (reflexivity _)); [|done]; by rewrite is_dir_at_snoc, N|].
    split; [|split; [intros k Hk; rewrite lookup_delete_ne; [done|by intros <-]|intros _; apply lookup_delete_eq]].
    intros k n. rewrite lookup_without. destruct (decide _) as [|Hk]; [done|]. intros Ek. exists n.
    split; [|done]. rewrite lookup_delete_ne; [done|by intros <-].
Qed.

(** C11: flattening stays inside the image. For every image whose whiteouts
    name plain files, whatever else its layers hold, symbolic links included,
    and whether the run succeeds or stops at an error, nothing on the host
    changes outside the destination's own tree, except that a directory's
    mode may change. The destination's parent must exist, on a path that does
    not lead through the destination itself. *)
Theorem flatten_contained (dir_mode file_mode : Z) (links : bool) (ds : list string) (s : string) (P : Real)
    (layers : list (list (option TarEntry))) (max_total : Z) (fs fs' : Fs) (ok : bool) :
  (forall e, Some e ∈ concat layers -> plain_whiteout e) -> fs_wf fs ->
  canonicalize (without (P ++ [s]) fs) (parts ds) = inl P -> is_dir_at fs P = true ->
  flatten_limited dir_mode file_mode links fs layers (parts (ds ++ [s])) max_total = (fs', ok) ->
  fs_wf fs' /\ forall k, ~ (P ++ [s]) `prefix_of` k -> same_node (fs !! k) (fs' !! k).
Proof.
  intros Hp W Ew D. assert (Id : more (without (P ++ [s]) fs) fs).
  { intros k n. rewrite lookup_without. destruct (decide _); [done|eauto]. }
  assert (Nd : parts ds <> []) by done. unfold flatten_limited. rewrite parts_snoc.
  destruct (if fs_exists fs _ then _ else _) as [fs1 ok1] eqn:E1.
  assert (H1 : fs_wf fs1 /\ more (without (P ++ [s]) fs) fs1 /\ (forall k, ~ (P ++ [s]) `prefix_of` k -> fs1 !! k = fs !! k) /\
      (ok1 = true -> fs1 !! (P ++ [s]) = None \/ is_dir fs1 (parts ds ++ [Normal s]) = false)).
  { destruct (fs_exists fs _) eqn:Ex.
    - assert (Ep : canonicalize fs (parts ds) = inl P) by by eapply resolve_more.
      destruct (remove_dest _ _ _ _ _ _ W Nd Ep D E1) as (A & B & C & N). do 3 (split; [done|]). intros Ho. left. by apply N.
    - injection E1 as <- <-. do 3 (split; [done|]). intros _. right. unfold is_dir. unfold fs_exists in Ex.
      by destruct (canonicalize fs _). }
  clear E1. destruct H1 as (W1 & M1 & K1 & N1).
  assert (Same : fs_wf fs1 /\ forall k, ~ (P ++ [s]) `prefix_of` k -> same_node (fs !! k) (fs1 !! k)).
  { split; [done|]. intros k Hk. left. by rewrite K1. }
  destruct ok1; [|by intros [= <- <-]].
  assert (Ep : canonicalize fs1 (parts ds) = inl P) by by eapply resolve_more.
  assert (D1 : is_dir_at fs1 P = true).
  { apply (is_dir_more _ _ _ M1). destruct P as [|a P' _] using rev_ind; [done|]. rewrite is_dir_at_snoc in D |- *.
    rewrite lookup_without, decide_False; [done|]. intros Q%prefix_length. rewrite !length_app in Q. cbn in Q. lia. }
  assert (Ec : fs_create_dir_all dir_mode fs1 (parts ds ++ [Normal s]) =
    match fs1 !! (P ++ [s]) with Some _ => (fs1, is_dir fs1 (parts ds ++ [Normal s])) | None => (<[P ++ [s] := NDir dir_mode]> fs1, true) end).
  { unfold fs_create_dir_all. pose proof (mkdir_snoc dir_mode fs1 (parts ds) s) as Em. rewrite Ep, D1 in Em.
    destruct (length _) eqn:El; [by rewrite length_app in El|]. cbn -[mkdir].
    change (RootDir :: map Normal ds ++ [Normal s]) with (parts ds ++ [Normal s]). rewrite Em. by destruct (fs1 !! (P ++ [s])). }
  rewrite Ec. destruct (fs1 !! (P ++ [s])) as [n|] eqn:N.
  { destruct (N1 eq_refl) as [|Ei]; [done|]. rewrite Ei. by intros [= <- <-]. }
  destruct (canonicalize_insert _ _ _ _ (NDir dir_mode) W1 Nd Ep D1 N I) as [_ E2]. rewrite E2.
  destruct (apply_entries _ _ _ _ _ _ _ _ _) as [fs3 o] eqn:E3. intros [= <- <-].
  rewrite <- parts_snoc in E3. apply apply_entries_stays in E3; [|done|apply wf_insert; [done| |done]; congruence].
  destruct E3 as [W3 A3]; [apply wf_insert; [done| |done]; congruence|]. split; [done|].
  intros k Hk. assert (B : ~ below (P ++ [s]) k) by (intros [? _]; done). destruct (A3 k B) as [E|E]; [left|right].
  - rewrite <- E, lookup_insert_ne, K1; [done|done|]. intros <-. by apply Hk.
  - rewrite lookup_insert_ne, K1 in E; [done|done|]. intros <-. by apply Hk.
Qed.

(** ** The disk space an image takes *)

Definition node_size (n : Node) : Z := match n with NFile d _ => zlen d | _ => 0 end.
Definition bytes (fs : Fs) : Z := map_fold (fun _ n acc => node_size n + acc) 0 fs.

Lemma bytes_insert (fs : Fs) (k : Real) (n : Node) : fs !! k = None -> bytes (<[k := n]> fs) = node_size n + bytes fs.
Proof. intros E. unfold bytes. apply (map_fold_insert_L (fun _ n acc => node_size n + acc)); [|done]. intros. lia. Qed.

Lemma node_size_nonneg (n : Node) : 0 <= node_size n.
Proof. destruct n; cbn; unfold zlen; lia. Qed.

Lemma bytes_delete (fs : Fs) (k : Real) (n : Node) : fs !! k = Some n -> bytes fs = node_size n + bytes (delete k fs).
Proof. intros E. unfold bytes. apply (map_fold_delete_L (fun _ n acc => node_size n + acc)); [|done]. intros. lia. Qed.

Lemma bytes_subset (fs : Fs) : forall fs', fs' ⊆ fs -> bytes fs' <= bytes fs.
Proof.
  induction fs as [|k n fs N IH] using map_ind; intros fs' S.
  { assert (fs' = ∅) as ->; [|done]. apply (anti_symm (⊆)); [done|apply map_empty_subseteq]. }
  rewrite bytes_insert by done. destruct (fs' !! k) as [x|] eqn:E.
  - pose proof (lookup_weaken _ _ _ _ E S) as Ex. rewrite lookup_insert_eq in Ex. injection Ex as ->.
    rewrite (bytes_delete _ _ _ E). assert (bytes (delete k fs') <= bytes fs); [|lia].
    apply IH. apply map_subseteq_spec. intros k' y Hy. apply lookup_delete_Some in Hy as [Ne Hy].
    apply (lookup_weaken _ _ _ _ Hy) in S. by rewrite lookup_insert_ne in S.
  - assert (bytes fs' <= bytes fs); [|pose proof (node_size_nonneg n); lia]. apply IH.
    apply map_subseteq_spec. intros k' y Hy. pose proof (lookup_weaken _ _ _ _ Hy S) as Hy'.
    rewrite lookup_insert_ne in Hy'; [done|]. intros ->. congruence.
Qed.

Lemma bytes_set_permissions (fs : Fs) (p : Path) (mode : Z) : bytes (set_permissions fs p mode) = bytes fs.
Proof.
  unfold set_permissions. destruct (canonicalize fs p) as [r|]; [|done]. set (g := fun n : Node => _).
  destruct (fs !! r) as [n|] eqn:E.
  - assert (D : alter g r fs = <[r := g n]> fs).
    { apply map_eq. intros k. destruct (decide (k = r)) as [->|].
      + by rewrite lookup_alter_eq, lookup_insert_eq, E.
      + by rewrite lookup_alter_ne, lookup_insert_ne. }
    rewrite D, <- insert_delete_eq, bytes_insert, (bytes_delete _ _ _ E) by apply lookup_delete_eq. by destruct n.
  - assert (D : alter g r fs = fs); [|by rewrite D]. apply map_eq. intros k. destruct (decide (k = r)) as [->|].
    + by rewrite lookup_alter_eq, E.
    + by rewrite lookup_alter_ne.
Qed.

Section Bytes.
Variable dir_mode file_mode : Z.

Lemma bytes_mkdir (fs : Fs) (p : Path) : bytes (fst (mkdir dir_mode fs p)) = bytes fs.
Proof.
  unfold mkdir, new_place. destruct (split_last p) as [[d s]|]; [|done]. destruct (canonicalize fs d); [|done].
  destruct (negb _); [done|]. destruct (fs !! _) eqn:E; [done|]. cbn. by rewrite bytes_insert.
Qed.

Lemma bytes_create_dir_all (n : nat) : forall (fs : Fs) (p : Path), bytes (fst (create_dir_all dir_mode n fs p)) = bytes fs.
Proof.
  induction n as [|n IH]; intros fs p; (destruct p as [|c p]; [done|]); simpl.
  all: pose proof (bytes_mkdir fs (c :: p)) as E1; destruct (mkdir dir_mode fs (c :: p)) as [fs1 [[]|]]; try done.
  destruct (path_parent (c :: p)) as [d|]; [|done]. specialize (IH fs d).
  destruct (create_dir_all dir_mode n fs d) as [fs2 []]; [|done]. cbn [fst] in IH.
  pose proof (bytes_mkdir fs2 (c :: p)) as E2. destruct (mkdir dir_mode fs2 (c :: p)) as [fs3 [|]]; cbn in *; congruence.
Qed.

Lemma remove_any_fewer (fs : Fs) (p : Path) : fst (remove_any fs p) ⊆ fs.
Proof.
  assert (B : forall r, delete_below r fs ⊆ fs) by (intros r; apply map_filter_subseteq).
  unfold remove_any, remove_dir_all, remove_file. destruct (resolve fs false false p) as [r|]; [|done].
  destruct (is_dir_at fs r) eqn:D.
  - assert (Big : fst (match list.last (strip_slash p), resolve fs false false (strip_slash p) with
      | Some (Normal _), inl r' => if decide (r' = r) then (delete r (delete_below r fs), true) else (delete_below r fs, false)
      | _, _ => (delete_below r fs, false) end) ⊆ fs).
    { destruct (list.last (strip_slash p)) as [[]|]; try apply B.
      destruct (resolve fs false false (strip_slash p)) as [r'|]; [|apply B].
      destruct (decide (r' = r)); [|apply B]. etransitivity; [apply delete_subseteq|apply B]. }
    destruct (fs !! r) as [[m|x m|t]|]; try exact Big; [done|apply delete_subseteq].
  - apply delete_subseteq.
Qed.

Lemma remove_all_fewer (ps : list Path) : forall fs : Fs, fst (remove_all fs ps) ⊆ fs.
Proof.
  induction ps as [|p ps IH]; intros fs; [done|]. simpl. pose proof (remove_any_fewer fs p) as S.
  destruct (remove_any fs p) as [fs1 []]; [|done]. etransitivity; [apply IH|done].
Qed.

Lemma clear_dir_fewer (fs : Fs) (d : Path) : fst (clear_dir fs d) ⊆ fs.
Proof.
  unfold clear_dir. destruct (canonicalize fs d) as [r|]; [|done]. destruct (is_dir_at fs r); [|done]. apply remove_all_fewer.
Qed.

Lemma bytes_make_room (fs : Fs) (out : Path) : bytes (fst (make_room dir_mode fs out)) <= bytes fs.
Proof.
  unfold make_room, fs_create_dir_all. assert (E : forall d, bytes (fst (create_dir_all dir_mode (length d) fs d)) = bytes fs)
    by (intros; apply bytes_create_dir_all).
  destruct (path_parent out) as [d|].
  - specialize (E d). destruct (create_dir_all dir_mode (length d) fs d) as [fs1 []]; cbn [fst] in *; [|lia].
    pose proof (bytes_subset _ _ (remove_any_fewer fs1 out)). lia.
  - apply bytes_subset, remove_any_fewer.
Qed.

Lemma bytes_file_create (fs : Fs) (p : Path) (data : list Z) (mode : Z) :
  bytes (fst (file_create fs p data mode)) <= bytes fs + zlen data.
Proof.
  assert (Hz : 0 <= zlen data) by (unfold zlen; lia).
  unfold file_create. destruct (resolve fs true true p) as [r|]; [|cbn; lia]. destruct (is_dir_at fs r); [cbn; lia|].
  assert (G : forall m, bytes (<[r := NFile data m]> fs) <= bytes fs + zlen data).
  { intros m. destruct (fs !! r) as [n|] eqn:E.
    - rewrite <- insert_delete_eq, bytes_insert by apply lookup_delete_eq.
      rewrite (bytes_delete _ _ _ E). pose proof (node_size_nonneg n). cbn. lia.
    - rewrite bytes_insert by done. cbn. lia. }
  destruct (fs !! r) as [[]|]; cbn [fst]; apply G.
Qed.

Lemma bytes_make_symlink (fs : Fs) (t p : Path) : bytes (fst (make_symlink fs t p)) = bytes fs.
Proof.
  unfold make_symlink, new_place. destruct t as [|c t]; [done|]. destruct (split_last p) as [[d s]|]; [|done].
  destruct (canonicalize fs d); [|done]. destruct (negb _); [done|]. destruct (fs !! _) eqn:E; [done|]. cbn. by rewrite bytes_insert.
Qed.

(** What an entry adds to the disk, and what it leaves of the budget. *)
Definition charged (max_total w : Z) (fs fs' : Fs) (r : option Z) : Prop :=
  match r with
  | Some w' => w <= w' <= max_total /\ bytes fs' <= bytes fs + (w' - w)
  | None => bytes fs' <= bytes fs + (max_total - w) + 1
  end.

Lemma extract_bytes (links : bool) (R : Real) (fs fs' : Fs) (e : TarEntry) (out : Path) (budget : Z) (r : option Z) :
  t_kind e <> TLink -> 0 <= budget -> extract dir_mode file_mode links fs R e out budget = (fs', r) ->
  match r with
  | Some n => 0 <= n <= budget /\ bytes fs' <= bytes fs + n
  | None => bytes fs' <= bytes fs + budget + 1
  end.
Proof.
  intros Hk Hb. unfold extract. pose proof (bytes_make_room fs out) as Bm.
  destruct (make_room dir_mode fs out) as [fs1 ok1]. cbn [fst] in Bm.
  assert (Reg : forall (ok : bool) n, 0 <= n <= budget + 1 -> n <= zlen (t_data e) ->
    (if ok then match file_create fs1 out (take (Z.to_nat n) (t_data e)) file_mode with
      | (fs2, true) => if budget <? n then (fs2, None) else (set_permissions fs2 out (default 0x1a4 (t_mode e)), Some n)
      | (fs2, false) => (fs2, None) end else (fs1, None)) = (fs', r) ->
    match r with Some n => 0 <= n <= budget /\ bytes fs' <= bytes fs + n | None => bytes fs' <= bytes fs + budget + 1 end).
  { intros ok n Hn Hl. destruct ok; [|intros [= <- <-]; lia].
    pose proof (bytes_file_create fs1 out (take (Z.to_nat n) (t_data e)) file_mode) as Bf.
    assert (El : zlen (take (Z.to_nat n) (t_data e)) = n) by (unfold zlen in *; rewrite length_take; lia). rewrite El in Bf.
    destruct (file_create _ _ _ _) as [fs2 []]; cbn [fst] in Bf; [|intros [= <- <-]; lia].
    destruct (budget <? n) eqn:Eb; intros [= <- <-]; rewrite ?bytes_set_permissions; lia. }
  assert (Hz : 0 <= zlen (t_data e)) by (unfold zlen; lia).
  destruct (t_kind e); try done.
  - unfold fs_create_dir_all. pose proof (bytes_create_dir_all (length out) fs out) as Bc.
    destruct (create_dir_all _ _ _ _) as [fs2 []]; cbn [fst] in Bc; intros [= <- <-]; rewrite ?bytes_set_permissions; lia.
  - apply Reg; lia.
  - apply Reg; lia.
  - destruct (t_link e) as [t|]; [|intros [= <- <-]; lia]. destruct ok1; [|intros [= <- <-]; lia].
    pose proof (bytes_make_symlink fs1 t out) as Bs. destruct (make_symlink fs1 t out) as [fs2 []]; cbn [fst] in Bs; intros [= <- <-]; lia.
  - intros [= <- <-]; lia.
Qed.

Lemma apply_entry_bytes (links : bool) (dest : Path) (R : Real) (max_total : Z) (fs fs' : Fs) (w : Z) (e : TarEntry) (r : option Z) :
  t_kind e <> TLink -> w <= max_total ->
  apply_entry dir_mode file_mode links dest R max_total fs w e = (fs', r) -> charged max_total w fs fs' r.
Proof.
  intros Hk Hw. unfold apply_entry.
  assert (Same : (fs, Some w) = (fs', r) -> charged max_total w fs fs' r) by (intros [= <- <-]; unfold charged; lia).
  assert (Fewer : forall x : Fs * bool, fst x ⊆ fs ->
    (let '(fs1, ok) := x in (fs1, if ok then Some w else None)) = (fs', r) -> charged max_total w fs fs' r).
  { intros [fs1 ok] S%bytes_subset [= <- <-]. cbn in S. unfold charged. destruct ok; lia. }
  destruct (sanitize (t_path e)) as [rel|]; [|done]. destruct (decide _).
  { destruct (within_root _ _ _); [|done]. apply Fewer, clear_dir_fewer. }
  destruct (n ← file_name rel; strip_wh n) as [t|].
  { destruct (within_root _ _ _); [|done]. apply Fewer, remove_any_fewer. }
  destruct (negb _); [done|]. destruct (extract _ _ _ _ _ _ _ _) as [fs1 [k|]] eqn:E; intros [= <- <-];
    apply extract_bytes in E; unfold charged; try done; lia.
Qed.

(** the disk an image takes is bounded. An image without hard links never
    grows the files on the host by more than the limit and one byte, even when
    it is refused; when it is accepted, the bytes counted are within the limit
    and the growth is at most what was counted. *)
Theorem flatten_budget (links : bool) (dest : Path) (R : Real) (max_total : Z) (es : list (option TarEntry))
    (fs fs' : Fs) (w : Z) (r : option Z) :
  (forall e, Some e ∈ es -> t_kind e <> TLink) -> w <= max_total ->
  apply_entries dir_mode file_mode links dest R max_total fs w es = (fs', r) -> charged max_total w fs fs' r.
Proof.
  revert fs w. induction es as [|[e|] es IH]; simpl; intros fs w Hk Hw; try (intros [= <- <-]; unfold charged; lia).
  destruct (apply_entry _ _ _ _ _ _ _ _ _) as [fs1 o] eqn:Ee.
  apply apply_entry_bytes in Ee; [|apply Hk; left|done]. destruct o as [w1|]; [|by intros [= <- <-]].
  destruct Ee as [Hw1 B1]. intros E. apply IH in E; [|intros e' He; apply Hk; by right|lia].
  destruct r; unfold charged in *; lia.
Qed.

(** an accepted file is there with its content. A regular entry whose
    place passes the containment check and which applies without error is
    afterwards found at its own path under the root, with all of its bytes
    and its mode, and counted in full against the limit; one that would pass
    the limit always ends the run with an error. *)
Theorem flatten_writes_file (links : bool) (ds rs : list string) (s : string) (R : Real) (max_total : Z)
    (fs fs' : Fs) (w : Z) (e : TarEntry) (r : option Z) :
  fs_wf fs -> 0 <= w <= max_total -> max_total < 2 ^ 64 - 1 ->
  t_kind e = TRegular -> sanitize (t_path e) = Some (map Normal (rs ++ [s])) -> strip_wh s = None ->
  within_root fs R (parts (ds ++ rs ++ [s])) = true ->
  apply_entry dir_mode file_mode links (parts ds) R max_total fs w e = (fs', r) ->
  (max_total < w + zlen (t_data e) -> r = None) /\
  forall w', r = Some w' -> w' = w + zlen (t_data e) /\
    exists q, canonicalize fs' (parts (ds ++ rs ++ [s])) = inl q /\ below R q /\
      fs' !! q = Some (NFile (t_data e) (default 0x1a4 (t_mode e))).
Proof.
  intros W Hw Hm Hk Es Hs Hr. unfold apply_entry. rewrite Es, file_name_names. cbn [mbind option_bind].
  rewrite decide_False by (intros [= ->]; discriminate Hs). rewrite Hs.
  assert (Ej : join (parts ds) (map Normal (rs ++ [s])) = parts ((ds ++ rs) ++ [s])).
  { unfold parts. rewrite !map_app. cbn [map]. rewrite <- app_assoc. by destruct rs. }
  rewrite Ej. rewrite app_assoc in Hr |- *. rewrite Hr. cbn [negb]. unfold extract. rewrite Hk.
  destruct (make_room dir_mode fs (parts ((ds ++ rs) ++ [s]))) as [fs1 ok1] eqn:E1.
  destruct (make_room_stays _ _ _ _ _ _ _ W Hr E1) as [S1 V]. destruct (S1 W) as [W1 _].
  destruct ok1; [|by intros [= <- <-]]. specialize (V eq_refl).
  set (n := Z.min _ _). destruct (file_create fs1 _ _ _) as [fs2 ok2] eqn:E2.
  destruct ok2; [|by intros [= <- <-]].
  assert (Hz : 0 <= zlen (t_data e)) by (unfold zlen; lia).
  destruct (max_total - w <? n) eqn:Eb; intros [= <- <-]; [done|].
  assert (En : n = zlen (t_data e)) by lia. split; [lia|]. intros w' [= <-]. split; [lia|].
  assert (Et : take (Z.to_nat n) (t_data e) = t_data e) by (apply take_ge; unfold zlen in *; lia).
  destruct (file_create_vacant _ _ _ _ _ _ _ _ W1 V E2) as [[? _]|(_ & q & P & D & N & E3 & Ec)]; [done|].
  rewrite Et in E3. exists (q ++ [s]). split; [|split].
  - unfold canonicalize. eapply (resolve_more fs2); [|exact Ec]. unfold set_permissions. rewrite Ec.
    intros k x Ek. destruct (decide (k = q ++ [s])) as [->|Hne].
    + rewrite lookup_alter_eq, Ek. eexists. split; [done|]. by destruct x.
    + rewrite lookup_alter_ne by done. eauto.
  - by apply below_snoc.
  - unfold set_permissions. rewrite Ec, lookup_alter_eq, E3, lookup_insert_eq. done.
Qed.
End Bytes.

(** ** Whiteouts that name a directory *)

Lemma resolve_dot (fs : Fs) (d : Path) (r : Real) (c : bool) : fs_wf fs -> d <> [] ->
  canonicalize fs d = inl r -> is_dir_at fs r = true ->
  resolve fs false c (d ++ [CurDir]) = inl r /\ resolve fs false c (d ++ [CurDir; ParentDir]) = inl (removelast r).
Proof.
  intros W Nd. unfold canonicalize, resolve. intros E D.
  destruct (d ++ [CurDir]) as [|a1 l1] eqn:E1; [by destruct d|]. destruct (d ++ [CurDir; ParentDir]) as [|a2 l2] eqn:E2; [by destruct d|].
  rewrite <- E1, <- E2, !walk_app by done. clear E1 E2 a1 l1 a2 l2.
  destruct d as [|a d]; [done|]. destruct (walk MAXSYMLINKS fs true false [] (a :: d)) as [[r' n]|]; [|done].
  injection E as ->. rewrite D. by destruct n.
Qed.

Lemma path_parent_dot (ds : list string) (c : list Comp) :
  path_parent (parts ds ++ CurDir :: c) = path_parent (parts ds ++ c).
Proof.
  unfold path_parent. assert (E : components (parts ds ++ CurDir :: c) = components (parts ds ++ c)).
  { unfold parts. simpl. f_equal. by rewrite !List.filter_app. }
  by rewrite E.
Qed.

Lemma strip_slash_dot (d : Path) (s : string) : strip_slash ((d ++ [Normal s]) ++ [CurDir]) = d ++ [Normal s].
Proof. induction d as [|c d IH]; [done|]. cbn [app strip_slash] in *. rewrite IH. by destruct d. Qed.

Lemma strip_slash_parent (d : Path) : list.last (strip_slash (d ++ [CurDir; ParentDir])) = Some ParentDir.
Proof.
  induction d as [|c d IH]; [done|]. cbn [app strip_slash]. destruct (strip_slash (d ++ [CurDir; ParentDir])) eqn:E; [done|].
  exact IH.
Qed.

Lemma path_parent_up (ds : list string) : path_parent (parts ds ++ [ParentDir]) = Some (parts ds).
Proof.
  assert (E : components (parts ds ++ [ParentDir]) = parts ds ++ [ParentDir]).
  { pose proof (components_parts ds) as C. unfold parts in *. simpl in *. injection C as C. f_equal.
    rewrite List.filter_app, C. done. }
  unfold path_parent. rewrite E. unfold parts at 1.
  assert (E2 : removelast ((RootDir :: map Normal ds) ++ [ParentDir]) = parts ds) by apply removelast_last.
  cbn [app] in E2 |- *. destruct (map Normal ds ++ [ParentDir]) eqn:Eq; [by apply app_eq_nil in Eq as [_ [=]]|]. by rewrite E2.
Qed.

(** What [remove_any] does to a directory not named by a plain name. *)
Lemma remove_any_empties (fs : Fs) (p : Path) (x : Real) : fs_wf fs ->
  resolve fs false false p = inl x -> is_dir_at fs x = true ->
  match list.last (strip_slash p) with
  | Some (Normal _) => forall y, resolve fs false false (strip_slash p) = inl y -> y <> x
  | _ => True
  end -> remove_any fs p = (delete_below x fs, false).
Proof.
  intros [W _] E D L. unfold remove_any, remove_dir_all. rewrite E, D.
  assert (G : match list.last (strip_slash p), resolve fs false false (strip_slash p) with
    | Some (Normal _), inl r' => if decide (r' = x) then (delete x (delete_below x fs), true) else (delete_below x fs, false)
    | _, _ => (delete_below x fs, false) end = (delete_below x fs, false)).
  { destruct (list.last (strip_slash p)) as [[]|]; try done.
    destruct (resolve fs false false (strip_slash p)) as [y|]; [|done]. rewrite decide_False; [done|]. by apply L. }
  destruct x as [|a x _] using rev_ind; [by rewrite W|]. rewrite is_dir_at_snoc in D.
  by destruct (fs !! (x ++ [a])) as [[]|].
Qed.

Lemma apply_entry_whiteout (dir_mode file_mode : Z) (links : bool) (dest : Path) (R : Real) (max_total : Z) (fs fs1 : Fs)
    (w : Z) (e : TarEntry) (rel victim : Path) (n t : string) :
  sanitize (t_path e) = Some rel -> file_name rel = Some n -> n <> WH_OPAQUE -> strip_wh n = Some t ->
  victim = join (join dest (default [] (path_parent rel))) (path_of_name t) ->
  within_root fs R victim = true -> remove_any fs victim = (fs1, false) ->
  apply_entry dir_mode file_mode links dest R max_total fs w e = (fs1, None).
Proof.
  intros Es En No Et -> Hw Er. unfold apply_entry. rewrite Es, En. rewrite decide_False by congruence.
  cbn [mbind option_bind]. rewrite Et, Hw, Er. done.
Qed.

(** C12: a whiteout can reach outside the image. The entry [.wh...] at the top
    of a layer empties the directory that holds the destination, everything
    next to it included, and [p/.wh.] with [p] an earlier symbolic link empties
    the directory of the host the link leads to; both runs then end in an
    error. The containment check looks at the parent of the victim's path only,
    and the victim here is a directory named by [..] or by a trailing slash. *)
Theorem whiteout_escapes (dir_mode file_mode : Z) (links : bool) (ds : list string) (R : Real) (max_total : Z) (fs : Fs) (w : Z) :
  fs_wf fs -> canonicalize fs (parts ds) = inl R -> is_dir_at fs R = true ->
  (forall e, sanitize (t_path e) = Some [Normal ".wh..."] ->
     apply_entry dir_mode file_mode links (parts ds) R max_total fs w e = (delete_below (removelast R) fs, None)) /\
  (forall e p t x, sanitize (t_path e) = Some [Normal p; Normal ".wh."] -> fs !! (R ++ [p]) = Some (NLink t) ->
     canonicalize fs (parts (ds ++ [p])) = inl x -> is_dir_at fs x = true ->
     apply_entry dir_mode file_mode links (parts ds) R max_total fs w e = (delete_below x fs, None)).
Proof.
  intros W E D. assert (Wr : within_from (length (parts ds)) fs R (parts ds) = true).
  { change (length (parts ds)) with (S (length (map Normal ds))). cbn [within_from]. rewrite E. by apply bool_decide_eq_true. }
  split.
  - intros e Es.
    destruct (resolve_dot fs (parts ds) R false W (parts_ne ds) E D) as [_ Ep].
    eapply (apply_entry_whiteout _ _ _ _ _ _ _ _ _ _ _ (parts ds ++ [CurDir; ParentDir])); [exact Es|done..| | |].
    + change (parts ds ++ [CurDir; ParentDir] = (parts ds ++ [CurDir]) ++ [ParentDir]). by rewrite <- app_assoc.
    + unfold within_root. by rewrite path_parent_dot, path_parent_up.
    + apply remove_any_empties; [done..|by apply wf_parent|by rewrite strip_slash_parent].
  - intros e p t x Es El Ex Dx.
    destruct (resolve_dot fs _ x false W (parts_ne _) Ex Dx) as [Ed _].
    eapply (apply_entry_whiteout _ _ _ _ _ _ _ _ _ _ _ (parts (ds ++ [p]) ++ [CurDir])); [exact Es|done..| | |].
    + change (parts (ds ++ [p]) ++ [CurDir] = (parts ds ++ [Normal p]) ++ [CurDir]). by rewrite parts_snoc.
    + unfold within_root. rewrite path_parent_dot, app_nil_r, path_parent_parts. done.
    + apply remove_any_empties; [done..|]. rewrite parts_snoc, strip_slash_dot, last_snoc_path.
      rewrite resolve_name, E, D, El by done. intros y [= <-] <-. rewrite is_dir_at_snoc, El in Dx. done.
Qed.

(** ** Concrete images *)

Definition fs_wf_b (fs : Fs) : bool :=
  forallb (fun kn : Real * Node => negb (bool_decide (fst kn = [])) && is_dir_at fs (removelast (fst kn))) (map_to_list fs).

Lemma fs_wf_check (fs : Fs) : fs_wf_b fs = true -> fs_wf fs.
Proof.
  unfold fs_wf_b. intros Hb. rewrite forallb_forall in Hb.
  assert (G : forall k n, fs !! k = Some n -> k <> [] /\ is_dir_at fs (removelast k) = true).
  { intros k n E. specialize (Hb (k, n)). cbn [fst] in Hb.
    assert (Hin : In (k, n) (map_to_list fs)) by (apply list_elem_of_In, elem_of_map_to_list, E).
    apply Hb, andb_true_iff in Hin as [H1 H2]. split; [|done]. intros ->. by rewrite bool_decide_eq_true_2 in H1. }
  split.
  - destruct (fs !! []) eqn:E; [|done]. by destruct (G _ _ E).
  - intros k s [n E]. destruct (G _ _ E) as [_ D]. by rewrite removelast_last in D.
Qed.

(** A host with a directory [out], a file in it, and [work], where the image
    [img] of the second host already holds a link to [out]. *)
Definition host : Fs :=
  <[["work"] := NDir 0x1ed]> (<[["out"] := NDir 0x1c0]> (<[["out"; "secret"] := NFile [1; 2; 3] 0x180]> ∅)).
Definition host_img : Fs :=
  <[["work"; "img"; "p"] := NLink (parts ["out"])]> (<[["work"; "img"] := NDir 0x1ed]> host).

Definition entry (ns : list string) (k : EntryType) (link : option Path) (data : list Z) : TarEntry :=
  mkTar (map Normal ns) k (Some 0x1a4) link data.

(** A link out of the image, a file written through it, one beside it. *)
Definition evil_layer : list (option TarEntry) := [
  Some (entry ["p"] TSymlink (Some (parts ["out"])) []);
  Some (entry ["p"; "pwned"] TRegular None [9]);
  Some (entry ["etc"; "motd"] TRegular None [4; 5]);
  Some (entry ["etc"; ".wh.passwd"] TRegular None [])].

Lemma evil_plain (e : TarEntry) : Some e ∈ concat [evil_layer] -> plain_whiteout e.
Proof.
  unfold plain_whiteout. cbn [concat evil_layer app]. intros He rel n t Hs Hn Ht.
  repeat (apply elem_of_cons in He as [[= ->]|He];
    [vm_compute in Hs; injection Hs as <-; vm_compute in Hn; injection Hn as <-; vm_compute in Ht; first [discriminate Ht|by injection Ht as <-]|]).
  by apply elem_of_nil in He.
Qed.

Lemma flatten_contained_witness :
  let r := flatten_limited 0x1ed 0x1a4 true host [evil_layer] (parts ["work"; "img"]) 100 in
  (fs_wf (fst r) /\ forall k, ~ (["work"] ++ ["img"]) `prefix_of` k -> same_node (host !! k) (fst r !! k)) /\
  snd r = true /\ fst r !! ["work"; "img"; "etc"; "motd"] = Some (NFile [4; 5] 0x1a4).
Proof.
  split; [|by vm_compute].
  eapply (flatten_contained 0x1ed 0x1a4 true ["work"] "img" ["work"] [evil_layer] 100 host);
    [exact evil_plain|by apply fs_wf_check; vm_compute|by vm_compute|by vm_compute|apply surjective_pairing].
Defined.

Lemma flatten_budget_witness :
  let r := apply_entries 0x1ed 0x1a4 true (parts ["work"; "img"]) ["work"; "img"] 1 host_img 0 evil_layer in
  charged 1 0 host_img (fst r) (snd r) /\ snd r = None.
Proof.
  split; [|by vm_compute].
  eapply (flatten_budget 0x1ed 0x1a4 true (parts ["work"; "img"]) ["work"; "img"] 1 evil_layer host_img); [|lia|apply surjective_pairing].
  intros e He. repeat (apply elem_of_cons in He as [[= ->]|He]; [done|]). by apply elem_of_nil in He.
Defined.

Lemma flatten_writes_file_witness :
  let e := entry ["etc"; "motd"] TRegular None [4; 5] in
  let r := apply_entry 0x1ed 0x1a4 true (parts ["work"; "img"]) ["work"; "img"] 100 host_img 0 e in
  snd r = Some 2 /\ exists q, canonicalize (fst r) (parts (["work"; "img"] ++ ["etc"] ++ ["motd"])) = inl q /\
    below ["work"; "img"] q /\ fst r !! q = Some (NFile [4; 5] 0x1a4).
Proof.
  cbv zeta. assert (Hr : snd (apply_entry 0x1ed 0x1a4 true (parts ["work"; "img"]) ["work"; "img"] 100 host_img 0
    (entry ["etc"; "motd"] TRegular None [4; 5])) = Some 2) by (vm_compute; reflexivity). split; [exact Hr|].
  assert (W : fs_wf host_img) by (apply fs_wf_check; vm_compute; reflexivity).
  destruct (flatten_writes_file 0x1ed 0x1a4 true ["work"; "img"] ["etc"] "motd" ["work"; "img"] 100 host_img _ 0
    (entry ["etc"; "motd"] TRegular None [4; 5]) _ W ltac:(lia) ltac:(lia) eq_refl eq_refl eq_refl
    ltac:(vm_compute; reflexivity) (surjective_pairing _)) as [_ F].
  exact (proj2 (F 2 Hr)).
Defined.

Lemma whiteout_escapes_witness :
  let f := fun ns => apply_entry 0x1ed 0x1a4 true (parts ["work"; "img"]) ["work"; "img"] 100 host_img 0 (entry ns TRegular None []) in
  f [".wh..."] = (delete_below ["work"] host_img, None) /\ f ["p"; ".wh."] = (delete_below ["out"] host_img, None) /\
  fst (f ["p"; ".wh."]) !! ["out"; "secret"] = None.
Proof.
  cbv zeta. assert (W : fs_wf host_img) by (apply fs_wf_check; vm_compute; reflexivity).
  destruct (whiteout_escapes 0x1ed 0x1a4 true ["work"; "img"] ["work"; "img"] 100 host_img 0 W
    ltac:(vm_compute; reflexivity) ltac:(vm_compute; reflexivity)) as [A B].
  assert (B' := B (entry ["p"; ".wh."] TRegular None []) "p" (parts ["out"]) ["out"]
    ltac:(vm_compute; reflexivity) ltac:(vm_compute; reflexivity) ltac:(vm_compute; reflexivity) ltac:(vm_compute; reflexivity)).
  split; [exact (A (entry [".wh..."] TRegular None []) ltac:(vm_compute; reflexivity))|].
  split; [exact B'|]. rewrite B'. vm_compute. reflexivity.
Defined.

(** A directory entry with the name of an earlier link changes the mode of the
    host's directory the link leads to. *)
Theorem directory_entry_chmods_outside :
  let r := apply_entry 0x1ed 0x1a4 true (parts ["work"; "img"]) ["work"; "img"] 100 host_img 0 (entry ["p"] TDirectory None []) in
  host_img !! ["out"] = Some (NDir 0x1c0) /\ fst r !! ["out"] = Some (NDir 0x1a4) /\ snd r = Some 0.
Proof. by vm_compute. Qed.

(** Where hard links fail, the copy made instead follows a link in last place:
    an image can take in a file of the host. *)
Theorem hard_link_copies_host_file :
  let es := [Some (entry ["q"] TSymlink (Some (parts ["out"; "secret"])) []); Some (entry ["loot"] TLink (Some [Normal "q"]) [])] in
  let r := apply_entries 0x1ed 0x1a4 false (parts ["work"; "img"]) ["work"; "img"] 100 host_img 0 es in
  fst r !! ["work"; "img"; "loot"] = Some (NFile [1; 2; 3] 0x180) /\ snd r = Some 0.
Proof. by vm_compute. Qed.
