(* ===== verification/Registry.v ===== *)
(** * Registry: image references and the registry client
    (crates/amber-image/src/registry.rs)

    Reference parsing, the bearer-token flow, manifests, and blobs fetched
    into a cache directory of the host's file system ([Fs]). HTTP, serde's
    JSON values and sha256 are the crates': interfaces. Responses are what a
    server, or whoever is on the way to it, may send. *)

From S2P Require Import Prelude Fs.

(** ** Strings *)

Definition ch (s : string) : Ascii.ascii := match s with String c _ => c | EmptyString => Ascii.zero end.

(** [split_once], [rsplit_once] and [contains] for one character. *)
Fixpoint split_once (c : Ascii.ascii) (s : string) : option (string * string) :=
  match s with
  | EmptyString => None
  | String x s' =>
      if Ascii.eqb x c then Some (EmptyString, s')
      else match split_once c s' with Some (a, b) => Some (String x a, b) | None => None end
  end.
Fixpoint rsplit_once (c : Ascii.ascii) (s : string) : option (string * string) :=
  match s with
  | EmptyString => None
  | String x s' =>
      match rsplit_once c s' with
      | Some (a, b) => Some (String x a, b)
      | None => if Ascii.eqb x c then Some (EmptyString, s') else None
      end
  end.
Definition contains (c : Ascii.ascii) (s : string) : bool := match split_once c s with Some _ => true | None => false end.
Fixpoint strip_prefix (p s : string) : option string :=
  match p, s with
  | EmptyString, _ => Some s
  | String x p', String y s' => if Ascii.eqb x y then strip_prefix p' s' else None
  | _, _ => None
  end.

(** [str::find]: what follows the first occurrence. *)
Fixpoint after (needle s : string) : option string :=
  match strip_prefix needle s with
  | Some r => Some r
  | None => match s with String _ s' => after needle s' | EmptyString => None end
  end.

Definition DQUOTE : Ascii.ascii := Ascii.ascii_of_nat 34.

(** ** References *)

Definition MAX_BLOB : Z := Z.shiftl 4 30.
Definition DEFAULT_REGISTRY : string := "registry-1.docker.io".

Record Reference := mkReference { registry : string; repository : string; reference : string }.

Definition display (r : Reference) : string := registry r +:+ "/" +:+ repository r +:+ ":" +:+ reference r.

(** The first component is a host. *)
Definition looks_like_host (head : string) : bool :=
  contains (ch ".") head || contains (ch ":") head || String.eqb head "localhost".

Definition parse (s : string) : option Reference :=
  match s with
  | EmptyString => None
  | _ =>
      let '(reg, rest) :=
        match split_once (ch "/") s with
        | Some (head, tail) => if looks_like_host head then (head, tail) else (DEFAULT_REGISTRY, s)
        | None => (DEFAULT_REGISTRY, s)
        end in
      let reg := if String.eqb reg "docker.io" then DEFAULT_REGISTRY else reg in
      let '(repo, ref) :=
        match split_once (ch "@") rest with
        | Some (repo, dig) => (repo, dig)
        | None =>
            match rsplit_once (ch ":") rest with
            | Some (repo, tag) => if contains (ch "/") tag then (rest, "latest") else (repo, tag)
            | None => (rest, "latest")
            end
        end in
      let repo := if String.eqb reg DEFAULT_REGISTRY && negb (contains (ch "/") repo) then "library/" +:+ repo else repo in
      Some (mkReference reg repo ref)
  end.

(** ** Addresses in a realm *)

(** The standard library's address parsers: a number of at most [max] digits,
    a leading zero only alone where [zeros] forbids more. *)
Definition digit_of (radix : Z) (c : Ascii.ascii) : option Z :=
  let n := Z.of_nat (Ascii.nat_of_ascii c) in
  let d := if (48 <=? n) && (n <=? 57) then n - 48 else if (97 <=? n) && (n <=? 102) then n - 87
           else if (65 <=? n) && (n <=? 70) then n - 55 else 99 in
  if d <? radix then Some d else None.
Fixpoint read_digits (radix : Z) (max : nat) (acc : Z) (s : string) : Z * nat * string :=
  match max, s with
  | S m, String c s' =>
      match digit_of radix c with
      | Some d => let '(v, k, r) := read_digits radix m (acc * radix + d) s' in (v, S k, r)
      | None => (acc, O, s)
      end
  | _, _ => (acc, O, s)
  end.
Definition more_digits (radix : Z) (s : string) : bool :=
  match s with String c _ => match digit_of radix c with Some _ => true | None => false end | EmptyString => false end.
Definition read_number (radix : Z) (max : nat) (limit : Z) (zero_prefix : bool) (s : string) : option (Z * string) :=
  let '(v, k, r) := read_digits radix max 0 s in
  if (k =? 0)%nat then None
  else if more_digits radix r then None
  else if limit <? v then None
  else if negb zero_prefix && (1 <? k)%nat && (match s with String c _ => Ascii.eqb c (ch "0") | EmptyString => false end) then None
  else Some (v, r).

Definition read_char (c : Ascii.ascii) (s : string) : option string :=
  match s with String x r => if Ascii.eqb x c then Some r else None | EmptyString => None end.
(** [read_separator]: the separator first, but before the first item. *)
Definition read_sep (c : Ascii.ascii) (index : nat) (s : string) : option string :=
  match index with O => Some s | _ => read_char c s end.

Fixpoint read_octets (n index : nat) (s : string) : option (list Z * string) :=
  match n with
  | O => Some ([], s)
  | S n' =>
      s1 ← read_sep (ch ".") index s; '(v, s2) ← read_number 10 3 255 false s1;
      '(l, s3) ← read_octets n' (S index) s2; Some (v :: l, s3)
  end.
Definition read_ipv4 : string -> option (list Z * string) := read_octets 4 0.

(** Groups of an IPv6 address, an IPv4 one being the last two; how many were
    read, whether they ended in one, and the rest. *)
Fixpoint read_groups (room index : nat) (s : string) : list Z * bool * string :=
  match room with
  | O => ([], false, s)
  | S room' =>
      match (if (room' =? 0)%nat then None else s1 ← read_sep (ch ":") index s; read_ipv4 s1) with
      | Some ([a; b; c; d], s2) => ([a * 256 + b; c * 256 + d], true, s2)
      | _ =>
          match (s1 ← read_sep (ch ":") index s; read_number 16 4 0xffff true s1) with
          | Some (g, s2) => let '(l, v4, s3) := read_groups room' (S index) s2 in (g :: l, v4, s3)
          | None => ([], false, s)
          end
      end
  end.
Definition read_ipv6 (s : string) : option (list Z * string) :=
  let '(hd, v4, s1) := read_groups 8 0 s in
  if (length hd =? 8)%nat then Some (hd, s1)
  else if v4 then None
  else
    s2 ← read_char (ch ":") s1; s3 ← read_char (ch ":") s2;
    let '(tl, _, s4) := read_groups (7 - length hd) 0 s3 in
    Some (hd ++ replicate (8 - length hd - length tl) 0 ++ tl, s4).

(** [str::parse]: the whole string. *)
Definition whole {A} (o : option (A * string)) : option A :=
  match o with Some (x, EmptyString) => Some x | _ => None end.
Definition parse_ipv4 (s : string) : option (list Z) := whole (read_ipv4 s).
Definition parse_ipv6 (s : string) : option (list Z) := whole (read_ipv6 s).

Definition ipv4_internal (o : list Z) : bool :=
  match o with
  | [a; b; c; d] =>
      (a =? 127) || ((a =? 169) && (b =? 254))
      || ((a =? 10) || ((a =? 172) && ((16 <=? b) && (b <=? 31))) || ((a =? 192) && (b =? 168)))
      || ((a =? 0) && (b =? 0) && (c =? 0) && (d =? 0))
  | _ => false
  end.
Definition ipv6_internal (g : list Z) : bool :=
  bool_decide (g = [0; 0; 0; 0; 0; 0; 0; 1]) || bool_decide (g = [0; 0; 0; 0; 0; 0; 0; 0]).

(** The text up to the first character among [seps], and what follows the
    last ['@']. *)
Fixpoint up_to (seps : list Ascii.ascii) (s : string) : string :=
  match s with
  | String x s' => if existsb (Ascii.eqb x) seps then EmptyString else String x (up_to seps s')
  | EmptyString => EmptyString
  end.
Definition after_last (c : Ascii.ascii) (s : string) : string :=
  match rsplit_once c s with Some (_, r) => r | None => s end.

Definition lower (c : Ascii.ascii) : Ascii.ascii :=
  let n := Ascii.nat_of_ascii c in if (65 <=? n)%nat && (n <=? 90)%nat then Ascii.ascii_of_nat (n + 32) else c.
Fixpoint eq_ignore_ascii_case (a b : string) : bool :=
  match a, b with
  | EmptyString, EmptyString => true
  | String x a', String y b' => Ascii.eqb (lower x) (lower y) && eq_ignore_ascii_case a' b'
  | _, _ => false
  end.

(** The host a URL's authority names, and the test on it. *)
Definition host_of (rest : string) : string :=
  let hostport := after_last (ch "@") (up_to [ch "/"; ch "?"; ch "#"] rest) in
  match strip_prefix "[" hostport with
  | Some h => up_to [ch "]"] h
  | None => up_to [ch ":"] hostport
  end.
Definition internal (host : string) : bool :=
  eq_ignore_ascii_case host "localhost"
  || match parse_ipv4 host with Some ip => ipv4_internal ip | None => false end
  || match parse_ipv6 host with Some ip => ipv6_internal ip | None => false end.

Definition validate_realm (realm : string) : bool :=
  match strip_prefix "https://" realm with Some rest => negb (internal (host_of rest)) | None => false end.

Definition challenge_field (challenge key : string) : option string :=
  rest ← after (key +:+ "=" +:+ String DQUOTE EmptyString) challenge;
  '(v, _) ← split_once DQUOTE rest; Some v.

(** ** Manifests *)

(** [crate::Error], without its texts. *)
Inductive Error :=
| EReference | EHttp | ERegistry | EJson | EDigest (want got : string) | EPack | EIo.

(** [serde_json::Value], by the accessors the client uses. *)
Class Json (J : Type) := {
  from_str : string -> option J;
  get_field : J -> string -> option J;   (** [v.get(k)] *)
  index : J -> string -> J;              (** [v[k]] *)
  as_str : J -> option string;
  as_array : J -> option (list J);
  get_index : J -> nat -> option J       (** [v.get(i)] *)
}.

Record Manifest := mkManifest { config_digest : string; layers : list string }.
Record ImageConfig := mkImageConfig {
  entrypoint : list string; cmd : list string; env : list string; working_dir : option string
}.

Section Values.
Context `{Json J}.

Definition parse_manifest (v : J) : Manifest + Error :=
  match as_str (index (index v "config") "digest") with
  | None => inr ERegistry
  | Some d =>
      match as_array (index v "layers") with
      | None => inr ERegistry
      | Some ls => inl (mkManifest d (omap (fun l => as_str (index l "digest")) ls))
      end
  end.

Definition is_arm64_linux (m : J) : bool :=
  String.eqb (default EmptyString (as_str (index (index m "platform") "architecture"))) "arm64"
  && String.eqb (default EmptyString (as_str (index (index m "platform") "os"))) "linux".
Fixpoint pick_loop (ms : list J) : string + Error :=
  match ms with
  | [] => inr ERegistry
  | m :: ms' =>
      if is_arm64_linux m then match as_str (index m "digest") with Some d => inl d | None => pick_loop ms' end
      else pick_loop ms'
  end.
Definition pick_arm64 (v : J) : string + Error :=
  match as_array (index v "manifests") with None => inr ERegistry | Some ms => pick_loop ms end.

Definition str_list (v : J) : list string := match as_array v with Some a => omap as_str a | None => [] end.

Definition parse_config (body : string) : ImageConfig + Error :=
  match from_str body with
  | None => inr EJson
  | Some v =>
      let c := index v "config" in
      inl (mkImageConfig (str_list (index c "Entrypoint")) (str_list (index c "Cmd")) (str_list (index c "Env"))
             (d ← as_str (index c "WorkingDir"); if String.eqb d EmptyString then None else Some d))
  end.
End Values.

(** ** The client *)

(** What ureq makes of a response: its body as a string, or as the reads of
    a stream ([None] is a failed read, the end of the list the end of the
    body). Redirects and decoding are the crate's. *)
Record Body := mkBody { into_string : option string; reads : list (option (list Z)) }.
Inductive Answer := AOk (b : Body) | AStatus (code : Z) (www_authenticate : option string) | ATransport.

Record Req := mkReq { url : string; query : list (string * string); bearer : option string }.

Record Client := mkClient { base : string; c_repository : string; c_reference : string; token : option string }.

Definition Client_new (r : Reference) : Client :=
  mkClient ("https://" +:+ registry r +:+ "/v2/" +:+ repository r) (repository r) (reference r) None.

Definition set_token (c : Client) (t : string) : Client :=
  mkClient (base c) (c_repository c) (c_reference c) (Some t).

(** The client and the requests it has sent, the latest last. *)
Abbreviation Conn := (Client * list Req)%type.

(** [hex::encode(Sha256::digest(..))]. *)
Class Sha256 := sha256_hex : list Z -> string.

Definition str_bytes (s : string) : list Z := map (fun c => Z.of_nat (Ascii.nat_of_ascii c)) (Stdlib.Strings.String.list_ascii_of_string s).

(** The digest without its algorithm. *)
Definition digest_hex (digest : string) : string := default digest (strip_prefix "sha256:" digest).

Section Client_ops.
Context `{Json J} `{Sha256}.
(** What the network answers, given everything sent so far. *)
Variable web : list Req -> Answer.

Definition send (s : Conn) (r : Req) : Conn * Answer := let log := snd s ++ [r] in ((fst s, log), web log).
Definition request (s : Conn) (u : string) : Conn * Answer := send s (mkReq u [] (token (fst s))).

(** The token of a response, which Docker and OCI name differently. *)
Definition token_of (b : Body) : string + Error :=
  match into_string b with
  | None => inr EIo
  | Some body =>
      match from_str body with
      | None => inr EJson
      | Some v =>
          match as_str (index v "token") with
          | Some t => inl t
          | None => match as_str (index v "access_token") with Some t => inl t | None => inr ERegistry end
          end
      end
  end.

Definition authenticate (s : Conn) (challenge : string) : Conn * option Error :=
  match challenge_field challenge "realm" with
  | None => (s, Some ERegistry)
  | Some realm =>
      if negb (validate_realm realm) then (s, Some ERegistry)
      else
        let service := default EmptyString (challenge_field challenge "service") in
        let scope := "repository:" +:+ c_repository (fst s) +:+ ":pull" in
        match send s (mkReq realm [("service", service); ("scope", scope)] None) with
        | (s1, AOk b) =>
            match token_of b with inl t => ((set_token (fst s1) t, snd s1), None) | inr e => (s1, Some e) end
        | (s1, _) => (s1, Some EHttp)
        end
  end.

Definition get (s : Conn) (u : string) : Conn * (Body + Error) :=
  match request s u with
  | (s1, AOk b) => (s1, inl b)
  | (s1, AStatus code www) =>
      if code =? 401 then
        match authenticate s1 (default EmptyString www) with
        | (s2, Some e) => (s2, inr e)
        | (s2, None) => match request s2 u with (s3, AOk b) => (s3, inl b) | (s3, _) => (s3, inr EHttp) end
        end
      else (s1, inr EHttp)
  | (s1, _) => (s1, inr EHttp)
  end.

Definition get_json (s : Conn) (u : string) : Conn * (J + Error) :=
  match get s u with
  | (s1, inr e) => (s1, inr e)
  | (s1, inl b) =>
      (s1, match into_string b with
           | None => inr EIo
           | Some body => match from_str body with Some v => inl v | None => inr EJson end
           end)
  end.

Definition manifest_url (s : Conn) (ref : string) : string := base (fst s) +:+ "/manifests/" +:+ ref.
Definition blob_url (s : Conn) (digest : string) : string := base (fst s) +:+ "/blobs/" +:+ digest.

Definition fetch_manifest (s : Conn) : Conn * (Manifest + Error) :=
  match get_json s (manifest_url s (c_reference (fst s))) with
  | (s1, inr e) => (s1, inr e)
  | (s1, inl v) =>
      match get_field v "manifests" with
      | None => (s1, parse_manifest v)
      | Some _ =>
          match pick_arm64 v with
          | inr e => (s1, inr e)
          | inl digest =>
              match get_json s1 (manifest_url s1 digest) with
              | (s2, inr e) => (s2, inr e)
              | (s2, inl v2) => (s2, parse_manifest v2)
              end
          end
      end
  end.

Definition fetch_config (s : Conn) (digest : string) : Conn * (ImageConfig + Error) :=
  match get s (blob_url s digest) with
  | (s1, inr e) => (s1, inr e)
  | (s1, inl b) =>
      (s1, match into_string b with
           | None => inr EIo
           | Some body =>
               let want := digest_hex digest in
               let got := sha256_hex (str_bytes body) in
               if negb (String.eqb got want) then inr (EDigest want got) else parse_config body
           end)
  end.
End Client_ops.

(** ** Blobs *)

(** A path from its text: separators repeat freely, one in front is the root
    and one at the end a final [CurDir]. *)
Fixpoint segments (s : string) : string * list string :=
  match s with
  | EmptyString => (EmptyString, [])
  | String x s' => let '(a, l) := segments s' in if Ascii.eqb x (ch "/") then (EmptyString, a :: l) else (String x a, l)
  end.
Fixpoint segs_path (l : list string) : Path :=
  match l with
  | [] => []
  | [EmptyString] => [CurDir]
  | s :: l' => path_of_name s ++ segs_path l'
  end.
Definition path_of_str (s : string) : Path :=
  match segments s with
  | (EmptyString, []) => []
  | (EmptyString, l) => RootDir :: segs_path l
  | (a, l) => path_of_name a ++ segs_path l
  end.

Inductive ReadEnd := RDone | RTooBig | RFail.

Section Blobs.
Context `{Json J} `{Sha256}.
Variable web : list Req -> Answer.
(** The mode of a new file, and how many bytes the disk has room for. *)
Variables (file_mode room : Z).

(** The copy loop: the bytes that reached the file and how it ended. *)
Fixpoint copy_loop (rs : list (option (list Z))) (acc : list Z) : list Z * ReadEnd :=
  match rs with
  | [] | Some [] :: _ => (acc, RDone)
  | None :: _ => (acc, RFail)
  | Some c :: rs' =>
      let total := zlen acc + zlen c in
      if MAX_BLOB <? total then (acc, RTooBig)
      else if room <? total then (acc ++ take (Z.to_nat (room - zlen acc)) c, RFail)
      else copy_loop rs' (acc ++ c)
  end.

Definition blob_path (cache : Path) (digest : string) : Path := join cache (path_of_str (digest_hex digest)).
Definition partial_path (cache : Path) (digest : string) : Path :=
  join cache (path_of_str (digest_hex digest +:+ ".partial")).

(** From the response on. *)
Definition store_blob (fs : Fs) (cache : Path) (digest : string) (b : Body) : Fs * (Path + Error) :=
  let hex := digest_hex digest in
  let tmp := partial_path cache digest in
  match file_create fs tmp [] file_mode with
  | (_, false) => (fs, inr EIo)
  | (fs1, true) =>
      let '(data, how) := copy_loop (reads b) [] in
      let fs2 := fst (file_create fs1 tmp data file_mode) in
      match how with
      | RFail => (fs2, inr EIo)
      | RTooBig => (fst (remove_file fs2 tmp), inr ERegistry)
      | RDone =>
          let got := sha256_hex data in
          if negb (String.eqb got hex) then (fst (remove_file fs2 tmp), inr (EDigest hex got))
          else match rename fs2 tmp (blob_path cache digest) with
               | (fs3, true) => (fs3, inl (blob_path cache digest))
               | (fs3, false) => (fs3, inr EIo)
               end
      end
  end.

Definition fetch_blob (s : Conn) (fs : Fs) (cache : Path) (digest : string) : Conn * Fs * (Path + Error) :=
  if fs_exists fs (blob_path cache digest) then (s, fs, inl (blob_path cache digest))
  else match get web s (blob_url s digest) with
       | (s1, inr e) => (s1, fs, inr e)
       | (s1, inl b) => let '(fs1, r) := store_blob fs cache digest b in (s1, fs1, r)
       end.
End Blobs.

(** ** Splitting *)

#[local] Arguments Ascii.eqb : simpl never.

Lemma app_string x (a b : string) : String x a +:+ b = String x (a +:+ b).
Proof. done. Qed.

Lemma contains_cons c x s : contains c (String x s) = Ascii.eqb x c || contains c s.
Proof. unfold contains. simpl. destruct (Ascii.eqb x c); [done|]. by destruct (split_once c s) as [[]|]. Qed.

Lemma contains_app c a b : contains c (a +:+ b) = contains c a || contains c b.
Proof. induction a as [|x a IH]; [done|]. by rewrite app_string, !contains_cons, IH, orb_assoc. Qed.

Lemma split_once_app c a b : contains c a = false -> split_once c (a +:+ String c b) = Some (a, b).
Proof.
  induction a as [|x a IH]; [intros _; change (EmptyString +:+ String c b) with (String c b); simpl; by rewrite Ascii.eqb_refl|].
  rewrite contains_cons, orb_false_iff. intros [E N]. rewrite app_string. simpl. rewrite E. by rewrite IH.
Qed.

Lemma split_once_none c a : contains c a = false -> split_once c a = None.
Proof. unfold contains. by destruct (split_once c a). Qed.

Lemma rsplit_once_none c a : contains c a = false -> rsplit_once c a = None.
Proof.
  induction a as [|x a IH]; [done|]. rewrite contains_cons, orb_false_iff. intros [E N]. simpl. by rewrite IH, E.
Qed.

Lemma rsplit_once_app c a b : contains c b = false -> rsplit_once c (a +:+ String c b) = Some (a, b).
Proof.
  intros N. induction a as [|x a IH].
  - change (EmptyString +:+ String c b) with (String c b). simpl. by rewrite rsplit_once_none, Ascii.eqb_refl.
  - rewrite app_string. simpl. by rewrite IH.
Qed.

Lemma strip_prefix_app p s : strip_prefix p (p +:+ s) = Some s.
Proof. induction p as [|x p IH]; [done|]. rewrite app_string. simpl. by rewrite Ascii.eqb_refl. Qed.

(** A parsed registry: one that display writes and parse reads back. *)
Definition host_name (reg : string) : Prop :=
  looks_like_host reg = true /\ contains (ch "/") reg = false /\ reg <> "docker.io".

Lemma looks_like_host_ne reg : looks_like_host reg = true -> reg <> EmptyString.
Proof. by intros E ->. Qed.

Lemma hub_library reg repo : (reg = DEFAULT_REGISTRY -> contains (ch "/") repo = true) ->
  (if String.eqb reg DEFAULT_REGISTRY && negb (contains (ch "/") repo) then "library/" +:+ repo else repo) = repo.
Proof. intros L. destruct (String.eqb_spec reg DEFAULT_REGISTRY) as [E|]; [by rewrite L|done]. Qed.

(** A reference with an explicit host is read back as written, by tag
    and by digest; the repository on Docker Hub has a namespace. *)
Theorem reference_roundtrip (r : Reference) :
  host_name (registry r) ->
  (registry r = DEFAULT_REGISTRY -> contains (ch "/") (repository r) = true) ->
  contains (ch "@") (repository r) = false ->
  (contains (ch ":") (reference r) = false -> contains (ch "/") (reference r) = false ->
   contains (ch "@") (reference r) = false -> parse (display r) = Some r)
  /\ parse (registry r +:+ "/" +:+ repository r +:+ "@" +:+ reference r) = Some r.
Proof.
  destruct r as [reg repo ref]. cbn [registry repository reference]. intros (L & S & N) Hub At. unfold display, parse.
  assert (E0 : forall x, exists c s, reg +:+ x = String c s).
  { intros x. apply looks_like_host_ne in L. destruct reg as [|c s]; [done|]. by exists c, (s +:+ x). }
  apply String.eqb_neq in N. split.
  - intros C1 C2 C3. cbn [registry repository reference].
    destruct (E0 ("/" +:+ repo +:+ ":" +:+ ref)) as (c & s & E). rewrite E, <- E.
    change ("/" +:+ repo +:+ ":" +:+ ref) with (String (ch "/") (repo +:+ String (ch ":") ref)).
    rewrite split_once_app by done. rewrite L, N.
    rewrite split_once_none by (rewrite contains_app, At, contains_cons; exact C3).
    rewrite rsplit_once_app by done. rewrite C2. by rewrite hub_library.
  - destruct (E0 ("/" +:+ repo +:+ "@" +:+ ref)) as (c & s & E). rewrite E, <- E.
    change ("/" +:+ repo +:+ "@" +:+ ref) with (String (ch "/") (repo +:+ String (ch "@") ref)).
    rewrite split_once_app by done. rewrite L, N. rewrite split_once_app by done. by rewrite hub_library.
Qed.

Lemma reference_roundtrip_witness :
  parse "ghcr.io:443/a/b:v1" = Some (mkReference "ghcr.io:443" "a/b" "v1")
  /\ parse "docker.io/alpine" = Some (mkReference DEFAULT_REGISTRY "library/alpine" "latest").
Proof.
  split; [|reflexivity]. refine (proj1 (reference_roundtrip (mkReference "ghcr.io:443" "a/b" "v1") _ _ _) _ _ _).
  - repeat split; discriminate.
  - reflexivity || discriminate.
  - reflexivity.
  - reflexivity.
  - reflexivity.
  - reflexivity.
Defined.

(** A tag next to a digest stays in the repository's name. *)
Theorem tag_and_digest :
  parse "ghcr.io/a/b:v1@sha256:00" = Some (mkReference "ghcr.io" "a/b:v1" "sha256:00").
Proof. reflexivity. Qed.

(** ** Where requests go *)

Section Session.
Context `{Json J} `{Sha256}.
Variable web : list Req -> Answer.
Variables (file_mode room : Z).

(** The calls an image build makes, in any order. *)
Inductive Op := OpManifest | OpConfig (digest : string) | OpBlob (cache : Path) (digest : string).
Definition session_step (s : Conn * Fs) (o : Op) : Conn * Fs :=
  match o with
  | OpManifest => (fst (fetch_manifest web (fst s)), snd s)
  | OpConfig d => (fst (fetch_config web (fst s) d), snd s)
  | OpBlob cache d => fst (fetch_blob web file_mode room (fst s) (snd s) cache d)
  end.

(** A request under the repository's base URL, or for a token: to a realm
    that passed the check, and without the bearer token. *)
Definition to_repository (b : string) (r : Req) : Prop := exists path, url r = b +:+ "/" +:+ path /\ query r = [].
Definition to_realm (r : Req) : Prop := validate_realm (url r) = true /\ bearer r = None.
Definition expected (b : string) (r : Req) : Prop := to_repository b r \/ to_realm r.

Definition tame (b : string) (s : Conn) : Prop := base (fst s) = b /\ Forall (expected b) (snd s).

Lemma send_tame b s r s1 a : tame b s -> expected b r -> send web s r = (s1, a) -> tame b s1.
Proof.
  intros [B T] X E. injection E as <- _. split; [done|]. cbn [snd]. apply Forall_app. split; [done|]. by constructor.
Qed.

Lemma authenticate_tame b s c s1 e : tame b s -> authenticate web s c = (s1, e) -> tame b s1.
Proof.
  intros T. unfold authenticate. destruct (challenge_field c "realm") as [realm|]; [|by intros [= <- _]].
  destruct (validate_realm realm) eqn:V; [|by intros [= <- _]]. cbn [negb].
  destruct (send web s _) as [s2 a] eqn:E.
  eapply send_tame in E as T2; [|exact T|right; by split].
  destruct a as [bd| |]; try by intros [= <- _].
  destruct (token_of bd); intros [= <- _]; exact T2.
Qed.

Lemma get_tame b s path s1 o : tame b s -> get web s (b +:+ "/" +:+ path) = (s1, o) -> tame b s1.
Proof.
  intros T. unfold get, request.
  assert (X : forall t, expected b (mkReq (b +:+ "/" +:+ path) [] t)) by (intros t; left; by exists path).
  destruct (send web s _) as [s2 a] eqn:E. eapply send_tame in E as T2; [|exact T|apply X].
  destruct a as [bd|code www|]; try by intros [= <- _].
  destruct (code =? 401); [|by intros [= <- _]].
  destruct (authenticate web s2 _) as [s3 [e|]] eqn:A; apply (authenticate_tame b) in A; try done; [by intros [= <- _]|].
  destruct (send web s3 _) as [s4 a4] eqn:E4. eapply send_tame in E4 as T4; [|exact A|apply X].
  destruct a4; by intros [= <- _].
Qed.

Lemma get_json_tame b s path s1 o : tame b s -> get_json web s (b +:+ "/" +:+ path) = (s1, o) -> tame b s1.
Proof.
  intros T. unfold get_json. destruct (get web s _) as [s2 [bd|e]] eqn:E; apply (get_tame b) in E; try done; by intros [= <- _].
Qed.

Lemma manifest_url_tame b s ref : tame b s -> manifest_url s ref = b +:+ "/" +:+ ("manifests/" +:+ ref).
Proof. intros [<- _]. done. Qed.

Lemma fetch_manifest_tame b s s1 o : tame b s -> fetch_manifest web s = (s1, o) -> tame b s1.
Proof.
  intros T. unfold fetch_manifest. rewrite (manifest_url_tame b) by done.
  destruct (get_json web s _) as [s2 [v|e]] eqn:E; apply (get_json_tame b) in E; try done; [|by intros [= <- _]].
  destruct (get_field v "manifests"); [|by intros [= <- _]]. destruct (pick_arm64 v) as [d|]; [|by intros [= <- _]].
  rewrite (manifest_url_tame b) by done.
  destruct (get_json web s2 _) as [s3 [v3|e3]] eqn:E3; apply (get_json_tame b) in E3; try done; by intros [= <- _].
Qed.

Lemma session_step_tame b s o : tame b (fst s) -> tame b (fst (session_step s o)).
Proof.
  intros T. destruct s as [s fs], o as [|d|cache d]; cbn [session_step fst snd] in *.
  - destruct (fetch_manifest web s) as [s1 r] eqn:E. by apply (fetch_manifest_tame b) in E.
  - unfold fetch_config. change (blob_url s d) with (base (fst s) +:+ "/" +:+ ("blobs/" +:+ d)). rewrite (proj1 T).
    destruct (get web s _) as [s1 [bd|e]] eqn:E; by apply (get_tame b) in E.
  - unfold fetch_blob. destruct (fs_exists fs _); [done|].
    change (blob_url s d) with (base (fst s) +:+ "/" +:+ ("blobs/" +:+ d)). rewrite (proj1 T).
    destruct (get web s _) as [s1 [bd|e]] eqn:E; apply (get_tame b) in E; try done. by destruct (store_blob _ _ fs cache d bd).
Qed.

End Session.

(** ** Realms *)

Lemma up_to_app seps a b : Forall (fun c => contains c a = false) seps -> up_to seps (a +:+ b) = a +:+ up_to seps b.
Proof.
  intros F. induction a as [|x a IH]; [done|]. rewrite !app_string. cbn [up_to].
  destruct (existsb (Ascii.eqb x) seps) eqn:E.
  - apply existsb_exists in E as (c & I & E). rewrite Forall_forall in F.
    specialize (F c (proj2 (list_elem_of_In _ _) I)). rewrite contains_cons, E in F. done.
  - f_equal. apply IH. eapply Forall_impl; [exact F|]. intros c Hc. cbv beta in *. rewrite contains_cons, orb_false_iff in Hc. tauto.
Qed.

Lemma app_nil_string (s : string) : s +:+ EmptyString = s.
Proof. induction s as [|x s IH]; [done|]. by rewrite app_string, IH. Qed.

Lemma app_assoc_string (a b c : string) : (a +:+ b) +:+ c = a +:+ (b +:+ c).
Proof. induction a as [|x a IH]; [done|]. by rewrite !app_string, IH. Qed.

Lemma after_last_app c a b : contains c b = false -> after_last c (a +:+ String c b) = b.
Proof. intros N. unfold after_last. by rewrite rsplit_once_app. Qed.

Lemma after_last_none c a : contains c a = false -> after_last c a = a.
Proof. intros N. unfold after_last. by rewrite rsplit_once_none. Qed.

Definition SEPS : list Ascii.ascii := [ch "/"; ch "?"; ch "#"].
Definition free (cs : list Ascii.ascii) (s : string) : Prop := Forall (fun c => contains c s = false) cs.

Lemma free_app cs a b : free cs a -> free cs b -> free cs (a +:+ b).
Proof. unfold free. rewrite !Forall_forall. intros A B c I. by rewrite contains_app, A, B. Qed.

(** The parts of a URL after the scheme: user information, host, port, path. *)
Definition user_part (u : string) : Prop := u = EmptyString \/ exists v, u = v +:+ "@" /\ free SEPS v.
Definition port_part (p : string) : Prop := p = EmptyString \/ exists q, p = ":" +:+ q /\ free (ch "@" :: SEPS) q.
Definition path_part (p : string) : Prop := p = EmptyString \/ exists c q, p = String c q /\ c ∈ SEPS.
Definition plain_host (h : string) : Prop := free (ch "[" :: ch ":" :: ch "@" :: SEPS) h.

Lemma strip_bracket h port : contains (ch "[") h = false -> port_part port -> strip_prefix "[" (h +:+ port) = None.
Proof.
  intros N Q. destruct h as [|x h].
  - destruct Q as [->|(q & -> & _)]; done.
  - rewrite contains_cons, orb_false_iff in N. destruct N as [E _]. rewrite app_string. cbn [strip_prefix].
    rewrite Ascii.eqb_sym in E.
    by match goal with |- context [if ?b then _ else _] => replace b with false by (symmetry; exact E) end.
Qed.

Lemma host_of_parts user host port path :
  user_part user -> plain_host host -> port_part port -> path_part path ->
  host_of (user +:+ host +:+ port +:+ path) = host.
Proof.
  intros U P Q R. apply Forall_cons in P as [Pb P]. apply Forall_cons in P as [Pc P].
  pose proof P as P0. apply Forall_cons in P as [Pa Ps]. unfold host_of.
  assert (Ru : up_to SEPS path = EmptyString).
  { destruct R as [->|(c & q & -> & I)]; [done|]. cbn [up_to].
    assert (existsb (Ascii.eqb c) SEPS = true) as ->; [|done].
    apply existsb_exists. exists c. split; [by apply list_elem_of_In|apply Ascii.eqb_refl]. }
  assert (Qs : free SEPS port /\ contains (ch "@") (host +:+ port) = false).
  { rewrite contains_app, Pa. destruct Q as [->|(q & -> & Fq)].
    - split; [|done]. by repeat constructor.
    - apply Forall_cons in Fq as [Aq Sq]. split.
      + apply (free_app _ ":"); [by repeat constructor|done].
      + rewrite (contains_app _ ":"). exact Aq. }
  assert (E : after_last (ch "@") (up_to SEPS (user +:+ host +:+ port +:+ path)) = host +:+ port).
  { rewrite <- (app_assoc_string host), <- (app_assoc_string user).
    rewrite up_to_app, Ru, app_nil_string.
    - destruct U as [->|(v & -> & _)]; [exact (after_last_none _ _ (proj2 Qs))|].
      rewrite app_assoc_string. exact (after_last_app _ v _ (proj2 Qs)).
    - apply free_app; [|exact (free_app _ _ _ Ps (proj1 Qs))].
      destruct U as [->|(v & -> & Fv)]; [by repeat constructor|]. apply free_app; [done|]. by repeat constructor. }
  fold SEPS. rewrite E, strip_bracket by done. rewrite up_to_app by (constructor; [exact Pc|constructor]).
  destruct Q as [->|(q & -> & _)]; apply app_nil_string.
Qed.

(** *** Internal hosts *)

Fixpoint lowers (s : string) : string :=
  match s with String x s' => String (lower x) (lowers s') | EmptyString => EmptyString end.

Lemma eq_ignore_case_contains a b c :
  eq_ignore_ascii_case a b = true -> contains (lower c) (lowers b) = false -> contains c a = false.
Proof.
  revert b. induction a as [|x a IH]; intros [|y b] E N; try done. cbn [eq_ignore_ascii_case] in E.
  apply andb_prop in E as [E1 E2]. cbn [lowers] in N. rewrite contains_cons, orb_false_iff in N. destruct N as [N1 N2].
  rewrite contains_cons, (IH _ E2 N2), orb_false_r. destruct (Ascii.eqb_spec x c) as [->|]; [|done].
  apply Ascii.eqb_eq in E1. by rewrite E1, Ascii.eqb_refl in N1.
Qed.

Lemma localhost_plain h : eq_ignore_ascii_case h "localhost" = true -> plain_host h.
Proof. intros E. repeat constructor; by apply (eq_ignore_case_contains _ _ _ E). Qed.

(** A number below 256 in decimal. *)
Definition digit (d : Z) : Ascii.ascii := Ascii.ascii_of_nat (Z.to_nat (48 + d)).
Definition dec (n : Z) : string :=
  let ones := String (digit (n mod 10)) EmptyString in
  if n <? 10 then ones
  else let tens := String (digit (n / 10 mod 10)) ones in
       if n <? 100 then tens else String (digit (n / 100)) tens.
Definition octet (n : Z) : Prop := 0 <= n < 256.

Lemma digit_of_digit d : 0 <= d < 10 -> digit_of 10 (digit d) = Some d.
Proof.
  intros R. assert (In d [0;1;2;3;4;5;6;7;8;9]) as I by (cbn [In]; lia).
  cbn [In] in I. repeat (destruct I as [<-|I]; [reflexivity|]). done.
Qed.

Lemma digit_zero d : 0 < d < 10 -> Ascii.eqb (digit d) (ch "0") = false.
Proof.
  intros R. assert (In d [1;2;3;4;5;6;7;8;9]) as I by (cbn [In]; lia).
  cbn [In] in I. repeat (destruct I as [<-|I]; [reflexivity|]). done.
Qed.

Lemma read_digits_end max acc r : more_digits 10 r = false -> read_digits 10 max acc r = (acc, O, r).
Proof.
  intros N. destruct max as [|m], r as [|x r]; try done. cbn [read_digits more_digits] in *.
  by destruct (digit_of 10 x).
Qed.

Lemma read_digits_digit max acc d r : 0 <= d < 10 ->
  read_digits 10 (S max) acc (String (digit d) r) =
  let '(v, k, s) := read_digits 10 max (acc * 10 + d) r in (v, S k, s).
Proof. intros R. cbn [read_digits]. by rewrite digit_of_digit. Qed.

Lemma read_number_dec n r : octet n -> more_digits 10 r = false ->
  read_number 10 3 255 false (dec n +:+ r) = Some (n, r).
Proof.
  intros [R0 R1] N. unfold read_number, dec.
  pose proof (Z.mod_pos_bound n 10). pose proof (Z.mod_pos_bound (n / 10) 10).
  assert (D : n = 10 * (n / 10) + n mod 10) by (apply Z.div_mod; lia).
  assert (D2 : n / 10 = 10 * (n / 100) + n / 10 mod 10).
  { change 100 with (10 * 10). rewrite <- Z.div_div by lia. apply Z.div_mod; lia. }
  assert (0 <= n / 100 < 3) by (split; [apply Z.div_pos; lia|apply Z.div_lt_upper_bound; lia]).
  destruct (Z.ltb_spec n 10); [|destruct (Z.ltb_spec n 100)]; rewrite !app_string.
  all: rewrite !read_digits_digit by lia; change (EmptyString +:+ r) with r; rewrite read_digits_end by done; cbn [Nat.eqb].
  all: rewrite N; match goal with |- context [255 <? ?x] => replace x with n by lia end.
  all: destruct (Z.ltb_spec 255 n); [lia|]; try done; cbn [Nat.ltb Nat.leb negb andb].
  all: rewrite digit_zero; [done|lia].
Qed.

Definition dotted (a b c d : Z) : string :=
  dec a +:+ "." +:+ dec b +:+ "." +:+ dec c +:+ "." +:+ dec d.

Lemma dot_string s : "." +:+ s = String (ch ".") s.
Proof. done. Qed.

Lemma parse_ipv4_dotted a b c d : octet a -> octet b -> octet c -> octet d ->
  parse_ipv4 (dotted a b c d) = Some [a; b; c; d].
Proof.
  intros A B C D. unfold parse_ipv4, read_ipv4, dotted, whole. cbn [read_octets read_sep mbind option_bind].
  do 3 (rewrite read_number_dec by done; cbn [mbind option_bind];
        rewrite dot_string; cbn [read_char]; rewrite Ascii.eqb_refl; cbn [mbind option_bind]).
  rewrite <- (app_nil_string (dec d)). by rewrite read_number_dec.
Qed.

Lemma dec_plain n : octet n -> plain_host (dec n).
Proof.
  intros R. assert (F : forall c, digit_of 10 c = None -> contains c (dec n) = false).
  { intros c N. assert (G : forall d, 0 <= d < 10 -> Ascii.eqb (digit d) c = false).
    { intros d Rd. destruct (Ascii.eqb_spec (digit d) c) as [E|]; [|done]. by rewrite <- E, digit_of_digit in N. }
    unfold dec, octet in *.
    pose proof (Z.mod_pos_bound n 10). pose proof (Z.mod_pos_bound (n / 10) 10).
    assert (0 <= n / 100 < 3) by (split; [apply Z.div_pos; lia|apply Z.div_lt_upper_bound; lia]).
    destruct (n <? 10), (n <? 100); rewrite !contains_cons, !G by lia; done. }
  unfold plain_host, free, SEPS. repeat constructor; by apply F.
Qed.

Lemma dotted_plain a b c d : octet a -> octet b -> octet c -> octet d -> plain_host (dotted a b c d).
Proof.
  intros A B C D. unfold dotted, plain_host.
  assert (free (ch "[" :: ch ":" :: ch "@" :: SEPS) ".") by (by repeat constructor).
  repeat (apply free_app; [by apply dec_plain || done|]). by apply dec_plain.
Qed.

(** An internal host: localhost in any case, or an IPv4 address of the
    loopback, link-local, private or unspecified ones, in the usual text. *)
Inductive internal_host : string -> Prop :=
| ih_localhost h : eq_ignore_ascii_case h "localhost" = true -> internal_host h
| ih_ipv4 a b c d :
    octet a -> octet b -> octet c -> octet d ->
    a = 127 \/ a = 10 \/ (a = 169 /\ b = 254) \/ (a = 172 /\ 16 <= b <= 31) \/ (a = 192 /\ b = 168)
    \/ (a = 0 /\ b = 0 /\ c = 0 /\ d = 0) ->
    internal_host (dotted a b c d).

Lemma internal_host_internal h : internal_host h -> internal h = true.
Proof.
  unfold internal. intros [h' ->|a b c d A B C D R]; [done|].
  rewrite parse_ipv4_dotted by done. assert (ipv4_internal [a; b; c; d] = true) as ->; [|by rewrite orb_true_r].
  unfold ipv4_internal. rewrite !orb_true_iff, !andb_true_iff, !Z.eqb_eq, !Z.leb_le. lia.
Qed.

Lemma internal_host_plain h : internal_host h -> plain_host h.
Proof. intros [h' E|a b c d A B C D _]; [by apply localhost_plain|by apply dotted_plain]. Qed.

(** A token realm that is not https is refused, and so is one whose host
    is localhost or an internal IPv4 address, whatever user information,
    port and path surround it. *)
Theorem realm_internal_refused (user host port path : string) :
  user_part user -> internal_host host -> port_part port -> path_part path ->
  validate_realm ("https://" +:+ user +:+ host +:+ port +:+ path) = false
  /\ forall realm, strip_prefix "https://" realm = None -> validate_realm realm = false.
Proof.
  intros U I Q R. unfold validate_realm. split; [|by intros realm ->].
  rewrite strip_prefix_app, host_of_parts by (done || by apply internal_host_plain).
  by rewrite internal_host_internal.
Qed.

Lemma realm_internal_refused_witness :
  validate_realm ("https://" +:+ "a:b@" +:+ dotted 169 254 169 254 +:+ ":80" +:+ "/latest?x@y") = false.
Proof.
  refine (proj1 (realm_internal_refused "a:b@" (dotted 169 254 169 254) ":80" "/latest?x@y" _ _ _ _)).
  - right. exists "a:b". split; [reflexivity|]. repeat constructor.
  - apply ih_ipv4; unfold octet; lia.
  - right. exists "80". split; [reflexivity|]. repeat constructor.
  - right. exists (ch "/"), "latest?x@y". split; [reflexivity|]. apply list_elem_of_here.
Defined.

(** IPv6 has other ways to say the same: an IPv4-mapped address, the
    link-local and unique local ranges, and the root-terminated name. *)
Theorem realm_internal_accepted :
  parse_ipv6 "::ffff:169.254.169.254" = Some [0; 0; 0; 0; 0; 0xffff; 0xa9fe; 0xa9fe]
  /\ validate_realm "https://[::ffff:169.254.169.254]/latest" = true
  /\ validate_realm "https://[::ffff:127.0.0.1]/token" = true
  /\ validate_realm "https://[fe80::1]/token" = true
  /\ validate_realm "https://[fd00::1]/token" = true
  /\ validate_realm "https://localhost./token" = true
  /\ validate_realm "https://[::1]/token" = false
  /\ validate_realm "https://[0:0::0:1]/token" = false.
Proof. repeat split; vm_compute; reflexivity. Qed.

(** ** The blob cache *)

(** A name that is one path component. *)
Definition plain_file (s : string) : Prop :=
  contains (ch "/") s = false /\ s <> EmptyString /\ s <> "." /\ s <> "..".

Lemma segments_plain s : contains (ch "/") s = false -> segments s = (s, []).
Proof.
  induction s as [|x s IH]; [done|]. rewrite contains_cons, orb_false_iff. intros [E N]. cbn [segments].
  rewrite IH by done. by rewrite E.
Qed.

Lemma path_of_plain s : plain_file s -> path_of_str s = [Normal s].
Proof.
  intros (N & E1 & E2 & E3). unfold path_of_str. rewrite segments_plain by done.
  apply String.eqb_neq in E1, E2, E3. destruct s as [|x s]; [done|]. unfold path_of_name. rewrite E1, E2, E3. done.
Qed.

Definition partial_name (s : string) : string := s +:+ ".partial".
Definition is_partial (s : string) : Prop := exists n, s = partial_name n.

Lemma length_app_string (a b : string) : String.length (a +:+ b) = (String.length a + String.length b)%nat.
Proof. induction a as [|x a IH]; [done|]. rewrite app_string. cbn [String.length]. by rewrite IH. Qed.

Lemma plain_partial s : plain_file s -> plain_file (partial_name s) /\ partial_name s <> s.
Proof.
  intros (N & _). unfold partial_name, plain_file. rewrite contains_app, N.
  repeat split; try done; intros E%(f_equal String.length); rewrite length_app_string in E; cbn in E; lia.
Qed.

Section Cache.
Context `{Json J} `{Sha256}.
Variables (cache : Path) (r : Real).

(** The cache directory, where it is, and what is in it: files, each with
    the content its name promises unless its download is in progress. *)
Definition cache_wf (fs : Fs) : Prop :=
  dir_ok cache r fs
  /\ forall name n, fs !! (r ++ [name]) = Some n ->
     exists d m, n = NFile d m /\ (is_partial name \/ sha256_hex d = name).

Lemma cache_slot fs name : cache_wf fs -> slot r fs name.
Proof. intros (_ & F) m E. by destruct (F _ _ E) as (d & k & -> & _). Qed.
#[local] Hint Resolve cache_slot : core.

Lemma cache_insert fs name d m : cache_wf fs -> is_partial name \/ sha256_hex d = name ->
  cache_wf (<[r ++ [name] := NFile d m]> fs).
Proof.
  intros C X. pose proof C as (D & F). split; [by apply dir_insert; auto|]. intros name' n L.
  destruct (decide (name' = name)) as [->|Nn].
  - rewrite lookup_insert_eq in L. injection L as <-. eauto.
  - rewrite lookup_insert_ne in L by (apply snoc_ne; congruence). by apply F.
Qed.

Lemma cache_delete fs name : cache_wf fs -> cache_wf (delete (r ++ [name]) fs).
Proof.
  intros C. pose proof C as (D & F). split; [by apply dir_delete; auto|].
  intros name' n L. apply lookup_delete_Some in L as [_ L]. by apply F.
Qed.

Variables (file_mode room : Z).

Lemma copy_loop_bound rs : forall acc d how,
  zlen acc <= MAX_BLOB -> copy_loop room rs acc = (d, how) -> zlen d <= MAX_BLOB.
Proof.
  induction rs as [|[c|] rs IH]; intros acc d how L; cbn [copy_loop]; try by intros [= <- _].
  destruct c as [|x c]; [by intros [= <- _]|].
  destruct (Z.ltb_spec MAX_BLOB (zlen acc + zlen (x :: c))); [by intros [= <- _]|].
  destruct (room <? _).
  - intros [= <- _]. rewrite zlen_app. unfold zlen at 2. rewrite length_take. unfold zlen in *. lia.
  - apply IH. by rewrite zlen_app.
Qed.

(** What a fetch into the cache leaves behind. *)
Definition stored (fs fs' : Fs) (hex : string) (res : Path + Error) : Prop :=
  cache_wf fs'
  /\ (forall k, k <> r ++ [hex] -> k <> r ++ [partial_name hex] -> fs' !! k = fs !! k)
  /\ match res with
     | inl p =>
         p = cache ++ [Normal hex] /\ canonicalize fs' p = inl (r ++ [hex])
         /\ exists d m, fs' !! (r ++ [hex]) = Some (NFile d m) /\ sha256_hex d = hex
            /\ (fs' = fs \/ zlen d <= MAX_BLOB)
     | inr _ => fs' !! (r ++ [hex]) = fs !! (r ++ [hex])
     end.

Lemma join_plain s : plain_file s -> join cache (path_of_str s) = cache ++ [Normal s].
Proof. intros P. by rewrite path_of_plain. Qed.

Lemma store_blob_stored fs digest b :
  let hex := digest_hex digest in
  cache_wf fs -> plain_file hex -> ~ is_partial hex ->
  let '(fs', res) := store_blob file_mode room fs cache digest b in stored fs fs' hex res.
Proof.
  intros hex C P NP. destruct (plain_partial hex P) as [PP NE]. unfold store_blob, blob_path, partial_path.
  fold hex. change (hex +:+ ".partial") with (partial_name hex). rewrite !join_plain by done.
  assert (IP : forall d, is_partial (partial_name hex) \/ sha256_hex d = partial_name hex) by (left; by exists hex).
  assert (NK : r ++ [partial_name hex] <> r ++ [hex]) by by apply snoc_ne.
  destruct (slot_create cache r fs (partial_name hex) [] file_mode) as (m & ->); [apply C|auto|].
  pose proof (cache_insert fs _ [] m C (IP [])) as C1. set (fs1 := <[_ := _]> fs) in *.
  destruct (copy_loop room (reads b) []) as [data how] eqn:L.
  destruct (slot_create cache r fs1 (partial_name hex) data file_mode) as (m2 & ->); [apply C1|auto|]. cbn [fst].
  pose proof (cache_insert fs1 _ data m2 C1 (IP data)) as C2. unfold fs1 in *. rewrite insert_insert_eq in C2 |- *. clear C1 fs1.
  set (fs2 := <[_ := _]> fs) in *.
  assert (E2 : fs2 !! (r ++ [partial_name hex]) = Some (NFile data m2)) by apply lookup_insert_eq.
  assert (Rm : fst (remove_file fs2 (cache ++ [Normal (partial_name hex)])) = delete (r ++ [partial_name hex]) fs2)
    by by rewrite (slot_remove _ _ _ _ _ _ (proj1 C2) E2).
  assert (Err : forall e, stored fs (delete (r ++ [partial_name hex]) fs2) hex (inr e)).
  { intros e. split; [by apply cache_delete|]. unfold fs2. split; [|by rewrite lookup_delete_ne, lookup_insert_ne].
    intros k Nk Np. by rewrite lookup_delete_ne, lookup_insert_ne by done. }
  destruct how; rewrite ?Rm; try apply Err.
  - destruct (String.eqb_spec (sha256_hex data) hex) as [G|]; cbn [negb]; rewrite ?Rm; [|apply Err].
    rewrite (slot_rename _ _ _ _ _ _ _ (proj1 C2) (cache_slot _ _ C2) NE E2). set (fs3 := <[_ := _]> (delete _ _)).
    assert (C3 : cache_wf fs3) by (apply cache_insert; [by apply cache_delete|by right]).
    split; [done|]. split; [|split; [done|split]].
    + intros k Nk Np. unfold fs3, fs2. by rewrite lookup_insert_ne, lookup_delete_ne, lookup_insert_ne by done.
    + eapply slot_canonicalize; [apply C3|apply lookup_insert_eq].
    + exists data, m2. split; [apply lookup_insert_eq|]. split; [done|]. right.
      eapply copy_loop_bound, L. cbv. discriminate.
  - split; [done|]. unfold fs2. split; [|by rewrite lookup_insert_ne].
    intros k Nk Np. by rewrite lookup_insert_ne by done.
Qed.

(** C23: A blob with a plain digest comes back as the cache's file of that
    name, whose content has that hash, whether it was there or was fetched;
    a fetch that fails leaves no such file, and no fetch changes any other
    file or a cache in which every complete file has the hash of its name. *)
Theorem fetch_blob_verified (web : list Req -> Answer) (s : Conn) (fs : Fs) (digest : string) :
  let hex := digest_hex digest in
  cache_wf fs -> plain_file hex -> ~ is_partial hex ->
  let '(_, fs', res) := fetch_blob web file_mode room s fs cache digest in stored fs fs' hex res.
Proof.
  intros hex C P NP. unfold fetch_blob, blob_path. fold hex. rewrite join_plain by done.
  assert (X : fs_exists fs (cache ++ [Normal hex]) = bool_decide (is_Some (fs !! (r ++ [hex])))).
  { unfold fs_exists, canonicalize. rewrite (slot_resolve cache r) by (apply C || auto).
    by destruct (fs !! (r ++ [hex])) eqn:E; case_bool_decide as B; try done; destruct B. }
  rewrite X. destruct (fs !! (r ++ [hex])) as [n|] eqn:E; cbn [bool_decide].
  - rewrite bool_decide_eq_true_2 by done. split; [done|]. split; [done|]. split; [done|]. split.
    + destruct C as (D & F). destruct (F _ _ E) as (d & m & -> & _). by eapply slot_canonicalize.
    + destruct C as (_ & F). destruct (F _ _ E) as (d & m & -> & [|]); [done|].
      exists d, m. split; [done|]. split; [done|]. by left.
  - rewrite bool_decide_eq_false_2 by (by intros [? ?]).
    destruct (get web s _) as [s1 [b|e]]; [|split; [done|]; by split].
    pose proof (store_blob_stored fs digest b C P NP) as St. by destruct (store_blob _ _ fs cache digest b).
Qed.
End Cache.

#[local] Instance toy_json : Json unit := {|
  from_str _ := Some tt; get_field _ _ := None; index _ _ := tt; as_str _ := None; as_array _ := None; get_index _ _ := None |}.
#[local] Instance toy_sha : Sha256 := fun d => if bool_decide (d = [1; 2]) then "ab" else "00".

Definition toy_web : list Req -> Answer := fun _ => AOk (mkBody None [Some [1]; Some [2]]).
Definition toy_fs : Fs := {[ ["c"] := NDir 493 ]}.
Definition toy_conn : Conn := (Client_new (mkReference "h" "r" "t"), []).

Lemma fetch_blob_verified_witness :
  snd (fetch_blob toy_web 420 100 toy_conn toy_fs [Normal "c"] "sha256:ab") = inl [Normal "c"; Normal "ab"]
  /\ let '(_, fs', res) := fetch_blob toy_web 420 100 toy_conn toy_fs [Normal "c"] "sha256:ab" in
     stored [Normal "c"] ["c"] toy_fs fs' (digest_hex "sha256:ab") res.
Proof.
  split; [vm_compute; reflexivity|].
  apply (fetch_blob_verified [Normal "c"] ["c"] 420 100 toy_web toy_conn toy_fs "sha256:ab").
  - split; [split; [split; [reflexivity|]|split; [done|split; reflexivity]]|].
    + intros [|a k] s X; [done|]. unfold toy_fs in X. rewrite lookup_singleton_ne in X; [by destruct X|].
      intros [= _ E]. destruct k; discriminate E.
    + intros name n X. unfold toy_fs in X. rewrite lookup_singleton_ne in X by discriminate. discriminate X.
  - repeat split; discriminate.
  - intros [[|? [|? [|]]] E]; discriminate E.
Defined.

(** The digest is the server's text: one that is an absolute path, or climbs
    out of the cache, to something that exists is that blob already, with
    nothing fetched or checked. *)
Theorem fetch_blob_unchecked `{Json J} `{Sha256} (web : list Req -> Answer) (mode room : Z) (s : Conn) (fs : Fs) (cache : Path) (digest : string) :
  fs_exists fs (join cache (path_of_str (digest_hex digest))) = true ->
  fetch_blob web mode room s fs cache digest = (s, fs, inl (join cache (path_of_str (digest_hex digest))))
  /\ (forall rest, digest_hex digest = String (ch "/") rest ->
      exists p, join cache (path_of_str (digest_hex digest)) = RootDir :: p).
Proof.
  intros X. split; [unfold fetch_blob, blob_path; by rewrite X|]. intros rest ->. unfold path_of_str. cbn [segments].
  destruct (segments rest) as [a l]. rewrite Ascii.eqb_refl. by eexists.
Qed.

(** ** Several fetches of one blob

    Builds run in parallel, and each fetch of a digest writes the same
    temporary name. A step is one system call of one of them; a file is an
    inode, which an open handle keeps whatever its names become. *)

Record Disk := mkDisk { inodes : list (list Z); tmp_at : option nat; path_at : option nat }.

Inductive Fetch :=
| FLook | FBody (rs : list (option (list Z)))
| FWrite (ino : nat) (off : Z) (hashed : list Z) (rs : list (option (list Z)))
| FRename | FOk | FErr.

(** A write at an offset, past the end of a file that was cut meanwhile. *)
Definition write_at (off : Z) (c f : list Z) : list Z :=
  take (Z.to_nat off) (f ++ zeros (off - zlen f)) ++ c ++ drop (Z.to_nat (off + zlen c)) f.

(** [File::create] of the temporary name. *)
Definition open_tmp (d : Disk) : nat * Disk :=
  match tmp_at d with
  | Some i => (i, mkDisk (<[i := []]> (inodes d)) (tmp_at d) (path_at d))
  | None => (length (inodes d), mkDisk (inodes d ++ [[]]) (Some (length (inodes d))) (path_at d))
  end.
Definition unlink_tmp (d : Disk) : Disk := mkDisk (inodes d) None (path_at d).

Section Concurrent.
Context `{Sha256}.
Variable hex : string.

(** One process's next system call; [body] is what the registry sends it. *)
Definition fetch_step (body : list (option (list Z))) (d : Disk) (p : Fetch) : Disk * Fetch :=
  match p with
  | FLook => match path_at d with Some _ => (d, FOk) | None => (d, FBody body) end
  | FBody rs => let '(i, d') := open_tmp d in (d', FWrite i 0 [] rs)
  | FWrite i off hashed rs =>
      match rs with
      | [] | Some [] :: _ =>
          if String.eqb (sha256_hex hashed) hex then (d, FRename) else (unlink_tmp d, FErr)
      | None :: _ => (d, FErr)
      | Some c :: rs' =>
          if MAX_BLOB <? off + zlen c then (unlink_tmp d, FErr)
          else (mkDisk (alter (write_at off c) i (inodes d)) (tmp_at d) (path_at d),
                FWrite i (off + zlen c) (hashed ++ c) rs')
      end
  | FRename =>
      match tmp_at d with Some i => (mkDisk (inodes d) None (Some i), FOk) | None => (d, FErr) end
  | FOk | FErr => (d, p)
  end.

(** A schedule says who moves; each process has its own response. *)
Definition sched_step (bodies : list (list (option (list Z)))) (s : Disk * list Fetch) (i : nat) : Disk * list Fetch :=
  match snd s !! i, bodies !! i with
  | Some p, Some b => let '(d, p') := fetch_step b (fst s) p in (d, <[i := p']> (snd s))
  | _, _ => s
  end.
Definition run_fetches (bodies : list (list (option (list Z)))) (d : Disk) (sched : list nat) : Disk * list Fetch :=
  foldl (sched_step bodies) (d, replicate (length bodies) FLook) sched.

Definition cached (d : Disk) : option (list Z) := i ← path_at d; inodes d !! i.
End Concurrent.

(** Two builds that fetch one blob at the same time can leave an
    incomplete file under its verified name: one truncates the temporary
    file the other has just checked, before that one's rename, and then loses
    its connection. The file stays, and every later fetch is a hit on it. *)
Theorem concurrent_fetch_corrupts `{Sha256} (hex : string) (data : list Z) :
  sha256_hex data = hex -> data <> [] -> zlen data <= MAX_BLOB -> sha256_hex [] <> hex ->
  exists sched,
    let '(d, ps) := run_fetches hex [[Some data]; [None]] (mkDisk [] None None) sched in
    ps = [FOk; FErr] /\ cached d = Some [] /\ tmp_at d = None
    /\ forall body, fetch_step hex body d FLook = (d, FOk).
Proof.
  intros Hd Nd Ld Ne. exists [0; 1; 0; 0; 0; 1; 0; 1]%nat.
  assert (L : (MAX_BLOB <? 0 + zlen data) = false) by (apply Z.ltb_ge; lia).
  destruct data as [|x data]; [done|].
  unfold run_fetches. cbn -[MAX_BLOB zlen write_at sha256_hex]. rewrite L.
  cbn -[MAX_BLOB zlen write_at sha256_hex]. rewrite Hd, String.eqb_refl. cbn. done.
Qed.

Lemma concurrent_fetch_corrupts_witness :
  sha256_hex [1; 2] = "ab" /\ exists sched,
    let '(d, ps) := run_fetches "ab" [[Some [1; 2]]; [None]] (mkDisk [] None None) sched in
    ps = [FOk; FErr] /\ cached d = Some [] /\ tmp_at d = None
    /\ forall body, fetch_step "ab" body d FLook = (d, FOk).
Proof.
  split; [vm_compute; reflexivity|]. apply (concurrent_fetch_corrupts "ab" [1; 2]).
  - vm_compute. reflexivity.
  - discriminate.
  - vm_compute. discriminate.
  - vm_compute. discriminate.
Defined.
