(* ===== verification/Text.v ===== *)
(** * Text: what the source calls of [str]

    Parsing integers and trimming white space, on the bytes of a string. The
    white space of Unicode is a list of UTF-8 sequences; [trim_around] says
    that trimming removes exactly them. [parse_digits_pretty] is the round
    trip of a printed number. *)

From stdpp Require Import pretty.
From S2P Require Import Prelude Registry.
#[local] Open Scope Z_scope.

(** ** Integers *)

(** [str::parse] of an integer: an optional sign, then digits. *)
Fixpoint digits (acc : Z) (s : string) : option Z :=
  match s with
  | EmptyString => Some acc
  | String c s' => match digit_of 10 c with Some d => digits (acc * 10 + d) s' | None => None end
  end.
Definition parse_digits (s : string) : option Z := match s with EmptyString => None | _ => digits 0 s end.
Definition parse_uint (w : Z) (s : string) : option Z :=
  v ← parse_digits (default s (strip_prefix "+" s)); if v <? 2 ^ w then Some v else None.
Definition parse_u16 : string -> option Z := parse_uint 16.
Definition parse_u32 : string -> option Z := parse_uint 32.
Definition parse_u64 : string -> option Z := parse_uint 64.
Definition parse_i32 (s : string) : option Z :=
  v ← (match strip_prefix "-" s with
       | Some n => Z.opp <$> parse_digits n
       | None => parse_digits (default s (strip_prefix "+" s)) end);
  if (- 2 ^ 31 <=? v) && (v <? 2 ^ 31) then Some v else None.

(** A decimal digit, as a printed number has it. *)
Definition numeral (c : Ascii.ascii) : bool := match digit_of 10 c with Some _ => true | None => false end.
Fixpoint all_chars (f : Ascii.ascii -> bool) (s : string) : bool :=
  match s with String c s' => f c && all_chars f s' | EmptyString => true end.

Lemma all_chars_app f a b : all_chars f (a +:+ b) = all_chars f a && all_chars f b.
Proof. induction a as [|c a IH]; [done|]. rewrite app_string. cbn [all_chars]. by rewrite IH, andb_assoc. Qed.

Lemma pretty_digit (x : N) : (x < 10)%N -> digit_of 10 (pretty_N_char x) = Some (Z.of_N x).
Proof.
  intros L. assert (In (N.to_nat x) (seq 0 10)) as I by (apply in_seq; lia). rewrite <- (N2Nat.id x).
  cbn [seq In] in I. repeat (destruct I as [<-|I]; [reflexivity|]). done.
Qed.

(** The digits of a printed number, in front of more text. *)
Lemma digits_go (x : N) (acc : Z) (s : string) : (0 < x)%N ->
  exists k, digits acc (pretty_N_go x s) = digits (acc * 10 ^ Z.of_nat k + Z.of_N x) s /\ (0 < k)%nat.
Proof.
  intros P. revert acc s P. induction x as [x IH] using (well_founded_induction N.lt_wf_0). intros acc s P.
  rewrite pretty_N_go_step by done. assert (M : (x `mod` 10 < 10)%N) by (apply N.mod_lt; lia).
  destruct (N.eq_0_gt_0_cases (x / 10)) as [E|G].
  - rewrite E, pretty_N_go_0. exists 1%nat. cbn [digits]. rewrite pretty_digit by done. split; [|lia]. f_equal.
    pose proof (N.div_mod x 10). lia.
  - destruct (IH (x / 10)%N) with (acc := acc) (s := String (pretty_N_char (x `mod` 10)) s) as (k & -> & K); [apply N.div_lt; lia|done|].
    exists (S k). cbn [digits]. rewrite pretty_digit by done. split; [|lia]. f_equal.
    rewrite Nat2Z.inj_succ, Z.pow_succ_r by lia. pose proof (N.div_mod x 10). lia.
Qed.

Lemma pretty_Z_pos (n : Z) : 0 < n -> pretty n = pretty_N_go (Z.to_N n) EmptyString.
Proof. intros P. destruct n as [|p|p]; [lia|done|lia]. Qed.

Lemma digits_pretty (n : Z) : 0 < n -> digits 0 (pretty n) = Some n.
Proof.
  intros P. rewrite pretty_Z_pos by done. destruct (digits_go (Z.to_N n) 0 EmptyString) as (k & -> & _); [lia|]. cbn [digits].
  f_equal. lia.
Qed.

Lemma digits_numerals (s : string) : forall acc v, digits acc s = Some v -> all_chars numeral s = true.
Proof.
  induction s as [|c s IH]; intros acc v E; [done|]. cbn [digits all_chars] in *. unfold numeral at 1.
  destruct (digit_of 10 c) as [d|]; [|done]. by apply IH in E.
Qed.

Lemma pretty_numerals (n : Z) : 0 < n -> all_chars numeral (pretty n) = true.
Proof. intros P. by apply (digits_numerals _ 0 n), digits_pretty. Qed.

Lemma pretty_shape (n : Z) : 0 < n -> exists c s, pretty n = String c s /\ numeral c = true.
Proof.
  intros P. pose proof (pretty_numerals n P) as N. pose proof (digits_pretty n P) as D. destruct (pretty n) as [|c s].
  - injection D as <-. lia.
  - exists c, s. split; [done|]. by apply andb_true_iff in N as [N _].
Qed.

Lemma parse_digits_pretty (n : Z) : 0 < n -> parse_digits (pretty n) = Some n.
Proof. intros P. destruct (pretty_shape n P) as (c & s & E & _). unfold parse_digits. rewrite <- (digits_pretty n P). by rewrite E. Qed.

Lemma parse_uint_pretty (w n : Z) : 0 <= n < 2 ^ w -> parse_uint w (pretty n) = Some n.
Proof.
  intros [P L]. unfold parse_uint. destruct (Z.eq_dec n 0) as [->|N0].
  { change (parse_digits (default (pretty 0) (strip_prefix "+" (pretty 0)))) with (Some 0). cbn [mbind option_bind].
    by rewrite (proj2 (Z.ltb_lt 0 _) L). }
  destruct (pretty_shape n) as (c & s & E & N); [lia|].
  assert (S0 : strip_prefix "+" (pretty n) = None).
  { rewrite E. change (strip_prefix "+" (String c s)) with (if Ascii.eqb (ch "+") c then Some s else None).
    destruct (Ascii.eqb_spec (ch "+") c) as [<-|]; [by vm_compute in N|done]. }
  rewrite S0. cbn [default]. rewrite parse_digits_pretty by lia. cbn. by rewrite (proj2 (Z.ltb_lt n _) L).
Qed.

Lemma parse_u64_pretty (n : Z) : 0 <= n < 2 ^ 64 -> parse_u64 (pretty n) = Some n.
Proof. apply parse_uint_pretty. Qed.

(** ** White space *)

Definition bytes_str (l : list nat) : string := foldr (fun b s => String (Ascii.ascii_of_nat b) s) EmptyString l.
(** Unicode's White_Space in UTF-8: U+0009 to U+000D, U+0020, U+0085, U+00A0,
    U+1680, U+2000 to U+200A, U+2028, U+2029, U+202F, U+205F, U+3000. *)
Definition white_bytes : list (list nat) :=
  map (fun b => [b]) [9; 10; 11; 12; 13; 32]%nat
  ++ [[194; 133]; [194; 160]; [225; 154; 128]]%nat
  ++ map (fun b => [226; 128; b]%nat) (seq 128 11)
  ++ [[226; 128; 168]; [226; 128; 169]; [226; 128; 175]; [226; 129; 159]; [227; 128; 128]]%nat.
Definition white : list string := Eval vm_compute in map bytes_str white_bytes.

Definition strip_any (ws : list string) (s : string) : option string :=
  foldr (fun w r => match strip_prefix w s with Some rest => Some rest | None => r end) None ws.
Fixpoint trim_with (ws : list string) (fuel : nat) (s : string) : string :=
  match fuel with
  | O => s
  | S f => match strip_any ws s with Some r => trim_with ws f r | None => s end
  end.
(** [str::trim]. *)
Definition trim_start (s : string) : string := trim_with white (String.length s) s.
Definition trim_end (s : string) : string := String.rev (trim_with (map String.rev white) (String.length s) (String.rev s)).
Definition trim (s : string) : string := trim_end (trim_start s).

(** [to_ascii_lowercase]. *)
Definition to_ascii_lowercase (s : string) : string := lowers s.

(** *** Trimming removes exactly the white space around a text *)

Definition concat_str (l : list string) : string := foldr (fun a b => a +:+ b) EmptyString l.

(** No text of the list is the beginning of another. *)
Fixpoint before (a b : string) : bool :=
  match a, b with
  | EmptyString, _ => true
  | String x a', String y b' => Ascii.eqb x y && before a' b'
  | _, _ => false
  end.
Definition apart (ws : list string) : bool :=
  forallb (fun a => negb (String.eqb a EmptyString) && forallb (fun b => negb (before a b) || String.eqb a b) ws) ws.

Lemma strip_prefix_app_before a b r rest : strip_prefix a (b +:+ r) = Some rest -> before a b = true \/ before b a = true.
Proof.
  revert b. induction a as [|x a IH]; intros [|y b] E; auto. rewrite app_string in E. cbn [strip_prefix before] in *.
  destruct (Ascii.eqb_spec x y) as [->|]; [|done]. rewrite Ascii.eqb_refl. cbn [andb]. by apply IH in E.
Qed.

Lemma strip_any_white ws w r : apart ws = true -> w ∈ ws -> strip_any ws (w +:+ r) = Some r.
Proof.
  intros A I. assert (G : forall l, (forall a, a ∈ l -> a ∈ ws) -> w ∈ l -> strip_any l (w +:+ r) = Some r).
  { induction l as [|a l IH]; intros Sub Il; [by apply elem_of_nil in Il|]. cbn [strip_any foldr].
    destruct (String.eqb_spec a w) as [->|Na]; [by rewrite strip_prefix_app|].
    destruct (strip_prefix a (w +:+ r)) as [rest|] eqn:E.
    - exfalso. pose proof A as A'. unfold apart in A'. rewrite forallb_forall in A'.
      assert (Ia : In a ws) by (apply list_elem_of_In, Sub; left). assert (Iw : In w ws) by (by apply list_elem_of_In).
      pose proof (A' a Ia) as [_ Xa]%andb_true_iff. pose proof (A' w Iw) as [_ Xw]%andb_true_iff.
      rewrite forallb_forall in Xa, Xw. specialize (Xa w Iw). specialize (Xw a Ia).
      rewrite (proj2 (String.eqb_neq a w) Na), orb_false_r in Xa. rewrite (proj2 (String.eqb_neq w a) (not_eq_sym Na)), orb_false_r in Xw.
      apply strip_prefix_app_before in E as [E|E]; [by rewrite E in Xa|by rewrite E in Xw].
    - apply IH; [intros b Ib; apply Sub; by right|]. apply elem_of_cons in Il as [->|Il]; [done|done]. }
  by apply G.
Qed.

Lemma trim_with_white ws l s fuel : apart ws = true -> Forall (fun w => w ∈ ws) l -> strip_any ws s = None ->
  (length l <= fuel)%nat -> trim_with ws fuel (concat_str l +:+ s) = s.
Proof.
  intros A F N. revert fuel. induction F as [|w l Iw _ IH]; intros fuel L.
  - cbn [concat_str foldr]. change (EmptyString +:+ s) with s. destruct fuel as [|f]; [done|]. cbn [trim_with]. by rewrite N.
  - destruct fuel as [|f]; [cbn in L; lia|]. cbn [trim_with]. change (concat_str (w :: l)) with (w +:+ concat_str l).
    rewrite app_assoc_string, strip_any_white by done. apply IH. cbn in L. lia.
Qed.

Lemma rev_app_rev a b c : String.rev_app a (b +:+ c) = String.rev_app a b +:+ c.
Proof.
  revert b. induction a as [|x a IH]; intros b; [done|]. cbn [String.rev_app]. rewrite <- app_string. by rewrite IH.
Qed.
Lemma rev_app_str a b : String.rev (a +:+ b) = String.rev b +:+ String.rev a.
Proof.
  unfold String.rev. assert (G : forall c, String.rev_app (a +:+ b) c = String.rev_app b (String.rev_app a c)).
  { induction a as [|x a IH]; intros c; [done|]. rewrite app_string. cbn [String.rev_app]. apply IH. }
  rewrite G. change (String.rev_app a EmptyString) with (EmptyString +:+ String.rev_app a EmptyString). apply rev_app_rev.
Qed.
Lemma rev_snoc x a : String.rev (String x a) = String.rev a +:+ String x EmptyString.
Proof. change (String x a) with (String x EmptyString +:+ a). by rewrite rev_app_str. Qed.
Lemma rev_rev a : String.rev (String.rev a) = a.
Proof. induction a as [|x a IH]; [done|]. rewrite rev_snoc, rev_app_str, IH. done. Qed.
Lemma rev_concat l : String.rev (concat_str l) = concat_str (rev (map String.rev l)).
Proof.
  induction l as [|a l IH]; [done|]. change (concat_str (a :: l)) with (a +:+ concat_str l). rewrite rev_app_str, IH. cbn [map rev].
  generalize (rev (map String.rev l)) as k. intros k. induction k as [|b k IHk]; [cbn; by rewrite app_nil_string|].
  change (concat_str (b :: k)) with (b +:+ concat_str k). cbn [app]. change (concat_str (b :: ?x)) with (b +:+ concat_str x).
  by rewrite app_assoc_string, IHk.
Qed.

(** A character that no white space begins or ends with. *)
Definition solid (c : Ascii.ascii) : bool :=
  forallb (fun w => match w with String x _ => negb (Ascii.eqb x c) | EmptyString => false end) (white ++ map String.rev white).

Lemma strip_any_solid ws c s : (forall w, In w ws -> In w (white ++ map String.rev white)) -> solid c = true -> strip_any ws (String c s) = None.
Proof.
  intros Sub So. unfold solid in So. rewrite forallb_forall in So. induction ws as [|w ws IH]; [done|]. cbn [strip_any foldr].
  assert (N : strip_prefix w (String c s) = None).
  { specialize (So w (Sub w (or_introl eq_refl))). destruct w as [|x w]; [done|]. cbn [strip_prefix]. by destruct (Ascii.eqb x c). }
  rewrite N. apply IH. intros v I. apply Sub. by right.
Qed.

Lemma length_concat ws l : apart ws = true -> Forall (fun w => w ∈ ws) l -> (length l <= String.length (concat_str l))%nat.
Proof.
  intros A F. induction F as [|w l I _ IH]; [done|]. change (concat_str (w :: l)) with (w +:+ concat_str l). rewrite length_app_string. cbn [length].
  unfold apart in A. rewrite forallb_forall in A. apply list_elem_of_In in I. specialize (A w I). apply andb_true_iff in A as [A _].
  destruct w as [|x w]; [done|]. cbn [String.length]. lia.
Qed.

Lemma trim_around pre post body c d a b : Forall (fun w => w ∈ white) pre -> Forall (fun w => w ∈ white) post ->
  body = String c a -> body = b +:+ String d EmptyString -> solid c = true -> solid d = true ->
  trim (concat_str pre +:+ body +:+ concat_str post) = body.
Proof.
  intros Fp Fq Ea Eb Sc Sd. unfold trim, trim_start.
  assert (T1 : trim_with white (String.length (concat_str pre +:+ body +:+ concat_str post)) (concat_str pre +:+ body +:+ concat_str post)
    = body +:+ concat_str post).
  { apply trim_with_white; [reflexivity|done| |].
    - rewrite Ea, app_string. apply strip_any_solid; [|done]. intros w I. apply in_or_app. by left.
    - rewrite length_app_string. pose proof (length_concat white pre eq_refl Fp). lia. }
  rewrite T1. unfold trim_end. rewrite rev_app_str, rev_concat.
  assert (Fr : Forall (fun w => w ∈ map String.rev white) (rev (map String.rev post))).
  { apply Forall_rev, Forall_map. eapply Forall_impl; [exact Fq|]. intros w I. by apply list_elem_of_fmap_2. }
  rewrite trim_with_white; [apply rev_rev|reflexivity|done| |].
  - rewrite Eb, rev_app_str. change (String.rev (String d EmptyString)) with (String d EmptyString). rewrite app_string.
    apply strip_any_solid; [|done]. intros w I. apply in_or_app. by right.
  - rewrite length_app_string. pose proof (length_concat white post eq_refl Fq). rewrite length_rev, length_map. lia.
Qed.

(** ** Words *)

(** [str::split_whitespace]. *)
Fixpoint span_word (s : string) : string * string :=
  match strip_any white s, s with
  | Some _, _ | None, EmptyString => (EmptyString, s)
  | None, String c s' => let '(w, r) := span_word s' in (String c w, r)
  end.
Fixpoint words_with (fuel : nat) (s : string) : list string :=
  match fuel, trim_start s with
  | O, _ | _, EmptyString => []
  | S f, s' => let '(w, r) := span_word s' in w :: words_with f r
  end.
Definition split_whitespace (s : string) : list string := words_with (S (String.length s)) s.

(** A word none of whose characters a white space begins or ends with. *)
Definition word (s : string) : Prop := all_chars solid s = true /\ s <> EmptyString.

Lemma span_word_app w ws s : apart white = true -> all_chars solid w = true -> ws ∈ white ->
  span_word (w +:+ ws +:+ s) = (w, ws +:+ s).
Proof.
  intros A Sw I. induction w as [|c w IH].
  - change (EmptyString +:+ ws +:+ s) with (ws +:+ s). pose proof (strip_any_white white ws s A I) as E. revert E.
    destruct (ws +:+ s) as [|x r]; cbn [span_word]; [done|]. by intros ->.
  - cbn [all_chars] in Sw. apply andb_true_iff in Sw as [Sc Sw]. rewrite app_string. cbn [span_word].
    rewrite strip_any_solid by (try done; intros v V; apply in_or_app; by left). by rewrite (IH Sw).
Qed.

Lemma trim_start_white ws s : apart white = true -> ws ∈ white -> strip_any white s = None -> trim_start (ws +:+ s) = s.
Proof.
  intros A I N. assert (F : Forall (fun w => w ∈ white) [ws]) by (constructor; [done|constructor]).
  pose proof (length_concat white [ws] A F) as L. unfold trim_start. revert L.
  unfold concat_str. cbn [foldr length]. rewrite app_nil_string. intros L.
  pose proof (trim_with_white white [ws] s (String.length (ws +:+ s)) A F N) as T. unfold concat_str in T.
  cbn [foldr length] in T. rewrite app_nil_string in T. apply T. rewrite length_app_string. lia.
Qed.

Lemma numeral_solid c : numeral c = true -> solid c = true.
Proof. destruct c as [[] [] [] [] [] [] [] []]; vm_compute; done. Qed.

Lemma pretty_nonneg_shape (n : Z) : 0 <= n -> exists c s, pretty n = String c s /\ all_chars numeral (pretty n) = true.
Proof.
  intros L. destruct (Z.eq_dec n 0) as [->|N]; [by exists (ch "0"), EmptyString|].
  destruct (pretty_shape n) as (c & s & E & _); [lia|]. exists c, s. split; [done|]. apply pretty_numerals. lia.
Qed.

Lemma pretty_word (n : Z) : 0 <= n -> word (pretty n).
Proof.
  intros L. destruct (pretty_nonneg_shape n L) as (c & s & E & A). split; [|by rewrite E].
  clear E. induction (pretty n) as [|x r IH]; [done|]. cbn [all_chars] in *. apply andb_true_iff in A as [Ac A].
  by rewrite (numeral_solid _ Ac), IH.
Qed.

Lemma second_word a b t : word a -> word b -> split_whitespace (a +:+ " " +:+ b +:+ " " +:+ t) !! 1%nat = Some b.
Proof.
  assert (Ap : apart white = true) by reflexivity. assert (Sp : " " ∈ white) by (unfold white; repeat (left || right)).
  assert (Hd : forall w r, word w -> strip_any white (w +:+ r) = None /\ trim_start (w +:+ r) = w +:+ r).
  { intros w r [Sw Nw]. destruct w as [|c w]; [done|]. cbn [all_chars] in Sw. apply andb_true_iff in Sw as [Sc _].
    assert (N : strip_any white (String c w +:+ r) = None).
    { rewrite app_string. apply strip_any_solid; [|done]. intros v V. apply in_or_app. by left. }
    split; [done|]. unfold trim_start. destruct (String.length _); [done|]. cbn [trim_with]. by rewrite N. }
  intros Wa Wb. unfold split_whitespace.
  assert (L : exists k, String.length (a +:+ " " +:+ b +:+ " " +:+ t) = S k).
  { destruct a as [|c a]; [by destruct Wa|]. rewrite app_string. cbn [String.length]. by eexists. }
  destruct L as [k ->]. cbn [words_with]. rewrite (proj2 (Hd a _ Wa)).
  assert (Sa := span_word_app a " " (b +:+ " " +:+ t) Ap (proj1 Wa) Sp).
  destruct (a +:+ " " +:+ b +:+ " " +:+ t) as [|x r] eqn:E; [by destruct a; [destruct Wa|discriminate E]|]. rewrite Sa.
  rewrite (trim_start_white " ") by (try done; by apply Hd).
  assert (Sb := span_word_app b " " t Ap (proj1 Wb) Sp).
  destruct (b +:+ " " +:+ t) as [|y q] eqn:E'; [by destruct b; [destruct Wb|discriminate E']|]. by rewrite Sb.
Qed.

Lemma last_char f s : s <> EmptyString -> all_chars f s = true -> exists b d, s = b +:+ String d EmptyString /\ f d = true.
Proof.
  induction s as [|c s IH]; [done|]. intros _ A. cbn [all_chars] in A. apply andb_true_iff in A as [Ac As]. destruct s as [|c' s].
  - by exists EmptyString, c.
  - destruct IH as (b & d & E & D); [done|done|]. exists (String c b), d. rewrite app_string. by rewrite <- E.
Qed.

Lemma trim_solid pre post f body : (forall c, f c = true -> solid c = true) -> all_chars f body = true -> body <> EmptyString ->
  Forall (fun w => w ∈ white) pre -> Forall (fun w => w ∈ white) post -> trim (concat_str pre +:+ body +:+ concat_str post) = body.
Proof.
  intros S A N Fp Fq. destruct (last_char f body N A) as (b & d & E & D). destruct body as [|c a]; [done|].
  apply (trim_around pre post _ c d a b Fp Fq eq_refl E); [|by apply S]. apply S. by apply andb_true_iff in A as [A _].
Qed.

(** ** UTF-8 *)

(** [str::from_utf8]: how many of the next bytes are one character. *)
Definition cont (b : Z) : bool := (0x80 <=? b) && (b <=? 0xbf).
Definition within (lo hi b : Z) : bool := (lo <=? b) && (b <=? hi).
Definition utf8_char (bs : list Z) : option nat :=
  match bs with
  | b :: bs1 =>
      if b <=? 0x7f then Some 1%nat
      else match bs1 with
      | b1 :: bs2 =>
          if within 0xc2 0xdf b then (if cont b1 then Some 2%nat else None)
          else match bs2 with
          | b2 :: bs3 =>
              if within 0xe0 0xef b then
                let ok := if b =? 0xe0 then within 0xa0 0xbf b1 else if b =? 0xed then within 0x80 0x9f b1 else cont b1 in
                (if ok && cont b2 then Some 3%nat else None)
              else match bs3 with
              | b3 :: _ =>
                  if within 0xf0 0xf4 b then
                    let ok := if b =? 0xf0 then within 0x90 0xbf b1 else if b =? 0xf4 then within 0x80 0x8f b1 else cont b1 in
                    (if ok && cont b2 && cont b3 then Some 4%nat else None)
                  else None
              | [] => None
              end
          | [] => None
          end
      | [] => None
      end
  | [] => None
  end.
Fixpoint valid_utf8 (fuel : nat) (bs : list Z) : bool :=
  match fuel, bs with
  | _, [] => true
  | O, _ => false
  | S f, _ => match utf8_char bs with Some n => valid_utf8 f (drop n bs) | None => false end
  end.
Definition from_utf8 (bs : list Z) : option string :=
  if valid_utf8 (length bs) bs then Some (bytes_str (map Z.to_nat bs)) else None.

(** The bytes of a text. *)
Definition str_bytes (s : string) : list Z := map (fun c => Z.of_nat (Ascii.nat_of_ascii c)) (String.list_ascii_of_string s).
Definition ascii7 (c : Ascii.ascii) : bool := (Ascii.nat_of_ascii c <? 128)%nat.

Lemma str_bytes_wf s : bytes_wf (str_bytes s).
Proof.
  apply Forall_map, Forall_forall. intros c _. unfold is_byte. pose proof (Ascii.nat_ascii_bounded c). lia.
Qed.

Lemma bytes_str_bytes s : bytes_str (map Z.to_nat (str_bytes s)) = s.
Proof.
  induction s as [|c s IH]; [done|]. unfold str_bytes, bytes_str in *. cbn [String.list_ascii_of_string map foldr].
  by rewrite IH, Nat2Z.id, Ascii.ascii_nat_embedding.
Qed.

Lemma from_utf8_ascii s : all_chars ascii7 s = true -> from_utf8 (str_bytes s) = Some s.
Proof.
  intros A. unfold from_utf8. rewrite bytes_str_bytes.
  assert (V : valid_utf8 (length (str_bytes s)) (str_bytes s) = true); [|by rewrite V].
  induction s as [|c s IH]; [done|]. cbn [all_chars] in A. apply andb_true_iff in A as [Ac A].
  unfold str_bytes in *. cbn [String.list_ascii_of_string map length]. cbn [valid_utf8 utf8_char].
  unfold ascii7 in Ac. apply Nat.ltb_lt in Ac. rewrite (proj2 (Z.leb_le _ 0x7f)) by lia. cbn [drop]. by apply IH.
Qed.

(** The characters there are, and how they are written. *)
Definition scalar (c : Z) : Prop := 0 <= c < 0xd800 \/ 0xe000 <= c < 0x110000.
Definition utf8_encode (c : Z) : list Z :=
  if c <? 0x80 then [c]
  else if c <? 0x800 then [0xc0 + c / 64; 0x80 + c mod 64]
  else if c <? 0x10000 then [0xe0 + c / 4096; 0x80 + c / 64 mod 64; 0x80 + c mod 64]
  else [0xf0 + c / 262144; 0x80 + c / 4096 mod 64; 0x80 + c / 64 mod 64; 0x80 + c mod 64].

Lemma utf8_char_encode c bs : scalar c -> utf8_char (utf8_encode c ++ bs) = Some (length (utf8_encode c)).
Proof.
  intros Hs. unfold scalar in Hs. unfold utf8_encode.
  pose proof (Z.mod_pos_bound c 64 eq_refl) as M0. pose proof (Z.mod_pos_bound (c / 64) 64 eq_refl) as M1.
  pose proof (Z.mod_pos_bound (c / 4096) 64 eq_refl) as M2.
  pose proof (Z.div_mod c 64 ltac:(done)) as D0. pose proof (Z.div_mod (c / 64) 64 ltac:(done)) as D1.
  pose proof (Z.div_mod (c / 4096) 64 ltac:(done)) as D2.
  rewrite !Z.div_div in D1, D2 by lia. change (64 * 64) with 4096 in D1. change (4096 * 64) with 262144 in D2.
  destruct (Z.ltb_spec c 0x80); [|destruct (Z.ltb_spec c 0x800); [|destruct (Z.ltb_spec c 0x10000)]];
    cbn [app utf8_char length]; unfold cont, within;
    repeat match goal with
    | |- context [Z.leb ?a ?b] => destruct (Z.leb_spec a b); [|try lia]; cbn [andb]
    | |- context [Z.leb ?a ?b] => destruct (Z.leb_spec a b); [try lia|]; cbn [andb]
    | |- context [Z.eqb ?a ?b] => destruct (Z.eqb_spec a b); cbn [andb]
    end; try done; exfalso; lia.
Qed.
Ltac utf8_cases :=
  repeat match goal with
  | H : (if ?b then _ else _) = Some _ |- _ => let E := fresh "E" in destruct b eqn:E; try discriminate
  | H : match ?l with [] => _ | _ => _ end = Some _ |- _ => destruct l; try discriminate
  end.
Lemma utf8_char_decode bs n : bytes_wf bs -> utf8_char bs = Some n -> exists c, scalar c /\ take n bs = utf8_encode c.
Proof.
  intros W. unfold utf8_char, cont, within, scalar, utf8_encode. intros Hu.
  utf8_cases; injection Hu as <-;
    repeat match goal with W : bytes_wf (_ :: _) |- _ => apply Forall_cons in W as [? W] end; unfold is_byte in *.
  all: [> exists z | exists ((z - 0xc0) * 64 + (z0 - 0x80)) | exists ((z - 0xe0) * 4096 + (z0 - 0x80) * 64 + (z1 - 0x80)) 
    | exists ((z - 0xf0) * 262144 + (z0 - 0x80) * 4096 + (z1 - 0x80) * 64 + (z2 - 0x80))].
  all: repeat match goal with E : (if ?b then _ else _) && _ = true |- _ => destruct b eqn:? | E : (if ?b then _ else _) && _ && _ = true |- _ => destruct b eqn:? end.
  all: cbn [take]; split; [lia|].
  all: repeat match goal with |- context [?a <? ?b] => destruct (Z.ltb_spec a b); try (exfalso; lia) end; try done.
  all: repeat f_equal; Z.to_euclidean_division_equations; lia.
Qed.

Lemma utf8_char_wf bs n : utf8_char bs = Some n -> (0 < n <= length bs)%nat.
Proof. unfold utf8_char. intros Hu. utf8_cases; injection Hu as <-; cbn [length]; lia. Qed.

(** [from_utf8] accepts exactly the encodings of characters. *)
Theorem from_utf8_spec (bs : list Z) : bytes_wf bs ->
  from_utf8 bs = Some (bytes_str (map Z.to_nat bs)) <-> exists cs, Forall scalar cs /\ bs = concat (map utf8_encode cs).
Proof.
  intros W. unfold from_utf8.
  assert (G : forall f, (length bs <= f)%nat -> valid_utf8 f bs = true <-> exists cs, Forall scalar cs /\ bs = concat (map utf8_encode cs)).
  2: { rewrite <- (G (length bs)) by lia. by destruct (valid_utf8 _ _). }
  intros f. revert bs W. induction f as [|f IH]; intros bs W L.
  - destruct bs; [|cbn in L; lia]. split; [|done]. by exists [].
  - destruct bs as [|b bs']; [split; [by exists []|done]|]. set (bs := b :: bs') in *.
    change (valid_utf8 (S f) bs) with (match utf8_char bs with Some n => valid_utf8 f (drop n bs) | None => false end). split.
    + destruct (utf8_char bs) as [n|] eqn:U; [|done]. intros V. pose proof (utf8_char_wf bs n U).
      apply IH in V as (cs & Fc & E); [|by apply Forall_drop|rewrite length_drop; lia].
      destruct (utf8_char_decode bs n W U) as (c & Sc & T). exists (c :: cs). split; [by constructor|].
      cbn [map concat]. by rewrite <- T, <- E, take_drop.
    + intros (cs & Fc & E). destruct Fc as [|c cs Sc Fc]; [done|]. cbn [map concat] in E. rewrite E, utf8_char_encode by done.
      rewrite drop_app_length. apply IH; [|pose proof (f_equal length E) as El; rewrite length_app in El|by exists cs].
      * rewrite E in W. by apply Forall_app in W as [_ W].
      * pose proof (utf8_char_wf _ _ (utf8_char_encode c [] Sc)) as P. lia.
Qed.
