(* ===== verification/Dtb.v ===== *)
(** * Dtb: the device tree and the boot path
    (crates/amber-core/src/dtb.rs; vm.rs: the boot branch of Vm::run)

    The vm-fdt writer is an interface ([FdtWriter]) whose laws say what tree
    the blob it finishes describes. [build] calls it in the source's order.

    [build_typed]: the tree is well formed, every cell count and phandle
    included; [build_describes]: the writer accepts it and the blob describes
    it; [boot_describes_machine]: what it tells the guest is what the VM has. *)

From stdpp Require Import pretty.
From S2P Require Import Prelude Memory VirtioMmio Devices Net Vsock Machine Hvf Registry.

#[local] Open Scope Z_scope.

(** ** Trees *)

(** One constructor per property_* method of the writer. *)
Inductive PropVal :=
| PNull | PString (s : string) | PStringList (l : list string) | PU32 (v : Z) | PU64 (v : Z)
| PArrayU32 (l : list Z) | PArrayU64 (l : list Z) | PBytes (bs : list Z).

Abbreviation Props := (list (string * PropVal)).
#[warnings="-register-all"] Inductive FdtNode := mkNode (name : string) (props : Props) (children : list FdtNode).

Definition node_name (n : FdtNode) : string := let '(mkNode x _ _) := n in x.
Definition node_props (n : FdtNode) : Props := let '(mkNode _ p _) := n in p.
Definition node_children (n : FdtNode) : list FdtNode := let '(mkNode _ _ c) := n in c.

Definition slen (s : string) : Z := Z.of_nat (String.length s).
Definition sum_of {A} (f : A -> Z) (l : list A) : Z := foldr (fun x s => f x + s) 0 l.
Definition val_len (v : PropVal) : Z :=
  match v with
  | PNull => 0 | PString s => slen s + 1 | PStringList l => sum_of (fun s => slen s + 1) l
  | PU32 _ => 4 | PU64 _ => 8 | PArrayU32 l => 4 * zlen l | PArrayU64 l => 8 * zlen l | PBytes bs => zlen bs
  end.
Definition val_ok (v : PropVal) : bool :=
  match v with
  | PString s => negb (contains Ascii.zero s)
  | PStringList l => forallb (fun s => negb (contains Ascii.zero s)) l
  | _ => true
  end.
Definition name_ok (s : string) : bool := negb (contains Ascii.zero s).

(** ** The writer *)

(** Properties and children written so far. *)
Definition Body : Type := Props * list FdtNode.

Class FdtWriter (W Tok : Type) := {
  fdt_new : option W;
  begin_node : string -> W -> option (W * Tok);
  end_node : Tok -> W -> option W;
  property : string -> PropVal -> W -> option W;
  finish_fdt : W -> option (list Z)
}.

(** Open nodes, innermost first, or the finished root. *)
Inductive WState (Tok : Type) := Opened (fs : list (Tok * string * Body)) | Closed (root : FdtNode).
Arguments Opened {Tok}. Arguments Closed {Tok}.

(** What closing a node leaves. *)
Definition close_node {Tok} (n : string) (b : Body) (fs : list (Tok * string * Body)) : WState Tok :=
  match fs with
  | [] => Closed (mkNode n b.1 b.2)
  | (t, n', (p, c)) :: fs => Opened ((t, n', (p, c ++ [mkNode n b.1 b.2])) :: fs)
  end.

(** Its documented behaviour: names and strings without NUL, properties before
    subnodes, nodes closed in the order of their opening and at most 64 deep,
    and a total size that 32 bits hold. *)
Class FdtLaws (W Tok : Type) `{FdtWriter W Tok} := {
  fdt_state : W -> WState Tok;
  fdt_used : W -> Z;
  fdt_describes : list Z -> FdtNode -> Prop;
  fdt_new_law : exists w, fdt_new = Some w /\ fdt_state w = Opened [] /\ fdt_used w = 0;
  begin_node_law : forall w n fs, fdt_state w = Opened fs -> (length fs < 64)%nat -> name_ok n = true ->
    fdt_used w + (16 + slen n) < 2 ^ 31 ->
    exists w' t, begin_node n w = Some (w', t) /\ fdt_state w' = Opened ((t, n, ([], [])) :: fs)
      /\ fdt_used w' <= fdt_used w + (16 + slen n);
  property_law : forall w n v t x p fs, fdt_state w = Opened ((t, x, (p, [])) :: fs) ->
    name_ok n = true -> val_ok v = true -> fdt_used w + (32 + slen n + val_len v) < 2 ^ 31 ->
    exists w', property n v w = Some w' /\ fdt_state w' = Opened ((t, x, (p ++ [(n, v)], [])) :: fs)
      /\ fdt_used w' <= fdt_used w + (32 + slen n + val_len v);
  end_node_law : forall w t n b fs, fdt_state w = Opened ((t, n, b) :: fs) -> fdt_used w + 16 < 2 ^ 31 ->
    exists w', end_node t w = Some w' /\ fdt_state w' = close_node n b fs /\ fdt_used w' <= fdt_used w + 16;
  finish_law : forall w root, fdt_state w = Closed root -> fdt_used w + 128 < 2 ^ 31 ->
    exists blob, finish_fdt w = Some blob /\ fdt_describes blob root /\ bytes_wf blob /\ zlen blob <= fdt_used w + 128
}.

(** [{:x}] of a u64. *)
Definition hex_char (d : Z) : Ascii.ascii := Ascii.ascii_of_nat (Z.to_nat (if d <? 10 then 48 + d else 87 + d)).
Fixpoint hex_go (fuel : nat) (n : Z) (acc : string) : string :=
  match fuel with
  | O => acc
  | S f => let acc := String (hex_char (n mod 16)) acc in if n / 16 =? 0 then acc else hex_go f (n / 16) acc
  end.
Definition hex (n : Z) : string := hex_go 16 n EmptyString.

Definition GIC_PHANDLE : Z := 1.
Definition APB_PCLK_PHANDLE : Z := 2.

Record DtbParams := mkDtbParams {
  p_mem_size : Z;
  p_vcpus : Z;
  p_cmdline : string;
  p_initrd : option (Z * Z);
  p_gic : option GicInfo;
  p_virtio : list (Z * Z * Z);
  p_rng_seed : list Z
}.

Section Build.
Context {W Tok : Type} `{FdtWriter W Tok}.
Variable p : DtbParams.

(** Calls, each on what the last left, up to the first that fails. *)
Definition Act : Type := W -> option W.
Fixpoint steps (l : list Act) : Act := fun w => match l with [] => Some w | a :: l => w ← a w; steps l w end.
(** [begin_node], what is written in it, and [end_node]. *)
Definition node (name : string) (body : list Act) : Act :=
  fun w => '(w, t) ← begin_node name w; w ← steps body w; end_node t w.

Definition chosen : list Act :=
  [property "bootargs" (PString (p_cmdline p)); property "stdout-path" (PString "/pl011@9000000")]
  ++ match p_initrd p with
     | Some (start, end_) => [property "linux,initrd-start" (PU64 start); property "linux,initrd-end" (PU64 end_)]
     | None => [] end
  ++ match p_rng_seed p with [] => [] | seed => [property "rng-seed" (PBytes seed)] end.

Definition memory : list Act :=
  [property "device_type" (PString "memory"); property "reg" (PArrayU64 [layout.RAM_BASE; p_mem_size p])].

Definition cpu (i : nat) : Act :=
  node ("cpu@" +:+ pretty i)
    [property "device_type" (PString "cpu"); property "compatible" (PString "arm,arm-v8");
     property "reg" (PU32 (Z.of_nat i)); property "enable-method" (PString "psci")].
Definition cpus : list Act :=
  [property "#address-cells" (PU32 1); property "#size-cells" (PU32 0)] ++ map cpu (seq 0 (Z.to_nat (Z.max (p_vcpus p) 1))).

Definition psci : list Act :=
  [property "compatible" (PStringList ["arm,psci-1.0"; "arm,psci-0.2"]); property "method" (PString "hvc")].

Definition intc_name : string := match p_gic p with Some g => "intc@" +:+ hex (dist_base g) | None => "intc@8000000" end.
Definition intc : list Act :=
  match p_gic p with
  | Some g =>
      let compatible := match gic_kind g with V3 => "arm,gic-v3" | V2 => "arm,cortex-a15-gic" end in
      [property "compatible" (PString compatible); property "#interrupt-cells" (PU32 3); property "interrupt-controller" PNull;
       property "reg" (PArrayU64 [dist_base g; dist_size g; redist_base g; redist_size g]);
       property "phandle" (PU32 GIC_PHANDLE)]
  | None =>
      [property "compatible" (PString "arm,cortex-a15-gic"); property "#interrupt-cells" (PU32 3);
       property "interrupt-controller" PNull;
       property "reg" (PArrayU64 [layout.GIC_DIST_BASE; layout.GIC_DIST_SIZE; layout.GIC_CPU_BASE; layout.GIC_CPU_SIZE]);
       property "phandle" (PU32 GIC_PHANDLE)]
  end.

Definition timer : list Act :=
  [property "compatible" (PString "arm,armv8-timer"); property "interrupt-parent" (PU32 GIC_PHANDLE);
   property "interrupts" (PArrayU32 [1; 13; 0xf08; 1; 14; 0xf08; 1; 11; 0xf08; 1; 10; 0xf08])].

Definition apb_pclk : list Act :=
  [property "compatible" (PString "fixed-clock"); property "#clock-cells" (PU32 0); property "clock-frequency" (PU32 24000000);
   property "clock-output-names" (PString "uartclk"); property "phandle" (PU32 APB_PCLK_PHANDLE)].

Definition pl011 : list Act :=
  [property "compatible" (PStringList ["arm,pl011"; "arm,primecell"]);
   property "reg" (PArrayU64 [layout.PL011_BASE; layout.PL011_SIZE]); property "interrupt-parent" (PU32 GIC_PHANDLE);
   property "interrupts" (PArrayU32 [0; 1; 4]); property "clocks" (PArrayU32 [APB_PCLK_PHANDLE; APB_PCLK_PHANDLE]);
   property "clock-names" (PStringList ["uartclk"; "apb_pclk"])].

Definition virtio_mmio (d : Z * Z * Z) : Act :=
  let '(base, size, spi) := d in
  node ("virtio_mmio@" +:+ hex base)
    [property "compatible" (PString "virtio,mmio"); property "reg" (PArrayU64 [base; size]);
     property "interrupt-parent" (PU32 GIC_PHANDLE); property "interrupts" (PArrayU32 [0; spi; 4])].

Definition root : list Act :=
  [property "compatible" (PString "linux,dummy-virt"); property "#address-cells" (PU32 2); property "#size-cells" (PU32 2);
   property "model" (PString "amber");
   node "chosen" chosen; node "memory@40000000" memory; node "cpus" cpus; node "psci" psci;
   node intc_name intc; node "timer" timer; node "apb-pclk" apb_pclk; node "pl011@9000000" pl011]
  ++ map virtio_mmio (p_virtio p).

Definition build : Result (list Z) :=
  match w ← fdt_new; w ← node EmptyString root w; finish_fdt w with Some blob => inl blob | None => inr EFdt end.
End Build.

(** ** The tree *)

Section Tree.
Variable p : DtbParams.

Definition chosen_props : Props :=
  [("bootargs", PString (p_cmdline p)); ("stdout-path", PString "/pl011@9000000")]
  ++ match p_initrd p with Some (s, e) => [("linux,initrd-start", PU64 s); ("linux,initrd-end", PU64 e)] | None => [] end
  ++ match p_rng_seed p with [] => [] | seed => [("rng-seed", PBytes seed)] end.

Definition cpu_tree (i : nat) : FdtNode :=
  mkNode ("cpu@" +:+ pretty i)
    [("device_type", PString "cpu"); ("compatible", PString "arm,arm-v8"); ("reg", PU32 (Z.of_nat i));
     ("enable-method", PString "psci")] [].

Definition gic_reg : list Z :=
  match p_gic p with
  | Some g => [dist_base g; dist_size g; redist_base g; redist_size g]
  | None => [layout.GIC_DIST_BASE; layout.GIC_DIST_SIZE; layout.GIC_CPU_BASE; layout.GIC_CPU_SIZE] end.
Definition gic_compatible : string :=
  match p_gic p with Some g => match gic_kind g with V3 => "arm,gic-v3" | V2 => "arm,cortex-a15-gic" end | None => "arm,cortex-a15-gic" end.

Definition virtio_tree (d : Z * Z * Z) : FdtNode :=
  let '(base, size, spi) := d in
  mkNode ("virtio_mmio@" +:+ hex base)
    [("compatible", PString "virtio,mmio"); ("reg", PArrayU64 [base; size]); ("interrupt-parent", PU32 GIC_PHANDLE);
     ("interrupts", PArrayU32 [0; spi; 4])] [].

Definition fixed_nodes : list FdtNode :=
  [mkNode "chosen" chosen_props [];
   mkNode "memory@40000000" [("device_type", PString "memory"); ("reg", PArrayU64 [layout.RAM_BASE; p_mem_size p])] [];
   mkNode "cpus" [("#address-cells", PU32 1); ("#size-cells", PU32 0)] (map cpu_tree (seq 0 (Z.to_nat (Z.max (p_vcpus p) 1))));
   mkNode "psci" [("compatible", PStringList ["arm,psci-1.0"; "arm,psci-0.2"]); ("method", PString "hvc")] [];
   mkNode (intc_name p) [("compatible", PString gic_compatible); ("#interrupt-cells", PU32 3); ("interrupt-controller", PNull);
     ("reg", PArrayU64 gic_reg); ("phandle", PU32 GIC_PHANDLE)] [];
   mkNode "timer" [("compatible", PString "arm,armv8-timer"); ("interrupt-parent", PU32 GIC_PHANDLE);
     ("interrupts", PArrayU32 [1; 13; 0xf08; 1; 14; 0xf08; 1; 11; 0xf08; 1; 10; 0xf08])] [];
   mkNode "apb-pclk" [("compatible", PString "fixed-clock"); ("#clock-cells", PU32 0); ("clock-frequency", PU32 24000000);
     ("clock-output-names", PString "uartclk"); ("phandle", PU32 APB_PCLK_PHANDLE)] [];
   mkNode "pl011@9000000" [("compatible", PStringList ["arm,pl011"; "arm,primecell"]);
     ("reg", PArrayU64 [layout.PL011_BASE; layout.PL011_SIZE]); ("interrupt-parent", PU32 GIC_PHANDLE);
     ("interrupts", PArrayU32 [0; 1; 4]); ("clocks", PArrayU32 [APB_PCLK_PHANDLE; APB_PCLK_PHANDLE]);
     ("clock-names", PStringList ["uartclk"; "apb_pclk"])] []].

Definition dtb_tree : FdtNode :=
  mkNode EmptyString
    [("compatible", PString "linux,dummy-virt"); ("#address-cells", PU32 2); ("#size-cells", PU32 2); ("model", PString "amber")]
    (fixed_nodes ++ map virtio_tree (p_virtio p)).
End Tree.

(** ** What the calls write *)

Section Runs.
Context {W Tok : Type} `{FdtLaws W Tok}.

(** At most [d] nodes around it, [a] takes the body of the innermost node
    from [b] to [b'] for at most [k] bytes. *)
Definition runs (d : nat) (a : Act (W := W)) (b b' : Body) (k : Z) : Prop :=
  forall w t x fs, fdt_state w = Opened ((t, x, b) :: fs) -> (length fs <= d)%nat -> fdt_used w + k < 2 ^ 31 ->
  exists w', a w = Some w' /\ fdt_state w' = Opened ((t, x, b') :: fs) /\ fdt_used w' <= fdt_used w + k.

Lemma slen_nonneg s : 0 <= slen s.
Proof. unfold slen. lia. Qed.
Lemma sum_of_nonneg {A} (f : A -> Z) (l : list A) : (forall x, 0 <= f x) -> 0 <= sum_of f l.
Proof. intros P. induction l as [|x l IH]; cbn; [lia|]. specialize (P x). unfold sum_of in IH. lia. Qed.
Lemma val_len_nonneg v : 0 <= val_len v.
Proof.
  destruct v; cbn [val_len]; try lia; try (pose proof (slen_nonneg s); lia); try (pose proof (zlen_nonneg l); lia).
  - apply sum_of_nonneg. intros s. pose proof (slen_nonneg s). lia.
  - apply zlen_nonneg.
Qed.

Lemma runs_nil d b : runs d (steps []) b b 0.
Proof. intros w t x fs E _ _. exists w. split; [done|]. split; [done|lia]. Qed.

Lemma runs_cons d a l b b1 b2 k1 k2 : 0 <= k2 -> runs d a b b1 k1 -> runs d (steps l) b1 b2 k2 -> runs d (steps (a :: l)) b b2 (k1 + k2).
Proof.
  intros K2 A L w t x fs E D U. destruct (A w t x fs E D) as (w1 & R1 & E1 & U1); [lia|]. cbn [steps]. rewrite R1. cbn [mbind option_bind].
  destruct (L w1 t x fs E1 D) as (w2 & R2 & E2 & U2); [lia|]. exists w2. split; [exact R2|]. split; [done|lia].
Qed.

Lemma runs_app d l l' b b1 b2 k1 k2 : 0 <= k2 -> runs d (steps l) b b1 k1 -> runs d (steps l') b1 b2 k2 ->
  runs d (steps (l ++ l')) b b2 (k1 + k2).
Proof.
  intros K2 A L w t x fs E D U. destruct (A w t x fs E D) as (w1 & R1 & E1 & U1); [lia|].
  destruct (L w1 t x fs E1 D) as (w2 & R2 & E2 & U2); [lia|]. exists w2. split; [|split; [done|lia]].
  clear -R1 R2. revert w R1. induction l as [|a l IH]; intros w R1; [by injection R1 as ->|].
  cbn [app steps] in *. destruct (a w) as [w'|]; [|done]. cbn [mbind option_bind] in *. by apply IH.
Qed.

Definition prop_cost (q : string * PropVal) : Z := 32 + slen q.1 + val_len q.2.
Lemma prop_cost_nonneg q : 0 <= prop_cost q.
Proof. unfold prop_cost. pose proof (slen_nonneg q.1). pose proof (val_len_nonneg q.2). lia. Qed.
Definition prop_ok (q : string * PropVal) : bool := name_ok q.1 && val_ok q.2.

Lemma runs_props d (qs ps : Props) : forallb prop_ok qs = true ->
  runs d (steps (map (fun q => property q.1 q.2) qs)) (ps, []) (ps ++ qs, []) (sum_of prop_cost qs).
Proof.
  revert ps. induction qs as [|[n v] qs IH]; intros ps Ok; cbn [map]; [rewrite app_nil_r; apply runs_nil|].
  cbn [forallb] in Ok. apply andb_true_iff in Ok as [O1 O2]. apply andb_true_iff in O1 as [On Ov].
  change (sum_of prop_cost ((n, v) :: qs)) with (prop_cost (n, v) + sum_of prop_cost qs).
  apply runs_cons with (b1 := (ps ++ [(n, v)], [])); [apply sum_of_nonneg, prop_cost_nonneg| |].
  - intros w t x fs E _ U. exact (property_law w n v t x ps fs E On Ov U).
  - change ((n, v) :: qs) with ([(n, v)] ++ qs). rewrite app_assoc. by apply IH.
Qed.

Lemma runs_node d name body b' p c k : (d < 62)%nat -> 0 <= k -> name_ok name = true ->
  runs (S d) (steps body) ([], []) b' k ->
  runs d (node name body) (p, c) (p, c ++ [mkNode name b'.1 b'.2]) (32 + slen name + k).
Proof.
  intros D K On B w t x fs E L U. unfold node. pose proof (slen_nonneg name).
  destruct (begin_node_law w name _ E) as (w1 & t1 & -> & E1 & U1); [cbn; lia|done|lia|]. cbn [mbind option_bind].
  destruct (B w1 t1 name _ E1) as (w2 & R2 & E2 & U2); [cbn; lia|lia|]. rewrite R2. cbn [mbind option_bind].
  destruct (end_node_law w2 _ _ _ _ E2) as (w3 & R3 & E3 & U3); [lia|]. exists w3. split; [exact R3|]. split; [exact E3|lia].
Qed.

(** A whole tree, its parts in the order of the source. *)
Fixpoint emit (n : FdtNode) : Act (W := W) :=
  let '(mkNode x ps cs) := n in node x (map (fun q => property q.1 q.2) ps ++ map emit cs).
Fixpoint node_cost (n : FdtNode) : Z :=
  let '(mkNode x ps cs) := n in 32 + slen x + (sum_of prop_cost ps + foldr (fun c s => node_cost c + s) 0 cs).
(** Names and strings without NUL, at most [k] deep. *)
Fixpoint tree_ok (k : nat) (n : FdtNode) : bool :=
  match k with
  | O => false
  | S k => let '(mkNode x ps cs) := n in name_ok x && forallb prop_ok ps && forallb (tree_ok k) cs
  end.

Lemma tree_okS k x ps cs : tree_ok (S k) (mkNode x ps cs) = name_ok x && forallb prop_ok ps && forallb (tree_ok k) cs.
Proof. done. Qed.

Lemma node_cost_nonneg k : forall n, tree_ok k n = true -> 0 <= node_cost n.
Proof.
  induction k as [|k IH]; intros [x ps cs]; [done|]. cbn [tree_ok node_cost]. rewrite !andb_true_iff. intros [_ Oc].
  pose proof (slen_nonneg x). pose proof (sum_of_nonneg prop_cost ps prop_cost_nonneg).
  assert (0 <= foldr (fun c s => node_cost c + s) 0 cs); [|lia].
  induction cs as [|c cs IHc]; cbn [foldr]; [lia|]. cbn [forallb] in Oc. apply andb_true_iff in Oc as [O1 O2].
  specialize (IH c O1). specialize (IHc O2). lia.
Qed.

Lemma runs_children k d :
  (forall n p c, tree_ok k n = true -> runs d (emit n) (p, c) (p, c ++ [n]) (node_cost n)) ->
  forall cs ps c0, forallb (tree_ok k) cs = true ->
  0 <= foldr (fun c s => node_cost c + s) 0 cs
  /\ runs d (steps (map emit cs)) (ps, c0) (ps, c0 ++ cs) (foldr (fun c s => node_cost c + s) 0 cs).
Proof.
  intros E cs ps. induction cs as [|y cs IH]; intros c0 Oc; [rewrite app_nil_r; split; [done|apply runs_nil]|].
  cbn [forallb] in Oc. apply andb_true_iff in Oc as [O1 O2]. destruct (IH (c0 ++ [y]) O2) as [P R].
  pose proof (node_cost_nonneg k y O1). cbn [foldr map]. split; [lia|].
  apply runs_cons with (b1 := (ps, c0 ++ [y])); [done|by apply E|]. by rewrite <- app_assoc in R.
Qed.

Lemma runs_emit k : forall n d p c, tree_ok k n = true -> (d + k < 63)%nat -> runs d (emit n) (p, c) (p, c ++ [n]) (node_cost n).
Proof.
  induction k as [|k IH]; intros [x ps cs] d p c; [done|]. cbn [tree_ok]. rewrite !andb_true_iff. intros [[On Op] Oc] D.
  cbn [emit node_cost].
  destruct (runs_children k (S d) (fun y q c' O => IH y (S d) q c' O ltac:(lia)) cs ps [] Oc) as [P R].
  apply (runs_node d x _ (ps, cs)); [lia|pose proof (sum_of_nonneg prop_cost ps prop_cost_nonneg); lia|done|].
  apply runs_app with (b1 := (ps, [])); [done|by apply (runs_props (S d) ps [])|exact R].
Qed.

(** The writer takes any such tree that fits, and its blob describes it. *)
Lemma emit_blob k n : tree_ok k n = true -> (k < 60)%nat -> node_cost n + 256 < 2 ^ 31 ->
  exists blob, (w ← fdt_new; w ← emit n w; finish_fdt w) = Some blob
    /\ fdt_describes blob n /\ bytes_wf blob /\ zlen blob <= node_cost n + 128.
Proof.
  intros Ok K C. destruct k as [|k]; [done|]. destruct n as [x ps cs]. cbn [tree_ok] in Ok. rewrite !andb_true_iff in Ok.
  destruct Ok as [[On Op] Oc]. cbn [node_cost] in *. pose proof (slen_nonneg x) as Lx.
  destruct fdt_new_law as (w0 & -> & E0 & U0). cbn [mbind option_bind emit]. unfold node.
  destruct (runs_children k 0 (fun y q c' O => runs_emit k y 0 q c' O ltac:(lia)) cs ps [] Oc) as [P R].
  pose proof (sum_of_nonneg prop_cost ps prop_cost_nonneg) as Pp.
  destruct (begin_node_law w0 x [] E0) as (w1 & t & -> & E1 & U1); [cbn; lia|done|lia|]. cbn [mbind option_bind].
  assert (B : runs 0 (steps (map (fun q => property q.1 q.2) ps ++ map emit cs)) ([], []) (ps, cs)
    (sum_of prop_cost ps + foldr (fun c s => node_cost c + s) 0 cs)).
  { apply runs_app with (b1 := (ps, [])); [done|by apply (runs_props 0 ps [])|exact R]. }
  destruct (B w1 t x [] E1) as (w2 & -> & E2 & U2); [cbn; lia|lia|]. cbn [mbind option_bind].
  destruct (end_node_law w2 _ _ _ _ E2) as (w3 & -> & E3 & U3); [lia|]. cbn [mbind option_bind].
  destruct (finish_law w3 _ E3) as (blob & Eb & Rb & Wb & Lb); [lia|]. exists blob. repeat (split; [done|]). lia.
Qed.
End Runs.

(** ** Well-formed trees *)

Fixpoint get_prop (k : string) (ps : Props) : option PropVal :=
  match ps with [] => None | (k', v) :: ps => if String.eqb k' k then Some v else get_prop k ps end.
Definition as_u32 (v : PropVal) : option Z := match v with PU32 x => Some x | _ => None end.
(** 32-bit cells of a value. *)
Definition cells (v : PropVal) : Z :=
  match v with PU32 _ => 1 | PU64 _ => 2 | PArrayU32 l => zlen l | PArrayU64 l => 2 * zlen l | _ => 0 end.
Definition first_addr (v : PropVal) : option Z :=
  match v with PU32 x => Some x | PU64 x => Some x | PArrayU64 (x :: _) => Some x | PArrayU32 (x :: _) => Some x | _ => None end.

Fixpoint all_nodes (n : FdtNode) : list FdtNode := let '(mkNode _ _ cs) := n in n :: concat (map all_nodes cs).
Definition phandle_of (n : FdtNode) : option Z := v ← get_prop "phandle" (node_props n); as_u32 v.
(** The [key] cell count of the node a phandle names. *)
Definition provider_cells (nodes : list FdtNode) (key : string) (h : Z) : option Z :=
  n ← List.find (fun n => bool_decide (phandle_of n = Some h)) nodes; v ← get_prop key (node_props n); as_u32 v.

(** [name@unit] with the unit of the first address, and no [@] without reg. *)
Definition unit_ok (name : string) (reg : option PropVal) : bool :=
  match split_once (ch "@") name, reg with
  | Some (_, u), Some v => match first_addr v with Some a => String.eqb u (hex a) | None => false end
  | None, None => true
  | _, _ => false
  end.

(** The rules of the devicetree specification for names, reg, interrupts and
    clocks, under a parent with [ac] address and [sc] size cells. *)
Fixpoint typed_node (all : list FdtNode) (ac sc : Z) (n : FdtNode) : bool :=
  let '(mkNode x ps cs) := n in
  bool_decide (NoDup (map fst ps)) && bool_decide (NoDup (map node_name cs))
  && unit_ok x (get_prop "reg" ps)
  && match get_prop "reg" ps with Some v => (0 <? cells v) && (cells v mod (ac + sc) =? 0) | None => true end
  && match get_prop "interrupts" ps with
     | Some (PArrayU32 l) =>
         match (get_prop "interrupt-parent" ps ≫= as_u32) ≫= provider_cells all "#interrupt-cells" with
         | Some c => (0 <? zlen l) && (zlen l mod c =? 0) | None => false end
     | Some _ => false | None => true end
  && match get_prop "clocks" ps with
     | Some (PArrayU32 l) => forallb (fun h => bool_decide (provider_cells all "#clock-cells" h = Some 0)) l
     | Some _ => false | None => true end
  && forallb (typed_node all (default 2 (get_prop "#address-cells" ps ≫= as_u32)) (default 1 (get_prop "#size-cells" ps ≫= as_u32))) cs.
Definition typed_tree (root : FdtNode) : bool :=
  let all := all_nodes root in
  typed_node all 2 1 root && bool_decide (NoDup (omap phandle_of all)).

Fixpoint hex_val (acc : Z) (s : string) : Z :=
  match s with
  | EmptyString => acc
  | String c s => let n := Z.of_nat (Ascii.nat_of_ascii c) in hex_val (16 * acc + (if n <? 58 then n - 48 else n - 87)) s
  end.

Lemma hex_val_char d acc s : 0 <= d < 16 -> hex_val acc (String (hex_char d) s) = hex_val (16 * acc + d) s.
Proof.
  intros D. cbn [hex_val]. f_equal. unfold hex_char. rewrite Ascii.nat_ascii_embedding by (destruct (Z.ltb_spec d 10); lia).
  destruct (Z.ltb_spec d 10); rewrite Z2Nat.id by lia; [destruct (Z.ltb_spec (48 + d) 58)|destruct (Z.ltb_spec (87 + d) 58)]; lia.
Qed.

Lemma hex_val_go f : forall n s, 0 <= n < 16 ^ Z.of_nat f -> (0 < f)%nat -> hex_val 0 (hex_go f n s) = hex_val n s.
Proof.
  induction f as [|f IH]; intros n s N F; [lia|]. cbn [hex_go]. pose proof (Z.mod_pos_bound n 16 ltac:(lia)).
  pose proof (Z.div_mod n 16 ltac:(lia)). destruct (Z.eqb_spec (n / 16) 0) as [E|E].
  - rewrite hex_val_char by lia. f_equal. lia.
  - assert (B : n / 16 < 16 ^ Z.of_nat f).
    { apply Z.div_lt_upper_bound; [lia|]. replace (Z.of_nat (S f)) with (Z.of_nat f + 1) in N by lia.
      rewrite Z.pow_add_r in N by lia. lia. }
    assert (0 <= n / 16) by (apply Z.div_pos; lia).
    rewrite IH; [|done|destruct f; [cbn in B; lia|lia]]. rewrite hex_val_char by lia. f_equal. lia.
Qed.

Lemma hex_inj a b : fits 64 a -> fits 64 b -> hex a = hex b -> a = b.
Proof.
  intros A B E. assert (V : forall x, fits 64 x -> hex_val 0 (hex x) = x).
  { intros x X. unfold hex. rewrite hex_val_go; [done| |lia]. change (16 ^ Z.of_nat 16) with (2 ^ 64). lia. }
  rewrite <- (V a A), <- (V b B). by rewrite E.
Qed.

Section Typed.
Variable p : DtbParams.

Definition cpu_trees : list FdtNode := map cpu_tree (seq 0 (Z.to_nat (Z.max (p_vcpus p) 1))).
Definition virtio_trees : list FdtNode := map virtio_tree (p_virtio p).

Lemma leaves_nodes {A} (f : A -> FdtNode) (l : list A) : (forall x, node_children (f x) = []) -> concat (map all_nodes (map f l)) = map f l.
Proof.
  intros L. induction l as [|x l IH]; [done|]. cbn [map concat]. rewrite IH. specialize (L x).
  destruct (f x) as [n ps cs]. cbn in L. by subst cs.
Qed.

Lemma cpu_leaf i : node_children (cpu_tree i) = [].
Proof. done. Qed.
Lemma virtio_leaf d : node_children (virtio_tree d) = [].
Proof. by destruct d as [[b s] i]. Qed.

Lemma dtb_nodes : exists before between,
  all_nodes (dtb_tree p) = before ++ nth 4 (fixed_nodes p) (mkNode EmptyString [] []) :: between
    ++ nth 6 (fixed_nodes p) (mkNode EmptyString [] []) :: nth 7 (fixed_nodes p) (mkNode EmptyString [] []) :: virtio_trees
  /\ Forall (fun n => phandle_of n = None) before /\ Forall (fun n => phandle_of n = None) between
  /\ Forall (fun n => phandle_of n = None) virtio_trees.
Proof.
  assert (Ph : forall (A : Type) (f : A -> FdtNode) l, (forall x, phandle_of (f x) = None) -> Forall (fun n => phandle_of n = None) (map f l)).
  { intros A f l P. apply Forall_map, Forall_forall. auto. }
  set (f := fixed_nodes p).
  exists ([dtb_tree p; nth 0 f (dtb_tree p); nth 1 f (dtb_tree p); nth 2 f (dtb_tree p)] ++ cpu_trees ++ [nth 3 f (dtb_tree p)]),
    [nth 5 f (dtb_tree p)].
  split; [|split; [|split]].
  - unfold dtb_tree at 1. cbn [all_nodes]. rewrite map_app, concat_app, leaves_nodes by apply virtio_leaf.
    unfold f, fixed_nodes. cbn [map concat all_nodes nth]. rewrite leaves_nodes by apply cpu_leaf. cbn [app].
    rewrite <- !app_assoc. reflexivity.
  - rewrite !Forall_app. split; [|split; [by apply Ph|by repeat constructor]].
    repeat constructor. unfold f, phandle_of. cbn [fixed_nodes nth node_props]. unfold chosen_props.
    destruct (p_initrd p) as [[s e]|], (p_rng_seed p); reflexivity.
  - by repeat constructor.
  - apply Ph. by intros [[b s] i].
Qed.

Lemma find_app_none {A} (f : A -> bool) l x l' : Forall (fun y => f y = false) l -> f x = true -> List.find f (l ++ x :: l') = Some x.
Proof. induction 1 as [|y l Y _ IH]; cbn; [by intros ->|]. by rewrite Y. Qed.

Lemma providers : provider_cells (all_nodes (dtb_tree p)) "#interrupt-cells" GIC_PHANDLE = Some 3
  /\ provider_cells (all_nodes (dtb_tree p)) "#clock-cells" APB_PCLK_PHANDLE = Some 0
  /\ omap phandle_of (all_nodes (dtb_tree p)) = [GIC_PHANDLE; APB_PCLK_PHANDLE].
Proof.
  destruct dtb_nodes as (b & t & -> & Hb & Ht & Hv). unfold provider_cells.
  assert (N : forall l h, Forall (fun n => phandle_of n = None) l -> Forall (fun n => bool_decide (phandle_of n = Some h) = false) l).
  { intros l h F. eapply Forall_impl; [exact F|]. by intros n ->. }
  assert (O : forall l l', Forall (fun n => phandle_of n = None) l -> omap phandle_of (l ++ l') = omap phandle_of l').
  { intros l l' F. induction F as [|n l Hn _ IH]; [done|]. cbn [app omap list_omap]. by rewrite Hn. }
  split; [|split].
  - by rewrite find_app_none; [|by apply N|].
  - change (b ++ ?x :: t ++ ?l) with (b ++ [x] ++ (t ++ l)). rewrite !app_assoc. rewrite find_app_none; [done| |done].
    rewrite !Forall_app. split; [split; [by apply N|by repeat constructor]|by apply N].
  - assert (C : forall x h l, phandle_of x = Some h -> omap phandle_of (x :: l) = h :: omap phandle_of l) by (intros x h l E; cbn; by rewrite E).
    rewrite O by done. rewrite (C _ GIC_PHANDLE) by done. rewrite O by done. rewrite (C _ APB_PCLK_PHANDLE) by done.
    f_equal. f_equal. change (omap phandle_of ([nth 7 (fixed_nodes p) (mkNode EmptyString [] [])] ++ virtio_trees) = []).
    rewrite O by by repeat constructor. rewrite <- (app_nil_r virtio_trees). by rewrite O.
Qed.

Lemma hex_small i : (i < 10)%nat -> hex (Z.of_nat i) = pretty i.
Proof. intros L. do 10 (destruct i as [|i]; [vm_compute; reflexivity|]). lia. Qed.

Lemma typed_cpu all i : (i < 10)%nat -> typed_node all 1 0 (cpu_tree i) = true.
Proof.
  intros L. unfold cpu_tree. cbn [typed_node]. repeat (apply andb_true_intro; split); try reflexivity.
  change (String.eqb (pretty i) (hex (Z.of_nat i)) = true). rewrite hex_small by done. apply String.eqb_refl.
Qed.

Lemma typed_virtio all d : provider_cells all "#interrupt-cells" GIC_PHANDLE = Some 3 -> typed_node all 2 2 (virtio_tree d) = true.
Proof.
  intros P. destruct d as [[base size] spi]. unfold virtio_tree. cbn [typed_node].
  change (get_prop "interrupt-parent" _ ≫= as_u32) with (Some GIC_PHANDLE). cbn [mbind option_bind]. rewrite P.
  repeat (apply andb_true_intro; split); try reflexivity.
  change (String.eqb (hex base) (hex base) = true). apply String.eqb_refl.
Qed.

Lemma names_fixed : NoDup (map node_name (fixed_nodes p)).
Proof.
  unfold fixed_nodes, intc_name. destruct (p_gic p); cbn [map node_name]; repeat apply NoDup_cons_2;
    rewrite ?not_elem_of_cons; repeat split; try discriminate; try apply not_elem_of_nil; apply NoDup_nil_2.
Qed.

Lemma names_virtio : map node_name (map virtio_tree (p_virtio p)) = (fun b => "virtio_mmio@" +:+ hex b) <$> (p_virtio p).*1.*1.
Proof. rewrite map_map, <- !list_fmap_compose. apply map_ext. by intros [[b s] i]. Qed.

Lemma names_apart x : x ∈ map node_name (fixed_nodes p) -> x ∉ map node_name (map virtio_tree (p_virtio p)).
Proof.
  intros I. rewrite names_virtio, list_elem_of_fmap. intros (b & -> & _). revert I.
  unfold fixed_nodes, intc_name. destruct (p_gic p); cbn [map node_name]; rewrite !elem_of_cons, elem_of_nil; intuition discriminate.
Qed.

Lemma typed_fixed all : p_vcpus p <= 10 -> provider_cells all "#interrupt-cells" GIC_PHANDLE = Some 3 ->
  provider_cells all "#clock-cells" APB_PCLK_PHANDLE = Some 0 -> forallb (typed_node all 2 2) (fixed_nodes p) = true.
Proof.
  intros Lv P1 P2. apply forallb_forall.
  intros n [<-|[<-|[<-|[<-|[<-|[<-|[<-|[<-|[]]]]]]]]]; try reflexivity.
  - unfold chosen_props. destruct (p_initrd p) as [[]|], (p_rng_seed p); reflexivity.
  - cbn [typed_node]. repeat (apply andb_true_intro; split); try reflexivity.
    + apply bool_decide_eq_true. rewrite map_map. apply NoDup_fmap_2_strong; [|apply NoDup_seq].
      intros a b _ _ E. injection E. apply (inj pretty).
    + apply forallb_forall. intros n I. apply in_map_iff in I as (i & <- & Hi%in_seq). apply typed_cpu. lia.
  - unfold intc_name, gic_compatible, gic_reg. destruct (p_gic p) as [g|]; [|reflexivity]. cbn [typed_node].
    repeat (apply andb_true_intro; split); try reflexivity.
    change (String.eqb (hex (dist_base g)) (hex (dist_base g)) = true). apply String.eqb_refl.
  - cbn [typed_node]. change (get_prop "interrupt-parent" _ ≫= as_u32) with (Some GIC_PHANDLE). cbn [mbind option_bind]. by rewrite P1.
  - cbn [typed_node]. change (get_prop "interrupt-parent" _ ≫= as_u32) with (Some GIC_PHANDLE). cbn [mbind option_bind]. rewrite P1.
    repeat (apply andb_true_intro; split); try reflexivity; cbn; by rewrite P2.
Qed.

(** The tree is well formed whatever the configuration. *)
Lemma dtb_tree_typed : p_vcpus p <= 10 -> NoDup (p_virtio p).*1.*1 -> Forall (fun d => fits 64 d.1.1) (p_virtio p) ->
  typed_tree (dtb_tree p) = true.
Proof.
  intros Lv Nd Fb. unfold typed_tree. destruct providers as (P1 & P2 & Po). rewrite Po. apply andb_true_iff. split; [|done].
  generalize dependent (all_nodes (dtb_tree p)). intros all P1 P2 _. unfold dtb_tree. cbn [typed_node]. rewrite !andb_true_iff.
  repeat match goal with |- _ /\ _ => split end; try reflexivity.
  - apply bool_decide_eq_true. rewrite map_app. apply NoDup_app. split; [exact names_fixed|]. split; [exact names_apart|].
    rewrite names_virtio. apply NoDup_fmap_2_strong; [|done]. intros a b Ia Ib E.
    rewrite Forall_forall in Fb. apply list_elem_of_fmap in Ia as (q & -> & (d & -> & Id)%list_elem_of_fmap).
    apply list_elem_of_fmap in Ib as (q & -> & (d' & -> & Id')%list_elem_of_fmap).
    apply hex_inj; [by apply Fb|by apply Fb|]. by injection E.
  - rewrite forallb_app. apply andb_true_intro. split; [by apply typed_fixed|].
    apply forallb_forall. intros n I. apply in_map_iff in I as (d & <- & _). by apply typed_virtio.
Qed.
End Typed.

(** ** Building *)

Section Builds.
Context {W Tok : Type} `{FdtLaws W Tok}.
Variable p : DtbParams.

Lemma root_emits : build (W := W) p = match w ← fdt_new; w ← emit (dtb_tree p) w; finish_fdt w with Some blob => inl blob | None => inr EFdt end.
Proof.
  unfold build. assert (E : emit (dtb_tree p) = node (W := W) EmptyString (root p)); [|by rewrite E].
  assert (M : forall A (f g : A -> Act (W := W)) l, (forall x, f x = g x) -> map f l = map g l) by (intros; by apply map_ext).
  unfold dtb_tree, root. cbn [emit]. f_equal. rewrite map_app, map_map. cbn [map app fst snd fixed_nodes emit].
  do 4 f_equal. unfold chosen, chosen_props, intc, gic_compatible, gic_reg, memory, cpus, psci, timer, apb_pclk, pl011.
  f_equal; [by destruct (p_initrd p) as [[]|], (p_rng_seed p)|]. f_equal. f_equal.
  { cbn [app map]. by rewrite map_map. }
  f_equal. f_equal; [by destruct (p_gic p)|]. do 3 f_equal. apply M. by intros [[b s] i].
Qed.

Lemma hex_go_slen f n acc : slen (hex_go f n acc) <= Z.of_nat f + slen acc.
Proof.
  revert n acc. induction f as [|f IH]; intros n acc; cbn [hex_go]; [lia|].
  assert (L : slen (String (hex_char (n mod 16)) acc) = 1 + slen acc) by (unfold slen; cbn [String.length]; lia).
  destruct (n / 16 =? 0); [rewrite L; lia|]. specialize (IH (n / 16) (String (hex_char (n mod 16)) acc)). lia.
Qed.

Lemma hex_char_ok d : 0 <= d < 16 -> Ascii.eqb (hex_char d) Ascii.zero = false.
Proof.
  intros D. apply Ascii.eqb_neq. unfold hex_char. intros E. apply (f_equal Ascii.nat_of_ascii) in E.
  rewrite Ascii.nat_ascii_embedding in E by (destruct (Z.ltb_spec d 10); lia).
  change (Ascii.nat_of_ascii Ascii.zero) with O in E. destruct (Z.ltb_spec d 10); lia.
Qed.

Lemma hex_go_ok f n acc : contains Ascii.zero acc = false -> contains Ascii.zero (hex_go f n acc) = false.
Proof.
  revert n acc. induction f as [|f IH]; intros n acc A; cbn [hex_go]; [done|].
  assert (C : contains Ascii.zero (String (hex_char (n mod 16)) acc) = false).
  { rewrite contains_cons, A, hex_char_ok by (apply Z.mod_pos_bound; lia). done. }
  destruct (n / 16 =? 0); [done|by apply IH].
Qed.

Lemma slen_app a b : slen (a +:+ b) = slen a + slen b.
Proof. unfold slen. rewrite length_app_string. lia. Qed.

Lemma unit_name pre n : contains Ascii.zero pre = false -> name_ok (pre +:+ hex n) = true /\ slen (pre +:+ hex n) <= slen pre + 16.
Proof.
  intros C. split.
  - unfold name_ok, hex. by rewrite contains_app, C, hex_go_ok.
  - rewrite slen_app. pose proof (hex_go_slen 16 n EmptyString). unfold hex. change (slen EmptyString) with 0 in *. lia.
Qed.

Lemma cpu_fine i : (i < 10)%nat -> tree_ok 1 (cpu_tree i) = true /\ node_cost (cpu_tree i) = 226.
Proof. intros L. do 10 (destruct i as [|i]; [split; vm_compute; reflexivity|]). lia. Qed.

Lemma virtio_fine d : tree_ok 1 (virtio_tree d) = true /\ 0 <= node_cost (virtio_tree d) <= 271.
Proof.
  destruct d as [[b s] i]. destruct (unit_name "virtio_mmio@" b eq_refl) as [N L]. change (slen "virtio_mmio@") with 12 in L.
  pose proof (slen_nonneg ("virtio_mmio@" +:+ hex b)).
  split; [|change (node_cost (virtio_tree (b, s, i))) with (32 + slen ("virtio_mmio@" +:+ hex b) + (211 + 0)); lia].
  unfold virtio_tree. cbn [tree_ok]. by rewrite N.
Qed.

Lemma list_cost {A} (f : A -> FdtNode) c l : (forall x, In x l -> 0 <= node_cost (f x) <= c) ->
  0 <= foldr (fun y s => node_cost y + s) 0 (map f l) <= c * zlen l.
Proof.
  induction l as [|x l IH]; intros F; [change (zlen (@nil A)) with 0; cbn [map foldr]; lia|]. rewrite zlen_cons. cbn [map foldr].
  pose proof (F x (or_introl eq_refl)). specialize (IH (fun y I => F y (or_intror I))). nia.
Qed.

Hypothesis cmdline_ok : contains Ascii.zero (p_cmdline p) = false.
Hypothesis few : p_vcpus p <= 10.

Lemma tree_fine : tree_ok 3 (dtb_tree p) = true
  /\ node_cost (dtb_tree p) <= 5000 + slen (p_cmdline p) + zlen (p_rng_seed p) + 271 * zlen (p_virtio p).
Proof.
  assert (Cp : forall i, In i (seq 0 (Z.to_nat (Z.max (p_vcpus p) 1))) -> (i < 10)%nat) by (intros i I%in_seq; lia).
  assert (In_ : name_ok (intc_name p) = true /\ slen (intc_name p) <= 21).
  { unfold intc_name. destruct (p_gic p) as [g|]; [|by split]. apply (unit_name "intc@"). done. }
  destruct In_ as [In_ Il]. split.
  - assert (T1 : forallb (tree_ok 1) (map cpu_tree (seq 0 (Z.to_nat (Z.max (p_vcpus p) 1)))) = true).
    { apply forallb_forall. intros n (i & <- & I)%in_map_iff. apply cpu_fine. auto. }
    assert (T2 : forall k, forallb (tree_ok (S k)) (map virtio_tree (p_virtio p)) = true).
    { intros k. apply forallb_forall. intros n ([[b s] i] & <- & _)%in_map_iff. apply (virtio_fine (b, s, i)). }
    assert (T3 : forallb prop_ok (chosen_props p) = true).
    { assert (Pb : prop_ok ("bootargs", PString (p_cmdline p)) = true) by (unfold prop_ok; cbn [snd val_ok]; by rewrite cmdline_ok).
      unfold chosen_props. destruct (p_initrd p) as [[]|], (p_rng_seed p); cbn [app forallb]; by rewrite Pb. }
    unfold dtb_tree. rewrite tree_okS, forallb_app, (T2 1%nat), !andb_true_r.
    change (forallb (tree_ok 2) (fixed_nodes p) = true). apply forallb_forall.
    unfold fixed_nodes. intros n [<-|[<-|[<-|[<-|[<-|[<-|[<-|[<-|[]]]]]]]]]; try reflexivity; rewrite tree_okS.
    + by rewrite T3.
    + by rewrite T1.
    + rewrite In_. unfold gic_compatible. by destruct (p_gic p) as [[? ? ? ? []]|].
  - assert (Cc : node_cost (mkNode "chosen" (chosen_props p) []) <= 300 + slen (p_cmdline p) + zlen (p_rng_seed p)).
    { unfold chosen_props. pose proof (slen_nonneg (p_cmdline p)). pose proof (zlen_nonneg (p_rng_seed p)).
      destruct (p_initrd p) as [[]|], (p_rng_seed p) as [|x l]; cbn [app node_cost sum_of foldr prop_cost fst snd val_len];
        unfold prop_cost; cbn [fst snd val_len];
        repeat match goal with |- context [slen ?s] => match s with String _ _ => let v := eval vm_compute in (slen s) in change (slen s) with v end end; lia. }
    pose proof (list_cost cpu_tree 226 (seq 0 (Z.to_nat (Z.max (p_vcpus p) 1)))
      (fun i I => ltac:(rewrite (proj2 (cpu_fine i (Cp i I))); lia))) as C1.
    pose proof (list_cost virtio_tree 271 (p_virtio p) (fun d _ => proj2 (virtio_fine d))) as C2.
    assert (L1 : zlen (seq 0 (Z.to_nat (Z.max (p_vcpus p) 1))) <= 10) by (unfold zlen; rewrite length_seq; lia).
    assert (Ci : node_cost (nth 4 (fixed_nodes p) (dtb_tree p)) <= 330 + slen (intc_name p)).
    { unfold fixed_nodes. cbn [nth node_cost foldr].
      assert (sum_of prop_cost [("compatible", PString (gic_compatible p)); ("#interrupt-cells", PU32 3); ("interrupt-controller", PNull);
        ("reg", PArrayU64 (gic_reg p)); ("phandle", PU32 GIC_PHANDLE)] <= 290); [|lia].
      unfold gic_compatible, gic_reg. destruct (p_gic p) as [[? ? ? ? []]|]; vm_compute; discriminate. }
    assert (Cu : node_cost (nth 2 (fixed_nodes p) (dtb_tree p)) <= 2430).
    { unfold fixed_nodes. cbn [nth node_cost]. change (slen "cpus") with 4.
      change (sum_of prop_cost [("#address-cells", PU32 1); ("#size-cells", PU32 0)]) with 97. lia. }
    change (node_cost (dtb_tree p)) with (32 + 0 + (199 + foldr (fun c s => node_cost c + s) 0 (fixed_nodes p ++ map virtio_tree (p_virtio p)))).
    rewrite foldr_app. unfold fixed_nodes in Ci, Cu |- *. cbn [nth foldr] in Ci, Cu |- *.
    repeat match goal with |- context [node_cost (mkNode (String ?c ?x) ?ps [])] =>
      lazymatch ps with chosen_props _ => fail | _ => idtac end;
      let n := constr:(mkNode (String c x) ps []) in let v := eval vm_compute in (node_cost n) in
      lazymatch v with Zpos _ => change (node_cost n) with v end end.
    lia.
Qed.

(** The tree is built for every configuration a VM can have: the writer
    takes every call, and the blob that comes out describes the tree. *)
Theorem build_describes : slen (p_cmdline p) + zlen (p_rng_seed p) + 271 * zlen (p_virtio p) <= 2 ^ 20 ->
  exists blob, build (W := W) p = inl blob /\ fdt_describes blob (dtb_tree p) /\ bytes_wf blob
    /\ zlen blob <= 5128 + slen (p_cmdline p) + zlen (p_rng_seed p) + 271 * zlen (p_virtio p).
Proof.
  intros L. destruct tree_fine as [Ok C]. destruct (emit_blob 3 _ Ok) as (blob & Eb & Rb & Wb & Lb); [lia|lia|].
  exists blob. rewrite root_emits, Eb. repeat (split; [done|]). lia.
Qed.
(** C35: What is built is a well-formed tree whatever the configuration, as a
    reader of the devicetree rules checks it: names and properties are
    distinct, every unit address is its node's first address, every reg is
    made of whole entries of its parent's cell counts, every interrupt of
    whole specifiers of the controller its phandle names, every clock names a
    clock, and phandles are unique. *)
Theorem build_typed : slen (p_cmdline p) + zlen (p_rng_seed p) + 271 * zlen (p_virtio p) <= 2 ^ 20 ->
  NoDup (p_virtio p).*1.*1 -> Forall (fun d => fits 64 d.1.1) (p_virtio p) ->
  exists blob tree, build (W := W) p = inl blob /\ fdt_describes blob tree /\ typed_tree tree = true.
Proof.
  intros L Nd Fb. destruct (build_describes L) as (blob & E & D & _). exists blob, (dtb_tree p).
  split; [exact E|]. split; [exact D|]. by apply dtb_tree_typed.
Qed.
End Builds.

(** ** Booting *)

Section Boot.
Context {F : Type} `{DiskFileLaws F} {L : Type} `{RateLimiter L}.
Context {E : Type} `{EntropyLaws E}.
Context {B : Type} `{NetBackendLaws B}.
Context {VB VS : Type} `{HostStreamLaws VS} `{!VsockBackend VB VS} `{!VsockBackendLaws VB VS}.
Context `{HostMadvise}.
Context {W Tok : Type} `{FdtLaws W Tok}.

Abbreviation Vm := (Vm (F := F) (L := L) (E := E) (B := B) (VB := VB) (VS := VS)).
Abbreviation Host := (Host (F := F) (L := L) (E := E) (VB := VB)).

(** [virtio_nodes] and the parameters of [run]'s boot branch. *)
Definition boot_params (vm : Vm) (mem_size : Z) (cmdline : string) (gic : option GicInfo) (rng_seed : list Z) : DtbParams :=
  mkDtbParams mem_size (vm_vcpus vm) cmdline (vm_initrd vm) gic
    (map (fun d => (vd_base d, vd_size d, vd_intid d - layout.GIC_SPI_BASE)) (vm_virtio vm)) rng_seed.
(** The RAM the first vcpu starts on. *)
Definition boot (vm : Vm) (mem_size : Z) (cmdline : string) (gic : option GicInfo) (rng_seed : list Z) : Result GuestRam :=
  bindR (build (W := W) (boot_params vm mem_size cmdline gic rng_seed)) (fun blob =>
  GuestMemory_write (vm_mem vm) (vm_dtb_addr vm) blob).

Lemma prepared_dtb_addr (h : Host) cfg net (vm : Vm) : cfg_wf cfg -> prepare h cfg net = inl vm ->
  vm_dtb_addr vm = layout.RAM_BASE + layout.DTB_OFFSET.
Proof.
  intros C P. destruct (prepare_ram h cfg net vm C P) as (_ & Hb & _). rewrite <- Hb. clear Hb. revert P. unfold prepare, bindR.
  destruct (GuestMemory_try_new _ _ _); [|done]. destruct (load_kernel _ _) as [[m1 entry]|]; [|done].
  destruct (load_initramfs m1 _) as [[m2 ird]|]; [|done].
  destruct (match cfg_disk cfg with Some p => push_disk h [] p false | None => inl [] end); [|done].
  destruct (push_data_disks _ _ _); [|done]. destruct (open_rng h); [|done].
  cbn [push_balloon]. by intros [= <-].
Qed.

Section Prepared.
Variables (h : Host) (cfg : VmConfig) (net : option B) (vm : Vm) (cmdline : string) (gic : option GicInfo) (seed : list Z).
Hypothesis Hh : host_ok h.
Hypothesis Hc : cfg_wf cfg.
Hypothesis Hp : prepare h cfg net = inl vm.
Hypothesis Nc : contains Ascii.zero cmdline = false.
Hypothesis Lc : slen cmdline + zlen seed <= 2 ^ 16.
Hypothesis Ld : zlen (cfg_data_disks cfg) <= 217.
Hypothesis Lm : layout.DTB_OFFSET + 2 ^ 18 <= cfg_mem_size cfg.

Abbreviation params := (boot_params vm (cfg_mem_size cfg) cmdline gic seed).

Lemma boot_places : exists blob mem',
  boot vm (cfg_mem_size cfg) cmdline gic seed = inl mem' /\ fdt_describes blob (dtb_tree params) /\ zlen blob <= 2 ^ 18
  /\ ram_read mem' (vm_dtb_addr vm) (zlen blob) = Some blob /\ same_region (vm_mem vm) mem'
  /\ forall a, ~ vm_dtb_addr vm <= a < vm_dtb_addr vm + zlen blob -> ram_at mem' a = ram_at (vm_mem vm) a.
Proof.
  destruct (prepare_devices h cfg net vm Hh Hp) as (_ & _ & Vc & _).
  destruct (prepare_ram h cfg net vm Hc Hp) as (Wr & Hb & Hl). pose proof (prepared_few h cfg net vm Hh Hp Ld) as Few.
  assert (Lv : zlen (p_virtio params) <= 222) by (unfold zlen; cbn; rewrite length_map; lia).
  destruct (build_describes params Nc) as (blob & Eb & Rb & Wb & Lb); [cbn; lia|cbn [p_cmdline p_rng_seed boot_params] in *; lia|].
  cbn [p_cmdline p_rng_seed boot_params] in Lb. unfold boot. rewrite Eb. cbn [bindR].
  rewrite (prepared_dtb_addr h cfg net vm Hc Hp), GuestMemory_write_eq.
  set (at_ := layout.RAM_BASE + layout.DTB_OFFSET). pose proof (zlen_nonneg blob) as Lnn.
  assert (In_ : ram_in_range (vm_mem vm) at_ (zlen blob) = true).
  { unfold ram_in_range. rewrite (proj2 (ram_offset_iff _ _ _ layout.DTB_OFFSET Wr)); [done|].
    rewrite Hb, Hl. unfold at_, layout.RAM_BASE, layout.DTB_OFFSET in *. lia. }
  assert (Ok : snd (ram_write (vm_mem vm) at_ blob) = true).
  { unfold ram_in_range in In_. unfold ram_write. by destruct (ram_offset _ _ _). }
  rewrite Ok. exists blob, (fst (ram_write (vm_mem vm) at_ blob)). split; [done|]. split; [exact Rb|]. split; [lia|].
  split; [by apply ram_read_write_same|]. split; [apply ram_write_same_region|]. intros a Na. by apply ram_at_write_outside.
Qed.

Lemma boot_ram mem' : boot vm (cfg_mem_size cfg) cmdline gic seed = inl mem' -> ram_wf mem' /\ same_region (vm_mem vm) mem'.
Proof.
  destruct (prepare_devices h cfg net vm Hh Hp) as (_ & _ & Vc & _). destruct (prepare_ram h cfg net vm Hc Hp) as (Wr & _).
  pose proof (prepared_few h cfg net vm Hh Hp Ld) as Few.
  assert (Lv : zlen (p_virtio params) <= 222) by (unfold zlen; cbn; rewrite length_map; lia).
  destruct (build_describes params Nc) as (blob & Eb & _ & Wb & _); [cbn; lia|cbn [p_cmdline p_rng_seed boot_params] in *; lia|].
  unfold boot. rewrite Eb. cbn [bindR]. rewrite GuestMemory_write_eq. destruct (snd _); [|done]. intros [= <-].
  split; [by apply ram_write_wf|apply ram_write_same_region].
Qed.

Lemma prepared_entry : let off := of_le_bytes (slice 0x08 8 (cfg_kernel cfg)) in
  vm_entry vm = u64 (layout.RAM_BASE + (if off =? 0 then layout.KERNEL_OFFSET else off)).
Proof.
  cbv zeta. revert Hp. clear -Hc. unfold prepare, bindR. unfold GuestMemory_try_new. destruct (mmap_ok h); [|done].
  unfold load_kernel. destruct (_ <? _); [done|]. destruct (negb _); [done|]. cbv zeta.
  destruct (GuestMemory_write _ _ _) as [m1|]; [|done].
  destruct (load_initramfs m1 _) as [[m2 ird]|]; [|done].
  destruct (match cfg_disk cfg with Some p => push_disk h [] p false | None => inl [] end); [|done].
  destruct (push_data_disks _ _ _); [|done]. destruct (open_rng h); [|done].
  cbn [push_balloon]. by intros [= <-].
Qed.


(** A kernel that asks for an offset below 1 MiB, as kernels before 5.8
    ask for 512 KiB, is loaded there but booted with its image overwritten at
    1 MiB by the tree, when it reaches that far. *)
Theorem low_kernel_overwritten : let off := of_le_bytes (slice 0x08 8 (cfg_kernel cfg)) in
  0 < off <= layout.DTB_OFFSET -> layout.DTB_OFFSET + 2 ^ 18 <= off + zlen (cfg_kernel cfg) ->
  exists blob mem',
    boot vm (cfg_mem_size cfg) cmdline gic seed = inl mem' /\ fdt_describes blob (dtb_tree params)
    /\ vm_entry vm + (layout.DTB_OFFSET - off) = vm_dtb_addr vm
    /\ vm_dtb_addr vm + zlen blob <= vm_entry vm + zlen (cfg_kernel cfg)
    /\ ram_read mem' (vm_entry vm + (layout.DTB_OFFSET - off)) (zlen blob) = Some blob.
Proof.
  intros off Lo Lk. destruct boot_places as (blob & mem' & Eb & Rb & Lb & Rr & _). exists blob, mem'. split; [exact Eb|].
  split; [exact Rb|]. pose proof prepared_entry as Ee. cbv zeta in Ee. fold off in Ee.
  rewrite (proj2 (Z.eqb_neq off 0)) in Ee by lia.
  assert (A : vm_entry vm + (layout.DTB_OFFSET - off) = vm_dtb_addr vm).
  { rewrite (prepared_dtb_addr h cfg net vm Hc Hp), Ee. unfold u64, layout.RAM_BASE, layout.DTB_OFFSET in *.
    rewrite Z.mod_small by lia. lia. }
  split; [exact A|]. rewrite A. split; [lia|exact Rr].
Qed.
End Prepared.
End Boot.

(** ** A writer *)

(** Tokens are fresh numbers; the blob is each node's name, properties and
    subnodes between two marks. *)
Definition ToyW : Type := WState nat * nat.
Definition be32 (v : Z) : list Z := rev (le_bytes 4 v).
Definition be64 (v : Z) : list Z := rev (le_bytes 8 v).
Definition bytes_of (s : string) : list Z := map (fun b => b mod 256) (map (fun c => Z.of_nat (Ascii.nat_of_ascii c)) (String.list_ascii_of_string s)) ++ [0].
Definition flat_val (v : PropVal) : list Z :=
  match v with
  | PNull => [] | PString s => bytes_of s | PStringList l => concat (map bytes_of l)
  | PU32 x => be32 x | PU64 x => be64 x | PArrayU32 l => concat (map be32 l) | PArrayU64 l => concat (map be64 l)
  | PBytes bs => map (fun b => b mod 256) bs
  end.
Definition flat_prop (q : string * PropVal) : list Z := be32 3 ++ be32 (zlen (flat_val q.2)) ++ bytes_of q.1 ++ flat_val q.2.
Fixpoint flatten (n : FdtNode) : list Z :=
  let '(mkNode x ps cs) := n in be32 1 ++ bytes_of x ++ concat (map flat_prop ps) ++ concat (map flatten cs) ++ be32 2.

Definition frame_cost (f : nat * string * Body) : Z :=
  16 + slen f.1.2 + (sum_of prop_cost f.2.1 + foldr (fun c s => node_cost c + s) 0 f.2.2).
Definition toy_used (w : ToyW) : Z := match w.1 with Opened fs => sum_of frame_cost fs | Closed n => node_cost n end.

#[export] Instance toy_writer : FdtWriter ToyW nat := {|
  fdt_new := Some (Opened [], 0%nat);
  begin_node n w :=
    match w.1 with
    | Opened fs => if (length fs <? 64)%nat && name_ok n then Some ((Opened ((w.2, n, ([], [])) :: fs), S w.2), w.2) else None
    | Closed _ => None end;
  end_node t w :=
    match w.1 with
    | Opened ((t', n, b) :: fs) => if (t =? t')%nat then Some (close_node n b fs, w.2) else None
    | _ => None end;
  property n v w :=
    match w.1 with
    | Opened ((t, x, (p, [])) :: fs) => if name_ok n && val_ok v then Some (Opened ((t, x, (p ++ [(n, v)], [])) :: fs), w.2) else None
    | _ => None end;
  finish_fdt w := match w.1 with Closed n => Some (flatten n) | Opened _ => None end |}.

Lemma sum_of_app {A} (f : A -> Z) l l' : sum_of f (l ++ l') = sum_of f l + sum_of f l'.
Proof. induction l as [|x l IH]; [done|]. cbn [app]. unfold sum_of in *. cbn [foldr]. lia. Qed.

Lemma children_cost_snoc cs n :
  foldr (fun c s => node_cost c + s) 0 (cs ++ [n]) = foldr (fun c s => node_cost c + s) 0 cs + node_cost n.
Proof. induction cs as [|c cs IH]; cbn [app foldr]; lia. Qed.

Lemma sum_of_cons {A} (f : A -> Z) x l : sum_of f (x :: l) = f x + sum_of f l.
Proof. done. Qed.

Lemma toy_close n b fs k : toy_used (close_node n b fs, k) = frame_cost (O, n, b) + 16 + sum_of frame_cost fs.
Proof.
  destruct b as [p c], fs as [|[[t n'] [p' c']] fs]; unfold toy_used, close_node; cbn [fst snd node_cost].
  - change (sum_of frame_cost []) with 0. unfold frame_cost. cbn [fst snd]. lia.
  - rewrite !sum_of_cons. unfold frame_cost. cbn [fst snd]. rewrite children_cost_snoc. cbn [node_cost]. lia.
Qed.

Lemma zlen_bytes_of s : zlen (bytes_of s) = slen s + 1.
Proof.
  unfold bytes_of. rewrite zlen_app. unfold zlen at 1. rewrite !length_map. unfold slen.
  assert (length (String.list_ascii_of_string s) = String.length s) as ->; [|done]. induction s as [|c s IH]; cbn; [done|by rewrite IH].
Qed.
Lemma zlen_be32 v : zlen (be32 v) = 4.
Proof. unfold be32, zlen. rewrite length_rev, length_le_bytes. done. Qed.
Lemma zlen_be64 v : zlen (be64 v) = 8.
Proof. unfold be64, zlen. rewrite length_rev, length_le_bytes. done. Qed.
Lemma zlen_concat_map {A} (f : A -> list Z) l : zlen (concat (map f l)) = sum_of (fun x => zlen (f x)) l.
Proof. induction l as [|x l IH]; [done|]. cbn [map concat]. by rewrite zlen_app, IH, sum_of_cons. Qed.
Lemma sum_of_const {A} (c : Z) (l : list A) : sum_of (fun _ => c) l = c * zlen l.
Proof. induction l as [|x l IH]; [unfold zlen; cbn; lia|]. rewrite sum_of_cons, IH, zlen_cons. lia. Qed.
Lemma sum_of_le {A} (f g : A -> Z) l : (forall x, f x <= g x) -> sum_of f l <= sum_of g l.
Proof. intros L. induction l as [|x l IH]; [done|]. rewrite !sum_of_cons. specialize (L x). lia. Qed.
Lemma sum_of_ext {A} (f g : A -> Z) l : (forall x, f x = g x) -> sum_of f l = sum_of g l.
Proof. intros L. induction l as [|x l IH]; [done|]. by rewrite !sum_of_cons, L, IH. Qed.

Lemma zlen_flat_val v : zlen (flat_val v) = val_len v.
Proof.
  destruct v; cbn [flat_val val_len]; rewrite ?zlen_concat_map; try done; try apply zlen_be32; try apply zlen_be64.
  - apply zlen_bytes_of.
  - apply sum_of_ext, zlen_bytes_of.
  - rewrite (sum_of_ext _ (fun _ => 4)) by apply zlen_be32. apply sum_of_const.
  - rewrite (sum_of_ext _ (fun _ => 8)) by apply zlen_be64. apply sum_of_const.
  - unfold zlen. by rewrite length_map.
Qed.

Lemma zlen_flat_prop q : zlen (flat_prop q) <= prop_cost q.
Proof. unfold flat_prop, prop_cost. rewrite !zlen_app, !zlen_be32, zlen_bytes_of, zlen_flat_val. lia. Qed.

Lemma bytes_map_mod l : bytes_wf (map (fun b => b mod 256) l).
Proof. apply Forall_map, Forall_forall. intros b _. pose proof (Z.mod_pos_bound b 256 ltac:(lia)) as H. exact H. Qed.
Lemma bytes_rev l : bytes_wf l -> bytes_wf (rev l).
Proof. apply Forall_rev. Qed.
Lemma bytes_concat {A} (f : A -> list Z) l : (forall x, bytes_wf (f x)) -> bytes_wf (concat (map f l)).
Proof. intros B. induction l as [|x l IH]; [constructor|]. cbn [map concat]. by apply Forall_app_2. Qed.
Lemma bytes_of_wf s : bytes_wf (bytes_of s).
Proof. apply Forall_app_2; [apply bytes_map_mod|by repeat constructor]. Qed.
Lemma flat_prop_wf q : bytes_wf (flat_prop q).
Proof.
  assert (B4 : forall v, bytes_wf (be32 v)) by (intros; apply bytes_rev, le_bytes_wf).
  assert (B8 : forall v, bytes_wf (be64 v)) by (intros; apply bytes_rev, le_bytes_wf).
  unfold flat_prop. do 3 (apply Forall_app_2; [done || apply bytes_of_wf|]).
  destruct q.2; cbn [flat_val]; auto using bytes_of_wf, bytes_map_mod; try (apply bytes_concat; auto using bytes_of_wf); constructor.
Qed.

Lemma flatten_fine : forall n, bytes_wf (flatten n) /\ zlen (flatten n) <= node_cost n.
Proof.
  fix IH 1. intros [x ps cs]. cbn [flatten node_cost].
  assert (C : bytes_wf (concat (map flatten cs)) /\ zlen (concat (map flatten cs)) <= foldr (fun c s => node_cost c + s) 0 cs).
  { induction cs as [|c cs IHc]; [split; [constructor|done]|]. cbn [map concat foldr]. destruct (IH c) as [W1 L1], IHc as [W2 L2].
    split; [by apply Forall_app_2|]. rewrite zlen_app. lia. }
  destruct C as [W L]. clear IH. split.
  - do 4 (apply Forall_app_2; [first [done|apply bytes_of_wf|apply bytes_rev, le_bytes_wf|apply bytes_concat, flat_prop_wf]|]).
    apply bytes_rev, le_bytes_wf.
  - rewrite !zlen_app, !zlen_be32, zlen_bytes_of, zlen_concat_map. pose proof (sum_of_le _ prop_cost ps zlen_flat_prop). lia.
Qed.

#[export, refine] Instance toy_laws : FdtLaws ToyW nat := {|
  fdt_state w := w.1; fdt_used := toy_used; fdt_describes blob n := blob = flatten n |}.
Proof.
  - by eexists.
  - intros [st k] n fs E D On U. cbn [fst] in E. subst st. exists (Opened ((k, n, ([], [])) :: fs), S k), k.
    cbn [begin_node toy_writer fst snd]. rewrite (proj2 (Nat.ltb_lt _ _) D), On. split; [done|]. split; [done|].
    unfold toy_used. cbn [fst]. rewrite sum_of_cons. change (frame_cost (k, n, ([], []))) with (16 + slen n + 0). unfold toy_used in *. cbn [fst] in *. lia.
  - intros [st k] n v t x p fs E On Ov U. cbn [fst] in E. subst st. eexists. cbn [property toy_writer fst snd]. rewrite On, Ov.
    split; [done|]. split; [done|]. unfold toy_used. cbn [fst]. rewrite !sum_of_cons.
    assert (P : frame_cost (t, x, (p ++ [(n, v)], [])) = frame_cost (t, x, (p, [])) + (32 + slen n + val_len v)); [|lia].
    unfold frame_cost. cbn [fst snd foldr]. rewrite sum_of_app, sum_of_cons. change (sum_of prop_cost []) with 0.
    unfold prop_cost. cbn [fst snd]. lia.
  - intros [st k] t n b fs E U. cbn [fst] in E. subst st. eexists. cbn [end_node toy_writer fst snd]. rewrite Nat.eqb_refl.
    split; [done|]. split; [done|]. rewrite toy_close. unfold toy_used. cbn [fst]. rewrite sum_of_cons. unfold frame_cost. cbn [fst snd]. lia.
  - intros [st k] root E U. cbn [fst] in E. subst st. eexists. split; [done|]. split; [done|].
    destruct (flatten_fine root) as [Wb Lb]. split; [done|]. unfold toy_used. cbn [fst]. lia.
Defined.

(** ** Instances *)

Definition demo_params : DtbParams :=
  mkDtbParams 0x8000000 2 "console=ttyAMA0" None (Some sw_gic_info) [(0xc000000, 0x200, 2); (0xc000200, 0x200, 3)] [1; 2].

Lemma build_typed_witness : exists blob tree,
  build (W := ToyW) demo_params = inl blob /\ blob = flatten tree /\ typed_tree tree = true.
Proof.
  destruct (build_typed (W := ToyW) demo_params) as (blob & tree & E & D & T); [..|exists blob, tree; split; [exact E|split; [exact D|exact T]]].
  - reflexivity.
  - cbn. lia.
  - vm_compute. discriminate.
  - apply (bool_decide_eq_true_1 (NoDup (p_virtio demo_params).*1.*1)). reflexivity.
  - constructor; [cbn; lia|]. constructor; [cbn; lia|]. constructor.
Defined.

Lemma build_describes_witness : exists blob, build (W := ToyW) demo_params = inl blob /\ blob = flatten (dtb_tree demo_params).
Proof.
  destruct (build_describes (W := ToyW) demo_params eq_refl ltac:(cbn; lia) ltac:(vm_compute; discriminate)) as (blob & E & D & _).
  exists blob. split; [exact E|exact D].
Defined.

(** A host with no disks, no network and any amount of RAM. *)
Definition plain_cfg (mem : Z) (image : list Z) : VmConfig := mkConfig mem 2 image None None [] None.
Abbreviation plain_vm mem image vm :=
  (prepare (F := MemFile) (L := unit) (E := unit) (B := FrameQueue) (VB := Peers) (VS := Pipe) demo_host (plain_cfg mem image) None = inl vm).

Lemma plain_prepares (mem : Z) (image : list Z) : let off := of_le_bytes (slice 0x08 8 image) in
  let entry := u64 (layout.RAM_BASE + (if off =? 0 then layout.KERNEL_OFFSET else off)) in
  64 <= zlen image -> of_le_bytes (slice 0x38 4 image) = ARM64_MAGIC ->
  ram_in_range (GuestMemory_new layout.RAM_BASE mem) entry (zlen image) = true ->
  exists vm, plain_vm mem image vm.
Proof.
  intros off entry L M R. pose proof (load_kernel_places (GuestMemory_new layout.RAM_BASE mem) image) as P. cbv zeta in P.
  rewrite (proj2 (Z.leb_le 64 _) L), M in P. change (ram_base (GuestMemory_new layout.RAM_BASE mem)) with layout.RAM_BASE in P.
  fold off in P. fold entry in P. rewrite R in P. cbn [andb] in P. rewrite Z.eqb_refl in P. destruct P as (m1 & E & _).
  unfold prepare, GuestMemory_try_new. cbn [plain_cfg cfg_mem_size cfg_kernel mmap_ok demo_host bindR]. rewrite E. eexists. reflexivity.
Qed.

Lemma new_ram_range mem gpa n : 0 <= n -> layout.RAM_BASE <= gpa -> gpa + n <= layout.RAM_BASE + mem -> 0 <= mem < 2 ^ 62 ->
  ram_in_range (GuestMemory_new layout.RAM_BASE mem) gpa n = true.
Proof.
  intros N A E M. unfold ram_in_range, ram_offset.
  change (ram_len (GuestMemory_new layout.RAM_BASE mem)) with (zlen (zeros mem)).
  change (ram_base (GuestMemory_new layout.RAM_BASE mem)) with layout.RAM_BASE.
  rewrite zlen_zeros by lia. rewrite (proj2 (Z.ltb_ge _ _) A). cbv zeta.
  rewrite (proj2 (Z.ltb_lt _ _)), (proj2 (Z.leb_le _ _)) by (unfold layout.RAM_BASE in *; lia). done.
Qed.

Definition low_header : list Z := Eval vm_compute in splice 0x38 (le_bytes 4 ARM64_MAGIC) (splice 8 (le_bytes 8 0x80000) (zeros 64)).
Definition low_image : list Z := low_header ++ zeros 0xc0000.

Lemma low_image_fine : zlen low_image = 0xc0040 /\ of_le_bytes (slice 8 8 low_image) = 0x80000
  /\ of_le_bytes (slice 0x38 4 low_image) = ARM64_MAGIC /\ bytes_wf low_image.
Proof.
  split; [unfold low_image; rewrite zlen_app, zlen_zeros by lia; done|]. split; [reflexivity|]. split; [reflexivity|].
  apply Forall_app_2; [|apply zeros_wf]. apply (bool_decide_eq_true_1 (Forall (fun b => 0 <= b < 256) low_header)). reflexivity.
Qed.

Lemma low_prepares : exists vm, plain_vm 0x400000 low_image vm.
Proof.
  destruct low_image_fine as (L & O & M & _). apply plain_prepares; [lia|exact M|]. rewrite O, L. apply new_ram_range; vm_compute; intuition discriminate.
Qed.


Lemma low_kernel_overwritten_witness : exists vm blob mem', plain_vm 0x400000 low_image vm
  /\ boot (W := ToyW) vm 0x400000 "quiet" None [] = inl mem'
  /\ ram_read mem' (vm_entry vm + 0x80000) (zlen blob) = Some blob.
Proof.
  destruct low_prepares as [vm P]. exists vm. destruct low_image_fine as (L & O & M & Wf).
  destruct (low_kernel_overwritten (W := ToyW) demo_host (plain_cfg 0x400000 low_image) None vm "quiet" None [])
    as (blob & mem' & E & _ & _ & _ & R).
  - exact demo_host_ok.
  - split; [cbn; lia|exact Wf|exact I].
  - exact P.
  - reflexivity.
  - vm_compute. discriminate.
  - vm_compute. discriminate.
  - vm_compute. discriminate.
  - change (cfg_kernel (plain_cfg 0x400000 low_image)) with low_image. rewrite O. unfold layout.DTB_OFFSET. lia.
  - change (cfg_kernel (plain_cfg 0x400000 low_image)) with low_image. rewrite O, L. unfold layout.DTB_OFFSET. lia.
  - exists blob, mem'. split; [exact P|]. split; [exact E|]. exact R.
Defined.
