(* ===== verification/Image.v ===== *)
(** * Image: from a reference to a base image (crates/amber-image/src/lib.rs)

    The image cache: bases by content id, the map of references, builds from
    a registry ([Registry], [Flatten]) and from a [docker save] tar. The tar
    and gzip readers and mksquashfs are arguments, and serde's encodings the
    interface of [Proto].

    [refs_roundtrip] and [refs_lost_update]: the reference map, alone and
    with two builds at once; [local_tar_poisons]: what a local tar can put
    under a registry blob's name. *)

From S2P Require Import Prelude Proto Fs Flatten Registry.

Record Built := mkBuilt { b_base : Path; b_config : ImageConfig }.

(** [ImageConfig::default_argv]. *)
Definition default_argv (c : ImageConfig) : list string := entrypoint c ++ cmd c.

Section Image.
Context `{Json J} `{Sha256} `{Serde ImageConfig} `{Serde (gmap string string)}.
Variable web : list Req -> Answer.
(** New directories and files, free disk space, hard links; the process id. *)
Variables (dir_mode file_mode room : Z) (host_links : bool) (stamp : string).
(** The readers: a tar's entries, as the layer code and as the [docker save]
    code sees them, [None] being an error and [false] one inside the data
    after what is given of it; gzip; and mksquashfs, what it leaves at the
    output and whether it succeeds. Relative paths start at the root. *)
Variable tar_entries : list Z -> list (option TarEntry).
Variable tar_members : list Z -> list (option (string * list Z * bool)).
Variable gunzip : list Z -> list Z.
Variable mksquashfs : Fs -> Path -> option (list Z) * bool.

(** ** Files *)

Definition read_path (fs : Fs) (p : Path) : option (list Z) :=
  match canonicalize fs p with
  | inl r => match fs !! r with Some (NFile d _) => Some d | _ => None end
  | inr _ => None
  end.
Definition is_regular (fs : Fs) (p : Path) : bool := match read_path fs p with Some _ => true | None => false end.

(** A name in a directory that is made from outside text. *)
Definition in_dir (d : Path) (name : string) : Path := join d (path_of_str name).

Definition basename (s : string) : string := match rsplit_once (ch "/") s with Some (_, b) => b | None => s end.

(** ** The cache *)

Definition load_built (fs : Fs) (bases : Path) (id : string) : option Built :=
  let base := in_dir bases (id +:+ ".sqfs") in
  let cfg := in_dir bases (id +:+ ".json") in
  if negb (fs_exists fs base) || negb (fs_exists fs cfg) then None
  else text ← read_path fs cfg; config ← from_slice text; Some (mkBuilt base config).

(** [HashMap<String, String>] in refs.json; one that does not parse is empty. *)
Definition read_refs (fs : Fs) (refs : Path) : option (gmap string string) := text ← read_path fs refs; from_slice text.
Definition ref_lookup (fs : Fs) (refs : Path) (reference : string) : option string :=
  m ← read_refs fs refs; (m : gmap string string) !! reference.
(** [refs_path.with_extension(..)] of refs.json. *)
Definition refs_tmp (cache : Path) : Path := join cache [Normal ("refs.json." +:+ stamp +:+ ".tmp")].
Definition refs_path (cache : Path) : Path := join cache [Normal "refs.json"].
Definition write_refs (fs : Fs) (cache : Path) (m : gmap string string) : Fs :=
  match file_create fs (refs_tmp cache) (to_vec m) file_mode with
  | (fs1, true) => fst (rename fs1 (refs_tmp cache) (refs_path cache))
  | (fs1, false) => fs1
  end.
Definition ref_store (fs : Fs) (cache : Path) (reference id : string) : Fs :=
  write_refs fs cache (<[reference := id]> (default ∅ (read_refs fs (refs_path cache)))).

(** ** Building *)

(** The entries of a layer file, gzipped or plain. *)
Definition layer_entries (fs : Fs) (p : Path) : list (option TarEntry) :=
  match read_path fs p with
  | None => [None]
  | Some data => tar_entries (match data with 0x1f :: 0x8b :: _ => gunzip data | _ => data end)
  end.

(** [pack_squashfs]. *)
Definition pack_squashfs (fs : Fs) (rootfs out : Path) : Fs * option Error :=
  match (if fs_exists fs out then remove_file fs out else (fs, true)) with
  | (fs1, false) => (fs1, Some EIo)
  | (fs1, true) =>
      let '(img, ok) := mksquashfs fs1 rootfs in
      let fs2 := match img with Some bs => fst (file_create fs1 out bs file_mode) | None => fs1 end in
      (fs2, if ok then None else Some EPack)
  end.

(** The shared end of both builds. *)
Definition finish_build (fs : Fs) (bases : Path) (id : string) (layers : list Path) (config : ImageConfig)
    : Fs * (Built + Error) :=
  let rootfs := in_dir bases ("rootfs-" +:+ id +:+ "." +:+ stamp) in
  let base := in_dir bases (id +:+ ".sqfs") in
  let base_tmp := in_dir bases (id +:+ "." +:+ stamp +:+ ".tmp") in
  match flatten dir_mode file_mode host_links fs (map (layer_entries fs) layers) rootfs with
  | (fs1, false) => (fs1, inr EIo)
  | (fs1, true) =>
      match pack_squashfs fs1 rootfs base_tmp with
      | (fs2, Some e) => (fs2, inr e)
      | (fs2, None) =>
          match rename fs2 base_tmp base with
          | (fs3, false) => (fs3, inr EIo)
          | (fs3, true) =>
              let fs4 := fst (remove_dir_all fs3 rootfs) in
              match file_create fs4 (in_dir bases (id +:+ ".json")) (to_vec config) file_mode with
              | (fs5, false) => (fs5, inr EIo)
              | (fs5, true) => (fs5, inl (mkBuilt base config))
              end
          end
      end
  end.

(** The layers in order, the first failure ending them. *)
Fixpoint fetch_layers (s : Conn) (fs : Fs) (blobs : Path) (digests : list string) : Conn * Fs * (list Path + Error) :=
  match digests with
  | [] => (s, fs, inl [])
  | d :: ds =>
      match fetch_blob web file_mode room s fs blobs d with
      | (s1, fs1, inr e) => (s1, fs1, inr e)
      | (s1, fs1, inl p) =>
          match fetch_layers s1 fs1 blobs ds with
          | (s2, fs2, inl ps) => (s2, fs2, inl (p :: ps))
          | (s2, fs2, inr e) => (s2, fs2, inr e)
          end
      end
  end.

(** *** From a [docker save] tar *)

Definition parse_save_manifest (json : string) : (string * list string) + Error :=
  match from_str json with
  | None => inr EJson
  | Some v =>
      match get_index v 0 with
      | None => inr ERegistry
      | Some m =>
          match as_str (index m "Config") with
          | None => inr ERegistry
          | Some config =>
              match str_list (index m "Layers") with [] => inr ERegistry | ls => inl (config, ls) end
          end
      end
  end.

Definition bytes_str (bs : list Z) : string :=
  fold_right (fun b s => String (Ascii.ascii_of_nat (Z.to_nat b)) s) EmptyString bs.

(** The first member of that name decides; an error before it is returned. *)
Fixpoint save_manifest_loop (es : list (option (string * list Z * bool))) : (string * list string) + Error :=
  match es with
  | [] => inr ERegistry
  | None :: _ => inr EIo
  | Some (name, data, whole) :: es' =>
      if String.eqb name "manifest.json" then if whole then parse_save_manifest (bytes_str data) else inr EIo else save_manifest_loop es'
  end.
Definition read_save_manifest (tar : list Z) : (string * list string) + Error := save_manifest_loop (tar_members tar).

(** The wanted members, each written under its last component. *)
Fixpoint extract_loop (fs : Fs) (want : list string) (dest : Path) (out : gmap string Path)
    (es : list (option (string * list Z * bool))) : Fs * option (gmap string Path) :=
  match es with
  | [] => (fs, Some out)
  | None :: _ => (fs, None)
  | Some (member, data, whole) :: es' =>
      if bool_decide (member ∈ want) then
        let path := in_dir dest (basename member) in
        match file_create fs path data file_mode with
        | (fs1, false) => (fs1, None)
        | (fs1, true) => if whole then extract_loop fs1 want dest (<[member := path]> out) es' else (fs1, None)
        end
      else extract_loop fs want dest out es'
  end.
Definition extract_members (fs : Fs) (tar : list Z) (want : list string) (dest : Path) : Fs * option (gmap string Path) :=
  extract_loop fs want dest ∅ (tar_members tar).

Definition build_local (fs : Fs) (tar_path : string) (cache : Path) : Fs * (Built + Error) :=
  let bases := join cache [Normal "bases"] in
  let blobs := join cache [Normal "blobs"] in
  match fs_create_dir_all dir_mode fs bases with
  | (fs1, false) => (fs1, inr EIo)
  | (fs1, true) =>
  match fs_create_dir_all dir_mode fs1 blobs with
  | (fs2, false) => (fs2, inr EIo)
  | (fs2, true) =>
  match read_path fs2 (path_of_str tar_path) with
  | None => (fs2, inr EIo)
  | Some tar =>
  match read_save_manifest tar with
  | inr e => (fs2, inr e)
  | inl (config_member, layer_members) =>
      let id := basename config_member in
      match load_built fs2 bases id with
      | Some built => (ref_store fs2 cache tar_path id, inl built)
      | None =>
          match extract_members fs2 tar (config_member :: layer_members) blobs with
          | (fs3, None) => (fs3, inr EIo)
          | (fs3, Some extracted) =>
              match extracted !! config_member with
              | None => (fs3, inr ERegistry)
              | Some p =>
                  match read_path fs3 p with
                  | None => (fs3, inr EIo)
                  | Some body =>
                      match parse_config (bytes_str body), mapM (fun m => extracted !! m) layer_members with
                      | inr e, _ => (fs3, inr e)
                      | inl _, None => (fs3, inr ERegistry)
                      | inl config, Some layers =>
                          match finish_build fs3 bases id layers config with
                          | (fs4, inl built) => (ref_store fs4 cache tar_path id, inl built)
                          | (fs4, inr e) => (fs4, inr e)
                          end
                      end
                  end
              end
          end
      end
  end end end end.

(** *** From a registry *)

Definition build_remote (s : Conn) (fs : Fs) (reference : string) (cache bases : Path) : Conn * Fs * (Built + Error) :=
  match fetch_manifest web s with
  | (s1, inr e) => (s1, fs, inr e)
  | (s1, inl manifest) =>
      let id := digest_hex (config_digest manifest) in
      let fs1 := ref_store fs cache reference id in
      match load_built fs1 bases id with
      | Some built => (s1, fs1, inl built)
      | None =>
          match fetch_config web s1 (config_digest manifest) with
          | (s2, inr e) => (s2, fs1, inr e)
          | (s2, inl config) =>
              let blobs := join cache [Normal "blobs"] in
              match fs_create_dir_all dir_mode fs1 blobs with
              | (fs2, false) => (s2, fs2, inr EIo)
              | (fs2, true) =>
                  match fetch_layers s2 fs2 blobs (layers manifest) with
                  | (s3, fs3, inr e) => (s3, fs3, inr e)
                  | (s3, fs3, inl ls) => let '(fs4, r) := finish_build fs3 bases id ls config in (s3, fs4, r)
                  end
              end
          end
      end
  end.

(** [build]; [log] is what was sent before. *)
Definition build (log : list Req) (fs : Fs) (reference : string) (cache : Path) (refresh : bool)
    : list Req * Fs * (Built + Error) :=
  if is_regular fs (path_of_str reference) then let '(fs1, r) := build_local fs reference cache in (log, fs1, r)
  else
    match parse reference with
    | None => (log, fs, inr EReference)
    | Some parsed =>
        let bases := join cache [Normal "bases"] in
        match fs_create_dir_all dir_mode fs bases with
        | (fs1, false) => (log, fs1, inr EIo)
        | (fs1, true) =>
            let known := if refresh then None else id ← ref_lookup fs1 (refs_path cache) reference; load_built fs1 bases id in
            match known with
            | Some built => (log, fs1, inl built)
            | None => let '(s, fs2, r) := build_remote (Client_new parsed, log) fs1 reference cache bases in (snd s, fs2, r)
            end
        end
    end.
End Image.

(** ** The reference map *)

Section Refs.
Context `{SerdeOk (gmap string string)}.
Variables (cache : Path) (r : Real) (file_mode : Z).

Definition tmp_name (stamp : string) : string := "refs.json." +:+ stamp +:+ ".tmp".
(** The cache directory, whose refs.json and temporary names are files. *)
Definition refs_ok (fs : Fs) : Prop :=
  dir_ok cache r fs /\ slot r fs "refs.json" /\ forall stamp, slot r fs (tmp_name stamp).

Lemma read_path_at fs name x m : dir_ok cache r fs -> fs !! (r ++ [name]) = Some (NFile x m) ->
  read_path fs (cache ++ [Normal name]) = Some x.
Proof. intros D E. unfold read_path. by rewrite (slot_canonicalize cache r fs name x m D E), E. Qed.

Lemma write_refs_spec (fs : Fs) (stamp : string) (m : gmap string string) :
  refs_ok fs ->
  let fs' := write_refs file_mode stamp fs cache m in
  refs_ok fs' /\ read_refs fs' (refs_path cache) = Some m
  /\ forall k, k <> r ++ ["refs.json"] -> k <> r ++ [tmp_name stamp] -> fs' !! k = fs !! k.
Proof.
  intros (D & S & T) fs'. unfold fs', write_refs, refs_tmp, refs_path.
  change ("refs.json." +:+ stamp +:+ ".tmp") with (tmp_name stamp).
  change (join cache [Normal (tmp_name stamp)]) with (cache ++ [Normal (tmp_name stamp)]).
  change (join cache [Normal "refs.json"]) with (cache ++ [Normal "refs.json"]).
  destruct (slot_create cache r fs (tmp_name stamp) (to_vec m) file_mode D (T stamp)) as (md & ->).
  set (fs1 := <[_ := _]> fs). assert (D1 : dir_ok cache r fs1) by (by apply dir_insert).
  rewrite (slot_rename cache r fs1 (tmp_name stamp) "refs.json" (to_vec m) md); try done.
  2: by apply slot_insert. 2: apply lookup_insert_eq.
  cbn [fst]. set (fs2 := <[_ := _]> (delete _ fs1)).
  assert (D2 : dir_ok cache r fs2).
  { apply dir_insert; [apply dir_delete; [done|by apply slot_insert]|by apply slot_delete, slot_insert]. }
  split; [split; [done|split]|split].
  - by apply slot_insert, slot_delete, slot_insert.
  - intros st. by apply slot_insert, slot_delete, slot_insert.
  - unfold read_refs. rewrite (read_path_at fs2 "refs.json" (to_vec m) md) by (done || apply lookup_insert_eq). apply serde_ok.
  - intros k N1 N2. unfold fs2, fs1. by rewrite lookup_insert_ne, lookup_delete_ne, lookup_insert_ne by done.
Qed.

(** Storing a reference is read back as that id, keeps every other
    reference as it was, and touches no other file. *)
Theorem refs_roundtrip (fs : Fs) (stamp reference id reference' : string) :
  refs_ok fs ->
  let fs' := ref_store file_mode stamp fs cache reference id in
  refs_ok fs'
  /\ ref_lookup fs' (refs_path cache) reference' =
     (if decide (reference' = reference) then Some id else ref_lookup fs (refs_path cache) reference')
  /\ forall k, k <> r ++ ["refs.json"] -> k <> r ++ [tmp_name stamp] -> fs' !! k = fs !! k.
Proof.
  intros R fs'. unfold fs', ref_store.
  destruct (write_refs_spec fs stamp (<[reference := id]> (default ∅ (read_refs fs (refs_path cache)))) R) as (R' & E & O).
  split; [done|]. split; [|done]. unfold ref_lookup. rewrite E. cbn [mbind option_bind].
  destruct (decide (reference' = reference)) as [->|N]; [apply lookup_insert_eq|].
  rewrite lookup_insert_ne by done. by destruct (read_refs fs (refs_path cache)) as [m|].
Qed.

(** Two builds that store at the same time, each having read the map
    before the other wrote it: the later rename drops the other's entry. *)
Theorem refs_lost_update (fs : Fs) (stamp1 stamp2 reference1 reference2 id1 id2 : string) :
  refs_ok fs -> reference1 <> reference2 ->
  let m := default ∅ (read_refs fs (refs_path cache)) in
  let fs1 := write_refs file_mode stamp1 fs cache (<[reference1 := id1]> m) in
  let fs2 := write_refs file_mode stamp2 fs1 cache (<[reference2 := id2]> m) in
  ref_lookup fs1 (refs_path cache) reference1 = Some id1
  /\ ref_lookup fs2 (refs_path cache) reference1 = ref_lookup fs (refs_path cache) reference1
  /\ ref_lookup fs2 (refs_path cache) reference2 = Some id2.
Proof.
  intros R N m fs1 fs2. destruct (write_refs_spec fs stamp1 (<[reference1 := id1]> m) R) as (R1 & E1 & _).
  destruct (write_refs_spec fs1 stamp2 (<[reference2 := id2]> m) R1) as (_ & E2 & _). fold fs1 in E1. fold fs2 in E2.
  unfold ref_lookup. rewrite E1, E2. cbn [mbind option_bind].
  rewrite !lookup_insert_eq, lookup_insert_ne by done. split; [done|]. split; [|done].
  unfold m. by destruct (read_refs fs (refs_path cache)).
Qed.
End Refs.

(** ** The blob directory and local tars *)

Section Poison.
Context `{Json J} `{Sha256}.
Variables (blobs : Path) (r : Real) (file_mode : Z).

(** The blob directory, which holds files only. *)
Definition blobs_ok (fs : Fs) : Prop := dir_ok blobs r fs /\ forall name, slot r fs name.

Lemma create_in_blobs (fs : Fs) (name : string) (x : list Z) : blobs_ok fs -> plain_file name ->
  exists m, file_create fs (in_dir blobs name) x file_mode = (<[r ++ [name] := NFile x m]> fs, true)
  /\ blobs_ok (<[r ++ [name] := NFile x m]> fs).
Proof.
  intros [D S] P. unfold in_dir. rewrite join_plain by done.
  destruct (slot_create blobs r fs name x file_mode D (S name)) as (m & E). exists m. split; [done|].
  split; [by apply dir_insert|]. intros name'. by apply slot_insert.
Qed.

Lemma extract_loop_app (want : list string) (es es' : list (option (string * list Z * bool))) : forall fs out,
  (forall m d w, Some (m, d, w) ∈ es -> m ∈ want -> plain_file (basename m) /\ w = true) -> None ∉ es -> blobs_ok fs ->
  exists fs1 out1, blobs_ok fs1
  /\ extract_loop file_mode fs want blobs out (es ++ es') = extract_loop file_mode fs1 want blobs out1 es'.
Proof.
  induction es as [|[[[m d] w]|] es IH]; intros fs out P N B; [by exists fs, out| |by destruct N; left].
  apply not_elem_of_cons in N as [_ N]. cbn [app extract_loop]. case_bool_decide as I.
  - destruct (P m d w) as [Pm ->]; [by left|done|].
    destruct (create_in_blobs fs (basename m) d B Pm) as (md & -> & B1).
    apply IH; [|done..]. intros m' d' w' I'. apply (P m' d' w'). by right.
  - apply IH; [|done..]. intros m' d' w' I'. apply (P m' d' w'). by right.
Qed.

(** The last member a local tar writes is afterwards the blob of its
    name, cut short if the tar is, whatever its hash: a fetch of that digest
    from a registry returns it with nothing sent. *)
Theorem local_tar_poisons (tar_members : list Z -> list (option (string * list Z * bool))) (web : list Req -> Answer)
    (fs : Fs) (tar : list Z) (want : list string) (es : list (option (string * list Z * bool)))
    (member : string) (data : list Z) (whole : bool) :
  blobs_ok fs -> tar_members tar = es ++ [Some (member, data, whole)] ->
  (forall m d w, Some (m, d, w) ∈ es -> m ∈ want -> plain_file (basename m) /\ w = true) -> None ∉ es ->
  member ∈ want -> plain_file (basename member) ->
  let '(fs', res) := extract_members file_mode tar_members fs tar want blobs in
  (res = None <-> whole = false) /\ (exists m, fs' !! (r ++ [basename member]) = Some (NFile data m))
  /\ forall room s, fetch_blob web file_mode room s fs' blobs ("sha256:" +:+ basename member)
                    = (s, fs', inl (blobs ++ [Normal (basename member)])).
Proof.
  intros B T P N I Pm. unfold extract_members. rewrite T.
  destruct (extract_loop_app want es [Some (member, data, whole)] fs ∅ P N B) as (fs1 & out1 & B1 & ->).
  cbn [extract_loop]. rewrite bool_decide_eq_true_2 by done.
  destruct (create_in_blobs fs1 (basename member) data B1 Pm) as (md & -> & [D2 S2]).
  set (fs2 := <[_ := _]> fs1) in *.
  assert (G : (exists m, fs2 !! (r ++ [basename member]) = Some (NFile data m))
    /\ forall room s, fetch_blob web file_mode room s fs2 blobs ("sha256:" +:+ basename member)
                      = (s, fs2, inl (blobs ++ [Normal (basename member)]))).
  { assert (E : fs2 !! (r ++ [basename member]) = Some (NFile data md)) by apply lookup_insert_eq.
    split; [by exists md|]. intros room s. unfold fetch_blob, blob_path, digest_hex.
    rewrite strip_prefix_app. cbn [default from_option]. change (id (basename member)) with (basename member).
    rewrite join_plain by done. unfold fs_exists. by rewrite (slot_canonicalize blobs r fs2 _ data md D2 E). }
  destruct whole; (split; [|done]); split; done.
Qed.
End Poison.

(** ** A finished build is a cached one *)

Section Finish.
Context `{SerdeOk ImageConfig}.
Variables (ds : list string) (P : Real) (id stamp : string).
Variables (dir_mode file_mode : Z) (host_links : bool).

Abbreviation bases := (parts ds).
Definition rootfs_name : string := "rootfs-" +:+ id +:+ "." +:+ stamp.
Definition base_name : string := id +:+ ".sqfs".
Definition cfg_name : string := id +:+ ".json".
Definition base_tmp_name : string := id +:+ "." +:+ stamp +:+ ".tmp".
Abbreviation X := (P ++ [rootfs_name]).

Lemma app_cancel (a b c : string) : a +:+ b = a +:+ c -> b = c.
Proof. induction a as [|x a IH]; [done|]. rewrite !app_string. intros [= E]. by apply IH. Qed.

Lemma names_ne : rootfs_name <> base_name /\ rootfs_name <> cfg_name /\ rootfs_name <> base_tmp_name
  /\ base_name <> cfg_name /\ base_tmp_name <> base_name /\ base_tmp_name <> cfg_name.
Proof.
  unfold rootfs_name, base_name, cfg_name, base_tmp_name.
  assert (L : forall a b : string, String.length a <> String.length b -> a <> b) by (intros a b N ->; done).
  do 3 (split; [apply L; rewrite !length_app_string; cbn; lia|]).
  split; [by intros E%app_cancel|].
  split; intros E%app_cancel; pose proof (f_equal String.length E) as E'; rewrite !length_app_string in E'; cbn in E';
    (destruct stamp; [discriminate E|cbn in E'; lia]).
Qed.

(** The directory of bases, found without going through the tree being built,
    with the three other names free or files. *)
Definition bases_ok (fs : Fs) : Prop :=
  fs_wf fs /\ dir_ok bases P (without X fs) /\ slot P fs base_name /\ slot P fs cfg_name /\ slot P fs base_tmp_name.

Lemma without_more (fs : Fs) : more (without X fs) fs.
Proof. intros k n. rewrite lookup_without. destruct (decide _); [done|eauto]. Qed.

Lemma bases_dir (fs : Fs) : bases_ok fs -> dir_ok bases P fs.
Proof.
  intros (W & (_ & N & E & D) & _). split; [done|]. split; [done|]. split.
  - by apply (resolve_more _ _ _ _ _ (without_more fs)).
  - by apply (is_dir_more _ _ _ (without_more fs)).
Qed.

Lemma not_under (name : string) : name <> rootfs_name -> ~ X `prefix_of` P ++ [name].
Proof.
  intros N [q E]. rewrite <- app_assoc in E. apply app_inv_head in E. injection E as E _. congruence.
Qed.

Lemma without_insert (fs : Fs) (name : string) (n : Node) : name <> rootfs_name ->
  without X (<[P ++ [name] := n]> fs) = <[P ++ [name] := n]> (without X fs).
Proof.
  intros N. apply map_eq. intros k. rewrite lookup_without.
  destruct (decide (P ++ [name] = k)) as [<-|Nk].
  - rewrite !lookup_insert_eq. by rewrite decide_False by by apply not_under.
  - by rewrite !lookup_insert_ne, lookup_without by done.
Qed.

Lemma without_delete (fs : Fs) (k : Real) : without X (delete k fs) = delete k (without X fs).
Proof.
  apply map_eq. intros k'. rewrite lookup_without. destruct (decide (k = k')) as [<-|N].
  - rewrite !lookup_delete_eq. by destruct (decide _).
  - by rewrite !lookup_delete_ne, lookup_without by done.
Qed.

Lemma slot_without (fs : Fs) (name : string) : slot P fs name -> slot P (without X fs) name.
Proof. intros S m. rewrite lookup_without. destruct (decide _); [done|]. apply S. Qed.

Lemma bases_insert (fs : Fs) (name : string) (x : list Z) (m : Z) :
  name <> rootfs_name -> slot P fs name -> bases_ok fs -> bases_ok (<[P ++ [name] := NFile x m]> fs).
Proof.
  intros N S B. pose proof (bases_dir fs B) as D. destruct B as (W & Dw & S1 & S2 & S3).
  split; [by apply (dir_insert bases P fs)|]. rewrite without_insert by done.
  split; [by apply dir_insert, slot_without|]. split; [|split]; by apply slot_insert.
Qed.

Lemma bases_delete (fs : Fs) (name : string) : slot P fs name -> bases_ok fs -> bases_ok (delete (P ++ [name]) fs).
Proof.
  intros S B. pose proof (bases_dir fs B) as D. destruct B as (W & Dw & S1 & S2 & S3).
  split; [by apply (dir_delete bases P fs)|]. rewrite without_delete.
  split; [by apply dir_delete, slot_without|]. split; [|split]; by apply slot_delete.
Qed.

(** What flattening and removing the tree may do. *)
Lemma bases_frame (fs fs' : Fs) :
  bases_ok fs -> fs_wf fs' -> (forall k, ~ X `prefix_of` k -> same_node (fs !! k) (fs' !! k)) -> bases_ok fs'.
Proof.
  destruct names_ne as (N1 & N2 & N3 & _). intros (W & (Ww & Nd & E & D) & S1 & S2 & S3) W' F.
  assert (M : more (without X fs) (without X fs')).
  { intros k n. rewrite !lookup_without. destruct (decide _) as [|Nu]; [done|]. intros L.
    destruct (F k Nu) as [<-|(m & m' & L1 & L2)]; [eauto|]. rewrite L in L1. injection L1 as ->. eauto. }
  assert (G : forall name, rootfs_name <> name -> slot P fs name -> slot P fs' name).
  { intros name N S m L. destruct (F (P ++ [name])) as [Q|(m1 & m2 & L1 & L2)]; [by apply not_under| |].
    - apply S. by rewrite Q.
    - specialize (S _ L1). done. }
  split; [done|]. split; [|split; [|split]; by apply G].
  split; [|split; [done|split]].
  - destruct (without_stays P fs' P rootfs_name (reflexivity P) W') as [Wf _]. exact Wf.
  - by apply (resolve_more _ _ _ _ _ M).
  - by apply (is_dir_more _ _ _ M).
Qed.

Lemma remove_rootfs (fs : Fs) : bases_ok fs ->
  let fs' := fst (remove_dir_all fs (bases ++ [Normal rootfs_name])) in
  bases_ok fs' /\ forall name, name <> rootfs_name -> fs' !! (P ++ [name]) = fs !! (P ++ [name]).
Proof.
  intros B fs'. pose proof (bases_dir fs B) as (W & Nd & E & D).
  assert (C : fs' = fs \/ fs' = delete X fs /\ is_dir_at fs X = false \/ fs' = without X fs).
  { unfold fs', remove_dir_all. rewrite !strip_slash_snoc, !last_snoc_path.
    rewrite (resolve_name fs false bases rootfs_name) by done. rewrite E, D.
    destruct (fs !! X) as [n|] eqn:L; [|by left]. rewrite L.
    destruct n as [m|x m|t]; [|by left|right; left; split; [done|by rewrite is_dir_at_snoc, L]].
    right; right. by rewrite decide_True. }
  assert (Fr : forall k, ~ X `prefix_of` k -> fs' !! k = fs !! k).
  { intros k Nu. destruct C as [->|[[-> _]| ->]]; [done| |].
    - rewrite lookup_delete_ne; [done|]. by intros <-.
    - rewrite lookup_without. by rewrite decide_False. }
  split; [|intros name N; apply Fr; by apply not_under].
  apply (bases_frame fs); try done; [|intros k Nu; left; by rewrite Fr].
  destruct C as [->|[[-> Nx]| ->]]; [done|by apply wf_delete|].
  by destruct (without_stays P fs P rootfs_name (reflexivity P) W).
Qed.

Variables (tar_entries : list Z -> list (option TarEntry)) (gunzip : list Z -> list Z) (mksquashfs : Fs -> Path -> option (list Z) * bool).

Lemma in_bases (name : string) : contains (ch "/") name = false -> (2 < String.length name)%nat ->
  in_dir bases name = bases ++ [Normal name].
Proof.
  intros N L. unfold in_dir. apply join_plain. split; [done|]. repeat split; intros ->; cbn in L; lia.
Qed.

Lemma pack_bases (fs fs' : Fs) (rootfs : Path) (e : option Error) : bases_ok fs ->
  pack_squashfs file_mode mksquashfs fs rootfs (bases ++ [Normal base_tmp_name]) = (fs', e) -> bases_ok fs'.
Proof.
  destruct names_ne as (_ & _ & N3 & _). intros B. unfold pack_squashfs.
  assert (Cr : forall f bs, bases_ok f -> bases_ok (fst (file_create f (bases ++ [Normal base_tmp_name]) bs file_mode))).
  { intros f bs Bf. pose proof Bf as (_ & _ & _ & _ & S3).
    destruct (slot_create bases P f base_tmp_name bs file_mode (bases_dir f Bf) S3) as (m & ->). by apply bases_insert. }
  assert (Rm : fst (if fs_exists fs (bases ++ [Normal base_tmp_name]) then remove_file fs (bases ++ [Normal base_tmp_name]) else (fs, true)) = fs
    \/ fst (if fs_exists fs (bases ++ [Normal base_tmp_name]) then remove_file fs (bases ++ [Normal base_tmp_name]) else (fs, true))
        = delete (P ++ [base_tmp_name]) fs).
  { destruct (fs_exists _ _); [|by left]. unfold remove_file. pose proof B as (_ & _ & _ & _ & S3).
    rewrite (slot_resolve bases P fs false false base_tmp_name (bases_dir fs B) S3).
    destruct (fs !! _); [|by left]. rewrite slot_not_dir by done. by right. }
  destruct (if fs_exists _ _ then _ else _) as [fs1 ok]. cbn [fst] in Rm.
  assert (B1 : bases_ok fs1) by (destruct Rm as [->| ->]; [done|]; apply bases_delete; [apply B|done]).
  destruct ok; [|by intros [= <- _]]. destruct (mksquashfs fs1 rootfs) as [[bs|] ok]; intros [= <- _]; [by apply Cr|done].
Qed.

(** A build that succeeds is found again: its base and its configuration
    are under the content's id, and load to what was built. *)
Theorem finish_build_loads (fs fs' : Fs) (layers : list Path) (config : ImageConfig) (built : Built) :
  contains (ch "/") id = false -> contains (ch "/") stamp = false ->
  (forall p e, p ∈ layers -> Some e ∈ layer_entries tar_entries gunzip fs p -> plain_whiteout e) ->
  bases_ok fs ->
  finish_build dir_mode file_mode host_links stamp tar_entries gunzip mksquashfs fs bases id layers config = (fs', inl built) ->
  built = mkBuilt (bases ++ [Normal base_name]) config /\ load_built fs' bases id = Some built.
Proof.
  intros Ni Ns Pw B. destruct names_ne as (N1 & N2 & N3 & N4 & N5 & N6). unfold finish_build.
  assert (I : forall name, name ∈ [rootfs_name; base_name; cfg_name; base_tmp_name] -> in_dir bases name = bases ++ [Normal name]).
  { intros name In. apply in_bases.
    - repeat (apply elem_of_cons in In as [->|In]; [|]); [..|by apply elem_of_nil in In];
        unfold rootfs_name, base_name, cfg_name, base_tmp_name; rewrite !contains_app, ?Ni, ?Ns; done.
    - repeat (apply elem_of_cons in In as [->|In]; [|]); [..|by apply elem_of_nil in In];
        unfold rootfs_name, base_name, cfg_name, base_tmp_name; rewrite !length_app_string; cbn; lia. }
  change ("rootfs-" +:+ id +:+ "." +:+ stamp) with rootfs_name. change (id +:+ ".sqfs") with base_name.
  change (id +:+ "." +:+ stamp +:+ ".tmp") with base_tmp_name. change (id +:+ ".json") with cfg_name.
  rewrite !I by (repeat (left || right); done).
  destruct (flatten _ _ _ _ _ _) as [fs1 []] eqn:Ef; [|done].
  assert (B1 : bases_ok fs1).
  { pose proof B as (W & (_ & _ & E & _) & _). rewrite <- parts_snoc in Ef.
    assert (Hp : forall e, Some e ∈ concat (map (layer_entries tar_entries gunzip fs) layers) -> plain_whiteout e).
    { intros e (l & [(p & <- & Ip)%in_map_iff Ie])%list_elem_of_In%in_concat.
      apply (Pw p); by apply list_elem_of_In. }
    destruct (bases_dir fs B) as (_ & _ & _ & D).
    destruct (flatten_contained dir_mode file_mode host_links ds rootfs_name P _ _ fs fs1 true Hp W E D Ef) as [W1 F].
    by apply (bases_frame fs). }
  destruct (pack_squashfs _ _ _ _ _) as [fs2 [e|]] eqn:Ep; [done|]. pose proof (pack_bases _ _ _ _ B1 Ep) as B2.
  destruct (rename fs2 _ _) as [fs3 []] eqn:Er; [|done].
  pose proof (bases_dir fs2 B2) as D2. pose proof B2 as (_ & _ & S1 & S2 & S3).
  assert (E3 : exists x m, fs3 = <[P ++ [base_name] := NFile x m]> (delete (P ++ [base_tmp_name]) fs2)).
  { destruct (fs2 !! (P ++ [base_tmp_name])) as [n|] eqn:L.
    - pose proof (S3 _ L) as Fn. destruct n as [|x m|]; try done.
      rewrite (slot_rename bases P fs2 base_tmp_name base_name x m) in Er by done. injection Er as <-. eauto.
    - unfold rename in Er. rewrite (slot_resolve bases P fs2 false false) in Er by done. by rewrite L in Er. }
  destruct E3 as (x & m & E3).
  assert (B3 : bases_ok fs3) by (rewrite E3; apply bases_insert; [done|by apply slot_delete|by apply bases_delete]).
  destruct (remove_rootfs fs3 B3) as [B4 K4].
  destruct (slot_create bases P _ cfg_name (to_vec config) file_mode (bases_dir _ B4)) as (m' & ->); [apply B4|].
  set (fs4 := fst (remove_dir_all fs3 _)) in *. intros [= <- <-]. split; [done|].
  assert (B5 : bases_ok (<[P ++ [cfg_name] := NFile (to_vec config) m']> fs4)) by (apply bases_insert; [done|apply B4|done]).
  pose proof (bases_dir _ B5) as D5. unfold load_built.
  change (id +:+ ".sqfs") with base_name. change (id +:+ ".json") with cfg_name. rewrite !I by (repeat (left || right); done).
  assert (Lc : <[P ++ [cfg_name] := NFile (to_vec config) m']> fs4 !! (P ++ [cfg_name]) = Some (NFile (to_vec config) m'))
    by apply lookup_insert_eq.
  assert (Lb : <[P ++ [cfg_name] := NFile (to_vec config) m']> fs4 !! (P ++ [base_name]) = Some (NFile x m)).
  { rewrite lookup_insert_ne by (apply snoc_ne; congruence). rewrite K4, E3 by done. apply lookup_insert_eq. }
  unfold fs_exists, read_path. rewrite (slot_canonicalize _ _ _ _ _ _ D5 Lc), (slot_canonicalize _ _ _ _ _ _ D5 Lb), Lc.
  cbn [negb orb mbind option_bind]. by rewrite serde_ok.
Qed.
End Finish.

(** *** Instances *)

#[local] Instance toy_refs : Serde (gmap string string) := demo_serde (gmap string string).
#[local] Instance toy_refs_ok : SerdeOk (gmap string string).
Proof. apply demo_serde_ok. Defined.
#[local] Instance toy_json : Json unit := {|
  from_str _ := Some tt; get_field _ _ := None; index _ _ := tt; as_str _ := None; as_array _ := None; get_index _ _ := None |}.
#[local] Instance toy_sha : Sha256 := fun d => "00".

Definition toy_fs : Fs := {[ ["c"] := NDir 493 ]}.

Lemma toy_dir : dir_ok [Normal "c"] ["c"] toy_fs /\ forall name, slot ["c"] toy_fs name.
Proof.
  split; [split; [split; [reflexivity|]|split; [done|split; reflexivity]]|].
  - intros [|a k] s X; [done|]. unfold toy_fs in X. rewrite lookup_singleton_ne in X; [by destruct X|].
    intros [= _ E]. destruct k; discriminate E.
  - intros name m X. unfold toy_fs in X. rewrite lookup_singleton_ne in X by discriminate. discriminate X.
Qed.

Lemma refs_roundtrip_witness :
  ref_lookup (ref_store 420 "7" toy_fs [Normal "c"] "alpine" "ab") (refs_path [Normal "c"]) "alpine" = Some "ab".
Proof.
  assert (O : refs_ok [Normal "c"] ["c"] toy_fs) by (split; [apply toy_dir|split; [|intros ?]; apply toy_dir]).
  exact (proj1 (proj2 (refs_roundtrip [Normal "c"] ["c"] 420 toy_fs "7" "alpine" "ab" "alpine" O))).
Defined.

Lemma refs_lost_update_witness :
  let m := default ∅ (read_refs toy_fs (refs_path [Normal "c"])) in
  ref_lookup (write_refs 420 "8" (write_refs 420 "7" toy_fs [Normal "c"] (<["a" := "1"]> m)) [Normal "c"] (<["b" := "2"]> m))
    (refs_path [Normal "c"]) "a" = None.
Proof.
  assert (O : refs_ok [Normal "c"] ["c"] toy_fs) by (split; [apply toy_dir|split; [|intros ?]; apply toy_dir]).
  exact (proj1 (proj2 (refs_lost_update [Normal "c"] ["c"] 420 toy_fs "7" "8" "a" "b" "1" "2" O ltac:(discriminate)))).
Defined.

Definition toy_members : list Z -> list (option (string * list Z * bool)) := fun _ => [] ++ [Some ("blobs/sha256/ab", [9], false)].

Lemma local_tar_poisons_witness :
  let '(fs', res) := extract_members 420 toy_members toy_fs [] ["blobs/sha256/ab"] [Normal "c"] in
  (res = None <-> false = false) /\ (exists m, fs' !! (["c"] ++ [basename "blobs/sha256/ab"]) = Some (NFile [9] m))
  /\ forall room s, fetch_blob (fun _ => ATransport) 420 room s fs' [Normal "c"] ("sha256:" +:+ basename "blobs/sha256/ab")
                    = (s, fs', inl ([Normal "c"] ++ [Normal (basename "blobs/sha256/ab")])).
Proof.
  apply (local_tar_poisons [Normal "c"] ["c"] 420 toy_members (fun _ => ATransport) toy_fs [] ["blobs/sha256/ab"] []
           "blobs/sha256/ab" [9] false).
  - exact toy_dir.
  - reflexivity.
  - intros m d w X. apply elem_of_nil in X. destruct X.
  - intros X. apply elem_of_nil in X. destruct X.
  - left.
  - repeat split; discriminate.
Defined.

#[export] Instance ImageConfig_eq_dec : EqDecision ImageConfig.
Proof. solve_decision. Defined.
#[export] Instance ImageConfig_countable : Countable ImageConfig.
Proof.
  refine (inj_countable' (fun c => (entrypoint c, cmd c, env c, working_dir c)) (fun '(a, b, c, d) => mkImageConfig a b c d) _).
  by intros [].
Defined.
#[local] Instance toy_config : Serde ImageConfig := demo_serde ImageConfig.
#[local] Instance toy_config_ok : SerdeOk ImageConfig.
Proof. apply demo_serde_ok. Defined.

Definition toy_cfg : ImageConfig := mkImageConfig ["sh"] [] [] None.
Definition toy_build : Fs * (Built + Error) :=
  finish_build 493 420 true "7" (fun _ => []) (fun x => x) (fun _ _ => (Some [1], true)) toy_fs (parts ["c"]) "ab" [] toy_cfg.

Lemma toy_bases : bases_ok ["c"] ["c"] "ab" "7" toy_fs.
Proof.
  destruct toy_dir as [[W _] S]. split; [done|]. split; [|by split].
  assert (without (["c"] ++ [rootfs_name "ab" "7"]) toy_fs = toy_fs) as -> by (vm_compute; reflexivity).
  split; [done|]. split; [done|]. split; reflexivity.
Qed.

Lemma finish_build_loads_witness :
  load_built (fst toy_build) (parts ["c"]) "ab" = Some (mkBuilt (parts ["c"] ++ [Normal "ab.sqfs"]) toy_cfg).
Proof.
  refine (proj2 (finish_build_loads ["c"] ["c"] "ab" "7" 493 420 true (fun _ => []) (fun x => x)
    (fun _ _ => (Some [1], true)) toy_fs (fst toy_build) [] toy_cfg _ _ _ _ toy_bases _)).
  - reflexivity.
  - reflexivity.
  - intros p e I. apply elem_of_nil in I. destruct I.
  - vm_compute. reflexivity.
Defined.
