(* ===== verification/Bootstrap.v ===== *)
(** * Bootstrap: the initramfs of an image (crates/amber/src/main.rs:
    build_bootstrap, sh_quote, asset, first_module_dir, cache_dir)

    The init script is built as text and read by the guest's shell, so its
    specification is a reader of shell text: lines and words as POSIX quoting
    divides them. Files come from the host's file system ([Fs]); gzip is an
    argument.

    [init_runs_argv]: whatever the command, working directory and environment
    hold, the guest's shell reads back exactly them; [bootstrap_archive]: the
    files the initramfs carries. *)

From stdpp Require Import pretty.
From S2P Require Import Prelude Fs Cpio Registry Image.

#[local] Open Scope Z_scope.

(** ** Where files are *)

Abbreviation Env := (gmap string string).

Definition KERNEL : string := "assets/Image".
Definition BUSYBOX : string := "assets/irx/bin/busybox".
Definition MUSL : string := "assets/irx/lib/ld-musl-aarch64.so.1".
Definition MODULES_ROOT : string := "assets/irx/lib/modules".
Definition AGENT : string := "assets/amber-agent".
Definition AGENT_PATH : string := "/sbin/amber-agent".
Definition MODULES : list string :=
  ["drivers/virtio/virtio_mmio.ko"; "drivers/block/virtio_blk.ko"; "drivers/virtio/virtio_balloon.ko";
   "drivers/char/hw_random/rng-core.ko"; "drivers/char/hw_random/virtio-rng.ko"; "net/core/failover.ko";
   "drivers/net/net_failover.ko"; "drivers/net/virtio_net.ko"; "fs/squashfs/squashfs.ko"; "fs/overlayfs/overlay.ko"].

Section Host.
Variable fs : Fs.
Variable envs : Env.
(** [std::env::current_exe]. *)
Variable exe : option Path.

Definition has_assets (base : Path) : bool := fs_exists fs (join base (path_of_str KERNEL)).

Definition asset (rel : string) : Path :=
  let home := match envs !! "AMBER_HOME" with
    | Some home => if has_assets (path_of_str home) then Some (join (path_of_str home) (path_of_str rel)) else None
    | None => None end in
  let beside := match exe with
    | Some exe =>
        let exe := match canonicalize fs exe with inl r => parts r | inr _ => exe end in
        match path_parent exe with
        | Some dir => if has_assets dir then Some (join dir (path_of_str rel)) else None
        | None => None end
    | None => None end in
  match home, beside with
  | Some p, _ => p
  | None, Some p => p
  | None, None => path_of_str rel
  end.

Definition cache_dir : Path :=
  match envs !! "AMBER_CACHE" with
  | Some c => path_of_str c
  | None =>
      let base := match envs !! "XDG_CACHE_HOME" with
        | Some x => path_of_str x
        | None => match envs !! "HOME" with Some h => join (path_of_str h) [Normal ".cache"] | None => [CurDir] end end in
      join base [Normal "amber"]
  end.

Definition first_module_dir : option Path :=
  match canonicalize fs (asset MODULES_ROOT) with
  | inl r =>
      if is_dir_at fs r then
        head (List.filter (is_dir fs) (map (fun e => join (join (asset MODULES_ROOT) [Normal e]) [Normal "kernel"]) (read_dir fs r)))
      else None
  | inr _ => None
  end.
End Host.

(** [Option::is_some]. *)
Definition given {A} (o : option A) : bool := match o with Some _ => true | None => false end.

(** ** The script *)

Definition QUOTE : Ascii.ascii := ch "'".
Definition BSLASH : Ascii.ascii := ch "\".
Definition NL : Ascii.ascii := Ascii.ascii_of_nat 10.
Definition chr (c : Ascii.ascii) : string := String c EmptyString.

(** [s.replace('\'', "'\\''")] between quotes. *)
Fixpoint escape (s : string) : string :=
  match s with
  | EmptyString => EmptyString
  | String c s' => if Ascii.eqb c QUOTE then "'\''" +:+ escape s' else String c (escape s')
  end.
Definition sh_quote (s : string) : string := "'" +:+ escape s +:+ "'".

Fixpoint join_with (sep : string) (l : list string) : string :=
  match l with [] => EmptyString | [x] => x | x :: l' => x +:+ sep +:+ join_with sep l' end.

Definition mount_point (i : nat) : string :=
  if (i =? 0)%nat then "/newroot/data" else "/newroot/data" +:+ pretty (i + 1)%nat.
(** [(b'b' + i as u8) as char]. *)
Definition disk_dev (i : nat) : string := "/dev/vd" +:+ chr (Ascii.ascii_of_nat ((98 + i) mod 256)).

Definition mount_line (i : nat) : string :=
  let mp := mount_point i in let dev := disk_dev i in
  "mkdir -p " +:+ mp +:+ "; mount -t ext4 " +:+ dev +:+ " " +:+ mp +:+ " 2>/dev/null || mount -t ext4 -o ro,noload "
  +:+ dev +:+ " " +:+ mp +:+ " 2>/dev/null || rmdir " +:+ mp +:+ " 2>/dev/null".
Definition umount_line (i : nat) : string := "umount " +:+ mount_point i +:+ " 2>/dev/null".

Definition net_line : string :=
  "if [ -e /sys/class/net/eth0 ]; then ip link set eth0 up; ip addr add 10.0.0.2/24 dev eth0; ip route add default via 10.0.0.1; mkdir -p /newroot/etc; echo 'nameserver 10.0.0.1' > /newroot/etc/resolv.conf; fi".

Definition export_line (e : string) : string := "export " +:+ sh_quote e.
Definition inner_command (cwd : string) (argv : list string) : string :=
  "cd " +:+ sh_quote cwd +:+ "; exec " +:+ join_with " " (map sh_quote argv).
Definition chroot_line (cwd : string) (argv : list string) : string :=
  "chroot /newroot /bin/sh -c " +:+ sh_quote (inner_command cwd argv).

Definition module_name (m : string) : string := basename m.

(** The script's lines, each ended by a newline. *)
Definition setup_lines (epoch : N) (mods : bool) : list string :=
  ["#!/bin/busybox sh"; "/bin/busybox --install -s /bin"; "export PATH=/bin"; "mount -t proc proc /proc";
   "mount -t sysfs sysfs /sys"; "mount -t devtmpfs dev /dev"; "date -s @" +:+ pretty epoch +:+ " >/dev/null 2>&1"]
  ++ (if mods then map (fun m => "insmod /mod/" +:+ module_name m) MODULES else [])
  ++ ["mkdir -p /base /scratch /newroot"; "mount -t squashfs -o ro /dev/vda /base"; "mount -t tmpfs tmpfs /scratch";
      "mkdir -p /scratch/u /scratch/w";
      "mount -t overlay overlay -o lowerdir=/base,upperdir=/scratch/u,workdir=/scratch/w /newroot";
      "mount -t devtmpfs dev /newroot/dev"; "mount -t proc proc /newroot/proc"; "mount -t sysfs sysfs /newroot/sys"].
Definition init_lines (epoch : N) (mods with_agent : bool) (config : ImageConfig) (argv : list string) (data_disks : nat)
    : list string :=
  setup_lines epoch mods ++ map mount_line (seq 0 data_disks) ++ [net_line]
  ++ map export_line (env config)
  ++ (if with_agent then ["mkdir -p /newroot/sbin"; "cp /sbin/amber-agent /newroot/sbin/amber-agent"] else [])
  ++ [chroot_line (default "/" (working_dir config)) argv]
  ++ (if (0 <? data_disks)%nat then "sync" :: map umount_line (seq 0 data_disks) else [])
  ++ ["poweroff -f"].
Definition script (lines : list string) : string := fold_right (fun l s => l +:+ chr NL +:+ s) EmptyString lines.

(** ** The initramfs *)

Section Build.
Variable fs : Fs.
Variable envs : Env.
Variable exe : option Path.
(** Seconds since 1970 by the host's clock, and flate2. *)
Variable epoch : N.
Variable gz : list Z -> option (list Z).

Definition bootstrap_ops (busybox musl : list Z) (agent : option (list Z)) (mods : option (list (list Z))) (init : string)
    : list Cpio.Op :=
  map (fun d => ODir (text d) 0x1ed) ["bin"; "lib"; "dev"; "proc"; "sys"]
  ++ [OFile (text "bin/busybox") busybox 0x1ed; OFile (text "lib/ld-musl-aarch64.so.1") musl 0x1ed;
      OSymlink (text "lib/libc.musl-aarch64.so.1") (text "ld-musl-aarch64.so.1")]
  ++ match agent with Some a => [ODir (text "sbin") 0x1ed; OFile (text "sbin/amber-agent") a 0x1ed] | None => [] end
  ++ match mods with
     | Some ms => ODir (text "mod") 0x1ed
         :: zip_with (fun m d => OFile (text ("mod/" +:+ module_name m)) d 0x1a4) MODULES ms
     | None => [] end
  ++ [OFile (text "init") (text init) 0x1ed; OCharDev (text "dev/console") 0x180 5 1; OCharDev (text "dev/null") 0x1b6 1 3].

Definition build_bootstrap (config : ImageConfig) (argv : list string) (data_disks : nat) : option (list Z) :=
  busybox ← read_path fs (asset fs envs exe BUSYBOX);
  musl ← read_path fs (asset fs envs exe MUSL);
  let kernel_mods := first_module_dir fs envs exe in
  let with_agent := bool_decide (head argv = Some AGENT_PATH) in
  agent ← (if with_agent then Some <$> read_path fs (asset fs envs exe AGENT) else Some None);
  let init := script (init_lines epoch (given kernel_mods) with_agent config argv data_disks) in
  mods ← (match kernel_mods with
          | Some dir => Some <$> mapM (fun m => read_path fs (join dir (path_of_str m))) MODULES
          | None => Some None end);
  finish_gz gz (foldl apply_op Cpio_new (bootstrap_ops busybox musl agent mods init)).
End Build.

(** ** Reading shell text *)

(** Characters that stand for themselves outside quotes. *)
Definition sh_plain (c : Ascii.ascii) : bool :=
  let n := Ascii.nat_of_ascii c in
  ((48 <=? n) && (n <=? 58) || (64 <=? n) && (n <=? 90) || (97 <=? n) && (n <=? 122)
   || (43 <=? n) && (n <=? 47) || (n =? 95) || (n =? 37))%nat.

Definition snoc (s : string) (c : Ascii.ascii) : string := s +:+ chr c.
Definition add_word (words : list string) (w : option string) : list string :=
  match w with Some w => words ++ [w] | None => words end.

(** The commands of a text: words by blanks, commands by [;] and newlines,
    with single quotes and the backslash. Anything else with a meaning to the
    shell is not read. *)
Fixpoint sh (s : string) (quoted : bool) (word : option string) (words : list string) : option (list (list string)) :=
  match s with
  | EmptyString => if quoted then None else Some [add_word words word]
  | String c s' =>
      if quoted then
        if Ascii.eqb c QUOTE then sh s' false word words
        else if Ascii.eqb c Ascii.zero then None
        else sh s' true (Some (snoc (default EmptyString word) c)) words
      else if Ascii.eqb c QUOTE then sh s' true (Some (default EmptyString word)) words
      else if Ascii.eqb c BSLASH then
        match s' with
        | String d s'' => if Ascii.eqb d NL then None else sh s'' false (Some (snoc (default EmptyString word) d)) words
        | EmptyString => None
        end
      else if Ascii.eqb c (ch " ") then sh s' false None (add_word words word)
      else if Ascii.eqb c (ch ";") || Ascii.eqb c NL then
        match sh s' false None [] with Some r => Some (add_word words word :: r) | None => None end
      else if sh_plain c then sh s' false (Some (snoc (default EmptyString word) c)) words
      else None
  end.
Definition sh_commands (s : string) : option (list (list string)) := sh s false None [].

(** The lines of a script that a newline outside quotes ends. *)
Fixpoint sh_scan (s : string) (quoted : bool) (line : string) : option (list string) :=
  match s with
  | EmptyString => if quoted then None else Some (if String.eqb line EmptyString then [] else [line])
  | String c s' =>
      if quoted then sh_scan s' (negb (Ascii.eqb c QUOTE)) (snoc line c)
      else if Ascii.eqb c QUOTE then sh_scan s' true (snoc line c)
      else if Ascii.eqb c BSLASH then
        match s' with String d s'' => sh_scan s'' false (snoc (snoc line c) d) | EmptyString => None end
      else if Ascii.eqb c NL then match sh_scan s' false EmptyString with Some r => Some (line :: r) | None => None end
      else sh_scan s' false (snoc line c)
  end.
Definition sh_lines (s : string) : option (list string) := sh_scan s false EmptyString.

#[local] Arguments Ascii.eqb : simpl never.

Lemma snoc_app w c s : snoc w c +:+ s = w +:+ String c s.
Proof. unfold snoc, chr. by rewrite app_assoc_string. Qed.

Lemma escape_cons c s : escape (String c s) = if Ascii.eqb c QUOTE then "'\''" +:+ escape s else String c (escape s).
Proof. done. Qed.

(** *** Quoted words *)

Lemma sh_escaped (s : string) : contains Ascii.zero s = false -> forall rest w words,
  sh (escape s +:+ "'" +:+ rest) true (Some w) words = sh rest false (Some (w +:+ s)) words.
Proof.
  induction s as [|c s IH]; intros N rest w words.
  - change (escape EmptyString +:+ "'" +:+ rest) with (String QUOTE rest). cbn [sh]. rewrite Ascii.eqb_refl. by rewrite app_nil_string.
  - rewrite contains_cons, orb_false_iff in N. destruct N as [N0 N]. rewrite escape_cons.
    destruct (Ascii.eqb_spec c QUOTE) as [->|Nq].
    + rewrite app_assoc_string. change ("'\''" +:+ escape s +:+ "'" +:+ rest)
        with (String QUOTE (String BSLASH (String QUOTE (String QUOTE (escape s +:+ "'" +:+ rest))))).
      change (sh (escape s +:+ "'" +:+ rest) true (Some (snoc w QUOTE)) words = sh rest false (Some (w +:+ String QUOTE s)) words).
      rewrite IH by done. by rewrite snoc_app.
    + rewrite app_string. cbn [sh]. apply Ascii.eqb_neq in Nq. rewrite Nq, N0. cbn [default from_option id].
      change (id w) with w. rewrite IH by done. by rewrite snoc_app.
Qed.

Lemma sh_quoted (s rest : string) (w : option string) (words : list string) : contains Ascii.zero s = false ->
  sh (sh_quote s +:+ rest) false w words = sh rest false (Some (default EmptyString w +:+ s)) words.
Proof.
  intros N. unfold sh_quote. rewrite !app_assoc_string.
  change (sh (escape s +:+ "'" +:+ rest) true (Some (default EmptyString w)) words = sh rest false (Some (default EmptyString w +:+ s)) words).
  by apply sh_escaped.
Qed.

Definition no_nul (s : string) : Prop := contains Ascii.zero s = false.

Lemma sh_argv (argv : list string) : Forall no_nul argv -> forall words, argv <> [] ->
  sh (join_with " " (map sh_quote argv)) false None words = Some [words ++ argv].
Proof.
  induction 1 as [|a argv Na Nr IH]; intros words Ne; [done|]. cbn [map join_with]. destruct argv as [|b argv].
  - cbn [map]. rewrite <- (app_nil_string (sh_quote a)). by rewrite sh_quoted.
  - change (map sh_quote (b :: argv)) with (sh_quote b :: map sh_quote argv) at 1. cbv iota beta.
    rewrite sh_quoted by done. cbn [default from_option]. 
    change (sh (join_with " " (map sh_quote (b :: argv))) false None (words ++ [a]) = Some [words ++ a :: b :: argv]).
    rewrite IH by done. by rewrite <- app_assoc.
Qed.

Lemma sh_inner (cwd : string) (argv : list string) : no_nul cwd -> Forall no_nul argv -> argv <> [] ->
  sh_commands (inner_command cwd argv) = Some [["cd"; cwd]; "exec" :: argv].
Proof.
  intros Nc Na Ne. unfold sh_commands, inner_command.
  change (sh (sh_quote cwd +:+ "; exec " +:+ join_with " " (map sh_quote argv)) false None ["cd"] = Some [["cd"; cwd]; "exec" :: argv]).
  rewrite sh_quoted by done.
  change (match sh (join_with " " (map sh_quote argv)) false None ["exec"] with
          | Some r => Some (["cd"; cwd] :: r) | None => None end = Some [["cd"; cwd]; "exec" :: argv]).
  by rewrite sh_argv.
Qed.

Lemma no_nul_app a b : no_nul a -> no_nul b -> no_nul (a +:+ b).
Proof. unfold no_nul. intros A B. by rewrite contains_app, A, B. Qed.

Lemma no_nul_quote s : no_nul s -> no_nul (sh_quote s).
Proof.
  intros N. unfold sh_quote. apply no_nul_app; [done|]. apply no_nul_app; [|done].
  unfold no_nul in *. induction s as [|c s IH]; [done|]. rewrite contains_cons, orb_false_iff in N. destruct N as [N0 N].
  rewrite escape_cons. destruct (Ascii.eqb c QUOTE); [by rewrite contains_app, IH|]. rewrite contains_cons, N0. by apply IH.
Qed.

Lemma no_nul_join l : Forall no_nul l -> no_nul (join_with " " l).
Proof.
  induction 1 as [|x l Nx Nl IH]; [done|]. destruct l as [|y l]; [done|]. cbn [join_with].
  apply no_nul_app; [done|]. by apply no_nul_app.
Qed.

Lemma no_nul_inner cwd argv : no_nul cwd -> Forall no_nul argv -> no_nul (inner_command cwd argv).
Proof.
  intros Nc Na. unfold inner_command. apply no_nul_app; [done|]. apply no_nul_app; [by apply no_nul_quote|].
  apply no_nul_app; [done|]. apply no_nul_join. apply Forall_map. eapply Forall_impl; [exact Na|]. apply no_nul_quote.
Qed.

Lemma sh_chroot cwd argv : no_nul cwd -> Forall no_nul argv ->
  sh_commands (chroot_line cwd argv) = Some [["chroot"; "/newroot"; "/bin/sh"; "-c"; inner_command cwd argv]].
Proof.
  intros Nc Na. unfold sh_commands, chroot_line. rewrite <- (app_nil_string (sh_quote _)).
  change (sh (sh_quote (inner_command cwd argv) +:+ EmptyString) false None ["chroot"; "/newroot"; "/bin/sh"; "-c"]
          = Some [["chroot"; "/newroot"; "/bin/sh"; "-c"; inner_command cwd argv]]).
  rewrite sh_quoted by by apply no_nul_inner. done.
Qed.

Lemma sh_export e : no_nul e -> sh_commands (export_line e) = Some [["export"; e]].
Proof.
  intros N. unfold sh_commands, export_line. rewrite <- (app_nil_string (sh_quote _)).
  change (sh (sh_quote e +:+ EmptyString) false None ["export"] = Some [["export"; e]]). by rewrite sh_quoted.
Qed.

(** *** Lines *)

(** A text that leaves the reader outside quotes and on the same line. *)
Definition quiet (l : string) : Prop := forall rest line, sh_scan (l +:+ rest) false line = sh_scan rest false (line +:+ l).

Lemma quiet_app a b : quiet a -> quiet b -> quiet (a +:+ b).
Proof. intros A B rest line. rewrite app_assoc_string, A, B. by rewrite app_assoc_string. Qed.

Definition calm (s : string) : bool := negb (contains QUOTE s || contains BSLASH s || contains NL s).

Lemma calm_quiet s : calm s = true -> quiet s.
Proof.
  unfold calm. rewrite negb_true_iff, !orb_false_iff. induction s as [|c s IH]; intros [[Nq Nb] Nn] rest line.
  - by rewrite app_nil_string.
  - rewrite contains_cons, orb_false_iff in *. destruct Nq as [Eq Nq], Nb as [Eb Nb], Nn as [En Nn].
    rewrite app_string. cbn [sh_scan]. rewrite Eq, Eb, En, IH by done. by rewrite snoc_app.
Qed.

Lemma scan_escaped s : forall rest line,
  sh_scan (escape s +:+ "'" +:+ rest) true line = sh_scan rest false (line +:+ escape s +:+ "'").
Proof.
  induction s as [|c s IH]; intros rest line.
  - change (escape EmptyString +:+ "'" +:+ rest) with (String QUOTE rest). cbn [sh_scan]. rewrite Ascii.eqb_refl. done.
  - rewrite escape_cons. destruct (Ascii.eqb_spec c QUOTE) as [->|Nq].
    + rewrite app_assoc_string. change ("'\''" +:+ escape s +:+ "'" +:+ rest)
        with (String QUOTE (String BSLASH (String QUOTE (String QUOTE (escape s +:+ "'" +:+ rest))))).
      change (sh_scan (escape s +:+ "'" +:+ rest) true (snoc (snoc (snoc (snoc line QUOTE) BSLASH) QUOTE) QUOTE)
              = sh_scan rest false (line +:+ ("'\''" +:+ escape s) +:+ "'")).
      rewrite IH, app_assoc_string. f_equal. by rewrite !snoc_app.
    + rewrite !(app_string c (escape s)). cbn [sh_scan]. apply Ascii.eqb_neq in Nq. rewrite Nq. cbn [negb]. rewrite IH. by rewrite snoc_app.
Qed.

Lemma quiet_quote s : quiet (sh_quote s).
Proof.
  intros rest line. unfold sh_quote. rewrite !app_assoc_string.
  change (sh_scan (escape s +:+ "'" +:+ rest) true (snoc line QUOTE) = sh_scan rest false (line +:+ "'" +:+ escape s +:+ "'")).
  rewrite scan_escaped. by rewrite snoc_app.
Qed.

Lemma quiet_join l : Forall quiet l -> quiet (join_with " " l).
Proof.
  induction 1 as [|x l Nx Nl IH]; [by apply calm_quiet|]. destruct l as [|y l]; [done|]. cbn [join_with].
  apply quiet_app; [done|]. apply quiet_app; [by apply calm_quiet|done].
Qed.

Lemma script_lines (ls : list string) : Forall quiet ls -> sh_lines (script ls) = Some ls.
Proof.
  unfold sh_lines. induction 1 as [|l ls Q _ IH]; [done|].
  change (script (l :: ls)) with (l +:+ chr NL +:+ script ls). rewrite Q.
  change (EmptyString +:+ l) with l. change (chr NL +:+ script ls) with (String NL (script ls)).
  change (match sh_scan (script ls) false EmptyString with Some r => Some (l :: r) | None => None end = Some (l :: ls)).
  by rewrite IH.
Qed.

Lemma calm_app a b : calm (a +:+ b) = calm a && calm b.
Proof. unfold calm. rewrite !contains_app. by destruct (contains QUOTE a), (contains BSLASH a), (contains NL a), (contains QUOTE b), (contains BSLASH b), (contains NL b). Qed.

Lemma calm_pretty_go (x : N) : forall s, calm s = true -> calm (pretty_N_go x s) = true.
Proof.
  induction (N.lt_wf_0 x) as [x _ IH]. intros s C. destruct (decide (0 < x)%N) as [Hx|Hx].
  - rewrite pretty_N_go_step by done. apply IH; [by apply N.div_lt|].
    change (String (pretty_N_char (x `mod` 10)) s) with (chr (pretty_N_char (x `mod` 10)) +:+ s). rewrite calm_app, C.
    unfold pretty_N_char. by repeat case_match.
  - assert (x = 0%N) as -> by lia. by rewrite pretty_N_go_0.
Qed.

Lemma calm_pretty_N (x : N) : calm (pretty x) = true.
Proof. unfold pretty, pretty_N. destruct (decide _); [done|]. by apply calm_pretty_go. Qed.
Lemma calm_pretty_nat (n : nat) : calm (pretty n) = true.
Proof. unfold pretty, pretty_nat. apply calm_pretty_N. Qed.

Lemma calm_mount_point i : calm (mount_point i) = true.
Proof. unfold mount_point. destruct (i =? 0)%nat; [done|]. by rewrite calm_app, calm_pretty_nat. Qed.

Lemma calm_disk_dev i : (i < 128)%nat -> calm (disk_dev i) = true.
Proof.
  intros L. do 128 (destruct i as [|i]; [vm_compute; reflexivity|]). lia.
Qed.

#[local] Hint Resolve calm_quiet quiet_quote : core.

Lemma init_lines_quiet epoch mods with_agent config argv n : (n <= 128)%nat ->
  Forall quiet (init_lines epoch mods with_agent config argv n).
Proof.
  intros L. unfold init_lines, setup_lines. rewrite !Forall_app. repeat match goal with |- _ /\ _ => split end.
  all: try (repeat constructor; apply calm_quiet; reflexivity).
  - do 6 (constructor; [by apply calm_quiet|]). constructor; [|constructor]. apply calm_quiet. by rewrite !calm_app, calm_pretty_N.
  - destruct mods; [|constructor]. apply Forall_map. repeat constructor; by apply calm_quiet.
  - apply Forall_map, Forall_forall. intros i I. apply elem_of_seq in I. apply calm_quiet. unfold mount_line.
    rewrite !calm_app, !calm_mount_point, !calm_disk_dev by lia. done.
  - constructor; [|constructor].
    change net_line with ("if [ -e /sys/class/net/eth0 ]; then ip link set eth0 up; ip addr add 10.0.0.2/24 dev eth0; ip route add default via 10.0.0.1; mkdir -p /newroot/etc; echo "
      +:+ sh_quote "nameserver 10.0.0.1" +:+ " > /newroot/etc/resolv.conf; fi").
    apply quiet_app; [by apply calm_quiet|]. apply quiet_app; [auto|by apply calm_quiet].
  - apply Forall_map, Forall_forall. intros e _. unfold export_line. apply quiet_app; [by apply calm_quiet|auto].
  - destruct with_agent; repeat constructor; by apply calm_quiet.
  - constructor; [|constructor]. unfold chroot_line. apply quiet_app; [by apply calm_quiet|auto].
  - destruct (0 <? n)%nat; [|constructor]. constructor; [by apply calm_quiet|]. apply Forall_map, Forall_forall.
    intros i _. apply calm_quiet. unfold umount_line. by rewrite !calm_app, calm_mount_point.
Qed.

(** ** Properties *)

Lemma init_script (epoch : N) (mods with_agent : bool) (config : ImageConfig) (argv : list string) (data_disks : nat) :
  let cwd := default "/" (working_dir config) in
  let lines := init_lines epoch mods with_agent config argv data_disks in
  no_nul cwd -> Forall no_nul argv -> Forall no_nul (env config) -> argv <> [] -> (data_disks <= 128)%nat ->
  sh_lines (script lines) = Some lines
  /\ Forall (fun e => export_line e ∈ lines /\ sh_commands (export_line e) = Some [["export"; e]]) (env config)
  /\ chroot_line cwd argv ∈ lines
  /\ exists inner, sh_commands (chroot_line cwd argv) = Some [["chroot"; "/newroot"; "/bin/sh"; "-c"; inner]]
     /\ sh_commands inner = Some [["cd"; cwd]; "exec" :: argv].
Proof.
  intros cwd lines Nc Na Ne Nn L. split; [by apply script_lines, init_lines_quiet|]. split; [|split].
  - apply Forall_forall. intros e I. rewrite Forall_forall in Ne. split; [|by apply sh_export, Ne].
    unfold lines, init_lines. rewrite !elem_of_app. do 3 right. left. by apply list_elem_of_fmap_2.
  - unfold lines, init_lines. rewrite !elem_of_app. do 5 right. left. by apply list_elem_of_here.
  - exists (inner_command cwd argv). split; [by apply sh_chroot|by apply sh_inner].
Qed.

(** The init script runs what it was given: whatever bytes but NUL the
    environment, working directory and command hold, no quoted text ends a
    line early, each variable is exported as it is, and the shell that runs
    last changes to the directory and executes exactly the command. *)
Theorem init_runs_argv (epoch : N) (mods with_agent : bool) (config : ImageConfig) (argv : list string) (data_disks : nat) :
  let cwd := default "/" (working_dir config) in
  let lines := init_lines epoch mods with_agent config argv data_disks in
  no_nul cwd -> Forall no_nul argv -> Forall no_nul (env config) -> argv <> [] -> (data_disks <= 128)%nat ->
  sh_lines (script lines) = Some lines
  /\ Forall (fun e => export_line e ∈ lines /\ sh_commands (export_line e) = Some [["export"; e]]) (env config)
  /\ chroot_line cwd argv ∈ lines
  /\ exists inner, sh_commands (chroot_line cwd argv) = Some [["chroot"; "/newroot"; "/bin/sh"; "-c"; inner]]
     /\ sh_commands inner = Some [["cd"; cwd]; "exec" :: argv].
Proof. apply init_script. Qed.

Definition demo_config : ImageConfig := mkImageConfig [] [] ["A='; reboot #"] (Some "/it's").
Lemma init_runs_argv_witness :
  sh_commands (chroot_line "/it's" ["echo"; "a b'; rm -rf /"]) =
    Some [["chroot"; "/newroot"; "/bin/sh"; "-c"; inner_command "/it's" ["echo"; "a b'; rm -rf /"]]]
  /\ sh_lines (script (init_lines 5 false false demo_config ["echo"; "a b'; rm -rf /"] 1))
     = Some (init_lines 5 false false demo_config ["echo"; "a b'; rm -rf /"] 1).
Proof.
  split; [vm_compute; reflexivity|].
  refine (proj1 (init_runs_argv 5 false false demo_config ["echo"; "a b'; rm -rf /"] 1 _ _ _ _ _)).
  - reflexivity.
  - repeat constructor.
  - repeat constructor.
  - discriminate.
  - lia.
Defined.

Lemma op_wf_name (n : list Z) : fits 32 (zlen n + 1) -> (0 ∉ n) -> n <> TRAILER ->
  (forall m, fits 16 m -> Cpio.op_wf (ODir n m))
  /\ (forall d m, fits 16 m -> fits 32 (zlen d) -> Cpio.op_wf (OFile n d m))
  /\ (forall d, fits 32 (zlen d) -> Cpio.op_wf (OSymlink n d))
  /\ (forall m a b, fits 16 m -> fits 32 a -> fits 32 b -> Cpio.op_wf (OCharDev n m a b)).
Proof.
  intros F Z N. assert (B : forall k m, fits 16 k -> fits 16 m -> fits 32 (Z.lor k m)).
  { intros k m Hk Hm. apply lor_range; lia. }
  assert (E : forall mode d rdev, fits 32 mode -> fits 32 (fst rdev) -> fits 32 (snd rdev) -> fits 32 (zlen d) ->
    entry_wf (Cpio.mkEntry 0 mode n d rdev)).
  { intros mode d rdev H1 H2 H3 H4. do 6 (split; [done|]). done. }
  split; [|split; [|split]]; intros; apply E; try done; try (cbn; lia); apply B; try done; lia || (cbv; done).
Qed.

(** A name of the archive. *)
Definition good_name (n : list Z) : bool :=
  bool_decide (zlen n < 256) && bool_decide (0 ∉ n) && negb (bool_decide (n = TRAILER)).

Lemma good_name_wf n : good_name n = true ->
  (forall m, fits 16 m -> Cpio.op_wf (ODir n m))
  /\ (forall d m, fits 16 m -> fits 32 (zlen d) -> Cpio.op_wf (OFile n d m))
  /\ (forall d, fits 32 (zlen d) -> Cpio.op_wf (OSymlink n d))
  /\ (forall m a b, fits 16 m -> fits 32 a -> fits 32 b -> Cpio.op_wf (OCharDev n m a b)).
Proof.
  unfold good_name. rewrite !andb_true_iff, negb_true_iff, bool_decide_eq_false, !bool_decide_eq_true. intros [[L Z] N].
  apply op_wf_name; [pose proof (zlen_nonneg n); lia|done|done].
Qed.

Lemma bootstrap_ops_wf busybox musl agent mods init :
  fits 32 (zlen busybox) -> fits 32 (zlen musl) -> from_option (fun a => fits 32 (zlen a)) True agent ->
  from_option (Forall (fun d => fits 32 (zlen d))) True mods -> fits 32 (zlen (text init)) ->
  Forall Cpio.op_wf (bootstrap_ops busybox musl agent mods init).
Proof.
  intros Hb Hm Ha Hd Hi. unfold bootstrap_ops. rewrite !Forall_app.
  assert (F : forall n d m, good_name n = true -> fits 16 m -> fits 32 (zlen d) -> Cpio.op_wf (OFile n d m)).
  { intros n d m G. by apply (proj1 (proj2 (good_name_wf n G))). }
  assert (D : forall n m, good_name n = true -> fits 16 m -> Cpio.op_wf (ODir n m)).
  { intros n m G. by apply (proj1 (good_name_wf n G)). }
  split; [|split; [|split; [|split]]].
  - repeat constructor; by apply D.
  - constructor; [by apply F|]. constructor; [by apply F|]. constructor; [|constructor].
    apply (proj1 (proj2 (proj2 (good_name_wf (text "lib/libc.musl-aarch64.so.1") eq_refl)))). split; [vm_compute; discriminate|vm_compute; reflexivity].
  - destruct agent as [a|]; [|constructor]. constructor; [by apply D|]. constructor; [by apply F|constructor].
  - destruct mods as [ms|]; [|constructor]. constructor; [by apply D|]. cbn [from_option] in Hd.
    assert (G : Forall (fun m => good_name (text ("mod/" +:+ module_name m)) = true) MODULES) by (repeat constructor; vm_compute; reflexivity).
    revert G. generalize MODULES. induction Hd as [|d ms Hd _ IH]; intros l G; [by destruct l; constructor|].
    destruct G as [|m l G0 G]; [constructor|]. constructor; [by apply F|]. by apply IH.
  - constructor; [by apply F|]. constructor; [|constructor; [|constructor]].
    + apply (proj2 (proj2 (proj2 (good_name_wf (text "dev/console") eq_refl)))); lia.
    + apply (proj2 (proj2 (proj2 (good_name_wf (text "dev/null") eq_refl)))); lia.
Qed.

(** The entry of the script. *)
Definition init_entry (i : Z) (init : string) : Cpio.Entry := Cpio.mkEntry i (Z.lor S_IFREG 0x1ed) (text "init") (text init) (0, 0).

Lemma entries_in (ops : list Cpio.Op) (o : Cpio.Op) : o ∈ ops -> forall i, exists k, op_entry k o ∈ entries i ops.
Proof.
  induction 1 as [o ops|o o' ops _ IH]; intros i; cbn [entries].
  - exists i. by left.
  - destruct (IH (i + 1)) as [k K]. exists k. by right.
Qed.

Lemma length_bootstrap_ops busybox musl agent mods init : (length (bootstrap_ops busybox musl agent mods init) <= 24)%nat.
Proof.
  unfold bootstrap_ops. rewrite !length_app. cbn [length map].
  assert (A : (length (match agent with Some a => [ODir (text "sbin") 0x1ed; OFile (text "sbin/amber-agent") a 0x1ed] | None => [] end) <= 2)%nat)
    by (destruct agent; cbn; lia).
  assert (M : (length (match mods with Some ms => ODir (text "mod") 0x1ed
      :: zip_with (fun m d => OFile (text ("mod/" +:+ module_name m)) d 0x1a4) MODULES ms | None => [] end) <= 11)%nat).
  { destruct mods as [ms|]; cbn [length]; [|lia]. rewrite length_zip_with. change (length MODULES) with 10%nat. lia. }
  lia.
Qed.

Lemma bootstrap_unpacks (fs : Fs) (envs : Env) (exe : option Path) (epoch : N) (gz : list Z -> option (list Z))
    (config : ImageConfig) (argv : list string) (data_disks : nat) (out : list Z) :
  (forall p d, read_path fs p = Some d -> fits 32 (zlen d)) ->
  (forall mods with_agent, fits 32 (zlen (text (script (init_lines epoch mods with_agent config argv data_disks))))) ->
  build_bootstrap fs envs exe epoch gz config argv data_disks = Some out ->
  exists raw busybox musl (agent : option (list Z)) (mods : option (list (list Z))) (i : Z),
    let init := script (init_lines epoch (given mods) (given agent) config argv data_disks) in
    let es := entries 1 (bootstrap_ops busybox musl agent mods init) in
    gz raw = Some out /\ parse_archive 64 raw = Some es /\ init_entry i init ∈ es
    /\ (is_Some agent <-> head argv = Some AGENT_PATH)
    /\ read_path fs (asset fs envs exe BUSYBOX) = Some busybox.
Proof.
  intros Hs Hl. unfold build_bootstrap.
  destruct (read_path fs (asset fs envs exe BUSYBOX)) as [busybox|] eqn:Eb; [|done].
  destruct (read_path fs (asset fs envs exe MUSL)) as [musl|] eqn:Em; [|done]. cbn [mbind option_bind].
  destruct (if bool_decide _ then _ else _) as [agent|] eqn:Ea; [|done]. cbn [mbind option_bind].
  destruct (match first_module_dir fs envs exe with Some dir => _ | None => _ end) as [mods|] eqn:Ed; [|done]. cbn [mbind option_bind].
  assert (Ek : given (first_module_dir fs envs exe) = given mods).
  { destruct (first_module_dir fs envs exe) as [dir|]; [|by injection Ed as <-]. by destruct (mapM _ _); [injection Ed as <-|]. }
  assert (Eg : bool_decide (head argv = Some AGENT_PATH) = given agent).
  { destruct (bool_decide _); [|by injection Ea as <-]. by destruct (read_path fs (asset fs envs exe AGENT)); [injection Ea as <-|]. }
  rewrite Ek, Eg. set (init := script _). set (ops := bootstrap_ops busybox musl agent mods init). intros Ef.
  assert (W : Forall Cpio.op_wf ops).
  { apply bootstrap_ops_wf; [by apply (Hs _ _ Eb)|by apply (Hs _ _ Em)| | |apply Hl].
    - destruct agent as [a|]; [|done]. destruct (bool_decide _); [|done].
      destruct (read_path fs (asset fs envs exe AGENT)) as [a'|] eqn:E; [|done]. injection Ea as ->. by apply (Hs _ _ E).
    - destruct mods as [ms|]; [|done]. destruct (first_module_dir fs envs exe) as [dir|]; [|done].
      destruct (mapM _ _) as [l|] eqn:E; [|done]. injection Ed as ->. cbn [from_option].
      apply mapM_Some_1 in E. clear -E Hs. induction E as [|m d ml dl E _ IH]; constructor; [by apply (Hs _ _ E)|done]. }
  pose proof (length_bootstrap_ops busybox musl agent mods init) as Ln. fold ops in Ln.
  destruct (parse_ops ops Cpio_new (record_bytes 0 TRAILER 0 [] (0, 0))) as (bs & Ebs & Em4 & P); [done|done|change (ino Cpio_new) with 0; lia|done|].
  assert (In : OFile (text "init") (text init) 0x1ed ∈ ops) by (unfold ops, bootstrap_ops; rewrite !elem_of_app; do 4 right; left).
  destruct (entries_in ops _ In 1) as [i Hi].
  exists (finish (foldl apply_op Cpio_new ops)), busybox, musl, agent, mods, i. cbv zeta. split; [done|]. split; [|split; [done|split; [|done]]].
  - rewrite finish_trailer by done. rewrite Ebs. cbn [buf Cpio_new app].
    replace 64%nat with (length ops + S (63 - length ops))%nat by lia. rewrite P, trailer_parses. cbn. by rewrite app_nil_r.
  - rewrite <- (bool_decide_eq_true (head argv = Some AGENT_PATH)), Eg. destruct agent; split; try done; by intros [].
Qed.

(** A built initramfs unpacks: a reader of its format finds exactly the
    entries that were asked for, in order, and among them /init, executable,
    with the script's bytes. *)
Theorem bootstrap_archive (fs : Fs) (envs : Env) (exe : option Path) (epoch : N) (gz : list Z -> option (list Z))
    (config : ImageConfig) (argv : list string) (data_disks : nat) (out : list Z) :
  (forall p d, read_path fs p = Some d -> fits 32 (zlen d)) ->
  (forall mods with_agent, fits 32 (zlen (text (script (init_lines epoch mods with_agent config argv data_disks))))) ->
  build_bootstrap fs envs exe epoch gz config argv data_disks = Some out ->
  exists raw busybox musl (agent : option (list Z)) (mods : option (list (list Z))) (i : Z),
    let init := script (init_lines epoch (given mods) (given agent) config argv data_disks) in
    let es := entries 1 (bootstrap_ops busybox musl agent mods init) in
    gz raw = Some out /\ parse_archive 64 raw = Some es /\ init_entry i init ∈ es
    /\ (is_Some agent <-> head argv = Some AGENT_PATH)
    /\ read_path fs (asset fs envs exe BUSYBOX) = Some busybox.
Proof. apply bootstrap_unpacks. Qed.

Definition demo_fs : Fs :=
  list_to_map [(["assets"], NDir 0x1ed); (["assets"; "irx"], NDir 0x1ed); (["assets"; "irx"; "bin"], NDir 0x1ed);
    (["assets"; "irx"; "lib"], NDir 0x1ed); (["assets"; "irx"; "bin"; "busybox"], NFile [1; 2; 3] 0x1ed);
    (["assets"; "irx"; "lib"; "ld-musl-aarch64.so.1"], NFile [4] 0x1ed); (["assets"; "amber-agent"], NFile [5; 6] 0x1ed)].

Definition small (n : Node) : Prop := match n with NFile d _ => zlen d < 100 | _ => True end.
#[export] Instance small_dec n : Decision (small n).
Proof. destruct n; apply _. Defined.
Lemma demo_small : map_Forall (fun _ n => small n) demo_fs.
Proof. apply (bool_decide_eq_true_1 (map_Forall (fun (_ : Real) n => small n) demo_fs)). vm_compute. reflexivity. Qed.

Definition demo_built : option (list Z) := build_bootstrap demo_fs ∅ None 5 Some demo_config [AGENT_PATH] 0.

Lemma bootstrap_archive_witness :
  exists raw busybox musl (agent : option (list Z)) (mods : option (list (list Z))) (i : Z),
    let init := script (init_lines 5 (given mods) (given agent) demo_config [AGENT_PATH] 0) in
    let es := entries 1 (bootstrap_ops busybox musl agent mods init) in
    Some raw = Some (default [] demo_built) /\ parse_archive 64 raw = Some es /\ init_entry i init ∈ es
    /\ (is_Some agent <-> head [AGENT_PATH] = Some AGENT_PATH)
    /\ read_path demo_fs (asset demo_fs ∅ None BUSYBOX) = Some busybox.
Proof.
  apply (bootstrap_archive demo_fs ∅ None 5 Some demo_config [AGENT_PATH] 0).
  - intros p d E. unfold read_path in E. destruct (canonicalize demo_fs p) as [r|]; [|discriminate E].
    destruct (demo_fs !! r) as [[m|x m|t]|] eqn:L; try discriminate E. injection E as <-.
    pose proof (demo_small r _ L) as S. cbn in S. pose proof (zlen_nonneg x). split; [lia|]. eapply Z.lt_trans; [exact S|reflexivity].
  - intros [] []; split; vm_compute; congruence.
  - vm_compute. reflexivity.
Defined.
