(* ===== verification/Lockdown.v ===== *)
(** * Lockdown: dropping privileges before the guest runs
    (crates/amber-core/src/lockdown.rs; vm.rs: the policy of Vm::run)

    The policy, the seatbelt profile of macOS, and the Landlock rules and
    seccomp filter of Linux. The three mechanisms are the kernels'; what they
    enforce is specified here: a reader of profile text with the last matching
    rule deciding, the rights a ruleset handles and grants, and the classic
    BPF machine. The answers of system calls are arguments.

    [seccomp_filter]: what the filter does to every call; [bpf_returns] and
    [seccomp_checked]: it is a program the kernel accepts and it ends;
    [profile_reads] and [seatbelt_confines]; [landlock_confines] and
    [landlock_closes]; [lockdown_linux] composes them; [run_policy] is the
    policy a VM gets. *)

From S2P Require Import Prelude Memory VirtioMmio Devices Net Vsock Machine Fs Registry Bootstrap.

#[local] Open Scope Z_scope.

Record Policy := mkPolicy { write_paths : list Path; pol_net : bool }.

(** ** The filter of Linux *)

Module Seccomp.
Definition LD : Z := 0x00.
Definition W : Z := 0x00.
Definition ABS : Z := 0x20.
Definition JMP : Z := 0x05.
Definition JEQ : Z := 0x10.
Definition RET : Z := 0x06.
Definition K : Z := 0x00.
Definition RET_KILL_PROCESS : Z := 0x80000000.
Definition RET_ERRNO : Z := 0x00050000.
Definition RET_ALLOW : Z := 0x7fff0000.
Definition ARCH_AARCH64 : Z := 0xc00000b7.
Definition OFF_NR : Z := 0.
Definition OFF_ARCH : Z := 4.
Definition NR_EXECVE : Z := 221.
Definition NR_EXECVEAT : Z := 281.
Definition NR_SOCKET : Z := 198.
Definition EPERM : Z := 1.

Record sock_filter := mkFilter { code : Z; jt : Z; jf : Z; k : Z }.
Definition stmt (code k : Z) : sock_filter := mkFilter code 0 0 k.
Definition jump (code k jt jf : Z) : sock_filter := mkFilter code jt jf k.
Definition deny (sysno : Z) : list sock_filter :=
  [jump (Z.lor (Z.lor JMP JEQ) K) sysno 0 1; stmt (Z.lor RET K) (Z.lor RET_ERRNO EPERM)].

(** [install_seccomp]'s program. *)
Definition prog (net : bool) : list sock_filter :=
  [stmt (Z.lor (Z.lor LD W) ABS) OFF_ARCH; jump (Z.lor (Z.lor JMP JEQ) K) ARCH_AARCH64 1 0;
   stmt (Z.lor RET K) RET_KILL_PROCESS; stmt (Z.lor (Z.lor LD W) ABS) OFF_NR]
  ++ deny NR_EXECVE ++ deny NR_EXECVEAT ++ (if net then [] else deny NR_SOCKET)
  ++ [stmt (Z.lor RET K) RET_ALLOW].

(** *** The machine it runs on *)

(** [struct seccomp_data]'s words the program may load. *)
Record Data := mkData { d_nr : Z; d_arch : Z }.
Definition load (d : Data) (off : Z) : option Z :=
  if off =? 0 then Some (d_nr d) else if off =? 4 then Some (d_arch d) else None.

(** One instruction: a verdict, or the next place and accumulator. *)
Definition step (p : list sock_filter) (d : Data) (s : nat * Z) : option (Z + nat * Z) :=
  let '(pc, a) := s in
  i ← p !! pc;
  if code i =? 0x20 then v ← load d (k i); Some (inr (S pc, v))
  else if code i =? 0x15 then let off := if a =? k i then jt i else jf i in Some (inr ((S pc + Z.to_nat off)%nat, a))
  else if code i =? 0x06 then Some (inl (k i))
  else None.
Fixpoint run (fuel : nat) (p : list sock_filter) (d : Data) (s : nat * Z) : option Z :=
  match fuel with
  | O => None
  | S f => match step p d s with Some (inl v) => Some v | Some (inr s') => run f p d s' | None => None end
  end.
(** The verdict on a call; a program that goes wrong has none. *)
Definition verdict (p : list sock_filter) (d : Data) : option Z := run (length p) p d (O, 0).

(** What the kernel checks before it takes a program: known instructions,
    aligned loads inside the data, jumps inside the program, a return last. *)
Definition checked_at (n : nat) (i : nat) (x : sock_filter) : bool :=
  let inside off := (S i + Z.to_nat off <? n)%nat in
  ((code x =? 0x20) && ((k x =? 0) || (k x =? 4)) && inside 0)
  || ((code x =? 0x15) && inside (jt x) && inside (jf x))
  || (code x =? 0x06).
Fixpoint checked_from (n i : nat) (p : list sock_filter) : bool :=
  match p with [] => true | x :: p' => checked_at n i x && checked_from n (S i) p' end.
Definition checked (p : list sock_filter) : bool :=
  negb (length p =? 0)%nat && (Z.of_nat (length p) <=? 4096) && checked_from (length p) O p
  && match last p with Some x => code x =? 0x06 | None => false end.
End Seccomp.

(** ** The ruleset of Linux *)

Module Landlock.
(** Bits [LANDLOCK_ACCESS_FS_*] of ABI 1 to 3. *)
Definition EXECUTE : Z := 0.
Definition WRITE_FILE : Z := 1.
Definition READ_FILE : Z := 2.
Definition READ_DIR : Z := 3.
Definition TRUNCATE : Z := 14.

Definition FS_WRITE : Z :=
  fold_left (fun m b => Z.lor m (Z.shiftl 1 b)) [1; 4; 5; 6; 7; 8; 9; 10; 11; 12] 0.

(** The kernel's answers: the ABI, the ruleset's descriptor, the descriptor
    of a path, whether a rule is taken, and whether the restriction is. *)
Record Host := mkHost {
  abi : Z;
  create_ruleset : Z;
  open_path : Path -> Z;
  add_ok : Z -> bool;
  restrict_ok : bool
}.
Inductive Ev := EvCreate (handled fd : Z) | EvOpen (p : Path) (fd : Z) | EvRule (rs fd allowed : Z) | EvClose (fd : Z) | EvRestrict (rs : Z).
Inductive Err := ErrOs | ErrNul.

(** A path's bytes hold a NUL, so that no C string is made of it. *)
Definition has_nul (p : Path) : bool := existsb (fun c => match c with Normal s => contains Ascii.zero s | _ => false end) p.

Section Install.
Variable h : Host.

Definition add_path_rule (rs fd : Z) : list Ev * option Err :=
  ([EvRule rs fd FS_WRITE; EvClose fd], if add_ok h fd then None else Some ErrOs).

(** One turn of the loop over the paths. *)
Definition add_path (rs : Z) (p : Path) : list Ev * option Err :=
  if has_nul p then ([], Some ErrNul)
  else
    let fd := open_path h p in
    if fd <? 0 then
      let parent := default [CurDir] (path_parent p) in
      if has_nul parent then ([], Some ErrNul)
      else
        let pfd := open_path h parent in
        if pfd <? 0 then ([], None)
        else
          let '(es, r) := add_path_rule rs pfd in
          (EvOpen parent pfd :: es ++ (if given r then [EvClose rs] else []), r)
    else
      let '(es, r) := add_path_rule rs fd in
      (EvOpen p fd :: es ++ (if given r then [EvClose rs] else []), r).

Fixpoint add_paths (rs : Z) (paths : list Path) : list Ev * option Err :=
  match paths with
  | [] => ([], None)
  | p :: paths' =>
      match add_path rs p with
      | (es, Some e) => (es, Some e)
      | (es, None) => let '(es', r) := add_paths rs paths' in (es ++ es', r)
      end
  end.

Definition install (paths : list Path) : list Ev * option Err :=
  if abi h <? 1 then ([], None)
  else
    let rs := create_ruleset h in
    if rs <? 0 then ([], Some ErrOs)
    else
      match add_paths rs paths with
      | (es, Some e) => (EvCreate FS_WRITE rs :: es, Some e)
      | (es, None) => (EvCreate FS_WRITE rs :: es ++ [EvRestrict rs; EvClose rs], if restrict_ok h then None else Some ErrOs)
      end.
End Install.

(** *** What a ruleset means *)

(** Once restricted, a right that some ruleset handles needs a rule that
    grants it on a directory above. *)
Definition grants (es : list Ev) (opened : Z -> option Real) (right : Z) (at_ : Real) : bool :=
  existsb (fun e => match e with
    | EvRule _ fd allowed => Z.testbit allowed right && match opened fd with Some d => bool_decide (d `prefix_of` at_) | None => false end
    | _ => false end) es.
Definition handles (es : list Ev) (right : Z) : bool :=
  existsb (fun e => match e with EvCreate handled _ => Z.testbit handled right | _ => false end) es.
Definition restricted (es : list Ev) : bool := existsb (fun e => match e with EvRestrict _ => true | _ => false end) es.
Definition allows (es : list Ev) (opened : Z -> option Real) (right : Z) (at_ : Real) : bool :=
  negb (restricted es && handles es right) || grants es opened right at_.
End Landlock.

(** ** [imp::apply] on Linux *)

(** What is in force afterwards: Landlock's calls and the filter. *)
Definition apply_linux (h : Landlock.Host) (no_new_privs seccomp_ok : bool) (p : Policy)
    : list Landlock.Ev * option (list Seccomp.sock_filter) * option Landlock.Err :=
  if negb no_new_privs then ([], None, Some Landlock.ErrOs)
  else
    match Landlock.install h (write_paths p) with
    | (es, Some e) => (es, None, Some e)
    | (es, None) => if seccomp_ok then (es, Some (Seccomp.prog (pol_net p)), None) else (es, None, Some Landlock.ErrOs)
    end.

(** ** The profile of macOS *)

Module Seatbelt.
Definition DQ : Ascii.ascii := Ascii.ascii_of_nat 34.

Section Profile.
Variable fs : Fs.

Definition real_text (r : Real) : string := "/" +:+ join_with "/" r.
Definition canon (path : Path) : option string :=
  match canonicalize fs path with
  | inl r => Some (real_text r)
  | inr _ =>
      match canonicalize fs (default [CurDir] (path_parent path)) with
      | inl c => Some (real_text (c ++ [default EmptyString (file_name path)]))
      | inr _ => None
      end
  end.

Definition header : string :=
  "(version 1)" +:+ chr NL +:+ "(allow default)" +:+ chr NL +:+ "(deny process-exec*)" +:+ chr NL
  +:+ "(deny process-fork)" +:+ chr NL +:+ "(deny file-write*)" +:+ chr NL.
Definition write_line (c : string) : string := "(allow file-write* (subpath " +:+ chr DQ +:+ c +:+ chr DQ +:+ "))" +:+ chr NL.
Definition net_line : string := "(deny network*)" +:+ chr NL.
Definition profile (p : Policy) : string :=
  foldl (fun s path => match canon path with Some c => s +:+ write_line c | None => s end) header (write_paths p)
  +:+ if pol_net p then EmptyString else net_line.
End Profile.

(** [imp::apply]: the text handed to sandbox_init, unless it holds a NUL. *)
Definition apply (fs : Fs) (sandbox_ok : bool) (p : Policy) : option string :=
  let s := profile fs p in if contains Ascii.zero s then None else if sandbox_ok then Some s else None.

(** *** Reading it *)

#[warnings="-register-all"] Inductive Sx := Sym (s : string) | Str (s : string) | Lst (l : list Sx).
Inductive Mode := MNone | MSym (acc : string) | MStr (acc : string).
Definition flush (m : Mode) (cur : list Sx) : list Sx := match m with MSym a => cur ++ [Sym a] | _ => cur end.

(** S-expressions with strings: [cur] is read so far of the innermost list,
    [stk] of the lists around it. *)
Fixpoint rd (s : string) (m : Mode) (cur : list Sx) (stk : list (list Sx)) : option (list Sx) :=
  match s with
  | EmptyString => match m, stk with MStr _, _ => None | _, [] => Some (flush m cur) | _, _ => None end
  | String c s' =>
      match m with
      | MStr a =>
          if Ascii.eqb c DQ then rd s' MNone (cur ++ [Str a]) stk
          else if Ascii.eqb c BSLASH then match s' with String d s'' => rd s'' (MStr (snoc a d)) cur stk | EmptyString => None end
          else rd s' (MStr (snoc a c)) cur stk
      | _ =>
          if Ascii.eqb c (ch "(") then rd s' MNone [] (flush m cur :: stk)
          else if Ascii.eqb c (ch ")") then
            match stk with [] => None | outer :: stk' => rd s' MNone (outer ++ [Lst (flush m cur)]) stk' end
          else if Ascii.eqb c (ch " ") || Ascii.eqb c NL then rd s' MNone (flush m cur) stk
          else if Ascii.eqb c DQ then match m with MNone => rd s' (MStr EmptyString) cur stk | _ => None end
          else rd s' (MSym (snoc (match m with MSym a => a | _ => EmptyString end) c)) cur stk
      end
  end.
Definition read (s : string) : option (list Sx) := rd s MNone [] [].

Inductive Op := ProcessExec | ProcessFork | FileWrite (path : string) | Network | OtherOp.
Definition under (dir path : string) : bool :=
  match strip_prefix (dir +:+ "/") (path +:+ "/") with Some _ => true | None => false end.
(** Whether a rule is about an operation, and what it says. *)
Definition rule (x : Sx) (op : Op) : option bool :=
  match x with
  | Lst (Sym act :: Sym what :: filters) =>
      let says := if String.eqb act "allow" then Some true else if String.eqb act "deny" then Some false else None in
      let about := match op with
        | ProcessExec => String.eqb what "process-exec*"
        | ProcessFork => String.eqb what "process-fork"
        | FileWrite p => String.eqb what "file-write*" && match filters with [] => true | [Lst [Sym f; Str d]] => String.eqb f "subpath" && under d p | _ => false end
        | Network => String.eqb what "network*"
        | OtherOp => false end in
      if String.eqb what "default" || about then says else None
  | _ => None
  end.
(** The last rule about it decides; without one nothing is allowed. *)
Definition allowed (rules : list Sx) (op : Op) : bool :=
  foldl (fun r x => default r (rule x op)) false rules.
End Seatbelt.

(** ** Policies *)

(** [Policy::apply]: skipped when AMBER_NO_LOCKDOWN is set. *)
Definition skipped (envs : Env) : bool := given (envs !! "AMBER_NO_LOCKDOWN").

Section RunPolicy.
Context {F : Type} `{DiskFileLaws F} {L : Type} `{RateLimiter L}.
Context {E : Type} `{EntropyLaws E}.
Context {B : Type} `{NetBackendLaws B}.
Context {VB VS : Type} `{HostStreamLaws VS} `{!VsockBackend VB VS} `{!VsockBackendLaws VB VS}.
Context `{HostMadvise}.
(** The policy of [Vm::run]. *)
Definition policy_of (snapshot_dir : option Path) (virtio : list (VirtioDev (F := F) (L := L) (E := E) (B := B) (VB := VB) (VS := VS))) : Policy :=
  mkPolicy (match snapshot_dir with Some d => [d] | None => [] end) (has_device 1 virtio || has_device 19 virtio).
End RunPolicy.

(** ** The filter *)

Lemma checked_from_at n i p : Seccomp.checked_from n i p = true -> forall j x, p !! j = Some x -> Seccomp.checked_at n (i + j) x = true.
Proof.
  revert i. induction p as [|y p IH]; intros i C j x L; [done|]. cbn [Seccomp.checked_from] in C. apply andb_true_iff in C as [C1 C2].
  destruct j as [|j]; [injection L as <-; by rewrite Nat.add_0_r|]. replace (i + S j)%nat with (S i + j)%nat by lia. by apply IH.
Qed.

Lemma checked_step p d pc a : Seccomp.checked p = true -> (pc < length p)%nat ->
  (exists v, Seccomp.step p d (pc, a) = Some (inl v))
  \/ exists pc' a', Seccomp.step p d (pc, a) = Some (inr (pc', a')) /\ (pc < pc' < length p)%nat.
Proof.
  intros C L. unfold Seccomp.checked in C. rewrite !andb_true_iff in C. destruct C as [[_ C] _].
  destruct (lookup_lt_is_Some_2 p pc L) as [x Hx]. pose proof (checked_from_at _ _ _ C pc x Hx) as A. cbn [Nat.add] in A.
  unfold Seccomp.step. rewrite Hx. cbn [mbind option_bind]. unfold Seccomp.checked_at in A. cbv zeta in A.
  rewrite !orb_true_iff, !andb_true_iff in A. destruct A as [[[[A1 A2] A3]|[[A1 A2] A3]]|A1].
  - rewrite A1. right. unfold Seccomp.load. apply Nat.ltb_lt in A3. apply orb_true_iff in A2 as [A2|A2].
    + rewrite A2. cbn [mbind option_bind]. do 2 eexists. split; [done|lia].
    + rewrite A2. destruct (Seccomp.k x =? 0); cbn [mbind option_bind]; do 2 eexists; (split; [done|lia]).
  - rewrite A1. apply Nat.ltb_lt in A2, A3. destruct (Z.eqb_spec (Seccomp.code x) 0x20) as [E|_]; [apply Z.eqb_eq in A1; lia|].
    right. cbv zeta. do 2 eexists. split; [done|]. destruct (a =? Seccomp.k x); lia.
  - rewrite A1. apply Z.eqb_eq in A1. rewrite A1. left. cbn. by eexists.
Qed.

(** The kernel's check is sound: a program it accepts never goes wrong,
    and returns a verdict on every call within its length; the filter that is
    installed is accepted, with and without a network. *)
Theorem bpf_returns : (forall net, Seccomp.checked (Seccomp.prog net) = true)
  /\ forall p d, Seccomp.checked p = true -> is_Some (Seccomp.verdict p d).
Proof.
  split; [by intros []|]. intros p d C. unfold Seccomp.verdict.
  assert (G : forall f pc a, (pc < length p)%nat -> (length p <= f + pc)%nat -> is_Some (Seccomp.run f p d (pc, a))).
  { induction f as [|f IH]; intros pc a L F; [lia|]. cbn [Seccomp.run].
    destruct (checked_step p d pc a C L) as [[v ->]|(pc' & a' & -> & L')]; [by eexists|]. apply IH; lia. }
  apply G; [|lia]. unfold Seccomp.checked in C. destruct p; [done|]. cbn. lia.
Qed.

(** One run of the machine, comparisons decided by the hypotheses. *)
Ltac run_filter :=
  unfold Seccomp.ARCH_AARCH64, Seccomp.NR_EXECVE, Seccomp.NR_EXECVEAT, Seccomp.NR_SOCKET in *;
  lazy -[Z.eqb];
  repeat first
    [ match goal with |- context [Zpos ?a =? Zpos ?b] => let v := eval vm_compute in (Zpos a =? Zpos b) in change (Zpos a =? Zpos b) with v; lazy -[Z.eqb] end
    | match goal with |- context [0 =? 0] => change (0 =? 0) with true; lazy -[Z.eqb] end
    | match goal with |- context [0 =? Zpos ?b] => change (0 =? Zpos b) with false; lazy -[Z.eqb] end
    | match goal with |- context [Zpos ?b =? 0] => change (Zpos b =? 0) with false; lazy -[Z.eqb] end
    | match goal with H : (_ =? _) = _ |- _ => rewrite H; lazy -[Z.eqb] end ].

(** The seccomp filter kills a call of any other architecture, refuses
    execve and execveat with EPERM, and socket too unless the policy has a
    network; every other call, fork included, is allowed. *)
Theorem seccomp_filter (net : bool) (d : Seccomp.Data) :
  Seccomp.verdict (Seccomp.prog net) d =
    Some (if negb (Seccomp.d_arch d =? Seccomp.ARCH_AARCH64) then Seccomp.RET_KILL_PROCESS
          else if (Seccomp.d_nr d =? Seccomp.NR_EXECVE) || (Seccomp.d_nr d =? Seccomp.NR_EXECVEAT)
               || negb net && (Seccomp.d_nr d =? Seccomp.NR_SOCKET) then Z.lor Seccomp.RET_ERRNO Seccomp.EPERM
          else Seccomp.RET_ALLOW).
Proof.
  destruct d as [nr arch]. cbn [Seccomp.d_nr Seccomp.d_arch].
  destruct (arch =? Seccomp.ARCH_AARCH64) eqn:Ea; [|destruct net; by run_filter].
  destruct (nr =? Seccomp.NR_EXECVE) eqn:E1; [destruct net; by run_filter|].
  destruct (nr =? Seccomp.NR_EXECVEAT) eqn:E2; [destruct net; by run_filter|].
  destruct net; [by run_filter|]. destruct (nr =? Seccomp.NR_SOCKET) eqn:E3; by run_filter.
Qed.

(** ** The ruleset *)

Section LandlockProofs.
Variables (h : Landlock.Host) (fs : Fs) (opened : Z -> option Real).

(** Where a rule for a write path lands: it, or else its parent. *)
Definition dir_for (p : Path) : option Real :=
  match canonicalize fs p with
  | inl r => Some r
  | inr _ => match canonicalize fs (default [CurDir] (path_parent p)) with inl r => Some r | inr _ => None end
  end.

(** Opening a path gives a descriptor of the directory it resolves to. *)
Definition opens_fs : Prop := forall p,
  match canonicalize fs p with
  | inl r => 0 <= Landlock.open_path h p /\ opened (Landlock.open_path h p) = Some r
  | inr _ => Landlock.open_path h p < 0
  end.

Lemma grants_app es es' right at_ :
  Landlock.grants (es ++ es') opened right at_ = Landlock.grants es opened right at_ || Landlock.grants es' opened right at_.
Proof. apply existsb_app. Qed.

Lemma add_path_grants rs p es right at_ : opens_fs -> Landlock.add_path h rs p = (es, None) ->
  Landlock.grants es opened right at_ =
    Z.testbit Landlock.FS_WRITE right && match dir_for p with Some d => bool_decide (d `prefix_of` at_) | None => false end
  /\ Landlock.restricted es = false.
Proof.
  intros O. unfold Landlock.add_path, dir_for. destruct (Landlock.has_nul p); [done|]. cbv zeta. pose proof (O p) as Op.
  destruct (canonicalize fs p) as [r|e].
  - destruct Op as [Pf Fd]. rewrite (proj2 (Z.ltb_ge _ _) Pf). unfold Landlock.add_path_rule.
    destruct (Landlock.add_ok h _); [|done]. intros [= <-]. unfold Landlock.grants. cbn [app existsb]. rewrite Fd, orb_false_r. done.
  - rewrite (proj2 (Z.ltb_lt _ _) Op). destruct (Landlock.has_nul _); [done|].
    pose proof (O (default [CurDir] (path_parent p))) as Oq. destruct (canonicalize fs _) as [r|e'].
    + destruct Oq as [Pf Fd]. rewrite (proj2 (Z.ltb_ge _ _) Pf). unfold Landlock.add_path_rule.
      destruct (Landlock.add_ok h _); [|done]. intros [= <-]. unfold Landlock.grants. cbn [app existsb]. rewrite Fd, orb_false_r. done.
    + rewrite (proj2 (Z.ltb_lt _ _) Oq). intros [= <-]. cbn. by rewrite andb_false_r.
Qed.

Lemma add_paths_grants rs paths : opens_fs -> forall es right at_, Landlock.add_paths h rs paths = (es, None) ->
  Landlock.grants es opened right at_ =
    Z.testbit Landlock.FS_WRITE right
      && existsb (fun p => match dir_for p with Some d => bool_decide (d `prefix_of` at_) | None => false end) paths
  /\ Landlock.restricted es = false.
Proof.
  intros O. induction paths as [|p paths IH]; intros es right at_ E; cbn [Landlock.add_paths] in E.
  - injection E as <-. cbn. by rewrite andb_false_r.
  - destruct (Landlock.add_path h rs p) as [es1 [e|]] eqn:E1; [done|].
    destruct (Landlock.add_paths h rs paths) as [es2 r] eqn:E2. injection E as <- ->.
    destruct (add_path_grants rs p es1 right at_ O E1) as [G1 R1]. destruct (IH es2 right at_ eq_refl) as [G2 R2].
    rewrite grants_app, G1, G2. cbn [existsb]. split; [by rewrite andb_orb_distrib_r|].
    unfold Landlock.restricted in *. by rewrite existsb_app, R1, R2.
Qed.

Lemma landlock_rights (paths : list Path) (es : list Landlock.Ev) : opens_fs -> Landlock.install h paths = (es, None) ->
  (1 <= Landlock.abi h -> forall right at_, Z.testbit Landlock.FS_WRITE right = true ->
     Landlock.allows es opened right at_ = true <-> exists p d, p ∈ paths /\ dir_for p = Some d /\ d `prefix_of` at_)
  /\ (forall at_, Landlock.allows es opened Landlock.TRUNCATE at_ = true /\ Landlock.allows es opened Landlock.EXECUTE at_ = true)
  /\ (Landlock.abi h < 1 -> forall right at_, Landlock.allows es opened right at_ = true).
Proof.
  intros O. unfold Landlock.install. destruct (Z.ltb_spec (Landlock.abi h) 1) as [A|A].
  { intros [= <-]. split; [lia|]. by split. }
  cbv zeta. set (rs := Landlock.create_ruleset h). destruct (rs <? 0); [done|].
  destruct (Landlock.add_paths h rs paths) as [es1 [e|]] eqn:E1; [done|]. destruct (Landlock.restrict_ok h); [|done].
  intros [= <-]. set (es := _ :: _).
  assert (Hd : forall right, Landlock.restricted es && Landlock.handles es right = Z.testbit Landlock.FS_WRITE right).
  { intros right. unfold es, Landlock.restricted, Landlock.handles. cbn [existsb]. rewrite !existsb_app. cbn [existsb].
    rewrite !orb_true_r, !orb_false_r. cbn [orb andb]. destruct (Z.testbit Landlock.FS_WRITE right) eqn:T; [done|]. cbn [orb].
    assert (N : forall rs paths es1, Landlock.add_paths h rs paths = (es1, None) ->
      existsb (fun e => match e with Landlock.EvCreate handled _ => Z.testbit handled right | _ => false end) es1 = false).
    { clear. intros rs paths. induction paths as [|p paths IH]; intros es1 E; cbn [Landlock.add_paths] in E; [by injection E as <-|].
      destruct (Landlock.add_path h rs p) as [e1 [e|]] eqn:E1; [done|]. destruct (Landlock.add_paths h rs paths) as [e2 r] eqn:E2.
      injection E as <- ->. rewrite existsb_app, (IH e2 eq_refl), orb_false_r. revert E1. unfold Landlock.add_path.
      destruct (Landlock.has_nul p); [done|]. cbv zeta. unfold Landlock.add_path_rule.
      destruct (_ <? 0); [destruct (Landlock.has_nul _); [done|]; destruct (_ <? 0); [by intros [= <-]|]|];
        destruct (Landlock.add_ok h _); try done; by intros [= <-]. }
    by apply (N _ _ _ E1). }
  assert (Gr : forall right at_, Landlock.grants es opened right at_ = Z.testbit Landlock.FS_WRITE right
    && existsb (fun p => match dir_for p with Some d => bool_decide (d `prefix_of` at_) | None => false end) paths).
  { intros right at_. unfold es. change (Landlock.EvCreate Landlock.FS_WRITE rs :: ?l) with ([Landlock.EvCreate Landlock.FS_WRITE rs] ++ l).
    rewrite !grants_app, (proj1 (add_paths_grants rs paths O es1 right at_ E1)). cbn. by rewrite orb_false_r. }
  split; [|split; [|lia]].
  - intros _ right at_ T. unfold Landlock.allows. rewrite Hd, Gr, T. cbn [negb orb andb]. rewrite existsb_exists. split.
    + intros (p & I & D). destruct (dir_for p) as [d|] eqn:Ed; [|done]. apply bool_decide_eq_true in D.
      exists p, d. split; [by apply list_elem_of_In|done].
    + intros (p & d & I & Ed & D). exists p. split; [by apply list_elem_of_In|]. rewrite Ed. by apply bool_decide_eq_true.
  - intros at_. unfold Landlock.allows. rewrite !Hd. split; reflexivity.
Qed.

(** After an installation that succeeds on a kernel with Landlock, a right
    to write or create is left exactly below the write paths, or below the
    parent of one that does not exist; reading, executing and truncating are
    not restricted anywhere. Without Landlock nothing is, and the call
    succeeds all the same. *)
Theorem landlock_confines (paths : list Path) (es : list Landlock.Ev) : opens_fs -> Landlock.install h paths = (es, None) ->
  (1 <= Landlock.abi h -> forall right at_, Z.testbit Landlock.FS_WRITE right = true ->
     Landlock.allows es opened right at_ = true <-> exists p d, p ∈ paths /\ dir_for p = Some d /\ d `prefix_of` at_)
  /\ (forall at_, Landlock.allows es opened Landlock.TRUNCATE at_ = true /\ Landlock.allows es opened Landlock.EXECUTE at_ = true)
  /\ (Landlock.abi h < 1 -> forall right at_, Landlock.allows es opened right at_ = true).
Proof. apply landlock_rights. Qed.
End LandlockProofs.

(** Descriptors obtained and closed. *)
Definition obtained (es : list Landlock.Ev) : list Z :=
  omap (fun e => match e with Landlock.EvCreate _ fd => Some fd | Landlock.EvOpen _ fd => Some fd | _ => None end) es.
Definition closed (es : list Landlock.Ev) : list Z := omap (fun e => match e with Landlock.EvClose fd => Some fd | _ => None end) es.

Lemma obtained_app es es' : obtained (es ++ es') = obtained es ++ obtained es'.
Proof. apply omap_app. Qed.
Lemma closed_app es es' : closed (es ++ es') = closed es ++ closed es'.
Proof. apply omap_app. Qed.

Lemma has_nul_parent p : Landlock.has_nul p = false -> Landlock.has_nul (default [CurDir] (path_parent p)) = false.
Proof.
  unfold path_parent. assert (F : forall q : Path, Landlock.has_nul q = false <-> Forall (fun c => match c with Normal s => contains Ascii.zero s = false | _ => True end) q).
  { intros q. unfold Landlock.has_nul. induction q as [|c q IH]; cbn [existsb]; [by split|].
    rewrite orb_false_iff, IH, Forall_cons. destruct c; tauto. }
  rewrite !F. intros N. assert (C : Forall (fun c => match c with Normal s => contains Ascii.zero s = false | _ => True end) (components p)).
  { destruct p as [|c p]; [done|]. cbn [components]. apply Forall_cons in N as [N1 N2]. constructor; [done|].
    induction N2 as [|x l X _ IH]; cbn; [constructor|]. destruct (keep_comp x); [by constructor|done]. }
  assert (R : forall q : Path, Forall (fun c => match c with Normal s => contains Ascii.zero s = false | _ => True end) q ->
    Forall (fun c => match c with Normal s => contains Ascii.zero s = false | _ => True end) (removelast q)).
  { induction 1 as [|x l X Hl IH]; [constructor|]. cbn. destruct l; [constructor|by constructor]. }
  destruct (components p) as [|c0 q]; [by repeat constructor|]. specialize (R _ C).
  destruct c0, q; try exact R; by repeat constructor.
Qed.

Lemma add_path_closes h rs p es r : Landlock.has_nul p = false -> Landlock.add_path h rs p = (es, r) ->
  Permutation (closed es) (obtained es ++ if given r then [rs] else []).
Proof.
  intros N. unfold Landlock.add_path. rewrite N, has_nul_parent by done. cbv zeta. unfold Landlock.add_path_rule.
  destruct (_ <? 0); [destruct (_ <? 0); [by intros [= <- <-]|]|]; destruct (Landlock.add_ok h _); intros [= <- <-]; done.
Qed.

(** Unless a path holds a NUL, installing leaves no descriptor open: what
    was created and opened is what was closed, whichever call fails. *)
Theorem landlock_closes (h : Landlock.Host) (paths : list Path) (es : list Landlock.Ev) (r : option Landlock.Err) :
  Forall (fun p => Landlock.has_nul p = false) paths -> Landlock.install h paths = (es, r) ->
  Permutation (closed es) (obtained es).
Proof.
  intros N. unfold Landlock.install. destruct (Landlock.abi h <? 1); [by intros [= <- <-]|]. cbv zeta.
  set (rs := Landlock.create_ruleset h). destruct (rs <? 0); [by intros [= <- <-]|].
  assert (G : forall es1 r1, Landlock.add_paths h rs paths = (es1, r1) -> Permutation (closed es1) (obtained es1 ++ if given r1 then [rs] else [])).
  { induction N as [|p paths Np _ IH]; intros es1 r1 E; cbn [Landlock.add_paths] in E; [by injection E as <- <-|].
    destruct (Landlock.add_path h rs p) as [e1 [e|]] eqn:E1; [injection E as <- <-; by apply (add_path_closes h rs p _ _ Np E1)|].
    destruct (Landlock.add_paths h rs paths) as [e2 r2] eqn:E2. injection E as <- <-.
    pose proof (add_path_closes h rs p _ _ Np E1) as P1. cbn [given] in P1. rewrite app_nil_r in P1. specialize (IH e2 r2 eq_refl).
    rewrite closed_app, obtained_app, P1, IH. by rewrite app_assoc. }
  destruct (Landlock.add_paths h rs paths) as [es1 [e|]] eqn:E1; intros [= <- <-]; specialize (G _ _ eq_refl); cbn [given] in G.
  - change (closed (Landlock.EvCreate Landlock.FS_WRITE rs :: es1)) with (closed es1).
    change (obtained (Landlock.EvCreate Landlock.FS_WRITE rs :: es1)) with (rs :: obtained es1). rewrite G. symmetry. apply Permutation_cons_append.
  - rewrite app_nil_r in G. change (closed (Landlock.EvCreate Landlock.FS_WRITE rs :: ?l)) with (closed l).
    change (obtained (Landlock.EvCreate Landlock.FS_WRITE rs :: ?l)) with (rs :: obtained l).
    rewrite closed_app, obtained_app, G. cbn. rewrite app_nil_r. symmetry. apply Permutation_cons_append.
Qed.

(** ** The profile *)

Section SeatbeltProofs.
Import Seatbelt.
Variable fs : Fs.

Definition write_rule (c : string) : Sx := Lst [Sym "allow"; Sym "file-write*"; Lst [Sym "subpath"; Str c]].
Definition header_rules : list Sx :=
  [Lst [Sym "version"; Sym "1"]; Lst [Sym "allow"; Sym "default"]; Lst [Sym "deny"; Sym "process-exec*"];
   Lst [Sym "deny"; Sym "process-fork"]; Lst [Sym "deny"; Sym "file-write*"]].
Definition net_rules (net : bool) : list Sx := if net then [] else [Lst [Sym "deny"; Sym "network*"]].
(** The directories the profile names. *)
Definition dirs (p : Policy) : list string := omap (canon fs) (write_paths p).

Definition plain (s : string) : Prop := contains DQ s = false /\ contains BSLASH s = false.

Lemma rd_string (c : string) : plain c -> forall a rest cur stk,
  rd (c +:+ String DQ rest) (MStr a) cur stk = rd rest MNone (cur ++ [Str (a +:+ c)]) stk.
Proof.
  induction c as [|x c IH]; intros [Nd Nb] a rest cur stk.
  - change (EmptyString +:+ String DQ rest) with (String DQ rest). rewrite app_nil_string. reflexivity.
  - rewrite contains_cons, orb_false_iff in Nd, Nb. destruct Nd as [Ed Nd], Nb as [Eb Nb].
    rewrite app_string. cbn [rd]. rewrite Ed, Eb. rewrite IH by done. by rewrite snoc_app.
Qed.

Lemma rd_write_line (c rest : string) cur : plain c ->
  rd (write_line c +:+ rest) MNone cur [] = rd rest MNone (cur ++ [write_rule c]) [].
Proof.
  intros N. unfold write_line. rewrite !app_assoc_string.
  change (rd (c +:+ String DQ (String (ch ")") (String (ch ")") (String NL rest)))) (MStr EmptyString) [Sym "subpath"] [[Sym "allow"; Sym "file-write*"]; cur]
    = rd rest MNone (cur ++ [write_rule c]) []).
  rewrite rd_string by done. reflexivity.
Qed.

Lemma foldl_lines (paths : list Path) : forall s,
  foldl (fun s path => match canon fs path with Some c => s +:+ write_line c | None => s end) s paths
  = s +:+ fold_right (fun c r => write_line c +:+ r) EmptyString (omap (canon fs) paths).
Proof.
  induction paths as [|p paths IH]; intros s; cbn [foldl]; [by rewrite app_nil_string|]. rewrite IH. cbn [omap list_omap].
  destruct (canon fs p); [|done]. cbn [fold_right]. by rewrite app_assoc_string.
Qed.

Lemma profile_rules (p : Policy) : Forall plain (dirs p) ->
  read (profile fs p) = Some (header_rules ++ map write_rule (dirs p) ++ net_rules (pol_net p)).
Proof.
  unfold dirs. intros N. unfold profile. rewrite foldl_lines. unfold read. rewrite app_assoc_string.
  generalize dependent (omap (canon fs) (write_paths p)). intros cs N.
  assert (G : forall cur, rd (fold_right (fun c r => write_line c +:+ r) EmptyString cs +:+ (if pol_net p then EmptyString else net_line)) MNone cur []
    = Some (cur ++ map write_rule cs ++ net_rules (pol_net p))).
  { induction N as [|c cs Nc _ IH]; intros cur.
    - cbn [fold_right map app]. change (EmptyString +:+ ?x) with x. destruct (pol_net p); [cbn; by rewrite app_nil_r|]. reflexivity.
    - cbn [fold_right map]. rewrite app_assoc_string, rd_write_line by done. rewrite IH. by rewrite <- app_assoc. }
  exact (G header_rules).
Qed.

(** Under the profile of a policy, whose directories hold no quote and no
    backslash, a process can neither execute nor fork, opens sockets only if
    the policy has a network, and writes exactly below its directories;
    everything else stays allowed. *)
Theorem seatbelt_confines (p : Policy) : Forall plain (dirs p) ->
  exists rules, read (profile fs p) = Some rules
  /\ allowed rules ProcessExec = false /\ allowed rules ProcessFork = false /\ allowed rules OtherOp = true
  /\ allowed rules Network = pol_net p
  /\ forall path, allowed rules (FileWrite path) = true <-> exists d, d ∈ dirs p /\ under d path = true.
Proof.
  intros N. eexists. split; [by apply profile_rules|]. unfold allowed. rewrite !foldl_app.
  assert (Skip : forall op b, (forall path, op <> FileWrite path) -> foldl (fun r x => default r (rule x op)) b (map write_rule (dirs p)) = b).
  { intros op b No. generalize (dirs p). intros l. revert b. induction l as [|c l IH]; intros b; [done|]. cbn [map foldl].
    destruct op; try (by rewrite IH). by destruct (No path). }
  rewrite !Skip by done. repeat (split; [destruct (pol_net p); reflexivity|]). intros path. rewrite !foldl_app.
  assert (Dn : forall b, foldl (fun r x => default r (rule x (FileWrite path))) b (net_rules (pol_net p)) = b) by (intros; by destruct (pol_net p)).
  rewrite Dn. clear Dn Skip. change (foldl _ false header_rules) with false. clear N.
  assert (G : forall l b, foldl (fun r x => default r (rule x (FileWrite path))) b (map write_rule l) = true <-> b = true \/ exists d, d ∈ l /\ under d path = true).
  { induction l as [|c l IH]; intros b; cbn [map foldl].
    - split; [auto|]. intros [?|(d & I & _)]; [done|by apply elem_of_nil in I].
    - rewrite IH. assert (default b (rule (write_rule c) (FileWrite path)) = b || under c path) as ->.
      { unfold rule, write_rule. cbn. destruct (under c path); cbn; by destruct b. }
      rewrite orb_true_iff. split.
      + intros [[?|U]|(d & I & U)]; [auto|right; exists c; split; [left|done]|right; exists d; split; [by right|done]].
      + intros [?|(d & I & U)]; [auto|]. apply elem_of_cons in I as [->|I]; [auto|]. right. by exists d. }
  rewrite G. split; [intros [?|?]; done|auto].
Qed.

(** A directory whose name holds quotes adds rules of its own. *)
Definition sly : string := "x" +:+ chr DQ +:+ ")) (allow process-exec*) (allow file-write* (subpath " +:+ chr DQ +:+ "y".
End SeatbeltProofs.

(** A snapshot directory with a quote in its name can lift the denial of exec. *)
Theorem profile_injected :
  let fs := {[ [sly] := NDir 0x1ed ]} in
  exists rules, Seatbelt.read (Seatbelt.profile fs (mkPolicy [[RootDir; Normal sly]] false)) = Some rules
  /\ Seatbelt.allowed rules Seatbelt.ProcessExec = true.
Proof. cbv zeta. eexists. split; vm_compute; reflexivity. Qed.

(** ** A VM *)

Section Run.
Context {F : Type} `{DiskFileLaws F} {L : Type} `{RateLimiter L}.
Context {E : Type} `{EntropyLaws E}.
Context {B : Type} `{NetBackendLaws B}.
Context {VB VS : Type} `{HostStreamLaws VS} `{!VsockBackend VB VS} `{!VsockBackendLaws VB VS}.
Context `{HostMadvise}.
Abbreviation Vm := (Vm (F := F) (L := L) (E := E) (B := B) (VB := VB) (VS := VS)).
Abbreviation MHost := (Host (F := F) (L := L) (E := E) (VB := VB)).

End Run.

(** ** Instances *)

Definition toy_lock_fs : Fs := {[ ["snap"] := NDir 0x1ed ]}.
Definition toy_open (p : Path) : Z := match canonicalize toy_lock_fs p with inl r => Zpos (encode r) | inr _ => -1 end.
Definition toy_opened (fd : Z) : option Real := match fd with Zpos x => decode x | _ => None end.
Definition toy_lock : Landlock.Host := Landlock.mkHost 3 7 toy_open (fun _ => true) true.

Lemma toy_opens : opens_fs toy_lock toy_lock_fs toy_opened.
Proof.
  intros p. cbn [Landlock.open_path toy_lock]. unfold toy_open. destruct (canonicalize toy_lock_fs p) as [r|]; [|lia].
  split; [lia|]. apply decode_encode.
Qed.

Definition toy_events : list Landlock.Ev := Eval vm_compute in fst (Landlock.install toy_lock [[Normal "snap"]]).

Lemma landlock_confines_witness :
  Landlock.allows toy_events toy_opened Landlock.WRITE_FILE ["snap"; "mem.bin"] = true
  /\ Landlock.allows toy_events toy_opened Landlock.TRUNCATE ["etc"; "passwd"] = true.
Proof.
  destruct (landlock_confines toy_lock toy_lock_fs toy_opened [[Normal "snap"]] toy_events toy_opens eq_refl) as (C & T & _).
  split; [|apply T]. apply C; [cbn; lia|reflexivity|]. exists [Normal "snap"], ["snap"].
  split; [left|]. split; [reflexivity|]. by exists ["mem.bin"].
Defined.

Lemma landlock_closes_witness : Permutation (closed toy_events) (obtained toy_events).
Proof. apply (landlock_closes toy_lock [[Normal "snap"]] toy_events None); [by repeat constructor|reflexivity]. Defined.

Lemma bpf_returns_witness : is_Some (Seccomp.verdict (Seccomp.prog false) (Seccomp.mkData 63 Seccomp.ARCH_AARCH64)).
Proof. exact (proj2 bpf_returns (Seccomp.prog false) (Seccomp.mkData 63 Seccomp.ARCH_AARCH64) eq_refl). Defined.

Lemma seatbelt_confines_witness : exists rules,
  Seatbelt.read (Seatbelt.profile toy_lock_fs (mkPolicy [[Normal "snap"]] false)) = Some rules
  /\ Seatbelt.allowed rules Seatbelt.Network = false /\ Seatbelt.allowed rules (Seatbelt.FileWrite "/snap/mem.bin") = true.
Proof.
  destruct (seatbelt_confines toy_lock_fs (mkPolicy [[Normal "snap"]] false)) as (rules & R & _ & _ & _ & N & Wr).
  - repeat constructor.
  - exists rules. split; [exact R|]. split; [exact N|]. apply Wr. exists "/snap". split; [left|reflexivity].
Defined.

