(* ===== verification/UserNet.v ===== *)
(** * UserNet: the user-mode network (crates/amber-net/src/lib.rs)

    The backend behind virtio-net: a netstack that answers for the gateway,
    terminates the guest's TCP connections by rewriting their destination, and
    bridges each to a stream of the host; DNS queries are forwarded. The
    netstack and its packet accessors are the smoltcp crate's: interfaces with
    their documented behaviour as laws ([Wire], [Stack]). What the host's
    sockets answer is an argument of each call ([Env]); the threads that dial
    the host are the record of the addresses they were given.

    [usernet_policy]: whom the guest can reach and how much it can hold;
    [nat_roundtrip]: the translation of addresses and its undoing;
    [bridge_streams]: which bytes a proxied connection passes on. *)

From S2P Require Import Prelude.

(** ** Addresses *)

(** An IPv4 address as its 32 bits, and [Ipv4Addr]'s classification. *)
Definition octet (n ip : Z) : Z := Z.land (Z.shiftr ip (8 * (3 - n))) 0xff.
Definition Ipv4Address_new (a b c d : Z) : Z := ((a * 256 + b) * 256 + c) * 256 + d.

Definition is_loopback (ip : Z) : bool := octet 0 ip =? 127.
Definition is_link_local (ip : Z) : bool := (octet 0 ip =? 169) && (octet 1 ip =? 254).
Definition is_broadcast (ip : Z) : bool := ip =? 0xffffffff.
Definition is_unspecified (ip : Z) : bool := ip =? 0.
Definition is_documentation (ip : Z) : bool :=
  ((octet 0 ip =? 192) && (octet 1 ip =? 0) && (octet 2 ip =? 2))
  || ((octet 0 ip =? 198) && (octet 1 ip =? 51) && (octet 2 ip =? 100))
  || ((octet 0 ip =? 203) && (octet 1 ip =? 0) && (octet 2 ip =? 113)).
Definition is_private (ip : Z) : bool :=
  (octet 0 ip =? 10)
  || ((octet 0 ip =? 172) && ((16 <=? octet 1 ip) && (octet 1 ip <=? 31)))
  || ((octet 0 ip =? 192) && (octet 1 ip =? 168)).

Definition GATEWAY : Z := Ipv4Address_new 10 0 0 1.
Definition GUEST : Z := Ipv4Address_new 10 0 0 2.
Definition MAC : list Z := [0x52; 0x54; 0x00; 0x12; 0x34; 0x56].
Definition MAX_FLOWS : nat := 256.
Definition MAX_PENDING_DNS : nat := 256.

(** [allow_private]: AMBER_NET_ALLOW_PRIVATE is 1. *)
Definition egress_blocked (allow_private : bool) (ip : Z) : bool :=
  if is_loopback ip || is_link_local ip || is_broadcast ip || is_unspecified ip || is_documentation ip then true
  else if is_private ip then negb allow_private
  else false.

(** ** Packet accessors *)

Class Wire := {
  eth_checked : list Z -> bool;
  eth_is_ipv4 : list Z -> bool;
  ip_checked : list Z -> bool;
  ip_header_len : list Z -> nat;
  ip_payload_len : list Z -> nat;
  ip_is_tcp : list Z -> bool;
  ip_src : list Z -> Z;
  ip_dst : list Z -> Z;
  ip_set_src : Z -> list Z -> list Z;
  ip_set_dst : Z -> list Z -> list Z;
  ip_fill_checksum : list Z -> list Z;
  tcp_checked : list Z -> bool;
  tcp_src_port : list Z -> Z;
  tcp_dst_port : list Z -> Z;
  tcp_syn : list Z -> bool;
  tcp_ack : list Z -> bool;
  tcp_set_src_port : Z -> list Z -> list Z;
  tcp_set_dst_port : Z -> list Z -> list Z;
  tcp_fill_checksum : Z -> Z -> list Z -> list Z
}.

Section Nat.
Context `{Wire}.

Definition eth_payload (f : list Z) : list Z := drop 14 f.
Definition ip_payload (p : list Z) : list Z := take (ip_payload_len p) (drop (ip_header_len p) p).

Record Tuple := mkTuple { tu_src : Z; tu_dst : Z; tu_sport : Z; tu_dport : Z; tu_syn : bool; tu_ack : bool }.

Definition tcp_tuple (frame : list Z) : option Tuple :=
  if negb (eth_checked frame) then None
  else if negb (eth_is_ipv4 frame) then None
  else
    let ip := eth_payload frame in
    if negb (ip_checked ip) then None
    else if negb (ip_is_tcp ip) then None
    else
      let tcp := ip_payload ip in
      if negb (tcp_checked tcp) then None
      else Some (mkTuple (ip_src ip) (ip_dst ip) (tcp_src_port tcp) (tcp_dst_port tcp) (tcp_syn tcp) (tcp_ack tcp)).

Definition set_opt (set : Z -> list Z -> list Z) (o : option Z) (bs : list Z) : list Z :=
  match o with Some x => set x bs | None => bs end.

Definition rewrite_frame (frame : list Z) (new_src new_dst new_sport new_dport : option Z) : list Z :=
  if (length frame <? 14)%nat then frame
  else
    let l3 := drop 14 frame in
    if negb (ip_checked l3) then frame
    else
      let ihl := ip_header_len l3 in
      let ip := set_opt ip_set_dst new_dst (set_opt ip_set_src new_src (take ihl l3)) in
      let src_ip := ip_src ip in
      let dst_ip := ip_dst ip in
      let tcp := set_opt tcp_set_dst_port new_dport (set_opt tcp_set_src_port new_sport (drop ihl l3)) in
      take 14 frame ++ ip_fill_checksum ip ++ tcp_fill_checksum src_ip dst_ip tcp.
End Nat.

(** ** The netstack *)

(** [sk_poll]: what polling the interface makes of the received frames: the
    sockets, the frames not taken, the frames sent. A handle names a socket. *)
Class Stack (S : Type) := {
  sk_poll : Z -> S -> list (list Z) -> S * list (list Z) * list (list Z);
  sk_listen : S -> Z -> option (S * nat);
  sk_connect : S -> Z -> Z -> option (S * nat);
  sk_closed : S -> nat -> bool;
  sk_remove : S -> nat -> S;
  sk_can_recv : S -> nat -> bool;
  sk_recv_data : S -> nat -> list Z;
  sk_consume : S -> nat -> nat -> S;
  sk_can_send : S -> nat -> bool;
  sk_send_slice : S -> nat -> list Z -> S;
  sk_close : S -> nat -> S;
  sk_abort : S -> nat -> S;
  sk_dns_recv : S -> option (S * (list Z * Z));
  sk_dns_send : S -> list Z -> Z -> S
}.

(** What the host answers: a dial in progress, a read (of no bytes at the end
    of the stream), a DNS socket. *)
Inductive ConnRes := Connecting | Connected | ConnFailed.
Inductive ReadRes := ReadOk (data : list Z) | WouldBlock | ReadFailed.
Inductive DnsRes := DnsReply (data : list Z) | DnsWait | DnsFailed.

(** One call's answers, by socket handle; DNS ones in order. [e_write]: how
    many bytes a write to the host's stream takes, when it does not fail. *)
Record Env := mkEnv {
  e_now : Z;
  e_conn : nat -> ConnRes;
  e_write : nat -> option nat;
  e_read : nat -> ReadRes;
  e_dns_send : nat -> bool;
  e_dns_recv : nat -> DnsRes
}.

(** A stream of the host: the bytes written to it and read from it so far. *)
Record HostStream := mkHost { h_written : list Z; h_read : list Z }.

Record Flow := mkFlow {
  guest_port : Z;
  ext_ip : Z;
  ext_port : Z;
  eph : Z;
  f_handle : nat;
  f_host : option HostStream;
  connecting : bool;
  host_done : bool
}.

Section Backend.
Context {S : Type} `{Stack S} `{Wire}.
Variable allow_private : bool.

(** [dialed]: the addresses handed to connect threads. *)
Record SmoltcpBackend := mkBackend {
  sockets : S;
  rx : list (list Z);
  tx : list (list Z);
  flows : list Flow;
  pending_dns : list Z;
  accepted : list Z;
  inbound : list (nat * HostStream);
  has_listeners : bool;
  next_eph : Z;
  dialed : list (Z * Z)
}.

Definition SmoltcpBackend_new (s : S) (listeners : bool) : SmoltcpBackend :=
  mkBackend s [] [] [] [] [] [] listeners 40000 [].

Definition set_sockets (b : SmoltcpBackend) (s : S) : SmoltcpBackend :=
  mkBackend s (rx b) (tx b) (flows b) (pending_dns b) (accepted b) (inbound b) (has_listeners b) (next_eph b) (dialed b).
Definition set_flows (b : SmoltcpBackend) (s : S) (l : list Flow) : SmoltcpBackend :=
  mkBackend s (rx b) (tx b) l (pending_dns b) (accepted b) (inbound b) (has_listeners b) (next_eph b) (dialed b).
Definition set_dns (b : SmoltcpBackend) (s : S) (l : list Z) : SmoltcpBackend :=
  mkBackend s (rx b) (tx b) (flows b) l (accepted b) (inbound b) (has_listeners b) (next_eph b) (dialed b).
Definition set_inbound (b : SmoltcpBackend) (s : S) (l : list (nat * HostStream)) : SmoltcpBackend :=
  mkBackend s (rx b) (tx b) (flows b) (pending_dns b) (accepted b) l (has_listeners b) (next_eph b) (dialed b).

(** [next_eph.wrapping_add(1).max(40000)] *)
Definition bump_eph (e : Z) : Z := Z.max (wadd16 e 1) 40000.

(** [bridge]: the sockets, the stream and [host_done] afterwards. *)
Definition bridge (e : Env) (s : S) (h : nat) (c : HostStream) (done : bool) : S * HostStream * bool :=
  let '(s1, c1) :=
    if sk_can_recv s h then
      let data := sk_recv_data s h in
      let n := Nat.min (default O (e_write e h)) (length data) in
      (sk_consume s h n, mkHost (h_written c ++ take n data) (h_read c))
    else (s, c) in
  if sk_can_send s1 h && negb done then
    match e_read e h with
    | ReadOk data =>
        let buf := take (Z.to_nat (32 * 1024)) data in
        match buf with
        | [] => (sk_close s1 h, c1, true)
        | _ => (sk_send_slice s1 h buf, mkHost (h_written c1) (h_read c1 ++ buf), done)
        end
    | WouldBlock => (s1, c1, done)
    | ReadFailed => (sk_close s1 h, c1, true)
    end
  else (s1, c1, done).

(** Each accepted connection dials the guest. *)
Fixpoint accept_loop (b : SmoltcpBackend) (ports : list Z) : SmoltcpBackend :=
  match ports with
  | [] => b
  | gport :: ports' =>
      let e := bump_eph (next_eph b) in
      let '(s, inb) :=
        match sk_connect (sockets b) gport e with
        | Some (s, h) => (s, inbound b ++ [(h, mkHost [] [])])
        | None => (sockets b, inbound b)
        end in
      accept_loop (mkBackend s (rx b) (tx b) (flows b) (pending_dns b) (accepted b) inb (has_listeners b) e (dialed b)) ports'
  end.
Definition accept_inbound (b : SmoltcpBackend) : SmoltcpBackend :=
  accept_loop (mkBackend (sockets b) (rx b) (tx b) (flows b) (pending_dns b) [] (inbound b) (has_listeners b) (next_eph b) (dialed b))
    (accepted b).

(** The sockets that are closed are removed with what they carried. *)
Fixpoint retain {A} (handle : A -> nat) (s : S) (l : list A) : S * list A :=
  match l with
  | [] => (s, [])
  | x :: l' =>
      if sk_closed s (handle x) then retain handle (sk_remove s (handle x)) l'
      else let '(s1, r) := retain handle s l' in (s1, x :: r)
  end.

Fixpoint pump_inbound_loop (e : Env) (s : S) (l : list (nat * HostStream)) : S * list (nat * HostStream) :=
  match l with
  | [] => (s, [])
  | (h, c) :: l' =>
      let '(s1, c1, _) := bridge e s h c false in
      let '(s2, r) := pump_inbound_loop e s1 l' in (s2, (h, c1) :: r)
  end.
Definition pump_inbound (e : Env) (b : SmoltcpBackend) : SmoltcpBackend :=
  let '(s1, l1) := pump_inbound_loop e (sockets b) (inbound b) in
  let '(s2, l2) := retain fst s1 l1 in set_inbound b s2 l2.

(** Queries out, then replies back. [n]: at least the queries waiting. *)
Fixpoint dns_out (e : Env) (n : nat) (s : S) (pending : list Z) (k : nat) : S * list Z :=
  match n with
  | O => (s, pending)
  | Datatypes.S n' =>
      match sk_dns_recv s with
      | None => (s, pending)
      | Some (s1, (_, guest)) =>
          if (MAX_PENDING_DNS <=? length pending)%nat then dns_out e n' s1 pending (Datatypes.S k)
          else dns_out e n' s1 (if e_dns_send e k then pending ++ [guest] else pending) (Datatypes.S k)
      end
  end.
Fixpoint dns_back (e : Env) (s : S) (pending : list Z) (k : nat) : S * list Z :=
  match pending with
  | [] => (s, [])
  | guest :: p' =>
      match e_dns_recv e k with
      | DnsReply data => dns_back e (sk_dns_send s (take 2048 data) guest) p' (Datatypes.S k)
      | DnsWait => let '(s1, r) := dns_back e s p' (Datatypes.S k) in (s1, guest :: r)
      | DnsFailed => dns_back e s p' (Datatypes.S k)
      end
  end.
(** The gateway's DNS socket holds 16 packets. *)
Definition DNS_SLOTS : nat := 16.
Definition pump_dns (e : Env) (b : SmoltcpBackend) : SmoltcpBackend :=
  let '(s1, p1) := dns_out e (Datatypes.S DNS_SLOTS) (sockets b) (pending_dns b) O in
  let '(s2, p2) := dns_back e s1 p1 O in set_dns b s2 p2.

Definition poll_iface (e : Env) (b : SmoltcpBackend) : SmoltcpBackend :=
  let '(s, rest, sent) := sk_poll (e_now e) (sockets b) (rx b) in
  mkBackend s rest (tx b ++ sent) (flows b) (pending_dns b) (accepted b) (inbound b) (has_listeners b) (next_eph b) (dialed b).

Definition flow_of (t : Tuple) (f : Flow) : bool :=
  (guest_port f =? tu_sport t) && (ext_ip f =? tu_dst t) && (ext_port f =? tu_dport t).

Definition maybe_open_flow (b : SmoltcpBackend) (frame : list Z) : SmoltcpBackend :=
  match tcp_tuple frame with
  | None => b
  | Some t =>
      if negb (tu_syn t) || tu_ack t || negb (tu_src t =? GUEST) then b
      else if existsb (flow_of t) (flows b) then b
      else if (MAX_FLOWS <=? length (flows b))%nat then b
      else if egress_blocked allow_private (tu_dst t) then b
      else
        let e := bump_eph (next_eph b) in
        let d := dialed b ++ [(tu_dst t, tu_dport t)] in
        match sk_listen (sockets b) e with
        | None => mkBackend (sockets b) (rx b) (tx b) (flows b) (pending_dns b) (accepted b) (inbound b) (has_listeners b) e d
        | Some (s, h) =>
            mkBackend s (rx b) (tx b)
              (flows b ++ [mkFlow (tu_sport t) (tu_dst t) (tu_dport t) e h None true false])
              (pending_dns b) (accepted b) (inbound b) (has_listeners b) e d
        end
  end.

(** One flow: a dial that came back, then the bridge. *)
Definition pump_flow (e : Env) (s : S) (f : Flow) : S * Flow :=
  let '(s1, f1) :=
    match f_host f with
    | Some _ => (s, f)
    | None =>
        if connecting f then
          match e_conn e (f_handle f) with
          | Connected => (s, mkFlow (guest_port f) (ext_ip f) (ext_port f) (eph f) (f_handle f) (Some (mkHost [] [])) false (host_done f))
          | ConnFailed => (sk_abort s (f_handle f), mkFlow (guest_port f) (ext_ip f) (ext_port f) (eph f) (f_handle f) None false true)
          | Connecting => (s, f)
          end
        else (s, f)
    end in
  match f_host f1 with
  | None => (s1, f1)
  | Some c =>
      let '(s2, c2, d2) := bridge e s1 (f_handle f1) c (host_done f1) in
      (s2, mkFlow (guest_port f1) (ext_ip f1) (ext_port f1) (eph f1) (f_handle f1) (Some c2) (connecting f1) d2)
  end.

Fixpoint pump_flows_loop (e : Env) (s : S) (l : list Flow) : S * list Flow :=
  match l with
  | [] => (s, [])
  | f :: l' =>
      let '(s1, f1) := pump_flow e s f in
      let '(s2, r) := pump_flows_loop e s1 l' in (s2, f1 :: r)
  end.
Definition pump_flows (e : Env) (b : SmoltcpBackend) : SmoltcpBackend :=
  let '(s1, l1) := pump_flows_loop e (sockets b) (flows b) in
  let '(s2, l2) := retain f_handle s1 l1 in set_flows b s2 l2.

Definition dnat_in (b : SmoltcpBackend) (frame : list Z) : list Z :=
  match tcp_tuple frame with
  | None => frame
  | Some t =>
      if negb (tu_src t =? GUEST) then frame
      else match List.find (flow_of t) (flows b) with
           | Some f => rewrite_frame frame None (Some GATEWAY) None (Some (eph f))
           | None => frame
           end
  end.

Definition dnat_out (b : SmoltcpBackend) (frame : list Z) : list Z :=
  match tcp_tuple frame with
  | None => frame
  | Some t =>
      if negb (tu_src t =? GATEWAY) || negb (tu_dst t =? GUEST) then frame
      else match List.find (fun f => (eph f =? tu_sport t) && (guest_port f =? tu_dport t)) (flows b) with
           | Some f => rewrite_frame frame (Some (ext_ip f)) None (Some (ext_port f)) None
           | None => frame
           end
  end.

Definition push_rx (b : SmoltcpBackend) (f : list Z) : SmoltcpBackend :=
  mkBackend (sockets b) (rx b ++ [f]) (tx b) (flows b) (pending_dns b) (accepted b) (inbound b) (has_listeners b) (next_eph b) (dialed b).

(** [NetBackend::send] and [poll]. *)
Definition us_send (e : Env) (b : SmoltcpBackend) (frame : list Z) : SmoltcpBackend :=
  let b1 := maybe_open_flow b frame in
  let b2 := push_rx b1 (dnat_in b1 frame) in
  poll_iface e (pump_dns e (pump_flows e (poll_iface e b2))).

Definition us_poll (e : Env) (b : SmoltcpBackend) : SmoltcpBackend * option (list Z) :=
  let b1 := poll_iface e (pump_dns e (pump_inbound e (pump_flows e (accept_inbound (poll_iface e b))))) in
  match tx b1 with
  | [] => (b1, None)
  | f :: l =>
      (mkBackend (sockets b1) (rx b1) l (flows b1) (pending_dns b1) (accepted b1) (inbound b1) (has_listeners b1) (next_eph b1) (dialed b1),
       Some (dnat_out b1 f))
  end.

Definition us_wants_poll (b : SmoltcpBackend) : bool :=
  has_listeners b || negb (bool_decide (flows b = [])) || negb (bool_decide (inbound b = [])) || negb (bool_decide (pending_dns b = [])).

(** A listener thread hands over a connection for [gport]. *)
Definition listener_accepts (b : SmoltcpBackend) (gport : Z) : SmoltcpBackend :=
  mkBackend (sockets b) (rx b) (tx b) (flows b) (pending_dns b) (accepted b ++ [gport]) (inbound b) (has_listeners b) (next_eph b) (dialed b).

(** The states after any calls of the device's, with any answers of the host,
    and any connections to the listeners; [n]: the ports allocated so far. *)
Inductive us_run : nat -> SmoltcpBackend -> Prop :=
| us_new s listeners : us_run O (SmoltcpBackend_new s listeners)
| us_sends n e b frame : us_run n b ->
    us_run (n + (length (dialed (us_send e b frame)) - length (dialed b))) (us_send e b frame)
| us_polls n e b : us_run n b -> us_run (n + length (accepted b)) (fst (us_poll e b))
| us_accepts n b gport : us_run n b -> us_run n (listener_accepts b gport).
End Backend.

(** ** The documented behaviour of the packet accessors *)

(** The Ethernet header is 14 bytes. The fields of an IPv4 header are in its
    first 20 bytes; setting one changes no other and not the length, and the
    check reads the header and the length. The same for a TCP header, of which
    only the part within the IPv4 payload is checked and read back. *)
Class WireLaws `{Wire} := {
  w_eth_checked f : eth_checked f = (14 <=? length f)%nat;
  w_eth_type h x y : length h = 14%nat -> eth_is_ipv4 (h ++ x) = eth_is_ipv4 (h ++ y);
  w_ip_len p : ip_checked p = true -> (20 <= ip_header_len p <= length p)%nat;
  w_ip_fields h r : (20 <= length h)%nat ->
    ip_header_len (h ++ r) = ip_header_len h /\ ip_payload_len (h ++ r) = ip_payload_len h /\
    ip_is_tcp (h ++ r) = ip_is_tcp h /\ ip_src (h ++ r) = ip_src h /\ ip_dst (h ++ r) = ip_dst h;
  w_ip_checked h h' r r' : (20 <= length h)%nat -> length h = length h' -> length r = length r' ->
    ip_header_len h = ip_header_len h' -> ip_payload_len h = ip_payload_len h' ->
    ip_checked (h ++ r) = ip_checked (h' ++ r');
  w_ip_set_src a h : (20 <= length h)%nat -> fits 32 a ->
    length (ip_set_src a h) = length h /\ ip_src (ip_set_src a h) = a /\ ip_dst (ip_set_src a h) = ip_dst h /\
    ip_header_len (ip_set_src a h) = ip_header_len h /\ ip_payload_len (ip_set_src a h) = ip_payload_len h /\
    ip_is_tcp (ip_set_src a h) = ip_is_tcp h;
  w_ip_set_dst a h : (20 <= length h)%nat -> fits 32 a ->
    length (ip_set_dst a h) = length h /\ ip_src (ip_set_dst a h) = ip_src h /\ ip_dst (ip_set_dst a h) = a /\
    ip_header_len (ip_set_dst a h) = ip_header_len h /\ ip_payload_len (ip_set_dst a h) = ip_payload_len h /\
    ip_is_tcp (ip_set_dst a h) = ip_is_tcp h;
  w_ip_fill h : (20 <= length h)%nat ->
    length (ip_fill_checksum h) = length h /\ ip_src (ip_fill_checksum h) = ip_src h /\ ip_dst (ip_fill_checksum h) = ip_dst h /\
    ip_header_len (ip_fill_checksum h) = ip_header_len h /\ ip_payload_len (ip_fill_checksum h) = ip_payload_len h /\
    ip_is_tcp (ip_fill_checksum h) = ip_is_tcp h;
  w_ranges p t : fits 32 (ip_src p) /\ fits 32 (ip_dst p) /\ fits 16 (tcp_src_port t) /\ fits 16 (tcp_dst_port t);
  w_tcp_set_src p n t : tcp_checked (take n t) = true -> fits 16 p ->
    length (tcp_set_src_port p t) = length t /\ tcp_checked (take n (tcp_set_src_port p t)) = true /\
    tcp_src_port (take n (tcp_set_src_port p t)) = p /\
    tcp_dst_port (take n (tcp_set_src_port p t)) = tcp_dst_port (take n t) /\
    tcp_syn (take n (tcp_set_src_port p t)) = tcp_syn (take n t) /\ tcp_ack (take n (tcp_set_src_port p t)) = tcp_ack (take n t);
  w_tcp_set_dst p n t : tcp_checked (take n t) = true -> fits 16 p ->
    length (tcp_set_dst_port p t) = length t /\ tcp_checked (take n (tcp_set_dst_port p t)) = true /\
    tcp_src_port (take n (tcp_set_dst_port p t)) = tcp_src_port (take n t) /\
    tcp_dst_port (take n (tcp_set_dst_port p t)) = p /\
    tcp_syn (take n (tcp_set_dst_port p t)) = tcp_syn (take n t) /\ tcp_ack (take n (tcp_set_dst_port p t)) = tcp_ack (take n t);
  w_tcp_fill a b n t : tcp_checked (take n t) = true ->
    length (tcp_fill_checksum a b t) = length t /\ tcp_checked (take n (tcp_fill_checksum a b t)) = true /\
    tcp_src_port (take n (tcp_fill_checksum a b t)) = tcp_src_port (take n t) /\
    tcp_dst_port (take n (tcp_fill_checksum a b t)) = tcp_dst_port (take n t) /\
    tcp_syn (take n (tcp_fill_checksum a b t)) = tcp_syn (take n t) /\ tcp_ack (take n (tcp_fill_checksum a b t)) = tcp_ack (take n t)
}.

(** A socket's two streams: what the guest's side gave and what is queued for
    it. [sk_room]: the free space of its transmit buffer. *)
Class StackLaws (S : Type) `{Stack S} := {
  sk_taken : S -> nat -> list Z;
  sk_sent : S -> nat -> list Z;
  sk_room : S -> nat -> nat;
  sk_dns_queued : S -> nat;
  sk_consume_ok s h n : (n <= length (sk_recv_data s h))%nat ->
    sk_taken (sk_consume s h n) h = sk_taken s h ++ take n (sk_recv_data s h) /\
    sk_sent (sk_consume s h n) h = sk_sent s h /\ sk_room (sk_consume s h n) h = sk_room s h /\
    sk_can_send (sk_consume s h n) h = sk_can_send s h;
  sk_send_ok s h d :
    sk_taken (sk_send_slice s h d) h = sk_taken s h /\
    sk_sent (sk_send_slice s h d) h = sk_sent s h ++ take (sk_room s h) d;
  sk_close_ok s h : sk_taken (sk_close s h) h = sk_taken s h /\ sk_sent (sk_close s h) h = sk_sent s h;
  sk_dns_slots s : (sk_dns_queued s <= DNS_SLOTS)%nat;
  sk_dns_recv_ok s : match sk_dns_recv s with
    | Some (s', _) => sk_dns_queued s = Datatypes.S (sk_dns_queued s')
    | None => sk_dns_queued s = O
    end
}.

(** ** Rewriting a frame *)

Section Rewrite.
Context `{WireLaws}.

Definition or_keep (o : option Z) (x : Z) : Z := default x o.
Definition opt_fits (w : Z) (o : option Z) : Prop := match o with Some x => fits w x | None => True end.

Lemma set_opt_src (o : option Z) (h : list Z) : (20 <= length h)%nat -> opt_fits 32 o ->
  let h' := set_opt ip_set_src o h in
  length h' = length h /\ ip_src h' = or_keep o (ip_src h) /\ ip_dst h' = ip_dst h /\
  ip_header_len h' = ip_header_len h /\ ip_payload_len h' = ip_payload_len h /\ ip_is_tcp h' = ip_is_tcp h.
Proof. intros Hl Ho. destruct o as [a|]; [by apply w_ip_set_src|by repeat split]. Qed.

Lemma set_opt_dst (o : option Z) (h : list Z) : (20 <= length h)%nat -> opt_fits 32 o ->
  let h' := set_opt ip_set_dst o h in
  length h' = length h /\ ip_src h' = ip_src h /\ ip_dst h' = or_keep o (ip_dst h) /\
  ip_header_len h' = ip_header_len h /\ ip_payload_len h' = ip_payload_len h /\ ip_is_tcp h' = ip_is_tcp h.
Proof. intros Hl Ho. destruct o as [a|]; [by apply w_ip_set_dst|by repeat split]. Qed.

Lemma set_opt_sport (o : option Z) (n : nat) (t : list Z) : tcp_checked (take n t) = true -> opt_fits 16 o ->
  let t' := set_opt tcp_set_src_port o t in
  length t' = length t /\ tcp_checked (take n t') = true /\ tcp_src_port (take n t') = or_keep o (tcp_src_port (take n t)) /\
  tcp_dst_port (take n t') = tcp_dst_port (take n t) /\ tcp_syn (take n t') = tcp_syn (take n t) /\ tcp_ack (take n t') = tcp_ack (take n t).
Proof. intros Hc Ho. destruct o as [a|]; [by apply w_tcp_set_src|by repeat split]. Qed.

Lemma set_opt_dport (o : option Z) (n : nat) (t : list Z) : tcp_checked (take n t) = true -> opt_fits 16 o ->
  let t' := set_opt tcp_set_dst_port o t in
  length t' = length t /\ tcp_checked (take n t') = true /\ tcp_src_port (take n t') = tcp_src_port (take n t) /\
  tcp_dst_port (take n t') = or_keep o (tcp_dst_port (take n t)) /\ tcp_syn (take n t') = tcp_syn (take n t) /\ tcp_ack (take n t') = tcp_ack (take n t).
Proof. intros Hc Ho. destruct o as [a|]; [by apply w_tcp_set_dst|by repeat split]. Qed.

(** Rewriting changes exactly the fields asked for, and neither the Ethernet
    header nor the length. *)
Lemma rewrite_tuple (frame : list Z) (t : Tuple) (ns nd np nq : option Z) :
  tcp_tuple frame = Some t -> opt_fits 32 ns -> opt_fits 32 nd -> opt_fits 16 np -> opt_fits 16 nq ->
  let g := rewrite_frame frame ns nd np nq in
  tcp_tuple g = Some (mkTuple (or_keep ns (tu_src t)) (or_keep nd (tu_dst t)) (or_keep np (tu_sport t))
                        (or_keep nq (tu_dport t)) (tu_syn t) (tu_ack t)) /\
  length g = length frame /\ take 14 g = take 14 frame.
Proof.
  intros Ht Hs Hd Hp Hq. unfold tcp_tuple, eth_payload in Ht. rewrite w_eth_checked in Ht.
  destruct (14 <=? length frame)%nat eqn:El; [|done]. apply Nat.leb_le in El. cbn [negb] in Ht.
  destruct (eth_is_ipv4 frame) eqn:Et; [|done]. destruct (ip_checked (drop 14 frame)) eqn:Ec; [|done].
  destruct (ip_is_tcp (drop 14 frame)) eqn:Ei; [|done]. cbn [negb] in Ht.
  destruct (tcp_checked (ip_payload (drop 14 frame))) eqn:Ek; [|done]. cbn [negb] in Ht. injection Ht as <-. cbn [tu_src tu_dst tu_sport tu_dport tu_syn tu_ack].
  unfold rewrite_frame. rewrite (proj2 (Nat.ltb_ge _ _)) by lia. rewrite Ec. cbn [negb].
  set (l3 := drop 14 frame) in *. set (ihl := ip_header_len l3) in *. pose proof (w_ip_len _ Ec) as Hl.
  fold ihl in Hl.
  assert (Eh : length (take ihl l3) = ihl) by (rewrite length_take; lia).
  assert (Sp : l3 = take ihl l3 ++ drop ihl l3) by (symmetry; apply take_drop).
  destruct (w_ip_fields (take ihl l3) (drop ihl l3)) as (F1 & F2 & F3 & F4 & F5); [lia|]. rewrite <- Sp in F1, F2, F3, F4, F5. fold ihl in F1.
  destruct (set_opt_src ns (take ihl l3)) as (A1 & A2 & A3 & A4 & A5 & A6); [lia|done|].
  set (h1 := set_opt ip_set_src ns (take ihl l3)) in *.
  destruct (set_opt_dst nd h1) as (B1 & B2 & B3 & B4 & B5 & B6); [lia|done|]. set (h2 := set_opt ip_set_dst nd h1) in *.
  destruct (w_ip_fill h2) as (C1 & C2 & C3 & C4 & C5 & C6); [lia|]. set (h3 := ip_fill_checksum h2) in *.
  unfold ip_payload in Ek |- *. fold ihl in Ek |- *. set (n := ip_payload_len l3) in *. set (tl := drop ihl l3) in *.
  destruct (set_opt_sport np n tl Ek Hp) as (P1 & P2 & P3 & P4 & P5 & P6). set (t1 := set_opt tcp_set_src_port np tl) in *.
  destruct (set_opt_dport nq n t1 P2 Hq) as (Q1 & Q2 & Q3 & Q4 & Q5 & Q6). set (t2 := set_opt tcp_set_dst_port nq t1) in *.
  destruct (w_tcp_fill (ip_src h2) (ip_dst h2) n t2 Q2) as (R1 & R2 & R3 & R4 & R5 & R6).
  set (t3 := tcp_fill_checksum (ip_src h2) (ip_dst h2) t2) in *.
  assert (E14 : length (take 14 frame) = 14%nat) by (rewrite length_take; lia).
  assert (Ed : drop 14 (take 14 frame ++ h3 ++ t3) = h3 ++ t3) by (by apply drop_app_length').
  destruct (w_ip_fields h3 t3) as (G1 & G2 & G3 & G4 & G5); [lia|].
  assert (Eq2 : n = ip_payload_len (h3 ++ t3)) by congruence.
  assert (Eq1 : ip_header_len (h3 ++ t3) = ihl) by congruence.
  split; [|split].
  - unfold tcp_tuple, eth_payload. rewrite w_eth_checked, Ed.
    rewrite (proj2 (Nat.leb_le _ _)) by (rewrite length_app; lia). cbn [negb].
    rewrite (w_eth_type _ _ (drop 14 frame) E14), take_drop, Et. cbn [negb].
    rewrite (w_ip_checked h3 (take ihl l3) t3 tl), <- Sp, Ec by (unfold tl in *; congruence || lia). cbn [negb].
    assert (Ei' : ip_is_tcp (h3 ++ t3) = true) by congruence. rewrite Ei'. cbn [negb].
    unfold ip_payload. rewrite Eq1, <- Eq2, drop_app_length' by lia. rewrite R2. cbn [negb].
    do 2 f_equal; congruence.
  - rewrite !length_app. unfold tl in *. rewrite length_drop in P1. assert (length l3 = (length frame - 14)%nat) by (unfold l3; by rewrite length_drop). lia.
  - by apply take_app_length'.
Qed.
End Rewrite.

(** ** What every reachable state satisfies *)

Section Reach.
Context {S : Type} `{Stack S} `{WireLaws}.
Variable allow_private : bool.

Lemma map_sublist {A B} (g : A -> B) (l k : list A) : sublist l k -> sublist (map g l) (map g k).
Proof. apply (fmap_sublist g). Qed.

Lemma Forall_sublist {A} (P : A -> Prop) (l k : list A) : sublist l k -> Forall P k -> Forall P l.
Proof.
  induction 1; [done| |]; intros Hk; inversion_clear Hk; [constructor; auto|auto].
Qed.

Definition f_key (f : Flow) : Z * Z * Z * Z := (guest_port f, ext_ip f, ext_port f, eph f).

Lemma pump_flow_key e s f : f_key (snd (pump_flow e s f)) = f_key f.
Proof.
  unfold pump_flow. destruct (f_host f) as [c|] eqn:Eh; cbn.
  - rewrite Eh. by destruct (bridge _ _ _ _ _) as [[? ?] ?].
  - destruct (connecting f); cbn; [|by rewrite Eh]. destruct (e_conn e (f_handle f)); cbn; [by rewrite Eh| |done].
    by destruct (bridge _ _ _ _ _) as [[? ?] ?].
Qed.

Lemma pump_flows_loop_keys e l : forall s, map f_key (snd (pump_flows_loop e s l)) = map f_key l.
Proof.
  induction l as [|f l IH]; intros s; [done|]. simpl. pose proof (pump_flow_key e s f) as Ek.
  destruct (pump_flow e s f) as [s1 f1]. specialize (IH s1). destruct (pump_flows_loop e s1 l) as [s2 r].
  cbn in *. by rewrite Ek, IH.
Qed.

Lemma retain_sublist {A} (hd : A -> nat) l : forall s : S, sublist (snd (retain hd s l)) l.
Proof.
  induction l as [|x l IH]; intros s; [done|]. simpl. destruct (sk_closed s (hd x)); [by apply sublist_cons|].
  specialize (IH s). destruct (retain hd s l) as [s1 r]. by apply sublist_skip.
Qed.

Lemma pump_flows_keys e (b : SmoltcpBackend (S := S)) :
  sublist (map f_key (flows (pump_flows e b))) (map f_key (flows b)).
Proof.
  unfold pump_flows. pose proof (pump_flows_loop_keys e (flows b) (sockets b)) as Ek.
  destruct (pump_flows_loop e (sockets b) (flows b)) as [s1 l1]. pose proof (retain_sublist f_handle l1 s1) as Sub.
  destruct (retain f_handle s1 l1) as [s2 l2]. cbn in *. rewrite <- Ek. by apply map_sublist.
Qed.

Lemma dns_out_bound e n : forall (s : S) p k, (length p <= MAX_PENDING_DNS)%nat ->
  (length (snd (dns_out e n s p k)) <= MAX_PENDING_DNS)%nat.
Proof.
  induction n as [|n IH]; intros s p k Hp; [done|]. cbn [dns_out]. destruct (sk_dns_recv s) as [[s1 [d g]]|]; [|done].
  destruct (MAX_PENDING_DNS <=? length p)%nat eqn:El; [by apply IH|]. apply Nat.leb_gt in El. apply IH.
  destruct (e_dns_send e k); [|done]. rewrite length_app. cbn. lia.
Qed.

Lemma dns_back_sublist e p : forall (s : S) k, sublist (snd (dns_back e s p k)) p.
Proof.
  induction p as [|g p IH]; intros s k; [done|]. simpl. destruct (e_dns_recv e k).
  - by apply sublist_cons.
  - specialize (IH s (Datatypes.S k)). destruct (dns_back e s p (Datatypes.S k)) as [s1 r]. by apply sublist_skip.
  - by apply sublist_cons.
Qed.

(** The address and ports of a flow are 32 and 16 bits; it was dialed; what
    was dialed is permitted; no two flows are for the same connection. *)
Record us_inv (n : nat) (b : SmoltcpBackend (S := S)) : Prop := {
  inv_flows : (length (flows b) <= MAX_FLOWS)%nat;
  inv_dns : (length (pending_dns b) <= MAX_PENDING_DNS)%nat;
  inv_dialed : Forall (fun a => egress_blocked allow_private (fst a) = false) (dialed b);
  inv_keys : Forall (fun k : Z * Z * Z * Z => let '(gp, ip, p, e) := k in
    fits 16 gp /\ fits 32 ip /\ fits 16 p /\ 40000 <= e < 65536 /\ (ip, p) ∈ dialed b /\
    ((Z.of_nat n <= 25535) -> 40000 < e <= next_eph b)) (map f_key (flows b));
  inv_distinct : NoDup (map (fun k : Z * Z * Z * Z => fst k) (map f_key (flows b)));
  inv_eph : 40000 <= next_eph b < 65536 /\ (Z.of_nat n <= 25535 -> next_eph b = 40000 + Z.of_nat n);
  inv_unique : Z.of_nat n <= 25535 -> NoDup (map (fun k : Z * Z * Z * Z => snd k) (map f_key (flows b)))
}.

Lemma us_inv_new s listeners : us_inv O (SmoltcpBackend_new s listeners).
Proof. split; cbn; try constructor; unfold MAX_FLOWS, MAX_PENDING_DNS; lia. Qed.

(** A change of the backend that keeps or drops flows and allocates nothing. *)
Lemma us_inv_keep n (b b' : SmoltcpBackend (S := S)) :
  sublist (map f_key (flows b')) (map f_key (flows b)) -> (length (pending_dns b') <= MAX_PENDING_DNS)%nat ->
  dialed b' = dialed b -> next_eph b' = next_eph b -> us_inv n b -> us_inv n b'.
Proof.
  intros Sub Hd Ed Ee [I1 I2 I3 I4 I5 I6 I7]. split; rewrite ?Ed, ?Ee; try done.
  - apply sublist_length in Sub. rewrite !length_map in Sub. lia.
  - by eapply Forall_sublist.
  - eapply sublist_NoDup; [exact I5|]. by apply map_sublist.
  - intros Hn. eapply sublist_NoDup; [exact (I7 Hn)|]. by apply map_sublist.
Qed.

Lemma us_inv_pump_flows n e (b : SmoltcpBackend (S := S)) : us_inv n b -> us_inv n (pump_flows e b).
Proof.
  intros Hi. pose proof (pump_flows_keys e b) as Sub. apply (us_inv_keep n b); [exact Sub|..|exact Hi].
  all: unfold pump_flows; destruct (pump_flows_loop e (sockets b) (flows b)) as [s1 l1];
    destruct (retain f_handle s1 l1) as [s2 l2]; try done. apply Hi.
Qed.

Lemma us_inv_pump_dns n e (b : SmoltcpBackend (S := S)) : us_inv n b -> us_inv n (pump_dns e b).
Proof.
  intros Hi. unfold pump_dns. pose proof (dns_out_bound e (Datatypes.S DNS_SLOTS) (sockets b) (pending_dns b) O (inv_dns _ _ Hi)) as Hb.
  destruct (dns_out _ _ _ _ _) as [s1 p1]. pose proof (dns_back_sublist e p1 s1 O) as Sub.
  destruct (dns_back _ _ _ _) as [s2 p2]. apply (us_inv_keep n b); [reflexivity| |done..|exact Hi].
  apply sublist_length in Sub. cbn in *. lia.
Qed.

Lemma us_inv_pump_inbound n e (b : SmoltcpBackend (S := S)) : us_inv n b -> us_inv n (pump_inbound e b).
Proof.
  intros Hi. unfold pump_inbound. destruct (pump_inbound_loop _ _ _) as [s1 l1]. destruct (retain _ _ _) as [s2 l2].
  apply (us_inv_keep n b); [reflexivity|apply Hi|done..|exact Hi].
Qed.

Lemma us_inv_poll_iface n e (b : SmoltcpBackend (S := S)) : us_inv n b -> us_inv n (poll_iface e b).
Proof.
  intros Hi. unfold poll_iface. destruct (sk_poll _ _ _) as [[s l] m].
  apply (us_inv_keep n b); [reflexivity|apply Hi|done..|exact Hi].
Qed.

Lemma bump_eph_range x : 40000 <= x < 65536 -> 40000 <= bump_eph x < 65536.
Proof. unfold bump_eph, wadd16, u16. intros Hx. pose proof (Z.mod_pos_bound (x + 1) (2 ^ 16)). lia. Qed.

Lemma bump_eph_next x : 40000 <= x < 65535 -> bump_eph x = x + 1.
Proof. unfold bump_eph, wadd16, u16. intros Hx. rewrite Z.mod_small by lia. lia. Qed.

(** One more port: the flows that are there are unaffected. *)
Lemma us_inv_bump n (b b' : SmoltcpBackend (S := S)) d : us_inv n b ->
  flows b' = flows b -> pending_dns b' = pending_dns b -> next_eph b' = bump_eph (next_eph b) ->
  dialed b' = dialed b ++ d -> Forall (fun a => egress_blocked allow_private (fst a) = false) d -> us_inv (Datatypes.S n) b'.
Proof.
  intros [I1 I2 I3 I4 I5 [I6 I6'] I7] Ef Ep Ee Ed Hd. split; rewrite ?Ef, ?Ep, ?Ee, ?Ed; try done.
  - by apply Forall_app.
  - eapply Forall_impl; [exact I4|]. intros [[[gp ip] p] e] (A & B & C & D & E & F).
    split; [done|]. split; [done|]. split; [done|]. split; [done|]. split; [apply elem_of_app; by left|].
    intros Hn. specialize (F ltac:(lia)). rewrite bump_eph_next; [lia|]. rewrite I6' by lia. lia.
  - split; [by apply bump_eph_range|]. intros Hn. rewrite bump_eph_next; rewrite I6' by lia; lia.
  - intros Hn. apply I7. lia.
Qed.

Lemma us_inv_accept_loop ports : forall n (b : SmoltcpBackend (S := S)), us_inv n b -> us_inv (n + length ports) (accept_loop b ports).
Proof.
  induction ports as [|g ports IH]; intros n b Hi; simpl; [by rewrite Nat.add_0_r|].
  rewrite <- Nat.add_succ_comm. destruct (sk_connect _ _ _) as [[s h]|]; apply IH.
  all: eapply us_inv_bump; [exact Hi|done..| |constructor]; cbn; by rewrite app_nil_r.
Qed.

Lemma tuple_fits frame t : tcp_tuple frame = Some t -> fits 16 (tu_sport t) /\ fits 32 (tu_dst t) /\ fits 16 (tu_dport t).
Proof.
  unfold tcp_tuple. do 5 (destruct (negb _); [done|]). intros [= <-]. cbn.
  destruct (w_ranges (eth_payload frame) (ip_payload (eth_payload frame))) as (? & ? & ? & ?). done.
Qed.

(** The pumps dial nothing. *)
Lemma dialed_kept e (b : SmoltcpBackend (S := S)) :
  dialed (poll_iface e b) = dialed b /\ dialed (pump_dns e b) = dialed b /\ dialed (pump_flows e b) = dialed b.
Proof.
  unfold poll_iface, pump_dns, pump_flows. destruct (sk_poll _ _ _) as [[? ?] ?]. split; [done|].
  destruct (dns_out _ _ _ _ _) as [? ?]. destruct (dns_back _ _ _ _) as [? ?]. split; [done|].
  destruct (pump_flows_loop _ _ _) as [? ?]. by destruct (retain _ _ _) as [? ?].
Qed.

Lemma us_inv_open n (b : SmoltcpBackend (S := S)) frame : us_inv n b ->
  let b' := maybe_open_flow allow_private b frame in us_inv (n + (length (dialed b') - length (dialed b))) b'.
Proof.
  intros Hi. assert (Stay : us_inv (n + (length (dialed b) - length (dialed b))) b) by (by rewrite Nat.sub_diag, Nat.add_0_r).
  cbv zeta. unfold maybe_open_flow. destruct (tcp_tuple frame) as [t|] eqn:Et; [|done].
  destruct (negb (tu_syn t) || tu_ack t || negb (tu_src t =? GUEST)); [done|].
  destruct (existsb (flow_of t) (flows b)) eqn:Ex; [done|]. destruct (MAX_FLOWS <=? length (flows b))%nat eqn:Em; [done|].
  destruct (egress_blocked allow_private (tu_dst t)) eqn:Eg; [done|]. apply Nat.leb_gt in Em.
  assert (El : forall d : Z * Z, (length (dialed b ++ [d]) - length (dialed b) = 1)%nat) by (intros; rewrite length_app; cbn; lia).
  assert (Fd : Forall (fun a => egress_blocked allow_private (fst a) = false) [(tu_dst t, tu_dport t)]) by (by repeat constructor).
  destruct (sk_listen _ _) as [[s h]|]; cbn [dialed]; rewrite El, Nat.add_1_r.
  2: by eapply us_inv_bump; [exact Hi|done..].
  set (b0 := mkBackend s (rx b) (tx b) (flows b) (pending_dns b) (accepted b) (inbound b) (has_listeners b) (bump_eph (next_eph b))
    (dialed b ++ [(tu_dst t, tu_dport t)])).
  assert (H0' : us_inv (Datatypes.S n) b0) by (by eapply us_inv_bump; [exact Hi|done..]).
  destruct H0' as [I1 I2 I3 I4 I5 [I6 I6'] I7]. unfold b0 in *. cbn [flows pending_dns dialed next_eph] in *.
  set (f := mkFlow _ _ _ _ _ _ _ _).
  assert (Old : forall k, k ∈ map f_key (flows b) -> Z.of_nat (Datatypes.S n) <= 25535 -> snd k < bump_eph (next_eph b)).
  { intros k Hk Hn. destruct Hi as [_ _ _ J4 _ [J6 J6'] _]. rewrite Forall_forall in J4. specialize (J4 k Hk).
    destruct k as [[[gp ip] p] e]. destruct J4 as (_ & _ & _ & _ & _ & F). specialize (F ltac:(lia)). cbn.
    rewrite bump_eph_next; rewrite J6' by lia; [rewrite J6' in F by lia; lia|lia]. }
  split; cbn [flows pending_dns dialed next_eph]; try done; rewrite ?map_app; cbn [map].
  - rewrite length_app. cbn. lia.
  - apply Forall_app. split; [done|]. constructor; [|constructor]. destruct (tuple_fits _ _ Et) as (F1 & F2 & F3). cbn.
    do 3 (split; [done|]). split; [apply bump_eph_range; apply Hi|]. split; [apply elem_of_app; right; by left|].
    intros Hn. destruct Hi as [_ _ _ _ _ [J6 J6'] _]. rewrite bump_eph_next; rewrite J6' by lia; lia.
  - apply NoDup_app. split; [done|]. split; [|apply NoDup_singleton].
    intros k Hk Hk2. apply list_elem_of_singleton in Hk2 as ->. rewrite map_map in Hk.
    apply list_elem_of_In, in_map_iff in Hk as (g & Ek & Hg). injection Ek as E1 E2 E3.
    assert (Hx : existsb (flow_of t) (flows b) = true); [|congruence]. apply existsb_exists. exists g. split; [done|].
    unfold flow_of. rewrite E1, E2, E3, !Z.eqb_refl. done.
  - intros Hn. apply NoDup_app. split; [by apply I7|]. split; [|apply NoDup_singleton].
    intros k Hk Hk2. apply list_elem_of_singleton in Hk2 as ->.
    apply list_elem_of_In, in_map_iff in Hk as (g & Ek & Hg). apply list_elem_of_In in Hg. specialize (Old g Hg Hn). cbn in Ek. lia.
Qed.

(** Ports are allocated as counted, and the invariant holds, in every run. *)
Lemma us_run_inv n (b : SmoltcpBackend (S := S)) : us_run allow_private n b -> us_inv n b.
Proof.
  induction 1 as [s listeners|n e b frame Hr IH|n e b Hr IH|n b g Hr IH].
  - apply us_inv_new.
  - unfold us_send. pose proof (us_inv_open n b frame IH) as Ho. cbv zeta in Ho.
    set (b1 := maybe_open_flow allow_private b frame) in *.
    assert (Hp : us_inv (n + (length (dialed b1) - length (dialed b))) (push_rx b1 (dnat_in b1 frame))).
    { apply (us_inv_keep _ b1); [reflexivity|apply Ho|done..]. }
    set (b2 := push_rx b1 (dnat_in b1 frame)) in *.
    assert (Ed : dialed (poll_iface e (pump_dns e (pump_flows e (poll_iface e b2)))) = dialed b1) by (rewrite (proj1 (dialed_kept e _)), (proj1 (proj2 (dialed_kept e _))), (proj2 (proj2 (dialed_kept e _))), (proj1 (dialed_kept e _)); done).
    rewrite Ed. by apply us_inv_poll_iface, us_inv_pump_dns, us_inv_pump_flows, us_inv_poll_iface.
  - unfold us_poll. set (b1 := poll_iface e (pump_dns e _)).
    assert (Hi : us_inv (n + length (accepted b)) b1).
    { apply us_inv_poll_iface, us_inv_pump_dns, us_inv_pump_inbound, us_inv_pump_flows.
      unfold accept_inbound. assert (Ea : accepted (poll_iface e b) = accepted b) by (unfold poll_iface; by destruct (sk_poll _ _ _) as [[? ?] ?]).
      rewrite Ea. apply us_inv_accept_loop. pose proof (us_inv_poll_iface n e b IH) as Hq. apply (us_inv_keep n (poll_iface e b)); [reflexivity|apply Hq|done..]. }
    destruct (tx b1); [done|]. cbn. apply (us_inv_keep _ b1); [reflexivity|apply Hi|done..].
  - apply (us_inv_keep _ b); [reflexivity|apply IH|done..].
Qed.
End Reach.

(** ** Properties *)

(** The networks a guest may not dial. *)
Definition in_net (a b c d len ip : Z) : Prop := ip / 2 ^ (32 - len) = Ipv4Address_new a b c d / 2 ^ (32 - len).
Definition forbidden (allow_private : bool) (ip : Z) : Prop :=
  in_net 127 0 0 0 8 ip \/ in_net 169 254 0 0 16 ip \/ in_net 255 255 255 255 32 ip \/ in_net 0 0 0 0 32 ip \/
  in_net 192 0 2 0 24 ip \/ in_net 198 51 100 0 24 ip \/ in_net 203 0 113 0 24 ip \/
  (allow_private = false /\ (in_net 10 0 0 0 8 ip \/ in_net 172 16 0 0 12 ip \/ in_net 192 168 0 0 16 ip)).

Lemma octet_div n ip : 0 <= n <= 3 -> octet n ip = (ip / 2 ^ (8 * (3 - n))) mod 256.
Proof.
  intros Hn. unfold octet. rewrite Z.shiftr_div_pow2 by lia. change 0xff with (Z.ones 8). by rewrite Z.land_ones by lia.
Qed.

Lemma egress_blocked_spec allow_private ip : fits 32 ip -> egress_blocked allow_private ip = true <-> forbidden allow_private ip.
Proof.
  intros Hip. unfold egress_blocked, is_loopback, is_link_local, is_broadcast, is_unspecified, is_documentation, is_private.
  rewrite !octet_div by lia. unfold forbidden, in_net, Ipv4Address_new.
  change (2 ^ (8 * (3 - 0))) with 16777216. change (2 ^ (8 * (3 - 1))) with 65536. change (2 ^ (8 * (3 - 2))) with 256.
  change (2 ^ (32 - 8)) with 16777216. change (2 ^ (32 - 16)) with 65536. change (2 ^ (32 - 32)) with 1.
  change (2 ^ (32 - 24)) with 256. change (2 ^ (32 - 12)) with 1048576.
  assert (E2 : ip / 256 / 256 = ip / 65536) by (by rewrite Z.div_div).
  assert (E1 : ip / 65536 / 256 = ip / 16777216) by (by rewrite Z.div_div).
  assert (E3 : ip / 65536 / 16 = ip / 1048576) by (by rewrite Z.div_div).
  assert (E4 : ip / 1048576 / 16 = ip / 16777216) by (by rewrite Z.div_div).
  rewrite Z.div_1_r. cbn in Hip. change (2 ^ 32) with 4294967296 in Hip.
  assert (B0 : 0 <= ip / 16777216 < 256) by (split; [apply Z.div_pos; lia|apply Z.div_lt_upper_bound; lia]).
  set (q1 := ip / 16777216) in *. set (q2 := ip / 65536) in *. set (q3 := ip / 256) in *. set (q12 := ip / 1048576) in *.
  pose proof (Z.div_mod q2 256 ltac:(lia)). pose proof (Z.mod_pos_bound q2 256 ltac:(lia)).
  pose proof (Z.div_mod q3 256 ltac:(lia)). pose proof (Z.mod_pos_bound q3 256 ltac:(lia)).
  pose proof (Z.div_mod q2 16 ltac:(lia)). pose proof (Z.mod_pos_bound q2 16 ltac:(lia)).
  pose proof (Z.div_mod q12 16 ltac:(lia)). pose proof (Z.mod_pos_bound q12 16 ltac:(lia)).
  rewrite (Z.mod_small q1) by lia. set (r2 := q2 mod 256) in *. set (r3 := q3 mod 256) in *.
  clearbody q1 q2 q3 q12 r2 r3.
  repeat match goal with |- context [?a / ?b] => let v := eval vm_compute in (a / b) in change (a / b) with v end.
  set (A := (_ || _)%bool). set (B := (_ || _)%bool).
  assert (HA : A = true <-> q1 = 127 \/ q2 = 43518 \/ ip = 4294967295 \/ ip = 0 \/ q3 = 12582914 \/ q3 = 12989284 \/ q3 = 13303921) by (unfold A; lia).
  assert (HB : B = true <-> q1 = 10 \/ q12 = 2753 \/ q2 = 49320) by (unfold B; lia).
  clearbody A B. destruct A, B, allow_private; cbn; intuition (congruence || lia).
Qed.

Section Theorems.
Context {S : Type} `{Stack S} `{WireLaws}.
Variable allow_private : bool.

(** C19: the network stays within its policy and its caps. However the guest's
    frames, the polls, the host's answers and inbound connections interleave,
    every address the host was told to dial for the guest is outside the
    loopback, link-local, broadcast, unspecified and documentation networks
    and, unless allowed, the private ones; every connection that is proxied
    was dialed, no two are for the same guest port and destination, and there
    are at most 256 connections and 256 DNS queries at a time. *)
Theorem usernet_policy (n : nat) (b : SmoltcpBackend (S := S)) :
  us_run allow_private n b ->
  (forall ip p, (ip, p) ∈ dialed b -> fits 32 ip -> ~ forbidden allow_private ip) /\
  (forall f, f ∈ flows b -> fits 32 (ext_ip f) /\ (ext_ip f, ext_port f) ∈ dialed b) /\
  NoDup (map (fun f => (guest_port f, ext_ip f, ext_port f)) (flows b)) /\
  (length (flows b) <= MAX_FLOWS)%nat /\ (length (pending_dns b) <= MAX_PENDING_DNS)%nat.
Proof.
  intros [I1 I2 I3 I4 I5 _ _]%us_run_inv. split; [|split; [|split; [|done]]].
  - intros ip p Hin Hf Hb. apply egress_blocked_spec in Hb; [|done]. rewrite Forall_forall in I3.
    specialize (I3 _ Hin). cbn in I3. congruence.
  - intros f Hf. rewrite Forall_forall in I4. specialize (I4 (f_key f)). cbn in I4.
    destruct I4 as (_ & A & _ & _ & B & _); [|done]. apply list_elem_of_In, in_map_iff. exists f. split; [done|by apply list_elem_of_In].
  - by rewrite map_map in I5.
Qed.

Lemma find_unique {A} (p : A -> bool) (l : list A) (x : A) : x ∈ l -> p x = true ->
  (forall y, y ∈ l -> p y = true -> y = x) -> List.find p l = Some x.
Proof.
  intros Hx Hp Hu. destruct (List.find p l) as [y|] eqn:E.
  - apply find_some in E as [Hy Ey]. f_equal. apply Hu; [by apply list_elem_of_In|done].
  - apply list_elem_of_In in Hx. by rewrite (find_none _ _ E _ Hx) in Hp.
Qed.

Lemma NoDup_map_elem_inj {A B} (g : A -> B) (l : list A) (x y : A) : NoDup (map g l) -> x ∈ l -> y ∈ l -> g x = g y -> x = y.
Proof.
  induction l as [|a l IH]; [by intros _ ?%elem_of_nil|]. cbn. intros [Na Hd]%NoDup_cons.
  intros [->|Hx]%elem_of_cons [->|Hy]%elem_of_cons Eg; [done|exfalso|exfalso|by apply IH].
  - apply Na. rewrite Eg. apply list_elem_of_In, in_map_iff. exists y. split; [done|by apply list_elem_of_In].
  - apply Na. rewrite <- Eg. apply list_elem_of_In, in_map_iff. exists x. split; [done|by apply list_elem_of_In].
Qed.

(** C20: address translation is undone. While the ports allocated so far fit
    the ephemeral range, a guest's frame of a proxied connection reaches the
    netstack with the gateway and the connection's own port as destination
    and everything else as it was, and the netstack's frame back from that
    port reaches the guest with the source it dialed, its port included;
    neither changes the length or the Ethernet header. *)
Theorem nat_roundtrip (n : nat) (b : SmoltcpBackend (S := S)) (f : Flow) (out back : list Z) (t u : Tuple) :
  us_run allow_private n b -> Z.of_nat n <= 25535 -> f ∈ flows b ->
  tcp_tuple out = Some t -> tu_src t = GUEST -> flow_of t f = true ->
  tcp_tuple back = Some u -> tu_src u = GATEWAY -> tu_dst u = GUEST -> tu_sport u = eph f -> tu_dport u = guest_port f ->
  tcp_tuple (dnat_in b out) = Some (mkTuple GUEST GATEWAY (tu_sport t) (eph f) (tu_syn t) (tu_ack t)) /\
  tcp_tuple (dnat_out b back) = Some (mkTuple (tu_dst t) GUEST (tu_dport t) (tu_sport t) (tu_syn u) (tu_ack u)) /\
  length (dnat_in b out) = length out /\ length (dnat_out b back) = length back /\
  take 14 (dnat_in b out) = take 14 out /\ take 14 (dnat_out b back) = take 14 back.
Proof.
  intros [_ _ _ I4 I5 _ I7]%us_run_inv Hn Hf Et Es Hm Eu Us Ud Up Uq. specialize (I7 Hn). rewrite !map_map in I5, I7.
  assert (Hk : f_key f ∈ map f_key (flows b)) by (apply list_elem_of_In, in_map, list_elem_of_In, Hf).
  rewrite Forall_forall in I4. specialize (I4 _ Hk). cbn in I4. destruct I4 as (F1 & F2 & F3 & F4 & _).
  pose proof Hm as Hm2. unfold flow_of in Hm2. apply andb_prop in Hm2 as [[E1 E2]%andb_prop E3]. apply Z.eqb_eq in E1, E2, E3.
  assert (Fi : List.find (flow_of t) (flows b) = Some f).
  { apply find_unique; [done|done|]. intros g Hg Hq. unfold flow_of in Hq. apply andb_prop in Hq as [[Q1 Q2]%andb_prop Q3].
    apply Z.eqb_eq in Q1, Q2, Q3. eapply NoDup_map_elem_inj; [exact I5|done|done|]. cbn. congruence. }
  assert (Fo : List.find (fun f => (eph f =? tu_sport u) && (guest_port f =? tu_dport u)) (flows b) = Some f).
  { apply find_unique; [done|rewrite Up, Uq, !Z.eqb_refl; done|]. intros g Hg Hq. apply andb_prop in Hq as [Q1%Z.eqb_eq _].
    eapply NoDup_map_elem_inj; [exact I7|done|done|]. cbn. congruence. }
  unfold dnat_in, dnat_out. rewrite Et, Es, Z.eqb_refl, Fi, Eu, Us, Ud, !Z.eqb_refl, Fo. cbn [negb orb].
  destruct (rewrite_tuple out t None (Some GATEWAY) None (Some (eph f)) Et) as (A1 & A2 & A3); [done|by vm_compute|done|cbn; lia|].
  destruct (rewrite_tuple back u (Some (ext_ip f)) None (Some (ext_port f)) None Eu) as (B1 & B2 & B3); [done..|].
  rewrite A1, B1. unfold or_keep. cbn [default from_option id].
  split; [by rewrite Es|]. split; [by rewrite Ud, Uq, E1, E2, E3|]. done.
Qed.

(** what the bridge passes on. One turn hands the host's stream exactly
    the bytes it takes from the guest's, in order. In the other direction it
    reads from the host's stream and queues for the guest only as much as the
    transmit buffer has room for: the bytes read are all queued exactly when
    they fit, and what does not fit is lost, for nothing keeps it. *)
Theorem bridge_streams {SL : StackLaws S} (e : Env) (s s' : S) (h : nat) (c c' : HostStream) (done' done : bool) :
  bridge e s h c done = (s', c', done') ->
  exists up down,
    h_written c' = h_written c ++ up /\ sk_taken s' h = sk_taken s h ++ up /\
    h_read c' = h_read c ++ down /\ sk_sent s' h = sk_sent s h ++ take (sk_room s h) down /\
    (sk_sent s' h = sk_sent s h ++ down <-> (length down <= sk_room s h)%nat).
Proof.
  assert (Fit : forall d : list Z, (sk_sent s h ++ take (sk_room s h) d = sk_sent s h ++ d <-> (length d <= sk_room s h)%nat)).
  { intros d. split; [intros E%app_inv_head|intros Hd; by rewrite take_ge].
    apply (f_equal length) in E. rewrite length_take in E. lia. }
  unfold bridge.
  set (x := if sk_can_recv s h then _ else _).
  assert (Hx : exists up, let '(s1, c1) := x in h_written c1 = h_written c ++ up /\ sk_taken s1 h = sk_taken s h ++ up /\
    h_read c1 = h_read c /\ sk_sent s1 h = sk_sent s h /\ sk_room s1 h = sk_room s h).
  { unfold x. destruct (sk_can_recv s h).
    - set (m := Nat.min _ _). destruct (sk_consume_ok s h m) as (A & B & C & _); [lia|]. exists (take m (sk_recv_data s h)). cbn. by repeat split.
    - exists []. by rewrite !app_nil_r. }
  destruct x as [s1 c1]. destruct Hx as (up & A & B & C & D & E).
  assert (Quiet : forall s2 d2, sk_taken s2 h = sk_taken s1 h -> sk_sent s2 h = sk_sent s1 h -> (s2, c1, d2) = (s', c', done') ->
    exists up down, h_written c' = h_written c ++ up /\ sk_taken s' h = sk_taken s h ++ up /\
      h_read c' = h_read c ++ down /\ sk_sent s' h = sk_sent s h ++ take (sk_room s h) down /\
      (sk_sent s' h = sk_sent s h ++ down <-> (length down <= sk_room s h)%nat)).
  { intros s2 d2 T1 T2 [= <- <- <-]. exists up, []. rewrite T1, T2, take_nil, !app_nil_r. repeat split; try done; cbn; lia. }
  destruct (sk_can_send s1 h && negb done); [|by apply Quiet].
  destruct (sk_close_ok s1 h) as [K1 K2].
  destruct (e_read e h) as [data| |]; [|by apply Quiet..].
  destruct (take _ data) as [|x l] eqn:Ed; [by apply Quiet|]. intros [= <- <- <-].
  destruct (sk_send_ok s1 h (x :: l)) as [T1 T2]. exists up, (x :: l). cbn [h_written h_read].
  rewrite T1, T2, C, D, E. repeat split; try done; by apply Fit.
Qed.

(** the query loop drains the gateway's DNS socket in one call, whatever
    is dropped: no query waits for the next. *)
Theorem dns_drained {SL : StackLaws S} (e : Env) (s : S) (pending : list Z) :
  sk_dns_queued (fst (dns_out e (Datatypes.S DNS_SLOTS) s pending O)) = O.
Proof.
  assert (G : forall n s p k, (sk_dns_queued s < n)%nat -> sk_dns_queued (fst (dns_out e n s p k)) = O).
  { clear. induction n as [|n IH]; intros s p k Hn; [lia|]. cbn [dns_out]. pose proof (sk_dns_recv_ok s) as Hr.
    destruct (sk_dns_recv s) as [[s1 [d g]]|]; [|done]. destruct (MAX_PENDING_DNS <=? length p)%nat; apply IH; lia. }
  apply G. pose proof (sk_dns_slots s). lia.
Qed.
End Theorems.

(** The ports come around: after as many allocations as the range has ports
    the next one is the port of a connection that may still be open. *)
Theorem eph_comes_around (x : Z) : 40000 <= x < 65536 -> Nat.iter (Z.to_nat 25536) bump_eph x = x.
Proof.
  intros Hx. assert (G : forall k, Nat.iter k bump_eph x = 40000 + (x - 40000 + Z.of_nat k) mod 25536).
  { induction k as [|k IH]; [cbn; rewrite Z.mod_small by lia; lia|].
    rewrite Nat.iter_succ, IH. rewrite Nat2Z.inj_succ, <- Z.add_1_r, Z.add_assoc.
    set (r := (x - 40000 + Z.of_nat k)). rewrite (Z.add_mod r 1) by lia. change (1 mod 25536) with 1.
    pose proof (Z.mod_pos_bound r 25536 ltac:(lia)). set (q := r mod 25536) in *.
    destruct (decide (q = 25535)) as [->|Hne]; [reflexivity|].
    rewrite bump_eph_next by lia. rewrite Z.mod_small by lia. lia. }
  rewrite G. replace (x - 40000 + Z.of_nat (Z.to_nat 25536)) with ((x - 40000) + 1 * 25536) by lia.
  rewrite Z.mod_add, Z.mod_small by lia. lia.
Qed.

(** ** A concrete packet format and netstack *)

(** The usual layouts, without checksums. *)
Definition byte_at (l : list Z) (i : nat) : Z := default 0 (l !! i) mod 256.
Definition get16 (l : list Z) (i : nat) : Z := 256 * byte_at l i + byte_at l (Datatypes.S i).
Definition set16 (i : nat) (v : Z) (l : list Z) : list Z := <[i := v / 256]> (<[Datatypes.S i := v mod 256]> l).
Definition get32 (l : list Z) (i : nat) : Z := 65536 * get16 l i + get16 l (i + 2).
Definition set32 (i : nat) (v : Z) (l : list Z) : list Z := set16 i (v / 65536) (set16 (i + 2) (v mod 65536) l).
Definition d_hl (p : list Z) : nat := Z.to_nat (4 * (byte_at p 0 mod 16)).
Definition d_pl (p : list Z) : nat := Z.to_nat (get16 p 2) - d_hl p.

#[export] Instance DemoWire : Wire := {|
  eth_checked f := (14 <=? length f)%nat;
  eth_is_ipv4 f := get16 f 12 =? 0x800;
  ip_checked p := (20 <=? d_hl p)%nat && (d_hl p + d_pl p <=? length p)%nat;
  ip_header_len := d_hl;
  ip_payload_len := d_pl;
  ip_is_tcp p := byte_at p 9 =? 6;
  ip_src p := get32 p 12;
  ip_dst p := get32 p 16;
  ip_set_src := set32 12;
  ip_set_dst := set32 16;
  ip_fill_checksum h := h;
  tcp_checked t := (20 <=? length t)%nat;
  tcp_src_port t := get16 t 0;
  tcp_dst_port t := get16 t 2;
  tcp_syn t := Z.testbit (byte_at t 13) 1;
  tcp_ack t := Z.testbit (byte_at t 13) 4;
  tcp_set_src_port := set16 0;
  tcp_set_dst_port := set16 2;
  tcp_fill_checksum _ _ t := t
|}.

Lemma byte_at_range l i : 0 <= byte_at l i < 256.
Proof. apply Z.mod_pos_bound. lia. Qed.
Lemma get16_range l i : fits 16 (get16 l i).
Proof. unfold get16. pose proof (byte_at_range l i). pose proof (byte_at_range l (Datatypes.S i)). change (2 ^ 16) with 65536. lia. Qed.
Lemma get32_range l i : fits 32 (get32 l i).
Proof.
  unfold get32. pose proof (get16_range l i). pose proof (get16_range l (i + 2)). change (2 ^ 16) with 65536 in *. change (2 ^ 32) with 4294967296. lia.
Qed.
Lemma length_set16 i v l : length (set16 i v l) = length l.
Proof. unfold set16. by rewrite !length_insert. Qed.
Lemma length_set32 i v l : length (set32 i v l) = length l.
Proof. unfold set32. by rewrite !length_set16. Qed.

Lemma byte_at_set16 i v l j : (Datatypes.S i < length l)%nat -> fits 16 v ->
  byte_at (set16 i v l) j = if decide (j = i) then v / 256 else if decide (j = Datatypes.S i) then v mod 256 else byte_at l j.
Proof.
  intros Hi Hv. unfold byte_at, set16. change (2 ^ 16) with 65536 in Hv.
  destruct (decide (j = i)) as [->|Hne].
  - rewrite list_lookup_insert_eq by (rewrite length_insert; lia). cbn. rewrite Z.mod_small; [done|].
    split; [apply Z.div_pos; lia|apply Z.div_lt_upper_bound; lia].
  - rewrite list_lookup_insert_ne by done. destruct (decide (j = Datatypes.S i)) as [->|Hne2].
    + rewrite list_lookup_insert_eq by lia. cbn. by rewrite Zmod_mod.
    + by rewrite list_lookup_insert_ne by done.
Qed.

Lemma get16_set16 i v l j : (Datatypes.S i < length l)%nat -> fits 16 v -> (j = i \/ j + 1 < i \/ i + 1 < j)%nat ->
  get16 (set16 i v l) j = if decide (j = i) then v else get16 l j.
Proof.
  intros Hi Hv Hj. unfold get16. rewrite !byte_at_set16 by done.
  destruct (decide (j = i)) as [->|].
  - rewrite decide_False, decide_True by lia. pose proof (Z.div_mod v 256 ltac:(lia)). lia.
  - by rewrite !decide_False by lia.
Qed.

Lemma get32_set32 i v l j : (i + 3 < length l)%nat -> fits 32 v -> (j = i \/ j + 3 < i \/ i + 3 < j)%nat ->
  get32 (set32 i v l) j = if decide (j = i) then v else get32 l j.
Proof.
  intros Hi Hv Hj. unfold get32, set32. change (2 ^ 32) with 4294967296 in Hv.
  assert (Hh : fits 16 (v / 65536)) by (change (2 ^ 16) with 65536; split; [apply Z.div_pos; lia|apply Z.div_lt_upper_bound; lia]).
  assert (Hm : fits 16 (v mod 65536)) by (change (2 ^ 16) with 65536; apply Z.mod_pos_bound; lia).
  assert (H1 : (Datatypes.S i < length (set16 (i + 2) (v mod 65536) l))%nat) by (rewrite length_set16; lia).
  destruct (decide (j = i)) as [->|].
  - rewrite (get16_set16 i), decide_True by (done || lia).
    rewrite (get16_set16 i), decide_False by (done || lia). rewrite get16_set16, decide_True by (done || lia).
    pose proof (Z.div_mod v 65536 ltac:(lia)). lia.
  - rewrite !(get16_set16 i), !decide_False by (done || lia). by rewrite !get16_set16, !decide_False by (done || lia).
Qed.

Lemma byte_at_set32 i v l j : (i + 3 < length l)%nat -> fits 32 v -> (j < i \/ i + 3 < j)%nat ->
  byte_at (set32 i v l) j = byte_at l j.
Proof.
  intros Hi Hv Hj. unfold set32. change (2 ^ 32) with 4294967296 in Hv.
  assert (Hh : fits 16 (v / 65536)) by (change (2 ^ 16) with 65536; split; [apply Z.div_pos; lia|apply Z.div_lt_upper_bound; lia]).
  assert (Hm : fits 16 (v mod 65536)) by (change (2 ^ 16) with 65536; apply Z.mod_pos_bound; lia).
  rewrite byte_at_set16, !decide_False by (rewrite ?length_set16; done || lia).
  by rewrite byte_at_set16, !decide_False by (done || lia).
Qed.

Lemma byte_at_app h r i : (i < length h)%nat -> byte_at (h ++ r) i = byte_at h i.
Proof. intros. unfold byte_at. by rewrite lookup_app_l. Qed.
Lemma byte_at_take n t i : (i < n)%nat -> byte_at (take n t) i = byte_at t i.
Proof. intros. unfold byte_at. by rewrite lookup_take_lt. Qed.

Lemma set32_header i a h : (i = 12 \/ i = 16)%nat -> (20 <= length h)%nat -> fits 32 a ->
  d_hl (set32 i a h) = d_hl h /\ d_pl (set32 i a h) = d_pl h /\ (byte_at (set32 i a h) 9 =? 6) = (byte_at h 9 =? 6).
Proof.
  intros Hi Hl Ha. assert (E : forall j, (j < 12)%nat -> byte_at (set32 i a h) j = byte_at h j) by (intros; apply byte_at_set32; lia || done).
  unfold d_pl, d_hl, get16. by rewrite !E by lia.
Qed.

Lemma set16_segment i p n t : (i = 0 \/ i = 2)%nat -> (20 <= length (take n t))%nat -> fits 16 p ->
  length (set16 i p t) = length t /\ (20 <=? length (take n (set16 i p t)))%nat = true /\
  get16 (take n (set16 i p t)) i = p /\ (forall j, (j = 0 \/ j = 2)%nat -> j <> i -> get16 (take n (set16 i p t)) j = get16 (take n t) j) /\
  byte_at (take n (set16 i p t)) 13 = byte_at (take n t) 13.
Proof.
  intros Hi Hl Hp. rewrite length_take in Hl. split; [apply length_set16|].
  split; [apply Nat.leb_le; rewrite length_take, length_set16; lia|].
  assert (G : forall l j, (j < 4)%nat -> get16 (take n l) j = get16 l j) by (intros; unfold get16; rewrite !byte_at_take by lia; done).
  split; [rewrite G, get16_set16, decide_True by (done || lia); done|]. split.
  - intros j Hj Hne. rewrite !G, get16_set16, decide_False by (done || lia). done.
  - rewrite !byte_at_take, byte_at_set16, !decide_False by (done || lia). done.
Qed.

#[export] Instance DemoWireLaws : WireLaws.
Proof.
  split; unfold DemoWire; cbn [eth_checked eth_is_ipv4 ip_checked ip_header_len ip_payload_len ip_is_tcp ip_src ip_dst ip_set_src ip_set_dst
    ip_fill_checksum tcp_checked tcp_src_port tcp_dst_port tcp_syn tcp_ack tcp_set_src_port tcp_set_dst_port tcp_fill_checksum].
  - done.
  - intros h x y Hl. unfold get16. by rewrite !byte_at_app by lia.
  - intros p [H1%Nat.leb_le H2%Nat.leb_le]%andb_prop. lia.
  - intros h r Hl. unfold d_pl, d_hl, get32, get16. by rewrite !byte_at_app by lia.
  - intros h h' r r' Hl E1 E2 E3 E4. assert (A : forall h r : list Z, (20 <= length h)%nat -> d_hl (h ++ r) = d_hl h /\ d_pl (h ++ r) = d_pl h).
    { intros h0 r0 H0'. unfold d_pl, d_hl, get16. by rewrite !byte_at_app by lia. }
    destruct (A h r Hl) as [-> ->], (A h' r') as [-> ->]; [lia|]. rewrite !length_app. by rewrite E1, E2, E3, E4.
  - intros a h Hl Ha. split; [apply length_set32|]. rewrite !get32_set32 by (done || lia). by split; [|split; [|apply set32_header; auto]].
  - intros a h Hl Ha. split; [apply length_set32|]. rewrite !get32_set32 by (done || lia). by split; [|split; [|apply set32_header; auto]].
  - done.
  - intros p t. repeat split; apply get32_range || apply get16_range.
  - intros p n t Hc%Nat.leb_le Hp. destruct (set16_segment 0 p n t) as (A & B & C & D & E); [by left|done..|].
    rewrite E. repeat split; try done. apply D; lia.
  - intros p n t Hc%Nat.leb_le Hp. destruct (set16_segment 2 p n t) as (A & B & C & D & E); [by right|done..|].
    rewrite E. repeat split; try done. apply D; lia.
  - done.
Qed.

(** A netstack of sockets that never close, each with its two streams. *)
Record DemoSock := mkDemoSock { ds_in : list Z; ds_taken : list Z; ds_sent : list Z; ds_room : nat }.
Record DemoStack := mkDemoStack { ds_next : nat; ds_socks : list DemoSock }.
Definition ds_get (s : DemoStack) (h : nat) : DemoSock := default (mkDemoSock [] [] [] 0) (ds_socks s !! h).
Definition ds_set (s : DemoStack) (h : nat) (f : DemoSock -> DemoSock) : DemoStack := mkDemoStack (ds_next s) (alter f h (ds_socks s)).

#[export] Instance DemoStack_Stack : Stack DemoStack := {|
  sk_poll _ s _ := (s, [], []);
  sk_listen s _ := Some (mkDemoStack (Datatypes.S (ds_next s)) (ds_socks s ++ [mkDemoSock [] [] [] (Z.to_nat 65536)]), ds_next s);
  sk_connect s _ _ := None;
  sk_closed _ _ := false;
  sk_remove s _ := s;
  sk_can_recv s h := negb (bool_decide (ds_in (ds_get s h) = []));
  sk_recv_data s h := ds_in (ds_get s h);
  sk_consume s h n := ds_set s h (fun k => mkDemoSock (drop n (ds_in k)) (ds_taken k ++ take n (ds_in k)) (ds_sent k) (ds_room k));
  sk_can_send s h := (0 <? ds_room (ds_get s h))%nat;
  sk_send_slice s h d := ds_set s h (fun k => mkDemoSock (ds_in k) (ds_taken k) (ds_sent k ++ take (ds_room k) d) (ds_room k - length d));
  sk_close s _ := s;
  sk_abort s _ := s;
  sk_dns_recv _ := None;
  sk_dns_send s _ _ := s
|}.

Lemma ds_get_set s h f : ds_get (ds_set s h f) h = match ds_socks s !! h with Some k => f k | None => mkDemoSock [] [] [] 0 end.
Proof. unfold ds_get, ds_set. cbn. rewrite list_lookup_alter_eq. by destruct (ds_socks s !! h). Qed.

#[export] Program Instance DemoStackLaws : StackLaws DemoStack := {|
  sk_taken s h := ds_taken (ds_get s h);
  sk_sent s h := ds_sent (ds_get s h);
  sk_room s h := ds_room (ds_get s h);
  sk_dns_queued _ := O
|}.
Next Obligation. intros s h n. cbn. rewrite ds_get_set. unfold ds_get. destruct (ds_socks s !! h); cbn; by rewrite ?take_nil. Qed.
Next Obligation. intros s h d. cbn. rewrite ds_get_set. unfold ds_get. destruct (ds_socks s !! h); cbn; by rewrite ?take_nil. Qed.
Next Obligation. done. Qed.
Next Obligation. unfold DNS_SLOTS. lia. Qed.
Next Obligation. done. Qed.

(** ** Concrete frames *)

Definition demo_frame (src dst sport dport : list Z) (flags : Z) : list Z :=
  replicate 12 0 ++ [8; 0] ++ [0x45; 0; 0; 40; 0; 0; 0; 0; 64; 6; 0; 0] ++ src ++ dst ++
  sport ++ dport ++ [0; 0; 0; 1; 0; 0; 0; 0; 0x50; flags; 4; 0; 0; 0; 0; 0].

(** The guest's SYN from port 50000 to 1.2.3.4:80, and the answer to it. *)
Definition demo_syn : list Z := demo_frame [10; 0; 0; 2] [1; 2; 3; 4] [195; 80] [0; 80] 2.
Definition demo_reply : list Z := demo_frame [10; 0; 0; 1] [10; 0; 0; 2] [156; 65] [195; 80] 18.
Definition demo_env : Env :=
  mkEnv 0 (fun _ => Connected) (fun _ => Some 100%nat) (fun _ => ReadOk [1; 2; 3; 4; 5]) (fun _ => true) (fun _ => DnsWait).
Definition demo_net : SmoltcpBackend (S := DemoStack) :=
  us_send false demo_env (SmoltcpBackend_new (mkDemoStack 0 []) false) demo_syn.

Lemma demo_net_run : us_run false 1 demo_net.
Proof.
  exact (us_sends false 0 demo_env (SmoltcpBackend_new (mkDemoStack 0 []) false) demo_syn (us_new false (mkDemoStack 0 []) false)).
Qed.

Lemma usernet_policy_witness :
  (forall ip p, (ip, p) ∈ dialed demo_net -> fits 32 ip -> ~ forbidden false ip) /\
  (forall f, f ∈ flows demo_net -> fits 32 (ext_ip f) /\ (ext_ip f, ext_port f) ∈ dialed demo_net) /\
  NoDup (map (fun f => (guest_port f, ext_ip f, ext_port f)) (flows demo_net)) /\
  (length (flows demo_net) <= MAX_FLOWS)%nat /\ (length (pending_dns demo_net) <= MAX_PENDING_DNS)%nat.
Proof. exact (usernet_policy false 1 demo_net demo_net_run). Defined.

Lemma nat_roundtrip_witness :
  tcp_tuple (dnat_in demo_net demo_syn) = Some (mkTuple GUEST GATEWAY 50000 40001 true false) /\
  tcp_tuple (dnat_out demo_net demo_reply) = Some (mkTuple 0x01020304 GUEST 80 50000 true true).
Proof.
  assert (Hf : default (mkFlow 0 0 0 0 0 None false false) (flows demo_net !! 0%nat) ∈ flows demo_net) by (vm_compute; left).
  destruct (nat_roundtrip false 1 demo_net _ demo_syn demo_reply (mkTuple GUEST 0x01020304 50000 80 true false)
    (mkTuple GATEWAY GUEST 40001 50000 true true) demo_net_run ltac:(lia) Hf
    ltac:(vm_compute; reflexivity) ltac:(vm_compute; reflexivity) ltac:(vm_compute; reflexivity) ltac:(vm_compute; reflexivity)
    ltac:(vm_compute; reflexivity) ltac:(vm_compute; reflexivity) ltac:(vm_compute; reflexivity) ltac:(vm_compute; reflexivity))
    as (A & B & _).
  split; [etransitivity; [exact A|vm_compute; reflexivity]|exact B].
Defined.

(** Five bytes read, room for three. *)
Lemma bridge_streams_witness :
  let s := mkDemoStack 1 [mkDemoSock [7; 8] [] [] 3] in
  let '(s', c', _) := bridge demo_env s 0 (mkHost [] []) false in
  h_read c' = [1; 2; 3; 4; 5] /\ ds_sent (ds_get s' 0) = [1; 2; 3] /\
  exists up down, h_written c' = [] ++ up /\ sk_taken s' 0 = sk_taken s 0 ++ up /\
    h_read c' = [] ++ down /\ sk_sent s' 0 = sk_sent s 0 ++ take (sk_room s 0) down /\
    (sk_sent s' 0 = sk_sent s 0 ++ down <-> (length down <= sk_room s 0)%nat).
Proof.
  cbv zeta. destruct (bridge _ _ _ _ _) as [[s' c'] d'] eqn:E. pose proof (bridge_streams demo_env _ s' 0 (mkHost [] []) c' d' false E) as T.
  vm_compute in E. injection E as <- <- <-. split; [reflexivity|]. split; [reflexivity|exact T].
Defined.

Lemma dns_drained_witness :
  sk_dns_queued (fst (dns_out demo_env (Datatypes.S DNS_SLOTS) (mkDemoStack 0 []) [] O)) = O.
Proof. exact (dns_drained demo_env (mkDemoStack 0 []) []). Defined.

