(* ===== verification/Daemon.v ===== *)
(** * Daemon: amberd's registry, budget and warm pool (crates/amber/src/daemon.rs,
    with the manifest lookups of crates/amber/src/manifest.rs)

    The registry and the pool are shared by one thread per connection and one
    per worker; every access is one section under a lock. The operations below
    are those sections and the handlers built from them, in one state; what
    the host answers (a spawn, a file creation, a socket) is an argument. The
    interleaving of the sections of many threads is the step relation at the
    end. Decimal ids come from [pretty], sums of [u64] wrap. *)

From stdpp Require Import pretty.
From S2P Require Import Prelude Proto.

(** ** Manifest *)

(** [t_env] lists the map's bindings in its iteration order. *)
Record Template := mkTemplate {
  t_image : string;
  t_ram_cap : option string;
  t_disk_bps : option string;
  t_net_bps : option string;
  t_disks : list string;
  t_env : list (string * string);
  t_vcpus : option Z
}.
Record Manifest := mkManifest {
  fleet_ram_budget : option string;
  fleet_pool_size : option Z;
  m_template : gmap string Template
}.

Definition DEFAULT_MEM_BYTES : Z := 512 * 1024 * 1024.

Section Budget.
(** [manifest::parse_size] works in [f64]; only its results are used. *)
Variable parse_size : string -> option Z.

Definition vm_ram_bytes (m : option Manifest) (target : string) : Z :=
  default DEFAULT_MEM_BYTES
    (m ← m; t ← m_template m !! target; c ← t_ram_cap t; parse_size c).

Definition ram_budget (m : option Manifest) : option Z :=
  m ← m; b ← fleet_ram_budget m; parse_size b.
End Budget.

Definition pool_target (m : option Manifest) : Z := Z.max (default 1 (m ← m; fleet_pool_size m)) 1.

(** ** State *)

(** amberd's end of a control channel: whether the worker still holds the
    other end, and the bytes sent so far. *)
Record Chan := mkChan { ch_open : bool; ch_sent : list Z }.

Record VmEntry := mkEntry {
  e_info : VmInfo;
  e_control : option Chan;
  e_stdout : bool;
  e_stdin : bool;
  e_vsock : option string
}.

(** [killed] holds the ids whose kill flag (the [Arc] the supervisor
    watches, which outlives the entry) is set; the pool lists its templates
    in the map's iteration order. *)
Record Daemon := mkDaemon {
  reg : gmap string VmEntry;
  counter : N;
  pool : list (string * list string);
  killed : gset string
}.

Definition Daemon_new : Daemon := mkDaemon ∅ 0 [] ∅.

Definition set_reg (d : Daemon) (g : gmap string VmEntry) : Daemon := mkDaemon g (counter d) (pool d) (killed d).
Definition set_pool (d : Daemon) (p : list (string * list string)) : Daemon := mkDaemon (reg d) (counter d) p (killed d).
Definition set_kill (d : Daemon) (id : string) : Daemon :=
  mkDaemon (reg d) (counter d) (pool d) ({[id]} ∪ killed d).
Definition reg_remove (d : Daemon) (id : string) : Daemon := set_reg d (delete id (reg d)).

(** [g.values().map(|e| e.info.ram_bytes).sum()]. *)
Definition entry_ram (e : VmEntry) : Z := vi_ram_bytes (e_info e).
Definition ram_total (g : gmap string VmEntry) : Z := map_fold (fun _ e acc => entry_ram e + acc) 0 g.
Definition ram_used (g : gmap string VmEntry) : Z := u64 (ram_total g).

(** ** Admission *)

Definition vm_id (n : N) : string := "vm" +:+ pretty n.

Definition new_entry (id reference : string) (now requested : Z) : VmEntry :=
  mkEntry (mkVmInfo id reference 0 now requested 0 false) None false false None.

Definition reserve (d : Daemon) (budget : option Z) (requested : Z) (reference : string) (now : Z)
    : Daemon * (string + Z * Z * Z) :=
  let used := ram_used (reg d) in
  if (match budget with Some b => b <? wadd64 used requested | None => false end)
  then (d, inr (default 0 budget, used, requested))
  else
    let n := (counter d + 1)%N in
    let id := vm_id n in
    (mkDaemon (<[id := new_entry id reference now requested]> (reg d)) n (pool d) (killed d), inl id).

(** [v.pop()]. *)
Definition vec_pop (v : list string) : list string * option string :=
  (take (length v - 1) v, list.last v).

(** [p.values_mut().find_map(|v| v.pop())]. *)
Fixpoint pool_pop_any (p : list (string * list string)) : list (string * list string) * option string :=
  match p with
  | [] => ([], None)
  | (t, v) :: p' =>
      match vec_pop v with
      | (v', Some id) => ((t, v') :: p', Some id)
      | (_, None) => let '(p'', o) := pool_pop_any p' in ((t, v) :: p'', o)
      end
  end.

(** [pool.get_mut(&template).and_then(|v| v.pop())]. *)
Fixpoint pool_pop (template : string) (p : list (string * list string))
    : list (string * list string) * option string :=
  match p with
  | [] => ([], None)
  | (t, v) :: p' =>
      if String.eqb t template then let '(v', o) := vec_pop v in ((t, v') :: p', o)
      else let '(p'', o) := pool_pop template p' in ((t, v) :: p'', o)
  end.

(** [pool.entry(template).or_default().push(id)]. *)
Fixpoint pool_push (template id : string) (p : list (string * list string)) : list (string * list string) :=
  match p with
  | [] => [(template, [id])]
  | (t, v) :: p' =>
      if String.eqb t template then (t, v ++ [id]) :: p' else (t, v) :: pool_push template id p'
  end.

(** [v.retain(|x| x != id)] on the template's list. *)
Fixpoint pool_retain (template id : string) (p : list (string * list string)) : list (string * list string) :=
  match p with
  | [] => []
  | (t, v) :: p' =>
      if String.eqb t template then (t, filter (fun x => x <> id) v) :: p'
      else (t, v) :: pool_retain template id p'
  end.

Definition pool_len (template : string) (p : list (string * list string)) : Z :=
  zlen (default [] (snd <$> List.find (fun '(t, _) => String.eqb t template) p)).

Definition pooled (p : list (string * list string)) : list string := concat (map snd p).

(** The registry half of an eviction. *)
Definition evict_entry (d : Daemon) (id : string) : Daemon :=
  match reg d !! id with Some _ => set_kill (reg_remove d id) id | None => d end.

Definition evict_one_pooled (d : Daemon) : Daemon * bool :=
  match pool_pop_any (pool d) with
  | (p, Some id) => (evict_entry (set_pool d p) id, true)
  | (p, None) => (set_pool d p, false)
  end.

(** The loop of [reserve_with_evict]; every turn that goes on takes one id
    out of the pool. *)
Fixpoint reserve_with_evict_loop (fuel : nat) (d : Daemon) (budget : option Z) (requested : Z)
    (reference : string) (now : Z) : option (Daemon * (string + Z * Z * Z)) :=
  match fuel with
  | O => None
  | S fuel' =>
      match reserve d budget requested reference now with
      | (d', inl id) => Some (d', inl id)
      | (d', inr e) =>
          let '(d'', evicted) := evict_one_pooled d' in
          if evicted then reserve_with_evict_loop fuel' d'' budget requested reference now
          else Some (d'', inr e)
      end
  end.

Definition reserve_with_evict (d : Daemon) := reserve_with_evict_loop (S (length (pooled (pool d)))) d.

Definition upd_entry (d : Daemon) (id : string) (f : VmEntry -> VmEntry) : Daemon :=
  set_reg d (alter f id (reg d)).

Definition set_pid (pid : Z) (e : VmEntry) : VmEntry :=
  let i := e_info e in
  mkEntry (mkVmInfo (vi_id i) (vi_reference i) pid (vi_started i) (vi_ram_bytes i) (vi_rss_bytes i) (vi_paused i))
    (e_control e) (e_stdout e) (e_stdin e) (e_vsock e).
Definition set_paused (p : bool) (e : VmEntry) : VmEntry :=
  let i := e_info e in
  mkEntry (mkVmInfo (vi_id i) (vi_reference i) (vi_pid i) (vi_started i) (vi_ram_bytes i) (vi_rss_bytes i) p)
    (e_control e) (e_stdout e) (e_stdin e) (e_vsock e).
Definition set_control (c : Chan) (e : VmEntry) : VmEntry :=
  mkEntry (e_info e) (Some c) (e_stdout e) (e_stdin e) (e_vsock e).

Definition set_runtime (d : Daemon) (id : string) (pid : Z) (control : Chan) : Daemon :=
  upd_entry d id (fun e => set_control control (set_pid pid e)).

(** ** Spawning workers *)

(** How the host answers the calls a spawn makes, in order. *)
Record SpawnEnv := mkSpawnEnv {
  se_dir : bool;
  se_log : bool;
  se_exe : bool;
  se_control : bool;
  se_child : option Z;
  se_ready : bool
}.

Inductive SpawnErr := SBudget | SIo | SWarm.

(** The error's text in a reply; an I/O error's own text is the host's. *)
Definition spawn_msg (e : SpawnErr) : string :=
  match e with SBudget => "RAM budget exceeded" | SWarm => "worker failed to warm" | SIo => "I/O error" end.

(** [fork_vsock_base]. *)
Definition fork_vsock_base (tmp : string) (pid : N) (id : string) : string :=
  tmp +:+ "/amber-fork-" +:+ pretty pid +:+ "-" +:+ id +:+ ".sock".

(** The ready worker's entry: control channel, console pipes, vsock base. *)
Definition warm_entry (pid : Z) (base : string) (e : VmEntry) : VmEntry :=
  let e' := set_pid pid e in mkEntry (e_info e') (Some (mkChan true [])) true true (Some base).

Definition spawn_paused (d : Daemon) (budget : option Z) (requested : Z) (template : string) (now : Z)
    (base_of : string -> string) (vsock : option string) (env : SpawnEnv) : Daemon * (string + SpawnErr) :=
  match reserve d budget requested template now with
  | (d1, inr _) => (d1, inr SBudget)
  | (d1, inl id) =>
      if negb (se_dir env) then (d1, inr SIo)
      else if negb (se_log env) then (d1, inr SIo)
      else if negb (se_exe env) then (d1, inr SIo)
      else
        let base := match vsock with Some v => v | None => base_of id end in
        if negb (se_control env) then (reg_remove d1 id, inr SIo)
        else
          match se_child env with
          | None => (reg_remove d1 id, inr SIo)
          | Some pid =>
              let d2 := upd_entry d1 id (set_pid pid) in
              if negb (se_ready env) then (reg_remove d2 id, inr SWarm)
              else (upd_entry d2 id (warm_entry pid base), inl id)
          end
  end.

(** [start_detached] up to its reply ([run_one_shot] makes the same calls
    without the log file). *)
Definition start_detached (d : Daemon) (budget : option Z) (requested : Z) (reference : string) (now : Z)
    (env : SpawnEnv) : option (Daemon * (Reply + SpawnErr)) :=
  match reserve_with_evict d budget requested reference now with
  | None => None
  | Some (d1, inr (b, used, req)) => Some (d1, inl (RBudgetExceeded b used req))
  | Some (d1, inl id) => Some (
      if negb (se_dir env) then (d1, inr SIo)
      else if negb (se_log env) then (d1, inr SIo)
      else if negb (se_exe env) then (d1, inr SIo)
      else if negb (se_control env) then (reg_remove d1 id, inr SIo)
      else
        match se_child env with
        | None => (reg_remove d1 id, inr SIo)
        | Some pid => (set_runtime d1 id pid (mkChan true []), inl (RStarted id None))
        end)
  end.

(** The supervisor thread of a pooled worker, once the child is reaped. *)
Definition worker_exit (d : Daemon) (template id : string) : Daemon :=
  let d1 := reg_remove d id in set_pool d1 (pool_retain template id (pool d1)).

(** ** Control channel *)

Definition chan_write (c : Chan) (bs : list Z) : Chan * bool :=
  if ch_open c then (mkChan true (ch_sent c ++ bs), true) else (c, false).

Definition release (d : Daemon) (id : string) : Daemon * bool :=
  match e ← reg d !! id; e_control e with
  | Some ctl =>
      let '(ctl', ok) := chan_write ctl [1] in (upd_entry d id (set_control ctl'), ok)
  | None => (d, false)
  end.

Definition control_op (d : Daemon) (id : string) (frame : list Z) (paused : option bool) : Daemon * Reply :=
  match reg d !! id with
  | None => (d, RError ("no such vm: " +:+ id))
  | Some e =>
      match e_control e with
      | None => (d, RError ("vm " +:+ id +:+ " has no control channel"))
      | Some ctl =>
          let '(ctl', ok) := chan_write ctl frame in
          if ok then
            (upd_entry d id (fun e =>
               let e' := set_control ctl' e in match paused with Some p => set_paused p e' | None => e' end), ROk)
          else (d, RError "control write")
      end
  end.

(** The frames of Balloon, Pause and Resume in [handle]. *)
Definition balloon_frame (mib : Z) : list Z := [1] ++ le_bytes 8 mib.
Definition pause_frame : list Z := [2].
Definition resume_frame : list Z := [3].

(** The requests [handle] answers from the registry alone. *)
Definition handle_request (d : Daemon) (rss : Z -> Z) (budget : option Z) (machine : Z) (req : Request)
    : option (Daemon * Reply) :=
  match req with
  | ListVms =>
      Some (d, RVms (map (fun p => let i := e_info (snd p) in
        mkVmInfo (vi_id i) (vi_reference i) (vi_pid i) (vi_started i) (vi_ram_bytes i) (rss (vi_pid i)) (vi_paused i))
        (map_to_list (reg d))))
  | Budget =>
      Some (d, RBudget (default 0 budget) (ram_used (reg d))
        (u64 (foldr Z.add 0 (map (fun p => rss (vi_pid (e_info (snd p)))) (map_to_list (reg d))))) machine)
  | Balloon id mib => Some (control_op d id (balloon_frame mib) None)
  | Pause id => Some (control_op d id pause_frame (Some true))
  | Resume id => Some (control_op d id resume_frame (Some false))
  | Kill id =>
      Some (match reg d !! id with
            | Some _ => (set_kill d id, ROk)
            | None => (d, RError ("no such vm: " +:+ id)) end)
  | _ => None
  end.

(** ** Forking *)

Inductive ForkOutcome := FReply (r : Reply) | FRelay (id : string) (stdout stdin : bool).

Definition take_pipes (e : VmEntry) : VmEntry := mkEntry (e_info e) (e_control e) false false (e_vsock e).

(** [handle_fork] up to the relay; the refill it starts runs on its own. *)
Definition handle_fork (d : Daemon) (budget : option Z) (requested : Z) (template : string) (interactive : bool)
    (now : Z) (base_of : string -> string) (env : SpawnEnv) : Daemon * ForkOutcome :=
  let '(p, o) := pool_pop template (pool d) in
  let '(d1, r) :=
    match o with
    | Some id => (set_pool d p, inl id)
    | None => spawn_paused (set_pool d p) budget requested template now base_of None env
    end in
  match r with
  | inr e => (d1, FReply (RError (spawn_msg e)))
  | inl id =>
      let '(out, inp) := match reg d1 !! id with Some e => (e_stdout e, e_stdin e) | None => (false, false) end in
      let d2 := upd_entry d1 id take_pipes in
      let '(d3, ok) := release d2 id in
      if ok then
        (d3, if interactive then FRelay id out inp
             else FReply (RStarted id (e ← reg d3 !! id; e_vsock e)))
      else (d3, FReply (RError ("failed to release " +:+ id)))
  end.

(** [refill_pool]: stage workers until the target or the first failure;
    [envs] are the host's answers to the successive spawns. *)
Fixpoint refill_pool (d : Daemon) (budget : option Z) (requested target : Z) (template : string) (now : Z)
    (base_of : string -> string) (envs : list SpawnEnv) : Daemon :=
  match envs with
  | [] => d
  | env :: envs' =>
      if pool_len template (pool d) <? target then
        match spawn_paused d budget requested template now base_of None env with
        | (d', inl rid) =>
            refill_pool (set_pool d' (pool_push template rid (pool d'))) budget requested target template now base_of envs'
        | (d', inr _) => d'
        end
      else d
  end.

(** ** Supervision *)

(** One poll of a supervised child: exited with a code (or by a signal),
    still running, or unknown. *)
Inductive Wait := WExited (code : option Z) | WRunning | WErr.

(** [supervise] over the polls it makes, each with the two flags as it then
    reads them: the result and whether it killed the child. *)
Fixpoint supervise (polls : list (Wait * bool * bool)) : option (Z * bool) :=
  match polls with
  | [] => None
  | (w, kill, gone) :: polls' =>
      match w with
      | WExited code => Some (default (-1) code, false)
      | WErr => Some (-1, false)
      | WRunning => if kill || gone then Some (-1, true) else supervise polls'
      end
  end.

(** ** Many threads

    The locked sections as steps of one shared state. A worker's id is, at
    any time, with the thread that spawns it, in the pool, with the handler
    that took it, with an evictor, or released. [cap] bounds what one
    template may ask for. *)
Record World := mkWorld {
  w_d : Daemon;
  w_spawning : list string;
  w_held : list string;
  w_evicting : list string;
  w_released : list string
}.

Definition World_new : World := mkWorld Daemon_new [] [] [] [].

Inductive world_step (budget : option Z) (cap : Z) : World -> World -> Prop :=
(** a cold VM's admission *)
| ws_reserve d sp h ev re requested reference now d' id :
    reserve d budget requested reference now = (d', inl id) -> 0 <= requested <= cap ->
    world_step budget cap (mkWorld d sp h ev re) (mkWorld d' sp h ev re)
(** a paused worker's admission *)
| ws_spawn d sp h ev re requested reference now d' id :
    reserve d budget requested reference now = (d', inl id) -> 0 <= requested <= cap ->
    world_step budget cap (mkWorld d sp h ev re) (mkWorld d' (id :: sp) h ev re)
(** an exec draws its socket's number from the same counter *)
| ws_count d sp h ev re :
    world_step budget cap (mkWorld d sp h ev re)
      (mkWorld (mkDaemon (reg d) (counter d + 1)%N (pool d) (killed d)) sp h ev re)
(** the pid, control channel, pipes or paused flag of an entry *)
| ws_runtime d sp h ev re id f :
    (forall e, entry_ram (f e) = entry_ram e) ->
    world_step budget cap (mkWorld d sp h ev re) (mkWorld (upd_entry d id f) sp h ev re)
(** an entry removed: a failed spawn or a reaped child *)
| ws_remove d sp h ev re id :
    world_step budget cap (mkWorld d sp h ev re) (mkWorld (reg_remove d id) sp h ev re)
| ws_retain d sp h ev re template id :
    world_step budget cap (mkWorld d sp h ev re) (mkWorld (set_pool d (pool_retain template id (pool d))) sp h ev re)
| ws_kill d sp h ev re id : world_step budget cap (mkWorld d sp h ev re) (mkWorld (set_kill d id) sp h ev re)
(** [spawn_paused] returns its worker, or gives up on it *)
| ws_ready d sp1 sp2 h ev re id :
    world_step budget cap (mkWorld d (sp1 ++ id :: sp2) h ev re) (mkWorld d (sp1 ++ sp2) (id :: h) ev re)
| ws_failed d sp1 sp2 h ev re id :
    world_step budget cap (mkWorld d (sp1 ++ id :: sp2) h ev re) (mkWorld d (sp1 ++ sp2) h ev re)
(** the pool's three sections *)
| ws_push d sp h1 h2 ev re template id :
    world_step budget cap (mkWorld d sp (h1 ++ id :: h2) ev re)
      (mkWorld (set_pool d (pool_push template id (pool d))) sp (h1 ++ h2) ev re)
| ws_pop d sp h ev re template p id :
    pool_pop template (pool d) = (p, Some id) ->
    world_step budget cap (mkWorld d sp h ev re) (mkWorld (set_pool d p) sp (id :: h) ev re)
| ws_evict_pop d sp h ev re p id :
    pool_pop_any (pool d) = (p, Some id) ->
    world_step budget cap (mkWorld d sp h ev re) (mkWorld (set_pool d p) sp h (id :: ev) re)
| ws_evict_entry d sp h ev1 ev2 re id :
    world_step budget cap (mkWorld d sp h (ev1 ++ id :: ev2) re) (mkWorld (evict_entry d id) sp h (ev1 ++ id :: ev2) re)
(** a fork or an exec releases the worker it took *)
| ws_release d sp h1 h2 ev re id :
    world_step budget cap (mkWorld d sp (h1 ++ id :: h2) ev re)
      (mkWorld (fst (release d id)) sp (h1 ++ h2) ev (id :: re)).

(** ** Lemmas *)

Lemma vm_id_inj n m : vm_id n = vm_id m -> n = m.
Proof. unfold vm_id. intros Hv. simplify_eq/=. done. Qed.

Lemma ram_total_insert g id e : g !! id = None -> ram_total (<[id := e]> g) = entry_ram e + ram_total g.
Proof. intros Hg. unfold ram_total. rewrite map_fold_insert_L; [done|intros; lia|done]. Qed.

Lemma ram_total_delete g id e : g !! id = Some e -> ram_total g = entry_ram e + ram_total (delete id g).
Proof. intros Hg. unfold ram_total. rewrite (map_fold_delete_L _ _ id e); [done|intros; lia|done]. Qed.

Lemma ram_total_alter g id f :
  (forall e, entry_ram (f e) = entry_ram e) -> ram_total (alter f id g) = ram_total g.
Proof.
  intros Hf. destruct (g !! id) as [e|] eqn:Hg.
  - rewrite (ram_total_delete g id e Hg).
    rewrite (ram_total_delete (alter f id g) id (f e)) by (by rewrite lookup_alter_eq, Hg).
    by rewrite Hf, delete_alter_eq.
  - f_equal. apply map_eq. intros j. destruct (decide (j = id)) as [->|Hne].
    + by rewrite lookup_alter_eq, Hg.
    + by rewrite lookup_alter_ne.
Qed.

(** Every registered id was minted by the counter, and no entry's charge is
    negative. *)
Definition minted (d : Daemon) (id : string) : Prop := exists n, (1 <= n <= counter d)%N /\ id = vm_id n.
Definition reg_ok (d : Daemon) : Prop :=
  forall id e, reg d !! id = Some e -> minted d id /\ 0 <= entry_ram e.

Lemma fresh_id d : reg_ok d -> reg d !! vm_id (counter d + 1) = None.
Proof.
  intros Hok. destruct (reg d !! _) as [e|] eqn:Hr; [|done].
  destruct (Hok _ _ Hr) as [(n & Hn & Hv) _]. apply vm_id_inj in Hv. lia.
Qed.

Lemma ram_total_nonneg g : (forall id e, g !! id = Some e -> 0 <= entry_ram e) -> 0 <= ram_total g.
Proof.
  induction g as [|id e g Hg IH] using map_ind; intros Hp; [done|].
  rewrite ram_total_insert by done. pose proof (Hp id e (lookup_insert_eq _ _ _)).
  enough (0 <= ram_total g) by lia. apply IH. intros j x Hj. apply (Hp j). rewrite lookup_insert_ne; [done|congruence].
Qed.

(** *** The pool *)

Lemma vec_pop_Some v v' id : vec_pop v = (v', Some id) -> v = v' ++ [id].
Proof.
  unfold vec_pop. intros [= <- Hl]. apply last_Some in Hl as [l ->].
  rewrite length_app. simpl. rewrite take_app_le by lia. by rewrite firstn_all2 by lia.
Qed.
Lemma vec_pop_None v v' : vec_pop v = (v', None) -> v = [].
Proof. unfold vec_pop. intros [= _ Hl]. by apply last_None in Hl. Qed.

Lemma pool_pop_any_Some p p' id : pool_pop_any p = (p', Some id) -> pooled p ≡ₚ id :: pooled p'.
Proof.
  revert p'. induction p as [|[t v] p IH]; intros p'; cbn [pool_pop_any pool_pop]; [done|].
  destruct (vec_pop v) as [v' [x|]] eqn:Hv.
  - intros [= <- ->]. apply vec_pop_Some in Hv as ->. unfold pooled. cbn [map concat snd].
    rewrite <- app_assoc. cbn. symmetry. apply Permutation_middle.
  - apply vec_pop_None in Hv as ->. destruct (pool_pop_any p) as [p'' o]. intros [= <- ->].
    exact (IH p'' eq_refl).
Qed.
Lemma pool_pop_any_None p p' : pool_pop_any p = (p', None) -> pooled p = [] /\ p' = p.
Proof.
  revert p'. induction p as [|[t v] p IH]; intros p'; cbn [pool_pop_any]; [by intros [= <-]|].
  destruct (vec_pop v) as [v' [x|]] eqn:Hv; [done|]. apply vec_pop_None in Hv as ->.
  destruct (pool_pop_any p) as [p'' o]. intros [= <- ->]. destruct (IH p'' eq_refl) as [E ->]. done.
Qed.

Lemma pool_pop_Some t p p' id : pool_pop t p = (p', Some id) -> pooled p ≡ₚ id :: pooled p'.
Proof.
  revert p'. induction p as [|[t' v] p IH]; intros p'; cbn [pool_pop_any pool_pop]; [done|].
  destruct (String.eqb t' t).
  - destruct (vec_pop v) as [v' o] eqn:Hv. intros [= <- ->]. apply vec_pop_Some in Hv as ->.
    unfold pooled. cbn [map concat snd]. rewrite <- app_assoc. cbn. symmetry. apply Permutation_middle.
  - destruct (pool_pop t p) as [p'' o]. intros [= <- ->]. unfold pooled in *. cbn [map concat snd].
    rewrite (IH p'' eq_refl). symmetry. apply Permutation_middle.
Qed.

Lemma pool_push_perm t id p : pooled (pool_push t id p) ≡ₚ id :: pooled p.
Proof.
  induction p as [|[t' v] p IH]; simpl; [done|]. unfold pooled in *. destruct (String.eqb t' t); cbn [map concat snd].
  - rewrite <- app_assoc. symmetry. apply Permutation_middle.
  - rewrite IH. symmetry. apply Permutation_middle.
Qed.

Lemma pool_retain_sublist t id p : sublist (pooled (pool_retain t id p)) (pooled p).
Proof.
  induction p as [|[t' v] p IH]; simpl; [done|]. unfold pooled in *. destruct (String.eqb t' t); cbn [map concat snd].
  - apply sublist_app; [apply sublist_filter|done].
  - by apply sublist_app.
Qed.

(** *** Admission *)

Lemma reserve_Ok d budget requested reference now d' id :
  reserve d budget requested reference now = (d', inl id) ->
  id = vm_id (counter d + 1) /\ counter d' = (counter d + 1)%N /\ pool d' = pool d /\ killed d' = killed d /\
  reg d' = <[id := new_entry id reference now requested]> (reg d) /\
  forall b, budget = Some b -> wadd64 (ram_used (reg d)) requested <= b.
Proof.
  unfold reserve. destruct (match budget with Some b => _ | None => false end) eqn:Hb; [done|].
  intros [= <- <-]. repeat split. intros b ->. by apply Z.ltb_ge in Hb.
Qed.

Lemma reserve_Err d budget requested reference now d' b used req :
  reserve d budget requested reference now = (d', inr (b, used, req)) ->
  d' = d /\ budget = Some b /\ used = ram_used (reg d) /\ req = requested /\ b < wadd64 used requested.
Proof.
  unfold reserve. destruct (match budget with Some b => _ | None => false end) eqn:Hb; [|done].
  destruct budget as [b0|]; [|done]. intros [= <- <- <- <-]. apply Z.ltb_lt in Hb. done.
Qed.

Lemma minted_mono d d' id : (counter d <= counter d')%N -> minted d id -> minted d' id.
Proof. intros Hc (n & Hn & ->). exists n. split; [lia|done]. Qed.

Lemma reg_ok_mono d d' :
  reg_ok d -> (counter d <= counter d')%N -> (forall id e, reg d' !! id = Some e ->
    exists e0, reg d !! id = Some e0 /\ entry_ram e = entry_ram e0) -> reg_ok d'.
Proof.
  intros Hok Hc Hs id e He. destruct (Hs id e He) as (e0 & He0 & ->). destruct (Hok id e0 He0) as [Hm Hr].
  split; [by eapply minted_mono|done].
Qed.

Lemma reserve_ok d budget requested reference now d' id :
  reg_ok d -> 0 <= requested -> reserve d budget requested reference now = (d', inl id) ->
  reg_ok d' /\ reg d !! id = None /\ ram_total (reg d') = requested + ram_total (reg d) /\ minted d' id /\ ~ minted d id.
Proof.
  intros Hok Hr Hres. destruct (reserve_Ok _ _ _ _ _ _ _ Hres) as (-> & Hc & _ & _ & Hg & _).
  pose proof (fresh_id d Hok) as Hf. assert (Hm : minted d' (vm_id (counter d + 1))) by (exists (counter d + 1)%N; split; [lia|done]).
  split; [|split; [done|split; [by rewrite Hg, ram_total_insert|split; [done|]]]].
  - intros id e. rewrite Hg. destruct (decide (id = vm_id (counter d + 1))) as [->|Hne].
    + rewrite lookup_insert_eq. intros [= <-]. done.
    + rewrite lookup_insert_ne by done. intros He. destruct (Hok id e He) as [Hmi ?].
      split; [eapply minted_mono; [|done]; lia|done].
  - intros (n & Hn & Hv). apply vm_id_inj in Hv. lia.
Qed.

Lemma upd_entry_ok d id f :
  reg_ok d -> (forall e, entry_ram (f e) = entry_ram e) ->
  reg_ok (upd_entry d id f) /\ ram_total (reg (upd_entry d id f)) = ram_total (reg d).
Proof.
  intros Hok Hf. split; [|by apply ram_total_alter].
  apply (reg_ok_mono d); [done|done|]. intros j e. cbn. destruct (decide (j = id)) as [->|Hne].
  - rewrite lookup_alter_eq. destruct (reg d !! id) as [e0|]; [|done]. intros [= <-]. eauto.
  - rewrite lookup_alter_ne by done. eauto.
Qed.

Lemma reg_remove_ok d id :
  reg_ok d -> reg_ok (reg_remove d id) /\ ram_total (reg (reg_remove d id)) <= ram_total (reg d).
Proof.
  intros Hok. split.
  - apply (reg_ok_mono d); [done|done|]. intros j e. cbn. rewrite lookup_delete_Some. intros [_ He]. eauto.
  - cbn. destruct (reg d !! id) as [e|] eqn:He; [|by rewrite delete_id].
    rewrite (ram_total_delete _ _ _ He). destruct (Hok _ _ He). lia.
Qed.

Lemma evict_entry_ok d id :
  reg_ok d -> reg_ok (evict_entry d id) /\ ram_total (reg (evict_entry d id)) <= ram_total (reg d) /\
  counter (evict_entry d id) = counter d /\ pool (evict_entry d id) = pool d.
Proof.
  intros Hok. unfold evict_entry. destruct (reg d !! id); [|done].
  destruct (reg_remove_ok d id Hok). done.
Qed.

Lemma release_ok d id :
  reg_ok d -> reg_ok (fst (release d id)) /\ ram_total (reg (fst (release d id))) = ram_total (reg d) /\
  counter (fst (release d id)) = counter d /\ pool (fst (release d id)) = pool d.
Proof.
  intros Hok. unfold release. destruct (_ ≫= _) as [ctl|]; [|done].
  destruct (chan_write ctl [1]) as [ctl' ok]. cbn [fst].
  by destruct (upd_entry_ok d id (set_control ctl') Hok ltac:(done)).
Qed.

(** *** The invariant of the shared state *)

Definition workers (w : World) : list string :=
  w_spawning w ++ w_held w ++ w_evicting w ++ w_released w ++ pooled (pool (w_d w)).

Record world_ok (budget : option Z) (w : World) : Prop := {
  wk_reg : reg_ok (w_d w);
  wk_budget : forall b, budget = Some b -> ram_total (reg (w_d w)) <= b;
  wk_nodup : NoDup (workers w);
  wk_minted : Forall (minted (w_d w)) (workers w)
}.

(** A step that moves ids around, drops some, or changes entries. *)
Lemma world_ok_move budget w w' :
  world_ok budget w -> reg_ok (w_d w') -> ram_total (reg (w_d w')) <= ram_total (reg (w_d w)) ->
  (counter (w_d w) <= counter (w_d w'))%N -> submseteq (workers w') (workers w) -> world_ok budget w'.
Proof.
  intros [Hr Hb Hn Hm] Hr' Ht Hc Hs. split; [done| | |].
  - intros b Hbb. specialize (Hb b Hbb). lia.
  - apply submseteq_Permutation in Hs as [k Hk]. rewrite Hk in Hn. by apply NoDup_app in Hn as [? _].
  - apply submseteq_Permutation in Hs as [k Hk]. rewrite Hk in Hm. apply Forall_app in Hm as [Hm _].
    eapply Forall_impl; [exact Hm|]. intros id. by apply minted_mono.
Qed.

Ltac perm_move :=
  unfold workers; cbn [w_d w_spawning w_held w_evicting w_released set_pool set_reg reg_remove upd_entry pool].

Lemma world_step_ok budget cap w w' :
  0 <= cap -> (forall b, budget = Some b -> b + cap < 2 ^ 64) ->
  world_ok budget w -> world_step budget cap w w' -> world_ok budget w'.
Proof.
  intros Hcap Hsmall Hok Hst. pose proof Hok as [Hr Hb Hn Hm].
  assert (Hadm : forall d requested reference now d' id, w_d w = d -> 0 <= requested <= cap ->
    reserve d budget requested reference now = (d', inl id) ->
    forall b, budget = Some b -> ram_total (reg d') <= b).
  { intros d requested reference now d' id <- Hreq Hres b Hbb.
    destruct (reserve_ok _ _ _ _ _ _ _ Hr (proj1 Hreq) Hres) as (_ & _ & -> & _).
    destruct (reserve_Ok _ _ _ _ _ _ _ Hres) as (_ & _ & _ & _ & _ & Hle). specialize (Hle b Hbb).
    assert (Hnn : 0 <= ram_total (reg (w_d w))) by (apply ram_total_nonneg; intros j e He; by destruct (Hr j e He)).
    specialize (Hb b Hbb). specialize (Hsmall b Hbb).
    unfold ram_used, wadd64 in Hle. rewrite (u64_id (ram_total _)) in Hle by lia. rewrite u64_id in Hle by lia. lia. }
  destruct Hst as [d sp h ev re requested reference now d' id Hres Hreq|d sp h ev re requested reference now d' id Hres Hreq
    |d sp h ev re|d sp h ev re id f Hf|d sp h ev re id|d sp h ev re t id|d sp h ev re id|d sp1 sp2 h ev re id|d sp1 sp2 h ev re id
    |d sp h1 h2 ev re t id|d sp h ev re t p id Hp|d sp h ev re p id Hp|d sp h ev1 ev2 re id|d sp h1 h2 ev re id];
    cbn [w_d] in *.
  - destruct (reserve_ok _ _ _ _ _ _ _ Hr (proj1 Hreq) Hres) as (Hr' & _ & _ & _ & _).
    destruct (reserve_Ok _ _ _ _ _ _ _ Hres) as (_ & Hc & Hpl & _).
    split; cbn [w_d]; [done|by eapply Hadm| |]; unfold workers in *; cbn [w_d w_spawning w_held w_evicting w_released] in *; rewrite Hpl; [done|].
    eapply Forall_impl; [exact Hm|]. intros j. apply minted_mono. lia.
  - destruct (reserve_ok _ _ _ _ _ _ _ Hr (proj1 Hreq) Hres) as (Hr' & _ & _ & Hmi & Hnm).
    destruct (reserve_Ok _ _ _ _ _ _ _ Hres) as (_ & Hc & Hpl & _).
    split; cbn [w_d]; [done|by eapply Hadm| |]; unfold workers in *; cbn [w_d w_spawning w_held w_evicting w_released app] in *; rewrite Hpl.
    + constructor; [|done]. intros Hin. rewrite Forall_forall in Hm. by apply Hnm, Hm.
    + constructor; [done|]. eapply Forall_impl; [exact Hm|]. intros j. apply minted_mono. lia.
  - apply (world_ok_move budget _ _ Hok); cbn; [|done|lia|done].
    apply (reg_ok_mono d); [done|cbn; lia|eauto].
  - destruct (upd_entry_ok d id f Hr Hf) as [Hr' Ht].
    apply (world_ok_move budget _ _ Hok); cbn [w_d]; [done|lia|done|done].
  - destruct (reg_remove_ok d id Hr) as [Hr' Ht]. by apply (world_ok_move budget _ _ Hok).
  - apply (world_ok_move budget _ _ Hok); cbn; [done|done|done|].
    perm_move. do 4 apply submseteq_skips_l. apply sublist_submseteq, pool_retain_sublist.
  - by apply (world_ok_move budget _ _ Hok).
  - apply (world_ok_move budget _ _ Hok); cbn; [done|done|done|]. perm_move. apply Permutation_submseteq.
    solve_Permutation.
  - apply (world_ok_move budget _ _ Hok); cbn; [done|done|done|]. perm_move.
    rewrite <- !app_assoc. apply submseteq_skips_l. cbn. by apply submseteq_cons.
  - apply (world_ok_move budget _ _ Hok); cbn; [done|done|done|]. perm_move. apply Permutation_submseteq.
    rewrite (pool_push_perm t id (pool d)). solve_Permutation.
  - apply (world_ok_move budget _ _ Hok); cbn; [done|done|done|]. perm_move. apply Permutation_submseteq.
    rewrite (pool_pop_Some _ _ _ _ Hp). solve_Permutation.
  - apply (world_ok_move budget _ _ Hok); cbn; [done|done|done|]. perm_move. apply Permutation_submseteq.
    rewrite (pool_pop_any_Some _ _ _ Hp). solve_Permutation.
  - destruct (evict_entry_ok d id Hr) as (Hr' & Ht & Hc & Hpl).
    apply (world_ok_move budget _ _ Hok); cbn [w_d]; [done|done|by rewrite Hc|]. perm_move. by rewrite Hpl.
  - destruct (release_ok d id Hr) as (Hr' & Ht & Hc & Hpl).
    apply (world_ok_move budget _ _ Hok); cbn [w_d]; [done|lia|by rewrite Hc|]. perm_move. rewrite Hpl.
    apply Permutation_submseteq. solve_Permutation.
Qed.

Lemma new_reg_ok : reg_ok Daemon_new.
Proof. intros id e He. unfold Daemon_new in He. cbn [reg] in He. rewrite lookup_empty in He. done. Qed.

Lemma world_reach budget cap w :
  0 <= cap -> (forall b, budget = Some b -> 0 <= b /\ b + cap < 2 ^ 64) ->
  rtc (world_step budget cap) World_new w -> world_ok budget w.
Proof.
  intros Hcap Hb.
  assert (H0 : world_ok budget World_new).
  { split; [exact new_reg_ok| |constructor|constructor]. intros b Hbb. cbn. by destruct (Hb b Hbb). }
  revert H0. generalize World_new as w0. intros w0 H0 Hr. revert H0.
  induction Hr as [|w0 w1 w2 Hs _ IH]; intros H0; [done|].
  apply IH. eapply world_step_ok; [done| |exact H0|exact Hs]. intros b Hbb. by destruct (Hb b Hbb).
Qed.

Lemma evict_one_pooled_spec d :
  let '(d', evicted) := evict_one_pooled d in
  counter d' = counter d /\
  if evicted then length (pooled (pool d)) = S (length (pooled (pool d')))
  else d' = d /\ pooled (pool d) = [].
Proof.
  unfold evict_one_pooled. destruct (pool_pop_any (pool d)) as [p [id|]] eqn:Hp.
  - apply pool_pop_any_Some in Hp. apply Permutation_length in Hp. cbn [length] in Hp.
    unfold evict_entry. destruct (reg (set_pool d p) !! id); (split; [done|exact Hp]).
  - apply pool_pop_any_None in Hp as [He ->]. split; [done|]. split; [by destruct d|done].
Qed.

Definition evict_n (k : nat) (d : Daemon) : Daemon := Nat.iter k (fun d => fst (evict_one_pooled d)) d.

Lemma evict_n_S k d : evict_n (S k) d = evict_n k (fst (evict_one_pooled d)).
Proof. unfold evict_n. by rewrite Nat.iter_succ_r. Qed.

(** ** Properties *)

(** C3: the budget is never overcommitted. Starting from an empty registry,
    however the locked sections of all connections and supervisors interleave
    (admissions, spawns and their failures, warm-pool refills, forks, evictions,
    exits), the RAM charged to registered VMs stays within a fixed budget, as
    long as budget and largest request together fit 64 bits; and every entry
    sits under an id the counter issued. *)
Theorem budget_never_exceeded (b cap : Z) (w : World) :
  0 <= b -> 0 <= cap -> b + cap < 2 ^ 64 ->
  rtc (world_step (Some b) cap) World_new w ->
  0 <= ram_total (reg (w_d w)) <= b /\ ram_used (reg (w_d w)) = ram_total (reg (w_d w)) /\
  forall id e, reg (w_d w) !! id = Some e -> exists n, (1 <= n <= counter (w_d w))%N /\ id = vm_id n.
Proof.
  intros Hb Hcap Hs Hr.
  destruct (world_reach (Some b) cap w Hcap) as [Hok Hbud _ _]; [by intros ? [= <-]|done|].
  assert (Hnn : 0 <= ram_total (reg (w_d w))) by (apply ram_total_nonneg; intros j e He; by destruct (Hok j e He)).
  specialize (Hbud b eq_refl). split; [lia|]. split; [apply u64_id; lia|]. intros id e He. by destruct (Hok id e He).
Qed.

(** C4: a warm worker is handed out once. In every reachable state each worker
    id is in at most one place (being spawned, in the pool, taken by one
    handler, being evicted, released), so no fork gets a worker that another
    fork has, or one that is being evicted to free budget. *)
Theorem worker_exclusive (budget : option Z) (cap : Z) (w : World) :
  0 <= cap -> (forall b, budget = Some b -> 0 <= b /\ b + cap < 2 ^ 64) ->
  rtc (world_step budget cap) World_new w ->
  NoDup (w_spawning w ++ w_held w ++ w_evicting w ++ w_released w ++ pooled (pool (w_d w))) /\
  forall template p id, pool_pop template (pool (w_d w)) = (p, Some id) ->
    (id ∉ w_held w) /\ (id ∉ w_evicting w) /\ (id ∉ w_released w) /\ (id ∉ pooled p).
Proof.
  intros Hcap Hb Hr. destruct (world_reach budget cap w Hcap Hb Hr) as [_ _ Hn _].
  split; [exact Hn|]. intros t p id Hp. apply pool_pop_Some in Hp. unfold workers in Hn. rewrite Hp in Hn.
  assert (Hperm : (w_spawning w ++ w_held w ++ w_evicting w ++ w_released w ++ (id :: pooled p))
    ≡ₚ id :: (w_spawning w ++ w_held w ++ w_evicting w ++ w_released w ++ pooled p)) by solve_Permutation.
  rewrite Hperm in Hn. apply NoDup_cons in Hn as [Hnot _]. rewrite !elem_of_app in Hnot. tauto.
Qed.

(** one admission. Within the budget a request gets a fresh id, is charged
    its RAM, and overwrites no entry; otherwise the refusal reports the
    budget, the RAM in use and the request, and nothing changes. *)
Theorem reserve_admission d budget requested reference now :
  reg_ok d -> 0 <= requested ->
  match reserve d budget requested reference now with
  | (d', inl id) =>
      (forall b, budget = Some b -> wadd64 (ram_used (reg d)) requested <= b) /\
      reg d !! id = None /\ reg d' = <[id := new_entry id reference now requested]> (reg d) /\
      ram_total (reg d') = ram_total (reg d) + requested /\ counter d' = (counter d + 1)%N
  | (d', inr (b, used, req)) =>
      d' = d /\ budget = Some b /\ used = ram_used (reg d) /\ req = requested /\ b < wadd64 used requested
  end.
Proof.
  intros Hok Hreq. destruct (reserve d budget requested reference now) as [d' [id|[[b used] req]]] eqn:Hres.
  - destruct (reserve_ok _ _ _ _ _ _ _ Hok Hreq Hres) as (_ & Hf & Ht & _).
    destruct (reserve_Ok _ _ _ _ _ _ _ Hres) as (_ & Hc & _ & _ & Hg & Hle). repeat split; auto; lia.
  - by apply (reserve_Err _ _ _ _ _ _ _ _ _ Hres).
Qed.


(** what a spawn leaves behind. A warmed worker is registered under a
    fresh id with its pid, channel, pipes and vsock base; a refusal changes
    nothing; a failure of the control socket, the spawn or the warm-up removes
    the reservation again. But a failure to create the log directory, the log
    file or to find the executable returns with the reservation kept: its RAM
    stays charged, under an id no supervisor will ever remove. *)
Theorem spawn_paused_effect d budget requested template now base_of vsock env :
  reg_ok d -> 0 <= requested ->
  match spawn_paused d budget requested template now base_of vsock env with
  | (d', inl id) =>
      exists pid e, reg d !! id = None /\ se_child env = Some pid /\ reg d' !! id = Some e /\ delete id (reg d') = reg d /\
        vi_pid (e_info e) = pid /\ entry_ram e = requested /\ e_control e = Some (mkChan true []) /\
        e_stdout e = true /\ e_stdin e = true /\ e_vsock e = Some (default (base_of id) vsock)
  | (d', inr SBudget) => d' = d
  | (d', inr _) =>
      if se_dir env && se_log env && se_exe env then reg d' = reg d
      else ram_total (reg d') = ram_total (reg d) + requested /\
           exists id, reg d !! id = None /\ reg d' = <[id := new_entry id template now requested]> (reg d)
  end.
Proof.
  intros Hok Hreq. unfold spawn_paused.
  destruct (reserve d budget requested template now) as [d1 [id|[[b used] req]]] eqn:Hres.
  2: by destruct (reserve_Err _ _ _ _ _ _ _ _ _ Hres) as [-> _].
  destruct (reserve_ok _ _ _ _ _ _ _ Hok Hreq Hres) as (_ & Hf & Ht & _).
  destruct (reserve_Ok _ _ _ _ _ _ _ Hres) as (_ & _ & _ & _ & Hg & _).
  assert (Hleak : ram_total (reg d1) = ram_total (reg d) + requested /\
    exists id0, reg d !! id0 = None /\ reg d1 = <[id0 := new_entry id0 template now requested]> (reg d))
    by (split; [lia|eauto]).
  assert (Hdel : delete id (reg d1) = reg d) by (rewrite Hg; by apply delete_insert_id).
  destruct (se_dir env); [|exact Hleak]. destruct (se_log env); [|exact Hleak]. destruct (se_exe env); [|exact Hleak].
  cbn [negb andb]. cbv zeta. destruct (se_control env); [|exact Hdel].
  destruct (se_child env) as [pid|]; [|exact Hdel]. cbn [negb]. destruct (se_ready env); cbn [negb].
  - exists pid. eexists. split; [done|]. split; [done|]. cbn [reg upd_entry set_reg].
    split; [rewrite !lookup_alter_eq, Hg, lookup_insert_eq; reflexivity|].
    rewrite !delete_alter_eq. split; [exact Hdel|]. cbn. by destruct vsock.
  - cbn [reg reg_remove upd_entry set_reg]. by rewrite delete_alter_eq.
Qed.

(** a control operation reaches exactly the VM it names: on a live channel
    the frame's bytes follow those already sent, and the paused flag follows
    pause and resume; with no such VM, no channel, or a dead worker the reply
    is an error and no entry changes. *)
Theorem control_op_effect d id frame paused :
  let '(d', r) := control_op d id frame paused in
  (forall j, j <> id -> reg d' !! j = reg d !! j) /\ counter d' = counter d /\ pool d' = pool d /\
  match e ← reg d !! id; e_control e with
  | Some (mkChan true sent) =>
      r = ROk /\ exists e e', reg d !! id = Some e /\ reg d' !! id = Some e' /\
        e_control e' = Some (mkChan true (sent ++ frame)) /\ entry_ram e' = entry_ram e /\
        vi_paused (e_info e') = default (vi_paused (e_info e)) paused
  | _ => d' = d /\ exists m, r = RError m
  end.
Proof.
  unfold control_op. destruct (reg d !! id) as [e|] eqn:He; cbn [mbind option_bind]; [|by repeat split; eauto].
  destruct (e_control e) as [[open sent]|] eqn:Hc; [|by repeat split; eauto].
  unfold chan_write. cbn [ch_open ch_sent]. destruct open; [|by repeat split; eauto].
  split; [intros j Hj; cbn; by rewrite lookup_alter_ne|]. split; [done|]. split; [done|]. split; [done|].
  exists e. eexists. split; [done|]. split; [cbn; by rewrite lookup_alter_eq, He|]. by destruct paused.
Qed.

(** supervision stops at the first decisive poll: the child's own exit
    wins over a pending kill, a kill or a departed client is acted on at the
    first poll that finds the child running, and only then is the child
    killed; with no such poll it keeps watching. *)
Theorem supervise_spec (before : list (Wait * bool * bool)) (w : Wait) (kill gone : bool) (after : list (Wait * bool * bool)) :
  Forall (fun p => p = (WRunning, false, false)) before ->
  supervise before = None /\
  supervise (before ++ (w, kill, gone) :: after) =
    match w with
    | WExited (Some code) => Some (code, false)
    | WExited None => Some (-1, false)
    | WErr => Some (-1, false)
    | WRunning => if kill || gone then Some (-1, true) else supervise after
    end.
Proof.
  intros Hb. induction Hb as [|p before -> Hb [I1 I2]]; [|by split].
  split; [done|]. cbn. by destruct w as [[code|]| |].
Qed.

(** ** Witnesses *)

Definition demo_daemon : Daemon := fst (reserve Daemon_new (Some 1024) 512 "web" 0).
Definition good_env : SpawnEnv := mkSpawnEnv true true true true (Some 42) true.
Definition no_log_env : SpawnEnv := mkSpawnEnv true false true true (Some 42) true.

(** Two pooled workers under a budget of three. *)
Definition demo_pool : Daemon :=
  refill_pool Daemon_new (Some 1536) 512 2 "web" 0 (fork_vsock_base "/tmp" 7) [good_env; good_env; good_env].

Lemma demo_run : rtc (world_step (Some 1024) 512) World_new (mkWorld demo_daemon ["vm1"] [] [] []).
Proof.
  apply rtc_once. refine (ws_spawn _ _ _ _ _ _ _ 512 "web" 0 _ "vm1" _ _); [vm_compute; reflexivity|lia].
Qed.

Lemma budget_never_exceeded_witness : ram_total (reg demo_daemon) <= 1024 /\ ram_total (reg demo_daemon) = 512.
Proof.
  split; [|vm_compute; reflexivity].
  apply (budget_never_exceeded 1024 512 (mkWorld demo_daemon ["vm1"] [] [] []) ltac:(lia) ltac:(lia) ltac:(lia) demo_run).
Defined.

Lemma worker_exclusive_witness : NoDup ["vm1"].
Proof.
  refine (proj1 (worker_exclusive (Some 1024) 512 (mkWorld demo_daemon ["vm1"] [] [] []) ltac:(lia) _ demo_run)).
  intros b [= <-]. lia.
Defined.

Lemma reserve_admission_witness : reg demo_daemon = <["vm1" := new_entry "vm1" "web" 0 512]> ∅ /\ counter demo_daemon = 1%N.
Proof.
  pose proof (reserve_admission Daemon_new (Some 1024) 512 "web" 0 new_reg_ok ltac:(lia)) as Hr.
  change (reserve Daemon_new (Some 1024) 512 "web" 0) with (demo_daemon, @inl string (Z * Z * Z) "vm1") in Hr.
  destruct Hr as (_ & _ & Hg & _ & Hc). split; [exact Hg|exact Hc].
Defined.

Lemma spawn_paused_effect_witness :
  ram_total (reg (fst (spawn_paused Daemon_new (Some 1024) 512 "web" 0 (fun id => id) None no_log_env))) = 512.
Proof.
  pose proof (spawn_paused_effect Daemon_new (Some 1024) 512 "web" 0 (fun id => id) None no_log_env new_reg_ok ltac:(lia)) as Hs.
  assert (E : snd (spawn_paused Daemon_new (Some 1024) 512 "web" 0 (fun id => id) None no_log_env) = inr SIo)
    by (vm_compute; reflexivity).
  destruct (spawn_paused _ _ _ _ _ _ _ _) as [d' r]. cbn [snd] in E. subst r. exact (proj1 Hs).
Defined.

Lemma supervise_spec_witness :
  supervise [(WRunning, false, false); (WExited (Some 3), true, false)] = Some (3, false).
Proof. apply (supervise_spec [(WRunning, false, false)] (WExited (Some 3)) true false []). by repeat constructor. Defined.
