(* ===== verification/Exec.v ===== *)
(** * Exec: running a command in a fork (agent/src/main.rs and the exec path of
    crates/amber/src/daemon.rs)

    Three parties on two byte streams: the daemon sends a command and its
    standard input to the in-guest agent; the agent runs it and sends its
    output back in frames, the two pipes interleaved under a lock; the daemon
    relays the frames to the client, which splits them into stdout, stderr and
    an exit code. The command itself is the chunks its pipes deliver. *)

From stdpp Require Import pretty.
From S2P Require Import Prelude Proto.

(** ** 32-bit signed integers on the wire *)

Definition i32_range (x : Z) : Prop := - 2 ^ 31 <= x < 2 ^ 31.
Definition i32_to_le (x : Z) : list Z := le_bytes 4 (u32 x).
Definition i32_from_le (bs : list Z) : Z :=
  let x := of_le_bytes bs in if x <? 2 ^ 31 then x else x - 2 ^ 32.

(** ** The agent *)

(** [read_n]: [n] bytes, or fewer at the end of the stream. *)
Definition read_n (r : Reader) (n : Z) : Reader * list Z :=
  (mkReader (drop (Z.to_nat n) (rd_bytes r)) (rd_broken r), take (Z.to_nat n) (rd_bytes r)).

(** [u32::from_le_bytes(read_n(r, 4).try_into().unwrap_or([0; 4]))]. *)
Definition read_len (r : Reader) : Reader * Z :=
  let '(r', bs) := read_n r 4 in (r', if (length bs =? 4)%nat then of_le_bytes bs else 0).

(** What [main] reads before it spawns the command. *)
Definition agent_read (r : Reader) : list Z * list Z * Reader :=
  let '(r1, clen) := read_len r in
  let '(r2, cmd) := read_n r1 clen in
  let '(r3, ilen) := read_len r2 in
  let '(r4, input) := read_n r3 ilen in
  (cmd, input, r4).

Definition agent_frame (tag : Z) (payload : list Z) : list Z :=
  [tag] ++ le_bytes 4 (u32 (zlen payload)) ++ payload.

Definition PUMP_BUF : Z := 16 * 1024.

(** [pump]: the frames one pipe's chunks become; a chunk is what one
    [read] of the 16 KiB buffer returned. *)
Definition pump_frames (tag : Z) (chunks : list (list Z)) : list (Z * list Z) := map (fun c => (tag, c)) chunks.
Definition chunk_ok (c : list Z) : Prop := 0 < zlen c <= PUMP_BUF.

(** The socket mutex keeps frames whole; their order is any merge of the
    two pumps. *)
Inductive interleave {A} : list A -> list A -> list A -> Prop :=
| il_nil : interleave [] [] []
| il_left x l k m : interleave l k m -> interleave (x :: l) k (x :: m)
| il_right x l k m : interleave l k m -> interleave l (x :: k) (x :: m).

(** The agent's last frame: the exit code, or -1 when it has none. *)
Definition exit_payload (code : option Z) : list Z := i32_to_le (default (-1) code).

(** Everything the agent sends for a command whose output frames came in the
    order [frames]. *)
Definition agent_wire (frames : list (Z * list Z)) (code : option Z) : list Z :=
  concat (map (fun f => agent_frame (fst f) (snd f)) frames) ++ agent_frame 3 (exit_payload code).

(** ** The daemon's relay *)

(** What [exec_relay] sends the agent. *)
Definition exec_send (cmd input : list Z) : list Z :=
  le_bytes 4 (u32 (zlen cmd)) ++ cmd ++ le_bytes 4 (u32 (zlen input)) ++ input.

(** The client side of the relay: bytes written so far and how many more
    frames it takes before it fails. *)
Record Client := mkClient { cl_bytes : list Z; cl_quota : nat }.

Definition client_write (c : Client) (bs : list Z) : Client * bool :=
  match cl_quota c with
  | O => (c, false)
  | S q => (mkClient (cl_bytes c ++ bs) q, true)
  end.

(** One turn of the relay loop: [inl] leaves it with the result. *)
Definition relay_step (s : Reader * Client) : (Client * (Z + IoErr)) + (Reader * Client) :=
  let '(conn, cl) := s in
  let '(r1, hdr) := read_exact_n conn 5 in
  match hdr with
  | inr _ => inl (cl, inl (-1))
  | inl h =>
      let len := of_le_bytes (slice 1 4 h) in
      if MAX_FRAME <? len then inl (cl, inr OtherIo)
      else
        let '(r2, p) := read_exact_n r1 len in
        match p with
        | inr e => inl (cl, inr e)
        | inl payload =>
            let tag := default 0 (h !! 0%nat) in
            if (tag =? 1) || (tag =? 2) then
              let '(cl', ok) := client_write cl
                (write_frame (if tag =? 1 then TAG_STDOUT else TAG_STDERR) payload) in
              if ok then inr (r2, cl') else inl (cl, inr OtherIo)
            else if tag =? 3 then
              inl (cl, inl (if 4 <=? zlen payload then i32_from_le (take 4 payload) else 0))
            else inr (r2, cl)
        end
  end.

(** [exec_relay] after the command is sent. Every turn consumes a header, so
    the bytes of the stream bound the turns. *)
Definition exec_relay (conn : Reader) (cl : Client) : Client * (Z + IoErr) :=
  match iter_nat (S (length (rd_bytes conn))) relay_step (conn, cl) with
  | inl res => res
  | inr (_, cl') => (cl', inl (-1))
  end.

(** The end of [handle_exec]: the terminal reply. *)
Definition exec_reply `{Serde Reply} (res : Client * (Z + IoErr)) : list Z :=
  let '(cl, r) := res in
  cl_bytes cl ++ write_reply (match r with inl code => RExit code | inr _ => RError "exec failed" end).

(** ** The client *)

(** [CEMsg] is [io::Error::other]. *)
Inductive ClientErr := CEIo (e : IoErr) | CEMsg (message : string) | CEJson.

Definition mib (b : Z) : Z := b / (1024 * 1024).
Definition budget_msg (budget used requested : Z) : string :=
  "BudgetExceeded: budget " +:+ pretty (mib budget) +:+ " MiB, in use " +:+ pretty (mib used)
  +:+ " MiB, requested " +:+ pretty (mib requested) +:+ " MiB".

(** One turn of the loop of [exec] (and of [stream_client], which ignores
    stderr): bytes written to stdout and stderr, and the result when it ends. *)
Definition client_step `{Serde Reply} (s : Reader * list Z * list Z)
    : (list Z * list Z * (Z + ClientErr)) + (Reader * list Z * list Z) :=
  let '(r, out, err) := s in
  match read_frame r with
  | (_, inr e) => inl (out, err, inr (CEIo e))
  | (r', inl (Some (tag, bytes))) =>
      if tag =? TAG_STDOUT then inr (r', out ++ bytes, err)
      else if tag =? TAG_STDERR then inr (r', out, err ++ bytes)
      else if tag =? TAG_REPLY then
        inl (out, err,
          match from_slice bytes with
          | None => inr CEJson
          | Some (RExit code) => inl code
          | Some (RError message) => inr (CEMsg message)
          | Some (RBudgetExceeded budget used requested) => inr (CEMsg (budget_msg budget used requested))
          | Some _ => inl 0
          end)
      else inl (out, err, inl 0)
  | (_, inl None) => inl (out, err, inl 0)
  end.

Definition exec_client `{Serde Reply} (r : Reader) : list Z * list Z * (Z + ClientErr) :=
  match iter_nat (S (length (rd_bytes r))) client_step (r, [], []) with
  | inl res => res
  | inr (_, out, err) => (out, err, inl 0)
  end.

(** ** Lemmas *)

Lemma i32_roundtrip x : i32_range x -> i32_from_le (i32_to_le x) = x.
Proof.
  unfold i32_range, i32_from_le, i32_to_le. intros Hx.
  rewrite of_le_bytes_le_bytes_id by (pose proof (u32_range x); lia). unfold u32.
  destruct (Z.leb_spec 0 x).
  - rewrite Z.mod_small by lia. destruct (Z.ltb_spec x (2 ^ 31)); lia.
  - replace (x mod 2 ^ 32) with (x + 2 ^ 32) by (rewrite <- (Z.mod_small (x + 2 ^ 32) (2 ^ 32)) by lia;
      rewrite <- (Z_mod_plus_full x 1 (2 ^ 32)); f_equal; lia).
    destruct (Z.ltb_spec (x + 2 ^ 32) (2 ^ 31)); lia.
Qed.

Lemma read_n_app bs rest br :
  read_n (mkReader (bs ++ rest) br) (zlen bs) = (mkReader rest br, bs).
Proof.
  unfold read_n, zlen. cbn [rd_bytes rd_broken]. by rewrite Nat2Z.id, drop_app_length, take_app_length.
Qed.

Lemma read_len_app n rest br : fits 32 n -> read_len (mkReader (le_bytes 4 n ++ rest) br) = (mkReader rest br, n).
Proof.
  intros Hn. unfold read_len. change 4 with (Z.of_nat 4). rewrite <- (zlen_le_bytes 4 n), read_n_app.
  rewrite length_le_bytes. cbn [Nat.eqb]. by rewrite of_le_bytes_le_bytes_id.
Qed.

(** What one output frame becomes on the client's stream. *)
Definition relayed (f : Z * list Z) : list Z :=
  write_frame (if fst f =? 1 then TAG_STDOUT else TAG_STDERR) (snd f).

Definition out_frame (f : Z * list Z) : Prop := (fst f = 1 \/ fst f = 2) /\ zlen (snd f) <= MAX_FRAME.

Lemma relay_reads tag payload rest br cl :
  zlen payload <= MAX_FRAME ->
  relay_step (mkReader (agent_frame tag payload ++ rest) br, cl) =
    (if (tag =? 1) || (tag =? 2) then
       let '(cl', ok) := client_write cl (write_frame (if tag =? 1 then TAG_STDOUT else TAG_STDERR) payload) in
       if ok then inr (mkReader rest br, cl') else inl (cl, inr OtherIo)
     else if tag =? 3 then inl (cl, inl (if 4 <=? zlen payload then i32_from_le (take 4 payload) else 0))
     else inr (mkReader rest br, cl)).
Proof.
  intros Hl. unfold relay_step, agent_frame. rewrite !app_assoc, <- (app_assoc _ payload).
  pose proof (zlen_nonneg payload) as Hnn.
  rewrite read_exact_app by (by rewrite zlen_app, zlen_le_bytes).
  assert (Hs : slice 1 4 ([tag] ++ le_bytes 4 (u32 (zlen payload))) = le_bytes 4 (u32 (zlen payload))).
  { unfold slice. rewrite (drop_app_length' [tag]) by done. apply take_ge. by rewrite length_le_bytes. }
  rewrite Hs, of_le_bytes_le_bytes_id by apply u32_range.
  rewrite u32_id by (unfold MAX_FRAME in Hl; lia).
  destruct (Z.ltb_spec MAX_FRAME (zlen payload)); [lia|]. by rewrite read_exact_app.
Qed.

Lemma relay_frame f rest br bs q :
  out_frame f ->
  relay_step (mkReader (agent_frame (fst f) (snd f) ++ rest) br, mkClient bs (S q)) =
    inr (mkReader rest br, mkClient (bs ++ relayed f) q).
Proof.
  intros [Ht Hl]. rewrite relay_reads by done. unfold relayed.
  by destruct Ht as [-> | ->].
Qed.

(** The relay of a whole run, whatever follows the exit frame. *)
Lemma relay_run frames payload rest br bs q n :
  Forall out_frame frames -> zlen payload = 4 -> (length frames <= q)%nat -> (length frames < n)%nat ->
  iter_nat n relay_step
    (mkReader (concat (map (fun f => agent_frame (fst f) (snd f)) frames) ++ agent_frame 3 payload ++ rest) br,
     mkClient bs q) =
  inl (mkClient (bs ++ concat (map relayed frames)) (q - length frames), inl (i32_from_le payload)).
Proof.
  intros Hf Hp. revert bs q n. induction Hf as [|f fs Hf _ IH]; intros bs q n Hq Hn; (destruct n as [|n]; [simpl in Hn; lia|]).
  - cbn [iter_nat map concat app]. rewrite relay_reads by (rewrite Hp; unfold MAX_FRAME; lia).
    cbn. rewrite Hp, app_nil_r, Nat.sub_0_r. cbn. by rewrite take_ge by (unfold zlen in Hp; lia).
  - destruct q as [|q]; [simpl in Hq; lia|]. cbn [iter_nat map concat]. rewrite <- app_assoc, relay_frame by done.
    rewrite IH by (simpl in Hq, Hn; lia). by rewrite <- app_assoc.
Qed.

Lemma agent_frames_length (frames : list (Z * list Z)) :
  (5 * length frames <= length (concat (map (fun f => agent_frame (fst f) (snd f)) frames)))%nat.
Proof.
  induction frames as [|f fs IH]; [done|]. cbn [map concat length]. rewrite length_app.
  unfold agent_frame at 1. rewrite !length_app, length_le_bytes. simpl. lia.
Qed.

Lemma relayed_length (frames : list (Z * list Z)) :
  (length frames <= length (concat (map relayed frames)))%nat.
Proof.
  induction frames as [|f fs IH]; [done|]. cbn [map concat length]. rewrite length_app.
  unfold relayed at 1, write_frame. rewrite !length_app. simpl. lia.
Qed.

Lemma interleave_Forall {A} (P : A -> Prop) l k m :
  interleave l k m -> Forall P l -> Forall P k -> Forall P m.
Proof.
  induction 1; intros Hl Hk; [done| |].
  - inversion Hl; subst. constructor; auto.
  - inversion Hk; subst. constructor; auto.
Qed.

(** What the client collects from frames of the two tags. *)
Definition collect (tag : Z) (frames : list (Z * list Z)) : list Z :=
  concat (map (fun f => if fst f =? tag then snd f else []) frames).

Lemma collect_interleave outs errs frames :
  interleave (pump_frames 1 outs) (pump_frames 2 errs) frames ->
  collect 1 frames = concat outs /\ collect 2 frames = concat errs.
Proof.
  intros Hi. remember (pump_frames 1 outs) as l eqn:El. remember (pump_frames 2 errs) as k eqn:Ek.
  revert outs errs El Ek. induction Hi as [|x l k m Hi IH|x l k m Hi IH]; intros outs errs El Ek.
  - by destruct outs, errs.
  - destruct outs as [|c outs]; [done|]. injection El as -> ->. destruct (IH outs errs eq_refl Ek) as [I1 I2].
    unfold collect in *. cbn [map concat]. by rewrite I1, I2.
  - destruct errs as [|c errs]; [done|]. injection Ek as -> ->. destruct (IH outs errs El eq_refl) as [I1 I2].
    unfold collect in *. cbn [map concat]. by rewrite I1, I2.
Qed.

Section Client.
Context `{Serde Reply}.

Lemma client_run frames code rest br out err n :
  Forall out_frame frames -> zlen (to_vec (RExit code)) <= MAX_FRAME ->
  from_slice (to_vec (RExit code)) = Some (RExit code) -> (length frames < n)%nat ->
  iter_nat n client_step
    (mkReader (concat (map relayed frames) ++ write_reply (RExit code) ++ rest) br, out, err) =
  inl (out ++ collect 1 frames, err ++ collect 2 frames, inl code).
Proof.
  intros Hf Hc Hs. revert out err n. induction Hf as [|f fs [Ht Hl] _ IH]; intros out err n Hn;
    (destruct n as [|n]; [simpl in Hn; lia|]); cbn [iter_nat map concat].
  - unfold client_step, write_reply. cbn [app]. rewrite read_frame_written by done. cbn.
    rewrite Hs. unfold collect. cbn. by rewrite !app_nil_r.
  - unfold client_step at 1. unfold relayed at 1. rewrite <- app_assoc, read_frame_written by done.
    unfold collect. cbn [map concat].
    destruct Ht as [E|E]; rewrite E; cbn; rewrite IH by (simpl in Hn; lia); by rewrite <- app_assoc.
Qed.

End Client.

Lemma agent_reads (cmd input rest : list Z) (br : bool) :
  zlen cmd < 2 ^ 32 -> zlen input < 2 ^ 32 ->
  agent_read (mkReader (exec_send cmd input ++ rest) br) = (cmd, input, mkReader rest br).
Proof.
  intros Hc Hi. pose proof (zlen_nonneg cmd). pose proof (zlen_nonneg input).
  unfold agent_read, exec_send. rewrite <- !app_assoc.
  rewrite !(u32_id (zlen _)) by lia.
  rewrite read_len_app by lia. rewrite read_n_app. rewrite read_len_app by lia. by rewrite read_n_app.
Qed.

(** ** Properties *)

(** the command channel: whatever command and standard input the client
    gave (each below 4 GiB, possibly empty, any bytes), the agent reads back
    exactly these two and nothing that follows them on the stream. *)
Theorem exec_command_roundtrip (cmd input rest : list Z) (br : bool) :
  zlen cmd < 2 ^ 32 -> zlen input < 2 ^ 32 ->
  agent_read (mkReader (exec_send cmd input ++ rest) br) = (cmd, input, mkReader rest br).
Proof. apply agent_reads. Qed.

Lemma exec_delivers `{Serde Reply} (outs errs : list (list Z)) (frames : list (Z * list Z))
    (code : option Z) (rest : list Z) (br : bool) (q : nat) :
  from_slice (to_vec (RExit (default (-1) code))) = Some (RExit (default (-1) code)) ->
  i32_range (default (-1) code) -> zlen (to_vec (RExit (default (-1) code))) <= MAX_FRAME ->
  Forall chunk_ok outs -> Forall chunk_ok errs ->
  interleave (pump_frames 1 outs) (pump_frames 2 errs) frames -> (length frames <= q)%nat ->
  exec_client (mkReader (exec_reply (exec_relay (mkReader (agent_wire frames code ++ rest) br) (mkClient [] q))) false)
  = (concat outs, concat errs, inl (default (-1) code)).
Proof.
  intros Hserde Hrng Hmax Ho He Hi Hq.
  assert (Hf : Forall out_frame frames).
  { assert (G : forall t chunks, t = 1 \/ t = 2 -> Forall chunk_ok chunks -> Forall out_frame (pump_frames t chunks)).
    { intros t chunks Ht Hc. apply Forall_map. eapply Forall_impl; [exact Hc|]. intros c [_ Hl].
      split; [exact Ht|]. unfold PUMP_BUF, MAX_FRAME in *. cbn [snd]. lia. }
    eapply interleave_Forall; [exact Hi|apply G; auto|apply G; auto]. }
  unfold exec_relay, agent_wire. rewrite <- app_assoc. rewrite relay_run; [|done|done|done|].
  2: { cbn [rd_bytes]. rewrite length_app. pose proof (agent_frames_length frames). lia. }
  unfold exit_payload. rewrite i32_roundtrip by done.
  unfold exec_reply, exec_client. cbn [cl_bytes app].
  pose proof (client_run frames (default (-1) code) [] false [] []
    (S (length (concat (map relayed frames) ++ write_reply (RExit (default (-1) code))))) Hf Hmax Hserde) as Hc.
  rewrite app_nil_r in Hc. cbn [rd_bytes]. rewrite Hc.
  - destruct (collect_interleave outs errs frames Hi) as [-> ->]. done.
  - rewrite length_app. pose proof (relayed_length frames). lia.
Qed.

(** C8: exec end to end: a command whose pipes deliver the chunks [outs] and
    [errs] (whatever order the two pumps took the socket in) and that exits
    with [code] makes the client write exactly the command's stdout bytes to
    stdout, its stderr bytes to stderr, and return its exit code (-1 when a
    signal ended it); no output byte can be mistaken for control data. *)
Theorem exec_end_to_end `{Serde Reply} (outs errs : list (list Z)) (frames : list (Z * list Z))
    (code : option Z) (rest : list Z) (br : bool) (q : nat) :
  from_slice (to_vec (RExit (default (-1) code))) = Some (RExit (default (-1) code)) ->
  i32_range (default (-1) code) -> zlen (to_vec (RExit (default (-1) code))) <= MAX_FRAME ->
  Forall chunk_ok outs -> Forall chunk_ok errs ->
  interleave (pump_frames 1 outs) (pump_frames 2 errs) frames -> (length frames <= q)%nat ->
  exec_client (mkReader (exec_reply (exec_relay (mkReader (agent_wire frames code ++ rest) br) (mkClient [] q))) false)
  = (concat outs, concat errs, inl (default (-1) code)).
Proof. apply exec_delivers. Qed.

Lemma agent_frame_length tag payload : (5 <= length (agent_frame tag payload))%nat.
Proof. unfold agent_frame. rewrite !length_app, length_le_bytes. simpl. lia. Qed.

Lemma relay_cut tag payload k br cl :
  zlen payload <= MAX_FRAME -> (k < length (agent_frame tag payload))%nat ->
  exists r, relay_step (mkReader (take k (agent_frame tag payload)) br, cl) = inl (cl, r) /\
    (r = inl (-1) \/ exists e, r = inr e).
Proof.
  intros Hl Hk. unfold agent_frame in *. rewrite app_assoc in *.
  set (h := [tag] ++ le_bytes 4 (u32 (zlen payload))) in *.
  assert (Hh : length h = 5%nat) by (unfold h; rewrite length_app, length_le_bytes; done).
  assert (Hs : slice 1 4 h = le_bytes 4 (u32 (zlen payload))).
  { unfold h, slice. rewrite (drop_app_length' [tag]) by done. apply take_ge. by rewrite length_le_bytes. }
  rewrite length_app, Hh in Hk. pose proof (zlen_nonneg payload).
  unfold relay_step. destruct (decide (k < 5)%nat) as [Hk5|Hk5].
  - rewrite read_exact_short; [eauto|]. cbn [rd_bytes]. unfold zlen.
    rewrite length_take, length_app, Hh. lia.
  - rewrite take_app, (take_ge h), Hh by lia.
    rewrite read_exact_app by (unfold zlen; rewrite Hh; done).
    rewrite Hs, of_le_bytes_le_bytes_id by apply u32_range. rewrite u32_id by (unfold MAX_FRAME in Hl; lia).
    destruct (Z.ltb_spec MAX_FRAME (zlen payload)); [lia|].
    rewrite read_exact_short; [eauto|]. cbn [rd_bytes]. unfold zlen. rewrite length_take. lia.
Qed.

(** an agent that disappears in mid-run neither hangs the relay nor gets
    part of a frame through: cut anywhere before the end of its exit frame,
    the agent's stream makes [exec_relay] return -1 or an error, with exactly
    a prefix of the whole frames passed on. *)
Theorem relay_truncated (frames : list (Z * list Z)) (code : option Z) (k q : nat) (br : bool) :
  Forall out_frame frames -> (length frames <= q)%nat ->
  (k < length (agent_wire frames code))%nat ->
  let '(cl, r) := exec_relay (mkReader (take k (agent_wire frames code)) br) (mkClient [] q) in
  (exists whole, whole `prefix_of` frames /\ cl_bytes cl = concat (map relayed whole)) /\
  (r = inl (-1) \/ exists e, r = inr e).
Proof.
  intros Hf Hq Hk.
  enough (G : forall bs n, (length (take k (agent_wire frames code)) < n)%nat ->
    exists whole r q', whole `prefix_of` frames /\
      iter_nat n relay_step (mkReader (take k (agent_wire frames code)) br, mkClient bs q) =
        inl (mkClient (bs ++ concat (map relayed whole)) q', r) /\ (r = inl (-1) \/ exists e, r = inr e)).
  { unfold exec_relay. cbn [rd_bytes].
    destruct (G [] (S (length (take k (agent_wire frames code))))) as (w & r & q' & Hw & -> & Hr); [lia|]. eauto. }
  revert k q Hq Hk. induction Hf as [|f fs Hf _ IH]; intros k q Hq Hk bs n Hn; (destruct n as [|n]; [lia|]).
  - unfold agent_wire in *. cbn [map concat app] in *.
    destruct (relay_cut 3 (exit_payload code) k br (mkClient bs q)) as (r & Hr & Hc); [done|done|].
    exists [], r, q. cbn [iter_nat]. rewrite Hr. cbn [map concat]. by rewrite app_nil_r.
  - destruct q as [|q]; [simpl in Hq; lia|].
    assert (Hw : agent_wire (f :: fs) code = agent_frame (fst f) (snd f) ++ agent_wire fs code).
    { unfold agent_wire. cbn [map concat]. by rewrite app_assoc. }
    rewrite Hw in *. rewrite length_app in Hk.
    destruct (decide (k < length (agent_frame (fst f) (snd f)))%nat) as [Hlt|Hge].
    + destruct (relay_cut (fst f) (snd f) k br (mkClient bs (S q)) (proj2 Hf) Hlt) as (r & Hr & Hc).
      exists [], r, (S q). cbn [iter_nat]. rewrite take_app_le by lia. rewrite Hr. cbn [map concat].
      rewrite app_nil_r. split; [apply prefix_nil|done].
    + rewrite take_app_ge in Hn |- * by lia. cbn [iter_nat]. rewrite relay_frame by done.
      rewrite length_app in Hn.
      destruct (IH (k - length (agent_frame (fst f) (snd f)))%nat q ltac:(simpl in Hq; lia) ltac:(lia)
        (bs ++ relayed f) n) as (w & r & q' & Hp & Hi & Hc).
      { pose proof (agent_frame_length (fst f) (snd f)). lia. }
      exists (f :: w), r, q'. rewrite Hi. cbn [map concat]. rewrite <- app_assoc.
      split; [by apply prefix_cons|done].
Qed.

(** ** Witnesses *)

(** A toy encoding of replies: a tag, then the code. *)
#[export] Instance toy_serde : Serde Reply := {|
  to_vec r := match r with RExit c => 0 :: [c] | _ => [1] end;
  from_slice bs := match bs with [0; c] => Some (RExit c) | _ => None end
|}.

Lemma exec_end_to_end_witness :
  exec_client (mkReader (exec_reply (exec_relay (mkReader
    (agent_wire [(2, [33]); (1, [104; 105]); (1, [10])] (Some 3)) false) (mkClient [] 3))) false)
  = ([104; 105; 10], [33], inl 3).
Proof.
  rewrite <- (app_nil_r (agent_wire _ _)).
  apply (exec_end_to_end [[104; 105]; [10]] [[33]] [(2, [33]); (1, [104; 105]); (1, [10])] (Some 3) [] false 3).
  - reflexivity.
  - unfold i32_range. simpl. lia.
  - vm_compute. discriminate.
  - repeat constructor; vm_compute; try discriminate; reflexivity.
  - repeat constructor; vm_compute; try discriminate; reflexivity.
  - simpl. repeat constructor.
  - simpl. lia.
Defined.

Lemma exec_command_roundtrip_witness :
  agent_read (mkReader (exec_send [108; 115] [0; 255] ++ [7]) false) = ([108; 115], [0; 255], mkReader [7] false).
Proof. apply (exec_command_roundtrip [108; 115] [0; 255] [7] false); reflexivity. Defined.

Lemma relay_truncated_witness :
  snd (exec_relay (mkReader (take 9 (agent_wire [(1, [104; 105])] (Some 0))) false) (mkClient [] 1)) = inl (-1).
Proof.
  pose proof (relay_truncated [(1, [104; 105])] (Some 0) 9 1 false) as Hr.
  assert (E : exec_relay (mkReader (take 9 (agent_wire [(1, [104; 105])] (Some 0))) false) (mkClient [] 1) =
    (mkClient (relayed (1, [104; 105])) 0, inl (-1))) by (vm_compute; reflexivity).
  rewrite E in *. destruct Hr as [_ [Hr|[e He]]]; [|simpl; lia|vm_compute; lia|exact Hr|discriminate He].
  repeat constructor. vm_compute. discriminate.
Defined.
