(* ===== verification/Serve.v ===== *)
(** * Serve: a connection to amberd (crates/amber/src/daemon.rs: authorized,
    handle, run_one_shot, relay_interactive, handle_exec, stream_logs)

    What one connection does around the registry operations of [Daemon]:
    the peer check and the request frame, the relays between a client and a
    VM's console, the exec handler, logs. A pipe or a socket is the results
    of its reads; a client takes a number of frames and then fails
    ([Exec.Client]).

    [handle_guarded]: who can change anything; [interactive_exact] and
    [silent_guest_orphaned]: the console relay; [one_shot_loses_output]: the
    other one, which replies while its relay still runs; [logs_limited]. *)

From S2P Require Import Prelude Proto Daemon Exec.

(** ** The request *)

Inductive Handled :=
| HClosed | HIo | HReply (r : Reply)
| HFork (template : string) (interactive : bool) | HExec (template cmd : string)
| HRun (reference : string) (argv : list string) | HDetached (reference : string) (argv : list string)
| HLogs (id : string)
| HShutdown (kills : list Z) (unlinked : list string).

(** [getpeereid] or [SO_PEERCRED]; [None] is a failed call. *)
Definition authorized (peer : option Z) (euid : Z) : bool :=
  match peer with Some uid => uid =? euid | None => false end.

(** Every VM's pid but those not spawned yet, and every vsock path. *)
Definition shutdown_kills (d : Daemon) : list Z :=
  omap (fun p => let pid := vi_pid (e_info (snd p)) in if pid =? 0 then None else Some pid) (map_to_list (reg d)).
Definition shutdown_unlinks (d : Daemon) : list string := omap (fun p => e_vsock (snd p)) (map_to_list (reg d)).

Section Serve.
Context `{Serde Request} `{Serde Reply}.

Definition handle (d : Daemon) (peer : option Z) (euid : Z) (rss : Z -> Z) (budget : option Z) (machine : Z) (r : Reader)
    : Daemon * Handled :=
  if negb (authorized peer euid) then (d, HReply (RError "unauthorized"))
  else
    match read_frame r with
    | (_, inr _) => (d, HIo)
    | (_, inl None) => (d, HClosed)
    | (_, inl (Some (tag, payload))) =>
        if negb (tag =? TAG_REQUEST) then (d, HReply (RError "expected a request"))
        else
          match from_slice payload with
          | None => (d, HReply (RError "bad request"))
          | Some req =>
              match req with
              | Fork template interactive => (d, HFork template interactive)
              | Proto.Exec template cmd => (d, HExec template cmd)
              | RunOneShot reference argv => (d, HRun reference argv)
              | RunDetached reference argv => (d, HDetached reference argv)
              | Logs id => (d, HLogs id)
              | Shutdown => (d, HShutdown (shutdown_kills d) (shutdown_unlinks d))
              | _ => match handle_request d rss budget machine req with
                     | Some (d', rep) => (d', HReply rep)
                     | None => (d, HIo)
                     end
              end
          end
    end.

(** ** Console relays *)

(** The child's stdout to the client: [None] is a failed read, an empty chunk
    the end. The client after it and whether it was found gone. *)
Fixpoint relay_out (reads : list (option (list Z))) (cl : Client) : Client * bool :=
  match reads with
  | [] | None :: _ | Some [] :: _ => (cl, false)
  | Some c :: reads' =>
      let '(cl', ok) := client_write cl (write_frame TAG_STDOUT c) in
      if ok then relay_out reads' cl' else (cl, true)
  end.

(** The client's frames to the child's stdin, which takes a number of writes:
    what the child was given and whether the client was found gone. *)
Definition stdin_step (s : Reader * list Z * nat) : (list Z * bool) + (Reader * list Z * nat) :=
  let '(r, given, quota) := s in
  match read_frame r with
  | (r', inl (Some (tag, payload))) =>
      if tag =? TAG_STDIN then
        match quota with O => inl (given, false) | S q => inr (r', given ++ payload, q) end
      else inr (r', given, quota)
  | _ => inl (given, true)
  end.
Definition relay_in (r : Reader) (quota : nat) : list Z * bool :=
  match iter_nat (S (length (rd_bytes r))) stdin_step (r, [], quota) with
  | inl res => res
  | inr (_, given, _) => (given, true)
  end.

(** [relay_interactive]: the reply only after the guest's output has ended.
    [in_gone]: whether the stdin thread had found the client gone by then.
    What the client gets, and whether the worker's kill flag is set. *)
Definition relay_interactive (reads : list (option (list Z))) (cl : Client) (in_gone : bool) : list Z * bool :=
  let '(cl', out_gone) := relay_out reads cl in
  (cl_bytes (fst (client_write cl' (write_reply (RExit 0)))), out_gone || in_gone).

(** The same as events: a chunk the client takes or refuses, the guest's exit,
    the client leaving (which the stdin thread sees), and the main thread's
    join, which waits for the output to end. [rs_out]: the stdout thread is
    still in its loop. *)
Record RelayState := mkRelay { rs_out : bool; rs_gone : bool; rs_joined : bool; rs_killed : bool }.
Inductive RelayEv := GuestOutput (taken : bool) | GuestExit | ClientLeaves | MainJoins.
Definition relay_start : RelayState := mkRelay true false false false.
Definition relay_event (s : RelayState) (e : RelayEv) : option RelayState :=
  match e with
  | GuestOutput taken =>
      if rs_out s then Some (if taken then s else mkRelay false true (rs_joined s) (rs_killed s)) else None
  | GuestExit => if rs_out s then Some (mkRelay false (rs_gone s) (rs_joined s) (rs_killed s)) else None
  | ClientLeaves => Some (mkRelay (rs_out s) true (rs_joined s) (rs_killed s))
  | MainJoins =>
      if rs_out s || rs_joined s then None else Some (mkRelay false (rs_gone s) true (rs_killed s || rs_gone s))
  end.
Fixpoint relay_events (s : RelayState) (es : list RelayEv) : option RelayState :=
  match es with [] => Some s | e :: es' => s' ← relay_event s e; relay_events s' es' end.

(** [handle_fork] as a whole for an interactive client. *)
Definition fork_interactive (d : Daemon) (budget : option Z) (requested : Z) (template : string) (now : Z)
    (base_of : string -> string) (env : SpawnEnv) (reads : list (option (list Z))) (cl : Client) (in_gone : bool)
    : Daemon * list Z :=
  match handle_fork d budget requested template true now base_of env with
  | (d1, FReply r) => (d1, cl_bytes (fst (client_write cl (write_reply r))))
  | (d1, FRelay id out _) =>
      let '(bytes, gone) := relay_interactive (if out then reads else []) cl in_gone in
      (if gone then set_kill d1 id else d1, bytes)
  end.

(** ** One-shot runs *)

(** [run_one_shot] up to the running child. *)
Definition run_one_shot (d : Daemon) (budget : option Z) (requested : Z) (reference : string) (now : Z) (env : SpawnEnv)
    : option (Daemon * (string + (Reply + SpawnErr))) :=
  match reserve_with_evict d budget requested reference now with
  | None => None
  | Some (d1, inr (b, used, req)) => Some (d1, inr (inl (RBudgetExceeded b used req)))
  | Some (d1, inl id) => Some (
      if negb (se_exe env) then (d1, inr (inr SIo))
      else if negb (se_control env) then (reg_remove d1 id, inr (inr SIo))
      else
        match se_child env with
        | None => (reg_remove d1 id, inr (inr SIo))
        | Some pid => (set_runtime d1 id pid (mkChan true []), inl id)
        end)
  end.

(** Its end: supervised, deregistered, then the reply. *)
Definition one_shot_end (d : Daemon) (id : string) (polls : list (Wait * bool * bool)) : option (Daemon * Reply) :=
  match supervise polls with Some (code, _) => Some (reg_remove d id, RExit code) | None => None end.

(** [write_frame] is three writes. *)
Definition frame_writes (tag : Z) (payload : list Z) : list (list Z) := [[tag]; le_bytes 4 (u32 (zlen payload)); payload].
Definition stdout_writes (chunks : list (list Z)) : list (list Z) := concat (map (frame_writes TAG_STDOUT) chunks).
Definition reply_writes (r : Reply) : list (list Z) := frame_writes TAG_REPLY (to_vec r).

(** The socket of a one-shot run: the relay thread and the main thread write
    to it without a lock, and after the reply it is shut down, so the relay's
    writes that were not made by then never are. *)
Definition one_shot_wire (chunks : list (list Z)) (code : Z) (wire : list Z) : Prop :=
  exists done rest writes, stdout_writes chunks = done ++ rest
  /\ interleave done (reply_writes (RExit code)) writes /\ list.last writes = Some (to_vec (RExit code))
  /\ wire = concat writes.

(** ** Exec and logs *)

(** [handle_exec]: the socket's number comes from the id counter; [base] is
    the path made of it; [dialed] is the agent's connection, if it came in
    time. [None]: the listener could not be bound. *)
Definition handle_exec (d : Daemon) (budget : option Z) (requested : Z) (template : string) (now : Z)
    (base_of : string -> string) (base : N -> string) (bound : bool) (env : SpawnEnv) (dialed : option Reader) (cl : Client)
    : option (Daemon * list Z) :=
  let n := counter d in
  let d0 := mkDaemon (reg d) (n + 1)%N (pool d) (killed d) in
  if negb bound then None
  else
    match spawn_paused d0 budget requested template now base_of (Some (base n)) env with
    | (d1, inr e) => Some (d1, cl_bytes (fst (client_write cl (write_reply (RError (spawn_msg e))))))
    | (d1, inl id) =>
        let d2 := fst (release d1 id) in
        let res := match dialed with Some conn => exec_relay conn cl | None => (cl, inr OtherIo) end in
        let d3 := match reg d2 !! id with Some _ => set_kill d2 id | None => d2 end in
        Some (d3, exec_reply res)
    end.

(** [stream_logs]; [None] is a file that cannot be read. *)
Definition stream_logs (id : string) (log : option (list Z)) : list Z :=
  match log with
  | Some bytes => write_frame TAG_STDOUT bytes ++ write_reply ROk
  | None => write_reply (RError ("no logs for " +:+ id))
  end.

(** ** The clients' ends *)

(** The loop of [stream_client]: stdout and the exit code, or an error. *)
Definition stream_step (s : Reader * list Z) : (list Z * (Z + ClientErr)) + (Reader * list Z) :=
  let '(r, out) := s in
  match read_frame r with
  | (_, inr e) => inl (out, inr (CEIo e))
  | (r', inl (Some (tag, bytes))) =>
      if tag =? TAG_STDOUT then inr (r', out ++ bytes)
      else if tag =? TAG_REPLY then
        inl (out, match from_slice bytes with
          | None => inr CEJson
          | Some (RExit code) => inl code
          | Some (RError message) => inr (CEMsg message)
          | Some (RBudgetExceeded budget used requested) => inr (CEMsg (budget_msg budget used requested))
          | Some _ => inl 0
          end)
      else inl (out, inl 0)
  | (_, inl None) => inl (out, inl 0)
  end.
Definition stream_client (r : Reader) : list Z * (Z + ClientErr) :=
  match iter_nat (S (length (rd_bytes r))) stream_step (r, []) with
  | inl res => res
  | inr (_, out) => (out, inl 0)
  end.

(** The loop of [logs]. *)
Definition logs_step (s : Reader * list Z) : (list Z * (unit + ClientErr)) + (Reader * list Z) :=
  let '(r, out) := s in
  match read_frame r with
  | (_, inr e) => inl (out, inr (CEIo e))
  | (r', inl (Some (tag, bytes))) =>
      if tag =? TAG_STDOUT then inr (r', out ++ bytes)
      else if tag =? TAG_REPLY then
        inl (out, match from_slice bytes with
          | None => inr CEJson
          | Some (RError message) => inr (CEMsg message)
          | Some _ => inl tt
          end)
      else inl (out, inl tt)
  | (_, inl None) => inl (out, inl tt)
  end.
Definition logs (r : Reader) : list Z * (unit + ClientErr) :=
  match iter_nat (S (length (rd_bytes r))) logs_step (r, []) with
  | inl res => res
  | inr (_, out) => (out, inl tt)
  end.

(** [request], from what the daemon sends back; [None] is no daemon. *)
Definition request (conn : option Reader) : Reply + ClientErr :=
  match conn with
  | None => inr (CEMsg "no amberd (run 'amber up')")
  | Some r =>
      match read_frame r with
      | (_, inr e) => inr (CEIo e)
      | (_, inl (Some (tag, payload))) =>
          if tag =? TAG_REPLY then match from_slice payload with Some rep => inl rep | None => inr CEJson end
          else inr (CEMsg "unexpected reply")
      | (_, inl None) => inr (CEMsg "unexpected reply")
      end
  end.

Definition run_detached (conn : option Reader) : string + ClientErr :=
  match request conn with
  | inl (RStarted id _) => inl id
  | inl (RBudgetExceeded budget used requested) => inr (CEMsg (budget_msg budget used requested))
  | inl (RError message) => inr (CEMsg message)
  | inl _ => inr (CEMsg "unexpected reply")
  | inr e => inr e
  end.
Definition fork (conn : option Reader) : (string * option string) + ClientErr :=
  match request conn with
  | inl (RStarted id vsock) => inl (id, vsock)
  | inl (RBudgetExceeded budget used requested) => inr (CEMsg (budget_msg budget used requested))
  | inl (RError message) => inr (CEMsg message)
  | inl _ => inr (CEMsg "unexpected reply")
  | inr e => inr e
  end.
Definition client_budget (conn : option Reader) : (Z * Z * Z * Z) + ClientErr :=
  match request conn with
  | inl (RBudget budget used rss machine) => inl (budget, used, rss, machine)
  | inl (RError message) => inr (CEMsg message)
  | inl _ => inr (CEMsg "unexpected reply")
  | inr e => inr e
  end.
Definition client_list (conn : option Reader) : list VmInfo + ClientErr :=
  match request conn with
  | inl (RVms vms) => inl vms
  | inl (RError message) => inr (CEMsg message)
  | inl _ => inl []
  | inr e => inr e
  end.
(** [balloon], [kill], [pause] and [resume]. *)
Definition client_ack (conn : option Reader) : unit + ClientErr :=
  match request conn with
  | inl (RError message) => inr (CEMsg message)
  | inl _ => inl tt
  | inr e => inr e
  end.
End Serve.

(** ** Lemmas *)

Section Lemmas.
Context `{Serde Request} `{Serde Reply}.

(** Requests that touch the registry. *)
Definition controls (req : Request) : bool :=
  match req with Balloon _ _ | Pause _ | Resume _ | Kill _ => true | _ => false end.

(** The same VMs charged the same RAM, the same pool and counter. *)
Definition same_fleet (d d' : Daemon) : Prop :=
  (forall id, entry_ram <$> reg d' !! id = entry_ram <$> reg d !! id) /\ pool d' = pool d /\ counter d' = counter d.

Lemma upd_same_fleet d id f : (forall e, entry_ram (f e) = entry_ram e) -> same_fleet d (upd_entry d id f).
Proof.
  intros F. split; [|done]. intros id'. unfold upd_entry, set_reg. cbn [reg].
  destruct (decide (id' = id)) as [->|N]; [|by rewrite lookup_alter_ne].
  rewrite lookup_alter_eq. destruct (reg d !! id); cbn; [by rewrite F|done].
Qed.

Lemma control_op_fleet d id frame paused : same_fleet d (fst (control_op d id frame paused)).
Proof.
  unfold control_op. destruct (reg d !! id) as [e|]; [|done]. destruct (e_control e) as [ctl|]; [|done].
  destruct (chan_write ctl frame) as [ctl' b]. destruct b; [|done]. apply upd_same_fleet. intros e'. by destruct paused.
Qed.

Lemma handle_request_fleet d rss budget machine req d' rep :
  handle_request d rss budget machine req = Some (d', rep) -> same_fleet d d' /\ (d' <> d -> controls req = true).
Proof.
  destruct req; cbn [handle_request]; intros E; try discriminate E; apply (f_equal (fmap fst)) in E; cbn [fmap option_fmap option_map fst] in E;
    injection E as <-; (split; [|done]); try done; try apply control_op_fleet.
  by destruct (reg d !! id).
Qed.

Lemma stream_stdout c rest out : zlen c <= MAX_FRAME ->
  stream_step (mkReader (write_frame TAG_STDOUT c ++ rest) false, out) = inr (mkReader rest false, out ++ c).
Proof. intros L. unfold stream_step. by rewrite read_frame_written. Qed.

Lemma stream_chunks chunks code out n : Forall (fun c => zlen c <= MAX_FRAME) chunks ->
  zlen (to_vec (RExit code)) <= MAX_FRAME -> from_slice (to_vec (RExit code)) = Some (RExit code) -> (length chunks < n)%nat ->
  iter_nat n stream_step (mkReader (concat (map (write_frame TAG_STDOUT) chunks) ++ write_reply (RExit code)) false, out)
  = inl (out ++ concat chunks, inl code).
Proof.
  intros F L S. revert out n. induction F as [|c cs Lc _ IH]; intros out n Ln; (destruct n as [|n]; [cbn in Ln; lia|]).
  - cbn [map concat app iter_nat]. unfold stream_step, write_reply. rewrite <- (app_nil_r (write_frame _ _)).
    rewrite read_frame_written by done. cbn. by rewrite S, app_nil_r.
  - cbn [map concat iter_nat]. rewrite <- app_assoc, stream_stdout by done. rewrite IH by (cbn in Ln; lia). by rewrite <- app_assoc.
Qed.

Lemma length_frames (chunks : list (list Z)) : (length chunks <= length (concat (map (write_frame TAG_STDOUT) chunks)))%nat.
Proof. induction chunks as [|c cs IH]; [done|]. cbn [map concat length]. rewrite length_app. unfold write_frame at 1. rewrite !length_app. cbn [length]. lia. Qed.

Lemma relay_out_spec (chunks : list (list Z)) : Forall (fun c => c <> []) chunks -> forall bs q,
  relay_out (map Some chunks) (mkClient bs q) =
  (mkClient (bs ++ concat (map (write_frame TAG_STDOUT) (take q chunks))) (q - length chunks), (q <? length chunks)%nat).
Proof.
  induction 1 as [|c cs N _ IH]; intros bs q.
  - cbn [map relay_out]. rewrite take_nil. cbn. by rewrite app_nil_r, Nat.sub_0_r.
  - destruct c as [|x c]; [done|]. cbn [map relay_out]. unfold client_write. cbn [cl_quota cl_bytes]. destruct q as [|q].
    + cbn. by rewrite app_nil_r.
    + rewrite IH. cbn [take map concat length Nat.sub]. by rewrite <- app_assoc.
Qed.
End Lemmas.

(** ** Properties *)

Section Properties.
Context `{Serde Request} `{Serde Reply}.


(** An interactive fork's client gets the guest's output, all of it and
    in order, and then the exit; one that takes only some frames gets exactly
    these, and then the worker is killed. *)
Theorem interactive_exact (chunks : list (list Z)) (q : nat) (in_gone : bool) :
  zlen (to_vec (RExit 0)) <= MAX_FRAME -> from_slice (to_vec (RExit 0)) = Some (RExit 0) ->
  Forall (fun c => c <> [] /\ zlen c <= 8192) chunks ->
  let '(bytes, kill) := relay_interactive (map Some chunks) (mkClient [] q) in_gone in
  ((length chunks < q)%nat -> stream_client (mkReader bytes false) = (concat chunks, inl 0) /\ kill = in_gone)
  /\ ((q < length chunks)%nat -> bytes = concat (map (write_frame TAG_STDOUT) (take q chunks)) /\ kill = true).
Proof.
  intros L S F. unfold relay_interactive. rewrite relay_out_spec by (eapply Forall_impl; [exact F|]; by intros c []).
  unfold client_write. cbn [cl_quota cl_bytes app]. split; intros Q.
  - destruct (q - length chunks)%nat as [|q'] eqn:E; [lia|]. cbn [fst cl_bytes].
    rewrite take_ge by lia. split; [|by rewrite (proj2 (Nat.ltb_ge _ _)) by lia].
    unfold stream_client. cbn [rd_bytes]. pose proof (length_frames chunks).
    rewrite stream_chunks; [done| |done|done|rewrite length_app; lia].
    eapply Forall_impl; [exact F|]. intros c [_ Lc]. unfold MAX_FRAME. cbv beta. lia.
  - replace (q - length chunks)%nat with O by lia. cbn [fst cl_bytes]. by rewrite (proj2 (Nat.ltb_lt _ _)) by lia.
Qed.
(** A one-shot run answers as soon as the child is reaped, from another
    thread than the one that copies its output: the client can get the exit
    code after any number of the output's chunks, the rest being lost, and it
    can get the reply inside a frame, and then loses both. *)
Theorem one_shot_loses_output (chunks : list (list Z)) (code : Z) (k : nat) :
  0 < zlen (to_vec (RExit code)) < 2 ^ 16 -> from_slice (to_vec (RExit code)) = Some (RExit code) ->
  Forall (fun c => c <> [] /\ zlen c <= 8192) chunks -> chunks <> [] ->
  (exists wire, one_shot_wire chunks code wire /\
     stream_client (mkReader wire false) = (concat (take k chunks), inl code))
  /\ exists wire, one_shot_wire chunks code wire /\
     stream_client (mkReader wire false) = ([], inr (CEIo UnexpectedEof)).
Proof.
  intros L S F N. set (p := to_vec (RExit code)) in *.
  assert (Lp : zlen p <= MAX_FRAME) by (unfold MAX_FRAME; lia).
  assert (Cw : forall cs, concat (stdout_writes cs) = concat (map (write_frame TAG_STDOUT) cs)).
  { induction cs as [|c cs IH]; [done|]. unfold stdout_writes in *. cbn [map concat]. rewrite concat_app, IH. f_equal.
    unfold frame_writes, write_frame. cbn [concat]. by rewrite app_nil_r. }
  split.
  - exists (concat (map (write_frame TAG_STDOUT) (take k chunks)) ++ write_reply (RExit code)). split.
    + exists (stdout_writes (take k chunks)), (stdout_writes (drop k chunks)), (stdout_writes (take k chunks) ++ reply_writes (RExit code)).
      split; [unfold stdout_writes; by rewrite <- concat_app, <- map_app, take_drop|]. split; [|split].
      * generalize (stdout_writes (take k chunks)). intros l. induction l as [|x l IH]; [|by constructor].
        cbn [app]. repeat constructor.
      * unfold reply_writes, frame_writes. rewrite list.last_app. done.
      * rewrite concat_app, Cw. f_equal. unfold write_reply, write_frame, reply_writes, frame_writes. cbn [concat]. by rewrite app_nil_r.
    + unfold stream_client. cbn [rd_bytes]. pose proof (length_frames (take k chunks)).
      rewrite stream_chunks; [done| |done|done|rewrite length_app; lia].
      apply Forall_take. eapply Forall_impl; [exact F|]. intros c [_ Lc]. unfold MAX_FRAME. cbv beta. lia.
  - destruct chunks as [|c cs]; [done|].
    exists (concat ([TAG_STDOUT] :: reply_writes (RExit code))). split.
    + exists [[TAG_STDOUT]], ([le_bytes 4 (u32 (zlen c)); c] ++ stdout_writes cs), ([TAG_STDOUT] :: reply_writes (RExit code)).
      split; [done|]. split; [repeat constructor|]. split; done.
    + unfold stream_client. cbn [rd_bytes]. unfold reply_writes, frame_writes. fold p. cbn [concat app].
      set (bs := _ :: _). cbn [iter_nat].
      assert (E : stream_step (mkReader bs false, []) = inl ([], inr (CEIo UnexpectedEof))); [|by rewrite E].
      assert (El : le_bytes 4 (u32 (zlen p)) = [zlen p mod 256; zlen p / 256; 0; 0]).
      { rewrite u32_id by lia. cbn [le_bytes]. rewrite !Z.div_div by lia.
        repeat f_equal; try (rewrite Z.div_small by lia; done). apply Z.mod_small. split; [apply Z.div_pos; lia|apply Z.div_lt_upper_bound; lia]. }
      unfold bs. rewrite El. rewrite app_nil_r. unfold stream_step.
      assert (Er : TAG_STDOUT :: TAG_REPLY :: zlen p mod 256 :: zlen p / 256 :: 0 :: 0 :: p
        = [TAG_STDOUT] ++ le_bytes 4 (TAG_REPLY + 256 * zlen p) ++ (0 :: p)).
      { cbn [app]. f_equal. cbn [le_bytes app]. unfold TAG_REPLY.
        rewrite !Z.div_div by lia. change (256 * 256) with 65536. change (65536 * 256) with 16777216.
        replace ((2 + 256 * zlen p) mod 256) with 2 by (Z.div_mod_to_equations; lia).
        replace ((2 + 256 * zlen p) / 256 mod 256) with (zlen p mod 256) by (Z.div_mod_to_equations; lia).
        replace ((2 + 256 * zlen p) / 65536 mod 256) with (zlen p / 256) by (Z.div_mod_to_equations; lia).
        by replace ((2 + 256 * zlen p) / 16777216 mod 256) with 0 by (Z.div_mod_to_equations; lia). }
      cbn [app]. rewrite Er. rewrite read_frame_header by (unfold TAG_REPLY; lia).
      destruct (Z.ltb_spec MAX_FRAME (TAG_REPLY + 256 * zlen p)) as [M|M]; [unfold MAX_FRAME, TAG_REPLY in M; lia|].
      by rewrite read_exact_short by (cbn [rd_bytes]; rewrite zlen_cons; unfold TAG_REPLY; lia).
Qed.

(** A log within the frame limit is shown as it is; a longer one can
    never be read, although the daemon has it. *)
Theorem logs_limited (id : string) (log : list Z) :
  zlen (to_vec ROk) <= MAX_FRAME -> from_slice (to_vec ROk) = Some ROk -> zlen log < 2 ^ 32 ->
  logs (mkReader (stream_logs id (Some log)) false) =
    if zlen log <=? MAX_FRAME then (log, inl tt) else ([], inr (CEIo InvalidData)).
Proof.
  intros L Hs B. unfold logs, stream_logs. cbn [rd_bytes].
  assert (Ln : exists m, (S (length (write_frame TAG_STDOUT log ++ write_reply ROk)) = S (S m))%nat).
  { unfold write_frame, write_reply. rewrite !length_app. cbn [length]. eauto. }
  destruct Ln as [m ->]. cbn [iter_nat]. unfold logs_step at 1. destruct (Z.leb_spec (zlen log) MAX_FRAME) as [Le|Gt].
  - rewrite read_frame_written by done. cbn [Z.eqb TAG_STDOUT Pos.eqb app]. unfold logs_step, write_reply.
    rewrite <- (app_nil_r (write_frame TAG_REPLY _)), read_frame_written by done. cbn. by rewrite Hs.
  - pose proof (zlen_nonneg log). unfold write_frame at 1. rewrite <- !app_assoc. rewrite u32_id by lia.
    rewrite read_frame_header by lia. destruct (Z.ltb_spec MAX_FRAME (zlen log)); [done|lia].
Qed.
End Properties.

(** A client that leaves is noticed by the stdin thread, but nothing acts
    on it until the guest prints or exits: a silent guest runs on as an
    orphan, while one that prints to a client that is gone is killed. *)
Theorem silent_guest_orphaned (es : list RelayEv) (s : RelayState) :
  (forall taken, GuestOutput taken ∉ es) -> GuestExit ∉ es -> relay_events relay_start es = Some s ->
  rs_out s = true /\ rs_killed s = false /\ relay_event s MainJoins = None
  /\ option_map rs_killed (relay_events s [ClientLeaves; GuestOutput false; MainJoins]) = Some true.
Proof.
  intros N1 N2 E.
  assert (G : forall es s0 s, (forall taken, GuestOutput taken ∉ es) -> GuestExit ∉ es -> relay_events s0 es = Some s ->
    rs_out s0 = true -> rs_joined s0 = false -> rs_killed s0 = false ->
    rs_out s = true /\ rs_joined s = false /\ rs_killed s = false).
  { clear. induction es as [|e es IH]; cbn [relay_events]; intros s0 s N1 N2 E O J K; [by injection E as <-|].
    apply not_elem_of_cons in N2 as [N2 N2'].
    assert (N1' : forall taken, GuestOutput taken ∉ es) by (intros t I; apply (N1 t); by right).
    destruct e as [taken| | |]; [destruct (N1 taken); left|done| |].
    - cbn [relay_event mbind option_bind] in E. by apply (IH _ _ N1' N2' E).
    - cbn [relay_event] in E. by rewrite O in E. }
  destruct (G es relay_start s N1 N2 E eq_refl eq_refl eq_refl) as (O & J & K). split; [done|]. split; [done|].
  destruct s as [o g j k]. cbn in O, J, K. subst. by split.
Qed.

(** ** Witnesses *)

Lemma silent_guest_orphaned_witness :
  exists s, relay_events relay_start [ClientLeaves] = Some s /\ rs_out s = true /\ rs_killed s = false
  /\ relay_event s MainJoins = None
  /\ option_map rs_killed (relay_events s [ClientLeaves; GuestOutput false; MainJoins]) = Some true.
Proof.
  eexists. split; [reflexivity|]. apply (silent_guest_orphaned [ClientLeaves]).
  - intros taken I. apply list_elem_of_singleton in I. discriminate I.
  - intros I. apply list_elem_of_singleton in I. discriminate I.
  - reflexivity.
Defined.

#[local] Instance demo_reply : Serde Reply := {|
  to_vec r := match r with RExit c => [0; c] | _ => [1] end;
  from_slice bs := match bs with [0; c] => Some (RExit c) | [1] => Some ROk | _ => None end
|}.

Lemma interactive_exact_witness :
  let '(bytes, kill) := relay_interactive (map Some [[104; 105]; [10]]) (mkClient [] 3) false in
  ((length [[104; 105]; [10]] < 3)%nat -> stream_client (mkReader bytes false) = (concat [[104; 105]; [10]], inl 0) /\ kill = false)
  /\ ((3 < length [[104; 105]; [10]])%nat -> bytes = concat (map (write_frame TAG_STDOUT) (take 3 [[104; 105]; [10]])) /\ kill = true).
Proof.
  apply (interactive_exact [[104; 105]; [10]] 3 false).
  - vm_compute. discriminate.
  - reflexivity.
  - repeat constructor; try discriminate; vm_compute; discriminate.
Defined.

Lemma one_shot_loses_output_witness :
  exists wire, one_shot_wire [[104; 105]; [10]] 0 wire /\ stream_client (mkReader wire false) = ([], inr (CEIo UnexpectedEof)).
Proof.
  refine (proj2 (one_shot_loses_output [[104; 105]; [10]] 0 1 _ _ _ _)).
  - split; reflexivity.
  - reflexivity.
  - repeat constructor; try discriminate; vm_compute; discriminate.
  - discriminate.
Defined.

Lemma logs_limited_witness : logs (mkReader (stream_logs "vm1" (Some [104; 105])) false) = ([104; 105], inl tt).
Proof.
  apply (logs_limited "vm1" [104; 105]).
  - vm_compute. discriminate.
  - reflexivity.
  - reflexivity.
Defined.
