(* ===== verification/Amberd.v ===== *)
(** * Amberd: the daemon as a process (crates/amber/src/daemon.rs)

    What amberd is besides its registry ([Daemon]) and its handlers
    ([Serve]): its locks, how it reads the host's memory, its descriptor
    limit, the descriptors a worker inherits, the wait for a fork's agent, and
    its socket. Answers of the kernel are arguments; the place of the socket -
    its directory and its file, with owners and modes - is a state that the
    calls of [serve] change one by one.

    [serve_private] and [serve_steals]; [worker_fds]; [statm_reading];
    [accept_waits]; [fd_limit_raised]. *)

From stdpp Require Import pretty.
From S2P Require Import Prelude Registry Text Bootstrap Daemon Proto Serve.
#[local] Open Scope Z_scope.

(** ** Locks *)

(** [LockRecover]: a poisoned mutex still gives its data. *)
Record Mutex (A : Type) := mkMutex { mx_data : A; poisoned : bool }.
Arguments mkMutex {A}. Arguments mx_data {A}. Arguments poisoned {A}.
Definition lock {A} (m : Mutex A) : A + A := if poisoned m then inr (mx_data m) else inl (mx_data m).
Definition locked {A} (m : Mutex A) : A := match lock m with inl g => g | inr e => e end.

(** A thread's turn under the lock: what it leaves, and whether it panicked. *)
Definition turn {A} (m : Mutex A) (f : A -> A * bool) : Mutex A :=
  let '(a, panics) := f (locked m) in mkMutex a (poisoned m || panics).

(** ** Memory *)

(** [machine_ram] on macOS: what sysctl printed, when it ran. *)
Definition machine_ram_macos (sysctl : option (list Z)) : Z :=
  default 0 (o ← sysctl; s ← from_utf8 o; parse_u64 (trim s)).
(** And on Linux, from sysconf. *)
Definition machine_ram_linux (pages psize : Z) : Z :=
  if (0 <? pages) && (0 <? psize) then wmul64 pages psize else 0.

(** [rss_bytes] on macOS, from ps, and on Linux, from /proc/<pid>/statm. *)
Definition rss_bytes_macos (pid : Z) (ps : option (list Z)) : Z :=
  if pid =? 0 then 0
  else default 0 (o ← ps; s ← from_utf8 o; kb ← parse_u64 (trim s); Some (wmul64 kb 1024)).
Definition statm_path (pid : Z) : string := "/proc/" +:+ pretty pid +:+ "/statm".
Definition rss_bytes_linux (pid : Z) (read : string -> option (list Z)) (psize : Z) : Z :=
  if pid =? 0 then 0
  else
    let resident_pages := default 0 (b ← read (statm_path pid); s ← from_utf8 b; f ← split_whitespace s !! 1%nat; parse_u64 f) in
    if 0 <? psize then wmul64 resident_pages psize else 0.

(** ** The descriptor limit *)

Record rlimit := mkRlimit { rlim_cur : Z; rlim_max : Z }.
(** RLIM_INFINITY and UNCAPPED_TARGET. *)
Record RlimitOs := mkRlimitOs { RLIM_INFINITY : Z; UNCAPPED_TARGET : Z }.
Definition rlimit_linux : RlimitOs := mkRlimitOs (2 ^ 64 - 1) (2 ^ 20).
Definition rlimit_macos : RlimitOs := mkRlimitOs (2 ^ 63 - 1) 24576.

(** [lim]: the limits, which the kernel gives when [get_ok]; [set_ok]: whether
    it takes new ones. *)
Definition raise_fd_limit (os : RlimitOs) (get_ok : bool) (set_ok : rlimit -> bool) (lim : rlimit) : rlimit :=
  if negb get_ok then lim
  else
    let target := if rlim_max lim =? RLIM_INFINITY os then UNCAPPED_TARGET os else rlim_max lim in
    if target <=? rlim_cur lim then lim
    else
      let newlim := mkRlimit target (rlim_max lim) in
      if set_ok newlim then newlim else lim.

(** ** A worker's descriptors *)

(** An open descriptor: what it is open on, and whether exec closes it. *)
Record Fd (File : Type) := mkFd { fd_file : File; cloexec : bool }.
Arguments mkFd {File}. Arguments fd_file {File}. Arguments cloexec {File}.
#[local] Abbreviation Fds File := (gmap Z (Fd File)).

Section Fds.
Context {File : Type}.

(** [dup2]: the copy is not closed on exec; a descriptor onto itself is left
    as it is. *)
Definition dup2 (t : Fds File) (old new : Z) : option (Fds File) :=
  match t !! old with
  | None => None
  | Some f => Some (if old =? new then t else <[new := mkFd (fd_file f) false]> t)
  end.
Definition exec_fds (t : Fds File) : Fds File := filter (fun p => cloexec (snd p) = false) t.

(** [attach_control]: the hook run between fork and exec, and the environment
    the child gets. *)
Definition attach_control (child_fd : Z) : (Fds File -> option (Fds File)) * (string * string) :=
  (fun t => dup2 t child_fd 3, ("AMBER_CONTROL_FD", "3")).

(** [Command::spawn]: the child's own descriptors for its standard streams,
    the hook, exec. The new program's descriptors, unless the hook fails. *)
Definition stdio_fds (t : Fds File) (stdin stdout stderr : File) : Fds File :=
  <[0 := mkFd stdin false]> (<[1 := mkFd stdout false]> (<[2 := mkFd stderr false]> t)).
Definition spawned_fds (t : Fds File) (stdin stdout stderr : File) (hook : Fds File -> option (Fds File)) : option (Fds File) :=
  exec_fds <$> hook (stdio_fds t stdin stdout stderr).
End Fds.

(** ** Waiting for the agent *)

Inductive Accepted (S : Type) := AcceptOk (s : S) | AcceptWouldBlock | AcceptErr.
Arguments AcceptOk {S}. Arguments AcceptWouldBlock {S}. Arguments AcceptErr {S}.

(** [accept_timeout]: the clock's readings and the listener's answers, turn by
    turn; a turn that would block sleeps 20 ms. [None] is still waiting. *)
Fixpoint accept_turns {S} (fuel : nat) (clock : nat -> Z) (accept : nat -> Accepted S) (deadline : Z) (i : nat) : option (option S) :=
  match fuel with
  | O => None
  | Datatypes.S f =>
      if clock i <? deadline then
        match accept i with
        | AcceptOk s => Some (Some s)
        | AcceptWouldBlock => accept_turns f clock accept deadline (Datatypes.S i)
        | AcceptErr => Some None
        end
      else Some None
  end.
Definition accept_timeout {S} (fuel : nat) (clock : nat -> Z) (accept : nat -> Accepted S) (start timeout : Z) : option (option S) :=
  accept_turns fuel clock accept (start + timeout) 0.

(** ** The socket *)

(** A file's owner and mode, and the place of the socket: its directory, and
    its file with the process that listens behind it. *)
(** A mode's three octal digits. *)
Definition perm (u g o : Z) : Z := 64 * u + 8 * g + o.
Record Node := mkNode { n_owner : Z; n_mode : Z }.
Record Place := mkPlace { pl_dir : option Node; pl_sock : option (Node * nat) }.

(** What [serve] asks of the kernel, each refusable for reasons of its own. *)
Inductive Call := CreateDirAll | ChmodDir | RemoveFile | Bind | ChmodSock.

(** One call by process [l] of user [me]; [None] is an error. Only the owner
    sets a mode; [remove_file]'s result is dropped. *)
Definition place_call (me umask : Z) (l : nat) (ok : Call -> bool) (c : Call) (p : Place) : option Place :=
  let chmod m n := if n_owner n =? me then Some (mkNode (n_owner n) m) else None in
  match c with
  | CreateDirAll =>
      match pl_dir p with
      | Some _ => Some p
      | None => if ok c then Some (mkPlace (Some (mkNode me (Z.ldiff (perm 7 7 7) umask))) (pl_sock p)) else None
      end
  | ChmodDir => if ok c then n ← pl_dir p; n' ← chmod (perm 7 0 0) n; Some (mkPlace (Some n') (pl_sock p)) else None
  | RemoveFile => Some (if ok c then mkPlace (pl_dir p) None else p)
  | Bind =>
      match pl_dir p, pl_sock p with
      | Some _, None => if ok c then Some (mkPlace (pl_dir p) (Some (mkNode me (Z.ldiff (perm 7 7 7) umask), l))) else None
      | _, _ => None
      end
  | ChmodSock => if ok c then s ← pl_sock p; n' ← chmod (perm 6 0 0) (fst s); Some (mkPlace (pl_dir p) (Some (n', snd s))) else None
  end.

(** The states on the way, the last one, and whether every call succeeded. *)
Fixpoint place_calls (me umask : Z) (l : nat) (ok : Call -> bool) (cs : list Call) (p : Place) : list Place * Place * bool :=
  match cs with
  | [] => ([p], p, true)
  | c :: cs' =>
      match place_call me umask l ok c p with
      | None => ([p], p, false)
      | Some p' => let '(ps, q, r) := place_calls me umask l ok cs' p' in (p :: ps, q, r)
      end
  end.
Definition serve_socket (me umask : Z) (l : nat) (ok : Call -> bool) (p : Place) : list Place * Place * bool :=
  place_calls me umask l ok [CreateDirAll; ChmodDir; RemoveFile; Bind; ChmodSock] p.

(** Who a user's [connect] reaches: it needs search permission on the
    directory and write permission on the socket; groups count as others. *)
Definition may (uid : Z) (n : Node) (owner others : Z) : bool :=
  (uid =? 0) || nz (Z.land (n_mode n) (if uid =? n_owner n then owner else others)).
Definition reaches (p : Place) (uid : Z) : option nat :=
  match pl_dir p, pl_sock p with
  | Some d, Some (s, l) => if may uid d (perm 1 0 0) (perm 0 1 1) && may uid s (perm 2 0 0) (perm 0 2 2) then Some l else None
  | _, _ => None
  end.

(** ** Daemons of one user, and their clients *)

Section Host.
Context `{Serde Request} `{Serde Reply}.
Variables (me umask : Z).

Record Host := mkHost { h_place : Place; h_daemons : gmap nat Daemon }.

(** [serve]: the daemon starts with nothing registered. *)
Definition serve (h : Host) (l : nat) (ok : Call -> bool) : Host :=
  let '(_, p, r) := serve_socket me umask l ok (h_place h) in
  mkHost p (if r then <[l := Daemon_new]> (h_daemons h) else h_daemons h).

(** A client's one connection: its handler's turn, and after a shutdown the
    process and its socket file are gone. What [handle] leaves to the
    operations that spawn is not a step of its own here. *)
Definition connection (h : Host) (uid : Z) (rss : Z -> Z) (budget : option Z) (machine : Z) (r : Reader) : Host * option Handled :=
  match reaches (h_place h) uid with
  | None => (h, None)
  | Some l =>
      match h_daemons h !! l with
      | None => (h, None)
      | Some d =>
          let '(d', hd) := handle d (Some uid) me rss budget machine r in
          match hd with
          | HShutdown _ _ => (mkHost (mkPlace (pl_dir (h_place h)) None) (delete l (h_daemons h)), Some hd)
          | _ => (mkHost (h_place h) (<[l := d']> (h_daemons h)), Some hd)
          end
      end
  end.

Inductive HostStep := Starts (l : nat) (ok : Call -> bool) | Connects (uid : Z) (rss : Z -> Z) (budget : option Z) (machine : Z) (r : Reader).
Definition host_step (h : Host) (s : HostStep) : Host :=
  match s with
  | Starts l ok => serve h l ok
  | Connects uid rss budget machine r => fst (connection h uid rss budget machine r)
  end.
Definition starts_as (l : nat) (s : HostStep) : Prop := match s with Starts l' _ => l' = l | Connects _ _ _ _ _ => False end.
End Host.

(** ** Lemmas *)

(** What holds of every state [serve] passes through: until it has bound, no
    one reaches it; once it has, the directory is its user's alone. *)
Definition guarded (me : Z) (l : nat) (p : Place) : Prop :=
  match pl_sock p with
  | Some (_, l') => l' = l -> pl_dir p = Some (mkNode me (perm 7 0 0))
  | None => True
  end.

Lemma guarded_reach me l p uid : guarded me l p -> uid <> me -> uid <> 0 -> reaches p uid <> Some l.
Proof.
  unfold guarded, reaches. destruct (pl_sock p) as [[n l']|]; [|by destruct (pl_dir p)].
  intros G Nm N0. destruct (pl_dir p) as [d|]; [|done]. destruct (_ && _) eqn:E; [|done]. intros [= ->].
  specialize (G eq_refl) as [= ->]. unfold may in E. cbn in E.
  rewrite (proj2 (Z.eqb_neq uid 0) N0), (proj2 (Z.eqb_neq uid me) Nm) in E. done.
Qed.

Lemma calls_inv me umask l ok (I : nat -> Place -> Prop) cs : forall k p,
  (forall i c p p', cs !! i = Some c -> I (k + i)%nat p -> place_call me umask l ok c p = Some p' -> I (k + S i)%nat p') -> I k p ->
  let '(ps, q, r) := place_calls me umask l ok cs p in
  Forall (fun p => exists i, I i p) ps /\ (exists i, I i q) /\ (r = true -> I (k + length cs)%nat q).
Proof.
  induction cs as [|c cs IH]; intros k p St Ip; cbn [place_calls].
  { rewrite Nat.add_0_r. split; [|split; [by exists k|done]]. constructor; [by exists k|constructor]. }
  destruct (place_call me umask l ok c p) as [p'|] eqn:E.
  2: { split; [|split; [by exists k|done]]. constructor; [by exists k|constructor]. }
  pose proof (St 0%nat c p p' eq_refl) as S0. rewrite Nat.add_0_r, Nat.add_1_r in S0. specialize (S0 Ip E).
  specialize (IH (S k) p'). destruct (place_calls me umask l ok cs p') as [[ps q] r].
  destruct IH as (F & Q & R); [|done|].
  - intros i d a b Hd Ha Hb. specialize (St (S i) d a b Hd). rewrite <- !Nat.add_succ_comm in St. rewrite <- Nat.add_succ_comm. by apply St.
  - split; [constructor; [by exists k|done]|]. split; [done|]. cbn [length]. by rewrite <- Nat.add_succ_comm.
Qed.

(** What holds after each call. *)
Definition stage (me : Z) (l : nat) (i : nat) (p : Place) : Prop :=
  match i with
  | O | 1%nat => match pl_sock p with Some (_, l') => l' <> l | None => True end
  | 2%nat | 3%nat => pl_dir p = Some (mkNode me (perm 7 0 0)) /\ match pl_sock p with Some (_, l') => l' <> l | None => True end
  | 4%nat => pl_dir p = Some (mkNode me (perm 7 0 0)) /\ exists m, pl_sock p = Some (mkNode me m, l)
  | _ => p = mkPlace (Some (mkNode me (perm 7 0 0))) (Some (mkNode me (perm 6 0 0), l))
  end.

Lemma stage_guarded me l i p : stage me l i p -> guarded me l p.
Proof.
  unfold guarded. destruct i as [|[|[|[|[|i]]]]]; cbn [stage].
  1, 2: destruct (pl_sock p) as [[n l']|]; done.
  1, 2: intros [-> G]; destruct (pl_sock p) as [[n l']|]; done.
  - intros [-> [m ->]]. done.
  - by intros ->.
Qed.

Lemma serve_socket_stages me umask l ok p : match pl_sock p with Some (_, l') => l' <> l | None => True end ->
  let '(ps, q, r) := serve_socket me umask l ok p in
  Forall (guarded me l) ps /\ guarded me l q
  /\ (r = true -> q = mkPlace (Some (mkNode me (perm 7 0 0))) (Some (mkNode me (perm 6 0 0), l))).
Proof.
  intros Hl. unfold serve_socket.
  pose proof (calls_inv me umask l ok (stage me l) [CreateDirAll; ChmodDir; RemoveFile; Bind; ChmodSock] 0 p) as C.
  destruct (place_calls _ _ _ _ _ _) as [[ps q] r]. destruct C as (F & [i Q] & R); [|done|].
  - clear. intros i c [d s] p' Hc Hi Hp. destruct i as [|[|[|[|[|i]]]]]; [injection Hc as <- ..|done]; cbn [Nat.add stage place_call pl_dir pl_sock] in *.
    + destruct d; [by injection Hp as <-|]. destruct (ok _); [|done]. by injection Hp as <-.
    + destruct (ok _); [|done]. destruct d as [[o m]|]; [|done]. cbn [n_owner mbind option_bind] in Hp.
      destruct (Z.eqb_spec o me) as [->|]; [|done]. by injection Hp as <-.
    + destruct Hi as [-> Hi]. injection Hp as <-. by destruct (ok _).
    + destruct Hi as [-> Hi]. destruct s; [done|]. destruct (ok _); [|done]. injection Hp as <-. split; [done|]. by eexists.
    + destruct Hi as [-> [m ->]]. destruct (ok _); [|done]. cbn [n_owner mbind option_bind fst] in Hp. rewrite Z.eqb_refl in Hp. by injection Hp as <-.
  - split; [|split; [by eapply stage_guarded|exact R]]. eapply Forall_impl; [exact F|]. intros x [k K]. by eapply stage_guarded.
Qed.

(** Once [l] is not behind the socket file, nothing it does not start itself
    puts it there. *)
Lemma place_calls_listener me umask l ok cs : forall p, match snd (fst (place_calls me umask l ok cs p)) with
  | q => pl_sock q = None \/ (exists n, pl_sock q = Some (n, l)) \/ (exists n n' l', pl_sock p = Some (n, l') /\ pl_sock q = Some (n', l')) end.
Proof.
  induction cs as [|c cs IH]; intros p; cbn [place_calls].
  { cbn. destruct (pl_sock p) as [[n l']|]; [right; right|by left]. by exists n, n, l'. }
  destruct (place_call me umask l ok c p) as [p'|] eqn:E.
  2: { cbn. destruct (pl_sock p) as [[n l']|]; [right; right|by left]. by exists n, n, l'. }
  specialize (IH p'). destruct (place_calls me umask l ok cs p') as [[ps q] r]. cbn [fst snd] in *.
  destruct IH as [G|[G|(n & n' & l' & E1 & E2)]]; [by left|by right; left|].
  destruct c; cbn [place_call] in E.
  - destruct (pl_dir p); [|destruct (ok _); [|done]]; injection E as <-; cbn in E1; right; right; by exists n, n', l'.
  - destruct (ok _); [|done]. destruct (pl_dir p) as [[o m]|]; [|done]. cbn in E. destruct (o =? me); [|done]. injection E as <-.
    right; right. by exists n, n', l'.
  - injection E as <-. destruct (ok _); [done|]. right; right. by exists n, n', l'.
  - destruct (pl_dir p); [|done]. destruct (pl_sock p); [done|]. destruct (ok _); [|done]. injection E as <-. cbn in E1.
    injection E1 as _ <-. right; left. by exists n'.
  - destruct (ok _); [|done]. destruct (pl_sock p) as [[[o m] l0]|]; [|done]. cbn in E. destruct (o =? me); [|done]. injection E as <-.
    cbn in E1. injection E1 as _ <-. right; right. by exists (mkNode o m), n', l0.
Qed.

(** *** A daemon no socket file leads to *)

Definition lost (l : nat) (d : Daemon) (h : Host) : Prop :=
  h_daemons h !! l = Some d /\ forall n, pl_sock (h_place h) <> Some (n, l).

Lemma reaches_sock p uid l : reaches p uid = Some l -> exists n, pl_sock p = Some (n, l).
Proof.
  unfold reaches. destruct (pl_dir p); [|done]. destruct (pl_sock p) as [[m l']|]; [|done]. destruct (_ && _); [|done].
  intros [= ->]. by eexists.
Qed.

Lemma serve_lost me umask l d h l' ok : l' <> l -> lost l d h -> lost l d (serve me umask h l' ok).
Proof.
  intros N [D P]. unfold serve, serve_socket.
  pose proof (place_calls_listener me umask l' ok [CreateDirAll; ChmodDir; RemoveFile; Bind; ChmodSock] (h_place h)) as L.
  destruct (place_calls _ _ _ _ _ _) as [[ps q] r]. cbn [fst snd] in L. split; cbn [h_daemons h_place].
  - destruct r; [|done]. by rewrite lookup_insert_ne.
  - intros n E. destruct L as [L|[[m L]|(m & m' & x & E1 & E2)]]; [congruence|congruence|]. rewrite E2 in E. injection E as _ ->. by apply (P m).
Qed.

Lemma connection_lost `{Serde Request} `{Serde Reply} me l d h uid rss budget machine r :
  lost l d h -> lost l d (fst (connection me h uid rss budget machine r)).
Proof.
  intros [D P]. unfold connection. destruct (reaches (h_place h) uid) as [k|] eqn:R; [|done].
  apply reaches_sock in R as [n R]. assert (N : k <> l) by (intros ->; by apply (P n)).
  destruct (h_daemons h !! k) as [dk|] eqn:K; [|done]. destruct (handle _ _ _ _ _ _ _) as [d' hd].
  destruct hd; cbn [fst]; (split; cbn [h_daemons h_place pl_sock]; [by rewrite ?lookup_insert_ne, ?lookup_delete_ne|done]).
Qed.

Lemma lost_steps `{Serde Request} `{Serde Reply} me umask l d steps : forall h,
  Forall (fun s => ~ starts_as l s) steps -> lost l d h ->
  let h' := foldl (host_step me umask) h steps in h_daemons h' !! l = Some d /\ forall uid, reaches (h_place h') uid <> Some l.
Proof.
  induction steps as [|s steps IH]; intros h F L; cbn [foldl].
  - split; [apply L|]. intros uid R. apply reaches_sock in R as [n R]. by apply (proj2 L n).
  - apply Forall_cons in F as [Fs F]. apply IH; [done|]. destruct s; cbn [host_step starts_as] in *; [by apply serve_lost|by apply connection_lost].
Qed.

(** *** Statm *)

(** What the kernel prints: the size, the resident set, and more fields. *)
Definition statm_text (size resident : Z) (more : string) : string := pretty size +:+ " " +:+ pretty resident +:+ " " +:+ more.

Lemma statm_utf8 size resident more : 0 <= size -> 0 <= resident -> all_chars ascii7 more = true ->
  all_chars ascii7 (statm_text size resident more) = true.
Proof.
  assert (N : forall n, 0 <= n -> all_chars ascii7 (pretty n) = true).
  { intros n L. destruct (pretty_nonneg_shape n L) as (_ & _ & _ & A). induction (pretty n) as [|c s IH]; [done|].
    cbn [all_chars] in *. apply andb_true_iff in A as [Ac A]. rewrite IH, andb_true_r by done. revert Ac.
    destruct c as [[] [] [] [] [] [] [] []]; vm_compute; done. }
  intros Ls Lr Am. unfold statm_text. by rewrite !all_chars_app, !N, Am.
Qed.

Lemma lookup_stdio {File : Type} (t : Fds File) (a b c : File) n :
  stdio_fds t a b c !! n = if n =? 0 then Some (mkFd a false) else if n =? 1 then Some (mkFd b false)
    else if n =? 2 then Some (mkFd c false) else t !! n.
Proof.
  unfold stdio_fds. destruct (Z.eqb_spec n 0) as [->|]; [by rewrite lookup_insert_eq|]. rewrite lookup_insert_ne by done.
  destruct (Z.eqb_spec n 1) as [->|]; [by rewrite lookup_insert_eq|]. rewrite lookup_insert_ne by done.
  destruct (Z.eqb_spec n 2) as [->|]; [by rewrite lookup_insert_eq|]. by rewrite lookup_insert_ne.
Qed.

(** ** Properties *)

(** the resident memory of a VM on Linux is the second field of its
    statm times the page size, as the kernel prints it; a VM whose process is
    gone, and one that has none yet, count nothing. *)
Theorem statm_reading (pid size resident psize : Z) (more : string) (read : string -> option (list Z)) :
  0 <= size -> 0 <= resident -> 0 < psize -> resident * psize < 2 ^ 64 -> all_chars ascii7 more = true ->
  read (statm_path pid) = Some (str_bytes (statm_text size resident more)) ->
  rss_bytes_linux pid read psize = (if pid =? 0 then 0 else resident * psize)
  /\ rss_bytes_linux pid (fun _ => None) psize = 0.
Proof.
  intros Ls Lr Lp Lt Am Er. unfold rss_bytes_linux. destruct (Z.eqb_spec pid 0) as [|_]; [done|].
  rewrite Er, (proj2 (Z.ltb_lt 0 psize) Lp). cbn [mbind option_bind]. split.
  - rewrite from_utf8_ascii by by apply statm_utf8. cbn [mbind option_bind].
    unfold statm_text. rewrite second_word by by apply pretty_word. cbn [mbind option_bind].
    rewrite parse_u64_pretty by nia. cbn [default id]. unfold wmul64. rewrite u64_id; [done|]. pose proof (Z.mul_nonneg_nonneg resident psize). lia.
  - done.
Qed.

(** amberd's descriptor limit: the hard limit never moves, the soft one
    never falls and never passes the hard one; where the kernel takes the new
    limit, the soft one reaches the hard one, or where that is unlimited the
    target. *)
Theorem fd_limit_raised (os : RlimitOs) (get_ok : bool) (set_ok : rlimit -> bool) (lim : rlimit) :
  UNCAPPED_TARGET os <= RLIM_INFINITY os -> rlim_cur lim <= rlim_max lim ->
  let lim' := raise_fd_limit os get_ok set_ok lim in
  let target := if rlim_max lim =? RLIM_INFINITY os then UNCAPPED_TARGET os else rlim_max lim in
  rlim_max lim' = rlim_max lim /\ rlim_cur lim <= rlim_cur lim' <= rlim_max lim'
  /\ (get_ok = true -> (forall l, set_ok l = true) -> rlim_cur lim' = Z.max (rlim_cur lim) target).
Proof.
  intros Ht Hl. cbv zeta. unfold raise_fd_limit. destruct get_ok; cbn [negb]; [|split; [done|]; split; [lia|done]].
  set (target := if rlim_max lim =? _ then _ else _).
  assert (T : target <= rlim_max lim) by (unfold target; destruct (Z.eqb_spec (rlim_max lim) (RLIM_INFINITY os)); lia).
  destruct (Z.leb_spec target (rlim_cur lim)); [split; [done|]; split; [lia|intros; lia]|].
  destruct (set_ok _) eqn:E; cbn; (split; [done|]; split; [lia|]); intros _ S; [lia|]. by rewrite S in E.
Qed.

(** what a worker inherits: with every other descriptor of the daemon
    close-on-exec, a worker starts with its three standard streams, the child
    end of its control channel as descriptor 3, and nothing else - no other
    VM's channel, no client's connection. Were the channel's end descriptor 3
    of the daemon itself, the worker would start without it. *)
Theorem worker_fds {File : Type} (t : Fds File) (child_fd : Z) (child stdin stdout stderr : File) :
  (forall n f, t !! n = Some f -> cloexec f = true) -> 2 < child_fd -> t !! child_fd = Some (mkFd child true) ->
  let std := stdio_fds (∅ : Fds File) stdin stdout stderr in
  spawned_fds t stdin stdout stderr (fst (attach_control child_fd))
  = Some (if child_fd =? 3 then std else <[3 := mkFd child false]> std).
Proof.
  intros Hc Hn Ht. cbv zeta. unfold spawned_fds, attach_control, dup2. cbn [fst]. rewrite lookup_stdio.
  rewrite !(proj2 (Z.eqb_neq child_fd _)), Ht by lia. cbn [fmap option_fmap option_map fd_file]. f_equal.
  apply map_eq. intros n. unfold exec_fds. rewrite map_lookup_filter. destruct (Z.eqb_spec child_fd 3) as [->|N3].
  - rewrite !lookup_stdio. repeat (destruct (n =? _); [done|]). rewrite lookup_empty.
    destruct (t !! n) as [f|] eqn:E; [|done]. cbn. by rewrite (Hc _ _ E).
  - destruct (Z.eq_dec n 3) as [->|Nn]; [by rewrite !lookup_insert_eq|]. rewrite !lookup_insert_ne by done.
    rewrite !lookup_stdio. repeat (destruct (n =? _); [done|]). rewrite lookup_empty.
    destruct (t !! n) as [f|] eqn:E; [|done]. cbn. by rewrite (Hc _ _ E).
Qed.

Lemma accept_clock {S : Type} (clock : nat -> Z) (accept : nat -> Accepted S) (start : Z) (i : nat) :
  start <= clock 0%nat -> (forall i, accept i = AcceptWouldBlock -> clock i + 20 <= clock (Datatypes.S i)) ->
  (forall j, (j < i)%nat -> accept j = AcceptWouldBlock) -> start + 20 * Z.of_nat i <= clock i.
Proof.
  intros Hs Hb. induction i as [|i IH]; intros Hj; [lia|].
  specialize (IH (fun j L => Hj j (Nat.lt_lt_succ_r _ _ L))). specialize (Hb i (Hj i (Nat.lt_succ_diag_r i))). lia.
Qed.

(** the wait for an agent ends: a turn that finds no connection lasts 20 ms
    or more, so at most one turn per 20 ms of the timeout is taken; and it
    returns a connection exactly when one is there at a turn that begins
    before the deadline, with no error before it. *)
Theorem accept_waits {S : Type} (clock : nat -> Z) (accept : nat -> Accepted S) (start timeout : Z) (fuel : nat) :
  0 <= timeout -> start <= clock 0%nat ->
  (forall i, clock i <= clock (Datatypes.S i)) ->
  (forall i, accept i = AcceptWouldBlock -> clock i + 20 <= clock (Datatypes.S i)) ->
  (Z.to_nat (timeout / 20) + 2 <= fuel)%nat ->
  let ok := fun s => exists i, clock i < start + timeout /\ accept i = AcceptOk s /\ (forall j, (j < i)%nat -> accept j = AcceptWouldBlock) in
  exists r, accept_timeout fuel clock accept start timeout = Some r
  /\ (forall s, r = Some s <-> ok s).
Proof.
  intros Ht Hs Hm Hb Hf ok. unfold accept_timeout.
  assert (G : forall f i, (forall j, (j < i)%nat -> accept j = AcceptWouldBlock /\ clock j < start + timeout) ->
    (Z.to_nat (timeout / 20) + 2 <= f + i)%nat ->
    exists r, accept_turns f clock accept (start + timeout) i = Some r /\ forall s, r = Some s <-> ok s).
  2: { apply G; [intros j; lia|lia]. }
  induction f as [|f IH]; intros i Hj Hl.
  { exfalso. assert (P : (i - 1 < i)%nat) by lia. destruct (Hj _ P) as [Hw Hc].
    pose proof (accept_clock clock accept start (i - 1) Hs Hb (fun j L => proj1 (Hj j ltac:(lia)))) as Hk.
    pose proof (Z.div_mod timeout 20 ltac:(done)). pose proof (Z.mod_pos_bound timeout 20 eq_refl). lia. }
  cbn [accept_turns]. destruct (Z.ltb_spec (clock i) (start + timeout)) as [L|L].
  - destruct (accept i) as [s| |] eqn:A.
    + exists (Some s). split; [done|]. intros s'. split.
      * intros [= <-]. exists i. split_and!; try done. intros j Lj. by apply Hj.
      * intros (k & _ & Ak & Bk). destruct (Nat.lt_trichotomy k i) as [K|[->|K]].
        -- rewrite (proj1 (Hj k K)) in Ak. discriminate.
        -- congruence.
        -- rewrite (Bk i K) in A. discriminate.
    + apply IH; [|lia]. intros j Lj. destruct (decide (j = i)) as [->|]; [done|]. apply Hj. lia.
    + exists None. split; [done|]. intros s'. split; [done|]. intros (k & _ & Ak & Bk).
      destruct (Nat.lt_trichotomy k i) as [K|[->|K]]; [rewrite (proj1 (Hj k K)) in Ak; discriminate|congruence|rewrite (Bk i K) in A; discriminate].
  - exists None. split; [done|]. intros s'. split; [done|]. intros (k & Ck & Ak & Bk).
    destruct (Nat.lt_ge_cases k i) as [K|K]; [rewrite (proj1 (Hj k K)) in Ak; discriminate|].
    assert (clock i <= clock k); [|lia]. clear - Hm K. induction K; [lia|]. specialize (Hm m). lia.
Qed.

(** C40: the socket is its user's from the moment it exists: from any place not
    listened on by this process, with any umask and wherever [serve] stops, no
    state on its way lets another user (but root) reach the daemon - not even
    between bind and chmod, which the directory's mode covers; when it
    succeeds, its user does reach it, through a socket of mode 0600 in a
    directory of mode 0700 that this user owns. *)
Theorem serve_private (me umask : Z) (l : nat) (ok : Call -> bool) (p : Place) :
  match pl_sock p with Some (_, l') => l' <> l | None => True end ->
  let '(ps, q, r) := serve_socket me umask l ok p in
  Forall (fun s => forall uid, uid <> me -> uid <> 0 -> reaches s uid <> Some l) (ps ++ [q])
  /\ (r = true -> reaches q me = Some l
       /\ q = mkPlace (Some (mkNode me (perm 7 0 0))) (Some (mkNode me (perm 6 0 0), l))).
Proof.
  intros Hl. pose proof (serve_socket_stages me umask l ok p Hl) as G.
  destruct (serve_socket me umask l ok p) as [[ps q] r]. destruct G as (F & Q & R). split.
  - apply Forall_app. split; [eapply Forall_impl; [exact F|]|constructor; [|constructor]]; cbv beta;
      intros; by apply (guarded_reach me).
  - intros E. rewrite (R E). split; [|done]. unfold reaches, may. cbn [pl_dir pl_sock n_owner n_mode].
    by rewrite Z.eqb_refl, !orb_true_r.
Qed.

(** a second [serve] of the same user takes the first one's place: it
    removes the socket file of the running daemon and binds its own. From then
    on, whatever the clients and further daemons do, no connection reaches the
    first daemon: its VMs stay registered, and no command changes it again. *)
Theorem serve_steals `{Serde Request} `{Serde Reply} (me umask : Z) (h : Host) (l1 l2 : nat) (d1 : Daemon) (ok : Call -> bool) (steps : list HostStep) :
  h_daemons h !! l1 = Some d1 -> reaches (h_place h) me = Some l1 -> l2 <> l1 ->
  snd (serve_socket me umask l2 ok (h_place h)) = true ->
  Forall (fun s => ~ starts_as l1 s) steps ->
  let h' := foldl (host_step me umask) (serve me umask h l2 ok) steps in
  reaches (h_place (serve me umask h l2 ok)) me = Some l2
  /\ h_daemons h' !! l1 = Some d1 /\ (forall uid, reaches (h_place h') uid <> Some l1).
Proof.
  intros Hd Hr Hn Hs Hf. cbv zeta.
  assert (Hl : match pl_sock (h_place h) with Some (_, l') => l' <> l2 | None => True end).
  { unfold reaches in Hr. destruct (pl_dir (h_place h)); [|done]. destruct (pl_sock (h_place h)) as [[m l']|]; [|done].
    destruct (_ && _); [|done]. injection Hr as ->. done. }
  pose proof (serve_socket_stages me umask l2 ok (h_place h) Hl) as G.
  destruct (serve_socket me umask l2 ok (h_place h)) as [[ps q] r] eqn:E. cbn [snd] in Hs. subst r.
  destruct G as (_ & _ & Eq). specialize (Eq eq_refl).
  assert (Es : serve me umask h l2 ok = mkHost q (<[l2 := Daemon_new]> (h_daemons h))) by (unfold serve; by rewrite E).
  rewrite Es. split.
  { rewrite Eq. unfold reaches, may. cbn. by rewrite Z.eqb_refl, !orb_true_r. }
  apply (lost_steps me umask l1 d1); [done|]. split; cbn [h_daemons h_place]; [by rewrite lookup_insert_ne|]. cbn [h_place]. rewrite Eq. cbn. by intros n [=].
Qed.

(** ** Witnesses *)

Definition toy_place : Place := mkPlace (Some (mkNode 1000 (perm 7 5 5))) (Some (mkNode 1000 (perm 6 0 0), 1%nat)).
Definition toy_host : Host := mkHost toy_place {[ 1%nat := Daemon_new ]}.

Lemma serve_private_witness :
  let '(ps, q, r) := serve_socket 1000 0x12 2 (fun _ => true) toy_place in
  reaches q 1000 = Some 2%nat /\ Forall (fun s => forall uid, uid <> 1000 -> uid <> 0 -> reaches s uid <> Some 2%nat) (ps ++ [q]).
Proof.
  pose proof (serve_private 1000 0x12 2 (fun _ => true) toy_place) as P.
  assert (E : exists ps q, serve_socket 1000 0x12 2 (fun _ => true) toy_place = (ps, q, true)) by (by eexists _, _).
  destruct E as (ps & q & E). rewrite E in *. destruct P as [F G]; [done|]. split; [by apply G|done].
Defined.

#[local] Instance toy_request : Serde Request := {| to_vec _ := []; from_slice _ := Some ListVms |}.
#[local] Instance toy_reply : Serde Reply := {| to_vec _ := []; from_slice _ := None |}.

Lemma serve_steals_witness :
  h_daemons (serve 1000 0x12 toy_host 2 (fun _ => true)) !! 1%nat = Some Daemon_new
  /\ reaches (h_place (serve 1000 0x12 toy_host 2 (fun _ => true))) 1000 = Some 2%nat.
Proof.
  pose proof (serve_steals 1000 0x12 toy_host 1 2 Daemon_new (fun _ => true) []) as P.
  destruct P as (R & D & _); [reflexivity|reflexivity|done|reflexivity|constructor|]. by split.
Defined.

Lemma statm_reading_witness :
  rss_bytes_linux 7 (fun p => if String.eqb p "/proc/7/statm" then Some (str_bytes (statm_text 9000 1200 "31 5 0 77 0")) else None) 4096
  = 1200 * 4096.
Proof.
  apply (statm_reading 7 9000 1200 4096 "31 5 0 77 0"); [lia|lia|lia|lia|reflexivity|reflexivity].
Defined.

Lemma fd_limit_raised_witness :
  rlim_cur (raise_fd_limit rlimit_linux true (fun _ => true) (mkRlimit 1024 (2 ^ 64 - 1))) = 2 ^ 20.
Proof.
  pose proof (fd_limit_raised rlimit_linux true (fun _ => true) (mkRlimit 1024 (2 ^ 64 - 1))) as P.
  cbv zeta in P. rewrite (proj2 (proj2 (P ltac:(done) ltac:(done)))) by done. reflexivity.
Defined.

Lemma worker_fds_witness :
  let t : Fds nat := {[ 3 := mkFd 30%nat true; 4 := mkFd 40%nat true; 9 := mkFd 90%nat true ]} in
  spawned_fds t 0%nat 1%nat 2%nat (fst (attach_control 9)) = Some (<[3 := mkFd 90%nat false]> (stdio_fds ∅ 0%nat 1%nat 2%nat)).
Proof.
  intros t. apply (worker_fds t 9 90%nat 0%nat 1%nat 2%nat); [|lia|reflexivity].
  unfold t. intros n f. rewrite !lookup_insert, lookup_singleton. by repeat case_decide; intros [= <-].
Defined.

Lemma accept_waits_witness : exists r : option nat,
  accept_timeout 8 (fun i => 25 * Z.of_nat i) (fun i => if (i <? 3)%nat then AcceptWouldBlock else AcceptOk 7%nat) 0 100 = Some r.
Proof.
  destruct (accept_waits (fun i => 25 * Z.of_nat i) (fun i => if (i <? 3)%nat then AcceptWouldBlock else AcceptOk 7%nat) 0 100 8)
    as (r & E & _); [lia|lia|lia|intros i _; lia|vm_compute; lia|]. by exists r.
Defined.
