(* ===== verification/Cli.v ===== *)
(** * Cli: the command line (crates/amber/src/main.rs)

    The commands' arguments and environment, the configuration a worker
    builds for its VM, and exit statuses. The image build is [Image]'s, the
    initramfs [Bootstrap]'s, the daemon's answers [Serve]'s; starting the VM
    is [Machine.prepare]. Program names are never ["--"].

    [guest_runs_request]: from a request to the guest's command;
    [ram_charged]: RAM charged and RAM allocated; [worker_args_exact] and
    [template_env_overrides]: arguments and environment; [disk_size];
    [exec_status]: exit statuses. *)

From stdpp Require Import pretty.
From S2P Require Import Prelude Proto Machine Fs Cpio Registry Text Image Bootstrap Daemon Exec Serve.

#[local] Open Scope Z_scope.

(** ** Arguments *)

Fixpoint position (args : list string) : option nat :=
  match args with
  | [] => None
  | a :: args' => if String.eqb a "--" then Some O else S <$> position args'
  end.
(** What is between the command and the first ["--"], and what follows it. *)
Definition head_args (args : list string) : list string :=
  match position args with Some i => drop 2 (take i args) | None => drop 2 args end.
Definition tail_args (args : list string) : list string :=
  match position args with Some i => drop (S i) args | None => [] end.
Definition dashed (a : string) : bool := match a with String c _ => Ascii.eqb c (ch "-") | EmptyString => false end.

Inductive RunPlan :=
| RunUsage | RunNoDaemon | RunDetach (target : string) (argv : list string)
| RunHere | RunClient (target : string) (argv : list string).

Definition cmd_run (running : bool) (args : list string) : RunPlan :=
  let argv := tail_args args in
  let detached := existsb (fun a => String.eqb a "-d" || String.eqb a "--detach") (head_args args) in
  match List.find (fun a => negb (dashed a)) (head_args args) with
  | None => RunUsage
  | Some target =>
      if detached then if running then RunDetach target argv else RunNoDaemon
      else if running then RunClient target argv else RunHere
  end.

Definition cmd_exec (args : list string) : option (string * string) :=
  let split := position args in
  match args !! 2%nat with
  | Some template =>
      if bool_decide (split = Some 2%nat) then None
      else
        let cmd := match split with Some i => join_with " " (drop (S i) args) | None => EmptyString end in
        if String.eqb cmd EmptyString then None else Some (template, cmd)
  | None => None
  end.

Definition cmd_fork (args : list string) : option (bool * string) :=
  let rest := drop 2 args in
  match List.find (fun a => negb (dashed a)) rest with
  | Some template => Some (existsb (fun a => String.eqb a "-i") rest, template)
  | None => None
  end.

Definition cmd_balloon (args : list string) : option (string * Z) :=
  id ← args !! 2%nat; s ← args !! 3%nat; m ← parse_u64 s; Some (id, m).

(** ** Exit statuses *)

Definition SUCCESS : Z := 0.
Definition FAILURE : Z := 1.
(** [ExitCode::from(code.clamp(0, 255) as u8)]. *)
Definition exit_status (r : Z + ClientErr) : Z :=
  match r with inl code => Z.max 0 (Z.min code 255) | inr _ => FAILURE end.

(** [fmt_age]. *)
Definition fmt_age (secs : Z) : string :=
  if secs <? 60 then pretty secs +:+ "s" else if secs <? 3600 then pretty (secs / 60) +:+ "m" else pretty (secs / 3600) +:+ "h".

(** The numbers of [cmd_budget]: in use, free in the fleet (unless
    unlimited), real, and free on the host, in MiB. *)
Definition budget_line (budget used rss : Z) : Z * option Z * Z :=
  (mib used, if budget =? 0 then None else Some (mib (ssub budget used)), mib rss).
Definition host_free (budget rss machine : Z) : option Z :=
  if 0 <? machine then Some (mib (ssub machine (if budget =? 0 then rss else budget))) else None.

(** ** Environment *)

(** A variable that is set and not empty. *)
Definition var_nonempty (envs : Env) (k : string) : option string :=
  s ← envs !! k; if String.eqb s EmptyString then None else Some s.

Record SnapshotReq := mkSnapshotReq { after_ms : Z; sr_dir : Path; marker : option (list Z) }.
Definition snapshot_from_env (envs : Env) : option SnapshotReq :=
  dir ← var_nonempty envs "AMBER_SNAPSHOT";
  let ms := default 2000 (s ← envs !! "AMBER_SNAPSHOT_AFTER_MS"; parse_u64 s) in
  Some (mkSnapshotReq ms (path_of_str dir) (text <$> var_nonempty envs "AMBER_SNAPSHOT_MARKER")).

(** [spec.strip_suffix(":ro")]. *)
Definition strip_suffix (suffix s : string) : option string :=
  let n := (String.length s - String.length suffix)%nat in
  if String.eqb (String.substring n (String.length suffix) s) suffix && (String.length suffix <=? String.length s)%nat
  then Some (String.substring 0 n s) else None.
Definition parse_disk (spec : string) : Path * bool :=
  match strip_suffix ":ro" spec with Some p => (path_of_str p, false) | None => (path_of_str spec, true) end.

Fixpoint split_on (c : Ascii.ascii) (s : string) : string * list string :=
  match s with
  | EmptyString => (EmptyString, [])
  | String x s' => let '(a, l) := split_on c s' in if Ascii.eqb x c then (EmptyString, a :: l) else (String x a, l)
  end.
Definition split_list (c : Ascii.ascii) (s : string) : list string := let '(a, l) := split_on c s in a :: l.

Definition data_disks (envs : Env) (t : option Template) : list (Path * bool) :=
  match envs !! "AMBER_DISK" with
  | Some l => map parse_disk (List.filter (fun s => negb (String.eqb s EmptyString)) (split_list (ch ",") l))
  | None => [] end
  ++ match t with Some t => map parse_disk (t_disks t) | None => [] end.

(** [k=v] over the image's binding of [k]. *)
Definition starts_with (p s : string) : bool := match strip_prefix p s with Some _ => true | None => false end.
Definition set_env (env : list string) (kv : string * string) : list string :=
  List.filter (fun e => negb (starts_with (fst kv +:+ "=") e)) env ++ [fst kv +:+ "=" +:+ snd kv].
Definition override_env (env : list string) (kvs : list (string * string)) : list string := foldl set_env env kvs.

(** ** The worker *)

Record VmConfig := mkVmConfig {
  vc_mem_size : Z;
  vc_vcpus : Z;
  vc_kernel : list Z;
  vc_initrd : option (list Z);
  vc_cmdline : string;
  vc_disk : option Path;
  vc_data_disks : list (Path * bool);
  vc_vsock : option Path;
  vc_cpu_template : option string;
  vc_snapshot : option SnapshotReq;
  vc_control_fd : option Z
}.

Definition DEFAULT_MEM_SIZE : Z := 512 * 1024 * 1024.
Definition DEFAULT_CMDLINE : string := "console=ttyAMA0 quiet".

Inductive NetKind := NetCapture | NetSmoltcp.
(** [amber_net::backend], with its smoltcp feature. *)
Definition backend (kind : string) : option NetKind := if String.eqb kind "smoltcp" then Some NetSmoltcp else None.
Definition net_from_env (envs : Env) : option NetKind :=
  match envs !! "AMBER_NET" with
  | Some kind =>
      if String.eqb kind "none" || String.eqb kind "off" then None
      else if String.eqb kind "capture" then Some NetCapture else backend kind
  | None => backend "smoltcp"
  end.

Definition vcpus_of (envs : Env) (t : option Template) : Z :=
  let n := default 1 (match (s ← envs !! "AMBER_VCPUS"; parse_u64 s) with
    | Some n => Some n | None => t ← t; t_vcpus t end) in
  Z.max 1 (Z.min n 8).

Inductive VmFail := VUsage | VBuild (e : Error) | VNoCommand | VNoDisk (p : Path) | VBootstrap | VKernel.

Section Worker.
Context `{Json J} `{Sha256} `{Serde ImageConfig} `{Serde (gmap string string)}.
Variable web : list Req -> Answer.
Variables (dir_mode file_mode room : Z) (host_links : bool) (stamp : string).
Variable tar_entries : list Z -> list (option Flatten.TarEntry).
Variable tar_members : list Z -> list (option (string * list Z * bool)).
Variable gunzip : list Z -> list Z.
Variable mksquashfs : Fs -> Path -> option (list Z) * bool.
Variable parse_size : string -> option Z.
Variable manifest : option Manifest.
Variable exe : option Path.
Variable epoch : N.
Variable gz : list Z -> option (list Z).

Definition build_image (log : list Req) (fs : Fs) (envs : Env) (reference : string) (refresh : bool)
    : list Req * Fs * (Built + Error) :=
  build web dir_mode file_mode room host_links stamp tar_entries tar_members gunzip mksquashfs
    log fs reference (cache_dir envs) refresh.

Definition template_of (target : string) : option Template := m ← manifest; m_template m !! target.

(** A template's I/O cap as an environment variable, unless it is set. *)
Definition set_cap (envs : Env) (var : string) (cap : option string) : Env :=
  match envs !! var with
  | Some _ => envs
  | None => match c ← cap; parse_size c with Some b => <[var := pretty b]> envs | None => envs end
  end.

Definition vm_envs (envs : Env) (t : option Template) : Env :=
  match t with
  | Some t => set_cap (set_cap envs "AMBER_DISK_BPS" (t_disk_bps t)) "AMBER_NET_BPS" (t_net_bps t)
  | None => envs
  end.
Definition vm_image (target : string) (t : option Template) : string := match t with Some t => t_image t | None => target end.
Definition guest_config (built : Built) (t : option Template) : ImageConfig :=
  let c := b_config built in
  mkImageConfig (entrypoint c) (cmd c) (override_env (env c) (match t with Some t => t_env t | None => [] end)) (working_dir c).
Definition guest_argv (config : ImageConfig) (user_argv : list string) : list string :=
  match user_argv with [] => default_argv config | _ => user_argv end.
Definition mem_of (envs : Env) (t : option Template) : Z :=
  let mem_size := t ← t; c ← t_ram_cap t; parse_size c in
  default (default DEFAULT_MEM_SIZE mem_size) (s ← envs !! "AMBER_MEM"; parse_size s).
Definition cmdline_of (envs : Env) : string :=
  match envs !! "AMBER_VERBOSE" with Some _ => "earlycon=pl011,0x9000000 console=ttyAMA0" | None => DEFAULT_CMDLINE end.

(** [cmd_vm] up to [Vm::prepare]: the registry requests, the file system, the
    environment, and the configuration with its network. *)
Definition cmd_vm (log : list Req) (fs : Fs) (envs : Env) (args : list string)
    : list Req * Fs * Env * ((VmConfig * option NetKind) + VmFail) :=
  match args !! 2%nat with
  | None => (log, fs, envs, inr VUsage)
  | Some target =>
      let t := template_of target in
      let envs := vm_envs envs t in
      match build_image log fs envs (vm_image target t) false with
      | (log, fs, inr e) => (log, fs, envs, inr (VBuild e))
      | (log, fs, inl built) =>
          let config := guest_config built t in
          match guest_argv config (tail_args args) with
          | [] => (log, fs, envs, inr VNoCommand)
          | argv =>
              let disks := data_disks envs t in
              match List.find (fun d => negb (fs_exists fs (fst d))) disks with
              | Some d => (log, fs, envs, inr (VNoDisk (fst d)))
              | None =>
                  match build_bootstrap fs envs exe epoch gz config argv (length disks) with
                  | None => (log, fs, envs, inr VBootstrap)
                  | Some initrd =>
                      match read_path fs (asset fs envs exe KERNEL) with
                      | None => (log, fs, envs, inr VKernel)
                      | Some kernel =>
                          (log, fs, envs, inl (mkVmConfig (mem_of envs t) (vcpus_of envs t) kernel (Some initrd)
                             (cmdline_of envs) (Some (b_base built)) disks
                             (path_of_str <$> var_nonempty envs "AMBER_VSOCK") (var_nonempty envs "AMBER_CPU_TEMPLATE")
                             (snapshot_from_env envs) (s ← envs !! "AMBER_CONTROL_FD"; parse_i32 s), net_from_env envs))
                      end
                  end
              end
          end
      end
  end.

(** [cmd_template]: the worker's environment and arguments. *)
Definition template_env (envs : Env) (dir : string) (pid : N) : Env :=
  <["AMBER_SNAPSHOT_AFTER_MS" := "30000"]> (<["AMBER_SNAPSHOT_MARKER" := "__AMBER_READY__"]>
  (<["AMBER_SNAPSHOT" := dir]> (<["AMBER_VSOCK" := "/tmp/amber-tmpl-vsock-" +:+ pretty pid]>
  (<["AMBER_NET" := "smoltcp"]> (<["AMBER_GIC" := "sw"]> envs))))).
Definition cmd_template (log : list Req) (fs : Fs) (envs : Env) (args : list string) (pid : N) :=
  match args !! 2%nat, args !! 3%nat with
  | Some image, Some dir => cmd_vm log fs (template_env envs dir pid) ["amber"; "__vm"; image; "--"; AGENT_PATH]
  | _, _ => (log, fs, envs, inr VUsage)
  end.

(** [cmd_restore]: the directory, a vsock base, and the control channel with
    whether the worker starts paused; the network is always offered. *)
Record RestorePlan := mkRestore { rp_dir : Path; rp_vsock : option Path; rp_control : option (Z * bool) }.
Definition cmd_restore (envs : Env) (args : list string) : option RestorePlan :=
  dir ← args !! 2%nat;
  Some (mkRestore (path_of_str dir) (path_of_str <$> var_nonempty envs "AMBER_VSOCK")
    (fd ← (s ← envs !! "AMBER_CONTROL_FD"; parse_i32 s); Some (fd, bool_decide (envs !! "AMBER_PAUSED" = Some "1")))).

(** [cmd_boot]: a raw kernel. *)
Definition cmd_boot (fs : Fs) (envs : Env) (args : list string) : VmConfig + VmFail :=
  match args !! 2%nat with
  | None => inr VUsage
  | Some k =>
      match read_path fs (path_of_str k) with
      | None => inr VKernel
      | Some kernel =>
          inl (mkVmConfig DEFAULT_MEM_SIZE (Z.max 1 (Z.min (default 1 (s ← envs !! "AMBER_VCPUS"; parse_u64 s)) 8)) kernel
            (p ← args !! 3%nat; read_path fs (path_of_str p)) DEFAULT_CMDLINE (path_of_str <$> args !! 4%nat) []
            (path_of_str <$> var_nonempty envs "AMBER_VSOCK") (var_nonempty envs "AMBER_CPU_TEMPLATE")
            (snapshot_from_env envs) (s ← envs !! "AMBER_CONTROL_FD"; parse_i32 s))
      end
  end.

(** [cmd_disk]: the size of the image, and the path it is created at. *)
Definition disk_bytes (bytes : Z) : Z := u64 ((bytes + 511) / 512 * 512).
Definition cmd_disk (fs : Fs) (args : list string) : option (Fs * Z) :=
  match args !! 2%nat, args !! 3%nat, args !! 4%nat with
  | Some "create", Some path, Some size =>
      match parse_size size with
      | None => None
      | Some bytes =>
          match new_place fs (path_of_str path) with
          | inr _ => None
          | inl r => let n := disk_bytes bytes in Some (<[r := NFile (zeros n) file_mode]> fs, n)
          end
      end
  | _, _, _ => None
  end.
End Worker.

(** The arguments amberd gives a worker. *)
Definition worker_args (reference : string) (argv : list string) : list string :=
  "amber" :: "__vm" :: reference :: match argv with [] => [] | _ => "--" :: argv end.

(** What [Machine.prepare] takes of a configuration. *)
Definition comp_text (c : Comp) : string :=
  match c with RootDir => EmptyString | CurDir => "." | ParentDir => ".." | Normal s => s end.
Definition path_text (p : Path) : string :=
  match p with [RootDir] => "/" | _ => join_with "/" (map comp_text p) end.
Definition machine_config (c : VmConfig) : Machine.VmConfig :=
  Machine.mkConfig (vc_mem_size c) (vc_vcpus c) (vc_kernel c) (vc_initrd c) (path_text <$> vc_disk c)
    (map (fun d => (path_text (fst d), snd d)) (vc_data_disks c)) (path_text <$> vc_vsock c).

(** ** Lemmas *)

Lemma position_app (a b : list string) : "--" ∉ a -> position (a ++ "--" :: b) = Some (length a).
Proof.
  induction a as [|x a IH]; [done|]. intros [Nx Na]%not_elem_of_cons. cbn [app position length].
  destruct (String.eqb_spec x "--"); [congruence|]. by rewrite IH.
Qed.

Lemma position_none (a : list string) : "--" ∉ a -> position a = None.
Proof.
  induction a as [|x a IH]; [done|]. intros [Nx Na]%not_elem_of_cons. cbn [position].
  destruct (String.eqb_spec x "--"); [congruence|]. by rewrite IH.
Qed.

Lemma tail_args_app (a b : list string) : "--" ∉ a -> tail_args (a ++ "--" :: b) = b.
Proof.
  intros N. unfold tail_args. rewrite position_app by done.
  replace (S (length a)) with (length a + 1)%nat by lia. by rewrite <- drop_drop, drop_app_length.
Qed.

Lemma head_args_app (a b : list string) : "--" ∉ a -> head_args (a ++ "--" :: b) = drop 2 a.
Proof. intros N. unfold head_args. by rewrite position_app, take_app_length by done. Qed.

Lemma tail_args_none (a : list string) : "--" ∉ a -> tail_args a = [].
Proof. intros N. unfold tail_args. by rewrite position_none. Qed.

Lemma tail_worker_args (reference : string) (argv : list string) : reference <> "--" ->
  tail_args (worker_args reference argv) = argv.
Proof.
  intros N. destruct argv as [|a argv].
  - apply tail_args_none. unfold worker_args. rewrite !not_elem_of_cons. repeat split; try congruence. apply not_elem_of_nil.
  - apply (tail_args_app ["amber"; "__vm"; reference]). rewrite !not_elem_of_cons. repeat split; try congruence. apply not_elem_of_nil.
Qed.

(** ** Configurations *)

Section Configured.
Context `{Json J} `{Sha256} `{Serde ImageConfig} `{Serde (gmap string string)}.
Variable web : list Req -> Answer.
Variables (dir_mode file_mode room : Z) (host_links : bool) (stamp : string).
Variable tar_entries : list Z -> list (option Flatten.TarEntry).
Variable tar_members : list Z -> list (option (string * list Z * bool)).
Variable gunzip : list Z -> list Z.
Variable mksquashfs : Fs -> Path -> option (list Z) * bool.
Variable parse_size : string -> option Z.
Variable manifest : option Manifest.
Variable exe : option Path.
Variable epoch : N.
Variable gz : list Z -> option (list Z).

Abbreviation build_image := (build_image web dir_mode file_mode room host_links stamp tar_entries tar_members gunzip mksquashfs).
Abbreviation cmd_vm := (cmd_vm web dir_mode file_mode room host_links stamp tar_entries tar_members gunzip mksquashfs
  parse_size manifest exe epoch gz).

Lemma set_cap_other (envs : Env) (var k : string) (cap : option string) : k <> var ->
  set_cap parse_size envs var cap !! k = envs !! k.
Proof.
  intros N. unfold set_cap. destruct (envs !! var); [done|]. destruct (c ← cap; parse_size c); [|done].
  by rewrite lookup_insert_ne.
Qed.

Lemma vm_envs_other (envs : Env) (t : option Template) (k : string) : k <> "AMBER_DISK_BPS" -> k <> "AMBER_NET_BPS" ->
  vm_envs parse_size envs t !! k = envs !! k.
Proof. intros N1 N2. destruct t; [|done]. cbn [vm_envs]. by rewrite !set_cap_other. Qed.

Lemma cmd_vm_inl (log log' : list Req) (fs fs' : Fs) (envs envs' : Env) (args : list string) (cfg : VmConfig) (net : option NetKind) :
  cmd_vm log fs envs args = (log', fs', envs', inl (cfg, net)) ->
  exists target built,
    args !! 2%nat = Some target
    /\ let t := template_of manifest target in
    let config := guest_config built t in
    let argv := guest_argv config (tail_args args) in
    envs' = vm_envs parse_size envs t
    /\ build_image log fs envs' (vm_image target t) false = (log', fs', inl built)
    /\ argv <> [] /\ Forall (fun d => fs_exists fs' (fst d) = true) (vc_data_disks cfg)
    /\ vc_data_disks cfg = data_disks envs' t
    /\ build_bootstrap fs' envs' exe epoch gz config argv (length (data_disks envs' t)) = vc_initrd cfg
    /\ is_Some (vc_initrd cfg) /\ read_path fs' (asset fs' envs' exe KERNEL) = Some (vc_kernel cfg)
    /\ vc_mem_size cfg = mem_of parse_size envs' t /\ vc_vcpus cfg = vcpus_of envs' t
    /\ vc_disk cfg = Some (b_base built).
Proof.
  unfold Cli.cmd_vm. destruct (args !! 2%nat) as [target|]; [|done]. set (t := template_of manifest target).
  cbv zeta. destruct (build_image _ _ _ _ _) as [[log1 fs1] [built|e]] eqn:Eb; [|done].
  destruct (guest_argv _ _) as [|a argv] eqn:Ea; [done|].
  destruct (List.find _ _) as [d|] eqn:Ed; [done|].
  destruct (build_bootstrap _ _ _ _ _ _ _ _) as [initrd|] eqn:Ei; [|done].
  destruct (read_path _ _) as [kernel|] eqn:Ek; [|done]. intros [= <- <- <- <- <-].
  exists target, built. cbv zeta. fold t. rewrite Ea. repeat (split; [done|]). cbn [vc_data_disks vc_initrd vc_kernel vc_mem_size vc_vcpus vc_disk].
  split; [|by repeat (split; [done|])].
  apply Forall_forall. intros d I. apply list_elem_of_In in I. pose proof (List.find_none _ _ Ed d I) as X. cbn in X.
  by apply negb_false_iff in X.
Qed.

(** What a worker allocates: its RAM is what [vm_ram_bytes] charges
    amberd's budget for the same target, unless AMBER_MEM says otherwise in
    its environment, which the charge does not look at; it has one to eight
    CPUs, and every data disk it is given exists. *)
Theorem ram_charged (log log' : list Req) (fs fs' : Fs) (envs envs' : Env) (args : list string) (target : string)
    (cfg : VmConfig) (net : option NetKind) :
  cmd_vm log fs envs args = (log', fs', envs', inl (cfg, net)) -> args !! 2%nat = Some target ->
  vc_mem_size cfg = default (Daemon.vm_ram_bytes parse_size manifest target) (s ← envs !! "AMBER_MEM"; parse_size s)
  /\ 1 <= vc_vcpus cfg <= 8 /\ Forall (fun d => fs_exists fs' (fst d) = true) (vc_data_disks cfg).
Proof.
  intros E At. destruct (cmd_vm_inl _ _ _ _ _ _ _ _ _ E) as (target' & built & At' & X). cbv zeta in X.
  rewrite At in At'. injection At' as <-. destruct X as (-> & _ & _ & Fd & _ & _ & _ & _ & -> & -> & _).
  split; [|split; [unfold vcpus_of; lia|done]].
  unfold mem_of. rewrite vm_envs_other by done. f_equal. unfold Daemon.vm_ram_bytes, template_of. by destruct manifest.
Qed.


End Configured.

(** ** Properties *)

(** A worker gets from its arguments exactly the reference and the
    command amberd was asked for, and so does amberd's client from its own,
    whatever flags and dashes the command itself holds. *)
Theorem worker_args_exact (reference : string) (flags argv : list string) (running : bool) :
  reference <> "--" -> dashed reference = false -> Forall (fun f => dashed f = true /\ f <> "--") flags ->
  worker_args reference argv !! 2%nat = Some reference /\ tail_args (worker_args reference argv) = argv
  /\ (existsb (fun a => String.eqb a "-d" || String.eqb a "--detach") flags = false ->
      String.eqb reference "-d" || String.eqb reference "--detach" = false ->
      cmd_run true ("amber" :: "run" :: flags ++ reference :: "--" :: argv) = RunClient reference argv).
Proof.
  intros N D F. split; [done|]. split.
  - by apply tail_worker_args.
  - intros Ef Er. unfold cmd_run.
    replace ("amber" :: "run" :: flags ++ reference :: "--" :: argv)
      with (("amber" :: "run" :: flags ++ [reference]) ++ "--" :: argv) by (cbn [app]; by rewrite <- app_assoc).
    assert (P : "--" ∉ "amber" :: "run" :: flags ++ [reference]).
    { rewrite !not_elem_of_cons, not_elem_of_app, list_elem_of_singleton. repeat split; try done.
      intros E. rewrite Forall_forall in F. by destruct (F _ E). }
    rewrite head_args_app, tail_args_app by done. change (drop 2 ("amber" :: "run" :: flags ++ [reference])) with (flags ++ [reference]).
    assert (G : forall l, Forall (fun f => dashed f = true /\ f <> "--") l -> List.find (fun a => negb (dashed a)) (l ++ [reference]) = Some reference).
    { induction 1 as [|f l [Df _] _ IH]; cbn; [by rewrite D|by rewrite Df]. }
    rewrite G by done. rewrite existsb_app, Ef. cbn [existsb]. by rewrite Er.
Qed.

Lemma worker_args_exact_witness :
  tail_args (worker_args "alpine:3" ["sh"; "-c"; "--"]) = ["sh"; "-c"; "--"]
  /\ cmd_run true ["amber"; "run"; "-x"; "alpine"; "--"; "ls"; "-d"] = RunClient "alpine" ["ls"; "-d"].
Proof.
  split.
  - refine (proj1 (proj2 (worker_args_exact "alpine:3" [] ["sh"; "-c"; "--"] true _ _ _))); [discriminate|reflexivity|constructor].
  - refine (proj2 (proj2 (worker_args_exact "alpine" ["-x"] ["ls"; "-d"] true _ _ _)) _ _); try reflexivity; try discriminate.
    repeat constructor; discriminate.
Defined.

Lemma strip_prefix_eq (p s : string) (r : string) : strip_prefix p s = Some r <-> s = p +:+ r.
Proof.
  revert s. induction p as [|c p IH]; intros s; [by split; [intros [= ->]|intros ->]|].
  destruct s as [|d s]; [done|]. cbn [strip_prefix]. rewrite app_string. destruct (Ascii.eqb_spec c d) as [->|N].
  - rewrite IH. split; [by intros ->|by intros [= ->]].
  - split; [done|]. by intros [= <-].
Qed.

Lemma starts_self (k v : string) : starts_with (k +:+ "=") (k +:+ "=" +:+ v) = true.
Proof.
  unfold starts_with. assert (strip_prefix (k +:+ "=") (k +:+ "=" +:+ v) = Some v) as ->; [|done].
  apply strip_prefix_eq. by rewrite app_assoc_string.
Qed.

(** Bindings of different keys do not start alike. *)
Lemma starts_other (k k' v : string) : contains (ch "=") k = false -> contains (ch "=") k' = false -> k <> k' ->
  starts_with (k +:+ "=") (k' +:+ "=" +:+ v) = false.
Proof.
  intros Nk Nk' Ne. unfold starts_with. destruct (strip_prefix _ _) as [r|] eqn:E; [exfalso|done].
  apply strip_prefix_eq in E. rewrite app_assoc_string in E. revert k' Nk' Ne E.
  induction k as [|c k IH]; intros [|d k'] Nk' Ne E; [done| | |].
  - rewrite app_string in E. injection E as -> _. by rewrite contains_cons in Nk'.
  - rewrite app_string in E. injection E as <- _. by rewrite contains_cons in Nk.
  - rewrite !app_string in E. injection E as <- E. rewrite contains_cons, orb_false_iff in Nk, Nk'.
    destruct Nk as [_ Nk], Nk' as [_ Nk']. eapply (IH Nk k'); [done| |done]. by intros ->.
Qed.

Lemma set_env_same (env : list string) (k v : string) :
  List.filter (starts_with (k +:+ "=")) (set_env env (k, v)) = [k +:+ "=" +:+ v].
Proof.
  unfold set_env. cbn [fst snd]. rewrite List.filter_app. cbn [List.filter]. rewrite starts_self.
  assert (List.filter (starts_with (k +:+ "=")) (List.filter (fun e => negb (starts_with (k +:+ "=") e)) env) = []) as ->; [|done].
  induction env as [|e env IH]; [done|]. cbn [List.filter]. destruct (starts_with (k +:+ "=") e) eqn:X; cbn [negb]; [done|].
  cbn [List.filter]. by rewrite X.
Qed.

Lemma set_env_other (env : list string) (k k' v : string) : contains (ch "=") k = false -> contains (ch "=") k' = false -> k <> k' ->
  (forall e, starts_with (k +:+ "=") e = true -> starts_with (k' +:+ "=") e = false) ->
  List.filter (starts_with (k +:+ "=")) (set_env env (k', v)) = List.filter (starts_with (k +:+ "=")) env.
Proof.
  intros Nk Nk' Ne D. unfold set_env. cbn [fst snd]. rewrite List.filter_app. cbn [List.filter]. rewrite starts_other, app_nil_r by done.
  induction env as [|e env IH]; [done|]. cbn [List.filter]. destruct (starts_with (k' +:+ "=") e) eqn:X; cbn [negb].
  - destruct (starts_with (k +:+ "=") e) eqn:Y; [by rewrite D in X|done].
  - cbn [List.filter]. by rewrite IH.
Qed.

Lemma starts_apart (k k' e : string) : contains (ch "=") k = false -> contains (ch "=") k' = false -> k <> k' ->
  starts_with (k +:+ "=") e = true -> starts_with (k' +:+ "=") e = false.
Proof.
  intros Nk Nk' Ne. unfold starts_with at 1. destruct (strip_prefix _ _) as [r|] eqn:E; [intros _|done].
  apply strip_prefix_eq in E. subst e. rewrite app_assoc_string. by apply starts_other.
Qed.

(** A template's environment overrides the image's by key, in whatever
    order the map of it is walked: of each key the template sets there is
    exactly one binding, the template's, and the bindings of every other key
    are the image's, in order. *)
Theorem template_env_overrides (env : list string) (kvs : list (string * string)) (k : string) :
  NoDup kvs.*1 -> Forall (fun p => contains (ch "=") p.1 = false) kvs -> contains (ch "=") k = false ->
  List.filter (starts_with (k +:+ "=")) (override_env env kvs)
  = match (list_to_map kvs : gmap string string) !! k with
    | Some v => [k +:+ "=" +:+ v] | None => List.filter (starts_with (k +:+ "=")) env end.
Proof.
  intros ND G Nk. revert env ND. induction G as [|[k' v] l Gk G IH]; intros env ND; [done|].
  rewrite fmap_cons in ND. apply NoDup_cons in ND as [Nin ND]. cbn [fst] in Gk, Nin. unfold override_env. cbn [foldl].
  change (foldl set_env ?e l) with (override_env e l). rewrite IH by done. cbn [list_to_map].
  change (list_to_map ((k', v) :: l) : gmap string string) with (<[k' := v]> (list_to_map l : gmap string string)).
  destruct (decide (k = k')) as [<-|Ne].
  - rewrite lookup_insert_eq, not_elem_of_list_to_map_1 by done. apply set_env_same.
  - rewrite lookup_insert_ne by done. destruct ((list_to_map l : gmap string string) !! k); [done|].
    apply set_env_other; try done. intros e. by apply starts_apart.
Qed.

(** The image [amber disk create] makes is whole sectors, at least what was
    asked for and less than a sector more, where no file was. *)
Lemma disk_size (file_mode : Z) (parse_size : string -> option Z) (fs fs' : Fs) (args : list string) (n : Z) :
  cmd_disk file_mode parse_size fs args = Some (fs', n) ->
  exists path size bytes r, args !! 3%nat = Some path /\ args !! 4%nat = Some size /\ parse_size size = Some bytes
    /\ new_place fs (path_of_str path) = inl r /\ fs' = <[r := NFile (zeros n) file_mode]> fs
    /\ (0 <= bytes <= 2 ^ 64 - 512 -> n mod 512 = 0 /\ bytes <= n < bytes + 512).
Proof.
  unfold cmd_disk. destruct (args !! 2%nat) as [c|]; [|done]. destruct (args !! 3%nat) as [path|]; [|by repeat case_match].
  destruct (args !! 4%nat) as [size|]; [|by repeat case_match]. intros E.
  assert (E' : match parse_size size with None => None | Some bytes =>
      match new_place fs (path_of_str path) with
      | inr _ => None
      | inl r => Some (<[r := NFile (zeros (disk_bytes bytes)) file_mode]> fs, disk_bytes bytes) end end = Some (fs', n)).
  { by repeat (match type of E with context [match ?x with _ => _ end] => is_var x; destruct x end; try done). }
  clear E. destruct (parse_size size) as [bytes|] eqn:Es; [|done]. destruct (new_place _ _) as [r|] eqn:Er; [|done].
  injection E' as <- <-. exists path, size, bytes, r. do 5 (split; [done|]). intros B. unfold disk_bytes, u64.
  pose proof (Z.div_mod (bytes + 511) 512 ltac:(lia)). pose proof (Z.mod_pos_bound (bytes + 511) 512 ltac:(lia)).
  rewrite (Z.mod_small (_ * 512)) by lia. split; [apply Z.mod_mul; lia|lia].
Qed.

(** The exit status of [amber exec] is the command's own while the
    command exits by itself; a command that a signal ended, which the agent
    reports as -1, makes it 0, success. *)
Theorem exec_status `{Serde Reply} (outs errs : list (list Z)) (frames : list (Z * list Z)) (code : option Z) (rest : list Z)
    (br : bool) (q : nat) :
  from_slice (to_vec (RExit (default (-1) code))) = Some (RExit (default (-1) code)) ->
  zlen (to_vec (RExit (default (-1) code))) <= MAX_FRAME -> from_option (fun c => 0 <= c <= 255) True code ->
  Forall chunk_ok outs -> Forall chunk_ok errs ->
  interleave (pump_frames 1 outs) (pump_frames 2 errs) frames -> (length frames <= q)%nat ->
  exit_status (snd (exec_client (mkReader
    (exec_reply (exec_relay (mkReader (agent_wire frames code ++ rest) br) (mkClient [] q))) false)))
  = default SUCCESS code.
Proof.
  intros Hs Hm Hc Ho He Hi Hq. rewrite (exec_delivers outs errs frames code rest br q); try done.
  - cbn [snd exit_status]. destruct code as [c|]; cbn in *; [lia|done].
  - unfold i32_range. destruct code as [c|]; cbn in *; lia.
Qed.

Lemma exec_status_witness :
  exit_status (snd (exec_client (mkReader (exec_reply (exec_relay (mkReader
    (agent_wire [(1, [104; 105])] None ++ []) false) (mkClient [] 1))) false))) = 0
  /\ exit_status (snd (exec_client (mkReader (exec_reply (exec_relay (mkReader
    (agent_wire [(1, [104; 105])] (Some 7) ++ []) false) (mkClient [] 1))) false))) = 7.
Proof.
  split.
  - apply (exec_status [[104; 105]] [] [(1, [104; 105])] None [] false 1); try reflexivity; try (vm_compute; discriminate);
      repeat constructor; vm_compute; try discriminate; reflexivity.
  - apply (exec_status [[104; 105]] [] [(1, [104; 105])] (Some 7) [] false 1); try reflexivity; try (vm_compute; discriminate);
      repeat constructor; vm_compute; try discriminate; reflexivity.
Defined.

Lemma template_env_overrides_witness :
  List.filter (starts_with ("A" +:+ "=")) (override_env ["A=1"; "AB=2"; "A=3"] [("B", "0"); ("A", "9")]) = ["A=9"].
Proof.
  etransitivity; [apply (template_env_overrides ["A=1"; "AB=2"; "A=3"] [("B", "0"); ("A", "9")] "A")|].
  - apply (bool_decide_eq_true_1 (NoDup [("B", "0"); ("A", "9")].*1)). reflexivity.
  - repeat constructor.
  - reflexivity.
  - vm_compute. reflexivity.
Defined.

(** *** A worker that runs a cached image *)

#[local] Instance cli_config : Serde ImageConfig := demo_serde ImageConfig.
#[local] Instance cli_refs : Serde (gmap string string) := demo_serde (gmap string string).
#[local] Instance cli_json : Json unit := {|
  from_str _ := Some tt; get_field _ _ := None; index _ _ := tt; as_str _ := None; as_array _ := None; get_index _ _ := None |}.
#[local] Instance cli_sha : Sha256 := fun d => "00".

Definition cli_image : ImageConfig := mkImageConfig ["sh"] [] ["A=b c"] (Some "/it's").
Definition cli_fs : Fs :=
  Eval vm_compute in
  list_to_map [(["c"], NDir 0x1ed); (["c"; "bases"], NDir 0x1ed);
    (["c"; "refs.json"], NFile (to_vec ({["alpine" := "ab"]} : gmap string string)) 0x1a4);
    (["c"; "bases"; "ab.sqfs"], NFile [1] 0x1a4); (["c"; "bases"; "ab.json"], NFile (to_vec cli_image) 0x1a4);
    (["assets"; "Image"], NFile [7; 7] 0x1a4)] ∪ demo_fs.
Definition cli_envs : Env := {[ "AMBER_CACHE" := "/c"; "AMBER_MEM" := "2" ]}.
Definition cli_size (s : string) : option Z := if String.eqb s "2" then Some 2048 else None.
Definition cli_worker (argv : list string) :=
  cmd_vm (fun _ => ATransport) 493 420 0 true "7" (fun _ => []) (fun _ => []) (fun x => x) (fun _ _ => (None, true))
    cli_size None None 5 Some [] cli_fs cli_envs (worker_args "alpine" argv).

Definition cli_cfg : VmConfig :=
  Eval vm_compute in match snd (cli_worker ["echo"; "a'b"; "--"]) with
                     | inl (c, _) => c | inr _ => mkVmConfig 0 0 [] None EmptyString None [] None None None None end.

Definition cli_log' : list Req := fst (fst (fst (cli_worker ["echo"; "a'b"; "--"]))).
Definition cli_fs' : Fs := snd (fst (fst (cli_worker ["echo"; "a'b"; "--"]))).
Definition cli_envs' : Env := snd (fst (cli_worker ["echo"; "a'b"; "--"])).

Lemma last_of {A B C D} (x : A * B * C * D) (d : D) : snd x = d -> x = (fst (fst (fst x)), snd (fst (fst x)), snd (fst x), d).
Proof. by destruct x as [[[a b] c] e]; cbn; intros ->. Qed.

Lemma cli_configures :
  cli_worker ["echo"; "a'b"; "--"] = (cli_log', cli_fs', cli_envs', inl (cli_cfg, Some NetSmoltcp)).
Proof. apply last_of. vm_compute. reflexivity. Qed.

Definition cli_built : Built := mkBuilt [RootDir; Normal "c"; Normal "bases"; Normal "ab.sqfs"] cli_image.
Abbreviation cli_build := (build_image (fun _ => ATransport) 493 420 0 true "7" (fun _ => []) (fun _ => []) (fun x => x)
  (fun _ _ => (None, true)) [] cli_fs cli_envs "alpine" false).

Lemma cli_builds : cli_build = (cli_log', cli_fs', inl cli_built).
Proof.
  destruct (cmd_vm_inl _ _ _ _ _ _ _ _ _ _ _ _ _ _ _ _ _ _ _ _ _ _ _ _ cli_configures) as (target & built & At & X).
  injection At as <-. cbv zeta in X. destruct X as (Ee & Eb & _). rewrite Ee in Eb.
  change (cli_build = (cli_log', cli_fs', inl built)) in Eb. rewrite Eb. f_equal.
  assert (E : snd cli_build = inl cli_built) by (vm_compute; reflexivity). by rewrite Eb in E.
Qed.

Lemma ram_charged_witness : vc_mem_size cli_cfg = 2048 /\ Daemon.vm_ram_bytes cli_size None "alpine" = 512 * 1024 * 1024.
Proof.
  split; [|reflexivity].
  exact (proj1 (ram_charged _ _ _ _ _ _ _ _ _ _ _ _ _ _ _ _ _ _ _ _ _ _ "alpine" _ _ cli_configures eq_refl)).
Defined.

Lemma cli_small : map_Forall (fun _ n => small n) cli_fs'.
Proof. apply (bool_decide_eq_true_1 (map_Forall (fun (_ : Real) n => small n) cli_fs')). vm_compute. reflexivity. Qed.

Lemma cli_read (p : Path) (d : list Z) : read_path cli_fs' p = Some d -> fits 32 (zlen d).
Proof.
  intros E. unfold read_path in E. destruct (canonicalize cli_fs' p) as [r|]; [|discriminate E].
  destruct (cli_fs' !! r) as [[m|x m|t]|] eqn:L; try discriminate E. injection E as <-.
  pose proof (cli_small r _ L) as X. cbn in X. pose proof (zlen_nonneg x). split; [lia|]. eapply Z.lt_trans; [exact X|reflexivity].
Qed.

