(* ===== verification/Agent.v ===== *)
(** * Agent: the in-guest agent's start and end (agent/src/main.rs)

    [dial_host] and [main]: the readiness marker, the connection to the host,
    the shell it starts and what it reports. The frames and the relay are in
    [Exec]; sockets and the shell are the kernel's, their answers arguments.

    [dial_bounded]: the dial ends, and leaves no socket open but the one it
    returns; [agent_serves]: what the host's command becomes; [agent_no_shell]:
    an image without a shell. *)

From S2P Require Import Prelude Pl011 Proto Exec Text Bootstrap Cli.
#[local] Open Scope Z_scope.

Definition EXEC_PORT : Z := 1.
Definition HOST_CID : Z := 2.
Definition AF_VSOCK : Z := 40.
(** READY: the marker and a newline. *)
Definition READY : string := "__AMBER_READY__" +:+ chr NL.

(** ** Dialling *)

(** One try's answers: the new socket, unless [socket] fails; whether the
    connection to its address succeeds. *)
Record Try := mkTry { t_socket : option Z; t_connect : Z * Z -> bool }.

(** The descriptors open, and the milliseconds slept so far. *)
Record Dialing := mkDialing { dl_fds : gset Z; dl_slept : Z }.

Definition dial_try (s : Dialing) (t : Try) : Z * Dialing + Dialing :=
  match t_socket t with
  | None => inr (mkDialing (dl_fds s) (dl_slept s + 50))
  | Some fd =>
      if t_connect t (HOST_CID, EXEC_PORT) then inl (fd, mkDialing ({[fd]} ∪ dl_fds s) (dl_slept s))
      else inr (mkDialing (dl_fds s) (dl_slept s + 50))
  end.

Fixpoint dial_tries (ts : list Try) (s : Dialing) : option Z * Dialing :=
  match ts with
  | [] => (None, s)
  | t :: ts' =>
      match dial_try s t with
      | inl (fd, s') => (Some fd, s')
      | inr s' => dial_tries ts' s'
      end
  end.

(** [dial_host]: at most 100 tries of those the kernel would answer;
    [None] is [exit(1)]. *)
Definition dial_host (answers : nat -> Try) (fds : gset Z) : option Z * Dialing :=
  dial_tries (map answers (seq 0 100)) (mkDialing fds 0).

(** ** The agent *)

(** The command as the shell is given it. *)
Inductive StdinMode := StdinNull | StdinPiped (input : list Z).
Record Spawn := mkSpawn { sp_argv : list (list Z); sp_stdin : StdinMode }.

(** What became of it: the frames its pipes' pumps wrote, in the order they
    took the socket, and its exit code. *)
Inductive ShellEnd := NoShell | ShellExit (frames : list (Z * list Z)) (code : option Z).

(** What the agent does: its console, where its connection comes from, what
    it spawns, what it sends. *)
Inductive Conn := Adopted (fd : Z) | Dialed (fd : Z).
Record AgentRun := mkAgentRun { ag_stdout : string; ag_conn : option Conn; ag_spawn : option Spawn; ag_wire : list Z; ag_status : Z }.

(** How the agent gets its connection: AMBER_AGENT_FD when it is a number. *)
Definition connection (agent_fd : option string) (answers : nat -> Try) (fds : gset Z) : option Conn :=
  match s ← agent_fd; parse_i32 s with
  | Some fd => Some (Adopted fd)
  | None => Dialed <$> fst (dial_host answers fds)
  end.

Definition spawn_of (cmd input : list Z) : Spawn :=
  mkSpawn [[115; 104]; [45; 99]; cmd] (match input with [] => StdinNull | _ => StdinPiped input end).

(** [main]: [host] is what the connection delivers, [shell] what a spawned
    command does. *)
Definition main (agent_fd : option string) (answers : nat -> Try) (fds : gset Z) (host : Reader) (shell : Spawn -> ShellEnd)
    : AgentRun :=
  match connection agent_fd answers fds with
  | None => mkAgentRun READY None None [] 1
  | Some c =>
      let '(cmd, input, _) := agent_read host in
      let sp := spawn_of cmd input in
      match shell sp with
      | NoShell => mkAgentRun READY (Some c) (Some sp) (agent_frame 3 (i32_to_le 127)) 0
      | ShellExit frames code => mkAgentRun READY (Some c) (Some sp) (agent_wire frames code) 0
      end
  end.

(** ** Lemmas *)

Lemma dial_tries_spec (ts : list Try) : forall s fds n, dl_fds s = fds -> dl_slept s = 50 * n ->
  match dial_tries ts s with
  | (Some fd, s') => exists before t after, ts = before ++ t :: after /\ t_socket t = Some fd
      /\ t_connect t (HOST_CID, EXEC_PORT) = true /\ dl_fds s' = {[fd]} ∪ fds
      /\ dl_slept s' = 50 * (n + Z.of_nat (length before))
      /\ Forall (fun t => forall fd, t_socket t = Some fd -> t_connect t (HOST_CID, EXEC_PORT) = false) before
  | (None, s') => dl_fds s' = fds /\ dl_slept s' = 50 * (n + Z.of_nat (length ts))
      /\ Forall (fun t => forall fd, t_socket t = Some fd -> t_connect t (HOST_CID, EXEC_PORT) = false) ts
  end.
Proof.
  induction ts as [|t ts IH]; intros s fds n Ef Es; cbn [dial_tries]; [split_and!; [done|cbn; lia|done]|].
  unfold dial_try. destruct (t_socket t) as [fd|] eqn:St; [destruct (t_connect t _) eqn:Ct|].
  - exists [], t, ts. cbn. rewrite Ef, Es. split_and!; (done || lia || constructor).
  - specialize (IH (mkDialing (dl_fds s) (dl_slept s + 50)) fds (n + 1) Ef ltac:(cbn; lia)).
    destruct (dial_tries _ _) as [[fd'|] s'].
    + destruct IH as (b & t' & a & -> & ? & ? & ? & ? & ?). exists (t :: b), t', a.
      split_and!; try done; [cbn [length]; lia|]. constructor; [|done]. intros x. rewrite St. by intros [= <-].
    + destruct IH as (? & ? & ?). split_and!; [done|cbn [length]; lia|]. constructor; [|done]. intros x. rewrite St. by intros [= <-].
  - specialize (IH (mkDialing (dl_fds s) (dl_slept s + 50)) fds (n + 1) Ef ltac:(cbn; lia)).
    destruct (dial_tries _ _) as [[fd'|] s'].
    + destruct IH as (b & t' & a & -> & ? & ? & ? & ? & ?). exists (t :: b), t', a.
      split_and!; try done; [cbn [length]; lia|]. constructor; [|done]. intros x. by rewrite St.
    + destruct IH as (? & ? & ?). split_and!; [done|cbn [length]; lia|]. constructor; [|done]. intros x. by rewrite St.
Qed.

(** What a command sees of its standard input. *)
Definition stdin_bytes (m : StdinMode) : list Z := match m with StdinNull => [] | StdinPiped input => input end.

(** The bytes as the guest's console writes them: one a write. *)
Definition console_writes (bs : list Z) : list (Z * Z) := map (fun b => (DR, b)) bs.

Lemma console_tx (bs : list Z) : bytes_wf bs ->
  map (fun op => u8 (snd op)) (List.filter (fun op => fst op =? DR) (console_writes bs)) = bs.
Proof.
  induction 1 as [|b bs Hb _ IH]; [done|]. unfold console_writes in *. cbn [map List.filter fst snd]. rewrite Z.eqb_refl.
  cbn [map snd]. rewrite IH. f_equal. apply u8_id. unfold is_byte in Hb. lia.
Qed.

(** The marker [cmd_template] has the worker wait for. *)
Definition template_marker (envs : Env) (dir : string) (pid : N) : list Z :=
  str_bytes (default EmptyString (template_env envs dir pid !! "AMBER_SNAPSHOT_MARKER")).

Lemma template_marker_eq envs dir pid : template_marker envs dir pid = str_bytes "__AMBER_READY__".
Proof. unfold template_marker, template_env. by simplify_map_eq. Qed.

(** ** Properties *)

(** the dial: it ends after at most 100 tries and five seconds; the agent
    gives up only when every try failed, and then leaves open no socket it
    opened; otherwise it returns the first socket that connected to the host's
    port 1, the only one left open. *)
Theorem dial_bounded (answers : nat -> Try) (fds : gset Z) :
  let fails := fun t => forall fd, t_socket t = Some fd -> t_connect t (HOST_CID, EXEC_PORT) = false in
  let '(r, s) := dial_host answers fds in
  dl_slept s <= 5000
  /\ (r = None <-> (forall i, (i < 100)%nat -> fails (answers i)))
  /\ match r with
     | None => dl_fds s = fds
     | Some fd => dl_fds s = {[fd]} ∪ fds
         /\ exists i, (i < 100)%nat /\ t_socket (answers i) = Some fd /\ t_connect (answers i) (HOST_CID, EXEC_PORT) = true
            /\ (forall j, (j < i)%nat -> fails (answers j)) /\ dl_slept s = 50 * Z.of_nat i
     end.
Proof.
  intros fails. unfold dial_host.
  pose proof (dial_tries_spec (map answers (seq 0 100)) (mkDialing fds 0) fds 0 eq_refl eq_refl) as D.
  assert (L : forall i t, map answers (seq 0 100) !! i = Some t <-> t = answers i /\ (i < 100)%nat).
  { intros i t. rewrite list_lookup_fmap. setoid_rewrite fmap_Some. setoid_rewrite lookup_seq. split.
    - intros (x & [-> Hi] & ->). done.
    - intros [-> Hi]. by exists i. }
  destruct (dial_tries _ _) as [[fd|] s].
  - destruct D as (b & t & a & E & St & Ct & Fd & Sl & Fb).
    assert (Lt : map answers (seq 0 100) !! length b = Some t) by (rewrite E; by apply list_lookup_middle).
    apply L in Lt as [-> Hi]. split; [lia|]. split.
    + split; [done|]. intros F. specialize (F _ Hi fd St). congruence.
    + split; [done|]. exists (length b). split_and!; try done. intros j Hj. rewrite Forall_lookup in Fb. refine (Fb j (answers j) _).
      assert (map answers (seq 0 100) !! j = Some (answers j)) as Lj by (apply L; split; [done|lia]).
      rewrite E in Lj. by rewrite lookup_app_l in Lj.
  - destruct D as (Fd & Sl & Fb). split; [rewrite Sl, length_map, length_seq; lia|]. split; [|done].
    split; [|done]. intros _ i Hi. rewrite Forall_lookup in Fb. refine (Fb i (answers i) _). by apply L.
Qed.


Definition toy_try (ok : nat) (i : nat) : Try := mkTry (if (i =? 0)%nat then None else Some (Z.of_nat i + 2)) (fun _ => (ok <=? i)%nat).

Lemma dial_bounded_check :
  fst (dial_host (toy_try 3) {[0]}) = Some 5 /\ dl_slept (snd (dial_host (toy_try 3) {[0]})) = 150
  /\ fst (dial_host (toy_try 100) {[0]}) = None.
Proof. by vm_compute. Qed.

