(* ===== verification/Uds.v ===== *)
(** * Uds: the host side of virtio-vsock (crates/amber-core/src/vsock.rs:
    UdsBackend; crates/amber/src/daemon.rs: the socket of an exec)

    The Unix sockets behind [Vsock]'s backend: the accept thread that reads a
    peer's CONNECT line and hands the stream over, and the dial. It is an
    instance of [VsockBackend]. Who listens at a path is an argument; a peer
    is what it sends, whether it has closed, and its stream.

    [connect_delivers]: what peers get; [line_exact]: which lines are taken
    and how much of a stream they cost; [silent_peer_blocks]: the thread
    serves one peer at a time; [exec_meets]: the agent's dial ends at the
    socket the daemon listens on. *)

From stdpp Require Import pretty.
From S2P Require Import Prelude Vsock Registry Text Bootstrap Agent.
#[local] Open Scope Z_scope.

(** ** The CONNECT line *)

(** The thread's reads, a byte at a time: the line and what is left of the
    stream; [None] is a read that blocks. *)
Fixpoint read_line (line : list Z) (bs : list Z) (closed : bool) : option (list Z * list Z) :=
  match bs with
  | [] => if closed then Some (line, []) else None
  | b :: bs' =>
      if b =? 10 then Some (line, bs')
      else if (length line <? 32)%nat then read_line (line ++ [b]) bs' closed
      else Some (line, bs')
  end.

Definition requested_port (line : list Z) : option Z :=
  l ← from_utf8 line; p ← strip_prefix "CONNECT " l; parse_u32 (trim p).

(** ** The backend *)

Section Uds.
(** [stream_of]: the stream of a peer that has yet to be read these bytes;
    [connect_to]: what connecting to a path gives; [unlink] and [bind] at the
    base. The channel carries [u32] ports. *)
Context {S : Type} (stream_of : list Z -> S) (connect_to : string -> option S).

Record UdsPeer := mkUdsPeer { up_sent : list Z; up_closed : bool }.
Record UdsBackend := mkUds { base : string; incoming : list (Z * S) }.

(** [UdsBackend::new], when the path can be bound, and [Drop]: the paths
    unlinked. *)
Definition uds_new (b : string) (bound : bool) : option UdsBackend * list string :=
  (if bound then Some (mkUds b []) else None, [b]).
Definition uds_drop (u : UdsBackend) : list string := [base u].

(** The accept thread over the peers in the order they connect; what is left
    is the peer it is blocked on and those behind it. *)
Fixpoint accept_thread (u : UdsBackend) (peers : list UdsPeer) : UdsBackend * list UdsPeer :=
  match peers with
  | [] => (u, [])
  | p :: ps =>
      match read_line [] (up_sent p) (up_closed p) with
      | None => (u, p :: ps)
      | Some (line, rest) =>
          accept_thread
            (match requested_port line with
             | Some port => mkUds (base u) (incoming u ++ [(port, stream_of rest)])
             | None => u
             end) ps
      end
  end.

Definition dial_path (b : string) (port : Z) : string := b +:+ "_" +:+ pretty port.

#[export] Instance Uds_backend : VsockBackend UdsBackend S := {|
  vb_dial u port := (u, connect_to (dial_path (base u) port));
  vb_accept u := match incoming u with
    | [] => (u, None)
    | (port, s) :: l => (mkUds (base u) l, Some (u32 port, s))
    end;
  vb_waiting u := length (incoming u)
|}.
End Uds.
Arguments mkUds {S}. Arguments base {S}. Arguments incoming {S}. Arguments UdsBackend : clear implicits.

(** The path [handle_exec] listens at. *)
Definition listen_path (b : string) : string := b +:+ "_1".

(** ** Lemmas *)

Lemma parse_uint_fits w s v : 0 <= w -> parse_uint w s = Some v -> fits w v.
Proof.
  intros Hw. unfold parse_uint. destruct (parse_digits _) as [x|] eqn:E; [|done]. cbn [mbind option_bind].
  destruct (Z.ltb_spec x (2 ^ w)); [|done]. intros [= <-].
  assert (N : forall t acc y, 0 <= acc -> digits acc t = Some y -> 0 <= y).
  { induction t as [|c t IH]; intros acc y P D; [by injection D as <-|]. cbn [digits] in D.
    destruct (digit_of 10 c) as [d|] eqn:Dc; [|done]. apply IH in D; [done|].
    assert (0 <= d); [|lia]. destruct c as [[] [] [] [] [] [] [] []]; vm_compute in Dc; (discriminate Dc || injection Dc as <-; done). }
  unfold parse_digits in E. destruct (default s _); [done|]. apply N in E; [|done]. lia.
Qed.

Lemma requested_port_fits line p : requested_port line = Some p -> fits 32 p.
Proof.
  unfold requested_port. destruct (from_utf8 line) as [l|]; [|done]. cbn [mbind option_bind].
  destruct (strip_prefix _ l) as [q|]; [|done]. by apply parse_uint_fits.
Qed.

(** Every port the thread queues is 32 bits. *)
Definition uds_wf {S} (u : UdsBackend S) : Prop := Forall (fun x => fits 32 (fst x)) (incoming u).

Lemma read_line_spec bs closed : forall line l rest, (length line <= 32)%nat ->
  read_line line bs closed = Some (l, rest) ->
  exists taken, l = line ++ taken /\ ~ In 10 taken /\ (length l <= 32)%nat
  /\ (bs = taken ++ 10 :: rest \/ (closed = true /\ rest = [] /\ bs = taken)
      \/ exists b, b <> 10 /\ length l = 32%nat /\ bs = taken ++ b :: rest).
Proof.
  induction bs as [|b bs IH]; intros line l rest L; cbn [read_line].
  { destruct closed; [|done]. intros [= <- <-]. exists []. rewrite app_nil_r. do 3 (split; [done || by intros []|]). right; left. done. }
  destruct (Z.eqb_spec b 10) as [->|N].
  { intros [= <- <-]. exists []. rewrite app_nil_r. do 3 (split; [done || by intros []|]). by left. }
  destruct (Nat.ltb_spec (length line) 32).
  - intros E. apply IH in E as (t & -> & Nt & Ll & D); [|rewrite length_app; cbn; lia].
    exists (b :: t). rewrite <- app_assoc. split; [done|]. split; [by intros [->|I]|]. split; [by rewrite <- app_assoc in Ll|].
    destruct D as [->|[(-> & -> & ->)|(x & Nx & Lx & ->)]]; [by left|by right; left|right; right]. exists x. by rewrite <- app_assoc in Lx.
  - intros [= <- <-]. exists []. rewrite app_nil_r. do 3 (split; [done || by intros []|]). right; right. exists b. split; [done|]. split; [lia|done].
Qed.

Lemma read_line_line l rest closed : ~ In 10 l -> forall line, (length line + length l <= 32)%nat ->
  read_line line (l ++ 10 :: rest) closed = Some (line ++ l, rest).
Proof.
  induction l as [|b l IH]; intros N line L; cbn [app read_line].
  { by rewrite Z.eqb_refl, app_nil_r. }
  cbn [length] in L. destruct (Z.eqb_spec b 10) as [->|_]; [exfalso; apply N; by left|].
  rewrite (proj2 (Nat.ltb_lt _ _)) by lia. rewrite IH; [by rewrite <- app_assoc| |rewrite length_app; cbn; lia].
  intros I. apply N. by right.
Qed.

Lemma accept_thread_wf {S} (stream_of : list Z -> S) peers : forall u, uds_wf u -> uds_wf (fst (accept_thread stream_of u peers)).
Proof.
  induction peers as [|p ps IH]; intros u W; cbn [accept_thread]; [done|].
  destruct (read_line _ _ _) as [[line rest]|]; [|done]. apply IH.
  destruct (requested_port line) as [port|] eqn:E; [|done]. unfold uds_wf. cbn [incoming]. apply Forall_app_2; [done|].
  constructor; [by eapply requested_port_fits|constructor].
Qed.

(** What a peer sends: the line for a port, then its data. *)
Definition connect_bytes (port : Z) : list Z := str_bytes ("CONNECT " +:+ pretty port) ++ [10].

Lemma numerals_ascii7 s : all_chars numeral s = true -> all_chars ascii7 s = true.
Proof.
  induction s as [|c s IH]; [done|]. cbn [all_chars]. intros [N A]%andb_true_iff. rewrite IH, andb_true_r by done. revert N.
  destruct c as [[] [] [] [] [] [] [] []]; vm_compute; done.
Qed.

Lemma requested_connect port : fits 32 port -> requested_port (str_bytes ("CONNECT " +:+ pretty port)) = Some port.
Proof.
  intros F. destruct (pretty_nonneg_shape port ltac:(lia)) as (c & s & E & N). unfold requested_port.
  rewrite from_utf8_ascii by (rewrite all_chars_app, (numerals_ascii7 _ N); reflexivity). cbn [mbind option_bind].
  rewrite strip_prefix_app. cbn [mbind option_bind].
  assert (T : trim (pretty port) = pretty port).
  { pose proof (trim_solid [] [] numeral (pretty port) ltac:(intros d D; by apply numeral_solid) N ltac:(by rewrite E) (Forall_nil_2 _) (Forall_nil_2 _)) as T.
    by rewrite app_nil_string in T. }
  rewrite T. by apply parse_uint_pretty.
Qed.

Lemma pretty_go_short k : forall (x : N) s, (x < 10 ^ N.of_nat k)%N -> (String.length (pretty_N_go x s) <= k + String.length s)%nat.
Proof.
  induction k as [|k IH]; intros x s L.
  { rewrite N.pow_0_r in L. assert (x = 0%N) as -> by lia. rewrite pretty_N_go_0. lia. }
  destruct (N.eq_0_gt_0_cases x) as [->|P]; [rewrite pretty_N_go_0; lia|].
  rewrite pretty_N_go_step by done. rewrite Nat2N.inj_succ, N.pow_succ_r' in L.
  specialize (IH (x / 10)%N (String (pretty_N_char (x `mod` 10)) s)). cbn [String.length] in IH.
  assert (x / 10 < 10 ^ N.of_nat k)%N by (apply N.Div0.div_lt_upper_bound; lia). specialize (IH ltac:(done)). lia.
Qed.

Lemma str_bytes_length s : length (str_bytes s) = String.length s.
Proof. unfold str_bytes. rewrite length_map. induction s as [|c s IH]; [done|]. cbn. by rewrite IH. Qed.

Lemma port_short port : fits 32 port -> (String.length (pretty port) <= 10)%nat.
Proof.
  intros F. destruct (Z.eq_dec port 0) as [->|N]; [cbn; lia|]. rewrite pretty_Z_pos by lia.
  pose proof (pretty_go_short 10 (Z.to_N port) EmptyString) as L. cbn [String.length] in L.
  change (10 ^ N.of_nat 10)%N with 10000000000%N in L. lia.
Qed.

Lemma connect_no_newline port : fits 32 port -> ~ In 10 (str_bytes ("CONNECT " +:+ pretty port)).
Proof.
  intros F. destruct (pretty_nonneg_shape port ltac:(lia)) as (_ & _ & _ & N).
  assert (A : all_chars (fun c => negb (Ascii.nat_of_ascii c =? 10)%nat) ("CONNECT " +:+ pretty port) = true).
  { rewrite all_chars_app, andb_true_iff. split; [reflexivity|]. induction (pretty port) as [|c s IH]; [done|].
    cbn [all_chars] in *. apply andb_true_iff in N as [Nc N]. rewrite (IH N), andb_true_r. revert Nc.
    destruct c as [[] [] [] [] [] [] [] []]; vm_compute; done. }
  intros I. unfold str_bytes in I. apply in_map_iff in I as (c & E & I).
  induction ("CONNECT " +:+ pretty port) as [|x s IH]; [done|]. cbn [all_chars String.list_ascii_of_string] in *.
  apply andb_true_iff in A as [Ax A]. destruct I as [->|I]; [|by apply IH].
  apply negb_true_iff, Nat.eqb_neq in Ax. lia.
Qed.

Lemma read_connect port data closed : fits 32 port ->
  read_line [] (connect_bytes port ++ data) closed = Some (str_bytes ("CONNECT " +:+ pretty port), data).
Proof.
  intros F. unfold connect_bytes. rewrite <- app_assoc. apply (read_line_line _ _ _ (connect_no_newline port F) []).
  rewrite str_bytes_length, length_app_string. pose proof (port_short port F). cbn [length String.length]. lia.
Qed.

Lemma accept_all {S : Type} (stream_of : list Z -> S) (u : UdsBackend S) (peers : list (Z * list Z)) (closed : bool) :
  Forall (fun p => fits 32 (fst p)) peers ->
  accept_thread stream_of u (map (fun p => mkUdsPeer (connect_bytes (fst p) ++ snd p) closed) peers)
  = (mkUds (base u) (incoming u ++ map (fun p => (fst p, stream_of (snd p))) peers), []).
Proof.
  intros F. revert u. induction F as [|[port data] peers Fp _ IH]; intros u; cbn [map accept_thread fst snd].
  { rewrite app_nil_r. by destruct u. }
  cbn [up_sent up_closed]. rewrite read_connect, requested_connect by done. rewrite IH. cbn [base incoming].
  by rewrite <- app_assoc.
Qed.

(** The instance keeps the backend's promises. *)
#[export] Instance Uds_laws {S : Type} (connect_to : string -> option S) :
  VsockBackendLaws (UdsBackend S) S (H := Uds_backend connect_to).
Proof.
  split.
  - intros [b l] p s. cbn. destruct l as [|[q t] l]; [done|]. cbn. intros [= <- <-]. apply u32_range.
  - intros [b l]. cbn. destruct l as [|[q t] l]; [done|]. cbn. lia.
Qed.

(** ** Properties *)

(** host peers that send their CONNECT line are handed over in the order
    they connected, each with the port it asked for, any 32-bit one, and with
    its stream exactly where its line ends. *)
Theorem connect_delivers {S : Type} (stream_of : list Z -> S) (u : UdsBackend S) (peers : list (Z * list Z)) (closed : bool) :
  Forall (fun p => fits 32 (fst p)) peers ->
  accept_thread stream_of u (map (fun p => mkUdsPeer (connect_bytes (fst p) ++ snd p) closed) peers)
  = (mkUds (base u) (incoming u ++ map (fun p => (fst p, stream_of (snd p))) peers), []).
Proof. apply accept_all. Qed.

(** whatever a peer sends, at most 33 bytes of its stream are taken before
    it is handed over, and only for a first line that is CONNECT and a 32-bit
    number; that line need not be ended: closing the stream, or any 33rd byte,
    which is lost, ends it too. *)
Theorem line_exact {S : Type} (stream_of : list Z -> S) (b : string) (p : UdsPeer) (port : Z) (s : S) :
  incoming (fst (accept_thread stream_of (mkUds b []) [p])) = [(port, s)] ->
  exists line rest, s = stream_of rest /\ fits 32 port /\ requested_port line = Some port /\ ~ In 10 line
  /\ (length line <= 32)%nat /\ (length (up_sent p) <= 33 + length rest)%nat
  /\ (up_sent p = line ++ 10 :: rest \/ (up_closed p = true /\ rest = [] /\ up_sent p = line)
      \/ exists c, c <> 10 /\ length line = 32%nat /\ up_sent p = line ++ c :: rest).
Proof.
  cbn [accept_thread]. destruct (read_line [] (up_sent p) (up_closed p)) as [[line rest]|] eqn:E; [|done].
  destruct (requested_port line) as [q|] eqn:R; [|done]. cbn. intros [= -> <-].
  apply read_line_spec in E as (t & -> & N & L & D); [|cbn; lia]. cbn [app] in *. exists t, rest.
  split_and!; try done; try (by eapply requested_port_fits); try apply (requested_port_fits _ _ R).
  destruct D as [->|[(_ & -> & ->)|(c & _ & _ & ->)]]; rewrite ?length_app; cbn [length]; lia.
Qed.

(** the accept thread serves one peer at a time and waits for a line
    without a limit: behind a peer that connects and says nothing, no other is
    handed over. *)
Theorem silent_peer_blocks {S : Type} (stream_of : list Z -> S) (u : UdsBackend S) (before after : list UdsPeer) (p : UdsPeer) :
  up_closed p = false -> ~ In 10 (up_sent p) -> (length (up_sent p) <= 32)%nat ->
  fst (accept_thread stream_of u (before ++ p :: after)) = fst (accept_thread stream_of u (before ++ [p])).
Proof.
  intros Hc Hn Hl. assert (B : read_line [] (up_sent p) (up_closed p) = None).
  { rewrite Hc. assert (G : forall bs line, ~ In 10 bs -> (length line + length bs <= 32)%nat -> read_line line bs false = None).
    { induction bs as [|x bs IH]; intros line N L; [done|]. cbn [read_line length] in *.
      destruct (Z.eqb_spec x 10) as [->|_]; [exfalso; apply N; by left|]. rewrite (proj2 (Nat.ltb_lt _ _)) by lia.
      apply IH; [intros I; apply N; by right|rewrite length_app; cbn; lia]. }
    by apply G. }
  revert u. induction before as [|q before IH]; intros u; cbn [app accept_thread]; [by rewrite B|].
  destruct (read_line _ (up_sent q) _) as [[line rest]|]; [|done]. by destruct (requested_port line).
Qed.

(** the agent meets the daemon: the request that the agent's dial makes of
    the device (port [EXEC_PORT] of the host) is connected to the socket
    [handle_exec] listens on when something listens there, and answered with a
    response; else it is refused. *)
Theorem exec_meets {S : Type} `{HostStream S} (connect_to : string -> option S) (d : VsockDevice (UdsBackend S) S) (pkt : list Z) :
  let h := parse_hdr pkt in
  let d' := on_guest_packet (H0 := Uds_backend connect_to) d pkt in
  HDR_LEN <= zlen pkt -> h_dst_cid h = HOST_CID -> h_dst_port h = EXEC_PORT -> h_op h = OP_REQUEST ->
  find d (h_src_port h) EXEC_PORT = None ->
  match connect_to (listen_path (base (vs_backend d))) with
  | Some s => exists c, conns d' = conns d ++ [c] /\ stream c = s /\ up c = true /\ guest_port c = h_src_port h
      /\ rx d' = rx d ++ [packet (guest_cid d) (h_src_port h) EXEC_PORT OP_RESPONSE 0 []]
  | None => conns d' = conns d /\ rx d' = rx d ++ [packet (guest_cid d) (h_src_port h) EXEC_PORT OP_RST 0 []]
  end.
Proof.
  intros h d' Hl Hc Hp Ho Hf. subst d'. unfold on_guest_packet. fold h. rewrite (proj2 (Z.ltb_ge _ _) Hl), Hc, Hp, Hf, Ho.
  change (negb (HOST_CID =? CID_HOST)) with false. cbn [Z.eqb negb]. change (OP_REQUEST =? OP_REQUEST) with true. cbv iota.
  cbn [vb_dial Uds_backend]. change (dial_path (base (vs_backend d)) EXEC_PORT) with (listen_path (base (vs_backend d))).
  destruct (connect_to _) as [s|]; [|done]. by eexists.
Qed.

Lemma alloc_cid {B S : Type} (d : VsockDevice B S) gp : guest_cid (fst (alloc_host_port d gp)) = guest_cid d.
Proof.
  unfold alloc_host_port.
  pose proof (iter_until_inv (fun x => guest_cid x = guest_cid d) (fun r => guest_cid (fst r) = guest_cid d)
    (alloc_step gp) 4294966272 d) as I.
  destruct (iter_until _ _ _) as [[x hp]|x]; apply I; try done; intros s; unfold alloc_step; by destruct (find _ _ _).
Qed.


Definition no_socket (p : string) : option Pipe := None.

Lemma connect_delivers_witness :
  accept_thread (fun bs => mkPipe bs [] 8) (mkUds "s" []) [mkUdsPeer (connect_bytes 22 ++ [104; 105]) false]
  = (mkUds "s" [(22, mkPipe [104; 105] [] 8)], []).
Proof. apply (connect_delivers (fun bs => mkPipe bs [] 8) (mkUds "s" []) [(22, [104; 105])] false). constructor; [done|constructor]. Defined.

Lemma line_exact_witness : exists line rest, mkPipe [7] [] 8 = mkPipe rest [] 8 /\ requested_port line = Some 5.
Proof.
  destruct (line_exact (fun bs => mkPipe bs [] 8) "s" (mkUdsPeer (connect_bytes 5 ++ [7]) false) 5 (mkPipe [7] [] 8))
    as (line & rest & E & _ & R & _); [reflexivity|]. by exists line, rest.
Defined.

Lemma silent_peer_blocks_witness :
  fst (accept_thread (fun bs => mkPipe bs [] 8) (mkUds "s" []) ([] ++ mkUdsPeer [67] false :: [mkUdsPeer (connect_bytes 5) false])) = mkUds "s" [].
Proof.
  rewrite (silent_peer_blocks _ _ [] _ (mkUdsPeer [67] false)); [reflexivity|done| |cbn; lia].
  by intros [?|[]].
Defined.

