(* ===== verification/Fuzz.v ===== *)
(** * Fuzz: the fuzz targets (crates/amber-core/src/virtio.rs:
    fuzz_descriptor_chain; crates/amber-core/src/vsock.rs:
    fuzz_on_guest_packet; fuzz/fuzz_targets)

    What the two harnesses run on the bytes they are given, and what they look
    for, for every input instead of those a fuzzer tries: [chains_fuzzed],
    over any sequence of inputs to one thread, whose memory is reused; and
    [packets_fuzzed], which is also what a guest gets from a host where nothing
    listens. *)

From S2P Require Import Prelude Memory Virtqueue VirtioMmio Vsock.
#[local] Open Scope Z_scope.

(** ** Descriptor chains *)

Definition FUZZ_BASE : Z := 0x40000000.
(** The region a thread maps for all its iterations. *)
Definition fuzz_mem : GuestRam := GuestMemory_new FUZZ_BASE (Z.shiftl 1 20).

(** The ring's geometry, from the first eight bytes. *)
Definition fuzz_head (data : list Z) : Z := of_le_bytes (slice 0 2 data).
Definition fuzz_qsz (data : list Z) : Z := Z.max 1 (Z.min (u16 QUEUE_MAX) (of_le_bytes (slice 2 2 data))).
Definition fuzz_off (b : list Z) : Z := FUZZ_BASE + Z.land (of_le_bytes b) 0xfff0.
Definition fuzz_queue (data : list Z) : Queue :=
  let desc := fuzz_off (slice 4 2 data) in
  mkQueue (fuzz_qsz data) 1 desc desc (fuzz_off (slice 6 2 data)) (fuzz_head data).

(** One iteration on the thread's memory: the buffers, the capacity, the queue
    and whether a payload was injected. *)
Record Chains := mkChains { ch_bufs : list Buf; ch_capacity : option Z; ch_queue : Queue; ch_injected : bool }.
Definition fuzz_descriptor_chain (r : GuestRam) (data : list Z) : GuestRam * option Chains :=
  if zlen data <? 8 then (r, None)
  else
    let rest := drop 8 data in
    let q := fuzz_queue data in
    let r := fst (ram_write r FUZZ_BASE rest) in
    let bufs := collect_chain r (q_desc q) (fuzz_head data) (fuzz_qsz data) in
    let cap := next_rx_capacity r q in
    let '(r', q', ok) := inject_one r q rest in
    (r', Some (mkChains bufs cap q' ok)).

(** ** Packets *)

(** [NullBackend]. *)
Inductive NullBackend := Null.
#[export] Instance Null_backend {S : Type} : VsockBackend NullBackend S := {|
  vb_dial b _ := (b, None);
  vb_accept b := (b, None);
  vb_waiting _ := 0%nat
|}.
Definition fuzz_on_guest_packet {S : Type} `{HostStream S} (data : list Z) : VsockDevice NullBackend S * option (list Z) :=
  vsock_poll_rx (on_guest_packet (VsockDevice_new 3 Null) data) 4096.

(** ** Lemmas *)

Lemma fuzz_mem_wf : ram_wf fuzz_mem.
Proof.
  split; [done| |apply zeros_wf]. unfold fuzz_mem, ram_len. cbn [ram_base ram_bytes GuestMemory_new].
  rewrite zlen_zeros by done. unfold FUZZ_BASE. change (Z.shiftl 1 20) with 1048576. lia.
Qed.
Lemma fuzz_mem_len : ram_len fuzz_mem = 2 ^ 20.
Proof. unfold ram_len, fuzz_mem. cbn [ram_bytes GuestMemory_new]. by rewrite zlen_zeros. Qed.

Lemma fuzz_off_range l i : bytes_wf l -> FUZZ_BASE <= fuzz_off (slice i 2 l) < FUZZ_BASE + 2 ^ 16.
Proof.
  intros W. unfold fuzz_off. pose proof (land_range 16 _ 0xfff0 (parse_range i 2 l W ltac:(lia)) ltac:(lia)). lia.
Qed.
Lemma fuzz_qsz_range l : 1 <= fuzz_qsz l <= QUEUE_MAX.
Proof. unfold fuzz_qsz. change (u16 QUEUE_MAX) with QUEUE_MAX. unfold QUEUE_MAX. lia. Qed.
Lemma fuzz_queue_wf l : bytes_wf l -> queue_wf (fuzz_queue l).
Proof.
  intros W. pose proof (fuzz_qsz_range l) as Q. unfold queue_wf, fuzz_queue. cbn.
  pose proof (fuzz_off_range l 4 W). pose proof (fuzz_off_range l 6 W). pose proof (parse_range 0 2 l W ltac:(lia)) as R.
  unfold FUZZ_BASE in *. change (2 ^ (8 * 2)) with (2 ^ 16) in R. unfold fuzz_head. repeat split; lia.
Qed.

(** What [inject_one] leaves alone: all but the chain's writable buffers and
    the used ring. *)
Lemma inject_one_outside r q data a :
  ram_wf r -> bytes_wf data -> queue_wf q -> let qsz := u16 (q_num q) in
  used_ring_in_ram r (q_used q) qsz -> ~ (q_used q <= a < q_used q + 4 + 8 * qsz) ->
  ~ in_bufs (writable_bufs (collect_chain r (q_desc q) (avail_head r q qsz) qsz)) a ->
  ram_at (fst (fst (inject_one r q data))) a = ram_at r a.
Proof.
  intros Hr Hd Hq qsz Hu Ha Hb. unfold inject_one. destruct (_ || _) eqn:Ez; [done|]. destruct (q_last_avail q =? avail_idx r q); [done|]. fold qsz.
  set (bufs := writable_bufs _) in *. pose proof (inject_loop_outside r data 0 bufs a) as O.
  pose proof (inject_loop_wf r data 0 bufs Hr Hd) as W. pose proof (inject_loop_same_region r data 0 bufs) as [Sb Sl].
  destruct (inject_loop r data 0 bufs) as [r1 off]. cbv zeta. cbn [fst] in *. rewrite (push_used_outside r1); [|done| | |done].
  - apply O; [apply Forall_writable, collect_chain_ok, Hr| |done]. unfold zlen. lia.
  - apply orb_false_iff in Ez as [_ N%Z.eqb_neq]. unfold qsz. destruct Hq as [Hn _]. unfold QUEUE_MAX in Hn. rewrite u16_id; lia.
  - unfold used_ring_in_ram. by rewrite Sb, Sl.
Qed.

(** The thread's memory after its inputs. *)
Definition fuzz_thread (r : GuestRam) (inputs : list (list Z)) : GuestRam :=
  foldl (fun r d => fst (fuzz_descriptor_chain r d)) r inputs.

Lemma fuzz_step_ok r data : bytes_wf data -> ram_wf r ->
  same_region r (fst (fuzz_descriptor_chain r data)) /\ ram_wf (fst (fuzz_descriptor_chain r data)).
Proof.
  intros Wd Wr. unfold fuzz_descriptor_chain. destruct (_ <? _); [done|].
  assert (W8 : bytes_wf (drop 8 data)) by (by apply Forall_drop).
  pose proof (inject_one_wf (fst (ram_write r FUZZ_BASE (drop 8 data))) (fuzz_queue data) (drop 8 data)
    (ram_write_wf _ _ _ Wr W8) W8 (fuzz_queue_wf data Wd)) as I.
  destruct (inject_one _ _ _) as [[r' q'] ok]. destruct I as (W' & S' & _). cbn [fst].
  split; [|done]. etransitivity; [apply ram_write_same_region|exact S'].
Qed.

Lemma fuzz_thread_ok inputs : Forall (fun d => bytes_wf d) inputs -> forall r0 r, same_region r0 r /\ ram_wf r ->
  same_region r0 (fuzz_thread r inputs) /\ ram_wf (fuzz_thread r inputs).
Proof.
  induction 1 as [|d inputs Wd _ IH]; intros r0 r [Sr Wr]; [done|]. cbn [fuzz_thread foldl]. apply IH.
  destruct (fuzz_step_ok r d Wd Wr) as [Ss Ws]. split; [by transitivity r|done].
Qed.

Lemma inject_capacity r q data :
  let '(_, q', ok) := inject_one r q data in
  (ok = true <-> is_Some (next_rx_capacity r q)) /\ (fits 16 (q_last_avail q) -> q_last_avail q' = wadd16 (q_last_avail q) (if ok then 1 else 0)).
Proof.
  unfold inject_one, next_rx_capacity.
  assert (E : fits 16 (q_last_avail q) -> q_last_avail q = wadd16 (q_last_avail q) 0) by (intros; unfold wadd16; rewrite Z.add_0_r; by rewrite u16_id).
  destruct (_ || _); [split; [by split; [|intros []]|done]|]. destruct (q_last_avail q =? avail_idx r q); [split; [by split; [|intros []]|done]|].
  destruct (inject_loop _ _ _ _) as [r1 off]. by split; [split; eauto|].
Qed.

Lemma collect_chain_length r desc head qsz : 0 <= qsz -> zlen (collect_chain r desc head qsz) <= qsz.
Proof. intros Q. pose proof (collect_loop_length r desc qsz (Z.to_nat qsz) head). unfold zlen, collect_chain. lia. Qed.

(** ** What the targets find *)

(** on any sequence of inputs, each iteration on the memory the ones before
    left: the walker returns at most a ring's worth of buffers, all inside the
    region; the capacity is that of the chain injection then fills, which
    happens exactly when there is one and consumes it; the region stays whole,
    and no byte changes outside what the input itself wrote, the chain's
    writable buffers, and the used ring. *)
Theorem chains_fuzzed (inputs : list (list Z)) (data : list Z) :
  Forall (fun d => bytes_wf d) inputs -> bytes_wf data ->
  let r := fuzz_thread fuzz_mem inputs in
  let '(r', o) := fuzz_descriptor_chain r data in
  same_region fuzz_mem r' /\ ram_wf r' /\
  match o with
  | None => zlen data < 8 /\ r' = r
  | Some c =>
      let w := fst (ram_write r FUZZ_BASE (drop 8 data)) in
      let q := fuzz_queue data in
      let qsz := fuzz_qsz data in
      zlen (ch_bufs c) <= qsz <= QUEUE_MAX /\ Forall (buf_ok w) (ch_bufs c)
      /\ (ch_injected c = true <-> is_Some (ch_capacity c))
      /\ q_last_avail (ch_queue c) = wadd16 (q_last_avail q) (if ch_injected c then 1 else 0)
      /\ (forall a, ~ in_bufs (writable_bufs (collect_chain w (q_desc q) (avail_head w q qsz) qsz)) a ->
          ~ (q_used q <= a < q_used q + 4 + 8 * qsz) -> ram_at r' a = ram_at w a)
  end.
Proof.
  intros Wi Wd. cbv zeta.
  assert (R : same_region fuzz_mem (fuzz_thread fuzz_mem inputs) /\ ram_wf (fuzz_thread fuzz_mem inputs))
    by (apply fuzz_thread_ok; [done|split; [done|apply fuzz_mem_wf]]).
  revert R. generalize (fuzz_thread fuzz_mem inputs) as r. intros r [Sr Wr].
  pose proof (fuzz_step_ok r data Wd Wr) as [Ss Ws].
  unfold fuzz_descriptor_chain in *. destruct (Z.ltb_spec (zlen data) 8) as [L|L]; [by split|].
  set (w := fst (ram_write r FUZZ_BASE (drop 8 data))) in *.
  assert (Ww : ram_wf w) by (apply ram_write_wf; [done|by apply Forall_drop]).
  assert (Sw : same_region fuzz_mem w) by (etransitivity; [done|apply ram_write_same_region]).
  pose proof (fuzz_queue_wf data Wd) as Wq. pose proof (fuzz_qsz_range data) as Q.
  assert (Eq : u16 (q_num (fuzz_queue data)) = fuzz_qsz data) by (cbn; unfold QUEUE_MAX in Q; apply u16_id; lia).
  pose proof (fun a => inject_one_outside w (fuzz_queue data) (drop 8 data) a Ww (Forall_drop _ _ _ Wd) Wq) as O.
  cbv zeta in O. rewrite Eq in O. pose proof (inject_capacity w (fuzz_queue data) (drop 8 data)) as C.
  pose proof (collect_chain_length w (q_desc (fuzz_queue data)) (fuzz_head data) (fuzz_qsz data)) as Lc.
  destruct (inject_one w (fuzz_queue data) (drop 8 data)) as [[r' q'] ok]. cbn [fst snd ch_bufs ch_capacity ch_queue ch_injected] in *.
  split; [by transitivity r|]. split; [done|]. split; [lia|]. split; [by apply collect_chain_ok|]. split; [apply C|]. split; [apply C, Wq|].
  intros a Na Nu. apply O; [|done|done]. pose proof (fuzz_off_range data 6 Wd) as U. destruct Sw as [Sb Sl].
  unfold used_ring_in_ram. rewrite Sb, Sl, fuzz_mem_len. change (ram_base fuzz_mem) with FUZZ_BASE. unfold QUEUE_MAX in Q.
  change (q_used (fuzz_queue data)) with (fuzz_off (slice 6 2 data)). lia.
Qed.

(** whatever packet a guest sends to a host where nothing listens: no
    connection comes to be, and the guest gets at most one packet back, of the
    header alone: a reset with the ports of its request, a credit update for
    one it asked, and nothing for a packet that is short, or to another
    context, or of any other kind. *)
Theorem packets_fuzzed {S : Type} `{HostStream S} (data : list Z) :
  let h := parse_hdr data in
  let '(d, o) := fuzz_on_guest_packet (S := S) data in
  conns d = [] /\ rx d = [] /\
  o = if (zlen data <? HDR_LEN) || negb (h_dst_cid h =? CID_HOST) then None
      else if h_op h =? OP_REQUEST then Some (packet 3 (h_src_port h) (h_dst_port h) OP_RST 0 [])
      else if h_op h =? OP_CREDIT_REQUEST then Some (packet 3 (h_src_port h) (h_dst_port h) OP_CREDIT_UPDATE 0 [])
      else None.
Proof.
  cbv zeta. unfold fuzz_on_guest_packet, on_guest_packet. destruct (zlen data <? HDR_LEN); [done|]. cbn [orb].
  destruct (negb (h_dst_cid (parse_hdr data) =? CID_HOST)); [done|]. cbv zeta. cbn [find position conns VsockDevice_new].
  destruct (Z.eqb_spec (h_op (parse_hdr data)) OP_REQUEST); [done|].
  destruct (Z.eqb_spec (h_op (parse_hdr data)) OP_RESPONSE) as [E|]; [by rewrite E|].
  destruct (Z.eqb_spec (h_op (parse_hdr data)) OP_RW) as [E|]; [by rewrite E|].
  destruct (Z.eqb_spec (h_op (parse_hdr data)) OP_CREDIT_REQUEST); [done|].
  destruct (_ =? OP_CREDIT_UPDATE); [done|]. by destruct (_ || _).
Qed.

(** ** Instances *)

(** Two inputs: the second's ring is the memory the first left. *)
Definition demo_input : list Z := [0; 0; 4; 0; 0; 0; 0; 16] ++ le_bytes 8 0x40000100 ++ le_bytes 4 16 ++ le_bytes 2 2 ++ le_bytes 2 0.
Lemma chains_fuzzed_witness :
  same_region fuzz_mem (fst (fuzz_descriptor_chain (fuzz_thread fuzz_mem [demo_input]) demo_input)).
Proof.
  assert (W : bytes_wf demo_input).
  { unfold demo_input. repeat (apply Forall_app_2); try apply le_bytes_wf. repeat constructor; unfold is_byte; lia. }
  assert (Wi : Forall (fun d => bytes_wf d) [demo_input]) by (constructor; [exact W|constructor]).
  pose proof (chains_fuzzed [demo_input] demo_input Wi W) as T. cbv zeta in T.
  destruct (fuzz_descriptor_chain _ _) as [r' o]. apply T.
Defined.
