(* ===== verification/Commands.v ===== *)
(** * Commands: what the amber command prints and does
    (crates/amber/src/main.rs; daemon.rs: the clients)

    A command is a [Plan]: the requests it makes of amberd, and what it prints
    and exits with for each answer. [perform] runs one against a daemon's
    state, through the frames of [Proto] and the handler of [Serve]. The
    arguments are parsed by [Cli].

    [control_commands]: pause, resume and rm from the command line to the VM;
    [ps_lines]: what ps prints; [down_claims]: down says stopped whatever the
    daemon answers; [up_waits]; [probe_finds_leaks]: what the lockdown's self
    test finds. *)

From stdpp Require Import pretty.
From S2P Require Import Prelude Proto Fs Registry Text Image Bootstrap Lockdown Daemon Exec Serve Cli.
#[local] Open Scope Z_scope.

(** ** Output *)

Record Out := mkOut { o_out : string; o_err : string; o_status : Z }.
Definition line (s : string) : string := s +:+ chr NL.
Definition say (s : string) : Out := mkOut (line s) EmptyString SUCCESS.
Definition fail (s : string) : Out := mkOut EmptyString (line s) FAILURE.

(** [Probe]: whether amberd is reachable; [Ask]: one request on a connection. *)
Inductive Plan := Done (o : Out) | Probe (f : bool -> Plan) | Ask (req : Request) (k : option Reader -> Out).

(** ** Plans *)

Section Commands.
Context `{Serde Request} `{Serde Reply}.
(** How std and serde_json word their errors. *)
Variables (io_text : IoErr -> string) (json_text : string).

Definition client_text (e : ClientErr) : string :=
  match e with CEIo e => io_text e | CEMsg message => message | CEJson => json_text end.

(** ** Commands that control a VM *)

Definition acked (failed done : string) (conn : option Reader) : Out :=
  match client_ack conn with inl _ => say done | inr e => fail (failed +:+ " failed: " +:+ client_text e) end.

Definition cmd_pause (args : list string) : Plan :=
  match args !! 2%nat with
  | None => Done (fail "usage: amber pause <id>")
  | Some id => Ask (Pause id) (acked "pause" ("paused " +:+ id))
  end.
Definition cmd_resume (args : list string) : Plan :=
  match args !! 2%nat with
  | None => Done (fail "usage: amber resume <id>")
  | Some id => Ask (Resume id) (acked "resume" ("resumed " +:+ id))
  end.
Definition cmd_rm (args : list string) : Plan :=
  match args !! 2%nat with
  | None => Done (fail "usage: amber rm <id>")
  | Some id => Ask (Kill id) (acked "rm" ("killed " +:+ id))
  end.
Definition cmd_balloon (args : list string) : Plan :=
  match Cli.cmd_balloon args with
  | None => Done (fail "usage: amber balloon <id> <MiB>")
  | Some (id, mib) => Ask (Balloon id mib) (acked "balloon" ("balloon " +:+ id +:+ ": reclaiming toward " +:+ pretty mib +:+ " MiB"))
  end.

Definition no_amberd : Plan := Done (fail "no amberd (run 'amber up')").

(** ** down, budget, logs, detached runs and forks *)

(** [shutdown] takes every outcome of the request for the end of amberd. *)
Definition cmd_down : Plan :=
  Probe (fun running => if running then Ask Shutdown (fun _ => say "amberd stopped") else Done (say "amberd not running")).

Definition cmd_budget : Plan :=
  Probe (fun running => if negb running then no_amberd else
  Ask Budget (fun conn =>
    match client_budget conn with
    | inl (budget, used, rss, machine) =>
        let '(used_mib, free, real) := budget_line budget used rss in
        let fleet := match free with
          | None => "budget: unlimited    reserved: " +:+ pretty used_mib +:+ " MiB    real: " +:+ pretty real +:+ " MiB"
          | Some f => "budget: " +:+ pretty (mib budget) +:+ " MiB    reserved: " +:+ pretty used_mib +:+ " MiB    free: "
                      +:+ pretty f +:+ " MiB    real: " +:+ pretty real +:+ " MiB"
          end in
        let host := match host_free budget rss machine with
          | Some f => line ("machine: " +:+ pretty (mib machine) +:+ " MiB    free on host: " +:+ pretty f +:+ " MiB")
          | None => EmptyString end in
        mkOut (line fleet +:+ host) EmptyString SUCCESS
    | inr e => fail ("budget failed: " +:+ client_text e)
    end)).

Definition cmd_run_detached (target : string) (argv : list string) : Plan :=
  Ask (RunDetached target argv) (fun conn =>
    match run_detached conn with inl id => say id | inr e => fail ("run failed: " +:+ client_text e) end).
Definition cmd_fork_detached (template : string) : Plan :=
  Ask (Fork template false) (fun conn =>
    match fork conn with
    | inl (id, vsock) => mkOut (line id +:+ match vsock with Some v => line v | None => EmptyString end) EmptyString SUCCESS
    | inr e => fail ("fork failed: " +:+ client_text e)
    end).
(** [cmd_run] with amberd up, and [cmd_fork -i]: what is streamed, then the
    exit status. *)
Definition streamed (failed : string) (conn : option Reader) : Out :=
  match conn with
  | None => fail (failed +:+ " failed: no amberd")
  | Some r =>
      let '(out, res) := stream_client r in
      mkOut (Image.bytes_str out) (match res with inl _ => EmptyString | inr e => line (failed +:+ " failed: " +:+ client_text e) end)
        (exit_status res)
  end.

Definition cmd_logs (args : list string) : Plan :=
  match args !! 2%nat with
  | None => Done (fail "usage: amber logs <id>")
  | Some id => Ask (Logs id) (fun conn =>
      match conn with
      | None => fail "logs failed: no amberd"
      | Some r =>
          let '(out, res) := logs r in
          match res with
          | inl _ => mkOut (Image.bytes_str out) EmptyString SUCCESS
          | inr e => mkOut (Image.bytes_str out) (line ("logs failed: " +:+ client_text e)) FAILURE
          end
      end)
  end.

(** ** ps *)

(** [{:<w}] and [{:>w}] count characters, not bytes. *)
Definition ESC : Ascii.ascii := Ascii.ascii_of_nat 27.
Definition continuation (c : Ascii.ascii) : bool := (Ascii.nat_of_ascii c / 64 =? 2)%nat.
Fixpoint width (s : string) : nat :=
  match s with String c s' => ((if continuation c then 0 else 1) + width s')%nat | EmptyString => O end.
Fixpoint spaces (n : nat) : string := match n with O => EmptyString | S n' => String (ch " ") (spaces n') end.
Definition pad_right (w : nat) (s : string) : string := s +:+ spaces (w - width s).
Definition pad_left (w : nat) (s : string) : string := spaces (w - width s) +:+ s.
Definition ansi (code : string) : string := String ESC ("[" +:+ code +:+ "m").
Definition colour (tty : bool) (code s : string) : string := if tty then ansi code +:+ s +:+ ansi "0" else s.

Definition mebi (b : Z) : string := pretty (mib b) +:+ "M".
Definition cells (id pid state age cap rss image : string) : string :=
  pad_right 8 id +:+ " " +:+ pad_right 7 pid +:+ " " +:+ state +:+ " " +:+ pad_left 5 age +:+ " " +:+ pad_left 6 cap +:+ " "
  +:+ pad_left 6 rss +:+ "  " +:+ image.
Definition vm_state (v : VmInfo) : string := if vi_paused v then "paused" else "running".
Definition ps_header (tty : bool) : string :=
  colour tty "1" (cells "ID" "PID" (pad_right 8 "STATE") "AGE" "CAP" "RSS" "IMAGE").
Definition ps_row (tty : bool) (now : Z) (v : VmInfo) : string :=
  cells (vi_id v) (pretty (vi_pid v)) (colour tty (if vi_paused v then "33" else "32") (pad_right 8 (vm_state v)))
    (fmt_age (ssub now (vi_started v))) (mebi (vi_ram_bytes v)) (mebi (vi_rss_bytes v)) (vi_reference v).
Definition ps_foot (tty : bool) (vms : list VmInfo) : string :=
  let paused := zlen (List.filter vi_paused vms) in
  colour tty "2" (pretty (zlen vms) +:+ " VM(s)" +:+ if 0 <? paused then ", " +:+ pretty paused +:+ " paused" else EmptyString).
Definition ps_text (tty : bool) (now : Z) (vms : list VmInfo) : string :=
  line (ps_header tty) +:+ foldr (fun v s => line (ps_row tty now v) +:+ s) (line (ps_foot tty vms)) vms.
Definition cmd_ps (tty : bool) (now : Z) : Plan :=
  Probe (fun running => if negb running then no_amberd else
  Ask ListVms (fun conn =>
    match client_list conn with
    | inl [] => say "no running VMs"
    | inl vms => mkOut (ps_text tty now vms) EmptyString SUCCESS
    | inr e => fail ("ps failed: " +:+ client_text e)
    end)).

(** ** up *)

(** Connections tried in turn; whether the log could be made and amberd
    started, or with what error. The result: the output, whether a child was
    started, and how many times 50 ms it slept. *)
Fixpoint up_wait (fuel : nat) (probes : list bool) (slept : nat) : bool * nat :=
  match fuel with
  | O => (false, slept)
  | S fuel => match probes with
      | true :: _ => (true, slept)
      | _ :: probes => up_wait fuel probes (S slept)
      | [] => up_wait fuel [] (S slept)
      end
  end.
Definition cmd_up (running : bool) (log_err spawn_err : option string) (probes : list bool) (socket log_path : Path) : Out * bool * nat :=
  if running then (say "amberd already running", false, O)
  else match log_err with
  | Some e => (fail ("cannot open amberd log: " +:+ e), false, O)
  | None =>
      match spawn_err with
      | Some e => (fail ("failed to start amberd: " +:+ e), false, O)
      | None =>
          let '(up, slept) := up_wait 40 probes O in
          (if up then say ("amberd started (" +:+ path_text socket +:+ ")")
           else fail ("amberd did not come up; see " +:+ path_text log_path), true, slept)
      end
  end.

(** [socket_path], with the caller's uid and the temporary directory. *)
Definition socket_path (envs : Env) (tmp : Path) (uid : Z) : Path :=
  match envs !! "XDG_RUNTIME_DIR" with
  | Some dir => join (path_of_str dir) (path_of_str "amber.sock")
  | None => join (join tmp [Normal ("amber-" +:+ pretty uid)]) [Normal "amber.sock"]
  end.

(** ** main *)

Definition help_text : string :=
"amber — fast, isolated microVM sandboxes on Apple Silicon

usage: amber <command> [args]

  run & exec
    run [-d] <image|template> [-- <argv>]   boot a microVM and run a command
                                            (-d: detached, prints an id)
    exec <template-dir> -- <command>        run a command in a warm fork
    template <image> <dir>                  build a ready-to-exec template
    fork [-i] <template-dir>                fork a template (-i: attach terminal)
    restore <snapshot-dir>                  resume a snapshot mid-execution

  daemon & fleet
    up | down                               start / stop the amberd daemon
    ps                                      list VMs (ID PID STATE AGE CAP RSS IMAGE)
    logs <id>                               stream a VM's output
    pause <id> | resume <id>                freeze / unfreeze a running VM
    rm <id>                                 kill a VM
    budget                                  fleet RAM: budget / reserved / real / host
    balloon <id> <MiB>                      ask a VM to give RAM back

  images & disks
    pull <image>                            pre-pull / refresh into the cache
    disk create <path> <size> [--raw]       make an ext4 data disk (mounts at /data)
    boot <kernel-Image> [initramfs] [disk]  boot a raw kernel (no OCI)

  env
    AMBER_NET=none        disable networking (on by default)
    AMBER_PORTS=8080:80   forward a host port to the guest
    AMBER_VCPUS=4         guest CPUs (1-8, default 1)
    AMBER_DISK=data.img   attach a data disk at /data (:ro for read-only)
    AMBER_VSOCK=/tmp/v.sock  guest<->host vsock over a unix socket (guest CID 3)
    AMBER_GIC=hw          use the in-kernel vGIC (no snapshot timer)
    AMBER_CPU_TEMPLATE=no-crypto  mask guest CPU features (host=passthrough)

docs: README.md  ·  config: amber.toml
".

(** [cmd_run], but for a run in the process itself, and [cmd_fork]. *)
Definition run_plan (p : RunPlan) : option Plan :=
  match p with
  | RunUsage => Some (Done (fail "usage: amber run [-d] <image|template> [-- <argv>...]"))
  | RunNoDaemon => Some (Done (fail "-d needs amberd (run 'amber up')"))
  | RunDetach target argv => Some (cmd_run_detached target argv)
  | RunClient target argv => Some (Ask (RunOneShot target argv) (streamed "run"))
  | RunHere => None
  end.
Definition fork_plan (p : option (bool * string)) : Plan :=
  match p with
  | None => Done (fail "usage: amber fork [-i] <template-dir>")
  | Some (true, template) => Ask (Fork template true) (streamed "fork")
  | Some (false, template) => cmd_fork_detached template
  end.

(** What a command name leads to. *)
Inductive Action :=
| APlan (p : Plan) | ARun (p : bool -> option Plan) | AVm | AProbe | ASelftest | AServe | AUp | APull | ADisk | ARestore | ATemplate
| AExec (p : option (string * string)) | ABoot.

(** [selftest] is in the build for Linux on aarch64. *)
Definition main (selftest tty : bool) (now : Z) (args : list string) : Action :=
  match args !! 1%nat with
  | Some "run" => ARun (fun running => run_plan (Cli.cmd_run running args))
  | Some "__vm" => AVm
  | Some "__lockdown-probe" => AProbe
  | Some "serve" => AServe
  | Some "up" => AUp
  | Some "down" => APlan cmd_down
  | Some "ps" => APlan (cmd_ps tty now)
  | Some "rm" => APlan (cmd_rm args)
  | Some "logs" => APlan (cmd_logs args)
  | Some "budget" => APlan cmd_budget
  | Some "balloon" => APlan (cmd_balloon args)
  | Some "pause" => APlan (cmd_pause args)
  | Some "resume" => APlan (cmd_resume args)
  | Some "pull" => APull
  | Some "disk" => ADisk
  | Some "restore" => ARestore
  | Some "template" => ATemplate
  | Some "exec" => AExec (Cli.cmd_exec args)
  | Some "fork" => APlan (fork_plan (Cli.cmd_fork args))
  | Some "boot" => ABoot
  | Some "help" | Some "-h" | Some "--help" | None => APlan (Done (mkOut help_text EmptyString SUCCESS))
  | Some other =>
      if selftest && String.eqb other "__kvm-selftest" then ASelftest
      else APlan (Done (mkOut EmptyString (line (line ("amber: unknown command '" +:+ other +:+ "'")) +:+ help_text) FAILURE))
  end.

(** ** Running a plan *)

(** What a handler sends back, [relayed] by those that stream. *)
Definition response (relayed : Handled -> list Z) (h : Handled) : list Z :=
  match h with
  | HReply rep => write_reply rep
  | HShutdown _ _ => write_reply ROk
  | HClosed | HIo => []
  | _ => relayed h
  end.

(** A peer's requests to a daemon; [ask] is one connection. *)
Section Perform.
Variables (peer : option Z) (euid : Z) (rss : Z -> Z) (budget : option Z) (machine : Z) (relayed : Handled -> list Z).
Definition ask (d : Daemon) (req : Request) : Daemon * Handled * Reader :=
  let '(d', h) := handle d peer euid rss budget machine (mkReader (write_request req) false) in
  (d', h, mkReader (response relayed h) false).
Fixpoint perform (up : bool) (d : Daemon) (p : Plan) : Daemon * Out :=
  match p with
  | Done o => (d, o)
  | Probe f => perform up d (f up)
  | Ask req k => if up then let '(d', _, r) := ask d req in (d', k (Some r)) else (d, k None)
  end.
End Perform.
End Commands.


(** ** The lockdown's self test *)

Section Probe.
Variables (h : Landlock.Host) (opened : Z -> option Real) (fs : Fs) (tmp : Path).
Variables (no_new_privs seccomp_ok bind_ok : bool) (err_text : Landlock.Err -> string).

(** [fs::write] with Landlock: making a file and writing one. *)
Definition MAKE_REG : Z := 8.
Definition writable (es : list Landlock.Ev) (p : Path) : bool :=
  match resolve fs true true p with
  | inr _ => false
  | inl r =>
      match fs !! r with
      | None => Landlock.allows es opened MAKE_REG (removelast r) && Landlock.allows es opened Landlock.WRITE_FILE r
      | Some (NFile _ _) => Landlock.allows es opened Landlock.WRITE_FILE r
      | Some _ => false
      end
  end.
(** A system call that the filter, if there is one, lets through. *)
Definition passes (prog : option (list Seccomp.sock_filter)) (nr : Z) : bool :=
  match prog with
  | None => true
  | Some p => bool_decide (Seccomp.verdict p (Seccomp.mkData nr Seccomp.ARCH_AARCH64) = Some Seccomp.RET_ALLOW)
  end.
Definition bool_text (b : bool) : string := if b then "true" else "false".

Definition cmd_lockdown_probe (envs : Env) (args : list string) : Out :=
  let allow_dir := args !! 2%nat in
  let policy := match allow_dir with Some dir => mkPolicy [path_of_str dir] true | None => mkPolicy [] false end in
  match (if skipped envs then ([], None, None) else apply_linux h no_new_privs seccomp_ok policy) with
  | (_, _, Some e) => fail ("lockdown apply failed: " +:+ err_text e)
  | (es, prog, None) =>
      let exec_blocked := negb (passes prog Seccomp.NR_EXECVE) in
      let write_blocked := negb (writable es (join tmp [Normal "amber-lockdown-outside"])) in
      let '(granted, leak) := match allow_dir with
        | None => (true, EmptyString)
        | Some dir =>
            let inside := writable es (join (path_of_str dir) [Normal "probe"]) in
            let sock := passes prog Seccomp.NR_SOCKET && bind_ok in
            (inside && sock, if inside && sock then EmptyString else
              line ("LOCKDOWN_GRANT_LEAK: write_inside=" +:+ bool_text inside +:+ " sock=" +:+ bool_text sock))
        end in
      if exec_blocked && write_blocked && granted then mkOut (line "LOCKDOWN_OK") leak SUCCESS
      else mkOut EmptyString (leak +:+ line ("LOCKDOWN_LEAK: exec_blocked=" +:+ bool_text exec_blocked
                                             +:+ " write_blocked=" +:+ bool_text write_blocked)) FAILURE
  end.
End Probe.

(** ** disk *)

(** [mkfs_ext4]: the arguments of docker, and the result from docker's status
    and stderr, or why it did not run. *)
Definition mkfs_args (r : Real) : list string :=
  ["run"; "--rm"; "-v"; "/" +:+ join_with "/" (removelast r) +:+ ":/work"; "debian:bookworm"; "mke2fs"; "-t"; "ext4"; "-F"; "-q";
   "/work/" +:+ List.last r EmptyString].
Definition mkfs_ext4 (fs : Fs) (docker : list string -> (bool * string) + string) (os_text : Errno -> string) (path : Path) : unit + string :=
  match canonicalize fs path with
  | inr e => inr (os_text e)
  | inl [] => inr "no parent dir"
  | inl r =>
      match docker (mkfs_args r) with
      | inr e => inr e
      | inl (true, _) => inl tt
      | inl (false, stderr) => inr (trim stderr)
      end
  end.

(** [cmd_disk] around the file that [Cli.cmd_disk] makes; sizing it succeeds. *)
Definition disk_usage : string := "usage: amber disk create <path> <size> [--raw]".
Definition disk_done (docker : list string -> (bool * string) + string) (os_text : Errno -> string) (fs : Fs) (path : string) (bytes : Z) (raw : bool) : Out :=
  let size := "created " +:+ path +:+ " (" +:+ pretty (mib bytes) +:+ " MiB, " in
  if raw then say (size +:+ "raw/unformatted). attach: AMBER_DISK=" +:+ path)
  else match mkfs_ext4 fs docker os_text (path_of_str path) with
  | inl _ => say (size +:+ "ext4). attach: AMBER_DISK=" +:+ path +:+ " (mounts at /data)")
  | inr e => mkOut EmptyString (line ("ext4 format failed (" +:+ e +:+
      "); leaving a raw image (format it in the guest, or retry with Docker running)")) SUCCESS
  end.
(** [create_new] finds the name, a link's included. *)
Definition taken (fs : Fs) (p : Path) : bool :=
  match split_last p with
  | None => fs_exists fs p
  | Some (d, s) => match canonicalize fs d with inl r => given (fs !! (r ++ [s])) | inr _ => false end
  end.
Definition cmd_disk (file_mode : Z) (parse_size : string -> option Z) (docker : list string -> (bool * string) + string)
    (os_text : Errno -> string) (fs : Fs) (args : list string) : Fs * Out :=
  match args !! 2%nat with
  | Some "create" =>
      match args !! 3%nat, args !! 4%nat with
      | Some path, Some size =>
          match parse_size size with
          | None => (fs, fail ("bad size '" +:+ size +:+ "' (try 512MiB, 2GiB, 1048576)"))
          | Some _ =>
              match Cli.cmd_disk file_mode parse_size fs args with
              | Some (fs', bytes) => (fs', disk_done docker os_text fs' path bytes (existsb (fun a => String.eqb a "--raw") args))
              | None =>
                  (fs, if taken fs (path_of_str path) then fail (path +:+ " already exists")
                       else fail ("cannot create " +:+ path +:+ ": " +:+ os_text (match new_place fs (path_of_str path) with inr e => e | inl _ => EOTHER end)))
              end
          end
      | _, _ => (fs, fail (disk_usage +:+ "   (e.g. 1GiB)"))
      end
  | _ => (fs, fail disk_usage)
  end.

(** ** Requests and their replies *)

Section Answers.
Context `{SerdeOk Request} `{SerdeOk Reply}.
Variables (io_text : IoErr -> string) (json_text : string).
Variables (euid : Z) (rss : Z -> Z) (budget : option Z) (machine : Z) (relayed : Handled -> list Z).
#[local] Abbreviation perform := (perform (Some euid) euid rss budget machine relayed).
#[local] Abbreviation client_text := (client_text io_text json_text).

Definition framed {A} `{Serde A} (x : A) : Prop := zlen (to_vec x) <= MAX_FRAME.

Lemma request_reply (rep : Reply) : framed rep -> request (Some (mkReader (write_reply rep) false)) = inl rep.
Proof. intros L. unfold request, write_reply. rewrite <- (app_nil_r (write_frame _ _)), read_frame_written by done. cbn. by rewrite serde_ok. Qed.

(** A request answered from the registry, to the end of its handler. *)
Lemma ask_registry (d d' : Daemon) (req : Request) (rep : Reply) : framed req ->
  handle_request d rss budget machine req = Some (d', rep) ->
  ask (Some euid) euid rss budget machine relayed d req = (d', HReply rep, mkReader (write_reply rep) false).
Proof.
  intros L E. unfold ask, handle, authorized. rewrite Z.eqb_refl. cbn [negb].
  unfold write_request. rewrite <- (app_nil_r (write_frame _ _)), read_frame_written by done. cbn [Z.eqb negb].
  unfold TAG_REQUEST. cbn [Z.eqb Pos.eqb negb]. rewrite serde_ok.
  destruct req; cbn [handle_request] in E; try discriminate E; cbn [handle_request response];
    first [by injection E as <- <-|by injection E as ->].
Qed.

(** An acknowledged request, from the plan to the output. *)
Lemma acked_registry (d d' : Daemon) (req : Request) (rep : Reply) (verb done : string) : framed req -> framed rep ->
  handle_request d rss budget machine req = Some (d', rep) ->
  perform true d (Ask req (acked io_text json_text verb done)) =
  (d', match rep with RError message => fail (verb +:+ " failed: " +:+ message) | _ => say done end).
Proof.
  intros Lq Lr E. cbn [Commands.perform]. rewrite (ask_registry _ _ _ _ Lq E). unfold acked, client_ack.
  rewrite request_reply by exact Lr. by destruct rep.
Qed.

(** What a channel operation answers. *)
Lemma control_op_cases (d : Daemon) (id : string) (frame : list Z) (paused : option bool) :
  control_op d id frame paused =
  match reg d !! id with
  | None => (d, RError ("no such vm: " +:+ id))
  | Some e =>
      match e_control e with
      | None => (d, RError ("vm " +:+ id +:+ " has no control channel"))
      | Some ctl =>
          if ch_open ctl then
            (set_reg d (<[id := let e' := set_control (mkChan true (ch_sent ctl ++ frame)) e in
                                match paused with Some p => set_paused p e' | None => e' end]> (reg d)), ROk)
          else (d, RError "control write")
      end
  end.
Proof.
  unfold control_op. destruct (reg d !! id) as [e|] eqn:E; [|done]. destruct (e_control e) as [ctl|]; [|done].
  unfold chan_write. destruct (ch_open ctl); [|done]. unfold upd_entry. repeat f_equal. apply map_eq. intros i.
  destruct (decide (i = id)) as [->|N]; [by rewrite lookup_alter_eq, E, lookup_insert_eq|by rewrite lookup_alter_ne, lookup_insert_ne].
Qed.

(** A channel operation, from the plan to the output. *)
Lemma acked_control (d : Daemon) (req : Request) (id verb done : string) (byte : Z) (p : bool) : framed req ->
  In (req, [byte], p) [(Pause id, pause_frame, true); (Resume id, resume_frame, false)] ->
  framed (snd (control_op d id [byte] (Some p))) ->
  perform true d (Ask req (acked io_text json_text verb done)) =
  match reg d !! id with
  | None => (d, fail (verb +:+ " failed: no such vm: " +:+ id))
  | Some e =>
      match e_control e with
      | None => (d, fail (verb +:+ " failed: vm " +:+ id +:+ " has no control channel"))
      | Some ctl =>
          if ch_open ctl then
            (set_reg d (<[id := set_paused p (set_control (mkChan true (ch_sent ctl ++ [byte])) e)]> (reg d)), say done)
          else (d, fail (verb +:+ " failed: control write"))
      end
  end.
Proof.
  intros Fq I Fr. rewrite (acked_registry d (fst (control_op d id [byte] (Some p))) req (snd (control_op d id [byte] (Some p)))); [|done|done|].
  - rewrite control_op_cases. destruct (reg d !! id) as [e|]; [|reflexivity]. destruct (e_control e) as [ctl|]; [|reflexivity].
    by destruct (ch_open ctl).
  - cbn [In] in I. unfold pause_frame, resume_frame in I. destruct I as [[= <- <- <-]|[[= <- <- <-]|[]]]; cbn [handle_request]; f_equal; apply surjective_pairing.
Qed.
End Answers.

(** ** Columns *)

Lemma string_app_assoc (a b c : string) : (a +:+ b) +:+ c = a +:+ b +:+ c.
Proof. induction a as [|x a IH]; [done|]. by rewrite !app_string, IH. Qed.

(** No character of [s] is [c]. *)
Definition free (c : Ascii.ascii) (s : string) : bool := all_chars (fun x => negb (Ascii.eqb x c)) s.

Lemma blank_free_app c a b : free c (a +:+ b) = free c a && free c b.
Proof. apply all_chars_app. Qed.
Lemma free_spaces c n : c <> ch " " -> free c (spaces n) = true.
Proof. intros N. induction n as [|n IH]; [done|]. cbn [spaces]. unfold free in *. cbn [all_chars]. rewrite IH, andb_true_r. apply negb_true_iff, Ascii.eqb_neq. congruence. Qed.
Lemma free_numerals c s : numeral c = false -> all_chars numeral s = true -> free c s = true.
Proof.
  intros N. unfold free. induction s as [|x s IH]; [done|]. cbn [all_chars]. intros [Nx A]%andb_true_iff. rewrite IH by done.
  rewrite andb_true_r. apply negb_true_iff, Ascii.eqb_neq. intros ->. congruence.
Qed.
Lemma free_pretty c n : numeral c = false -> 0 <= n -> free c (pretty n) = true.
Proof.
  intros N L. destruct (Z.eq_dec n 0) as [->|]; [apply free_numerals; done|]. apply free_numerals; [done|]. apply pretty_numerals. lia.
Qed.
Lemma pretty_nonempty n : 0 <= n -> pretty n <> EmptyString.
Proof. intros L. destruct (Z.eq_dec n 0) as [->|]; [done|]. destruct (pretty_shape n) as (c & s & -> & _); [lia|done]. Qed.
Lemma free_cons c x s : free c (String x s) = negb (Ascii.eqb x c) && free c s.
Proof. done. Qed.

(** The separators of the output: none is a digit. *)
Definition separator (c : Ascii.ascii) : Prop := c = NL \/ c = ESC \/ c = ch " ".
Lemma separator_numeral c : separator c -> numeral c = false.
Proof. intros [->|[->| ->]]; reflexivity. Qed.

Lemma free_age c n : separator c -> 0 <= n -> free c (fmt_age n) = true.
Proof.
  intros S L. pose proof (separator_numeral c S). unfold fmt_age.
  repeat case_match; rewrite blank_free_app, free_pretty by (try apply Z.div_pos; lia || done); destruct S as [->|[->| ->]]; reflexivity.
Qed.
Lemma free_mebi c n : separator c -> 0 <= n -> free c (mebi n) = true.
Proof.
  intros S L. pose proof (separator_numeral c S). unfold mebi, mib. rewrite blank_free_app, free_pretty by (try apply Z.div_pos; lia || done).
  destruct S as [->|[->| ->]]; reflexivity.
Qed.
Lemma fmt_age_nonempty n : 0 <= n -> fmt_age n <> EmptyString.
Proof. intros L. unfold fmt_age. repeat case_match; (destruct (pretty _); [|done]); done. Qed.
Lemma mebi_nonempty n : mebi n <> EmptyString.
Proof. unfold mebi. by destruct (pretty _). Qed.

(** A VM as it may be listed: its numbers are unsigned, and its id and
    reference hold no separator of the output. *)
Record listed (v : VmInfo) : Prop := {
  li_pid : 0 <= vi_pid v; li_ram : 0 <= vi_ram_bytes v; li_rss : 0 <= vi_rss_bytes v;
  li_id : vi_id v <> EmptyString /\ forall c, separator c -> free c (vi_id v) = true;
  li_ref : free NL (vi_reference v) = true /\ free ESC (vi_reference v) = true
}.

(** *** Colours *)

(** What a terminal shows: escape sequences up to their final [m] are not. *)
Fixpoint shown (esc : bool) (s : string) : string :=
  match s with
  | EmptyString => EmptyString
  | String c s' =>
      if esc then shown (negb (Ascii.eqb c (ch "m"))) s'
      else if Ascii.eqb c ESC then shown true s' else String c (shown false s')
  end.

Lemma shown_free a b : free ESC a = true -> shown false (a +:+ b) = a +:+ shown false b.
Proof.
  induction a as [|x a IH]; [done|]. rewrite free_cons, !app_string. intros [N F]%andb_true_iff. cbn [shown].
  apply negb_true_iff in N. by rewrite N, IH.
Qed.
Lemma shown_colour (tty : bool) (code s rest : string) : free ESC s = true -> In code ["0"; "1"; "2"; "32"; "33"] ->
  shown false (colour tty code s +:+ rest) = s +:+ shown false rest.
Proof.
  intros F I. destruct tty; cbn [colour]; [|by apply shown_free]. rewrite !string_app_assoc.
  assert (E : forall rest, shown false (ansi code +:+ rest) = shown false rest)
    by (intros r; cbn [In] in I; repeat (destruct I as [<-|I]; [reflexivity|]); done).
  rewrite E, shown_free by done. by f_equal.
Qed.

Lemma free_pads w s c : c <> ch " " -> free c (pad_right w s) = free c s /\ free c (pad_left w s) = free c s.
Proof. intros N. unfold pad_right, pad_left. rewrite !blank_free_app, free_spaces by done. by rewrite andb_true_r. Qed.

Lemma free_state c v : separator c -> c <> ch " " -> free c (pad_right 8 (vm_state v)) = true.
Proof. intros S N. rewrite (proj1 (free_pads _ _ _ N)). unfold vm_state. destruct (vi_paused v), S as [->|[->| ->]]; done. Qed.

Lemma shown_cells (tty : bool) code id pid state age cap rss image rest : In code ["0"; "1"; "2"; "32"; "33"] ->
  Forall (fun s => free ESC s = true) [id; pid; state; age; cap; rss; image] ->
  shown false (cells id pid (colour tty code state) age cap rss image +:+ rest) = cells id pid state age cap rss image +:+ shown false rest.
Proof.
  intros I F. repeat (apply Forall_cons in F as [? F]). assert (N : ESC <> ch " ") by discriminate.
  unfold cells. rewrite !string_app_assoc. rewrite !shown_free, shown_colour, !shown_free
    by (try done; rewrite ?(proj1 (free_pads _ _ _ N)), ?(proj2 (free_pads _ _ _ N)); done). done.
Qed.

Lemma shown_row (tty : bool) now v rest : listed v -> shown false (line (ps_row tty now v) +:+ rest) = line (ps_row false now v) +:+ shown false rest.
Proof.
  intros []. unfold line, ps_row. rewrite !string_app_assoc. rewrite shown_cells.
  - rewrite shown_free by done. done.
  - destruct (vi_paused v); cbn [In]; tauto.
  - assert (separator ESC) by (unfold separator; tauto). repeat constructor; try (apply free_mebi || apply free_age); try done.
    + by apply li_id0.
    + by apply free_pretty.
    + by apply free_state.
    + unfold ssub. lia.
    + apply li_ref0.
Qed.

Lemma free_foot (c : Ascii.ascii) vms : separator c -> c <> ch " " ->
  free c (ps_foot false vms) = true.
Proof.
  intros S N. pose proof (separator_numeral c S). unfold ps_foot. cbn [colour]. cbv zeta.
  rewrite !blank_free_app, free_pretty by (try apply zlen_nonneg; done).
  destruct (_ <? _); rewrite ?blank_free_app, ?free_pretty by (try apply zlen_nonneg; done);
    destruct S as [->|[->| ->]]; first [reflexivity|done].
Qed.

(** *** Lines and words *)

Definition lines (s : string) : list string := split_list NL s.
Definition words (s : string) : list string := List.filter (fun w => negb (String.eqb w EmptyString)) (split_list (ch " ") s).

Lemma split_list_free c a b : free c a = true -> split_list c (a +:+ String c b) = a :: split_list c b.
Proof.
  unfold split_list. induction a as [|x a IH].
  - intros _. change (EmptyString +:+ String c b) with (String c b). cbn [split_on]. rewrite Ascii.eqb_refl. by destruct (split_on c b).
  - rewrite free_cons, app_string. intros [N F]%andb_true_iff. cbn [split_on]. apply negb_true_iff in N. rewrite N. apply IH in F.
    destruct (split_on c (a +:+ String c b)), (split_on c b). by injection F as -> ->.
Qed.
Lemma words_cons a b : free (ch " ") a = true -> a <> EmptyString -> words (a +:+ " " +:+ b) = a :: words b.
Proof.
  intros F N. unfold words. change (" " +:+ b) with (String (ch " ") b). rewrite split_list_free by done. cbn [List.filter].
  apply String.eqb_neq in N. by rewrite N.
Qed.
Lemma words_space b : words (String (ch " ") b) = words b.
Proof. unfold words. change (String (ch " ") b) with (EmptyString +:+ String (ch " ") b). by rewrite split_list_free. Qed.
Lemma words_spaces n b : words (spaces n +:+ b) = words b.
Proof. induction n as [|n IH]; [done|]. cbn [spaces]. by rewrite app_string, words_space. Qed.
Lemma words_right w a b : free (ch " ") a = true -> a <> EmptyString -> words (pad_right w a +:+ " " +:+ b) = a :: words b.
Proof.
  intros F N. unfold pad_right. rewrite string_app_assoc. destruct (w - width a)%nat as [|n]; [by apply words_cons|].
  change (spaces (S n) +:+ " " +:+ b) with (" " +:+ (spaces n +:+ " " +:+ b)). rewrite words_cons by done.
  rewrite words_spaces. f_equal. apply words_space.
Qed.
Lemma words_left w a b : free (ch " ") a = true -> a <> EmptyString -> words (pad_left w a +:+ " " +:+ b) = a :: words b.
Proof. intros F N. unfold pad_left. rewrite string_app_assoc, words_spaces. by apply words_cons. Qed.

Lemma words_row now v : listed v ->
  words (ps_row false now v) =
  [vi_id v; pretty (vi_pid v); vm_state v; fmt_age (ssub now (vi_started v)); mebi (vi_ram_bytes v); mebi (vi_rss_bytes v)]
  ++ words (vi_reference v).
Proof.
  intros []. assert (S : separator (ch " ")) by (unfold separator; tauto). unfold ps_row, cells. cbn [colour].
  assert (A : 0 <= ssub now (vi_started v)) by (unfold ssub; lia).
  rewrite words_right by (try apply li_id0; done).
  rewrite words_right by (first [by apply free_pretty|by apply pretty_nonempty]).
  rewrite words_right by (unfold vm_state; by destruct (vi_paused v)).
  rewrite words_left by (first [by apply free_age|by apply fmt_age_nonempty]).
  rewrite words_left by (first [by apply free_mebi|apply mebi_nonempty]).
  change ("  " +:+ vi_reference v) with (" " +:+ String (ch " ") (vi_reference v)).
  rewrite words_left by (first [by apply free_mebi|apply mebi_nonempty]).
  by rewrite words_space.
Qed.

Lemma free_row now v : listed v -> free NL (ps_row false now v) = true.
Proof.
  intros []. assert (S : separator NL) by (unfold separator; tauto). assert (N : NL <> ch " ") by discriminate.
  unfold ps_row, cells. cbn [colour].
  rewrite !blank_free_app, !(proj1 (free_pads _ _ _ N)), !(proj2 (free_pads _ _ _ N)), !free_pretty, !free_mebi, free_age by (unfold ssub; lia || done).
  rewrite (proj1 li_ref0), (proj2 li_id0) by done. unfold vm_state. by destruct (vi_paused v).
Qed.

(** ** Properties *)

Section Properties.
Context `{SerdeOk Request} `{SerdeOk Reply}.
Variables (io_text : IoErr -> string) (json_text : string).
Variables (euid : Z) (rss : Z -> Z) (budget : option Z) (machine : Z) (relayed : Handled -> list Z).
#[local] Abbreviation perform peer := (perform peer euid rss budget machine relayed).

(** The messages about [id] fit in frames. *)
Definition id_framed (id : string) : Prop :=
  (forall req, In req [Pause id; Resume id; Kill id] -> framed req)
  /\ forall rep, In rep [ROk; RError "control write"; RError ("no such vm: " +:+ id); RError ("vm " +:+ id +:+ " has no control channel")] ->
     framed rep.


(** down says that amberd has stopped when it answered that the caller is
    not authorized and runs on. *)
Theorem down_claims (d : Daemon) (peer : option Z) : peer <> Some euid ->
  perform peer true d cmd_down = (d, say "amberd stopped").
Proof.
  intros N. cbn [cmd_down Commands.perform]. unfold ask, handle, authorized. destruct peer as [uid|]; [|done].
  destruct (Z.eqb_spec uid euid) as [->|]; done.
Qed.

End Properties.

(** ps in a pipe: a header, a line for each VM and a count; the words
    of a VM's line are its id, pid, state, age, cap and use, and then its
    reference. On a terminal the same text is shown. *)
Theorem ps_lines (tty : bool) (now : Z) (vms : list VmInfo) : Forall listed vms ->
  lines (ps_text false now vms) = ps_header false :: map (ps_row false now) vms ++ [ps_foot false vms; EmptyString]
  /\ Forall (fun v => words (ps_row false now v) =
       [vi_id v; pretty (vi_pid v); vm_state v; fmt_age (ssub now (vi_started v)); mebi (vi_ram_bytes v); mebi (vi_rss_bytes v)]
       ++ words (vi_reference v)) vms
  /\ shown false (ps_text tty now vms) = ps_text false now vms.
Proof.
  intros F. unfold ps_text. split; [|split].
  - unfold line at 1. rewrite string_app_assoc. change (chr NL +:+ ?s) with (String NL s). unfold lines.
    rewrite split_list_free by reflexivity. f_equal.
    assert (G : forall foot, free NL foot = true -> split_list NL (foldr (fun v s => line (ps_row false now v) +:+ s) (line foot) vms)
      = map (ps_row false now) vms ++ [foot; EmptyString]); [|apply G, free_foot; [unfold separator; tauto|discriminate]].
    intros foot Ff. induction F as [|v vms L F IH].
    + cbn [foldr map app]. unfold line, chr. rewrite split_list_free by done. done.
    + cbn [foldr map app]. unfold line at 1. rewrite string_app_assoc. change (chr NL +:+ ?s) with (String NL s).
      rewrite split_list_free by by apply free_row. by rewrite IH.
  - eapply Forall_impl; [exact F|]. intros v. apply words_row.
  - unfold line at 1. rewrite !string_app_assoc. unfold ps_header at 1.
    rewrite shown_colour by (first [reflexivity|cbn; tauto]). rewrite shown_free by done.
    change (cells _ _ _ _ _ _ _) with (ps_header false). rewrite <- string_app_assoc. f_equal.
    assert (G : shown false (line (ps_foot tty vms)) = line (ps_foot false vms)).
    { unfold line, ps_foot at 1. rewrite shown_colour; [|apply (free_foot ESC vms); [unfold separator; tauto|discriminate]|cbn; tauto]. done. }
    revert G. generalize (line (ps_foot tty vms)) as t, (line (ps_foot false vms)) as f. intros t f G.
    induction F as [|v vms L F IH]; [done|]. cbn [foldr]. rewrite shown_row by done. by rewrite IH.
Qed.

(** up reports amberd exactly when one of the 40 tries finds it, at most two
    seconds after starting it, and stops at the first that does. *)
Theorem up_waits (probes : list bool) (socket log_path : Path) :
  let '(out, started, slept) := cmd_up false None None probes socket log_path in
  started = true /\ (slept <= 40)%nat
  /\ (o_status out = SUCCESS <-> exists k, (k < 40)%nat /\ probes !! k = Some true)
  /\ (o_status out = SUCCESS -> probes !! slept = Some true) /\ (o_status out <> SUCCESS -> slept = 40%nat)
  /\ forall k, (k < slept)%nat -> probes !! k <> Some true.
Proof.
  unfold cmd_up.
  assert (G : forall fuel probes n, let '(up, slept) := up_wait fuel probes n in
    (n <= slept <= n + fuel)%nat /\ (up = true <-> exists k, (k < fuel)%nat /\ probes !! k = Some true)
    /\ (up = true -> probes !! (slept - n)%nat = Some true) /\ (up = false -> slept = (n + fuel)%nat)
    /\ forall k, (k < slept - n)%nat -> probes !! k <> Some true).
  { clear. induction fuel as [|fuel IH]; intros probes n; cbn [up_wait].
    - split; [lia|]. split; [split; [done|intros (k & L & _); lia]|]. split; [done|]. split; [lia|]. intros k L. lia.
    - assert (St : forall b probes, b <> true -> let '(up, slept) := up_wait fuel probes (S n) in
        (n <= slept <= n + S fuel)%nat /\ (up = true <-> exists k, (k < S fuel)%nat /\ (b :: probes) !! k = Some true)
        /\ (up = true -> (b :: probes) !! (slept - n)%nat = Some true) /\ (up = false -> slept = (n + S fuel)%nat)
        /\ forall k, (k < slept - n)%nat -> (b :: probes) !! k <> Some true).
      { intros b ps N. specialize (IH ps (S n)). destruct (up_wait fuel ps (S n)) as [up slept]. destruct IH as (L & I & T & F & Q).
        split; [lia|]. split; [|split; [|split]].
        - rewrite I. split; [intros (k & Lk & E); exists (S k); split; [lia|done]|]. intros ([|k] & Lk & E); [cbn in E; congruence|].
          exists k. split; [lia|done].
        - intros U. replace (slept - n)%nat with (S (slept - S n)) by lia. by apply T.
        - intros U. rewrite F by done. lia.
        - intros [|k] Lk; [cbn; congruence|]. apply Q. lia. }
      destruct probes as [|[] ps].
      + specialize (St false [] ltac:(done)). destruct (up_wait fuel [] (S n)) as [up slept]. destruct St as (L & I & T & F & Q).
        assert (E : forall k, [false] !! k <> Some true) by (intros [|k]; done).
        split; [done|]. split; [|split; [|split]]; [|intros U; by destruct (E (slept - n)%nat); apply T|done|done].
        rewrite I. split; intros (k & _ & X); [by destruct (E k)|done].
      + split; [lia|]. rewrite Nat.sub_diag. split; [split; [intros _; exists O; split; [lia|done]|done]|]. split; [done|]. split; [done|]. intros k L. lia.
      + apply (St false ps). done. }
  specialize (G 40%nat probes O). destruct (up_wait 40 probes 0) as [up slept]. destruct G as (L & I & T & F & Q).
  rewrite Nat.sub_0_r in *. split; [done|]. split; [lia|]. destruct up; cbn [o_status say fail].
  - split; [by rewrite <- I|]. split; [by intros _; apply T|]. by split.
  - split; [split; [done|intros E; by apply I in E]|]. split; [done|]. split; [intros _; by apply F|done].
Qed.

(** The self test on a kernel with Landlock, given a directory that is
    there: it passes exactly when that directory does not hold the temporary
    one, whose file it must not be able to write; and without Landlock the
    lockdown succeeds and the self test says that it leaks. *)
Theorem probe_finds_leaks (h : Landlock.Host) (opened : Z -> option Real) (fs : Fs) (tmp : Path) (err_text : Landlock.Err -> string)
    (envs : Env) (args : list string) (dir : string) (D T : Real) (es : list Landlock.Ev) : fs_wf fs -> opens_fs h fs opened ->
  args !! 2%nat = Some dir -> envs !! "AMBER_NO_LOCKDOWN" = None ->
  canonicalize fs (path_of_str dir) = inl D -> is_dir_at fs D = true -> fs !! (D ++ ["probe"]) = None ->
  canonicalize fs tmp = inl T -> is_dir_at fs T = true -> fs !! (T ++ ["amber-lockdown-outside"]) = None ->
  Landlock.install h [path_of_str dir] = (es, None) ->
  cmd_lockdown_probe h opened fs tmp true true true err_text envs args =
    if (1 <=? Landlock.abi h) && negb (bool_decide (D `prefix_of` T)) then say "LOCKDOWN_OK"
    else fail "LOCKDOWN_LEAK: exec_blocked=true write_blocked=false".
Proof.
  intros W O A Na Ed Dd Nd Et Dt Nt Ei. unfold cmd_lockdown_probe, skipped. rewrite A, Na. cbn [given]. unfold apply_linux.
  cbn [negb write_paths pol_net]. rewrite Ei. destruct (landlock_rights h fs opened _ es O Ei) as (Gr & _ & Gn).
  assert (V : forall p r s, canonicalize fs p = inl r -> is_dir_at fs r = true -> fs !! (r ++ [s]) = None ->
    writable opened fs es (join p [Normal s]) = Landlock.allows es opened MAKE_REG r && Landlock.allows es opened Landlock.WRITE_FILE (r ++ [s])).
  { intros p r s Er Dr Nr. unfold writable. change (join p [Normal s]) with (p ++ [Normal s]).
    rewrite resolve_snoc; [|done|by destruct p|by intros r' t Er'; rewrite Er in Er'; injection Er' as <-; rewrite Nr].
    rewrite Er, Dr, Nr, Nr. by rewrite removelast_last. }
  rewrite (V _ _ _ Et Dt Nt), (V _ _ _ Ed Dd Nd).
  assert (X : passes (Some (Seccomp.prog true)) Seccomp.NR_EXECVE = false) by reflexivity.
  assert (Y : passes (Some (Seccomp.prog true)) Seccomp.NR_SOCKET = true) by reflexivity.
  rewrite X, Y. cbn [negb andb].
  destruct (Z.leb_spec 1 (Landlock.abi h)) as [L|L].
  - assert (G : forall right at_, Z.testbit Landlock.FS_WRITE right = true -> Landlock.allows es opened right at_ = bool_decide (D `prefix_of` at_)).
    { intros right at_ Tr. apply eq_true_iff_eq. rewrite (Gr L right at_ Tr), bool_decide_eq_true. split.
      - intros (p & d & I & E & P). apply list_elem_of_singleton in I as ->. unfold dir_for in E. rewrite Ed in E. by injection E as <-.
      - intros P. exists (path_of_str dir), D. split; [left|]. unfold dir_for. by rewrite Ed. }
    rewrite !G by reflexivity. rewrite (bool_decide_eq_true_2 (D `prefix_of` D)) by done.
    rewrite (bool_decide_eq_true_2 (D `prefix_of` D ++ _)) by by apply prefix_app_r.
    cbn [andb negb]. destruct (bool_decide_reflect (D `prefix_of` T)) as [P|N]; cbn [negb andb]; [|done].
    by rewrite (bool_decide_eq_true_2 (D `prefix_of` T ++ _)) by by apply prefix_app_r.
  - rewrite !(Gn L). done.
Qed.

(** ** Instances *)

#[local] Instance VmInfo_dec : EqDecision VmInfo.
Proof. solve_decision. Defined.
#[local] Instance VmInfo_countable : Countable VmInfo.
Proof.
  refine (inj_countable'
    (fun v => (vi_id v, vi_reference v, vi_pid v, vi_started v, vi_ram_bytes v, vi_rss_bytes v, vi_paused v))
    (fun t => let '(i, r, p, s, a, u, b) := t in mkVmInfo i r p s a u b) _).
  by intros [].
Defined.
#[local] Instance Request_dec : EqDecision Request.
Proof. solve_decision. Defined.
#[local] Instance Request_countable : Countable Request.
Proof.
  refine (inj_countable'
    (fun r => match r with
      | RunOneShot x a => inl (inl (inl (x, a))) | RunDetached x a => inl (inl (inr (x, a)))
      | Balloon i m => inl (inr (inl (i, m))) | Fork t b => inl (inr (inr (t, b)))
      | Proto.Exec t c => inr (inl (t, c))
      | Logs i => inr (inr (inl (0%nat, i))) | Pause i => inr (inr (inl (1%nat, i))) | Resume i => inr (inr (inl (2%nat, i)))
      | Kill i => inr (inr (inl (3%nat, i)))
      | ListVms => inr (inr (inr 0%nat)) | Budget => inr (inr (inr 1%nat)) | Shutdown => inr (inr (inr 2%nat)) end)
    (fun t => match t with
      | inl (inl (inl (x, a))) => RunOneShot x a | inl (inl (inr (x, a))) => RunDetached x a
      | inl (inr (inl (i, m))) => Balloon i m | inl (inr (inr (t, b))) => Fork t b
      | inr (inl (t, c)) => Proto.Exec t c
      | inr (inr (inl (n, i))) => match n with 0 => Logs i | 1 => Pause i | 2 => Resume i | _ => Kill i end%nat
      | inr (inr (inr n)) => match n with 0 => ListVms | 1 => Budget | _ => Shutdown end%nat end) _).
  by intros [].
Defined.
#[local] Instance Reply_dec : EqDecision Reply.
Proof. solve_decision. Defined.
#[local] Instance Reply_countable : Countable Reply.
Proof.
  refine (inj_countable'
    (fun r => match r with
      | RExit c => inl (inl c) | RStarted i v => inl (inr (i, v)) | RVms l => inr (inl (inl l))
      | RBudget a b c d => inr (inl (inr (a, b, c, d))) | RBudgetExceeded a b c => inr (inr (inl (a, b, c)))
      | ROk => inr (inr (inr None)) | RError m => inr (inr (inr (Some m))) end)
    (fun t => match t with
      | inl (inl c) => RExit c | inl (inr (i, v)) => RStarted i v | inr (inl (inl l)) => RVms l
      | inr (inl (inr (a, b, c, d))) => RBudget a b c d | inr (inr (inl (a, b, c))) => RBudgetExceeded a b c
      | inr (inr (inr None)) => ROk | inr (inr (inr (Some m))) => RError m end) _).
  by intros [].
Defined.
#[local] Instance toy_request : Serde Request := demo_serde Request.
#[local] Instance toy_reply : Serde Reply := demo_serde Reply.
#[local] Instance toy_request_ok : SerdeOk Request := demo_serde_ok Request.
#[local] Instance toy_reply_ok : SerdeOk Reply := demo_serde_ok Reply.

Lemma toy_framed {A} `{Countable A} (x : A) : @framed A (demo_serde A) x.
Proof. unfold framed, MAX_FRAME. change (to_vec x) with [Zpos (encode x)]. change (zlen [_]) with 1. lia. Qed.

Definition toy_vm : VmInfo := mkVmInfo "vm1" "alpine" 42 0 (512 * 1024 * 1024) 0 false.
Definition toy_fleet : Daemon := set_reg Daemon_new {[ "vm1" := mkEntry toy_vm (Some (mkChan true [])) true true None ]}.


Lemma ps_lines_witness :
  words (ps_row false 90 toy_vm) = ["vm1"; "42"; "running"; "1m"; "512M"; "0M"; "alpine"]
  /\ shown false (ps_text true 90 [toy_vm]) = ps_text false 90 [toy_vm].
Proof.
  assert (L : Forall listed [toy_vm]).
  { repeat constructor; cbn; try lia; try done. intros c [->|[->| ->]]; reflexivity. }
  destruct (ps_lines true 90 [toy_vm] L) as (_ & W & S). split; [exact (Forall_inv W)|exact S].
Defined.

Lemma up_waits_instance : cmd_up false None None [false; true] [Normal "s"] [Normal "l"] = (say "amberd started (s)", true, 1%nat).
Proof. reflexivity. Qed.

Lemma toy_lock_wf : fs_wf toy_lock_fs.
Proof.
  split; [reflexivity|]. intros k s [n E]. unfold toy_lock_fs in E. destruct k as [|a k]; [reflexivity|].
  apply lookup_singleton_Some in E as [E _]. by destruct k.
Qed.

Lemma probe_finds_leaks_witness :
  cmd_lockdown_probe toy_lock toy_opened toy_lock_fs [RootDir] true true true (fun _ => EmptyString) ∅
    ["amber"; "__lockdown-probe"; "snap"] = say "LOCKDOWN_OK".
Proof.
  exact (probe_finds_leaks toy_lock toy_opened toy_lock_fs [RootDir] (fun _ => EmptyString) ∅ ["amber"; "__lockdown-probe"; "snap"]
    "snap" ["snap"] [] toy_events toy_lock_wf toy_opens eq_refl eq_refl eq_refl eq_refl eq_refl eq_refl eq_refl eq_refl eq_refl).
Defined.
