(* ===== verification/Worker.v ===== *)
(** * Worker: a VM process from its terminal to its exit status
    (crates/amber/src/main.rs: RawTerm, the ends of cmd_vm, cmd_boot,
    cmd_restore and cmd_fork, run; crates/amber-core/src/lib.rs and
    crates/amber-image/src/lib.rs: Display for Error)

    The host's terminal is its mode and what has been printed, each line with
    the mode it was printed in. The VM is [Monitor.run]; here it is an action
    on the terminal with a result, and an error has its text.

    [terminal_restored]; [run_error_raw]: an error is printed before the
    terminal is back; [error_texts]: what the user reads tells the error. *)

From S2P Require Import Prelude Memory Registry Text Image Dtb Bootstrap Serve Cli Commands.
#[local] Open Scope Z_scope.

(** ** The texts of errors *)

(** [amber_core::Error], with its texts ([Memory.Error] is it without). *)
Inductive CoreError :=
| Backend (m : string) | Mmap (e : string) | Loader (m : string) | Fdt (m : string)
| GuestFault (pc esr ipa : Z) | Device (m : string) | Snapshot (m : string).
Definition untexted (e : CoreError) : Memory.Error :=
  match e with
  | Backend _ => EBackend | Mmap _ => EMmap | Loader _ => ELoader | Fdt _ => EFdt
  | GuestFault pc esr ipa => EGuestFault pc esr ipa | Device _ => EDevice | Snapshot _ => ESnapshot
  end.

(** [{:#x}]. *)
Definition alt_hex (x : Z) : string := "0x" +:+ hex x.

Definition display (e : CoreError) : string :=
  match e with
  | Backend m => "backend error: " +:+ m
  | Mmap e => "guest memory mmap failed: " +:+ e
  | Loader m => "kernel load failed: " +:+ m
  | Fdt m => "device tree build failed: " +:+ m
  | GuestFault pc esr ipa => "unhandled guest fault: pc=" +:+ alt_hex pc +:+ " esr=" +:+ alt_hex esr +:+ " ipa=" +:+ alt_hex ipa
  | Device m => "device error: " +:+ m
  | Snapshot m => "snapshot error: " +:+ m
  end.

(** [amber_image::Error]. *)
Inductive ImageError :=
| Reference (m : string) | Http (m : string) | RegistryErr (m : string) | JsonErr (m : string)
| Digest (want got : string) | Pack (m : string) | Io (e : string).
Definition image_untexted (e : ImageError) : Registry.Error :=
  match e with
  | Reference _ => EReference | Http _ => EHttp | RegistryErr _ => ERegistry | JsonErr _ => EJson
  | Digest want got => EDigest want got | Pack _ => EPack | Io _ => EIo
  end.
Definition image_display (e : ImageError) : string :=
  match e with
  | Reference m => "bad image reference: " +:+ m
  | Http m => "http error: " +:+ m
  | RegistryErr m => "registry error: " +:+ m
  | JsonErr m => "json error: " +:+ m
  | Digest want got => "digest mismatch: want " +:+ want +:+ ", got " +:+ got
  | Pack m => "pack error: " +:+ m
  | Io e => "io error: " +:+ e
  end.

(** ** The terminal *)

Section Terminal.
(** libc's [termios] and [cfmakeraw]. *)
Context {Termios : Type} (cfmakeraw : Termios -> Termios).

(** Standard input: whether it is a terminal, whether its attributes can be
    read and set, its mode, and what was printed in which mode. *)
Record Tty := mkTty {
  isatty : bool; get_ok : bool; set_ok : bool; tty_mode : Termios; printed : list (Termios * string)
}.
Definition tcsetattr (t : Tty) (m : Termios) : Tty :=
  mkTty (isatty t) (get_ok t) (set_ok t) (if set_ok t then m else tty_mode t) (printed t).
Definition eprintln (t : Tty) (s : string) : Tty :=
  mkTty (isatty t) (get_ok t) (set_ok t) (tty_mode t) (printed t ++ [(tty_mode t, line s)]).

(** [RawTerm]: what it saved; [enable] and [drop]. *)
Definition RawTerm : Type := option Termios.
Definition raw_enable (t : Tty) : Tty * RawTerm :=
  if isatty t && get_ok t then (tcsetattr t (cfmakeraw (tty_mode t)), Some (tty_mode t)) else (t, None).
Definition raw_drop (t : Tty) (r : RawTerm) : Tty := match r with Some m => tcsetattr t m | None => t end.

(** ** The ends of the commands *)

(** What runs on the terminal: it may print and change its mode. *)
Definition Act (A : Type) : Type := Tty -> Tty * (A + string).

(** The end of [cmd_vm], [cmd_boot] and [cmd_restore]: [prepared] is the VM
    or the text of its error, [failed] the words before it. The terminal is
    dropped when the function returns, after the error is printed. *)
Definition run_vm {V : Type} (failed : string) (run : V -> Act unit) (prepared : V + string) (t : Tty) : Tty * Z :=
  match prepared with
  | inr e => (eprintln t (failed +:+ " failed: " +:+ e), FAILURE)
  | inl vm =>
      let '(t1, raw) := raw_enable t in
      match run vm t1 with
      | (t2, inl _) => (raw_drop t2 raw, SUCCESS)
      | (t2, inr e) => (raw_drop (eprintln t2 ("run failed: " +:+ e)) raw, FAILURE)
      end
  end.

(** [cmd_run]'s and interactive [cmd_fork]'s clients: the exit code of the
    guest; [cmd_fork] drops the terminal before it prints. *)
Definition client_run (client : Act Z) (t : Tty) : Tty * Z :=
  let '(t1, raw) := raw_enable t in
  match client t1 with
  | (t2, inl code) => (raw_drop t2 raw, exit_status (inl code))
  | (t2, inr e) => (raw_drop (eprintln t2 ("run failed: " +:+ e)) raw, FAILURE)
  end.
Definition fork_run (client : Act Z) (t : Tty) : Tty * Z :=
  let '(t1, raw) := raw_enable t in
  match client t1 with
  | (t2, inl code) => (raw_drop t2 raw, exit_status (inl code))
  | (t2, inr e) => (eprintln (raw_drop t2 raw) ("fork failed: " +:+ e), FAILURE)
  end.

(** ** Lemmas *)

(** An action that neither replaces standard input nor takes back a line. *)
Definition same_tty (t t' : Tty) : Prop :=
  isatty t' = isatty t /\ get_ok t' = get_ok t /\ set_ok t' = set_ok t /\ exists new, printed t' = printed t ++ new.
Definition on_tty {A} (f : Act A) : Prop := forall t, same_tty t (fst (f t)) /\ (isatty t && get_ok t = false -> tty_mode (fst (f t)) = tty_mode t).

Lemma raw_restores {A} (f : Act A) (t : Tty) : on_tty f -> set_ok t = true ->
  let '(t1, raw) := raw_enable t in
  tty_mode (raw_drop (fst (f t1)) raw) = tty_mode t /\ (forall s, tty_mode (raw_drop (eprintln (fst (f t1)) s) raw) = tty_mode t).
Proof.
  intros O S. unfold raw_enable. destruct (isatty t && get_ok t) eqn:E; cbn [raw_drop tcsetattr tty_mode].
  - destruct (O (tcsetattr t (cfmakeraw (tty_mode t)))) as [(_ & _ & So & _) _].
    change (set_ok (tcsetattr t (cfmakeraw (tty_mode t)))) with (set_ok t) in So. cbn [eprintln set_ok]. by rewrite So, S.
  - destruct (O t) as [_ M]. split; [by apply M|]. intros s. by apply M.
Qed.
End Terminal.

(** *** Texts *)

Lemma field_cancel c a a' b b' : contains c a = false -> contains c a' = false ->
  a +:+ String c b = a' +:+ String c b' -> a = a' /\ b = b'.
Proof.
  revert a'. induction a as [|x a IH]; intros [|x' a']; rewrite ?contains_cons, ?app_string; intros N N' E.
  - by injection E.
  - injection E as -> _. by rewrite Ascii.eqb_refl in N'.
  - injection E as <- _. by rewrite Ascii.eqb_refl in N.
  - injection E as -> E. apply orb_false_iff in N as [_ N], N' as [_ N']. by destruct (IH _ N N' E) as [-> ->].
Qed.

Lemma hex_char_solid d : 0 <= d < 16 -> Ascii.eqb (hex_char d) (ch " ") = false.
Proof.
  intros R. assert (D : d = Z.of_nat (Z.to_nat d)) by lia. rewrite D. assert (L : (Z.to_nat d < 16)%nat) by lia. revert L.
  generalize (Z.to_nat d) as n. intros n L. do 16 (destruct n as [|n]; [reflexivity|]). lia.
Qed.
Lemma hex_go_solid f : forall n s, contains (ch " ") s = false -> contains (ch " ") (hex_go f n s) = false.
Proof.
  induction f as [|f IH]; intros n s C; cbn [hex_go]; [done|].
  assert (C' : contains (ch " ") (String (hex_char (n mod 16)) s) = false)
    by (rewrite contains_cons, C, hex_char_solid by (apply Z.mod_pos_bound; lia); done).
  cbv zeta. destruct (n / 16 =? 0); [done|by apply IH].
Qed.
Lemma alt_hex_solid n : contains (ch " ") (alt_hex n) = false.
Proof. unfold alt_hex, hex. by rewrite contains_app, (hex_go_solid 16 n EmptyString eq_refl). Qed.
Lemma alt_hex_inj a b : fits 64 a -> fits 64 b -> alt_hex a = alt_hex b -> a = b.
Proof. intros A B E%app_cancel. by apply hex_inj. Qed.

(** The registers of a fault are 64-bit. *)
Definition core_ok (e : CoreError) : Prop :=
  match e with GuestFault pc esr ipa => fits 64 pc /\ fits 64 esr /\ fits 64 ipa | _ => True end.

(** the text of an error tells it: two errors of the core with the same text
    are the same error, a guest's fault with the same three registers. *)
Theorem error_texts (e e' : CoreError) : core_ok e -> core_ok e' -> display e = display e' -> e = e'.
Proof.
  destruct e, e'; cbn [display core_ok]; intros O O' E; try (apply app_cancel in E; by rewrite E); try discriminate E.
  apply app_cancel in E. destruct O as (P & Q & R), O' as (P' & Q' & R').
  apply field_cancel in E as [E1 E]; [|apply alt_hex_solid..]. apply (app_cancel "esr=") in E.
  apply field_cancel in E as [E2 E]; [|apply alt_hex_solid..]. apply (app_cancel "ipa=") in E.
  by rewrite (alt_hex_inj _ _ P P' E1), (alt_hex_inj _ _ Q Q' E2), (alt_hex_inj _ _ R R' E).
Qed.

(** ** The terminal comes back *)

(** however a VM's run, a client's or a fork's ends, the terminal is as it
    was before the command, whatever mode the run left it in; standard input
    that is not a terminal is never touched. *)
Theorem terminal_restored {Termios V : Type} (cfmakeraw : Termios -> Termios) (failed : string) (run : V -> Act unit)
    (prepared : V + string) (client : Act Z) (t : Tty) :
  (forall vm, on_tty (run vm)) -> on_tty client -> set_ok t = true ->
  tty_mode (fst (run_vm cfmakeraw failed run prepared t)) = tty_mode t
  /\ tty_mode (fst (client_run cfmakeraw client t)) = tty_mode t
  /\ tty_mode (fst (fork_run cfmakeraw client t)) = tty_mode t.
Proof.
  intros R C S. unfold run_vm, client_run, fork_run. pose proof (raw_restores cfmakeraw client t C S) as Rc.
  split.
  - destruct prepared as [vm|e]; [|done]. pose proof (raw_restores cfmakeraw (run vm) t (R vm) S) as Rv.
    destruct (raw_enable cfmakeraw t) as [t1 raw]. destruct (run vm t1) as [t2 [[]|e]]; apply Rv.
  - destruct (raw_enable cfmakeraw t) as [t1 raw]. destruct (client t1) as [t2 [code|e]]; cbn [fst] in *; split; try apply Rc.
Qed.

(** the text of a run's error is printed while the terminal is still raw, in
    which a line feed does not return the cursor; only [cmd_fork] puts the
    terminal back first. Status and text are the same otherwise. *)
Theorem run_error_raw {Termios : Type} (cfmakeraw : Termios -> Termios) (client : Act Z) (t : Tty) (e : string) :
  isatty t = true -> get_ok t = true -> set_ok t = true ->
  (forall t', client t' = (t', inr e)) ->
  let text := line ("run failed: " +:+ e) in
  printed (fst (client_run cfmakeraw client t)) = printed t ++ [(cfmakeraw (tty_mode t), text)]
  /\ printed (fst (run_vm cfmakeraw "prepare" (fun _ : unit => fun t' => (t', inr e)) (inl tt) t)) = printed t ++ [(cfmakeraw (tty_mode t), text)]
  /\ printed (fst (fork_run cfmakeraw client t)) = printed t ++ [(tty_mode t, line ("fork failed: " +:+ e))].
Proof.
  intros I G S C. unfold client_run, run_vm, fork_run, raw_enable. rewrite I, G. cbn [andb]. rewrite !C.
  unfold raw_drop, tcsetattr, eprintln. cbn. by rewrite S.
Qed.

(** ** Instances *)

(** A terminal with a flag for raw mode, and a guest that turns it off. *)
Definition demo_tty : Tty (Termios := bool) := mkTty true true true false [].
Definition demo_guest : Act (Termios := bool) Z := fun t =>
  (if isatty t && get_ok t then tcsetattr t false else t, inl 300).
Lemma demo_guest_on : on_tty demo_guest.
Proof.
  intros t. unfold demo_guest. split; [|intros ->; done]. destruct (_ && _); cbn; repeat (split; [done|]); exists []; by rewrite app_nil_r.
Qed.
Lemma terminal_restored_witness :
  tty_mode (fst (run_vm (fun _ => true) "prepare" (fun _ : unit => fun t => (fst (demo_guest t), inl tt)) (inl tt) demo_tty)) = false
  /\ client_run (fun _ => true) demo_guest demo_tty = (demo_tty, 255).
Proof.
  split; [|vm_compute; reflexivity].
  apply (terminal_restored (fun _ => true) "prepare" (fun _ : unit => fun t => (fst (demo_guest t), inl tt)) (inl tt) demo_guest demo_tty);
    [intros _ t; apply demo_guest_on|apply demo_guest_on|reflexivity].
Defined.
Lemma run_error_raw_witness :
  printed (fst (client_run (fun _ => true) (fun t => (t, inr "no daemon")) demo_tty)) = [(true, line "run failed: no daemon")].
Proof. apply (run_error_raw (fun _ => true) (fun t => (t, inr "no daemon")) demo_tty "no daemon"); reflexivity. Defined.
Lemma error_texts_witness :
  display (GuestFault 0xffff0000 0x96000045 0x9000000) = "unhandled guest fault: pc=0xffff0000 esr=0x96000045 ipa=0x9000000"
  /\ GuestFault 1 2 3 = GuestFault 1 2 3.
Proof. split; [vm_compute; reflexivity|apply error_texts; [cbn; lia|cbn; lia|reflexivity]]. Defined.
