(* ===== verification/NetHost.v ===== *)
(** * NetHost: what the user-mode network takes from its host
    (crates/amber-net/src/lib.rs: SmoltcpBackend::new, host_resolver, Bridge)

    The port forwards of AMBER_PORTS, the resolver of /etc/resolv.conf, and
    the frame queues between the device and the netstack. [UserNet] is the
    backend they configure. The environment, the file and which ports can be
    bound are arguments.

    [ports_forwarded]; [resolver_usable] and [resolver_first]; [bridge_fifo]. *)

From stdpp Require Import pretty.
From S2P Require Import Prelude Registry Text Bootstrap UserNet Cli Commands.
#[local] Open Scope Z_scope.

(** ** Port forwards *)

Definition parse_map (m : string) : option (Z * Z) :=
  '(h, g) ← split_once (ch ":") m; hp ← parse_u16 h; gp ← parse_u16 g; Some (hp, gp).
Definition port_maps (ports : option string) : list (Z * Z) :=
  omap parse_map (List.filter (fun s => negb (String.eqb s EmptyString)) (split_list (ch ",") (default EmptyString ports))).

(** Each mapping's bind in turn: [bind] has the ports bound before. *)
Fixpoint forwards (bind : list Z -> Z -> bool) (bound : list Z) (maps : list (Z * Z)) : list (Z * Z) :=
  match maps with
  | [] => []
  | (hp, gp) :: maps' =>
      if bind bound hp then (hp, gp) :: forwards bind (bound ++ [hp]) maps' else forwards bind bound maps'
  end.

(** ** The resolver *)

(** [Ipv4Addr::from_str]: four octets of one to three digits, no leading
    zeros. *)
Definition parse_octet (s : string) : option Z :=
  v ← parse_digits s;
  if (String.length s <=? 3)%nat && (v <=? 255) && (String.eqb s "0" || negb (starts_with "0" s)) then Some v else None.
Definition parse_ipv4 (s : string) : option Z :=
  match split_list (ch ".") s with
  | [a; b; c; d] => a ← parse_octet a; b ← parse_octet b; c ← parse_octet c; d ← parse_octet d; Some (Ipv4Address_new a b c d)
  | _ => None
  end.

(** [str::lines]. *)
Definition strip_cr (s : string) : string := match rsplit_once (Ascii.ascii_of_nat 13) s with Some (a, EmptyString) => a | _ => s end.
Definition str_lines (s : string) : list string :=
  match rev (split_list NL s) with
  | EmptyString :: l => map strip_cr (rev l)
  | x :: l => map strip_cr (rev l) ++ [x]
  | [] => []
  end.

Definition nameserver (l : string) : option Z := a ← strip_prefix "nameserver " l; parse_ipv4 (trim a).
Definition DEFAULT_RESOLVER : Z := Ipv4Address_new 1 1 1 1.
Definition host_resolver (resolv_conf : option (list Z)) : Z * Z :=
  (default DEFAULT_RESOLVER (b ← resolv_conf; s ← from_utf8 b; List.find (fun ip => negb (is_loopback ip)) (omap nameserver (str_lines s))), 53).

(** ** The queues *)

(** [Bridge], its tokens and what the interface does with them: taking a
    received frame, sending one of a given length. *)
Record Bridge := mkBridge { br_rx : list (list Z); br_tx : list (list Z) }.
Definition MTU : Z := 1500.
Definition receive (d : Bridge) : Bridge * option (list Z) :=
  match br_rx d with [] => (d, None) | f :: l => (mkBridge l (br_tx d), Some f) end.
Definition tx_consume (d : Bridge) (len : nat) (fill : list Z -> list Z) : Bridge := mkBridge (br_rx d) (br_tx d ++ [fill (zeros (Z.of_nat len))]).
Definition push_rx (d : Bridge) (f : list Z) : Bridge := mkBridge (br_rx d ++ [f]) (br_tx d).
Definition pop_tx (d : Bridge) : Bridge * option (list Z) :=
  match br_tx d with [] => (d, None) | f :: l => (mkBridge (br_rx d) l, Some f) end.

(** [now]: microseconds since the start as a signed 64-bit number. *)
Definition instant_now (elapsed_micros : Z) : Z :=
  let x := u64 elapsed_micros in if x <? 2 ^ 63 then x else x - 2 ^ 64.

(** ** A new backend *)

Section New.
Context {S : Type} `{Stack S} `{Wire}.

(** The backend, its resolver, and the listeners with their guest ports. *)
Definition smoltcp_new (s : S) (ports : option string) (bind : list Z -> Z -> bool) (resolv_conf : option (list Z))
    : @SmoltcpBackend S * (Z * Z) * list (Z * Z) :=
  let fw := forwards bind [] (port_maps ports) in
  (SmoltcpBackend_new s (negb (bool_decide (fw = []))), host_resolver resolv_conf, fw).

(** A connection to the host's port [hp]: its listener's thread queues it. *)
Definition host_connects (fw : list (Z * Z)) (hp : Z) (b : @SmoltcpBackend S) : @SmoltcpBackend S :=
  match List.find (fun m => fst m =? hp) fw with
  | Some (_, gp) => listener_accepts b gp
  | None => b
  end.
End New.

(** ** Lemmas *)

(** Texts joined by a separator none of them has. *)
Fixpoint join (c : Ascii.ascii) (l : list string) : string :=
  match l with [] => EmptyString | [a] => a | a :: l' => a +:+ String c (join c l') end.

Lemma split_free c a : free c a = true -> split_list c a = [a].
Proof.
  unfold split_list. induction a as [|x a IH]; [done|]. rewrite free_cons. intros [N F]%andb_true_iff. cbn [split_on].
  apply negb_true_iff in N. rewrite N. apply IH in F. destruct (split_on c a) as [y l]. by injection F as -> ->.
Qed.

Lemma split_join c l : l <> [] -> Forall (fun a => free c a = true) l -> split_list c (join c l) = l.
Proof.
  intros N F. induction F as [|a l Fa F IH]; [done|]. destruct l as [|b l]; [by apply split_free|].
  change (join c (a :: b :: l)) with (a +:+ String c (join c (b :: l))). by rewrite split_list_free, IH.
Qed.

(** *** AMBER_PORTS *)

(** An entry: a mapping, or text that is none. *)
Inductive PortEntry := Mapping (hp gp : Z) | NoMapping (s : string).
Definition entry_text (e : PortEntry) : string :=
  match e with Mapping hp gp => pretty hp +:+ ":" +:+ pretty gp | NoMapping s => s end.
Definition entry_ok (e : PortEntry) : Prop :=
  match e with
  | Mapping hp gp => fits 16 hp /\ fits 16 gp
  | NoMapping s => free (ch ",") s = true /\ s <> EmptyString /\ parse_map s = None
  end.
Definition entry_map (e : PortEntry) : option (Z * Z) := match e with Mapping hp gp => Some (hp, gp) | NoMapping _ => None end.

Lemma contains_free c s : free c s = true -> contains c s = false.
Proof.
  unfold contains. induction s as [|x s IH]; [done|]. rewrite free_cons. intros [N F]%andb_true_iff. cbn [split_once].
  apply negb_true_iff in N. rewrite N. specialize (IH F). by destruct (split_once c s).
Qed.

Lemma entry_facts e : entry_ok e -> free (ch ",") (entry_text e) = true /\ entry_text e <> EmptyString /\ parse_map (entry_text e) = entry_map e.
Proof.
  destruct e as [hp gp|s]; cbn [entry_ok entry_text entry_map]; [|done]. intros [Hh Hg]. split; [|split].
  - rewrite !blank_free_app, !free_pretty by (reflexivity || lia). reflexivity.
  - destruct (pretty_nonneg_shape hp ltac:(lia)) as (c & t & -> & _). by rewrite app_string.
  - unfold parse_map. change (":" +:+ pretty gp) with (String (ch ":") (pretty gp)).
    rewrite split_once_app by (apply contains_free, free_pretty; [reflexivity|lia]). cbn [mbind option_bind].
    unfold parse_u16. rewrite !parse_uint_pretty by done. reflexivity.
Qed.

Lemma port_maps_join (es : list PortEntry) : Forall entry_ok es ->
  port_maps (Some (join (ch ",") (map entry_text es))) = omap entry_map es.
Proof.
  intros F. unfold port_maps. cbn [default from_option id]. destruct es as [|e es]; [reflexivity|].
  rewrite split_join; [|done|apply Forall_map; eapply Forall_impl; [exact F|]; intros x Hx; by apply entry_facts].
  induction F as [|x l Hx _ IH]; [done|]. destruct (entry_facts x Hx) as (_ & N & P). cbn [map List.filter].
  apply String.eqb_neq in N. rewrite N. cbn [negb omap list_omap]. rewrite P. cbn [omap] in IH. by rewrite <- IH.
Qed.

Lemma forwards_all bind maps : forall bound, NoDup (bound ++ map fst maps) ->
  (forall b hp, bind b hp = true <-> ~ In hp b) -> forwards bind bound maps = maps.
Proof.
  induction maps as [|[hp gp] maps IH]; intros bound N B; cbn [forwards]; [done|]. cbn [map fst] in N.
  rewrite (proj2 (B bound hp)).
  - f_equal. apply IH; [|done]. rewrite <- app_assoc. exact N.
  - intros I. rewrite NoDup_app in N. destruct N as (_ & N & _). apply (N hp); [by apply list_elem_of_In|by left].
Qed.

Lemma find_forward (fw : list (Z * Z)) hp gp : NoDup (map fst fw) -> In (hp, gp) fw -> List.find (fun m => fst m =? hp) fw = Some (hp, gp).
Proof.
  induction fw as [|[h g] fw IH]; [done|]. cbn [map fst]. intros [N1 N2]%NoDup_cons [E|I]; cbn [List.find fst].
  - injection E as -> ->. by rewrite Z.eqb_refl.
  - destruct (Z.eqb_spec h hp) as [->|_]; [|by apply IH]. exfalso. apply N1, list_elem_of_In, in_map_iff. by exists (hp, gp).
Qed.

(** *** Addresses *)

Definition octet_text (o : Z) : string := pretty o.
Lemma parse_octet_pretty (o : Z) : 0 <= o < 256 -> parse_octet (pretty o) = Some o.
Proof.
  intros L. assert (C : forallb (fun n => match parse_octet (pretty (Z.of_nat n)) with Some v => v =? Z.of_nat n | None => false end) (seq 0 256) = true)
    by (vm_compute; reflexivity).
  rewrite forallb_forall in C. specialize (C (Z.to_nat o)). rewrite Z2Nat.id in C by lia.
  destruct (parse_octet (pretty o)); [|by discriminate C; apply in_seq; lia]. f_equal. apply Z.eqb_eq, C, in_seq. lia.
Qed.

Definition ipv4_text (a b c d : Z) : string := join (ch ".") [pretty a; pretty b; pretty c; pretty d].
Definition octets (a b c d : Z) : Prop := fits 8 a /\ fits 8 b /\ fits 8 c /\ fits 8 d.

Lemma parse_ipv4_text a b c d : octets a b c d -> parse_ipv4 (ipv4_text a b c d) = Some (Ipv4Address_new a b c d).
Proof.
  intros (A & B & C & D). unfold parse_ipv4, ipv4_text.
  assert (F : Forall (fun s => free (ch ".") s = true) [pretty a; pretty b; pretty c; pretty d]).
  { repeat (apply Forall_cons; split); [..|apply Forall_nil; done]; apply free_pretty; (reflexivity || lia). }
  rewrite split_join by done.
  by rewrite !parse_octet_pretty by lia.
Qed.

(** *** resolv.conf *)

(** A line: a name server with white space around its address, or text that
    names none; both without newlines. *)
Inductive ConfLine := Server (a b c d : Z) (pre post : list string) | OtherLine (s : string).
Definition conf_text (l : ConfLine) : string :=
  match l with
  | Server a b c d pre post => "nameserver " +:+ concat_str pre +:+ ipv4_text a b c d +:+ concat_str post
  | OtherLine s => s
  end.
Definition conf_server (l : ConfLine) : option Z :=
  match l with Server a b c d _ _ => Some (Ipv4Address_new a b c d) | OtherLine _ => None end.
(** No line break in a line's text: newlines end lines, and a line may not end
    in a carriage return. *)
Definition conf_ok (l : ConfLine) : Prop :=
  free NL (conf_text l) = true /\ free (Ascii.ascii_of_nat 13) (conf_text l) = true /\
  match l with
  | Server a b c d pre post => octets a b c d /\ Forall (fun w => w ∈ white) pre /\ Forall (fun w => w ∈ white) post
  | OtherLine s => nameserver s = None
  end.

Lemma conf_nameserver l : conf_ok l -> nameserver (conf_text l) = conf_server l.
Proof.
  destruct l as [a b c d pre post|s]; cbn [conf_text conf_server conf_ok]; [|by intros (_ & _ & N)].
  intros (_ & _ & O & Fp & Fq). unfold nameserver. rewrite strip_prefix_app. cbn [mbind option_bind].
  destruct O as (A & B & C & D).
  assert (T : trim (concat_str pre +:+ ipv4_text a b c d +:+ concat_str post) = ipv4_text a b c d).
  { apply (trim_solid pre post (fun x => numeral x || Ascii.eqb x (ch "."))); try done.
    - intros x. destruct x as [[] [] [] [] [] [] [] []]; vm_compute; done.
    - assert (N : forall n, 0 <= n -> all_chars (fun x => numeral x || Ascii.eqb x (ch ".")) (pretty n) = true).
      { intros n L. destruct (pretty_nonneg_shape n L) as (_ & _ & _ & P). induction (pretty n) as [|x s IH]; [done|].
        cbn [all_chars] in *. apply andb_true_iff in P as [-> P]. by rewrite IH. }
      unfold ipv4_text. cbn [join]. rewrite !all_chars_app. cbn [all_chars]. rewrite !all_chars_app. cbn [all_chars]. rewrite !all_chars_app. cbn [all_chars].
      rewrite !N by lia. reflexivity.
    - unfold ipv4_text. cbn [join]. destruct (pretty_nonneg_shape a ltac:(lia)) as (x & s & -> & _). by rewrite app_string. }
  rewrite T. by apply parse_ipv4_text.
Qed.

Lemma strip_cr_free s : free (Ascii.ascii_of_nat 13) s = true -> strip_cr s = s.
Proof. intros F. unfold strip_cr. by rewrite rsplit_once_none by by apply contains_free. Qed.

Lemma str_lines_join (ls : list string) : Forall (fun s => free NL s = true /\ free (Ascii.ascii_of_nat 13) s = true) ls ->
  str_lines (join NL (ls ++ [EmptyString])) = ls.
Proof.
  intros F. unfold str_lines. rewrite split_join.
  - rewrite rev_app_distr. cbn [rev app]. rewrite rev_involutive. induction F as [|s l [_ C] _ IH]; [done|].
    cbn [map]. by rewrite strip_cr_free, IH.
  - by destruct ls.
  - apply Forall_app. split; [|by repeat constructor]. eapply Forall_impl; [exact F|]. by intros s [N _].
Qed.

(** *** The queues *)

(** What the interface may do with the device in one poll. *)
Inductive dev_step : Bridge -> Bridge -> Prop :=
| ds_receive d : dev_step d (fst (receive d))
| ds_send d len fill : dev_step d (tx_consume d len fill).

(** ** Properties *)

(** AMBER_PORTS: of a list of entries, the mappings of two 16-bit numbers
    are taken in order and any other text between commas is skipped; where
    every port is free and named once, each connection to a mapped port of the
    host is queued for its guest port, which the backend then dials from a
    port of its own range, and one to any other port is not there. *)
Theorem ports_forwarded {S : Type} (s : S) (es : list PortEntry) (bind : list Z -> Z -> bool)
    (conf : option (list Z)) (b : @SmoltcpBackend S) :
  let maps := omap entry_map es in
  let '(b0, _, fw) := smoltcp_new s (Some (join (ch ",") (map entry_text es))) bind conf in
  Forall entry_ok es -> NoDup (map fst maps) -> (forall bound hp, bind bound hp = true <-> ~ In hp bound) ->
  fw = maps /\ has_listeners b0 = negb (bool_decide (maps = []))
  /\ (forall hp gp, In (hp, gp) maps -> accepted (host_connects fw hp b) = accepted b ++ [gp])
  /\ (forall hp, ~ In hp (map fst maps) -> host_connects fw hp b = b).
Proof.
  intros maps. cbn. intros F N B. rewrite port_maps_join by done. fold maps. rewrite forwards_all by done.
  split; [done|]. split; [done|]. split.
  - intros hp gp I. unfold host_connects. by rewrite (find_forward maps hp gp N I).
  - intros hp I. unfold host_connects. destruct (List.find _ maps) as [[h g]|] eqn:E; [|done]. exfalso. apply I.
    apply List.find_some in E as [E1 E2]. apply Z.eqb_eq in E2. cbn in E2. subst h. apply in_map_iff. by exists (hp, g).
Qed.

(** the resolver is never a loopback address of the host, whatever
    /etc/resolv.conf holds, and always port 53. *)
Theorem resolver_usable (conf : option (list Z)) :
  let '(ip, port) := host_resolver conf in is_loopback ip = false /\ port = 53.
Proof.
  unfold host_resolver. split; [|done]. destruct conf as [bs|]; [|reflexivity]. cbn [mbind option_bind].
  destruct (from_utf8 bs) as [s|]; [|reflexivity]. cbn [mbind option_bind].
  destruct (List.find _ _) as [ip|] eqn:E; [|reflexivity]. apply List.find_some in E as [_ E]. by apply negb_true_iff in E.
Qed.

(** the resolver is the file's first name server that is not loopback,
    however many other lines and whatever white space there is, else 1.1.1.1. *)
Theorem resolver_first (ls : list ConfLine) (bytes : list Z) :
  Forall conf_ok ls -> from_utf8 bytes = Some (join NL (map conf_text ls ++ [EmptyString])) ->
  host_resolver (Some bytes)
  = (default DEFAULT_RESOLVER (List.find (fun ip => negb (is_loopback ip)) (omap conf_server ls)), 53).
Proof.
  intros F U. unfold host_resolver. cbn [mbind option_bind]. rewrite U. cbn [mbind option_bind].
  rewrite str_lines_join by (apply Forall_map; eapply Forall_impl; [exact F|]; intros l (N & C & _); by split).
  assert (E : omap nameserver (map conf_text ls) = omap conf_server ls); [|by rewrite E].
  clear U. induction F as [|l ls Hl _ IH]; [done|]. cbn [map omap list_omap]. rewrite conf_nameserver by done. cbn [omap] in IH. by rewrite <- IH.
Qed.

(** the frame queues, under any activity of the interface: received frames
    leave in order, each at most once, and what is sent is queued behind what
    waits. *)
Theorem bridge_fifo (d d' : Bridge) : rtc dev_step d d' ->
  exists taken sent, br_rx d = taken ++ br_rx d' /\ br_tx d' = br_tx d ++ sent.
Proof.
  induction 1 as [d|d d1 d2 St _ (t & u & E1 & E2)]; [exists [], []; by rewrite app_nil_r|].
  destruct St as [d|d len fill].
  - unfold receive in *. destruct (br_rx d) as [|f l] eqn:E; cbn [fst br_rx br_tx] in *; [exists t, u; by rewrite <- E|].
    exists (f :: t), u. cbn [app]. by rewrite <- E1.
  - cbn [tx_consume br_rx br_tx] in *. exists t. eexists. split; [done|]. by rewrite E2, <- app_assoc.
Qed.

(** ** Witnesses *)

Definition once (bound : list Z) (hp : Z) : bool := negb (existsb (Z.eqb hp) bound).
Lemma once_free bound hp : once bound hp = true <-> ~ In hp bound.
Proof.
  unfold once. rewrite negb_true_iff, <- not_true_iff_false, existsb_exists. split; intros N.
  - intros I. apply N. exists hp. by rewrite Z.eqb_refl.
  - intros (x & I & E). apply Z.eqb_eq in E. by subst x.
Qed.

Lemma ports_forwarded_witness :
  accepted (host_connects [(8080, 80); (2222, 22)] 2222 (SmoltcpBackend_new tt true)) = [22].
Proof.
  destruct (ports_forwarded tt [Mapping 8080 80; NoMapping "web"; Mapping 2222 22] once None (SmoltcpBackend_new tt true)) as (E & _ & A & _).
  - repeat (apply Forall_cons; split); [..|by apply Forall_nil]; cbn; (lia || done).
  - by apply (bool_decide_unpack _).
  - apply once_free.
  - specialize (A 2222 22). rewrite E in A. apply A. right. by left.
Defined.

Lemma resolver_first_witness :
  host_resolver (Some (str_bytes (join NL ["# dns"; "nameserver 127.0.0.53"; "nameserver 10.1.2.3 "; EmptyString])))
  = (Ipv4Address_new 10 1 2 3, 53).
Proof.
  apply (resolver_first [OtherLine "# dns"; Server 127 0 0 53 [] []; Server 10 1 2 3 [] [" "]]); [|reflexivity].
  assert (Sp : " " ∈ white) by (unfold white; repeat (left || right)).
  repeat (apply Forall_cons; split); [..|by apply Forall_nil]; cbn; repeat split; try done; try lia; repeat constructor; done.
Defined.
