(* ===== verification/Limiter.v ===== *)
(** * Limiter: token buckets (crates/amber-core/src/limiter.rs)

    A bucket computes in [f64] seconds and bytes; instants and durations are
    nanoseconds. The clock's readings are arguments. [Clocked] makes a bucket
    with the readings it will get the rate limiter of [Devices] and [Net].

    [bucket_invariant]: what a bucket always holds; [debit_answers]: no panic;
    [rate_conforms]: the bytes let through against the rate; [debt_forgotten],
    [batch_pays_last] and [oversized_frame_stalls]: what the code does not
    mean to do. *)

From Stdlib Require Import QArith Qabs Qround Lqa SpecFloat.
From S2P Require Import Prelude Float64 Memory Virtqueue VirtioMmio Devices Net Registry Text.
#[local] Open Scope Z_scope.

(** ** Durations and instants *)

Definition NANOS : Z := 1000000000.
(** [Duration::as_secs_f64]. *)
Definition as_secs_f64 (d : Z) : f64 := fadd (of_Z (d / NANOS)) (fdiv (of_Z (d mod NANOS)) (of_Z NANOS)).
(** [n / 2^k] to the nearest, ties to even. *)
Definition round_shift (n k : Z) : Z :=
  let q := n / 2 ^ k in
  let r := n mod 2 ^ k in
  match 2 * r ?= 2 ^ k with Lt => q | Gt => q + 1 | Eq => if Z.even q then q else q + 1 end.
(** [Duration::from_secs_f64]; it panics below zero and from 2^64 seconds on. *)
Definition from_secs_f64 (x : f64) : option Z :=
  match x with
  | S754_zero _ => Some 0
  | S754_finite false m e =>
      let n := if 0 <=? e then Zpos m * NANOS * 2 ^ e else round_shift (Zpos m * NANOS) (- e) in
      if n <? 2 ^ 64 * NANOS then Some n else None
  | _ => None
  end.
(** [Instant + Duration]: seconds are 63 bits. *)
Definition instant_add (t d : Z) : option Z := if t + d <? 2 ^ 63 * NANOS then Some (t + d) else None.

(** ** Buckets *)

Record TokenBucket := mkBucket { tb_rate : f64; tb_tokens : f64; tb_last : Z }.

Definition new (bytes_per_sec now : Z) : TokenBucket :=
  let rate := of_Z (Z.max bytes_per_sec 1) in mkBucket rate rate now.

(** The suffix and what is before it. *)
Definition suffix (v : string) : option (string * Z) :=
  match String.rev v with
  | EmptyString => None
  | String c r =>
      let num := String.rev r in
      if Ascii.eqb (lower c) (ch "k") then Some (num, 2 ^ 10)
      else if Ascii.eqb (lower c) (ch "m") then Some (num, 2 ^ 20)
      else if Ascii.eqb (lower c) (ch "g") then Some (num, 2 ^ 30)
      else Some (v, 1)
  end.
(** [from_env] of the variable's value. *)
Definition from_env (v : option string) (now : Z) : option TokenBucket :=
  v ← v; '(num, mult) ← suffix (trim v); n ← parse_u64 num;
  if 0 <? n then Some (new (Z.min (n * mult) (2 ^ 64 - 1)) now) else None.

Definition refill (b : TokenBucket) (now : Z) : TokenBucket :=
  let dt := as_secs_f64 (Z.max 0 (now - tb_last b)) in
  mkBucket (tb_rate b) (fmin (fadd (tb_tokens b) (fmul dt (tb_rate b))) (tb_rate b)) now.

Definition bucket_take (b : TokenBucket) (now bytes : Z) : TokenBucket * bool :=
  let b := refill b now in
  if fle (of_Z bytes) (tb_tokens b) then (mkBucket (tb_rate b) (fsub (tb_tokens b) (of_Z bytes)) (tb_last b), true)
  else (b, false).

(** The clock is read at [now], and again at [now'] for a debt; [None] is a
    panic. *)
Definition bucket_debit (b : TokenBucket) (now now' bytes : Z) : option (TokenBucket * option Z) :=
  let b := refill b now in
  let tokens := fsub (tb_tokens b) (of_Z bytes) in
  if flt tokens (S754_zero false) then
    wait ← from_secs_f64 (fdiv (fneg tokens) (tb_rate b));
    last ← instant_add now' wait;
    Some (mkBucket (tb_rate b) (S754_zero false) last, Some wait)
  else Some (mkBucket (tb_rate b) tokens (tb_last b), None).

(** [throttle]: the bucket and how long it sleeps. *)
Definition throttle (b : TokenBucket) (now now' bytes : Z) : option (TokenBucket * Z) :=
  '(b, w) ← bucket_debit b now now' bytes; Some (b, default 0 w).

(** A bucket and the readings of the clock to come, the last one repeated. *)
Record Clocked := mkClocked { clock : list Z; bucket : TokenBucket }.
Definition tick (c : list Z) : Z * list Z := match c with [] => (0, []) | [t] => (t, [t]) | t :: c' => (t, c') end.
#[export] Instance Clocked_limiter : RateLimiter Clocked := {|
  debit c n :=
    let '(now, k) := tick (clock c) in
    let '(now', k') := tick k in
    match bucket_debit (bucket c) now now' n with
    | Some (b, Some w) => (mkClocked k' b, Some w)
    | Some (b, None) => (mkClocked k b, None)
    | None => (c, None)
    end;
  try_take c n :=
    let '(now, k) := tick (clock c) in
    let '(b, ok) := bucket_take (bucket c) now n in (mkClocked k b, ok)
|}.

Example debit_example : snd <$> bucket_debit (new 1000 0) 0 0 3000 = Some (Some (2 * NANOS)).
Proof. vm_compute. reflexivity. Qed.
Example env_example : tb_rate <$> from_env (Some " 50M ") 7 = Some (of_Z 52428800).
Proof. vm_compute. reflexivity. Qed.

(** ** Rounding, in rationals *)

Abbreviation Qn n := (inject_Z n).
(** One unit in the last place. *)
Abbreviation u := (1 # 4503599627370496).

Lemma eta_small : (0 < eta)%Q /\ (eta <= 1 # 1000000000000000000000000000000)%Q.
Proof. split; [reflexivity|vm_compute; discriminate]. Qed.

Lemma small_enough x : (x <= Qn (2 ^ 200))%Q -> (x < pow2 1023)%Q.
Proof. intros L. apply (Qle_lt_trans _ _ _ L). reflexivity. Qed.

(** What rounding a positive number gives, and a negative one. *)
Lemma rounds_up r x : rounds r x -> (0 <= x)%Q ->
  (0 <= val r /\ val r <= x * (1 + 2 * u) + 2 * eta /\ x <= val r * (1 + u) + eta)%Q.
Proof.
  intros (_ & B & P & _) X. specialize (P X). rewrite (Qabs_pos (val r)) in B by done. apply Qabs_Qle_condition in B as [B1 B2].
  unfold ulp1 in B1, B2. change (pow2 (-52)) with u in B1, B2. pose proof (eta_small). split; [done|]. split; lra.
Qed.
Lemma rounds_down r x : rounds r x -> (x <= 0)%Q -> (val r <= 0 /\ - x <= - val r * (1 + u) + eta /\ - val r <= - x * (1 + 2 * u) + 2 * eta)%Q.
Proof.
  intros (_ & B & _ & P) X. specialize (P X). rewrite (Qabs_neg (val r)) in B by done. apply Qabs_Qle_condition in B as [B1 B2].
  unfold ulp1 in B1, B2. change (pow2 (-52)) with u in B1, B2. pose proof (eta_small). split; [done|]. split; lra.
Qed.

(** What the operations make of numbers of ordinary size. *)
Abbreviation ordinary x := (0 <= x /\ x <= Qn (2 ^ 130))%Q.

Lemma small_abs x y : (y <= x)%Q -> (- y <= x)%Q -> (x <= Qn (2 ^ 200))%Q -> (Qabs y < pow2 1023)%Q.
Proof. intros A B C. apply small_enough, (Qle_trans _ x); [|done]. apply Qabs_Qle_condition. lra. Qed.

Lemma whole_rounds n : 0 <= n <= 2 ^ 64 -> rounds (of_Z n) (Qn n).
Proof. intros B. apply of_Z_rounds. lia. Qed.

Lemma inject_nonneg n : 0 <= n -> (0 <= Qn n)%Q.
Proof. intros L. by apply (inject_le 0). Qed.

Lemma nanos_exact : number (of_Z NANOS) /\ val (of_Z NANOS) == Qn NANOS.
Proof. by apply of_Z_exact. Qed.

Abbreviation secs d := (Qn d / Qn NANOS)%Q.

(** A duration in seconds, to a few units in the last place. *)
Lemma as_secs_bounds d : 0 <= d < 2 ^ 64 * NANOS -> number (as_secs_f64 d) /\ (0 <= val (as_secs_f64 d))%Q
  /\ (val (as_secs_f64 d) <= secs d * (1 + 6 * u) + 8 * eta)%Q /\ (d = 0 -> val (as_secs_f64 d) == 0).
Proof.
  intros B. destruct eta_small as [Ep Es]. destruct nanos_exact as [Nn Vn].
  pose proof (Z.div_mod d NANOS) as Dm. pose proof (Z.mod_pos_bound d NANOS eq_refl) as Mb.
  assert (S0 : 0 <= d / NANOS <= 2 ^ 64) by (unfold NANOS in *; split; [apply Z.div_pos|apply Z.div_le_upper_bound]; lia).
  pose proof (whole_rounds _ S0) as Rs. destruct (of_Z_exact (d mod NANOS)) as [Nm Vm]; [unfold NANOS in *; lia|].
  destruct (rounds_up _ _ Rs) as (P1 & U1 & _); [apply inject_nonneg; lia|].
  assert (Qm : (0 <= secs (d mod NANOS) /\ secs (d mod NANOS) <= 1)%Q).
  { split; [apply Qle_shift_div_l|apply Qle_shift_div_r]; try reflexivity; rewrite ?Qmult_0_l, ?Qmult_1_l.
    - apply inject_nonneg. lia.
    - apply inject_le. lia. }
  assert (Rd : rounds (fdiv (of_Z (d mod NANOS)) (of_Z NANOS)) (secs (d mod NANOS))).
  { rewrite <- Vm, <- Vn. apply fdiv_rounds; [done|done|rewrite Vn; discriminate|]. rewrite Vm, Vn. apply (small_abs 1); [lra|lra|].
    vm_compute. discriminate. }
  destruct (rounds_up _ _ Rd) as (P2 & U2 & _); [apply Qm|].
  assert (Sd : secs d == Qn (d / NANOS) + secs (d mod NANOS)).
  { rewrite Dm at 1 by done. rewrite inject_Z_plus, inject_Z_mult. field. discriminate. }
  assert (Big : (Qn (d / NANOS) <= Qn (2 ^ 64))%Q) by (apply inject_le; lia). change (Qn (2 ^ 64)) with (18446744073709551616 # 1)%Q in Big.
  assert (Ra : rounds (as_secs_f64 d) (val (of_Z (d / NANOS)) + val (fdiv (of_Z (d mod NANOS)) (of_Z NANOS)))).
  { apply fadd_rounds; [apply Rs|apply Rd|]. apply (small_abs (Qn (2 ^ 70))); [| |vm_compute; discriminate];
      change (Qn (2 ^ 70)) with (1180591620717411303424 # 1)%Q; lra. }
  destruct (rounds_up _ _ Ra) as (P3 & U3 & _); [lra|]. split; [apply Ra|]. split; [done|]. split; [|intros ->; reflexivity].
  rewrite Sd. lra.
Qed.

(** ** What a bucket holds *)

Definition bucket_ok (b : TokenBucket) : Prop :=
  number (tb_rate b) /\ (1 <= val (tb_rate b) <= Qn (2 ^ 65))%Q
  /\ number (tb_tokens b) /\ (0 <= val (tb_tokens b) <= val (tb_rate b))%Q.
Abbreviation instant_ok t := (0 <= t < 2 ^ 62 * NANOS).

Lemma rate_bounds n : 1 <= n <= 2 ^ 64 -> number (of_Z n) /\ (1 <= val (of_Z n) <= Qn (2 ^ 65))%Q.
Proof.
  intros B. destruct (whole_rounds n) as (N & R); [lia|]. split; [exact N|]. destruct (Z.le_gt_cases (2 ^ 53) n) as [L|L].
  - destruct (rounds_up _ _ (conj N R)) as (_ & U & D); [apply inject_nonneg; lia|]. destruct eta_small.
    assert (G : (Qn (2 ^ 53) <= Qn n)%Q) by (by apply inject_le). assert (G' : (Qn n <= Qn (2 ^ 64))%Q) by (apply inject_le; lia).
    change (Qn (2 ^ 53)) with (9007199254740992 # 1)%Q in G. change (Qn (2 ^ 64)) with (18446744073709551616 # 1)%Q in G'.
    change (Qn (2 ^ 65)) with (36893488147419103232 # 1)%Q. split; lra.
  - destruct (of_Z_exact n) as [_ V]; [lia|]. rewrite V. split; [apply (inject_le 1)|apply inject_le]; lia.
Qed.

Lemma new_ok n now : 0 <= n < 2 ^ 64 -> bucket_ok (new n now).
Proof. intros B. destruct (rate_bounds (Z.max n 1)) as [N R]; [lia|]. repeat (split; [done || lra|]). cbn. lra. Qed.

(** The bytes that time adds: none in excess of the rate and of the burst. *)
Lemma refill_ok b now : bucket_ok b -> 0 <= now - tb_last b < 2 ^ 63 * NANOS \/ now <= tb_last b ->
  bucket_ok (refill b now)
  /\ (val (tb_tokens (refill b now)) <= val (tb_tokens b) + secs (Z.max 0 (now - tb_last b)) * val (tb_rate b) * (1 + 16 * u)
       + (1 # 1000000000000) * val (tb_rate b))%Q
  /\ (now <= tb_last b -> val (tb_tokens (refill b now)) == val (tb_tokens b)).
Proof.
  intros (Nr & [R1 R2] & Nt & [T0 T1]) Bn. set (d := Z.max 0 (now - tb_last b)). assert (Bd : 0 <= d < 2 ^ 63 * NANOS) by (unfold NANOS in *; lia).
  destruct eta_small as [Ep Es]. destruct (as_secs_bounds d) as (Nd & D0 & Du & Dz); [unfold NANOS in *; lia|].
  set (t := val (tb_tokens b)) in *. set (r := val (tb_rate b)) in *. set (x := val (as_secs_f64 d)) in *.
  change (Qn (2 ^ 65)) with (36893488147419103232 # 1)%Q in R2.
  assert (S2 : (0 <= secs d /\ secs d <= 9223372036854775808 # 1)%Q).
  { split; [apply Qle_shift_div_l|apply Qle_shift_div_r]; try reflexivity; [rewrite Qmult_0_l; apply inject_nonneg; lia|].
    change (9223372036854775808 # 1)%Q with (Qn (2 ^ 63)). rewrite <- inject_Z_mult. apply inject_le. lia. }
  assert (X1 : (x <= 9223372036854800000 # 1)%Q) by lra.
  assert (Xr0 : (0 <= x * r)%Q) by (apply Qmult_le_0_compat; lra).
  assert (Xr1 : (x * r <= (9223372036854800000 # 1) * (36893488147419103232 # 1))%Q) by (apply Qmult_le_compat_nonneg; lra).
  assert (Xr2 : (x * r <= (secs d * (1 + 6 * u) + 8 * eta) * r)%Q) by (apply Qmult_le_compat_r; lra).
  assert (Er : (0 <= eta * r <= (1 # 1000000000000000000000000000000) * r)%Q) by (split; [apply Qmult_le_0_compat|apply Qmult_le_compat_r]; lra).
  assert (Sr : (0 <= secs d * r)%Q) by (apply Qmult_le_0_compat; lra).
  assert (Rm : rounds (fmul (as_secs_f64 d) (tb_rate b)) (x * r)).
  { apply fmul_rounds; [done|done|]. fold x r. apply (small_abs ((9223372036854800000 # 1) * (36893488147419103232 # 1))); [exact Xr1|lra|vm_compute; discriminate]. }
  destruct (rounds_up _ _ Rm Xr0) as (M0 & M1 & _). set (m := val (fmul (as_secs_f64 d) (tb_rate b))) in *.
  assert (Ra : rounds (fadd (tb_tokens b) (fmul (as_secs_f64 d) (tb_rate b))) (t + m)).
  { apply fadd_rounds; [done|apply Rm|]. apply (small_abs (Qn (2 ^ 140))); [| |vm_compute; discriminate]; fold m t;
      change (Qn (2 ^ 140)) with (1393796574908163946345982392040522594123776 # 1)%Q; lra. }
  destruct (rounds_up _ _ Ra) as (A0 & A1 & _); [lra|]. set (a := val (fadd (tb_tokens b) (fmul (as_secs_f64 d) (tb_rate b)))) in *.
  destruct (fmin_spec (fadd (tb_tokens b) (fmul (as_secs_f64 d) (tb_rate b))) (tb_rate b)) as (Nf & Fa & Fr & Fe); [apply Ra|done|].
  fold a r in Fa, Fr, Fe. split; [|split].
  - split; [done|]. split; [split; [done|]; change (Qn (2 ^ 65)) with (36893488147419103232 # 1)%Q; done|]. split; [exact Nf|].
    cbn [refill tb_tokens tb_rate]. fold d r. split; [|exact Fr]. destruct Fe as [-> | ->]; lra.
  - cbn [refill tb_tokens]. fold d r t. lra.
  - intros L. assert (d = 0) by lia. specialize (Dz H). cbn [refill tb_tokens]. fold d t.
    assert (Zr : fmul (as_secs_f64 d) (tb_rate b) = S754_zero false).
    { rewrite H. unfold r in R1. clear - Nr R1. destruct (tb_rate b) as [s|s| |[|] p e]; try done.
      - exfalso. cbn [val] in R1. rewrite unit_mul in R1. cbn [unit_] in R1. change (Qn (-1)) with (-(1))%Q in R1.
        pose proof (inject_pow2_nonneg (Zpos p) e ltac:(lia)). lra. }
    assert (Ea : fadd (tb_tokens b) (S754_zero false) = tb_tokens b \/ val (tb_tokens b) == 0 /\ val (fadd (tb_tokens b) (S754_zero false)) == 0).
    { destruct (tb_tokens b) as [[]|s| |s p e]; try done; [right; split; reflexivity|right; split; reflexivity|by left]. }
    assert (Va : a == t) by (unfold a, t; rewrite Zr; destruct Ea as [-> | [V1 V2]]; [reflexivity|by rewrite V1, V2]).
    destruct Fe as [E | E]; lra.
Qed.

(** ** Spending *)

Abbreviation transfer n := (0 <= n < 2 ^ 53).

(** What is left after [n] bytes: between the rate and the debt. *)
Lemma spend b n : bucket_ok b -> transfer n -> rounds (fsub (tb_tokens b) (of_Z n)) (val (tb_tokens b) - Qn n)
  /\ (val (fsub (tb_tokens b) (of_Z n)) <= val (tb_rate b))%Q.
Proof.
  intros (Nr & [R1 R2] & Nt & [T0 T1]) B. destruct (of_Z_exact n) as [Nn Vn]; [lia|].
  assert (P : (0 <= Qn n)%Q) by (apply inject_nonneg; lia). assert (U : (Qn n <= Qn (2 ^ 53))%Q) by (apply inject_le; lia).
  change (Qn (2 ^ 53)) with (9007199254740992 # 1)%Q in U. change (Qn (2 ^ 65)) with (36893488147419103232 # 1)%Q in R2.
  assert (Rs : rounds (fsub (tb_tokens b) (of_Z n)) (val (tb_tokens b) - Qn n)).
  { rewrite <- Vn. apply fsub_rounds; [done|done|]. rewrite Vn. apply (small_abs (36893488147419103232 # 1)); [lra|lra|vm_compute; discriminate]. }
  split; [exact Rs|]. destruct (Qlt_le_dec (val (tb_tokens b) - Qn n) 0) as [L|L].
  - destruct (rounds_down _ _ Rs) as (V & _); [lra|]. lra.
  - rewrite fsub_neg. apply fadd_below; [done|by apply number_neg|done| |]; rewrite val_neg, Vn; lra.
Qed.

Lemma take_ok r n b' ok : bucket_ok r -> transfer n ->
  (if fle (of_Z n) (tb_tokens r) then (mkBucket (tb_rate r) (fsub (tb_tokens r) (of_Z n)) (tb_last r), true) else (r, false)) = (b', ok) ->
  bucket_ok b' /\ tb_last b' = tb_last r /\ tb_rate b' = tb_rate r
  /\ ((if ok then Qn n else 0) + val (tb_tokens b') <= val (tb_tokens r) + (1 # 1000000000000) * val (tb_rate r))%Q
  /\ (ok = true <-> Qn n <= val (tb_tokens r))%Q.
Proof.
  intros Okr Bt. pose proof Okr as (Nr & [R1 R2] & Nt & [T0 T1]).
  destruct (of_Z_exact n) as [Nn Vn]; [lia|]. destruct (spend r n Okr Bt) as [Rs Ub].
  pose proof (fle_val (of_Z n) (tb_tokens r) Nn Nt) as F. rewrite Vn in F. destruct (fle _ _) eqn:Fe.
  - assert (L : (Qn n <= val (tb_tokens r))%Q) by (by apply F). intros [= <- <-].
    destruct (rounds_up _ _ Rs) as (P & U & _); [lra|]. destruct eta_small as [Ep Es]. cbn [tb_tokens tb_rate tb_last].
    assert (N0 : (0 <= Qn n)%Q) by (apply inject_nonneg; lia).
    split; [|split; [done|split; [done|split; [lra|done]]]].
    split; [done|]. split; [done|]. cbn [tb_tokens]. split; [apply Rs|exact (conj P Ub)].
  - intros [= <- <-]. split; [exact Okr|]. split; [done|]. split; [done|].
    split; [lra|]. split; [done|]. intros L. by apply F in L.
Qed.

Abbreviation clock_ok b now := (0 <= now - tb_last b < 2 ^ 63 * NANOS \/ now <= tb_last b).

Lemma bucket_take_ok b now n b' ok : bucket_ok b -> clock_ok b now -> transfer n -> bucket_take b now n = (b', ok) ->
  bucket_ok b' /\ tb_last b' = now /\ tb_rate b' = tb_rate b
  /\ ((if ok then Qn n else 0) + val (tb_tokens b') <= val (tb_tokens (refill b now)) + (1 # 1000000000000) * val (tb_rate b))%Q
  /\ (ok = true <-> Qn n <= val (tb_tokens (refill b now)))%Q.
Proof. intros Ok Bn Bt E. destruct (refill_ok b now Ok Bn) as (Okr & _). exact (take_ok (refill b now) n b' ok Okr Bt E). Qed.

(** *** Waiting *)

Lemma round_shift_near n k : 0 <= n -> 0 < k -> 2 * n <= 2 * 2 ^ k * round_shift n k + 2 ^ k /\ 2 * 2 ^ k * round_shift n k <= 2 * n + 2 ^ k
  /\ 0 <= round_shift n k.
Proof.
  intros N K. pose proof (Z.pow_pos_nonneg 2 k eq_refl ltac:(lia)) as P. unfold round_shift.
  pose proof (Z.div_mod n (2 ^ k) ltac:(lia)) as D. pose proof (Z.mod_pos_bound n (2 ^ k) P) as Mb. assert (Q0 : 0 <= n / 2 ^ k) by (apply Z.div_pos; lia).
  destruct (Z.compare_spec (2 * (n mod 2 ^ k)) (2 ^ k)); [destruct (Z.even _)|..]; nia.
Qed.

Lemma from_secs_spec x : number x -> (0 <= val x)%Q -> (val x <= Qn (2 ^ 60))%Q ->
  exists w, from_secs_f64 x = Some w /\ 0 <= w <= 2 ^ 61 * NANOS /\ (val x * Qn NANOS <= Qn w + (1 # 2))%Q.
Proof.
  intros N P L. destruct x as [s|s| |[|] m e]; try done.
  - exists 0. split; [done|]. split; [unfold NANOS; lia|]. vm_compute. discriminate.
  - exfalso. cbn [val] in P. rewrite unit_mul in P. cbn [unit_] in P. change (inject_Z (-1)) with (-(1))%Q in P.
    assert (0 < inject_Z (Zpos m) * pow2 e)%Q by (apply Qmult_lt_0_compat; [by rewrite <- (Zlt_Qlt 0)|apply pow2_pos]). lra.
  - cbn [from_secs_f64]. set (n := if 0 <=? e then _ else _). cbn [val unit_] in P, L |- *. rewrite Z.mul_1_l in P, L |- *.
    assert (Lz : (inject_Z (Zpos m) * pow2 e * Qn NANOS <= Qn (2 ^ 60 * NANOS))%Q).
    { rewrite (inject_Z_mult (2 ^ 60)). apply Qmult_le_compat_r; [exact L|]. vm_compute. discriminate. }
    assert (S : 0 <= n /\ (inject_Z (Zpos m) * pow2 e * Qn NANOS <= Qn n + (1 # 2))%Q
      /\ (Qn n <= inject_Z (Zpos m) * pow2 e * Qn NANOS + (1 # 2))%Q).
    { unfold n. destruct (Z.leb_spec 0 e) as [E0|E0].
      - assert (Ev : Qn (Zpos m * NANOS * 2 ^ e) == inject_Z (Zpos m) * pow2 e * Qn NANOS) by (rewrite !inject_Z_mult, <- pow2_Z by done; ring).
        rewrite Ev. split; [pose proof (Z.pow_nonneg 2 e); unfold NANOS; lia|]. split; lra.
      - destruct (round_shift_near (Zpos m * NANOS) (- e)) as (Lo & Hi & Nn); [unfold NANOS; lia|lia|]. split; [done|].
        set (w := round_shift (Zpos m * NANOS) (- e)) in *. assert (P2 : (0 < Qn (2 ^ (- e)))%Q) by (rewrite <- (Zlt_Qlt 0); apply Z.pow_pos_nonneg; lia).
        assert (Ev : inject_Z (Zpos m) * pow2 e * Qn NANOS * Qn (2 ^ (- e)) == Qn (Zpos m * NANOS)).
        { assert (Ep : pow2 e * Qn (2 ^ (- e)) == 1).
          { rewrite <- pow2_Z, <- pow2_add by lia. replace (e + - e) with 0 by lia. reflexivity. }
          rewrite inject_Z_mult. transitivity (inject_Z (Zpos m) * Qn NANOS * (pow2 e * Qn (2 ^ (- e))))%Q; [ring|]. rewrite Ep. ring. }
        set (v := (inject_Z (Zpos m) * pow2 e * Qn NANOS)%Q) in *. apply inject_le in Lo, Hi.
        rewrite !inject_Z_plus, !inject_Z_mult in Lo, Hi. rewrite inject_Z_mult in Ev. change (Qn 2) with 2%Q in Lo, Hi.
        rewrite <- Ev in Lo, Hi. split.
        + apply (Qmult_le_r _ _ _ P2). lra.
        + apply (Qmult_le_r _ _ _ P2). lra. }
    destruct S as (S0 & S1 & S2). assert (Ub : n < 2 ^ 60 * NANOS + 1).
    { rewrite Zlt_Qlt, inject_Z_plus. change (Qn 1) with 1%Q. lra. }
    exists n. rewrite (proj2 (Z.ltb_lt _ _)) by (unfold NANOS in *; lia). split; [done|]. split; [unfold NANOS in *; lia|exact S1].
Qed.

(** A debt is what the wait pays, up to the last place and a nanosecond. *)
Lemma wait_pays r n : bucket_ok r -> transfer n -> let t := fsub (tb_tokens r) (of_Z n) in (val t < 0)%Q ->
  exists w, from_secs_f64 (fdiv (fneg t) (tb_rate r)) = Some w /\ 0 <= w <= 2 ^ 61 * NANOS
  /\ (Qn n <= val (tb_tokens r) + secs w * val (tb_rate r) * (1 + 16 * u) + (1 # 1000000000) * val (tb_rate r))%Q.
Proof.
  intros Okr Bt t Neg. destruct (spend r n Okr Bt) as [Rs _]. fold t in Rs. destruct Okr as (Nr & [R1 R2] & Nt & [T0 T1]).
  destruct eta_small as [Ep Es]. assert (N1 : (Qn n <= Qn (2 ^ 53))%Q) by (apply inject_le; lia). change (Qn (2 ^ 53)) with (9007199254740992 # 1)%Q in N1.
  set (R := val (tb_rate r)) in *. set (T := val (tb_tokens r)) in *. destruct (Qlt_le_dec (T - Qn n) 0) as [X|X].
  2: { destruct (rounds_up _ _ Rs X). lra. }
  destruct (rounds_down _ _ Rs) as (_ & Dn & Up); [lra|]. assert (R0 : ~ R == 0) by lra. change (Qn (2 ^ 65)) with (36893488147419103232 # 1)%Q in R2.
  assert (V0 : (0 <= - val t / R)%Q) by (apply Qle_shift_div_l; lra).
  assert (V1 : (- val t / R <= 9007199254741000 # 1)%Q) by (apply Qle_shift_div_r; lra).
  assert (Rq : rounds (fdiv (fneg t) (tb_rate r)) (- val t / R)).
  { unfold R in *. rewrite <- val_neg in *. apply fdiv_rounds; [apply number_neg, Rs|done|done|]. apply (small_abs (9007199254741000 # 1)); [done|lra|].
    vm_compute. discriminate. }
  destruct (rounds_up _ _ Rq V0) as (Q0 & Q1 & Q2). set (q := val (fdiv (fneg t) (tb_rate r))) in *.
  destruct (from_secs_spec (fdiv (fneg t) (tb_rate r))) as (w & Ew & Bw & Lw); [apply Rq|done| |].
  { fold q. change (Qn (2 ^ 60)) with (1152921504606846976 # 1)%Q. lra. }
  exists w. split; [exact Ew|]. split; [exact Bw|]. fold q in Lw.
  assert (Lq : (q <= secs w + (1 # 2000000000))%Q).
  { apply (Qmult_le_r _ _ (Qn NANOS)); [reflexivity|]. assert (E : (secs w + (1 # 2000000000)) * Qn NANOS == Qn w + (1 # 2)).
    { change (Qn NANOS) with (1000000000 # 1)%Q. field. }
    rewrite E. exact Lw. }
  assert (S0 : (0 <= secs w)%Q) by (apply Qle_shift_div_l; [reflexivity|rewrite Qmult_0_l; apply inject_nonneg; lia]).
  assert (Vr : (- val t <= (q * (1 + u) + eta) * R)%Q).
  { assert (E : - val t == - val t / R * R) by (field; exact R0). rewrite E. apply Qmult_le_compat_r; lra. }
  assert (Er : (0 <= eta * R <= (1 # 1000000000000000000000000000000) * R)%Q) by (split; [apply Qmult_le_0_compat|apply Qmult_le_compat_r]; lra).
  assert (Qr : (q * R <= (secs w + (1 # 2000000000)) * R)%Q) by (apply Qmult_le_compat_r; lra).
  assert (Sr : (0 <= secs w * R)%Q) by (apply Qmult_le_0_compat; lra). lra.
Qed.

Lemma bucket_debit_ok b now now' n : bucket_ok b -> clock_ok b now -> now' < 2 ^ 62 * NANOS -> transfer n ->
  exists b' w, bucket_debit b now now' n = Some (b', w) /\ bucket_ok b' /\ tb_rate b' = tb_rate b
  /\ match w with
     | None => tb_last b' = now /\ (Qn n + val (tb_tokens b') <= val (tb_tokens (refill b now)) + (1 # 1000000000000) * val (tb_rate b))%Q
     | Some w => 0 <= w /\ tb_last b' = now' + w /\ val (tb_tokens b') == 0
       /\ (Qn n <= val (tb_tokens (refill b now)) + secs w * val (tb_rate b) * (1 + 16 * u) + (1 # 1000000000) * val (tb_rate b))%Q
     end.
Proof.
  intros Ok Bn Bn' Bt. destruct (refill_ok b now Ok Bn) as (Okr & _). unfold bucket_debit. cbv zeta.
  destruct (spend _ n Okr Bt) as [Rs Ub]. pose proof (flt_val (fsub (tb_tokens (refill b now)) (of_Z n)) (S754_zero false) (proj1 Rs) I) as F.
  destruct (flt _ _) eqn:Fe.
  - assert (Neg : (val (fsub (tb_tokens (refill b now)) (of_Z n)) < 0)%Q) by (by apply F).
    destruct (wait_pays _ n Okr Bt Neg) as (w & -> & Bw & Lw). cbn [mbind option_bind]. unfold instant_add.
    rewrite (proj2 (Z.ltb_lt _ _)) by (unfold NANOS in *; lia). cbn [mbind option_bind]. eexists _, _. split; [reflexivity|].
    destruct Okr as (Nr & [R1 R2] & _). split; [repeat (split; [done|]); cbn [tb_tokens tb_rate val]; lra|]. split; [done|].
    split; [lia|]. split; [done|]. split; [done|exact Lw].
  - assert (Pos : (0 <= val (fsub (tb_tokens (refill b now)) (of_Z n)))%Q).
    { destruct (Qlt_le_dec (val (fsub (tb_tokens (refill b now)) (of_Z n))) 0) as [X|X]; [|done]. by apply F in X. }
    eexists _, _. split; [reflexivity|]. destruct Okr as (Nr & [R1 R2] & Nt & [T0 T1]).
    split; [repeat (split; [done|]); split; [apply Rs|exact (conj Pos Ub)]|]. split; [done|]. split; [done|].
    change (tb_rate (refill b now)) with (tb_rate b) in *. generalize dependent (refill b now). intros r **. cbn [tb_tokens].
    assert (N0 : (0 <= Qn n)%Q) by (apply inject_nonneg; lia). destruct eta_small as [Ep Es].
    destruct (Qlt_le_dec (val (tb_tokens r) - Qn n) 0) as [X|X].
    + destruct (rounds_down _ _ Rs) as (V & D & _); [lra|]. lra.
    + destruct (rounds_up _ _ Rs X) as (_ & U & _). lra.
Qed.

(** ** The rate *)

(** A use of a bucket: the clock's readings and the bytes. *)
Inductive Use := Take (now n : Z) | Debit (now now' n : Z).
Definition use_now (x : Use) : Z := match x with Take now _ | Debit now _ _ => now end.
Definition use_end (x : Use) : Z := match x with Take now _ => now | Debit _ now' _ => now' end.
Definition use_bytes (x : Use) : Z := match x with Take _ n | Debit _ _ n => n end.
(** The bucket afterwards and the bytes it let through. *)
Definition use (b : TokenBucket) (x : Use) : option (TokenBucket * Z) :=
  match x with
  | Take now n => let '(b, ok) := bucket_take b now n in Some (b, if ok then n else 0)
  | Debit now now' n => '(b, _) ← bucket_debit b now now' n; Some (b, n)
  end.
Fixpoint uses (b : TokenBucket) (xs : list Use) : option (TokenBucket * Z) :=
  match xs with
  | [] => Some (b, 0)
  | x :: xs => '(b, n) ← use b x; '(b, m) ← uses b xs; Some (b, n + m)
  end.
(** A use that waits for the debt of the last: its readings are in order. *)
Definition in_order (b : TokenBucket) (x : Use) : bool :=
  (tb_last b <=? use_now x) && (use_now x <=? use_end x) && (use_end x <? 2 ^ 62 * NANOS)
  && (0 <=? use_bytes x) && (use_bytes x <? 2 ^ 53).
Fixpoint orderly (b : TokenBucket) (xs : list Use) : bool :=
  match xs with
  | [] => true
  | x :: xs => in_order b x && match use b x with Some (b, _) => orderly b xs | None => true end
  end.

Lemma secs_add a b : secs (a + b) == secs a + secs b.
Proof. rewrite inject_Z_plus. field. discriminate. Qed.

(** One use: what it lets through is paid by the tokens and the time. *)
Lemma use_pays b x : bucket_ok b -> 0 <= tb_last b -> in_order b x = true ->
  exists b' n, use b x = Some (b', n) /\ bucket_ok b' /\ tb_rate b' = tb_rate b /\ tb_last b <= tb_last b'
  /\ (Qn n + val (tb_tokens b') <= val (tb_tokens b) + secs (tb_last b' - tb_last b) * val (tb_rate b) * (1 + 16 * u)
        + (1 # 500000000) * val (tb_rate b))%Q.
Proof.
  intros Ok L0 O. unfold in_order in O. rewrite !andb_true_iff, !Z.leb_le, !Z.ltb_lt in O. destruct O as ((((O1 & O2) & O3) & O4) & O5).
  assert (Ck : clock_ok b (use_now x)) by (left; unfold NANOS in *; lia).
  destruct (refill_ok b (use_now x) Ok Ck) as (_ & Rf & _). pose proof Ok as (_ & [R1 R2] & _ & [T0 T1]). rewrite Z.max_r in Rf by lia.
  destruct x as [now n|now now' n]; cbn [use use_now use_end use_bytes] in *.
  - destruct (bucket_take b now n) as [b' ok] eqn:E. destruct (bucket_take_ok b now n b' ok Ok Ck ltac:(lia) E) as (Ok' & El & Er & P & _).
    exists b', (if ok then n else 0). split; [done|]. split; [done|]. split; [done|]. split; [lia|]. rewrite El.
    assert (Ei : Qn (if ok then n else 0) == if ok then Qn n else 0) by (by destruct ok). rewrite Ei. lra.
  - destruct (bucket_debit_ok b now now' n Ok Ck ltac:(lia) ltac:(lia)) as (b' & [w|] & -> & Ok' & Er & P); cbn [mbind option_bind];
      exists b', n; (split; [done|]); (split; [done|]); (split; [done|]).
    + destruct P as (W0 & El & Tz & P). split; [lia|]. rewrite El, Tz.
      assert (Es : secs (now' + w - tb_last b) == secs (now - tb_last b) + secs (now' - now) + secs w).
      { rewrite <- !secs_add. replace (now' + w - tb_last b) with (now - tb_last b + (now' - now) + w) by lia. reflexivity. }
      assert (D0 : (0 <= secs (now' - now) * val (tb_rate b))%Q).
      { apply Qmult_le_0_compat; [|lra]. apply Qle_shift_div_l; [reflexivity|]. rewrite Qmult_0_l. apply inject_nonneg. lia. }
      rewrite Es. lra.
    + destruct P as (El & P). split; [lia|]. rewrite El. lra.
Qed.

Lemma uses_pay xs : forall b, bucket_ok b -> 0 <= tb_last b -> orderly b xs = true ->
  exists b' n, uses b xs = Some (b', n) /\ tb_rate b' = tb_rate b /\ tb_last b <= tb_last b'
  /\ (Qn n + val (tb_tokens b') <= val (tb_tokens b) + secs (tb_last b' - tb_last b) * val (tb_rate b) * (1 + 16 * u)
        + Qn (zlen xs) * (1 # 500000000) * val (tb_rate b))%Q /\ (0 <= val (tb_tokens b'))%Q.
Proof.
  induction xs as [|x xs IH]; intros b Ok L0 O.
  - exists b, 0. split; [done|]. split; [done|]. split; [lia|]. rewrite Z.sub_diag. destruct Ok as (_ & _ & _ & [T0 _]).
    change (zlen (@nil Use)) with 0. change (Qn 0) with 0%Q. assert (E : 0 / Qn NANOS == 0) by reflexivity. rewrite E. split; lra.
  - cbn [orderly] in O. apply andb_true_iff in O as [O1 O2]. destruct (use_pays b x Ok L0 O1) as (b1 & n & E & Ok1 & Er & Ll & P).
    rewrite E in O2. destruct (IH b1 Ok1 ltac:(lia) O2) as (b' & m & E' & Er' & Ll' & P' & T'). exists b', (n + m).
    cbn [uses]. rewrite E. cbn [mbind option_bind]. rewrite E'. split; [done|]. split; [congruence|]. split; [lia|]. split; [|done].
    rewrite Er in P'. assert (Es : secs (tb_last b' - tb_last b) == secs (tb_last b1 - tb_last b) + secs (tb_last b' - tb_last b1)).
    { rewrite <- secs_add. replace (tb_last b' - tb_last b) with (tb_last b1 - tb_last b + (tb_last b' - tb_last b1)) by lia. reflexivity. }
    rewrite Es, zlen_cons, !inject_Z_plus. change (Qn 1) with 1%Q. lra.
Qed.

(** C36: A bucket that is used in order, each time after the debt of the last
    was waited for, never panics, and what it lets through is at most its
    burst of one second and its rate times the time that passed, up to a part
    in 2^48 and two nanoseconds of the rate for each use. *)
Theorem rate_conforms (bytes_per_sec t0 : Z) (xs : list Use) : 0 <= bytes_per_sec < 2 ^ 64 -> 0 <= t0 ->
  orderly (new bytes_per_sec t0) xs = true ->
  exists b n, uses (new bytes_per_sec t0) xs = Some (b, n)
  /\ (Qn n <= val (of_Z (Z.max bytes_per_sec 1))
       * (1 + (Qn (tb_last b - t0) / Qn NANOS) * (1 + 16 * (1 # 4503599627370496)) + Qn (zlen xs) * (1 # 500000000)))%Q.
Proof.
  intros B T O. destruct (uses_pay xs _ (new_ok bytes_per_sec t0 B) T O) as (b & n & E & _ & _ & P & T').
  exists b, n. split; [exact E|]. cbn [new tb_tokens tb_rate tb_last] in P. lra.
Qed.

(** What a bucket always holds: a rate of at least one byte a second that
    never changes, and tokens between none and one second's. *)
Theorem bucket_invariant (bytes_per_sec t0 : Z) : 0 <= bytes_per_sec < 2 ^ 64 -> bucket_ok (new bytes_per_sec t0)
  /\ forall b now now' n, bucket_ok b -> clock_ok b now -> now' < 2 ^ 62 * NANOS -> transfer n ->
     (forall b' ok, bucket_take b now n = (b', ok) -> bucket_ok b' /\ tb_rate b' = tb_rate b)
     /\ exists b' w, bucket_debit b now now' n = Some (b', w) /\ bucket_ok b' /\ tb_rate b' = tb_rate b.
Proof.
  intros B. split; [by apply new_ok|]. intros b now now' n Ok Ck Bn Bt. split.
  - intros b' ok E. destruct (bucket_take_ok b now n b' ok Ok Ck Bt E) as (Ok' & _ & Er & _). by split.
  - destruct (bucket_debit_ok b now now' n Ok Ck Bn Bt) as (b' & w & E & Ok' & Er & _). by exists b', w.
Qed.

(** ** In the devices *)

(** While the debt of one debit runs, the next forgets it: what it waits is
    counted from now, whatever was still owed. *)
Theorem debt_forgotten (rate tokens : f64) (last1 last2 now now' n : Z) : now <= last1 -> now <= last2 ->
  bucket_debit (mkBucket rate tokens last1) now now' n = bucket_debit (mkBucket rate tokens last2) now now' n.
Proof.
  intros L1 L2. unfold bucket_debit, refill. cbn [tb_last tb_tokens tb_rate]. by rewrite !Z.max_l by lia.
Qed.

Section NetLimits.
Context {B : Type} `{NetBackendLaws B}.
Abbreviation Dev := (NetDevice B Clocked).
Abbreviation frame_bytes r bufs := (zlen (tx_gather r [] (readable_bufs bufs)) - VIRTIO_NET_HDR_LEN).

Lemma clocked_debit t b n : bucket_debit b t t n <> None ->
  exists b' w, bucket_debit b t t n = Some (b', w) /\ debit (mkClocked [t] b) n = (mkClocked [t] b', w).
Proof.
  intros N. destruct (bucket_debit b t t n) as [[b' [w|]]|] eqn:E; [..|done]; cbn; rewrite E; eauto.
Qed.

(** Two frames that a guest sends in one batch, faster than the clock
    ticks: when each leaves a debt, the run loop waits for the second as if it
    had been sent alone on an empty bucket. The first is not paid for. *)
Theorem batch_pays_last (d : Dev) (r : GuestRam) (bufs1 bufs2 : list Buf) (t : Z) (b : TokenBucket) :
  tx_limit d = Some (mkClocked [t] b) ->
  0 < frame_bytes r bufs1 -> 0 < frame_bytes r bufs2 ->
  (exists b1 w1, bucket_debit b t t (frame_bytes r bufs1) = Some (b1, Some w1)) ->
  (exists b2 w2, bucket_debit (mkBucket (tb_rate b) (S754_zero false) t) t t (frame_bytes r bufs2) = Some (b2, Some w2)) ->
  let d1 := fst (fst (handle d NET_TX r bufs1)) in
  let d2 := fst (fst (handle d1 NET_TX r bufs2)) in
  snd (take_throttle d2)
  = snd (default (b, None) (bucket_debit (mkBucket (tb_rate b) (S754_zero false) t) t t (frame_bytes r bufs2))).
Proof.
  intros El F1 F2 (b1 & w1 & E1) (b2 & w2 & E2) d1 d2.
  assert (S1 : b1 = mkBucket (tb_rate b) (S754_zero false) (t + w1) /\ 0 <= w1 /\ t + w1 < 2 ^ 63 * NANOS).
  { revert E1. unfold bucket_debit. cbv zeta. destruct (flt _ _); [|done]. destruct (from_secs_f64 _) as [w|] eqn:Ew; [|done].
    cbn [mbind option_bind]. unfold instant_add. destruct (Z.ltb_spec (t + w) (2 ^ 63 * NANOS)); [|done]. intros [= <- <-].
    split; [done|]. split; [|done]. revert Ew. clear. destruct (fdiv _ _) as [s|s| |[|] m e]; cbn; try done; [by intros [= <-]|].
    set (n := if 0 <=? e then _ else _). destruct (n <? _); [|done]. intros [= <-]. unfold n. destruct (Z.leb_spec 0 e) as [E0|E0].
    - pose proof (Z.pow_nonneg 2 e). unfold NANOS. lia.
    - apply (round_shift_near (Zpos m * NANOS) (- e)); unfold NANOS; lia. }
  destruct S1 as (-> & W0 & _).
  assert (Ed : forall b0 n b' w, bucket_debit b0 t t n = Some (b', w) -> debit (mkClocked [t] b0) n = (mkClocked [t] b', w)).
  { intros b0 n b' w E. destruct (clocked_debit t b0 n) as (b'' & w' & E' & ->); [congruence|]. rewrite E in E'. by injection E' as <- <-. }
  destruct (net_tx_debt_last d r bufs1 bufs2 _ _ _ (proj1 (Z.lt_0_sub _ _) F1) (proj1 (Z.lt_0_sub _ _) F2) El (Ed _ _ _ _ E1)) as (_ & T).
  fold d1 d2 in T. rewrite T. rewrite (debt_forgotten _ _ t (t + w1)) in E2 |- * by lia.
  rewrite E2, (Ed _ _ _ _ E2). reflexivity.
Qed.

(** What the receive pump gets from a device, poll after poll. *)
Fixpoint polled (d : Dev) (caps : list Z) : list (option (list Z)) :=
  match caps with [] => [] | cap :: caps => let '(d, o) := net_poll_rx d cap in o :: polled d caps end.

(** A received frame longer than the bucket's burst is deferred for good:
    however long the guest waits, no poll delivers it, nor anything behind it. *)
Theorem oversized_frame_stalls (d : Dev) (c : Clocked) (frame : list Z) (caps : list Z) :
  rx_limit d = Some c -> bucket_ok (bucket c) -> 0 <= tb_last (bucket c) < 2 ^ 62 * NANOS ->
  Forall (fun t => 0 <= t < 2 ^ 62 * NANOS) (clock c) ->
  (val (tb_rate (bucket c)) < inject_Z (zlen frame))%Q -> zlen frame < 2 ^ 53 ->
  (net_pending_rx d = Some frame \/ net_pending_rx d = None /\ snd (nb_poll (net_backend d)) = Some frame) ->
  Forall (fun o => o = None) (polled d caps).
Proof.
  intros Er Ok L0 Fc Big Bl Nx. revert d c Er Ok L0 Fc Big Nx. induction caps as [|cap caps IH]; intros d c Er Ok L0 Fc Big Nx; [constructor|].
  cbn [polled]. unfold net_poll_rx. destruct (net_next_frame d) as [bk o] eqn:En.
  assert (o = Some frame) as ->.
  { revert En. unfold net_next_frame. destruct Nx as [-> | [-> P]]; [by intros [= _ <-]|]. intros E. by rewrite E in P. }
  rewrite Er. cbn [try_take Clocked_limiter]. destruct (tick (clock c)) as [now k] eqn:Et.
  assert (Bn : 0 <= now < 2 ^ 62 * NANOS /\ Forall (fun t => 0 <= t < 2 ^ 62 * NANOS) k).
  { revert Et. destruct Fc as [|x l Fx Fl]; [intros [= <- <-]; by split|]. destruct l; intros [= <- <-]; split; try done. by constructor. }
  destruct Bn as [Bn Fk]. destruct (bucket_take (bucket c) now (zlen frame)) as [b' ok] eqn:Eb.
  assert (Ck : clock_ok (bucket c) now) by (unfold NANOS in *; lia).
  assert (Tr : transfer (zlen frame)) by (split; [apply zlen_nonneg|done]).
  destruct (bucket_take_ok (bucket c) now (zlen frame) b' ok Ok Ck Tr Eb) as (Ok' & El & Er' & _ & D).
  destruct (refill_ok (bucket c) now Ok Ck) as ((_ & _ & _ & [_ U]) & _). change (tb_rate (refill (bucket c) now)) with (tb_rate (bucket c)) in U.
  destruct ok; [exfalso; assert (inject_Z (zlen frame) <= val (tb_tokens (refill (bucket c) now)))%Q by (by apply D); lra|].
  constructor; [done|]. apply (IH _ (mkClocked k b')); cbn [rx_limit clock bucket net_pending_rx]; [done|done|lia|done|by rewrite Er'|by left].
Qed.
End NetLimits.

(** ** Instances *)

Definition demo_uses : list Use := [Debit 0 0 3000; Take (2 * NANOS) 1; Take (3 * NANOS) 900].
Definition demo_used : option (TokenBucket * Z) := Eval vm_compute in uses (new 1000 0) demo_uses.

Lemma rate_conforms_witness : exists b, demo_used = Some (b, 3900).
Proof.
  destruct (rate_conforms 1000 0 demo_uses) as (b & n & E & _); [lia|lia|vm_compute; reflexivity|].
  assert (V : uses (new 1000 0) demo_uses = demo_used) by (vm_compute; reflexivity). rewrite V in E. exists b. rewrite E. unfold demo_used in E.
  injection E as _ <-. reflexivity.
Defined.

Lemma bucket_invariant_witness : exists b' w, bucket_debit (new 1000 0) 0 0 3000 = Some (b', w) /\ bucket_ok b'.
Proof.
  destruct (bucket_invariant 1000 0) as [Ok P]; [lia|].
  destruct (P (new 1000 0) 0 0 3000 Ok) as (_ & b' & w & E & Ok' & _); [right; cbn; lia|unfold NANOS; lia|lia|].
  exists b', w. exact (conj E Ok').
Defined.

(** A debt of nine seconds, and a second debit meanwhile. *)
Lemma debt_forgotten_witness :
  bucket_debit (mkBucket (of_Z 10) (S754_zero false) (9 * NANOS)) 0 0 1 = Some (mkBucket (of_Z 10) (S754_zero false) 100000000, Some 100000000).
Proof. rewrite (debt_forgotten (of_Z 10) (S754_zero false) (9 * NANOS) 0 0 0 1); [vm_compute; reflexivity|unfold NANOS; lia|lia]. Defined.

Definition slow_net : NetDevice FrameQueue Clocked :=
  NetDevice_new (mkFrameQueue [] []) (Some (mkClocked [0] (new 10 0))) None.

(** A frame of a hundred bytes at ten a second, and one of one byte: the run
    loop waits a tenth of a second. *)
Lemma batch_pays_last_witness :
  let d1 := fst (fst (handle slow_net NET_TX (demo_ram T_IN) (tx_chain 112))) in
  let d2 := fst (fst (handle d1 NET_TX (demo_ram T_IN) (tx_chain 13))) in
  snd (take_throttle d2) = Some 100000000.
Proof.
  intros d1 d2. unfold d2, d1.
  rewrite (batch_pays_last slow_net (demo_ram T_IN) (tx_chain 112) (tx_chain 13) 0 (new 10 0) eq_refl).
  - vm_compute. reflexivity.
  - vm_compute. reflexivity.
  - vm_compute. reflexivity.
  - eexists _, _. vm_compute. reflexivity.
  - eexists _, _. vm_compute. reflexivity.
Defined.

Definition stalled_net : NetDevice FrameQueue Clocked :=
  NetDevice_new (mkFrameQueue [zeros 1514; [1]] []) None (Some (mkClocked [0; 5 * NANOS; 1000000 * NANOS] (new 1000 0))).

Lemma oversized_frame_stalls_witness : polled stalled_net [2000; 2000; 2000] = [None; None; None].
Proof.
  assert (A : Forall (fun o => o = None) (polled stalled_net [2000; 2000; 2000])).
  { apply (oversized_frame_stalls stalled_net (mkClocked [0; 5 * NANOS; 1000000 * NANOS] (new 1000 0)) (zeros 1514)).
    - reflexivity.
    - apply new_ok. lia.
    - cbn. unfold NANOS. lia.
    - repeat constructor; unfold NANOS; lia.
    - vm_compute. reflexivity.
    - vm_compute. reflexivity.
    - right. split; vm_compute; reflexivity. }
  cbn [polled] in A |- *. destruct (net_poll_rx stalled_net 2000) as [d1 o1]. destruct (net_poll_rx d1 2000) as [d2 o2].
  destruct (net_poll_rx d2 2000) as [d3 o3]. inversion A as [|? ? -> A1]. inversion A1 as [|? ? -> A2]. by inversion A2 as [|? ? -> A3].
Defined.
