(* ===== verification/Manifest.v ===== *)
(** * Manifest: amber.toml and sizes (crates/amber/src/manifest.rs)

    [parse_size] and [load_from]; the records are [Daemon]'s, whose theorems
    and [Cli]'s hold for any parser of sizes, so for this one. The toml parser
    is an argument.

    [parse_size_exact]: a whole number with a unit is that many bytes;
    [parse_size_range]; [template_rate]: a template's I/O cap from the
    manifest through the environment to the token bucket. *)

From stdpp Require Import pretty.
From Stdlib Require Import QArith Qround Lqa SpecFloat.
From S2P Require Import Prelude Float64 Fs Registry Text Image Bootstrap Daemon Cli Limiter.
#[local] Open Scope Z_scope.

(** ** Sizes *)

Definition alphabetic (c : Ascii.ascii) : bool :=
  let n := Ascii.nat_of_ascii c in ((65 <=? n) && (n <=? 90) || (97 <=? n) && (n <=? 122))%nat.
(** [split_at] the first letter. *)
Fixpoint split_unit (s : string) : string * string :=
  match s with
  | EmptyString => (EmptyString, EmptyString)
  | String c s' => if alphabetic c then (EmptyString, s) else let '(a, b) := split_unit s' in (String c a, b)
  end.

(** [f64]'s [parse] of a text without letters: a sign, digits, and digits
    after a point; the nearest float of the decimal. *)
Fixpoint decimal (m k : Z) (point some : bool) (s : string) : option (Z * Z) :=
  match s with
  | EmptyString => if some then Some (m, k) else None
  | String c s' =>
      match digit_of 10 c with
      | Some d => decimal (m * 10 + d) (if point then k + 1 else k) point true s'
      | None => if Ascii.eqb c (ch ".") && negb point then decimal m k true some s' else None
      end
  end.
Definition nearest (m k : Z) : f64 :=
  match m with
  | Z0 => S754_zero false
  | _ => let '(q, e, l) := SFdiv_core_binary 53 1024 m 0 (10 ^ k) 0 in binary_round_aux 53 1024 false q e l
  end.
Definition parse_f64 (s : string) : option f64 :=
  let '(neg, s) := match s with
    | String c s' => if Ascii.eqb c (ch "-") then (true, s') else if Ascii.eqb c (ch "+") then (false, s') else (false, s)
    | EmptyString => (false, s) end in
  '(m, k) ← decimal 0 0 false false s; Some (if neg then fneg (nearest m k) else nearest m k).

Definition K10 : f64 := of_Z 1024.
Definition unit_mult (unit : string) : option f64 :=
  if String.eqb unit EmptyString || String.eqb unit "b" then Some (of_Z 1)
  else if String.eqb unit "k" || String.eqb unit "kib" then Some K10
  else if String.eqb unit "m" || String.eqb unit "mib" then Some (fmul K10 K10)
  else if String.eqb unit "g" || String.eqb unit "gib" then Some (fmul (fmul K10 K10) K10)
  else if String.eqb unit "kb" then Some (of_Z 1000)
  else if String.eqb unit "mb" then Some (of_Z 1000000)
  else if String.eqb unit "gb" then Some (of_Z 1000000000)
  else None.

Definition parse_size (s : string) : option Z :=
  let s := trim s in
  let '(num, unit) := split_unit s in
  num ← parse_f64 (trim num);
  if negb (is_finite num) || flt num (S754_zero false) then None
  else
    mult ← unit_mult (to_ascii_lowercase (trim unit));
    let bytes := to_u64 (fmul num mult) in
    if 0 <? bytes then Some bytes else None.

(** ** The file *)

(** [load_from]: [toml] is the parser. *)
Definition load_from (fs : Fs) (toml : string -> option Manifest) (path : Path) : option Manifest :=
  bytes ← read_path fs path; text ← from_utf8 bytes; toml text.
Definition load (fs : Fs) (toml : string -> option Manifest) : option Manifest :=
  load_from fs toml [Normal "amber.toml"].
Definition template (m : Manifest) (name : string) : option Template := m_template m !! name.

Example size_iec : map parse_size ["512"; "512b"; "1k"; "1KiB"; "1m"; "1g"; "1kb"; "1mb"]
  = [Some 512; Some 512; Some 1024; Some 1024; Some 1048576; Some 1073741824; Some 1000; Some 1000000].
Proof. vm_compute. reflexivity. Qed.
Example size_decimal : map parse_size ["2.5m"; "  10 MiB "; "0"; "-5m"; "abc"; "5x"; "1e400"; ".5k"; "."; "+1k"; "1.g"; "0.1"]
  = [Some 2621440; Some 10485760; None; None; None; None; None; Some 512; None; Some 1024; Some 1073741824; None].
Proof. vm_compute. reflexivity. Qed.

(** ** Texts *)

Lemma solid_chars c : numeral c || alphabetic c = true -> solid c = true.
Proof. by destruct c as [[] [] [] [] [] [] [] []]; vm_compute. Qed.
Lemma numeral_letter c : numeral c = true -> alphabetic c = false.
Proof. by destruct c as [[] [] [] [] [] [] [] []]; vm_compute. Qed.

Lemma all_chars_impl (f g : Ascii.ascii -> bool) s : (forall c, f c = true -> g c = true) -> all_chars f s = true -> all_chars g s = true.
Proof.
  intros I. induction s as [|c s IH]; [done|]. cbn [all_chars]. intros [A B]%andb_true_iff. apply andb_true_iff. auto.
Qed.

Lemma white_plain l : Forall (fun w => w ∈ white) l -> all_chars (fun c => negb (alphabetic c)) (concat_str l) = true.
Proof.
  intros F. induction F as [|w l I _ IH]; [done|]. change (concat_str (w :: l)) with (w +:+ concat_str l). rewrite all_chars_app, IH, andb_true_r.
  assert (G : forallb (all_chars (fun c => negb (alphabetic c))) white = true) by (vm_compute; reflexivity).
  rewrite forallb_forall in G. by apply G, list_elem_of_In.
Qed.

Lemma split_unit_app a b : all_chars (fun c => negb (alphabetic c)) a = true -> all_chars alphabetic b = true -> split_unit (a +:+ b) = (a, b).
Proof.
  intros A B. induction a as [|c a IH].
  - change (EmptyString +:+ b) with b. destruct b as [|d b]; [done|]. cbn [all_chars split_unit] in *. apply andb_true_iff in B as [-> _]. done.
  - cbn [all_chars] in A. apply andb_true_iff in A as [Ac Aa]. apply negb_true_iff in Ac. rewrite app_string. cbn [split_unit].
    by rewrite Ac, IH.
Qed.

(** A text between its first and last character is what trimming leaves. *)
(** ** Numbers *)

Lemma decimal_digits s : forall acc some v, digits acc s = Some v -> (s <> EmptyString \/ some = true) -> decimal acc 0 false some s = Some (v, 0).
Proof.
  induction s as [|c s IH]; intros acc some v D N; cbn [digits decimal] in *.
  - destruct N as [ | -> ]; [done|]. by injection D as <-.
  - destruct (digit_of 10 c) as [d|]; [|done]. apply IH; [done|by right].
Qed.

Lemma nearest_whole n : 0 < n < 2 ^ 53 -> number (nearest n 0) /\ val (nearest n 0) == inject_Z n.
Proof.
  intros B. destruct n as [|p|p]; [lia| |lia]. unfold nearest. change (10 ^ 0) with 1. set (n := Zpos p) in *. clearbody n.
  destruct (SFdiv_core_binary 53 1024 n 0 1 0) as [[q e] l] eqn:D.
  destruct (div_core n 0 1 0 q e l ltac:(lia) eq_refl D) as (Q0 & R & s & S0 & Ee & Eq). rewrite Z.div_1_r in Eq.
  assert (El : l = loc_Exact).
  { revert D. unfold SFdiv_core_binary. cbv zeta. set (m' := match _ with Z0 => n | _ => _ end). clearbody m'.
    pose proof (Z.mod_1_r m') as M. unfold Z.modulo in M. destruct (Z.div_eucl m' 1) as [q' r']. rewrite M. by intros [= _ _ <-]. }
  subst l. pose proof (Z.pow_pos_nonneg 2 s eq_refl S0). destruct (round_aux_exact false q e n 0) as [Nu V]; [nia|exact R|lia| |lia|lia|].
  - rewrite Eq, Ee. f_equal. f_equal. lia.
  - split; [exact Nu|]. rewrite V. cbn [unit_]. rewrite Z.mul_1_l. change (pow2 0) with 1%Q. ring.
Qed.

Lemma parse_f64_whole n : 0 < n < 2 ^ 53 -> parse_f64 (pretty n) = Some (nearest n 0).
Proof.
  intros [P L]. destruct (pretty_shape n P) as (c & s & E & N). unfold parse_f64.
  assert (Sg : forall d, numeral d = false -> Ascii.eqb c d = false) by (intros d Nd; destruct (Ascii.eqb_spec c d) as [->|]; [congruence|done]).
  rewrite E, !Sg by reflexivity. cbn [mbind]. rewrite <- E.
  rewrite (decimal_digits (pretty n) 0 false n); [done|by apply digits_pretty|left; by rewrite E].
Qed.

(** What a unit stands for. *)
Definition unit_bytes (unit : string) : option Z :=
  snd <$> List.find (fun p => String.eqb unit (fst p))
    [(EmptyString, 1); ("b", 1); ("k", 2 ^ 10); ("kib", 2 ^ 10); ("m", 2 ^ 20); ("mib", 2 ^ 20); ("g", 2 ^ 30); ("gib", 2 ^ 30);
     ("kb", 1000); ("mb", 1000000); ("gb", 1000000000)].

Lemma unit_mult_bytes unit m : unit_bytes unit = Some m ->
  exists f, unit_mult unit = Some f /\ number f /\ val f == inject_Z m /\ 0 < m /\ (m < 2 ^ 53).
Proof.
  unfold unit_bytes, unit_mult. cbn [List.find fst].
  repeat match goal with |- context [String.eqb unit ?k] => destruct (String.eqb_spec unit k) as [->|?] end;
    cbn [fmap option_fmap option_map snd orb]; try done; intros [= <-]; eexists; (split; [reflexivity|]);
    (split; [vm_compute; repeat split; try done; discriminate|]); (split; [vm_compute; reflexivity|lia]).
Qed.

(** ** What is parsed *)

Lemma to_u64_range x : 0 <= to_u64 x < 2 ^ 64.
Proof.
  destruct x as [s|[]| |[] m e]; cbn [to_u64]; try lia. destruct (0 <=? e).
  - pose proof (Z.pow_nonneg 2 e). lia.
  - assert (0 <= Zpos m / 2 ^ (- e)) by (apply Z_div_nonneg_nonneg; [lia|apply Z.pow_nonneg; lia]). lia.
Qed.

Lemma parse_size_bounds s n : parse_size s = Some n -> 0 < n < 2 ^ 64.
Proof.
  unfold parse_size. destruct (split_unit _) as [num unit]. destruct (parse_f64 _) as [f|]; [|done]. cbn [mbind option_bind].
  destruct (_ || _); [done|]. destruct (unit_mult _) as [m|]; [|done]. cbn [mbind option_bind]. cbv zeta.
  pose proof (to_u64_range (fmul f m)). destruct (Z.ltb_spec 0 (to_u64 (fmul f m))); [|done]. intros [= <-]. lia.
Qed.

(** The product of a whole number and a unit is exact, or saturates. *)
Lemma size_product n m f x : 0 < n < 2 ^ 53 -> 0 < m -> (n * m < 2 ^ 53 \/ exists k, 0 <= k <= 30 /\ m = 2 ^ k) ->
  number x -> val x == inject_Z n -> number f -> val f == inject_Z m -> to_u64 (fmul x f) = Z.min (n * m) (2 ^ 64 - 1).
Proof.
  intros Bn Pm Fit Nx Vx Nf Vf. assert (E : exists N j, 0 < N < 2 ^ 53 /\ 0 <= j <= 971 /\ N * 2 ^ j = n * m).
  { destruct Fit as [L|(k & Bk & ->)]; [exists (n * m), 0|exists n, k]; lia. }
  destruct E as (N & j & BN & Bj & E).
  assert (Ej : inject_Z N * pow2 j == inject_Z (n * m)) by (rewrite pow2_Z, <- inject_Z_mult, E by lia; reflexivity).
  destruct (fmul_exact x f N j Nx Nf BN Bj) as [Np Vp]; [by rewrite Ej, Vx, Vf, <- inject_Z_mult|].
  rewrite to_u64_floor; [|exact Np|].
  - rewrite Vp, Ej, Qfloor_Z. lia.
  - rewrite Vp, Ej. apply (inject_le 0). lia.
Qed.

(** A whole number below 2^53 with a unit, in any case and with any white
    space around and between, is that many bytes: the arithmetic in [f64] is
    exact for the binary units, and for the decimal ones below 2^53 bytes. *)
Theorem parse_size_exact (n m : Z) (unit : string) (pre mid post : list string) :
  0 < n < 2 ^ 53 -> all_chars alphabetic unit = true -> unit_bytes (to_ascii_lowercase unit) = Some m ->
  (n * m < 2 ^ 53 \/ exists k, 0 <= k <= 30 /\ m = 2 ^ k) ->
  Forall (fun w => w ∈ white) pre -> Forall (fun w => w ∈ white) mid -> Forall (fun w => w ∈ white) post ->
  (unit = EmptyString -> mid = []) ->
  parse_size (concat_str pre +:+ (pretty n +:+ concat_str mid +:+ unit) +:+ concat_str post) = Some (Z.min (n * m) (2 ^ 64 - 1)).
Proof.
  intros Bn Au Em Fit Fp Fm Fq Um. destruct (unit_mult_bytes _ _ Em) as (f & Ef & Nf & Vf & Pm & _).
  destruct (pretty_shape n ltac:(lia)) as (c & a & Ec & Nc). pose proof (pretty_numerals n ltac:(lia)) as Nu.
  assert (Ne : pretty n <> EmptyString) by (by rewrite Ec).
  assert (Sc : forall d, numeral d = true -> solid d = true) by (intros d D; apply solid_chars; by rewrite D).
  assert (Sl : forall d, alphabetic d = true -> solid d = true) by (intros d D; apply solid_chars; by rewrite D, orb_true_r).
  assert (T1 : trim (concat_str pre +:+ (pretty n +:+ concat_str mid +:+ unit) +:+ concat_str post) = pretty n +:+ concat_str mid +:+ unit).
  { destruct (String.eqb_spec unit EmptyString) as [->|Nu0].
    - rewrite (Um eq_refl), !app_nil_string. by apply (trim_solid pre post numeral).
    - destruct (last_char alphabetic unit Nu0 Au) as (b & d & Eu & D). apply (trim_around pre post _ c d (a +:+ concat_str mid +:+ unit) (pretty n +:+ concat_str mid +:+ b)); auto.
      + by rewrite Ec, app_string.
      + by rewrite Eu, !app_assoc_string. }
  assert (T2 : trim (pretty n +:+ concat_str mid) = pretty n).
  { pose proof (trim_solid [] mid numeral (pretty n) Sc Nu Ne (Forall_nil_2 _) Fm) as T. exact T. }
  assert (T3 : trim unit = unit).
  { destruct (String.eqb_spec unit EmptyString) as [->|Nu0]; [reflexivity|].
    pose proof (trim_solid [] [] alphabetic unit Sl Au Nu0 (Forall_nil_2 _) (Forall_nil_2 _)) as T. by rewrite app_nil_string in T. }
  assert (Pl : all_chars (fun c => negb (alphabetic c)) (pretty n +:+ concat_str mid) = true).
  { rewrite all_chars_app, white_plain, andb_true_r by done. eapply all_chars_impl; [|exact Nu]. intros d D. by rewrite (numeral_letter d D). }
  unfold parse_size. rewrite T1, <- app_assoc_string, (split_unit_app _ _ Pl Au), T2, T3, parse_f64_whole by done. cbn [mbind option_bind].
  destruct (nearest_whole n Bn) as [Nn Vn]. assert (Fin : is_finite (nearest n 0) = true) by (by destruct (nearest n 0)).
  rewrite Fin. assert (Ng : flt (nearest n 0) (S754_zero false) = false).
  { destruct (flt _ _) eqn:E; [|done]. apply (flt_val (nearest n 0) (S754_zero false) Nn I) in E. rewrite Vn in E. cbn [val] in E.
    assert (0 <= inject_Z n)%Q by (apply inject_nonneg; lia). lra. }
  rewrite Ng, Ef. cbn [negb orb mbind option_bind]. cbv zeta. rewrite (size_product n m f) by done.
  rewrite (proj2 (Z.ltb_lt _ _)) by nia. done.
Qed.

(** ** A template's cap *)

Lemma suffix_numeral s : s <> EmptyString -> all_chars numeral s = true -> suffix s = Some (s, 1).
Proof.
  intros N A. destruct (last_char numeral s N A) as (b & d & E & D). unfold suffix. rewrite E at 1. rewrite rev_app_str.
  change (String.rev (String d EmptyString) +:+ String.rev b) with (String d (String.rev b)).
  assert (L : forall x, numeral x = false -> lower d = d /\ Ascii.eqb d x = false).
  { intros x X. split; [|destruct (Ascii.eqb_spec d x) as [->|]; [congruence|done]]. revert D. clear. by destruct d as [[] [] [] [] [] [] [] []]; vm_compute. }
  destruct (L (ch "k") eq_refl) as [-> ->]. destruct (L (ch "m") eq_refl) as [_ ->]. by destruct (L (ch "g") eq_refl) as [_ ->].
Qed.

Lemma from_env_pretty n now : 0 < n < 2 ^ 64 -> from_env (Some (pretty n)) now = Some (new n now).
Proof.
  intros B. destruct (pretty_shape n ltac:(lia)) as (c & a & Ec & _). pose proof (pretty_numerals n ltac:(lia)) as Nu.
  assert (Ne : pretty n <> EmptyString) by (by rewrite Ec). unfold from_env. cbn [mbind option_bind].
  assert (T : trim (pretty n) = pretty n).
  { pose proof (trim_solid [] [] numeral (pretty n) ltac:(intros d D; apply solid_chars; by rewrite D) Nu Ne (Forall_nil_2 _) (Forall_nil_2 _)) as T.
    by rewrite app_nil_string in T. }
  rewrite T, suffix_numeral by done. cbn [mbind option_bind]. rewrite parse_u64_pretty by lia. cbn [mbind option_bind].
  rewrite (proj2 (Z.ltb_lt _ _)) by lia. by rewrite Z.mul_1_r, Z.min_l by lia.
Qed.

(** A template's I/O caps reach the devices: unless the worker's
    environment already sets them, a size that amber.toml gives as disk_bps or
    net_bps and that parses is, after its way through the environment, the
    rate of the token bucket that the disk or the network device makes. *)
Theorem template_rate (envs : Env) (t : Template) (now : Z) :
  let envs' := vm_envs parse_size envs (Some t) in
  (forall s n, t_disk_bps t = Some s -> parse_size s = Some n -> envs !! "AMBER_DISK_BPS" = None ->
     from_env (envs' !! "AMBER_DISK_BPS") now = Some (new n now))
  /\ (forall s n, t_net_bps t = Some s -> parse_size s = Some n -> envs !! "AMBER_NET_BPS" = None ->
     from_env (envs' !! "AMBER_NET_BPS") now = Some (new n now)).
Proof.
  cbv zeta. cbn [vm_envs]. split; intros s n Ec Es Ev.
  - rewrite set_cap_other by done. unfold set_cap. rewrite Ev, Ec. cbn [mbind option_bind]. rewrite Es, lookup_insert_eq.
    by apply from_env_pretty, parse_size_bounds with s.
  - unfold set_cap at 1. rewrite set_cap_other by done. rewrite Ev, Ec. cbn [mbind option_bind]. rewrite Es, lookup_insert_eq.
    by apply from_env_pretty, parse_size_bounds with s.
Qed.

(** ** Instances *)

Lemma parse_size_exact_witness : parse_size "  3 GiB " = Some 3221225472.
Proof.
  apply (parse_size_exact 3 (2 ^ 30) "GiB" [" "; " "] [" "] [" "]).
  - lia.
  - reflexivity.
  - reflexivity.
  - right. exists 30. lia.
  - repeat constructor; apply bool_decide_eq_true; vm_compute; reflexivity.
  - repeat constructor; apply bool_decide_eq_true; vm_compute; reflexivity.
  - repeat constructor; apply bool_decide_eq_true; vm_compute; reflexivity.
  - done.
Defined.

Definition capped : Template := mkTemplate "alpine" None (Some "50 MiB") None [] [] None.
Lemma template_rate_witness : from_env (vm_envs parse_size ∅ (Some capped) !! "AMBER_DISK_BPS") 7 = Some (new 52428800 7).
Proof. apply (proj1 (template_rate ∅ capped 7) "50 MiB" 52428800); [reflexivity|vm_compute; reflexivity|reflexivity]. Defined.
