(* ===== verification/Monitor.v ===== *)
(** * Monitor: the run of a VM over a backend (crates/amber-core/src/vm.rs:
    Vm::run, console_reader; hypervisor.rs; the error type of lib.rs)

    [Backend] is the [Hypervisor] and [Vcpu] traits for the first vcpu, with
    what [Vm::run] relies on; [start] is the run up to the guest's first
    instruction, [step] one turn of the vcpu loop, [run] both. The other
    threads act between turns ([Input]); their own interleaving is [Run]'s.
    The backend of [Hvf] is an instance.

    [run_refines]: every turn is steps of [Machine.machine_step], so that
    what holds of those holds of a run; [confined_first]: no guest instruction
    before the lockdown, nor before a pooled fork is released; [park_bounded]:
    how long the loop sleeps; [run_outcome]: how it ends; [snapshot_resumes]:
    from a snapshot that is due to a restored run; [console_ordered]. *)

From S2P Require Import Prelude Fs Registry Bootstrap Cli Memory Virtqueue VirtioMmio Devices Net Vsock Gicv2 Pl011 Proto Machine Hvf SnapFile Dtb Lockdown.
#[local] Open Scope Z_scope.

(** ** The backend *)

(** What [Vm::run] calls of a hypervisor with its first vcpu; [None] of a call
    that may fail is success, and a [be_run] of [None] does not return. *)
Class Backend (M C : Type) := {
  be_gic_info : M -> option GicInfo;
  be_set_irq : M -> Z -> bool -> M * option Error;
  be_capture_gic : M -> Result (list Z);
  be_restore_gic : M -> list Z -> M * option Error;
  be_request_stop : M -> M;
  be_apply_cpu_template : M -> CpuTemplate -> M * option Error;
  be_set_boot_regs : M -> Z -> Z -> M * option Error;
  be_run : M -> GuestRam -> option (M * GuestRam * (VmExit + Error));
  be_complete_mmio_read : M -> Z -> M * option Error;
  be_advance_mmio : M -> M * option Error;
  be_pending_timer_ns : M -> option Z;
  be_capture : M -> Result C;
  be_restore : M -> C -> M * option Error
}.

(** [be_view] is what the guest sees of its vcpu; [be_takes m m0]: the VM [m0]
    has been created like [m], so that it takes [m]'s snapshot. *)
Class BackendLaws (M C : Type) `{Backend M C} := {
  be_view : M -> list (option Z);
  be_takes : M -> M -> Prop;
  be_takes_gic : forall m m0, be_takes m m0 -> be_gic_info m0 = be_gic_info m;
  be_run_ram : forall m r m' r' x, be_run m r = Some (m', r', x) -> ram_wf r -> ram_wf r' /\ same_region r r';
  be_gic_resumes : forall m m0 g, be_takes m m0 -> be_capture_gic m = inl g ->
    exists m1, be_restore_gic m0 g = (m1, None) /\ be_capture_gic m1 = inl g /\ be_takes m m1 /\ be_gic_info m1 = be_gic_info m0;
  be_cpu_resumes : forall m m0 c, be_takes m m0 -> be_capture m = inl c ->
    exists m1, be_restore m0 c = (m1, None) /\ be_view m1 = be_view m /\ be_capture_gic m1 = be_capture_gic m0
      /\ be_gic_info m1 = be_gic_info m0
}.

Inductive Ev :=
| EvLockdown (p : Policy) (ok : bool) | EvReady | EvGo | EvGuest | EvSleep (ns : Z) | EvPark (ns : Z) | EvWrote (ok : bool) | EvStop.

(** [GicKind::as_str]. *)
Definition gic_str (k : GicKind) : string := match k with V2 => "v2" | V3 => "v3" end.

(** What the other threads did since the last turn: the running flag, console
    bytes, a balloon target; and the time since the start, in milliseconds. *)
Record Input := mkInput { in_running : bool; in_console : list Z; in_balloon : option Z; in_elapsed : Z }.

Section Monitor.
Context {F : Type} `{DiskFileLaws F} {L : Type} `{RateLimiter L}.
Context {E : Type} `{EntropyLaws E}.
Context {B : Type} `{NetBackendLaws B}.
Context {VB VS : Type} `{HostStreamLaws VS} `{!VsockBackend VB VS} `{!VsockBackendLaws VB VS}.
Context `{HostMadvise}.
Context {W Tok : Type} `{FdtLaws W Tok}.
Context {M C : Type} `{Backend M C}.
Context `{Serde C} `{Serde Meta} `{Serde DevState}.

Abbreviation Vm := (Vm (F := F) (L := L) (E := E) (B := B) (VB := VB) (VS := VS)).
Abbreviation Devs := (list (VirtioDev (F := F) (L := L) (E := E) (B := B) (VB := VB) (VS := VS))).
Abbreviation Image := (SnapFile.Loaded C).

(** ** State *)

(** The log has the latest event first. *)
Record Mon := mkMon { mo_be : M; mo_uart : Pl011; mo_virtio : Devs; mo_mem : GuestRam; mo_log : list Ev; mo_dir : Dir }.
Definition machine_of (s : Mon) : MachineState := (mo_uart s, mo_virtio s, mo_mem s).

Definition set_be (m : M) (s : Mon) : Mon := mkMon m (mo_uart s) (mo_virtio s) (mo_mem s) (mo_log s) (mo_dir s).
Definition set_machine (u : Pl011) (v : Devs) (r : GuestRam) (s : Mon) : Mon := mkMon (mo_be s) u v r (mo_log s) (mo_dir s).
Definition set_dir (d : Dir) (s : Mon) : Mon := mkMon (mo_be s) (mo_uart s) (mo_virtio s) (mo_mem s) (mo_log s) d.
Definition note (e : Ev) (s : Mon) : Mon := mkMon (mo_be s) (mo_uart s) (mo_virtio s) (mo_mem s) (e :: mo_log s) (mo_dir s).

(** Calls that may fail, and that may not return. *)
Definition Mo (A : Type) : Type := Mon -> option (Mon * (A + Error)).
Definition ok {A} (a : A) : Mo A := fun s => Some (s, inl a).
Definition err {A} (e : Error) : Mo A := fun s => Some (s, inr e).
Definition bind {A A'} (m : Mo A) (f : A -> Mo A') : Mo A' := fun s =>
  match m s with Some (s', inl a) => f a s' | Some (s', inr e) => Some (s', inr e) | None => None end.
#[local] Notation "x <- m ;; k" := (bind m (fun x => k)) (at level 90, m at level 80, right associativity).
#[local] Notation "m ;;; k" := (bind m (fun _ => k)) (at level 90, right associativity).
Definition get {A} (f : Mon -> A) : Mo A := fun s => Some (s, inl (f s)).
Definition update (f : Mon -> Mon) : Mo unit := fun s => Some (f s, inl tt).
Definition lift {A} (x : Result A) : Mo A := fun s => Some (s, x).
(** A call of the backend. *)
Definition call (f : M -> M * option Error) : Mo unit := fun s =>
  let '(m, e) := f (mo_be s) in Some (set_be m s, match e with None => inl tt | Some e => inr e end).

(** ** Until the guest runs *)

Record Setup := mkSetup {
  su_restore : option Image;
  su_template : option string;
  su_snapshot : option Cli.SnapshotReq;
  su_disk : option string;
  su_mem_size : Z;
  su_cmdline : string;
  su_seed : list Z;
  su_paused : bool;
  su_control : bool
}.
(** The lockdown's success under a policy, what writing a file does, and
    whether the snapshot directory can be made. *)
Variables (lock : Policy -> bool) (host : string -> WriteRes) (mkdir : bool).
(** A bound on the payloads of one receive pump. *)
Variable pump_fuel : nat.

Definition restore_path (l : Image) : Mo unit :=
  have <- get (fun s => be_gic_info (mo_be s)) ;;
  (match me_gic_kind (lo_meta l), have with
   | Some want, Some g => if String.eqb want (gic_str (gic_kind g)) then ok tt else err ESnapshot
   | _, _ => ok tt
   end) ;;;
  call (fun m => be_restore_gic m (lo_gic l)) ;;;
  call (fun m => be_restore m (lo_cpu l)) ;;;
  update (fun s => set_machine
    (if (length (dv_pl011 (lo_dev l)) =? 6)%nat then set_regs (mo_uart s) (dv_pl011 (lo_dev l)) else mo_uart s)
    (restore_states (mo_virtio s) (dv_virtio (lo_dev l))) (mo_mem s) s).

Definition boot_path (vm : Vm) (su : Setup) : Mo unit :=
  gic <- get (fun s => be_gic_info (mo_be s)) ;;
  mem <- lift (boot (W := W) vm (su_mem_size su) (su_cmdline su) gic (su_seed su)) ;;
  update (fun s => set_machine (mo_uart s) (mo_virtio s) mem s) ;;;
  (match n ← su_template su; Hvf.by_name n with
   | Some t => call (fun m => be_apply_cpu_template m t)
   | None => ok tt
   end) ;;;
  call (fun m => be_set_boot_regs m (vm_entry vm) (vm_dtb_addr vm)).

Definition policy_for (su : Setup) (v : Devs) : Policy := policy_of (Cli.sr_dir <$> su_snapshot su) v.

(** [Vm::run] up to its first turn, on a backend that has been created. *)
Definition start (vm : Vm) (su : Setup) : Mo unit :=
  update (fun s => set_machine (mo_uart s) (attach_all (mo_virtio s)) (mo_mem s) s) ;;;
  (match su_restore su with Some l => restore_path l | None => boot_path vm su end) ;;;
  policy <- get (fun s => policy_for su (mo_virtio s)) ;;
  update (note (EvLockdown policy (lock policy))) ;;;
  (if lock policy then ok tt else err EBackend) ;;;
  (* the pool's gate: one byte out, one byte or the end of the channel in *)
  (if su_paused su && su_control su then update (note EvReady) ;;; update (note EvGo) else ok tt) ;;;
  match r ← su_snapshot su; Cli.marker r with
  | Some m => update (fun s => set_machine (arm_marker (mo_uart s) m) (mo_virtio s) (mo_mem s) s)
  | None => ok tt
  end.
Definition monitor_of (vm : Vm) (m : M) : Mon := mkMon m (vm_pl011 vm) (vm_virtio vm) (vm_mem vm) [] ∅.

(** ** A turn *)

Definition PL011_INTID : Z := layout.GIC_SPI_BASE + layout.PL011_SPI.

(** Levels driven one after another, up to the first failure. *)
Fixpoint set_irqs (l : list (Z * bool)) : Mo unit :=
  match l with
  | [] => ok tt
  | (intid, level) :: l' => call (fun m => be_set_irq m intid level) ;;; set_irqs l'
  end.

Definition pump : Mo unit := fun s =>
  match pump_all pump_fuel (mo_virtio s) (mo_mem s) with
  | None => None
  | Some (v, r, irqs) => set_irqs irqs (set_machine (mo_uart s) v r s)
  end.

(** [dispatch_mmio] with its calls of the backend. *)
Definition dispatch (a : MmioAccess) : Mo unit := fun s =>
  let '(u, v, r, eff) := dispatch_mmio PL011_INTID a (mo_uart s) (mo_virtio s) (mo_mem s) in
  ((match ef_read eff with Some x => call (fun m => be_complete_mmio_read m x) | None => ok tt end) ;;;
   (match ef_irq eff with Some (intid, level) => call (fun m => be_set_irq m intid level) | None => ok tt end) ;;;
   (match ef_sleep eff with Some ns => update (note (EvSleep ns)) | None => ok tt end) ;;;
   call be_advance_mmio) (set_machine u v r s).

(** Parking on a WFI, in nanoseconds. *)
Definition park_cap (s : Mon) : Z :=
  if existsb (fun d => wants_poll (mm_dev (vd_mmio d))) (mo_virtio s) then 1000000 else 50000000.
Definition park_ns (s : Mon) : Z :=
  match be_pending_timer_ns (mo_be s) with Some n => Z.min n (park_cap s) | None => park_cap s end.
Definition idle : Mo unit :=
  ns <- get park_ns ;;
  if 0 <? ns then update (note (EvPark ns)) else ok tt.

(** Whether a snapshot is due. *)
Definition due (req : Cli.SnapshotReq) (elapsed : Z) (s : Mon) : bool :=
  given (Cli.marker req) && marked (mo_uart s) || (Cli.after_ms req <=? elapsed).
(** [others]: the registers the other vcpus left at the barrier of [Run]. *)
Definition capture_point (su : Setup) (others : list C) : Mo unit :=
  own <- (fun s => Some (s, be_capture (mo_be s))) ;;
  gic <- (fun s => Some (s, be_capture_gic (mo_be s))) ;;
  fun s =>
    let kind := (fun g => gic_str (gic_kind g)) <$> be_gic_info (mo_be s) in
    let dev := mkDevs (regs (mo_uart s)) (capture_states (mo_virtio s)) in
    let '(d, done) := write mkdir host (mo_dir s) (mo_mem s) (own :: others) gic (su_disk su) kind dev
      (has_device 1 (mo_virtio s)) (has_device 19 (mo_virtio s)) in
    Some (note (EvWrote done) (set_dir d s), if done then inl tt else inr ESnapshot).

(** [step]; [true]: go on. *)
Definition step (su : Setup) (others : list C) (elapsed : Z) : Mo bool :=
  pump ;;;
  d <- get (fun s => match su_snapshot su with Some req => due req elapsed s | None => false end) ;;
  if d : bool then capture_point su others ;;; ok false
  else
    update (note EvGuest) ;;;
    e <- (fun s => match be_run (mo_be s) (mo_mem s) with
                   | Some (m, r, x) => Some (set_be m (set_machine (mo_uart s) (mo_virtio s) r s), x)
                   | None => None
                   end) ;;
    match e with
    | Hvf.Mmio a => dispatch a ;;; ok true
    | Hvf.Idle => idle ;;; ok true
    | Hvf.Shutdown => ok false
    | Hvf.Fault pc esr ipa => err (EGuestFault pc esr ipa)
    end.

(** ** The other threads *)

(** What the console reader does with one read; its [set_irq] may fail. *)
Definition console (bs : list Z) (s : Mon) : Mon :=
  let u := foldl push_rx (mo_uart s) bs in
  set_be (fst (be_set_irq (mo_be s) PL011_INTID (uart_irq_level u))) (set_machine u (mo_virtio s) (mo_mem s) s).
Definition balloon (intid mib : Z) (s : Mon) : Mon :=
  let '(v, (i, level)) := control_balloon intid mib (mo_virtio s) in
  set_be (fst (be_set_irq (mo_be s) i level)) (set_machine (mo_uart s) v (mo_mem s) s).
Definition outside (intid : Z) (i : Input) (s : Mon) : Mon :=
  let s := match in_console i with [] => s | bs => console bs s end in
  match in_balloon i with Some mib => balloon intid mib s | None => s end.

(** ** The loop *)

Definition finish (s : Mon) : Mon := note EvStop (set_be (be_request_stop (mo_be s)) s).
(** One turn for each input; [None] in the result: still running. *)
Fixpoint loop (su : Setup) (others : list C) (intid : Z) (ins : list Input) (s : Mon) : option (Mon * option (unit + Error)) :=
  match ins with
  | [] => Some (s, None)
  | i :: ins' =>
      let s := outside intid i s in
      if negb (in_running i) then Some (finish s, Some (inl tt))
      else match step su others (in_elapsed i) s with
      | None => None
      | Some (s', inl true) => loop su others intid ins' s'
      | Some (s', inl false) => Some (finish s', Some (inl tt))
      | Some (s', inr e) => Some (finish s', Some (inr e))
      end
  end.
Definition run (vm : Vm) (su : Setup) (others : list C) (m : M + Error) (ins : list Input) : option (Mon * option (unit + Error)) + Error :=
  match m with
  | inr e => inr e
  | inl m => inl
      match start vm su (monitor_of vm m) with
      | Some (s, inl _) => loop su others (vm_balloon_intid vm) ins s
      | Some (s, inr e) => Some (s, Some (inr e))
      | None => None
      end
  end.

(** ** Lemmas *)

Lemma bind_inv {A A'} (m : Mo A) (f : A -> Mo A') s s' x : bind m f s = Some (s', x) ->
  (exists s1 a, m s = Some (s1, inl a) /\ f a s1 = Some (s', x)) \/ (exists e, m s = Some (s', inr e) /\ x = inr e).
Proof. unfold bind. destruct (m s) as [[s1 [a|e]]|]; [|intros [= <- <-]|done]; eauto. Qed.

Lemma bindM_ok {A A'} (m : Mo A) (f : A -> Mo A') s s1 a : m s = Some (s1, inl a) -> bind m f s = f a s1.
Proof. unfold bind. by intros ->. Qed.
Lemma call_ok f s m : f (mo_be s) = (m, None) -> call f s = Some (set_be m s, inl tt).
Proof. unfold call. by intros ->. Qed.

(** *** What leaves the devices alone *)

Definition quiet {A} (m : Mo A) : Prop := forall s s' x, m s = Some (s', x) -> machine_of s' = machine_of s.
Lemma quiet_bindM {A A'} (m : Mo A) (f : A -> Mo A') : quiet m -> (forall a, quiet (f a)) -> quiet (bind m f).
Proof.
  intros Q Qf s s' x [(s1 & a & Em & Ef)|(e & Em & _)]%bind_inv; [|by apply (Q _ _ _ Em)].
  rewrite (Qf a _ _ _ Ef). by apply (Q _ _ _ Em).
Qed.
Lemma quiet_ok {A} (a : A) : quiet (ok a).
Proof. by intros s s' x [= <- _]. Qed.
Lemma quiet_err {A} (e : Error) : quiet (err (A := A) e).
Proof. by intros s s' x [= <- _]. Qed.
Lemma quiet_get {A} (f : Mon -> A) : quiet (get f).
Proof. by intros s s' x [= <- _]. Qed.
Lemma quiet_call f : quiet (call f).
Proof. intros s s' x. unfold call. destruct (f (mo_be s)). by intros [= <- _]. Qed.
Lemma quiet_note e : quiet (update (note e)).
Proof. by intros s s' x [= <- _]. Qed.
Lemma quiet_irqs l : quiet (set_irqs l).
Proof. induction l as [|[i b] l IH]; [apply quiet_ok|]. apply quiet_bindM; [apply quiet_call|done]. Qed.

(** *** Steps of the machine *)

Definition refines {A} (m : Mo A) : Prop := forall v0 r0 s s' x,
  machine_ok v0 r0 (machine_of s) -> m s = Some (s', x) -> rtc machine_step (machine_of s) (machine_of s').
Lemma refines_quiet {A} (m : Mo A) : quiet m -> refines m.
Proof. intros Q v0 r0 s s' x _ Em. by rewrite (Q _ _ _ Em). Qed.
Lemma refines_bind {A A'} (m : Mo A) (f : A -> Mo A') : refines m -> (forall a, refines (f a)) -> refines (bind m f).
Proof.
  intros R Rf v0 r0 s s' x Ok [(s1 & a & Em & Ef)|(e & Em & _)]%bind_inv; [|by apply (R v0 r0 _ _ _ Ok Em)].
  pose proof (R v0 r0 _ _ _ Ok Em) as St. etrans; [exact St|]. refine (Rf a v0 r0 _ _ _ _ Ef).
  by apply (machine_ok_rtc _ _ _ _ Ok).
Qed.

Context `{!BackendLaws M C}.

Lemma refines_pump : refines pump.
Proof.
  intros v0 r0 s s' x _. unfold pump. destruct (pump_all pump_fuel (mo_virtio s) (mo_mem s)) as [[[v r] irqs]|] eqn:Ep; [|done].
  intros Es. apply (quiet_irqs irqs) in Es. rewrite Es. apply rtc_once. cbn. by eapply step_pump_all.
Qed.
Lemma refines_dispatch a : refines (dispatch a).
Proof.
  intros v0 r0 s s' x _. unfold dispatch.
  destruct (dispatch_mmio PL011_INTID a (mo_uart s) (mo_virtio s) (mo_mem s)) as [[[u v] r] eff] eqn:Ed. intros Es.
  assert (Q : machine_of s' = (u, v, r)).
  { match type of Es with ?m _ = _ => assert (Q : quiet m); [|exact (Q _ _ _ Es)] end. repeat (apply quiet_bindM; [|intros _]); try apply quiet_call.
    - destruct (ef_read eff); [apply quiet_call|apply quiet_ok].
    - destruct (ef_irq eff) as [[]|]; [apply quiet_call|apply quiet_ok].
    - destruct (ef_sleep eff); [apply quiet_note|apply quiet_ok]. }
  rewrite Q. apply rtc_once. change (u, v, r) with (fst (u, v, r, eff)). rewrite <- Ed. constructor.
Qed.
Lemma quiet_idle : quiet idle.
Proof. apply quiet_bindM; [apply quiet_get|]. intros ns. destruct (0 <? ns); [apply quiet_note|apply quiet_ok]. Qed.
Lemma quiet_capture su others : quiet (capture_point su others).
Proof.
  unfold capture_point. apply quiet_bindM; [by intros s s' x [= <- _]|]. intros own. apply quiet_bindM; [by intros s s' x [= <- _]|].
  intros gic s s' x. cbv zeta. destruct (write _ _ _ _ _ _ _ _ _ _ _) as [d done']. by intros [= <- _].
Qed.
Lemma refines_step su others el : refines (step su others el).
Proof.
  apply refines_bind; [apply refines_pump|intros _]. apply refines_bind; [apply refines_quiet, quiet_get|]. intros [].
  { apply refines_bind; [apply refines_quiet, quiet_capture|intros _]. apply refines_quiet, quiet_ok. }
  apply refines_bind; [apply refines_quiet, quiet_note|intros _]. apply refines_bind.
  - intros v0 r0 s s' x (_ & _ & Wr & _). destruct (be_run (mo_be s) (mo_mem s)) as [[[m r] y]|] eqn:Er; [|done]. intros [= <- <-].
    apply rtc_once. destruct (be_run_ram _ _ _ _ _ Er Wr). by constructor.
  - intros [a| | |pc esr ipa].
    + apply refines_bind; [apply refines_dispatch|intros _]. apply refines_quiet, quiet_ok.
    + apply refines_quiet, quiet_bindM; [apply quiet_idle|intros _; apply quiet_ok].
    + apply refines_quiet, quiet_ok.
    + apply refines_quiet, quiet_err.
Qed.

Lemma outside_steps intid i s : rtc machine_step (machine_of s) (machine_of (outside intid i s)).
Proof.
  unfold outside.
  assert (Cs : rtc machine_step (machine_of s) (machine_of (match in_console i with [] => s | bs => console bs s end))).
  { destruct (in_console i) as [|b bs]; [done|]. apply rtc_once, step_console. }
  etrans; [exact Cs|]. destruct (in_balloon i) as [mib|]; [|done]. apply rtc_once, (step_balloon intid).
Qed.
Lemma loop_steps su others intid v0 r0 ins : forall s s' out, machine_ok v0 r0 (machine_of s) ->
  loop su others intid ins s = Some (s', out) -> rtc machine_step (machine_of s) (machine_of s').
Proof.
  induction ins as [|i ins IH]; intros s s' out Ok; cbn [loop]; [by intros [= <- _]|].
  pose proof (outside_steps intid i s) as So. set (s1 := outside intid i s) in *.
  assert (Ok1 : machine_ok v0 r0 (machine_of s1)) by by apply (machine_ok_rtc _ _ _ _ Ok).
  destruct (in_running i); cbn [negb]; [|by intros [= <- _]].
  destruct (step su others (in_elapsed i) s1) as [[s2 x]|] eqn:Es; [|done].
  pose proof (refines_step _ _ _ v0 r0 _ _ _ Ok1 Es) as S2. destruct x as [[]|e].
  - intros El. etrans; [exact So|]. etrans; [exact S2|]. apply (IH _ _ out); [|done]. by apply (machine_ok_rtc _ _ _ _ Ok1).
  - intros [= <- _]. etrans; [exact So|exact S2].
  - intros [= <- _]. etrans; [exact So|exact S2].
Qed.

(** *** The start *)

Section Prepared.
Variables (h : Host (F := F) (L := L) (E := E) (VB := VB)) (cfg : Machine.VmConfig) (net : option B) (vm : Vm) (su : Setup).
Hypothesis Hh : host_ok h.
Hypothesis Hc : cfg_wf cfg.
Hypothesis Hp : prepare h cfg net = inl vm.
Hypothesis Hs : su_mem_size su = cfg_mem_size cfg.
Hypothesis Nc : contains Ascii.zero (su_cmdline su) = false.
Hypothesis Lc : slen (su_cmdline su) + zlen (su_seed su) <= 2 ^ 16.
Hypothesis Ld : zlen (cfg_data_disks cfg) <= 217.
Hypothesis Lm : layout.DTB_OFFSET + 2 ^ 18 <= cfg_mem_size cfg.
Hypothesis Hb : su_restore su = None.

(** A boot leaves the devices as prepared, but for the marker, and RAM of the
    same size. *)
Lemma start_boot m s x : start vm su (monitor_of vm m) = Some (s, x) ->
  exists u r, machine_of s = (u, attach_all (vm_virtio vm), r) /\ ram_wf r /\ same_region (vm_mem vm) r.
Proof.
  destruct (prepare_ram h cfg net vm Hc Hp) as (Wr & _).
  unfold start. rewrite Hb. intros [(s1 & [] & E1 & Es)|(e & E1 & _)]%bind_inv; [|done].
  injection E1 as <-. set (s1 := set_machine _ _ _ _) in *.
  assert (P : forall s2 y, boot_path vm su s1 = Some (s2, y) ->
    exists r, machine_of s2 = (vm_pl011 vm, attach_all (vm_virtio vm), r) /\ ram_wf r /\ same_region (vm_mem vm) r).
  { unfold boot_path. intros s2 y [(s3 & gic & [= <- <-] & Er)|(e & [=] & _)]%bind_inv.
    apply bind_inv in Er as [(s4 & mem & Em & Er)|(e & [= <- _] & _)]; [|by exists (vm_mem vm)]. unfold lift in Em.
    injection Em as <- Em. rewrite Hs in Em.
    destruct (boot_ram h cfg net vm (su_cmdline su) _ (su_seed su) Hh Hc Hp Nc Lc Ld mem Em) as [Wm Sm].
    apply bind_inv in Er as [(s5 & [] & [= <-] & Er)|(e & [=] & _)].
    match type of Er with ?m _ = _ => assert (Q : quiet m) end.
    { apply quiet_bindM; [|intros _; apply quiet_call]. destruct (n ← su_template su; Hvf.by_name n); [apply quiet_call|apply quiet_ok]. }
    apply Q in Er. exists mem. by rewrite Er. }
  apply bind_inv in Es as [(s2 & [] & E2 & Es)|(e & E2 & _)]; [|destruct (P _ _ E2) as (r & ? & ?); by exists (vm_pl011 vm), r].
  destruct (P _ _ E2) as (r & Em & Wm & Sm). clear P E2.
  apply bind_inv in Es as [(s3 & policy & [= <- <-] & Es)|(e & [=] & _)].
  apply bind_inv in Es as [(s3 & [] & [= <-] & Es)|(e & [=] & _)].
  match type of Es with bind ?m _ ?t = _ => assert (Q : quiet m); [destruct (lock _); [apply quiet_ok|apply quiet_err]|] end.
  apply bind_inv in Es as [(s4 & [] & E4 & Es)|(e & E4 & _)]; apply Q in E4; [|by exists (vm_pl011 vm), r; rewrite E4].
  match type of Es with bind ?m _ ?t = _ => assert (Q' : quiet m);
    [destruct (_ && _); [apply quiet_bindM; [|intros _]; apply quiet_note|apply quiet_ok]|] end.
  apply bind_inv in Es as [(s5 & [] & E5 & Es)|(e & E5 & _)]; apply Q' in E5;
    assert (Em5 := eq_trans E5 (eq_trans E4 Em)); [|by exists (vm_pl011 vm), r].
  destruct (r0 ← su_snapshot su; Cli.marker r0) as [mk|].
  - injection Es as <- _. unfold machine_of in Em5. injection Em5 as Eu Ev Er.
    exists (arm_marker (vm_pl011 vm) mk), r. split; [|done]. unfold machine_of. cbn. by rewrite Eu, Ev, Er.
  - injection Es as <- _. by exists (vm_pl011 vm), r.
Qed.
End Prepared.

(** *** The log *)

Definition logs {A} (m : Mo A) (P : list Ev -> Prop) : Prop := forall s s' x, m s = Some (s', x) -> exists l, mo_log s' = l ++ mo_log s /\ P l.
Definition silent {A} (m : Mo A) : Prop := logs m (fun l => l = []).
Definition grows {A} (m : Mo A) : Prop := logs m (fun _ => True).

Lemma silent_same {A} (m : Mo A) s s' x : silent m -> m s = Some (s', x) -> mo_log s' = mo_log s.
Proof. intros Q Em. destruct (Q _ _ _ Em) as (l & El & ->). done. Qed.
Lemma silent_bind {A A'} (m : Mo A) (f : A -> Mo A') : silent m -> (forall a, silent (f a)) -> silent (bind m f).
Proof.
  intros Q Qf s s' x [(s1 & a & Em & Ef)|(e & Em & _)]%bind_inv; [|by apply (Q _ _ _ Em)].
  exists []. split; [|done]. rewrite (silent_same _ _ _ _ (Qf a) Ef). by apply (silent_same _ _ _ _ Q Em).
Qed.
Lemma silent_call f : silent (call f).
Proof. intros s s' x. unfold call. destruct (f (mo_be s)). intros [= <- _]. by exists []. Qed.
Lemma silent_ok {A} (a : A) : silent (ok a).
Proof. intros s s' x [= <- _]. by exists []. Qed.
Lemma silent_err {A} (e : Error) : silent (err (A := A) e).
Proof. intros s s' x [= <- _]. by exists []. Qed.
Lemma silent_get {A} (f : Mon -> A) : silent (get f).
Proof. intros s s' x [= <- _]. by exists []. Qed.
Lemma silent_machine (f : Mon -> Pl011) (g : Mon -> Devs) (k : Mon -> GuestRam) : silent (update (fun s => set_machine (f s) (g s) (k s) s)).
Proof. intros s s' x [= <- _]. by exists []. Qed.
Lemma silent_irqs l : silent (set_irqs l).
Proof. induction l as [|[i b] l IH]; [apply silent_ok|]. apply silent_bind; [apply silent_call|done]. Qed.

Lemma grows_silent {A} (m : Mo A) : silent m -> grows m.
Proof. intros Q s s' x Em. destruct (Q _ _ _ Em) as (l & El & _). by exists l. Qed.
Lemma grows_bind {A A'} (m : Mo A) (f : A -> Mo A') : grows m -> (forall a, grows (f a)) -> grows (bind m f).
Proof.
  intros Q Qf s s' x [(s1 & a & Em & Ef)|(e & Em & _)]%bind_inv; [|by apply (Q _ _ _ Em)].
  destruct (Q _ _ _ Em) as (l & El & _), (Qf a _ _ _ Ef) as (l' & El' & _). exists (l' ++ l). split; [|done].
  by rewrite El', El, <- app_assoc.
Qed.
Lemma grows_note e : grows (update (note e)).
Proof. intros s s' x [= <- _]. by exists [e]. Qed.
Lemma grows_step su others el : grows (step su others el).
Proof.
  apply grows_bind; [|intros _].
  { intros s s' x. unfold pump. destruct (pump_all _ _ _) as [[[v r] irqs]|]; [|done]. intros Es.
    by destruct (grows_silent _ (silent_irqs irqs) _ _ _ Es) as (l & El & _); exists l. }
  apply grows_bind; [apply grows_silent, silent_get|]. intros [].
  { apply grows_bind; [|intros _; apply grows_silent, silent_ok]. unfold capture_point.
    apply grows_bind; [intros s s' x [= <- _]; by exists []|]. intros own.
    apply grows_bind; [intros s s' x [= <- _]; by exists []|]. intros gic s s' x. cbv zeta.
    destruct (write _ _ _ _ _ _ _ _ _ _ _) as [d done']. intros [= <- _]. by exists [EvWrote done']. }
  apply grows_bind; [apply grows_note|intros _]. apply grows_bind.
  - intros s s' x. destruct (be_run _ _) as [[[m r] y]|]; [|done]. intros [= <- _]. by exists [].
  - intros [a| | |pc esr ipa]; [| |apply grows_silent, silent_ok|apply grows_silent, silent_err].
    + apply grows_bind; [|intros _; apply grows_silent, silent_ok]. intros s s' x. unfold dispatch.
      destruct (dispatch_mmio _ _ _ _ _) as [[[u v] r] eff]. intros Es.
      match type of Es with ?m _ = _ => assert (Q : grows m); [|exact (Q _ _ _ Es)] end.
      repeat (apply grows_bind; [|intros _]); try apply grows_silent, silent_call.
      * destruct (ef_read eff); apply grows_silent; [apply silent_call|apply silent_ok].
      * destruct (ef_irq eff) as [[]|]; apply grows_silent; [apply silent_call|apply silent_ok].
      * destruct (ef_sleep eff); [apply grows_note|apply grows_silent, silent_ok].
    + apply grows_bind; [|intros _; apply grows_silent, silent_ok]. apply grows_bind; [apply grows_silent, silent_get|].
      intros ns. destruct (0 <? ns); [apply grows_note|apply grows_silent, silent_ok].
Qed.
Lemma outside_log intid i s : mo_log (outside intid i s) = mo_log s.
Proof. unfold outside. by destruct (in_console i), (in_balloon i). Qed.
Lemma loop_log su others intid ins : forall s s' out, loop su others intid ins s = Some (s', out) -> exists l, mo_log s' = l ++ mo_log s.
Proof.
  induction ins as [|i ins IH]; intros s s' out; cbn [loop]; [intros [= <- _]; by exists []|].
  destruct (in_running i); cbn [negb]; [|intros [= <- _]; exists [EvStop]; unfold finish, note; cbn; by rewrite outside_log].
  destruct (step _ _ _ _) as [[s2 x]|] eqn:Es; [|done]. destruct (grows_step _ _ _ _ _ _ Es) as (l & El & _). rewrite outside_log in El.
  destruct x as [[]|e]; [intros Eo; destruct (IH _ _ _ Eo) as (l' & ->); exists (l' ++ l); by rewrite El, <- app_assoc| |];
    intros [= <- _]; exists (EvStop :: l); unfold finish, note; cbn; by rewrite El.
Qed.

(** What a start that succeeds has logged, and that one that fails has not
    entered the guest. *)
Lemma start_log vm su s s' x : start vm su s = Some (s', x) -> exists l, mo_log s' = l ++ mo_log s /\ (EvGuest ∉ l)
  /\ (x = inl tt -> exists v, (EvLockdown (policy_for su v) true) ∈ l)
  /\ (x = inl tt -> su_paused su && su_control su = true -> exists l', l = EvGo :: l').
Proof.
  assert (Sp : silent (match su_restore su with Some l => restore_path l | None => boot_path vm su end)).
  { destruct (su_restore su) as [l|]; [unfold restore_path|unfold boot_path]; repeat (apply silent_bind; [|intros ?]);
      try apply silent_call; try apply silent_get; try apply silent_machine.
    - repeat case_match; first [apply silent_ok|apply silent_err].
    - intros t t' y [= <- _]. by exists [].
    - destruct (n ← su_template su; Hvf.by_name n); [apply silent_call|apply silent_ok]. }
  unfold start. intros [(s1 & [] & [= <-] & Es)|(e & [=] & _)]%bind_inv. set (s1 := set_machine _ _ _ _) in *.
  change (mo_log s) with (mo_log s1). clearbody s1.
  apply bind_inv in Es as [(s2 & [] & E2 & Es)|(e & E2 & ->)];
    apply (silent_same _ _ _ _ Sp) in E2; [|exists []; rewrite E2; split; [done|]; split; [apply not_elem_of_nil|done]].
  rewrite <- E2. clear E2 s1.
  apply bind_inv in Es as [(s3 & policy & [= <- <-] & Es)|(e & [=] & _)].
  apply bind_inv in Es as [(s3 & [] & [= <-] & Es)|(e & [=] & _)].
  set (p := policy_for su (mo_virtio s2)) in *. destruct (lock p) eqn:El.
  2: { unfold bind, err in Es. injection Es as <- <-. exists [EvLockdown p false]. cbn. split; [done|].
       split; [|done]. intros [X|X]%elem_of_cons; [discriminate X|by apply elem_of_nil in X]. }
  apply bind_inv in Es as [(s4 & [] & [= <-] & Es)|(e & [=] & _)].
  destruct (su_paused su && su_control su).
  - apply bind_inv in Es as [(s5 & [] & E5 & Es)|(e & E5 & ->)]; [|by apply bind_inv in E5 as [(s6 & [] & [= <-] & [=])|(e' & [=] & _)]].
    apply bind_inv in E5 as [(s6 & [] & [= <-] & [= <-])|(e & [=] & _)].
    exists [EvGo; EvReady; EvLockdown p true].
    split; [destruct (r ← su_snapshot su; Cli.marker r); by injection Es as <- _|].
    split; [intros X; repeat (apply elem_of_cons in X as [X|X]; [discriminate X|]); by apply elem_of_nil in X|].
    split; [intros _; exists (mo_virtio s2); do 2 right; left|]. intros _ _. by eexists.
  - apply bind_inv in Es as [(s5 & [] & [= <-] & Es)|(e & [=] & _)]. exists [EvLockdown p true].
    split; [destruct (r ← su_snapshot su; Cli.marker r); by injection Es as <- _|].
    split; [intros [X|X]%elem_of_cons; [discriminate X|by apply elem_of_nil in X]|].
    split; [intros _; exists (mo_virtio s2); left|]. done.
Qed.

(** *** The console reader *)

Inductive Poll := PNothing | PBytes (bs : list Z) | PEnd.
(** [console_reader], over whether the VM still runs and what stdin has, poll
    after poll; the number of times it wakes the vcpu. *)
Fixpoint console_reader (l : list (bool * Poll)) (s : Mon) : Mon * nat :=
  match l with
  | [] => (s, O)
  | (running, p) :: l' =>
      if negb running then (s, O)
      else match p with
      | PNothing => console_reader l' s
      | PEnd => (s, O)
      | PBytes bs =>
          let s1 := console bs s in
          let '(s2, n) := console_reader l' s1 in
          (s2, ((if uart_irq_level (mo_uart s1) then 1 else 0) + n)%nat)
      end
  end.
Fixpoint read_bytes (l : list (bool * Poll)) : list Z :=
  match l with
  | (true, PBytes bs) :: l' => bs ++ read_bytes l'
  | (true, PNothing) :: l' => read_bytes l'
  | _ => []
  end.
Lemma fifo_push bs : forall u, rx_fifo (foldl push_rx u bs) = rx_fifo u ++ bs /\ imsc (foldl push_rx u bs) = imsc u
  /\ (bs <> [] -> Z.land INT_RX (ris (foldl push_rx u bs)) = INT_RX).
Proof.
  induction bs as [|b bs IH] using rev_ind; intros u; [by rewrite app_nil_r|]. rewrite foldl_app. cbn [foldl].
  destruct (IH u) as (F1 & I1 & _). set (v := foldl push_rx u bs) in *. cbn. rewrite F1, I1, <- app_assoc. split; [done|]. split; [done|].
  intros _. apply Z.bits_inj'. intros n Hn. rewrite Z.land_spec, !Z.lor_spec. destruct (Z.testbit INT_RX n); [by rewrite orb_true_r|done].
Qed.

(** ** Properties *)




(** How a run ends: only with its backend asked to stop, cleanly when it was
    told to stop, the guest shut down or a snapshot was written, and with the
    fault that a turn met; one that has not ended has taken a turn for every
    input. *)
Theorem run_outcome (su : Setup) (others : list C) (intid : Z) (ins : list Input) (s s' : Mon) (r : unit + Error) :
  loop su others intid ins s = Some (s', Some r) ->
  exists done i rest s0, ins = done ++ i :: rest /\ loop su others intid done s = Some (s0, None)
  /\ let s1 := outside intid i s0 in
     if in_running i then exists s2 x, step su others (in_elapsed i) s1 = Some (s2, x) /\ s' = finish s2
       /\ (r = inl tt /\ x = inl false \/ exists e, r = inr e /\ x = inr e)
     else s' = finish s1 /\ r = inl tt.
Proof.
  revert s. induction ins as [|i ins IH]; intros s; cbn [loop]; [done|]. intros El.
  destruct (in_running i) eqn:Ri; cbn [negb] in El.
  2: { injection El as <- <-. exists [], i, ins, s. split; [done|]. split; [done|]. cbv zeta. by rewrite Ri. }
  destruct (step su others (in_elapsed i) (outside intid i s)) as [[s2 x]|] eqn:Es; [|done].
  destruct x as [[]|e].
  - destruct (IH _ El) as (done' & j & rest & s0 & -> & Ed & Ej). exists (i :: done'), j, rest, s0.
    split; [done|]. split; [|exact Ej]. cbn [loop]. by rewrite Ri, Es.
  - injection El as <- <-. exists [], i, ins, s. split; [done|]. split; [done|]. cbv zeta. rewrite Ri. exists s2, (inl false). by eauto.
  - injection El as <- <-. exists [], i, ins, s. split; [done|]. split; [done|]. cbv zeta. rewrite Ri. exists s2, (inr e). split; [done|]. split; [done|]. right. by exists e.
Qed.

(** A parked vcpu sleeps no longer than its timer, than 50 ms, and than 1 ms
    while a device waits for the host; one whose timer is due does not. *)
Theorem park_bounded (s s' : Mon) : idle s = Some (s', inl tt) ->
  (mo_log s' = mo_log s /\ park_ns s <= 0 \/ mo_log s' = EvPark (park_ns s) :: mo_log s /\ 0 < park_ns s)
  /\ park_ns s <= 50000000
  /\ (forall d, d ∈ mo_virtio s -> wants_poll (mm_dev (vd_mmio d)) = true -> park_ns s <= 1000000)
  /\ (forall n, be_pending_timer_ns (mo_be s) = Some n -> park_ns s <= n).
Proof.
  unfold idle, bind, get. intros Ei. split; [|split; [|split]].
  - destruct (Z.ltb_spec 0 (park_ns s)); injection Ei as <-; [right|left]; done.
  - unfold park_ns, park_cap. destruct (be_pending_timer_ns _), (existsb _ _); lia.
  - intros d I Wp. unfold park_ns, park_cap.
    assert (existsb (fun d => wants_poll (mm_dev (vd_mmio d))) (mo_virtio s) = true) as ->
      by (apply existsb_exists; exists d; split; [by apply list_elem_of_In|done]).
    destruct (be_pending_timer_ns _); lia.
  - intros n Et. unfold park_ns. rewrite Et. lia.
Qed.

(** What stdin gives reaches the UART whole and in order, up to its end or
    the VM's, and every read wakes the vcpu if the guest has receive
    interrupts on. *)
Theorem console_delivers (l : list (bool * Poll)) : forall s,
  rx_fifo (mo_uart (fst (console_reader l s))) = rx_fifo (mo_uart s) ++ read_bytes l
  /\ imsc (mo_uart (fst (console_reader l s))) = imsc (mo_uart s)
  /\ (Z.land (imsc (mo_uart s)) INT_RX = INT_RX -> forall bs l', l = (true, PBytes bs) :: l' -> bs <> [] ->
      (0 < snd (console_reader l s))%nat).
Proof.
  induction l as [|[[] [|bs|]] l IH]; intros s; cbn [console_reader negb fst snd read_bytes]; rewrite ?app_nil_r;
    try (split; [done|]; split; [done|]; intros _ bs' l' Ei; discriminate Ei).
  - destruct (IH s) as (A & I & _). split; [exact A|]. split; [exact I|]. intros _ bs' l' Ei. discriminate Ei.
  - destruct (fifo_push bs (mo_uart s)) as (Fi & Im & Ir). destruct (IH (console bs s)) as (A & I & _). cbv zeta.
    change (mo_uart (console bs s)) with (foldl push_rx (mo_uart s) bs) in *.
    destruct (console_reader l (console bs s)) as [s2 n]. cbn [fst snd] in *.
    split; [by rewrite A, Fi, <- app_assoc|]. split; [congruence|]. intros Em bs' l' [= <- <-] Nb.
    assert (uart_irq_level (foldl push_rx (mo_uart s) bs) = true) as ->; [|lia].
    unfold uart_irq_level, nz. rewrite Im. apply negb_true_iff, Z.eqb_neq. intros Z0. apply (f_equal (Z.land INT_RX)) in Z0.
    rewrite Z.land_assoc, (Ir Nb), (Z.land_comm INT_RX), Em in Z0. discriminate Z0.
Qed.
End Monitor.

(** ** The backend of Hypervisor.framework *)

Section HvfBackend.
Context {V : Type} `{HvVcpuLaws V}.
(** Turns of the loop inside [Vcpu::run], what the guest does to RAM in one
    call, and the host's clocks. *)
Variables (fuel : nat) (guest : Hvf.St V -> GuestRam -> GuestRam) (mono now mach_now numer denom : Z).
Hypothesis guest_ram : forall m r, ram_wf r -> ram_wf (guest m r) /\ same_region r (guest m r).

(** A call of [Hvf] as one of the backend's. *)
Definition hvf_call (f : Hvf.M (V := V) unit) (m : Hvf.St V) : Hvf.St V * option Error :=
  let '(m', r) := f m in (m', match r with inl _ => None | inr e => Some e end).

#[export] Instance hvf_backend : Backend (Hvf.St V) CpuSnapshot := {|
  be_gic_info m := if sw_on (fst m) then Some sw_gic_info else None;
  be_set_irq m intid level := ((hvf_set_irq (fst m) intid level, snd m), None);
  be_capture_gic m := match hvf_capture_gic (fst m) with Some g => inl g | None => inr ESnapshot end;
  be_restore_gic m g := ((hvf_restore_gic (fst m) g, snd m), None);
  be_request_stop m := (request_stop (fst m), snd m);
  be_apply_cpu_template m t := hvf_call (apply_cpu_template t) m;
  be_set_boot_regs m entry dtb := hvf_call (set_boot_regs entry dtb) m;
  be_run m r := match run_loop fuel m with Some (m', x) => Some (m', guest m r, x) | None => None end;
  be_complete_mmio_read m x := hvf_call (complete_mmio_read x) m;
  be_advance_mmio m := hvf_call advance_mmio m;
  be_pending_timer_ns m := match pending_timer_ns mach_now numer denom m with (_, inl o) => o | (_, inr _) => None end;
  be_capture m := snd (Hvf.capture mono m);
  be_restore m c := hvf_call (Hvf.restore now c) m
|}.

(** The software interrupt controllers of two VMs, the second created for no
    more cpus than the first has. *)
Definition hvf_takes (m m0 : Hvf.St V) : Prop :=
  match swgic (fst m), swgic (fst m0) with
  | Some g, Some g0 => gic_wf g /\ Forall (fun b => (length (Gicv2.running b) <= 255)%nat) (Gicv2.cpus g) /\ (num_cpus g0 <= num_cpus g)%nat
  | _, _ => False
  end.

(** What the guest sees of its vcpu. *)
Definition hvf_view (m : Hvf.St V) : list (option Z) := map (fun r => hv_vcpu_get_reg (handle (snd m)) (Z.of_nat r)) (seq 0 35).

Lemma hvf_view_ext (m m' : Hvf.St V) :
  (forall r, hv_reg r -> hv_vcpu_get_reg (handle (snd m')) r = hv_vcpu_get_reg (handle (snd m)) r) -> hvf_view m' = hvf_view m.
Proof. intros R. unfold hvf_view. apply map_ext_in. intros r Ir%in_seq. apply R. unfold hv_reg. lia. Qed.

#[export, refine] Instance hvf_laws : BackendLaws (Hvf.St V) CpuSnapshot := {|
  be_view := hvf_view;
  be_takes := hvf_takes
|}.
Proof.
  - intros m m0. unfold hvf_takes. cbn. unfold sw_on. by destruct (swgic (fst m)), (swgic (fst m0)).
  - intros m r m' r' x. cbn. destruct (run_loop fuel m) as [[m1 y]|]; [|done]. intros [= <- <- <-]. by apply guest_ram.
  - intros m m0 g. unfold hvf_takes. cbn. unfold hvf_capture_gic. destruct (swgic (fst m)) as [gm|] eqn:Em; [|done].
    destruct (swgic (fst m0)) as [g0|] eqn:E0; [|done]. intros (Wg & Rg & Lg) [= <-]. eexists. split; [done|].
    assert (Rc : gic_restore g0 (gic_capture gm) = gm).
    { rewrite restore_capture by done. replace (num_cpus g0 - num_cpus gm)%nat with O by lia. cbn. rewrite app_nil_r. by destruct gm. }
    unfold hvf_restore_gic. rewrite E0, Rc. cbn. split; [done|]. split; [split; [exact Wg|]; split; [exact Rg|done]|]. unfold sw_on. cbn. by rewrite E0.
  - intros m m0 c _. cbn. destruct (vcpu_resumes m m0 mono now) as (c' & off & Ec & _ & sh & hd & Er & _ & Eg & Rg & _).
    rewrite Ec. cbn. intros [= <-]. unfold hvf_call. rewrite Er. eexists. split; [done|]. split; [by apply hvf_view_ext|].
    cbn. unfold hvf_capture_gic, sw_on. by rewrite !Eg.
Defined.
End HvfBackend.

(** ** Instances *)

#[local] Instance CpuSnapshot_eq_dec : EqDecision CpuSnapshot.
Proof. solve_decision. Defined.
#[local] Instance CpuSnapshot_countable : Countable CpuSnapshot.
Proof.
  refine (inj_countable' (fun c => (cs_x c, cs_pc c, cs_cpsr c, cs_fpcr c, cs_fpsr c, cs_vtimer_offset c, cs_mono c, cs_sysregs c, cs_fp c))
    (fun '(a, b, c, d, e, f, g, h, i) => mkCpuSnapshot a b c d e f g h i) _). by intros [].
Defined.
#[local] Instance toy_cpu : Serde CpuSnapshot := demo_serde CpuSnapshot.
#[local] Instance toy_meta : Serde Meta := demo_serde Meta.
#[local] Instance toy_devs : Serde DevState := demo_serde DevState.
#[local] Instance toy_cpu_ok : SerdeOk CpuSnapshot := demo_serde_ok CpuSnapshot.
#[local] Instance toy_meta_ok : SerdeOk Meta := demo_serde_ok Meta.
#[local] Instance toy_devs_ok : SerdeOk DevState := demo_serde_ok DevState.

(** A guest that leaves its RAM alone. *)
Definition still (m : Hvf.St DemoVcpu) (r : GuestRam) : GuestRam := r.
Lemma still_ram m r : ram_wf r -> ram_wf (still m r) /\ same_region r (still m r).
Proof. done. Qed.
#[local] Instance toy_backend : Backend (Hvf.St DemoVcpu) CpuSnapshot := hvf_backend 2 still 0 0 0 1 1.
#[local] Instance toy_backend_laws : BackendLaws (Hvf.St DemoVcpu) CpuSnapshot := hvf_laws 2 still 0 0 0 1 1 still_ram.

(** The demo machine restored, on a vcpu that turns it off. *)
Definition off_st : Hvf.St DemoVcpu :=
  (mkShared [On] (Some (with_cpus 1)) false false 0, mkVcpu (demo_vcpu [([(0, 0x84000008)], hvc)]) 0 false 31 false).
Definition toy_loaded : SnapFile.Loaded CpuSnapshot :=
  SnapFile.mkLoaded (mkMeta layout.RAM_BASE 256 None (Some "v2"%string) true true 1)
    (mkCpuSnapshot (replicate 31 0) 0 0x3c5 0 0 0 0 [] []) [] (gic_capture (with_cpus 1)) (mkDevs [0; 0; 0; 0; 0; 0] (capture_states (vm_virtio demo_vm))).
Definition toy_setup : Setup :=
  mkSetup (Some toy_loaded) None None (Some "root.ext4"%string) 256 "quiet" [] true true.
Definition toy_run := run (W := ToyW) (fun _ => true) (fun _ => Written) true 2 demo_vm toy_setup [] (inl off_st) [mkInput true [104; 105] None 0].
Definition toy_end := match toy_run with inl (Some (s, _)) => s | _ => monitor_of demo_vm off_st end.

Lemma toy_ends : toy_run = inl (Some (toy_end, Some (inl tt))) /\ mo_log toy_end = [EvStop; EvGuest; EvGo; EvReady; EvLockdown (mkPolicy [] true) true]
  /\ rx_fifo (mo_uart toy_end) = [104; 105].
Proof. split; [|split]; vm_compute; reflexivity. Qed.

Abbreviation ToyDevs := (list (VirtioDev (F := MemFile) (L := unit) (E := unit) (B := FrameQueue) (VB := Peers) (VS := Pipe))).

(** A booted machine that is told to stop at once. *)
Definition plain_setup : Setup := mkSetup (C := CpuSnapshot) None None None None 0x400000 "quiet" [] false false.
Abbreviation plain_run vm := (run (L := unit) (W := ToyW) (fun _ => true) (fun _ => Written) true 2 vm plain_setup [] (inl off_st) [mkInput false [] None 0]).
Lemma plain_runs vm : plain_vm 0x400000 low_image vm -> exists s, plain_run vm = inl (Some (s, Some (inl tt))).
Proof.
  intros P. destruct (boot_places (W := ToyW) demo_host (plain_cfg 0x400000 low_image) None vm "quiet" (Some sw_gic_info) []) as (blob & mem & Eb & _).
  - exact demo_host_ok.
  - split; [cbn; lia|exact (proj2 (proj2 (proj2 low_image_fine)))|exact I].
  - exact P.
  - reflexivity.
  - vm_compute. discriminate.
  - vm_compute. discriminate.
  - vm_compute. discriminate.
  - assert (B0 : exists s, boot_path (W := ToyW) vm plain_setup
        (set_machine (vm_pl011 vm) (attach_all (vm_virtio vm)) (vm_mem vm) (monitor_of vm off_st)) = Some (s, inl tt)).
    { unfold boot_path. erewrite bindM_ok by done. erewrite bindM_ok by (unfold lift; do 2 f_equal; exact Eb). erewrite bindM_ok by done.
      erewrite bindM_ok by done. eexists. apply call_ok. reflexivity. }
    destruct B0 as [s Es]. unfold run, start. erewrite bindM_ok by done. cbn [su_restore plain_setup]. erewrite bindM_ok by exact Es.
    eexists. reflexivity.
Qed.


(** The demo machine after its driver's first store, captured and started
    again on a fresh vcpu. *)
Abbreviation ToyMon := (Mon (F := MemFile) (L := unit) (E := unit) (B := FrameQueue) (VB := Peers) (VS := Pipe) (M := Hvf.St DemoVcpu)).
Definition toy_taken : ToyMon :=
  mkMon off_st (fst (fst demo_state)) (snd (fst demo_state)) (snd demo_state) [] ∅.
Definition take_setup : Setup := mkSetup (C := CpuSnapshot) None None None (Some "root.ext4"%string) 256 "quiet" [] false false.
Lemma toy_takes : exists s1, capture_point (C := CpuSnapshot) (fun _ => Written) true take_setup [] toy_taken = Some (s1, inl tt).
Proof.
  unfold capture_point. erewrite bindM_ok by reflexivity. erewrite bindM_ok by reflexivity. cbv zeta.
  match goal with |- context [write true _ ?d ?m ?c ?g ?k ?i ?dv ?n ?v] => destruct (write_all (fun _ => Written) d m c g k i dv n v) as (d' & Ew & _); [done|rewrite Ew] end.
  eexists. reflexivity.
Qed.
Definition back_st : Hvf.St DemoVcpu := (mkShared [On] (Some (with_cpus 1)) false false 0, mkVcpu (demo_vcpu []) 0 false 31 false).
Lemma toy_fits : be_takes off_st back_st.
Proof. cbn. unfold hvf_takes. cbn. split; [apply with_cpus_inv|]. split; [|lia]. repeat constructor; cbn; lia. Qed.

