(* ===== verification/KvmHost.v ===== *)
(** * KvmHost: the Linux backend as a whole (crates/amber-kvm/src/backend.rs,
    gic.rs)

    The kernel calls that create a VM, checked against the rules KVM documents
    for their order; the kick that gets vcpus out of the guest; the two self
    tests; and the backend as an instance of [Monitor]'s, over the vcpu of
    [KvmVcpu] and the interrupt controller of [KvmGic].

    [create_accepted]; [kick_reaches] and [kick_lost]; [gic_selftest_passes]
    and [selftest_passes]; [kvm_laws] and what follows from them for a restored
    VM, [kvm_resumes]. *)

From S2P Require Import Prelude Memory Virtqueue VirtioMmio Devices Net Vsock Gicv2 Pl011 Proto Machine Hvf KvmGic KvmVcpu SnapFile Dtb Lockdown Monitor.
#[local] Open Scope Z_scope.

(** ** Creating a VM *)

(** <linux/kvm.h>: the groups and attributes [create] sets, and the features
    of a vcpu. *)
Definition GRP_ADDR : Z := 0.
Definition GRP_NR_IRQS : Z := 3.
Definition GRP_CTRL : Z := 4.
Definition ADDR_TYPE_DIST : Z := 2.
Definition ADDR_TYPE_REDIST : Z := 3.
Definition CTRL_INIT : Z := 0.
Definition VCPU_POWER_OFF : Z := 0.
Definition VCPU_PSCI_0_2 : Z := 2.

Inductive Call :=
| SigAction | OpenKvm | CreateVm | SetMemory (base size : Z) | CreateVgic
| SetVgicAttr (group attr value : Z) | VcpuMmapSize
| CreateVcpu (id : Z) | PreferredTarget | VcpuInit (id features : Z) | MmapRun (id : Z).

(** [init_vcpu] on [id as u8]. *)
Definition vcpu_features (id : Z) : Z :=
  Z.lor (Z.shiftl 1 VCPU_PSCI_0_2) (if id =? 0 then 0 else Z.shiftl 1 VCPU_POWER_OFF).
Definition init_vcpu_calls (id : nat) : list Call :=
  let id := u8 (Z.of_nat id) in
  [CreateVcpu id; PreferredTarget; VcpuInit id (vcpu_features id); MmapRun id].

(** [create], call by call. *)
Definition create_calls (base size : Z) (vcpus : nat) : list Call :=
  let n := Nat.max vcpus 1 in
  [SigAction; OpenKvm; CreateVm; SetMemory base size; CreateVgic;
   SetVgicAttr GRP_NR_IRQS 0 NR_IRQS; SetVgicAttr GRP_ADDR ADDR_TYPE_DIST GICD_BASE;
   SetVgicAttr GRP_ADDR ADDR_TYPE_REDIST GICR_BASE; VcpuMmapSize]
  ++ concat (map init_vcpu_calls (seq 0 n)) ++ [SetVgicAttr GRP_CTRL CTRL_INIT 0].

(** The calls made: up to the first that fails, [?] returning. *)
Fixpoint calls_made (ok : Call -> bool) (cs : list Call) : list Call * bool :=
  match cs with
  | [] => ([], true)
  | c :: cs' => if ok c then let '(l, r) := calls_made ok cs' in (c :: l, r) else ([c], false)
  end.

(** What KVM has seen, and what it documents: a VM before its memory and its
    devices; no vcpu id twice, and none once the vGIC is initialised (EBUSY);
    a vcpu is initialised after it exists; the vGIC's interrupt count and both
    addresses before its initialisation, which is done once, with a vcpu. *)
Record Kernel := mkKernel {
  k_open : bool; k_vm : bool; k_memory : bool; k_vgic : bool;
  k_irqs : bool; k_dist : bool; k_redist : bool; k_init : bool; k_ids : list Z
}.
Definition no_kernel : Kernel := mkKernel false false false false false false false false [].

Definition kernel_call (k : Kernel) (c : Call) : option Kernel :=
  match c with
  | SigAction => Some k
  | OpenKvm => Some (mkKernel true (k_vm k) (k_memory k) (k_vgic k) (k_irqs k) (k_dist k) (k_redist k) (k_init k) (k_ids k))
  | CreateVm => if k_open k then Some (mkKernel true true (k_memory k) (k_vgic k) (k_irqs k) (k_dist k) (k_redist k) (k_init k) (k_ids k)) else None
  | SetMemory _ size =>
      if k_vm k && (size mod 4096 =? 0) then
        Some (mkKernel (k_open k) true true (k_vgic k) (k_irqs k) (k_dist k) (k_redist k) (k_init k) (k_ids k)) else None
  | CreateVgic =>
      if k_vm k && negb (k_vgic k) then
        Some (mkKernel (k_open k) true (k_memory k) true (k_irqs k) (k_dist k) (k_redist k) (k_init k) (k_ids k)) else None
  | SetVgicAttr g a v =>
      if negb (k_vgic k) || k_init k then None
      else if g =? GRP_NR_IRQS then
        (** a multiple of 32 between 64 and 1024 *)
        if (v mod 32 =? 0) && (64 <=? v) && (v <=? 1024) then
          Some (mkKernel (k_open k) (k_vm k) (k_memory k) true true (k_dist k) (k_redist k) false (k_ids k)) else None
      else if g =? GRP_ADDR then
        (** 64 KiB aligned *)
        if negb (v mod 65536 =? 0) then None
        else if a =? ADDR_TYPE_DIST then Some (mkKernel (k_open k) (k_vm k) (k_memory k) true (k_irqs k) true (k_redist k) false (k_ids k))
        else if a =? ADDR_TYPE_REDIST then Some (mkKernel (k_open k) (k_vm k) (k_memory k) true (k_irqs k) (k_dist k) true false (k_ids k))
        else None
      else if (g =? GRP_CTRL) && (a =? CTRL_INIT) then
        if k_irqs k && k_dist k && k_redist k && negb (bool_decide (k_ids k = [])) then
          Some (mkKernel (k_open k) (k_vm k) (k_memory k) true true true true true (k_ids k)) else None
      else None
  | VcpuMmapSize => if k_open k then Some k else None
  | CreateVcpu id =>
      if k_vm k && negb (k_init k) && negb (existsb (Z.eqb id) (k_ids k)) then
        Some (mkKernel (k_open k) true (k_memory k) (k_vgic k) (k_irqs k) (k_dist k) (k_redist k) false (id :: k_ids k)) else None
  | PreferredTarget => if k_vm k then Some k else None
  | VcpuInit id _ | MmapRun id => if existsb (Z.eqb id) (k_ids k) then Some k else None
  end.
Fixpoint kernel_calls (k : Kernel) (cs : list Call) : option Kernel :=
  match cs with [] => Some k | c :: cs' => k' ← kernel_call k c; kernel_calls k' cs' end.

(** ** The kick *)

(** A vcpu's thread between its loop and the guest: its check of the running
    flag, the registration of its id, the ioctl. *)
Inductive Phase := Checks | Enters | InGuest | Left.
Record VcpuThread := mkThread { th_tid : Z; th_phase : Phase; th_known : bool }.
Record KickState := mkKick { ks_running : bool; ks_tids : list Z; ks_threads : list VcpuThread }.

(** [signal_vcpus]: a signal to every registered thread; it interrupts the
    ioctl, and is nothing to a thread outside it (the handler is empty). *)
Definition interrupted (tids : list Z) (t : VcpuThread) : VcpuThread :=
  if existsb (Z.eqb (th_tid t)) tids then
    match th_phase t with InGuest => mkThread (th_tid t) Checks (th_known t) | _ => t end
  else t.
Definition signal_vcpus (s : KickState) : KickState :=
  mkKick (ks_running s) (ks_tids s) (map (interrupted (ks_tids s)) (ks_threads s)).

(** The steps: thread [i] looks at the flag, registers and issues the ioctl,
    comes back from the guest by itself; and the end of [Vm::run]: the flag
    falls, then [request_stop]. *)
Inductive KickStep := Looks (i : nat) | Ioctl (i : nat) | Returns (i : nat) | Falls | RequestStop.
Definition upd_thread (s : KickState) (i : nat) (f : VcpuThread -> VcpuThread) : KickState :=
  mkKick (ks_running s) (ks_tids s) (alter f i (ks_threads s)).
Definition kick_step (s : KickState) (k : KickStep) : option KickState :=
  match k with
  | Looks i =>
      t ← ks_threads s !! i;
      match th_phase t with
      | Checks => Some (upd_thread s i (fun t => mkThread (th_tid t) (if ks_running s then Enters else Left) (th_known t)))
      | _ => None
      end
  | Ioctl i =>
      t ← ks_threads s !! i;
      match th_phase t with
      | Enters =>
          Some (mkKick (ks_running s) (if th_known t then ks_tids s else ks_tids s ++ [th_tid t])
            (alter (fun t => mkThread (th_tid t) InGuest true) i (ks_threads s)))
      | _ => None
      end
  | Returns i =>
      t ← ks_threads s !! i;
      match th_phase t with
      | InGuest => Some (upd_thread s i (fun t => mkThread (th_tid t) Checks (th_known t)))
      | _ => None
      end
  | Falls => Some (mkKick false (ks_tids s) (ks_threads s))
  | RequestStop => Some (signal_vcpus s)
  end.
Fixpoint kick_steps (s : KickState) (ks : list KickStep) : option KickState :=
  match ks with [] => Some s | k :: ks' => s' ← kick_step s k; kick_steps s' ks' end.
Definition kick_start (n : nat) : KickState := mkKick true [] (map (fun i => mkThread (Z.of_nat i) Checks false) (seq 0 n)).

(** ** Lemmas on creation *)

Lemma kernel_calls_app k a b : kernel_calls k (a ++ b) = k' ← kernel_calls k a; kernel_calls k' b.
Proof.
  revert k. induction a as [|c a IH]; intros k; [done|]. cbn [app kernel_calls].
  destruct (kernel_call k c) as [k'|]; [|done]. apply IH.
Qed.

Definition with_ids (k : Kernel) (ids : list Z) : Kernel :=
  mkKernel (k_open k) (k_vm k) (k_memory k) (k_vgic k) (k_irqs k) (k_dist k) (k_redist k) (k_init k) ids.

Lemma existsb_eqb x l : existsb (Z.eqb x) l = true <-> In x l.
Proof.
  rewrite existsb_exists. split; [intros (y & I & E); apply Z.eqb_eq in E; by subst|]. intros I. exists x. by rewrite Z.eqb_refl.
Qed.

Lemma kernel_vcpus (l : list nat) : forall k, k_vm k = true -> k_init k = false ->
  NoDup (map Z.of_nat l) -> Forall (fun i => (i < 256)%nat /\ ~ In (Z.of_nat i) (k_ids k)) l ->
  kernel_calls k (concat (map init_vcpu_calls l)) = Some (with_ids k (rev (map Z.of_nat l) ++ k_ids k)).
Proof.
  induction l as [|i l IH]; intros k V I N F; cbn [map concat rev].
  { by destruct k. }
  apply Forall_cons in F as [[Li Ni] F]. cbn [map] in N. apply NoDup_cons in N as [Hi N].
  rewrite kernel_calls_app. 
  assert (Ex : existsb (Z.eqb (Z.of_nat i)) (k_ids k) = false) by (apply not_true_iff_false; by rewrite existsb_eqb).
  assert (Eh : forall ids, existsb (Z.eqb (Z.of_nat i)) (Z.of_nat i :: ids) = true) by (intros ids; apply existsb_eqb; by left).
  set (k2 := mkKernel (k_open k) true (k_memory k) (k_vgic k) (k_irqs k) (k_dist k) (k_redist k) false (Z.of_nat i :: k_ids k)).
  assert (E2 : kernel_calls k (init_vcpu_calls i) = Some k2).
  { unfold init_vcpu_calls. cbv zeta. rewrite u8_id by lia. unfold kernel_calls, kernel_call. rewrite V, I, Ex.
    change (true && negb false && negb false) with true. cbv iota. fold k2. cbn [mbind option_bind]. unfold k2 at 1. cbn [k_vm mbind option_bind].
    unfold k2 at 1. cbn [k_ids]. rewrite Eh. cbn [mbind option_bind]. unfold k2 at 1. cbn [k_ids]. by rewrite Eh. }
  rewrite E2. cbn [mbind option_bind]. rewrite IH; [|done|done|done|].
  - cbn [k_ids]. unfold with_ids. cbn. rewrite I, V, <- app_assoc. done.
  - rewrite Forall_forall in F |- *. intros j Hj. destruct (F j Hj) as [Lj Nj]. split; [done|]. cbn [k_ids In].
    intros [E|E]; [|done]. apply Hi. rewrite E. apply list_elem_of_In, in_map_iff. exists j. split; [done|by apply list_elem_of_In].
Qed.

(** ** Lemmas on the kick *)

(** A thread inside the guest has registered. *)
Definition known_ok (s : KickState) : Prop :=
  Forall (fun t => (th_known t = true -> th_tid t ∈ ks_tids s) /\ (th_phase t = InGuest -> th_known t = true)) (ks_threads s).

Lemma known_mono s f i : known_ok s -> (forall t, th_tid (f t) = th_tid t) ->
  (forall t, th_known (f t) = th_known t) -> (forall t, th_phase (f t) <> InGuest) ->
  known_ok (upd_thread s i f).
Proof.
  intros K Ft Fk Fp. unfold known_ok, upd_thread. cbn [ks_threads ks_tids]. apply Forall_alter; [exact K|].
  intros t _ [K1 K2]. rewrite Ft, Fk. split; [done|]. intros E. by apply Fp in E.
Qed.

Lemma signal_known s : known_ok s -> known_ok (signal_vcpus s).
Proof.
  intros K. unfold known_ok, signal_vcpus. cbn [ks_threads ks_tids]. apply Forall_map. eapply Forall_impl; [exact K|].
  intros t [K1 K2]. unfold interrupted. destruct (existsb _ _); [|by split]. destruct (th_phase t) eqn:E; cbn; split; try done; rewrite E; done.
Qed.

Lemma kick_step_known s k s' : known_ok s -> kick_step s k = Some s' -> known_ok s'.
Proof.
  intros K. destruct k as [i|i|i| |]; cbn [kick_step].
  - destruct (ks_threads s !! i) as [t|]; [|done]. cbn [mbind option_bind]. destruct (th_phase t); try done. intros [= <-].
    apply known_mono; try done. intros t0. cbn. by destruct (ks_running s).
  - destruct (ks_threads s !! i) as [t|] eqn:E; [|done]. cbn [mbind option_bind]. destruct (th_phase t); try done. intros [= <-].
    unfold known_ok. cbn [ks_threads ks_tids]. apply Forall_alter.
    + eapply Forall_impl; [exact K|]. intros x [K1 K2]. split; [|done]. intros Kx. specialize (K1 Kx). destruct (th_known t); [done|]. apply elem_of_app. by left.
    + intros x Hx. assert (x = t) as -> by congruence. intros [K1 K2]. cbn. split; [|done]. intros _. destruct (th_known t); [by apply K1|].
      apply elem_of_app. right. by left.
  - destruct (ks_threads s !! i) as [t|]; [|done]. cbn [mbind option_bind]. destruct (th_phase t); try done. intros [= <-]. by apply known_mono.
  - by intros [= <-].
  - intros [= <-]. by apply signal_known.
Qed.

Lemma kick_steps_known ks : forall s s', known_ok s -> kick_steps s ks = Some s' -> known_ok s'.
Proof.
  induction ks as [|k ks IH]; intros s s' K; cbn [kick_steps]; [by intros [= <-]|].
  destruct (kick_step s k) as [s1|] eqn:E; [|done]. cbn [mbind option_bind]. apply IH. by eapply kick_step_known.
Qed.

Lemma signal_out s : known_ok s -> Forall (fun t => th_phase t <> InGuest) (ks_threads (signal_vcpus s)).
Proof.
  intros K. unfold signal_vcpus. cbn [ks_threads]. apply Forall_map. eapply Forall_impl; [exact K|]. intros t [K1 K2].
  unfold interrupted. destruct (existsb (Z.eqb (th_tid t)) (ks_tids s)) eqn:E.
  - destruct (th_phase t) eqn:P; cbn; congruence.
  - intros P. apply not_true_iff_false in E. apply E, existsb_eqb, list_elem_of_In, K1, K2, P.
Qed.

(** Once the flag is down, a thread that is not about to enter stays out. *)
Definition stays_out (s : KickState) : Prop :=
  ks_running s = false /\ Forall (fun t => th_phase t = Checks \/ th_phase t = Left) (ks_threads s).

Lemma stays_out_step s k s' : stays_out s -> kick_step s k = Some s' -> stays_out s'.
Proof.
  intros [R F]. unfold stays_out. destruct k as [i|i|i| |]; cbn [kick_step].
  - destruct (ks_threads s !! i) as [t|]; [|done]. cbn [mbind option_bind]. destruct (th_phase t); try done. intros [= <-].
    split; [done|]. cbn [upd_thread ks_threads]. apply Forall_alter; [done|]. intros x _ _. rewrite R. by right.
  - destruct (ks_threads s !! i) as [t|] eqn:E; [|done]. cbn [mbind option_bind]. pose proof (Forall_lookup_1 _ _ _ _ F E) as [P|P]; by rewrite P.
  - destruct (ks_threads s !! i) as [t|] eqn:E; [|done]. cbn [mbind option_bind]. pose proof (Forall_lookup_1 _ _ _ _ F E) as [P|P]; by rewrite P.
  - by intros [= <-].
  - intros [= <-]. split; [done|]. cbn [signal_vcpus ks_threads]. apply Forall_map. eapply Forall_impl; [exact F|]. intros t Ht.
    unfold interrupted. destruct (existsb _ _); [|done]. destruct (th_phase t) eqn:P; cbn; rewrite ?P; auto; destruct Ht; congruence.
Qed.

Lemma stays_out_steps ks : forall s s', stays_out s -> kick_steps s ks = Some s' -> stays_out s'.
Proof.
  induction ks as [|k ks IH]; intros s s' O; cbn [kick_steps]; [by intros [= <-]|].
  destruct (kick_step s k) as [s1|] eqn:E; [|done]. cbn [mbind option_bind]. apply IH. by eapply stays_out_step.
Qed.

(** ** Properties of creation and the kick *)

(** creating a VM breaks none of KVM's rules: for up to 256 vcpus and RAM in
    whole pages, every call is one the kernel takes in the state the calls
    before it left, the controller is initialised once every vcpu exists, and
    these are exactly the vcpus below the count. *)
Theorem create_accepted (base size : Z) (vcpus : nat) :
  size mod 4096 = 0 -> (vcpus <= 256)%nat ->
  kernel_calls no_kernel (create_calls base size vcpus)
  = Some (mkKernel true true true true true true true true (rev (map Z.of_nat (seq 0 (Nat.max vcpus 1))))).
Proof.
  intros Sz L. unfold create_calls. set (n := Nat.max vcpus 1).
  rewrite kernel_calls_app. set (k1 := mkKernel true true true true true true true false []).
  match goal with |- (kernel_calls no_kernel ?l ≫= _) = _ => assert (E1 : kernel_calls no_kernel l = Some k1) by (cbn; rewrite Sz; reflexivity) end.
  rewrite E1. cbn [mbind option_bind]. rewrite kernel_calls_app.
  rewrite kernel_vcpus; [|done|done| |].
  - cbn [mbind option_bind]. cbn. unfold with_ids. cbn. rewrite app_nil_r.
    assert (E : bool_decide (rev (map Z.of_nat (seq 0 n)) = []) = false).
    { apply bool_decide_eq_false. intros E. apply (f_equal (@length _)) in E. rewrite length_rev, length_map, length_seq in E. cbn in E. unfold n in E. lia. }
    by rewrite E.
  - apply NoDup_fmap_2; [|apply NoDup_seq]. intros a b. lia.
  - apply Forall_forall. intros i Hi. apply list_elem_of_In, in_seq in Hi. unfold n in Hi. split; [lia|by intros []].
Qed.

(** the kick reaches every vcpu inside the guest: after any steps of the
    threads, a signal leaves none there, and if the flag is down and no thread
    is past its check of it, none enters again and all leave for good. *)
Theorem kick_reaches (n : nat) (ks : list KickStep) (s : KickState) :
  kick_steps (kick_start n) ks = Some s ->
  Forall (fun t => th_phase t <> InGuest) (ks_threads (signal_vcpus s))
  /\ (ks_running s = false -> Forall (fun t => th_phase t <> Enters) (ks_threads s) ->
      forall ks' s', kick_steps (signal_vcpus s) ks' = Some s' -> Forall (fun t => th_phase t <> InGuest) (ks_threads s')).
Proof.
  intros Hs. assert (K : known_ok s).
  { eapply kick_steps_known; [|exact Hs]. unfold known_ok, kick_start. cbn [ks_threads]. apply Forall_map, Forall_forall. intros i _. by cbn. }
  pose proof (signal_out s K) as O. split; [done|]. intros R E ks' s' H'.
  assert (O' : stays_out (signal_vcpus s)).
  { split; [done|]. rewrite Forall_forall in O, E |- *. intros t Ht. specialize (O t Ht).
    unfold signal_vcpus in Ht. cbn [ks_threads] in Ht. apply list_elem_of_In, in_map_iff in Ht as (t0 & <- & H0%list_elem_of_In).
    specialize (E t0 H0). unfold interrupted in *. destruct (existsb _ _); destruct (th_phase t0) eqn:P; cbn in *; rewrite ?P in *; (congruence || auto). }
  apply (stays_out_steps ks' _ _ O') in H' as [_ F]. eapply Forall_impl; [exact F|]. intros t [->| ->]; done.
Qed.

(** a stop can be lost: a vcpu that has seen the flag up and not yet issued
    its ioctl takes the one signal [request_stop] sends outside the ioctl, for
    nothing, and enters a guest that nothing gets it out of: not the flag, and
    no other step, unless the guest exits by itself. *)
Theorem kick_lost (ks : list KickStep) (s : KickState) :
  kick_steps (kick_start 1) ([Looks 0; Falls; RequestStop; Ioctl 0] ++ ks) = Some s ->
  Forall (fun k => k <> Returns 0 /\ k <> RequestStop) ks ->
  ks_running s = false /\ ks_threads s = [mkThread 0 InGuest true].
Proof.
  change (kick_steps (kick_start 1) ([Looks 0; Falls; RequestStop; Ioctl 0] ++ ks))
    with (kick_steps (mkKick false [0] [mkThread 0 InGuest true]) ks).
  induction ks as [|k ks IH]; cbn [kick_steps]; [by intros [= <-]|]. intros Hs F. apply Forall_cons in F as [[N1 N2] F].
  destruct k as [[|i]|[|i]|[|i]| |]; cbn in Hs; try done; by apply IH.
Qed.

Lemma create_accepted_witness : exists k, kernel_calls no_kernel (create_calls 0x40000000 0x10000000 2) = Some k /\ k_init k = true.
Proof. eexists. split; [apply (create_accepted 0x40000000 0x10000000 2); [reflexivity|lia]|reflexivity]. Defined.

Lemma kick_reaches_witness :
  Forall (fun t => th_phase t <> InGuest) (ks_threads (signal_vcpus (mkKick true [0; 1] [mkThread 0 InGuest true; mkThread 1 InGuest true]))).
Proof. apply (kick_reaches 2 [Looks 0; Ioctl 0; Looks 1; Ioctl 1]). reflexivity. Defined.

Lemma kick_lost_witness : ks_threads (mkKick false [0] [mkThread 0 InGuest true]) = [mkThread 0 InGuest true].
Proof. apply (kick_lost [] (mkKick false [0] [mkThread 0 InGuest true])); [reflexivity|constructor]. Defined.

(** ** The controller's self test *)

Section GicSelftest.
Context {G : Type} `{Vgic G}.

Definition POKES : list Addr := [(GRP_DIST_REGS, 0x0104); (GRP_DIST_REGS, 0x0204); (GRP_DIST_REGS, 0x0420)].
Fixpoint poke (v : G) (x : Z) (l : list Addr) : G * Result unit :=
  match l with
  | [] => (v, inl tt)
  | a :: l' => match set_attr v a x with (v', inl _) => poke v' x l' | (v', inr e) => (v', inr e) end
  end.

(** [gic::selftest]: the number of registers. *)
Definition gic_selftest (v : G) (nr_irqs vcpus : Z) : G * Result Z :=
  match poke v 0xa5a5a5a5 POKES with
  | (v1, inr e) => (v1, inr e)
  | (v1, inl _) =>
      match kgic_capture v1 nr_irqs vcpus with
      | inr e => (v1, inr e)
      | inl state_a =>
          match poke v1 0 POKES with
          | (v2, inr e) => (v2, inr e)
          | (v2, inl _) =>
              match kgic_capture v2 nr_irqs vcpus with
              | inr e => (v2, inr e)
              | inl state_b =>
                  if bool_decide (state_a = state_b) then (v2, inr ESnapshot)
                  else
                    match kgic_restore v2 nr_irqs vcpus state_a with
                    | inr e => (v2, inr e)
                    | inl v3 =>
                        match kgic_capture v3 nr_irqs vcpus with
                        | inr e => (v3, inr e)
                        | inl state_c =>
                            if bool_decide (state_a = state_c) then (v3, inl ((zlen state_a - 20) / 8)) else (v3, inr ESnapshot)
                        end
                    end
              end
          end
      end
  end.
End GicSelftest.

Section GicLaws.
Context {G : Type} `{VgicLaws G}.

Lemma get_all_ext (v w : G) l : (forall a, a ∈ l -> vg_get v a = vg_get w a) -> get_all v l = get_all w l.
Proof.
  induction l as [|a l IH]; intros E; [done|]. cbn [get_all]. unfold get_attr. rewrite (E a) by by left.
  rewrite IH; [done|]. intros b Hb. apply E. by right.
Qed.

Lemma capture_ext (v w : G) nr vcpus : (forall a, a ∈ addr_list nr vcpus -> vg_get v a = vg_get w a) ->
  kgic_capture v nr vcpus = kgic_capture w nr vcpus.
Proof. intros E. unfold kgic_capture. by rewrite (get_all_ext v w) by done. Qed.

Lemma capture_reads (v : G) nr vcpus : (forall a, a ∈ addr_list nr vcpus -> is_Some (vg_get v a)) ->
  exists blob, kgic_capture v nr vcpus = inl blob /\ zlen blob = 20 + 8 * zlen (addr_list nr vcpus).
Proof.
  intros R. unfold kgic_capture. assert (E : exists xs, get_all v (addr_list nr vcpus) = inl xs).
  { induction (addr_list nr vcpus) as [|a l IH]; [by eexists|]. cbn [get_all]. unfold get_attr.
    destruct (R a ltac:(by left)) as [x ->]. destruct IH as [xs ->]; [|by eexists]. intros b Hb. apply R. by right. }
  destruct E as [xs E]. destruct (get_all_spec v _ xs E) as (L & _ & _). rewrite E. eexists. split; [done|].
  assert (Lc : zlen (concat (map (le_bytes 8) xs)) = 8 * zlen (addr_list nr vcpus)) by (unfold zlen; rewrite length_vals, L; lia).
  rewrite !zlen_app, !zlen_le_bytes, Lc. change (zlen GIC_MAGIC) with 4. lia.
Qed.

Lemma poke_ok (x : Z) (l : list Addr) : fits 64 x -> (forall v a y, a ∈ l -> snd (vg_set v a y) = true) ->
  forall v : G, exists v', poke v x l = (v', inl tt) /\ (forall a, a ∈ l -> vg_get v' a = Some x)
    /\ (forall a, a ∉ l -> vg_get v' a = vg_get v a).
Proof.
  intros Fx Ok. induction l as [|a l IH]; intros v.
  { exists v. split; [done|]. split; [by intros a ?%elem_of_nil|done]. }
  cbn [poke]. unfold set_attr. pose proof (Ok v a x ltac:(by left)) as Oa.
  pose proof (vg_set_same v a x Fx Oa) as S. pose proof (fun b => vg_set_other v a b x) as O.
  destruct (vg_set v a x) as [v1 ok]. cbn [fst snd] in *. subst ok.
  destruct (IH ltac:(intros; apply Ok; by right) v1) as (v' & E & I & N). exists v'. split; [done|]. split.
  - intros b [->|Hb]%elem_of_cons; [|by apply I]. destruct (decide (a ∈ l)) as [Ha|Ha]; [by apply I|]. by rewrite N.
  - intros b [Nb Hb]%not_elem_of_cons. rewrite N by done. apply O. congruence.
Qed.

Lemma zlen_cpu_addrs (l : list Z) : zlen (concat (map cpu_addrs l)) = 26 * zlen l.
Proof.
  induction l as [|i l IH]; [done|]. cbn [map concat]. rewrite zlen_app, IH, zlen_cons.
  assert (C : zlen (cpu_addrs i) = 26) by (unfold zlen, cpu_addrs; by rewrite length_app, !length_map). lia.
Qed.

Lemma addr_list_fits vcpus : 0 <= vcpus < 2 ^ 26 -> zlen (addr_list NR_IRQS vcpus) < 2 ^ 32.
Proof.
  intros L. unfold addr_list. rewrite zlen_app, zlen_cpu_addrs.
  assert (E : zlen (zrange 0 vcpus) = vcpus) by (unfold zlen, zrange; rewrite length_map, length_seq; lia).
  assert (D : zlen (dist_addrs NR_IRQS) < 2 ^ 16) by (vm_compute; done). lia.
Qed.

Lemma pokes_listed vcpus a : a ∈ POKES -> a ∈ addr_list NR_IRQS vcpus.
Proof.
  intros Ha. unfold addr_list. apply elem_of_app. left. revert a Ha. apply Forall_forall.
  refine (bool_decide_unpack _ _). vm_compute. exact I.
Qed.

(** the controller's self test passes on every controller that keeps its
    laws, reads every listed register and takes every write: it then counts
    the registers, and leaves them as it poked them. *)
Theorem gic_selftest_passes (v : G) (vcpus : Z) :
  0 <= vcpus < 2 ^ 26 ->
  (forall u a, a ∈ addr_list NR_IRQS vcpus -> is_Some (vg_get u a)) ->
  (forall u a x, a ∈ addr_list NR_IRQS vcpus -> snd (vg_set u a x) = true) ->
  exists v3, gic_selftest v NR_IRQS vcpus = (v3, inl (zlen (addr_list NR_IRQS vcpus)))
  /\ (forall a, a ∈ POKES -> vg_get v3 a = Some 0xa5a5a5a5)
  /\ (forall a, a ∈ addr_list NR_IRQS vcpus -> a ∉ POKES -> vg_get v3 a = vg_get v a).
Proof.
  intros Lv Hr Hw. unfold gic_selftest.
  assert (Pw : forall (u : G) a y, a ∈ POKES -> snd (vg_set u a y) = true) by (intros; by apply Hw, pokes_listed).
  destruct (poke_ok 0xa5a5a5a5 POKES ltac:(lia) Pw v) as (v1 & -> & I1 & O1).
  destruct (capture_reads v1 NR_IRQS vcpus (Hr v1)) as (a & Ea & La). rewrite Ea.
  destruct (poke_ok 0 POKES ltac:(lia) Pw v1) as (v2 & -> & I2 & O2).
  destruct (capture_reads v2 NR_IRQS vcpus (Hr v2)) as (b & Eb & Lb). rewrite Eb.
  assert (Rt : forall (u w : G) blob, kgic_capture u NR_IRQS vcpus = inl blob -> exists w', kgic_restore w NR_IRQS vcpus blob = inl w' /\
    forall a, a ∈ addr_list NR_IRQS vcpus -> vg_get w' a = vg_get u a).
  { intros u w blob Eu. destruct (kgic_roundtrip u w NR_IRQS vcpus blob ltac:(unfold NR_IRQS; lia) ltac:(lia) (addr_list_fits vcpus Lv) Eu Hw) as (w' & E & R & _).
    by exists w'. }
  rewrite bool_decide_false.
  2: { intros <-. destruct (Rt v1 v a Ea) as (w1 & E1 & R1). destruct (Rt v2 v a Eb) as (w2 & E2 & R2).
       assert (w1 = w2) as -> by congruence. assert (P : (GRP_DIST_REGS, 0x0104) ∈ POKES) by by left.
       pose proof (R1 _ (pokes_listed vcpus _ P)) as X. rewrite (R2 _ (pokes_listed vcpus _ P)), (I1 _ P), (I2 _ P) in X. discriminate X. }
  destruct (Rt v1 v2 a Ea) as (v3 & -> & R3). rewrite (capture_ext v3 v1), Ea by done. rewrite bool_decide_true by done.
  exists v3. split; [|split].
  - rewrite La. replace (20 + 8 * zlen (addr_list NR_IRQS vcpus) - 20) with (zlen (addr_list NR_IRQS vcpus) * 8) by lia. by rewrite Z.div_mul.
  - intros x Hx. by rewrite R3, I1 by by (try apply pokes_listed).
  - intros x Hx Nx. by rewrite R3, O1.
Qed.
End GicLaws.

(** ** The backend's self test *)

Section Selftest.
Context {V G : Type} `{KvmFd V} `{Vgic G}.

Definition after {A} (r : KvmVcpu V * (unit + Error)) (k : KvmVcpu V -> Result A) : Result A :=
  match r with (v, inl _) => k v | (_, inr e) => inr e end.
Definition bindR {A B} (r : Result A) (k : A -> Result B) : Result B := match r with inl a => k a | inr e => inr e end.

(** [selftest] on a created VM and its controller: what it prints. *)
Definition selftest (created : Result (KvmVm V * G)) : Result (Z * Z * Z * Z) :=
  bindR created (fun '(vm, vgic) =>
  bindR (snd (kvm_create_vcpu vm 0)) (fun v =>
  after (k_set_boot_regs v 0x40012340 0x40000000) (fun v =>
  after (k_set_x v 5 0xdeadbeefcafef00d) (fun v =>
  bindR (k_capture v) (fun snap =>
  after (k_set_x v 5 0) (fun v =>
  after (k_set_pc v 0) (fun v =>
  after (k_restore v snap) (fun v =>
  bindR (k_pc v) (fun pc =>
  bindR (k_get_x v 5) (fun x5 =>
  if negb (pc =? 0x40012340) || negb (x5 =? 0xdeadbeefcafef00d) then inr ESnapshot
  else
    bindR (snd (gic_selftest vgic NR_IRQS (Z.of_nat (kvm_vcpus vm)))) (fun gic_regs =>
    let isar0 := kvm_sysreg_id ID_AA64ISAR0_EL1 in
    bindR (k_get_reg v isar0) (fun before =>
    match by_name "no-crypto" with
    | None => inr EBackend
    | Some t =>
        after (k_apply_cpu_template v t) (fun v =>
        bindR (k_get_reg v isar0) (fun after_ =>
        if nz (Z.land after_ (Z.lor (Z.shiftl 0xfff 4) (Z.shiftl 0xfff 32))) then inr ESnapshot
        else inl (zlen snap, gic_regs, before, after_)))
    end)))))))))))).
End Selftest.

Section SelftestLaws.
Context {V G : Type} `{KvmFdLaws V} `{VgicLaws G}.

(** A write that is taken is what is read, and nothing else changes. *)
Lemma k_set_get (v : KvmVcpu V) id x : is_Some (set_one_reg (fd v) id (le_bytes 8 x)) -> fits 64 x ->
  exists f, k_set_reg v id x = (set_fd v f, inl tt) /\ k_get_reg (set_fd v f) id = inl x
  /\ (forall id' n, id' <> id -> get_one_reg f id' n = get_one_reg (fd v) id' n).
Proof.
  intros [f E] Fx. exists f. unfold k_set_reg. rewrite E. split; [done|]. split.
  - unfold k_get_reg. cbn [fd set_fd]. rewrite (kvm_get_set _ _ _ _ _ _ E), Z.eqb_refl, zlen_le_bytes.
    change (8 =? Z.of_nat 8) with true. cbv iota. by rewrite of_le_bytes_le_bytes_id.
  - intros id' n N. rewrite (kvm_get_set _ _ _ _ _ _ E). by rewrite (proj2 (Z.eqb_neq _ _) N).
Qed.

(** The registers of the core file are eight bytes, with ids of their own. *)
Lemma x_reg_size (i : Z) : 0 <= i <= 33 -> reg_size (x_reg i) = 8.
Proof.
  intros L. assert (C : forallb (fun n => reg_size (x_reg (Z.of_nat n)) =? 8) (seq 0 34) = true) by (vm_compute; reflexivity).
  rewrite forallb_forall in C. specialize (C (Z.to_nat i)). rewrite Z2Nat.id in C by lia. apply Z.eqb_eq, C, in_seq. lia.
Qed.
Lemma x_reg_inj (i j : Z) : 0 <= i <= 33 -> 0 <= j <= 33 -> x_reg i = x_reg j -> i = j.
Proof. intros Li Lj. rewrite !x_reg_eq by lia. lia. Qed.

(** A restored core register reads as it was captured. *)
Lemma restored_reg (v w : KvmVcpu V) (snap : list (Z * list Z)) (acc : Z -> bool) i :
  k_capture v = inl snap -> NoDup (map fst snap) ->
  (forall f id bs, (id, bs) ∈ snap -> is_Some (set_one_reg f id bs) <-> acc id = true) ->
  0 <= i <= 33 -> x_reg i ∈ map fst snap -> acc (x_reg i) = true ->
  exists w', k_restore w snap = (w', inl tt) /\ k_get_reg w' (x_reg i) = k_get_reg v (x_reg i).
Proof.
  intros Hc Nd Hacc Li Hin Ha. destruct (kvm_restore_registers v w snap acc Hc) as (w' & E & _ & R & _); [|done|done|].
  { intros ->. by apply elem_of_nil in Hin. }
  exists w'. split; [done|]. unfold k_get_reg. rewrite <- (x_reg_size i Li). rewrite R, Ha by done. done.
Qed.

(** Membership in a list that is written out. *)
Ltac listed := apply list_elem_of_In; cbn [In map fst]; auto 8.

(** the self test passes on every backend that keeps its laws: where the
    kernel takes the writes it makes, lists the registers it checks, and lets
    ID_AA64ISAR0 be written, it ends well, counts the controller's registers,
    and the feature register it reports has lost exactly the crypto fields. *)
Theorem selftest_passes (vm : KvmVm V) (g : G) (v0 : KvmVcpu V) (acc : Z -> bool) :
  let isar0 := kvm_sysreg_id ID_AA64ISAR0_EL1 in
  pending_vcpus vm !! 0%nat = Some (Some v0) -> Z.of_nat (kvm_vcpus vm) < 2 ^ 26 ->
  (forall f id x, id ∈ [PSTATE_REG; PC_REG; x_reg 0; x_reg 5; isar0] -> is_Some (set_one_reg f id (le_bytes 8 x))) ->
  (forall w : KvmVcpu V, exists snap, k_capture w = inl snap /\ NoDup (map fst snap) /\ x_reg 5 ∈ map fst snap /\ PC_REG ∈ map fst snap
    /\ (forall f id bs, (id, bs) ∈ snap -> is_Some (set_one_reg f id bs) <-> acc id = true)) ->
  acc (x_reg 5) = true -> acc PC_REG = true ->
  (forall w : KvmVcpu V, exists x, k_get_reg w isar0 = inl x /\ fits 64 x) ->
  (forall u a, a ∈ addr_list NR_IRQS (Z.of_nat (kvm_vcpus vm)) -> is_Some (vg_get u a)) ->
  (forall u a x, a ∈ addr_list NR_IRQS (Z.of_nat (kvm_vcpus vm)) -> snd (vg_set u a x) = true) ->
  exists n before, selftest (inl (vm, g)) = inl (n, zlen (addr_list NR_IRQS (Z.of_nat (kvm_vcpus vm))), before, Z.land before (not64 CRYPTO_FIELDS)).
Proof.
  intros isar0 Hp Hv Hw Hc A5 Ap Hi Gr Gw. unfold selftest. cbn [bindR]. unfold kvm_create_vcpu. rewrite Hp. cbn [bindR snd]. fold isar0.
  destruct (k_set_regs_ok [(PSTATE_REG, 0x3c5); (PC_REG, 0x40012340); (x_reg 0, 0x40000000)] v0) as (f1 & E1 & G1 & _).
  { intros f id x Hin. apply Hw. apply list_elem_of_In in Hin. apply list_elem_of_In. cbn [In map fst] in *. intuition auto. }
  { vm_compute. repeat constructor; rewrite ?list_elem_of_In; cbn; intuition congruence. }
  { repeat constructor; cbn [snd]; lia. }
  unfold k_set_boot_regs. rewrite E1. cbn [after].
  destruct (k_set_get (set_fd v0 f1) (x_reg 5) 0xdeadbeefcafef00d) as (f2 & E2 & G2 & O2); [apply Hw; listed|lia|].
  unfold k_set_x. rewrite E2. cbn [after]. set (v2 := set_fd (set_fd v0 f1) f2) in *.
  assert (P2 : k_pc v2 = inl 0x40012340).
  { unfold k_pc, k_get_reg. cbn [v2 fd set_fd]. rewrite O2 by (vm_compute; discriminate). apply (G1 PC_REG). listed. }
  destruct (Hc v2) as (snap & Ec & Nd & I5 & Ip & Ha). rewrite Ec. cbn [bindR].
  destruct (k_set_get v2 (x_reg 5) 0) as (f3 & E3 & _ & _); [apply Hw; listed|lia|]. rewrite E3. cbn [after].
  unfold k_set_pc. destruct (k_set_get (set_fd v2 f3) PC_REG 0) as (f4 & E4 & _ & _); [apply Hw; listed|lia|].
  rewrite E4. cbn [after]. set (v4 := set_fd (set_fd v2 f3) f4).
  destruct (restored_reg v2 v4 snap acc 5 Ec Nd Ha ltac:(lia) I5 A5) as (w & Ew & R5).
  destruct (restored_reg v2 v4 snap acc 32 Ec Nd Ha ltac:(lia) Ip Ap) as (w' & Ew' & Rp). assert (w' = w) as -> by congruence.
  rewrite Ew. cbn [after]. change (k_pc w) with (k_get_reg w (x_reg 32)). rewrite Rp. change (k_get_reg v2 (x_reg 32)) with (k_pc v2). rewrite P2. cbn [bindR].
  unfold k_get_x. rewrite R5, G2. cbn [bindR]. rewrite !Z.eqb_refl. cbn [negb orb].
  destruct (gic_selftest_passes g (Z.of_nat (kvm_vcpus vm)) ltac:(lia) Gr Gw) as (g3 & -> & _). cbn [snd bindR].
  destruct (Hi w) as (x & Ex & Fx). rewrite Ex. cbn [bindR].
  change (by_name "no-crypto") with (Some (mkCpuTemplate "no-crypto" NO_CRYPTO)). cbn [k_apply_cpu_template ct_overrides].
  unfold k_apply_cpu_template, NO_CRYPTO. cbn [ct_overrides k_apply_overrides ov_reg ov_and_mask ov_or_value]. fold isar0. rewrite Ex.
  rewrite Z.lor_0_r. set (y := Z.land x (not64 CRYPTO_FIELDS)).
  destruct (k_set_get w isar0 y) as (f5 & E5 & G5 & _); [apply Hw; listed|apply land_range; [done|vm_compute; discriminate]|].
  rewrite E5. cbn [after]. rewrite G5. cbn [bindR].
  assert (Z0 : Z.land y (Z.lor (Z.shiftl 0xfff 4) (Z.shiftl 0xfff 32)) = 0).
  { unfold y. rewrite <- Z.land_assoc. change (Z.land (not64 CRYPTO_FIELDS) _) with 0. apply Z.land_0_r. }
  rewrite Z0. cbn. by eexists _, x.
Qed.
End SelftestLaws.

(** ** The backend *)

(** KVM_IRQ_LINE on the VM: the controller afterwards, and whether the kernel
    took it. *)
Class IrqLine (G : Type) := set_irq_line : G -> Z -> bool -> G * bool.

Section KvmBackend.
Context {V G : Type} `{KvmFdLaws V} `{VgicLaws G} `{IrqLine G}.

(** A VM with its first vcpu on the run's thread; [kh_signals]: the threads
    signalled so far. *)
Record KvmHost := mkKvmHost { kh_vm : KvmVm V; kh_cpu : KvmVcpu V; kh_vgic : G; kh_signals : list Z }.
Definition set_cpu (m : KvmHost) (v : KvmVcpu V) : KvmHost := mkKvmHost (kh_vm m) v (kh_vgic m) (kh_signals m).
Definition set_vgic (m : KvmHost) (g : G) : KvmHost := mkKvmHost (kh_vm m) (kh_cpu m) g (kh_signals m).
Definition set_tids (m : KvmHost) (tids : list Z) : KvmHost :=
  mkKvmHost (mkKvmVm (kvm_gic (kh_vm m)) (kvm_vcpus (kh_vm m)) tids (pending_vcpus (kh_vm m))) (kh_cpu m) (kh_vgic m) (kh_signals m).

(** [kick] and [request_stop]. *)
Definition k_signal (m : KvmHost) : KvmHost := mkKvmHost (kh_vm m) (kh_cpu m) (kh_vgic m) (kh_signals m ++ kick_tids (kh_vm m)).

Definition k_set_irq (m : KvmHost) (intid : Z) (level : bool) : KvmHost * option Error :=
  let '(g, ok) := set_irq_line (kh_vgic m) (irq_line intid) level in (set_vgic m g, if ok then None else Some EBackend).
Definition k_capture_gic (m : KvmHost) : Result (list Z) := kgic_capture (kh_vgic m) NR_IRQS (Z.of_nat (kvm_vcpus (kh_vm m))).
Definition k_restore_gic (m : KvmHost) (blob : list Z) : KvmHost * option Error :=
  match kgic_restore (kh_vgic m) NR_IRQS (Z.of_nat (kvm_vcpus (kh_vm m))) blob with
  | inl g => (set_vgic m g, None)
  | inr e => (m, Some e)
  end.

(** A vcpu's call as one of the backend's. *)
Definition k_call (r : KvmVcpu V * (unit + Error)) (m : KvmHost) : KvmHost * option Error :=
  (set_cpu m (fst r), match snd r with inl _ => None | inr e => Some e end).

(** The run's thread, and what the guest does to RAM in one call. *)
Variables (tid : Z) (guest : KvmHost -> GuestRam -> GuestRam).
Hypothesis guest_ram : forall m r, ram_wf r -> ram_wf (guest m r) /\ same_region r (guest m r).

#[export] Instance kvm_backend : Backend KvmHost (list (Z * list Z)) := {|
  be_gic_info m := Some (kvm_gic (kh_vm m));
  be_set_irq := k_set_irq;
  be_capture_gic := k_capture_gic;
  be_restore_gic := k_restore_gic;
  be_request_stop := k_signal;
  be_apply_cpu_template m t := k_call (k_apply_cpu_template (kh_cpu m) t) m;
  be_set_boot_regs m entry dtb := k_call (k_set_boot_regs (kh_cpu m) entry dtb) m;
  be_run m r := let '(tids, v, x) := k_run (kick_tids (kh_vm m)) tid (kh_cpu m) in Some (set_tids (set_cpu m v) tids, guest m r, x);
  be_complete_mmio_read m x := (set_cpu m (k_complete_mmio_read (kh_cpu m) x), None);
  be_advance_mmio m := k_call (k_advance_mmio (kh_cpu m)) m;
  be_pending_timer_ns _ := None;
  be_capture m := k_capture (kh_cpu m);
  be_restore m c := k_call (k_restore (kh_cpu m) c) m
|}.

(** A VM of the same shape, on a kernel that takes back what it gave: every
    listed controller register, and of the vcpu at least x0 to x30, SP, PC and
    PSTATE, each listed once. *)
Definition core_listed (snap : list (Z * list Z)) : Prop :=
  NoDup (map fst snap) /\ (forall i, 0 <= i <= 33 -> x_reg i ∈ map fst snap)
  /\ exists acc, (forall f id bs, (id, bs) ∈ snap -> is_Some (set_one_reg f id bs) <-> acc id = true)
     /\ (forall i, 0 <= i <= 33 -> acc (x_reg i) = true).
Definition kvm_takes (m m0 : KvmHost) : Prop :=
  kvm_gic (kh_vm m0) = kvm_gic (kh_vm m) /\ kvm_vcpus (kh_vm m0) = kvm_vcpus (kh_vm m)
  /\ Z.of_nat (kvm_vcpus (kh_vm m)) < 2 ^ 26
  /\ (forall (u : G) a x, a ∈ addr_list NR_IRQS (Z.of_nat (kvm_vcpus (kh_vm m))) -> snd (vg_set u a x) = true)
  /\ (forall snap, k_capture (kh_cpu m) = inl snap -> core_listed snap).

(** What the guest sees of its vcpu. *)
Definition kvm_view (m : KvmHost) : list (option Z) :=
  map (fun i => match k_get_reg (kh_cpu m) (x_reg (Z.of_nat i)) with inl x => Some x | inr _ => None end) (seq 0 34).

Lemma k_restore_view (v w : KvmVcpu V) (snap : list (Z * list Z)) : k_capture v = inl snap -> core_listed snap ->
  exists w', k_restore w snap = (w', inl tt) /\ forall i, 0 <= i <= 33 -> k_get_reg w' (x_reg i) = k_get_reg v (x_reg i).
Proof.
  intros Hc (Nd & In_ & acc & Ha & Ac).
  destruct (restored_reg v w snap acc 0 Hc Nd Ha ltac:(lia) (In_ 0 ltac:(lia)) (Ac 0 ltac:(lia))) as (w' & E & _).
  exists w'. split; [done|]. intros i Li. destruct (restored_reg v w snap acc i Hc Nd Ha Li (In_ i Li) (Ac i Li)) as (w1 & E1 & R).
  assert (w1 = w') as <- by congruence. done.
Qed.

#[export, refine] Instance kvm_laws : BackendLaws KvmHost (list (Z * list Z)) := {|
  be_view := kvm_view;
  be_takes := kvm_takes
|}.
Proof.
  - intros m m0 (E & _). cbn. by rewrite E.
  - intros m r m' r' x. cbn. destruct (k_run _ _ _) as [[tids v] y]. intros [= <- <- <-]. by apply guest_ram.
  - intros m m0 g (Eg & En & Lv & Gw & Cl). cbn. unfold k_capture_gic, k_restore_gic. intros Hc. rewrite En.
    destruct (kgic_roundtrip (kh_vgic m) (kh_vgic m0) NR_IRQS (Z.of_nat (kvm_vcpus (kh_vm m))) g ltac:(unfold NR_IRQS; lia) ltac:(lia)
      (addr_list_fits _ (conj (Nat2Z.is_nonneg _) Lv)) Hc Gw) as (w & -> & R & _).
    eexists. split; [done|]. cbn. rewrite En. split; [|by split].
    by rewrite (capture_ext w (kh_vgic m)).
  - intros m m0 c (Eg & En & _ & _ & Cl). cbn. intros Hc. destruct (k_restore_view _ (kh_cpu m0) c Hc (Cl c Hc)) as (w & E & R).
    assert (Vw : kvm_view (set_cpu m0 w) = kvm_view m).
    { unfold kvm_view. apply map_ext_in. intros i Hi%in_seq. cbn [kh_cpu set_cpu]. by rewrite R by lia. }
    unfold k_call. rewrite E. cbn [fst snd]. eexists. split; [done|]. split; [exact Vw|done].
Defined.

End KvmBackend.

(** ** A concrete backend *)

#[export] Instance map_irq : IrqLine (gmap Addr Z) := fun g line level => (<[(0, line) := b2z level]> g, true).
Definition core_fd (x : Z) (on : bool) : DemoFd :=
  mkDemoFd (map (fun i => (x_reg (Z.of_nat i), le_bytes 8 (x + Z.of_nat i))) (seq 0 34)) on (KExit KSystemEvent).
Definition demo_host (x : Z) (on : bool) (g : gmap Addr Z) : KvmHost (V := DemoFd) (G := gmap Addr Z) :=
  mkKvmHost (mkKvmVm (mkGicInfo GICD_BASE GICD_SIZE GICR_BASE GICR_PER_CPU V3) 1 [] []) (mkKvmVcpu (core_fd x on) (replicate 8 0) 0 false) g [].
Definition demo_gic : gmap Addr Z := {[ (GRP_DIST_REGS, 0x104) := 5 ]}.
Definition calm_guest (m : KvmHost (V := DemoFd) (G := gmap Addr Z)) (r : GuestRam) : GuestRam := r.

Lemma calm_ram m r : ram_wf r -> ram_wf (calm_guest m r) /\ same_region r (calm_guest m r).
Proof. done. Qed.

Lemma demo_takes : kvm_takes (demo_host 7 true demo_gic) (demo_host 0 false ∅).
Proof.
  split; [done|]. split; [done|]. split; [cbn; lia|]. split; [done|]. intros snap Hc.
  assert (E : snap = map (fun i => (x_reg (Z.of_nat i), le_bytes 8 (7 + Z.of_nat i))) (seq 0 34)).
  { vm_compute in Hc. injection Hc as <-. vm_compute. reflexivity. }
  assert (Ids : map fst snap = map (fun i => x_reg (Z.of_nat i)) (seq 0 34)) by (by rewrite E, map_map).
  split; [rewrite Ids; refine (bool_decide_unpack _ _); vm_compute; exact I|]. split.
  - intros i Li. rewrite Ids. apply list_elem_of_In, in_map_iff. exists (Z.to_nat i). rewrite Z2Nat.id by lia. split; [done|]. apply in_seq. lia.
  - exists (fun id => negb (id =? RO_REG)). split.
    { intros f id bs _. clear. cbn [set_one_reg DemoFd_KvmFd]. destruct (id =? RO_REG); cbn [negb]; split; intros X; [by destruct X|done|done|by eexists]. }
    intros i Li. apply negb_true_iff, Z.eqb_neq. rewrite x_reg_eq by lia. unfold RO_REG. lia.
Qed.

