(* ===== verification/HvfHost.v ===== *)
(** * HvfHost: the macOS backend's life (crates/amber-hvf/src/lib.rs: create,
    create_gic, create_vcpu, the Drop impls, the in-kernel GIC;
    crates/amber-core/src/vm.rs: what run owns; crates/amber-core/src/memory.rs:
    Drop)

    [Hvf] is a vcpu and what the vcpus share. Here is how they come and go: the
    framework's calls, in order, with the thread that makes each, of a VM that
    is created, runs its vcpus on a thread each, and is dropped. A call's
    answer is an argument, from all calls before it; the rules the framework
    documents for its calls are a state of their own, [Framework].

    [create_spec]; [teardown]: every thing created is released, in an order the
    framework and the memory allow; [create_leaks]: except where [create]
    itself fails; [hw_gic_roundtrip]. *)

From S2P Require Import Prelude Memory Gicv2 Machine Hvf.
#[local] Open Scope Z_scope.

(** ** The calls *)

(** The functions of ffi.rs these paths call; [VcpuCreate] and what follows
    name the calling thread. [Munmap] is guest RAM's own Drop. *)
Inductive HvCall :=
| VmCreate | VmMap (ipa size flags : Z) | VmDestroy
| GicDistSize | GicRedistSize | GicRedistAlign
| GicConfigCreate | GicSetDist (base : Z) | GicSetRedist (base : Z) | GicCreate | GicSpiRange
| VcpuCreate (tid : nat) | SetMpidr (tid : nat) (handle value : Z) | VcpuDestroy (tid : nat) (handle : Z)
| Munmap.

(** A call with its answer: [None] is a status that is not [HV_SUCCESS] (for
    [GicConfigCreate], a null); a value is what the call hands out. *)
Abbreviation Log := (list (HvCall * option Z)).
Definition Answers : Type := Log -> HvCall -> option Z.

(** [check] and [?] over the log. *)
Definition H (A : Type) : Type := Log -> Log * (A + Error).
Definition retH {A} (x : A) : H A := fun l => (l, inl x).
Definition errH {A} (e : Error) : H A := fun l => (l, inr e).
Definition bindH {A B} (m : H A) (k : A -> H B) : H B :=
  fun l => let '(l', r) := m l in match r with inl x => k x l' | inr e => (l', inr e) end.

Section Backend.
Context (ans : Answers).

Definition hv_call (c : HvCall) : H Z :=
  fun l => let a := ans l c in (l ++ [(c, a)], match a with Some v => inl v | None => inr EBackend end).
(** A call whose status nobody looks at. *)
Definition hv_do (c : HvCall) : H unit := fun l => (l ++ [(c, ans l c)], inl tt).

#[local] Notation "x <- m ;; k" := (bindH m (fun x => k)) (at level 100, m at next level, right associativity).
#[local] Notation "m ;;; k" := (bindH m (fun _ => k)) (at level 100, right associativity).

Definition HV_MEMORY : Z := Z.lor (Z.lor (Z.shiftl 1 0) (Z.shiftl 1 1)) (Z.shiftl 1 2).

(** [swgic_mode]: the feature is compiled in and AMBER_GIC is not "hw". *)
Definition swgic_mode (feature : bool) (amber_gic : option string) : bool :=
  feature && negb (match amber_gic with Some s => String.eqb s "hw" | None => false end).

(** [create_gic]: [Hvf.create_gic] places it, from the sizes. *)
Definition create_gic_hw : H GicInfo :=
  dist_size <- hv_call GicDistSize ;;
  redist_size <- hv_call GicRedistSize ;;
  redist_align <- hv_call GicRedistAlign ;;
  match create_gic dist_size redist_size redist_align with
  | inr e => errH e
  | inl gic =>
      hv_call GicConfigCreate ;;;
      hv_call (GicSetDist (dist_base gic)) ;;;
      hv_call (GicSetRedist (redist_base gic)) ;;;
      hv_call GicCreate ;;;
      hv_call GicSpiRange ;;;
      retH gic
  end.

(** [HvfVm]: the controller's place, what the vcpus share, and the handles. *)
Record HvfVm := mkVm { vm_gic : GicInfo; vm_shared : VmShared; vm_handles : list Z }.

(** [create]; [create_made] is what follows the VM's own creation. *)
Definition create_made (sw : bool) (base size : Z) (vcpus : nat) : H HvfVm :=
  hv_call (VmMap base size HV_MEMORY) ;;;
  match hvf_create sw vcpus with
  | inr e => errH e
  | inl sh =>
      gic <- (if sw then retH sw_gic_info else create_gic_hw) ;;
      retH (mkVm gic sh [])
  end.
Definition create (sw : bool) (base size : Z) (vcpus : nat) : H HvfVm :=
  hv_call VmCreate ;;; create_made sw base size vcpus.

(** [create_vcpu] on thread [tid]: the handle; the handles gain it. *)
Definition new_vcpu (tid id : nat) (vm : HvfVm) : H (HvfVm * Z) :=
  h <- hv_call (VcpuCreate tid) ;;
  hv_call (SetMpidr tid h (Z.lor 0x80000000 (u8 (Z.of_nat id)))) ;;;
  let sh := vm_shared vm in
  retH (mkVm (vm_gic vm) (if (id =? 0)%nat then set_cpu_on sh (<[0%nat := On]> (cpu_on sh)) else sh) (vm_handles vm ++ [h]), h).

(** ** A VM's whole life ([Vm::run]) *)

(** A secondary's thread: not yet at [create_vcpu], with its vcpu, or gone.
    Secondary [i] (from 0) is vcpu and thread [i + 1]. *)
Inductive SecPhase := SecNew | SecLive (handle : Z) | SecGone.

(** One turn of secondary [i]: it makes its vcpu ([secondary_loop]; a failure
    ends the thread), or it leaves its loop and drops it. *)
Definition sec_turn (i : nat) (st : list SecPhase * HvfVm) : H (list SecPhase * HvfVm) :=
  fun l =>
    let '(ps, vm) := st in
    match ps !! i with
    | Some SecNew =>
        match new_vcpu (S i) (S i) vm l with
        | (l', inl (vm', h)) => (l', inl (<[i := SecLive h]> ps, vm'))
        | (l', inr _) => (l', inl (<[i := SecGone]> ps, vm))
        end
    | Some (SecLive h) => (hv_do (VcpuDestroy (S i) h) ;;; retH (<[i := SecGone]> ps, vm)) l
    | _ => (l, inl (ps, vm))
    end.
Fixpoint sec_turns (sched : list nat) (st : list SecPhase * HvfVm) : H (list SecPhase * HvfVm) :=
  match sched with [] => retH st | i :: s => st' <- sec_turn i st ;; sec_turns s st' end.

(** [thread::scope]: the secondaries take turns in any order, and every one is
    joined: after a schedule, each has the turns it needs to end. *)
Definition scope (n : nat) (sched : list nat) (vm : HvfVm) : H (list SecPhase * HvfVm) :=
  sec_turns (sched ++ concat (map (fun i => [i; i]) (seq 0 n))) (replicate n SecNew, vm).

(** [Vm::run], by what it owns: RAM outlives the VM, the VM its vcpus. The
    locals drop in reverse: vcpu 0, [hv], the Vm's fields, of which RAM is the
    last. [before] is whether the steps between vcpu 0 and the scope (restore
    or boot registers, the lockdown) succeed. *)
Definition with_vcpu (vcpus : nat) (sched : list nat) (before : bool) (vm : HvfVm) : H unit :=
  r <- new_vcpu 0 0 vm ;;
  (if before then scope (vcpus - 1) sched (fst r) ;;; retH tt else retH tt) ;;;
  hv_do (VcpuDestroy 0 (snd r)).
Definition run_vm (sw : bool) (base size : Z) (vcpus : nat) (sched : list nat) (before : bool) : Log :=
  match create sw base size vcpus [] with
  | (l, inr _) => fst (hv_do Munmap l)
  | (l, inl vm) => fst (hv_do Munmap (fst (hv_do VmDestroy (fst (with_vcpu vcpus sched before vm l)))))
  end.
End Backend.

(** ** The in-kernel controller *)

(** The framework's calls on its controller: [None] is a status that is not
    [HV_SUCCESS], or a null state object. [hv_gic_state_get_data] fills a
    buffer of the size it is given. *)
Class HwGic (G S : Type) := {
  hv_gic_set_spi : G -> Z -> bool -> option G;
  hv_gic_state_create : G -> option S;
  hv_gic_state_get_size : S -> option Z;
  hv_gic_state_get_data : S -> list Z -> option (list Z);
  hv_gic_set_state : G -> list Z -> option G
}.

Section HwGic.
Context {G S : Type} `{HwGic G S}.

(** [set_irq], [capture_gic] and [restore_gic] of [HvfVm]: the software GIC if
    there is one, else the framework's. *)
Definition hvm_set_irq (m : VmShared * G) (intid : Z) (level : bool) : (VmShared * G) * option Error :=
  match swgic (fst m) with
  | Some _ => ((hvf_set_irq (fst m) intid level, snd m), None)
  | None => match hv_gic_set_spi (snd m) intid level with Some g => ((fst m, g), None) | None => (m, Some EBackend) end
  end.
Definition hw_state (g : G) : Result (list Z) :=
  match hv_gic_state_create g with
  | None => inr ESnapshot
  | Some state =>
      match hv_gic_state_get_size state with
      | None => inr EBackend
      | Some size => match hv_gic_state_get_data state (zeros size) with Some buf => inl buf | None => inr EBackend end
      end
  end.
Definition hvm_capture_gic (m : VmShared * G) : Result (list Z) :=
  match hvf_capture_gic (fst m) with Some b => inl b | None => hw_state (snd m) end.
Definition hvm_restore_gic (m : VmShared * G) (blob : list Z) : (VmShared * G) * option Error :=
  match swgic (fst m) with
  | Some _ => ((hvf_restore_gic (fst m) blob, snd m), None)
  | None => match hv_gic_set_state (snd m) blob with Some g => ((fst m, g), None) | None => (m, Some EBackend) end
  end.
End HwGic.

(** Documented: a state that was captured can be set, and is then the state. *)
Class HwGicLaws (G S : Type) `{HwGic G S} := {
  hw_set_captured : forall g g0 b, hw_state g = inl b -> exists g1, hv_gic_set_state g0 b = Some g1 /\ hw_state g1 = inl b
}.

(** ** The framework's rules *)

(** What exists: the VM, the RAM mapped into it, its controller, its vcpus
    with the threads they belong to, and the process's own mapping of RAM. *)
Record Framework := mkFw { fw_vm : bool; fw_map : option (Z * Z); fw_gic : bool; fw_vcpus : list (Z * nat); fw_ram : bool }.
Definition fw0 : Framework := mkFw false None false [] true.

(** Documented: one VM per process; page-aligned mappings of memory the
    process has; a controller before any vcpu; one vcpu per thread, which is
    used and destroyed on its thread; no VM is destroyed with vcpus. RAM that
    is mapped into a VM must stay. *)
Definition fw_owns (f : Framework) (h : Z) (t : nat) : bool := existsb (fun p => (fst p =? h) && (snd p =? t)%nat) (fw_vcpus f).
Definition fw_call (f : Framework) (c : HvCall) (v : Z) : option Framework :=
  match c with
  | VmCreate => if fw_vm f then None else Some (mkFw true None false [] (fw_ram f))
  | VmMap ipa size _ =>
      if fw_vm f && fw_ram f && (ipa mod 16384 =? 0) && (size mod 16384 =? 0)
      then Some (mkFw true (Some (ipa, size)) (fw_gic f) (fw_vcpus f) true) else None
  | VmDestroy =>
      if fw_vm f && (length (fw_vcpus f) =? 0)%nat then Some (mkFw false None false [] (fw_ram f)) else None
  | GicCreate =>
      if fw_vm f && negb (fw_gic f) && (length (fw_vcpus f) =? 0)%nat then Some (mkFw true (fw_map f) true [] (fw_ram f)) else None
  | VcpuCreate t =>
      if fw_vm f && negb (existsb (fun p => (fst p =? v) || (snd p =? t)%nat) (fw_vcpus f))
      then Some (mkFw true (fw_map f) (fw_gic f) ((v, t) :: fw_vcpus f) (fw_ram f)) else None
  | SetMpidr t h _ => if fw_owns f h t then Some f else None
  | VcpuDestroy t h =>
      if fw_owns f h t
      then Some (mkFw (fw_vm f) (fw_map f) (fw_gic f) (filter (fun p => fst p <> h) (fw_vcpus f)) (fw_ram f)) else None
  | Munmap =>
      match fw_map f with Some _ => None | None => if fw_ram f then Some (mkFw (fw_vm f) None (fw_gic f) (fw_vcpus f) false) else None end
  | _ => Some f
  end.
(** A call that fails changes nothing; one that succeeds against the rules is
    [None]. *)
Definition fw_entry (f : Framework) (e : HvCall * option Z) : option Framework :=
  match snd e with Some v => fw_call f (fst e) v | None => Some f end.
Fixpoint fw_calls (f : Framework) (l : Log) : option Framework :=
  match l with [] => Some f | e :: l' => f' ← fw_entry f e; fw_calls f' l' end.

(** Answers of a framework that hands out no live vcpu's handle, and takes the
    calls a live vcpu, VM or mapping cannot refuse. *)
Record Sound (ans : Answers) : Prop := {
  so_fresh : forall l f t v, fw_calls fw0 l = Some f -> ans l (VcpuCreate t) = Some v -> ~ In v (map fst (fw_vcpus f));
  so_mpidr : forall l t h x, is_Some (ans l (SetMpidr t h x));
  so_vcpu : forall l t h, is_Some (ans l (VcpuDestroy t h));
  so_vm : forall l, is_Some (ans l VmDestroy);
  so_munmap : forall l, is_Some (ans l Munmap)
}.

(** ** Lemmas *)

Lemma fw_calls_app l1 l2 f : fw_calls f (l1 ++ l2) = f' ← fw_calls f l1; fw_calls f' l2.
Proof. revert f. induction l1 as [|e l1 IH]; intros f; [done|]. cbn [app fw_calls]. destruct (fw_entry f e); [apply IH|done]. Qed.
Lemma fw_calls_snoc l f c a : fw_calls fw0 l = Some f -> fw_calls fw0 (l ++ [(c, a)]) = fw_entry f (c, a).
Proof. intros E. rewrite fw_calls_app, E. cbn. by destruct (fw_entry f (c, a)). Qed.

(** What a computation does to the framework's state. *)
Definition spec {A} (f : Framework) (m : H A) (Q : A + Error -> Framework -> Prop) : Prop :=
  forall l, fw_calls fw0 l = Some f -> exists f', fw_calls fw0 (fst (m l)) = Some f' /\ Q (snd (m l)) f'.

Lemma spec_ret {A} f (x : A) (Q : A + Error -> Framework -> Prop) : Q (inl x) f -> spec f (retH x) Q.
Proof. intros q l E. by exists f. Qed.
Lemma spec_err {A} f e (Q : A + Error -> Framework -> Prop) : Q (inr e) f -> spec f (errH e) Q.
Proof. intros q l E. by exists f. Qed.
Lemma spec_bind {A B} f (m : H A) (k : A -> H B) (Q : B + Error -> Framework -> Prop) :
  spec f m (fun r f' => match r with inl x => spec f' (k x) Q | inr e => Q (inr e) f' end) -> spec f (bindH m k) Q.
Proof.
  intros S l E. destruct (S l E) as (f' & E' & R). unfold bindH. destruct (m l) as [l' [x|e]]; cbn in *; [by apply R|by exists f'].
Qed.
Lemma spec_weaken {A} f (m : H A) (P Q : A + Error -> Framework -> Prop) :
  (forall r f', P r f' -> Q r f') -> spec f m P -> spec f m Q.
Proof. intros I S l E. destruct (S l E) as (f' & E' & R). exists f'. split; [done|by apply I]. Qed.

Section Lemmas.
Context (ans : Answers).

Lemma spec_call f c (Q : Z + Error -> Framework -> Prop) :
  (forall l v, fw_calls fw0 l = Some f -> ans l c = Some v -> exists f', fw_call f c v = Some f' /\ Q (inl v) f') ->
  Q (inr EBackend) f -> spec f (hv_call ans c) Q.
Proof.
  intros Y N l E. unfold hv_call. destruct (ans l c) as [v|] eqn:Ea; cbn [fst snd]; rewrite (fw_calls_snoc _ _ _ _ E).
  - destruct (Y l v E Ea) as (f' & E' & q). by exists f'.
  - by exists f.
Qed.
Lemma spec_do f c (Q : unit + Error -> Framework -> Prop) :
  (forall l, is_Some (ans l c)) -> (forall v, exists f', fw_call f c v = Some f' /\ Q (inl tt) f') -> spec f (hv_do ans c) Q.
Proof.
  intros Y N l E. unfold hv_do. destruct (Y l) as [v Ea]. rewrite Ea. cbn [fst snd]. rewrite (fw_calls_snoc _ _ _ _ E).
  destruct (N v) as (f' & E' & q). by exists f'.
Qed.

Definition fw_made (sw : bool) (base size : Z) : Framework := mkFw true (Some (base, size)) (negb sw) [] true.

Lemma create_gic_error a b c e : create_gic a b c = inr e -> e = EBackend.
Proof. unfold create_gic. cbv zeta. do 2 (destruct (_ <? _); [by intros [= <-]|]). done. Qed.

(** The call just made is one the rules take. *)
Ltac hv_call_step := apply spec_bind, spec_call; [intros ? ? ? _; eexists; split; [reflexivity|]|].

Lemma create_gic_rules base size :
  spec (fw_made true base size) (create_gic_hw ans)
    (fun r f => match r with inl _ => f = fw_made false base size | inr e => e = EBackend /\ fw_vm f = true /\ fw_map f = Some (base, size) end).
Proof.
  unfold create_gic_hw. do 3 (hv_call_step; [|done]).
  destruct (create_gic v v0 v1) as [g|e] eqn:Eg; [|apply spec_err; by rewrite (create_gic_error _ _ _ _ Eg)].
  do 5 (hv_call_step; [|done]). by apply spec_ret.
Qed.

Lemma create_made_rules sw base size vcpus : base mod 16384 = 0 -> size mod 16384 = 0 ->
  spec (mkFw true None false [] true) (create_made ans sw base size vcpus)
    (fun r f => match r with
     | inl vm => f = fw_made sw base size /\ vm_handles vm = []
     | inr e => e = EBackend /\ fw_vm f = true end).
Proof.
  intros Eb Es. unfold create_made.
  apply spec_bind, spec_call; [intros ? ? ? _; eexists; split; [cbn; by rewrite Eb, Es|]|done].
  destruct (hvf_create sw vcpus) as [sh|e] eqn:Ec.
  2:{ apply spec_err. unfold hvf_create in Ec. destruct sw; [done|]. destruct (1 <? _)%nat; [|done]. by injection Ec as <-. }
  apply spec_bind. destruct sw; [by repeat apply spec_ret|].
  eapply spec_weaken; [|apply create_gic_rules]. intros [g|e] f; [intros ->; by apply spec_ret|]. by intros (-> & V & _).
Qed.

Lemma create_rules sw base size vcpus : base mod 16384 = 0 -> size mod 16384 = 0 ->
  spec fw0 (create ans sw base size vcpus)
    (fun r f => match r with
     | inl vm => f = fw_made sw base size /\ vm_handles vm = []
     | inr e => e = EBackend /\ (f = fw0 \/ fw_vm f = true) end).
Proof.
  intros Eb Es. unfold create. hv_call_step; [|by auto]. eapply spec_weaken; [|by apply create_made_rules].
  intros [vm|e] f; [done|]. by intros [-> V]; auto.
Qed.

(** *** Vcpus *)

Definition fw_add (f : Framework) (h : Z) (t : nat) : Framework :=
  mkFw true (fw_map f) (fw_gic f) ((h, t) :: fw_vcpus f) (fw_ram f).
Definition fw_drop (f : Framework) (h : Z) : Framework :=
  mkFw (fw_vm f) (fw_map f) (fw_gic f) (filter (fun p => fst p <> h) (fw_vcpus f)) (fw_ram f).

Lemma fw_owns_in f h t : fw_owns f h t = true <-> In (h, t) (fw_vcpus f).
Proof.
  unfold fw_owns. rewrite existsb_exists. split.
  - intros ([h' t'] & I & E). cbn in E. apply andb_true_iff in E as [->%Z.eqb_eq ->%Nat.eqb_eq]. done.
  - intros I. exists (h, t). cbn. by rewrite Z.eqb_refl, Nat.eqb_refl.
Qed.

Context (sound : Sound ans).

Lemma new_vcpu_rules f t id vm : fw_vm f = true -> (forall h, ~ In (h, t) (fw_vcpus f)) ->
  spec f (new_vcpu ans t id vm)
    (fun r f' => match r with inl (_, h) => f' = fw_add f h t /\ ~ In h (map fst (fw_vcpus f)) | inr _ => f' = f end).
Proof.
  intros V T. unfold new_vcpu. apply spec_bind, spec_call; [|done]. intros l h E Ea.
  pose proof (so_fresh _ sound _ _ _ _ E Ea) as F.
  exists (fw_add f h t). split.
  { cbn. rewrite V. destruct (existsb _ _) eqn:X; [|done]. exfalso. apply existsb_exists in X as ([h' t'] & I & X).
    cbn in X. apply orb_true_iff in X as [X|X]; [apply Z.eqb_eq in X as ->|apply Nat.eqb_eq in X as ->].
    - apply F. apply in_map_iff. by exists (h, t').
    - by apply (T h'). }
  apply spec_bind. intros l' E'. unfold hv_call. destruct (so_mpidr _ sound l' t h (Z.lor 0x80000000 (u8 (Z.of_nat id)))) as [v Ev].
  rewrite Ev. cbn [fst snd]. rewrite (fw_calls_snoc _ _ _ _ E'). exists (fw_add f h t). split; [|apply spec_ret; by split].
  unfold fw_entry, fw_call. cbn [fst snd]. by rewrite (proj2 (fw_owns_in (fw_add f h t) h t) (or_introl eq_refl)).
Qed.

Lemma drop_vcpu_rules f t h : In (h, t) (fw_vcpus f) -> spec f (hv_do ans (VcpuDestroy t h)) (fun r f' => r = inl tt /\ f' = fw_drop f h).
Proof. intros I. apply spec_do; [intros l; apply (so_vcpu _ sound)|]. intros v. exists (fw_drop f h). split; [|done]. cbn. by rewrite (proj2 (fw_owns_in f h t) I). Qed.

(** *** The secondaries *)

(** The framework holds vcpu 0's handle and those of the live secondaries,
    each with its thread. *)
Record Held (f : Framework) (h0 : Z) (ps : list SecPhase) : Prop := {
  he_vm : fw_vm f = true;
  he_ram : fw_ram f = true;
  he_once : NoDup (map fst (fw_vcpus f));
  he_who : forall h t, In (h, t) (fw_vcpus f) <-> (h, t) = (h0, 0%nat) \/ exists i, t = S i /\ ps !! i = Some (SecLive h)
}.

Lemma in_once {A B} (l : list (A * B)) a b b' : NoDup (map fst l) -> In (a, b) l -> In (a, b') l -> b = b'.
Proof.
  induction l as [|[x y] l IH]; cbn; [done|]. intros [Nx N]%NoDup_cons [E|I] [E'|I']; try congruence; try (by apply IH);
    exfalso; apply Nx, list_elem_of_In, in_map_iff; [injection E as -> ->; by exists (a, b')|injection E' as -> ->; by exists (a, b)].
Qed.

Lemma held_add f h0 ps i h : Held f h0 ps -> ps !! i = Some SecNew -> ~ In h (map fst (fw_vcpus f)) ->
  Held (fw_add f h (S i)) h0 (<[i := SecLive h]> ps).
Proof.
  intros [V R N W] P F. split; [done|done| |].
  - cbn. apply NoDup_cons. split; [by rewrite list_elem_of_In|done].
  - intros h' t'. cbn [fw_add fw_vcpus In]. rewrite W. split.
    + intros [[= <- <-]|[E|(j & -> & Pj)]]; [right; exists i; split; [done|apply list_lookup_insert_eq; by eapply lookup_lt_Some]|by left|].
      right. exists j. split; [done|]. rewrite list_lookup_insert_ne; [done|]. intros ->. congruence.
    + intros [E|(j & -> & Pj)]; [by auto|]. destruct (decide (j = i)) as [->|Ne].
      * rewrite list_lookup_insert_eq in Pj by (by eapply lookup_lt_Some). injection Pj as ->. by left.
      * rewrite list_lookup_insert_ne in Pj by done. right. right. by exists j.
Qed.

Lemma held_drop f h0 ps i h : Held f h0 ps -> ps !! i = Some (SecLive h) -> Held (fw_drop f h) h0 (<[i := SecGone]> ps).
Proof.
  intros [V R N W] P. assert (I : In (h, S i) (fw_vcpus f)) by (apply W; right; by exists i). split; [done|done| |].
  - cbn [fw_drop fw_vcpus]. clear - N. induction (fw_vcpus f) as [|[x y] l IH]; [constructor|].
    cbn in N. apply NoDup_cons in N as [Nx N]. rewrite filter_cons. destruct (decide _); [|by apply IH]. cbn [map fst]. apply NoDup_cons. split; [|by apply IH].
    intros C. apply Nx. apply list_elem_of_In, in_map_iff in C as ([x' y'] & E & C). cbn in E. subst x'. apply list_elem_of_In, in_map_iff.
    exists (x, y'). split; [done|]. apply list_elem_of_In, list_elem_of_filter in C as [_ C]. by apply list_elem_of_In.
  - intros h' t'. cbn [fw_drop fw_vcpus]. rewrite <- list_elem_of_In, list_elem_of_filter, list_elem_of_In, W. cbn [fst]. split.
    + intros [Ne [E|(j & -> & Pj)]]; [by left|]. right. exists j. split; [done|]. rewrite list_lookup_insert_ne; [done|]. intros ->. congruence.
    + intros [[= -> ->]|(j & -> & Pj)].
      * split; [|by left]. intros ->. assert (0%nat = S i); [|done]. apply (in_once (fw_vcpus f) h); [done|apply W; by left|done].
      * destruct (decide (j = i)) as [->|Ne]; [by rewrite list_lookup_insert_eq in Pj by (by eapply lookup_lt_Some)|].
        rewrite list_lookup_insert_ne in Pj by done. split; [|right; by exists j]. intros ->.
        assert (S j = S i) by (apply (in_once (fw_vcpus f) h); [done|apply W; right; by exists j|done]). lia.
Qed.

Lemma held_gone f h0 ps i : Held f h0 ps -> ps !! i = Some SecNew -> Held f h0 (<[i := SecGone]> ps).
Proof.
  intros [V R N W] P. split; [done|done|done|]. intros h t. rewrite W. split; (intros [E|(j & -> & Pj)]; [by left|right; exists j; split; [done|]]).
  - rewrite list_lookup_insert_ne; [done|]. intros ->. congruence.
  - destruct (decide (j = i)) as [->|Ne]; [by rewrite list_lookup_insert_eq in Pj by (by eapply lookup_lt_Some)|]. by rewrite list_lookup_insert_ne in Pj by done.
Qed.

(** How many turns a secondary still has. *)
Definition turns_left (ps : list SecPhase) (i : nat) : nat :=
  match ps !! i with Some SecNew => 2 | Some (SecLive _) => 1 | _ => 0 end.

Lemma turns_insert ps i p j : is_Some (ps !! i) ->
  turns_left (<[i := p]> ps) j = if (j =? i)%nat then match p with SecNew => 2%nat | SecLive _ => 1%nat | SecGone => 0%nat end else turns_left ps j.
Proof.
  intros [q P]. unfold turns_left. destruct (Nat.eqb_spec j i) as [->|Ne].
  - rewrite list_lookup_insert_eq by (by eapply lookup_lt_Some). by destruct p.
  - by rewrite list_lookup_insert_ne by done.
Qed.

Lemma sec_turn_rules f h0 i ps vm : Held f h0 ps ->
  spec f (sec_turn ans i (ps, vm)) (fun r f' => exists ps' vm', r = inl (ps', vm') /\ Held f' h0 ps'
    /\ forall j, (turns_left ps' j <= turns_left ps j - (if (j =? i)%nat then 1 else 0))%nat).
Proof.
  intros Hd l E. unfold sec_turn. destruct (ps !! i) as [[|h|]|] eqn:P.
  - assert (T : forall h, ~ In (h, S i) (fw_vcpus f)).
    { intros h I. apply (he_who _ _ _ Hd) in I as [[=]|(j & [= <-] & Pj)]. congruence. }
    destruct (new_vcpu_rules f (S i) (S i) vm (he_vm _ _ _ Hd) T l E) as (f' & E' & Q).
    destruct (new_vcpu ans (S i) (S i) vm l) as [l' [[vm' h]|e]]; cbn [fst snd] in *; exists f'; (split; [done|]); do 2 eexists; (split; [done|]).
    + destruct Q as [-> F]. split; [by apply held_add|]. intros j. rewrite turns_insert by done.
      unfold turns_left. destruct (Nat.eqb_spec j i) as [->|]; [rewrite P; lia|lia].
    + subst f'. split; [by apply held_gone|]. intros j. rewrite turns_insert by done. destruct (_ =? _)%nat; lia.
  - assert (I : In (h, S i) (fw_vcpus f)) by (apply (he_who _ _ _ Hd); right; by exists i).
    destruct (drop_vcpu_rules f (S i) h I l E) as (f' & E' & Q). unfold bindH. destruct (hv_do ans _ l) as [l' r]. cbn [fst snd] in *.
    destruct Q as [-> ->]. exists (fw_drop f h). split; [done|]. do 2 eexists. split; [done|]. split; [by eapply held_drop|].
    intros j. rewrite turns_insert by done. destruct (_ =? _)%nat; lia.
  - exists f. split; [done|]. exists ps, vm. split; [done|]. split; [done|]. intros j. unfold turns_left.
    destruct (Nat.eqb_spec j i) as [->|]; [rewrite P|]; lia.
  - exists f. split; [done|]. exists ps, vm. split; [done|]. split; [done|]. intros j. unfold turns_left.
    destruct (Nat.eqb_spec j i) as [->|]; [rewrite P|]; lia.
Qed.

Lemma sec_turns_rules sched : forall f h0 ps vm, Held f h0 ps ->
  spec f (sec_turns ans sched (ps, vm)) (fun r f' => exists ps' vm', r = inl (ps', vm') /\ Held f' h0 ps'
    /\ forall j, (turns_left ps' j <= turns_left ps j - count_occ Nat.eq_dec sched j)%nat).
Proof.
  induction sched as [|i sched IH]; intros f h0 ps vm Hd.
  { apply spec_ret. exists ps, vm. split; [done|]. split; [done|]. intros j. cbn. lia. }
  cbn [sec_turns]. apply spec_bind. eapply spec_weaken; [|by apply sec_turn_rules].
  intros r f' (ps' & vm' & -> & Hd' & L). eapply spec_weaken; [|by apply IH].
  intros r f2 (ps2 & vm2 & -> & Hd2 & L2). exists ps2, vm2. split; [done|]. split; [done|].
  intros j. specialize (L j). specialize (L2 j). cbn [count_occ]. destruct (Nat.eq_dec i j) as [->|Ne].
  - rewrite Nat.eqb_refl in L. lia.
  - destruct (Nat.eqb_spec j i); [congruence|]. lia.
Qed.

Lemma count_joins n j : (j < n)%nat -> (2 <= count_occ Nat.eq_dec (concat (map (fun i => [i; i]) (seq 0 n))) j)%nat.
Proof.
  intros L. assert (I : In j (seq 0 n)) by (apply in_seq; lia). clear L. induction (seq 0 n) as [|i l IH]; [done|].
  cbn [map concat app count_occ]. destruct I as [->|I].
  - destruct (Nat.eq_dec j j); [lia|done].
  - specialize (IH I). destruct (Nat.eq_dec i j); lia.
Qed.

Lemma scope_rules f h0 n sched vm : fw_vm f = true -> fw_ram f = true -> fw_vcpus f = [(h0, 0%nat)] ->
  spec f (scope ans n sched vm) (fun r f' => (exists st, r = inl st) /\ fw_vm f' = true /\ fw_ram f' = true /\
    In (h0, 0%nat) (fw_vcpus f') /\ Forall (fun p => fst p = h0) (fw_vcpus f')).
Proof.
  intros V R W. unfold scope. eapply spec_weaken; [|apply (sec_turns_rules _ f h0)].
  - intros r f' (ps & vm' & -> & [V' R' N' W'] & L). split; [by eexists|]. split; [done|]. split; [done|]. split; [apply W'; by left|].
    apply Forall_forall. intros [h t] I. apply list_elem_of_In, W' in I as [[= -> ->]|(i & -> & Pi)]; [done|]. exfalso.
    specialize (L i). unfold turns_left in L. rewrite Pi, count_occ_app in L. destruct (replicate n SecNew !! i) as [p|] eqn:Ep; [|lia].
    apply lookup_replicate in Ep as [-> Li]. pose proof (count_joins n i Li). lia.
  - split; [done|done|by rewrite W; repeat constructor; apply not_elem_of_nil|]. intros h t. rewrite W. cbn [In]. split.
    + intros [[= <- <-]|[]]. by left.
    + intros [[= -> ->]|(i & -> & Pi)]; [by left|]. apply lookup_replicate in Pi as [[=] _].
Qed.

Lemma with_vcpu_rules sw base size vcpus sched before vm :
  spec (fw_made sw base size) (with_vcpu ans vcpus sched before vm)
    (fun _ f => fw_vm f = true /\ fw_vcpus f = [] /\ fw_ram f = true).
Proof.
  unfold with_vcpu. apply spec_bind. eapply spec_weaken; [|apply new_vcpu_rules; [done|by intros h []]].
  intros [[vm' h]|e] f; [|intros ->; done]. intros [-> _]. apply spec_bind.
  apply (spec_weaken _ _ (fun r f' => (exists u, r = inl u) /\ fw_vm f' = true /\ fw_ram f' = true /\
    In (h, 0%nat) (fw_vcpus f') /\ Forall (fun p => fst p = h) (fw_vcpus f'))).
  - intros r f ([u ->] & V & R & I & F). cbn [snd]. eapply spec_weaken; [|by apply drop_vcpu_rules]. intros r f' [-> ->]. cbn. split; [done|]. split; [|done].
    clear - F. induction F as [|[x y] l E F IH]; [done|]. rewrite filter_cons. cbn [fst] in *. subst x. by destruct (decide (h <> h)).
  - destruct before; [|by apply spec_ret; repeat constructor; eauto]. apply spec_bind. eapply spec_weaken; [|by apply (scope_rules _ h)].
    intros r f ([st ->] & Q). apply spec_ret. split; [by eexists|done].
Qed.
End Lemmas.

(** ** The life of a VM *)

(** The calls of a [create] that succeeds. *)
Definition create_log (sw : bool) (base size : Z) (g : GicInfo) : list HvCall :=
  [VmCreate; VmMap base size HV_MEMORY] ++
  if sw then [] else [GicDistSize; GicRedistSize; GicRedistAlign; GicConfigCreate; GicSetDist (dist_base g); GicSetRedist (redist_base g); GicCreate; GicSpiRange].

Lemma bindH_bind {A B C} (m : H A) (k : A -> H B) (q : B -> H C) l : bindH (bindH m k) q l = bindH m (fun x => bindH (k x) q) l.
Proof. unfold bindH. by destruct (m l) as [l' [x|e]]. Qed.

(** The next call's two answers; the error's case is closed. *)
Ltac hv_answer :=
  rewrite ?bindH_bind;
  match goal with |- context [bindH (hv_call ?ans ?c) ?k ?l] =>
    change (bindH (hv_call ans c) k l) with (match snd (hv_call ans c l) with inl x => k x (l ++ [(c, ans l c)]) | inr e => (l ++ [(c, ans l c)], inr e) end);
    unfold hv_call at 1; cbn [snd]; destruct (ans l c) as [?|]; cbn [app];
    [|split; [done|]; left; match goal with |- exists _ _, ?L = _ => exists (removelast L); eexists; reflexivity end]
  end.

(** what [create] makes: when every call succeeds, what [Hvf.hvf_create] says
    and the controller [Hvf.create_gic] places for the sizes the framework
    reported, by these calls in this order; else the backend's error, from a
    call that failed, a placement that does not fit, or several vcpus without
    the software GIC. *)
Theorem create_spec (ans : Answers) (sw : bool) (base size : Z) (vcpus : nat) :
  let '(l, r) := create ans sw base size vcpus [] in
  match r with
  | inl vm => hvf_create sw vcpus = inl (vm_shared vm) /\ map fst l = create_log sw base size (vm_gic vm)
      /\ Forall (fun e => is_Some (snd e)) l
      /\ (if sw then vm_gic vm = sw_gic_info else exists d s a, create_gic d s a = inl (vm_gic vm)
           /\ In (GicDistSize, Some d) l /\ In (GicRedistSize, Some s) l /\ In (GicRedistAlign, Some a) l)
  | inr e => e = EBackend
      /\ ((exists l' c, l = l' ++ [(c, None)])
          \/ (sw = false /\ (1 < vcpus)%nat /\ map fst l = [VmCreate; VmMap base size HV_MEMORY])
          \/ (exists d s a, create_gic d s a = inr e /\ map fst l = [VmCreate; VmMap base size HV_MEMORY; GicDistSize; GicRedistSize; GicRedistAlign]))
  end.
Proof.
  unfold create, create_made, create_gic_hw. hv_answer. hv_answer.
  destruct (hvf_create sw vcpus) as [sh|e] eqn:Ec.
  2:{ unfold hvf_create in Ec. destruct sw; [done|]. destruct (Nat.ltb_spec 1 (Nat.max vcpus 1)); [|done]. injection Ec as <-.
      split; [done|]. right. left. split; [done|]. split; [lia|done]. }
  destruct sw; [by repeat constructor; eauto|].
  rewrite bindH_bind. do 3 hv_answer. destruct (create_gic _ _ _) as [g|e] eqn:Eg.
  2:{ pose proof (create_gic_error _ _ _ _ Eg) as ->. split; [done|]. right. right. do 3 eexists. by split; [exact Eg|]. }
  do 5 hv_answer. cbn. split; [done|]. split; [done|]. split; [repeat constructor; eauto|]. do 3 eexists. split; [done|]. repeat split; auto 10.
Qed.


(** a [create] that fails after the framework has made the VM leaves it there:
    no [HvfVm] exists to destroy it, and its process gets no other; and RAM
    that was mapped into it - with AMBER_GIC=hw and several vcpus, or where
    the controller does not fit - is unmapped under it. *)
Theorem create_leaks (ans : Answers) (sw : bool) (base size : Z) (vcpus : nat) (sched : list nat) (before : bool) (e : Error) :
  base mod 16384 = 0 -> size mod 16384 = 0 -> is_Some (ans [] VmCreate) -> snd (create ans sw base size vcpus []) = inr e ->
  exists l f, run_vm ans sw base size vcpus sched before = l ++ [(Munmap, ans l Munmap)] /\ fw_calls fw0 l = Some f
  /\ fw_vm f = true /\ (forall v, fw_call f VmCreate v = None)
  /\ (sw = false -> (1 < vcpus)%nat -> is_Some (ans [(VmCreate, ans [] VmCreate)] (VmMap base size HV_MEMORY)) ->
      forall v, fw_call f Munmap v = None).
Proof.
  intros Eb Es [v0 E0] Er. unfold run_vm. unfold create at 1. unfold create in Er. unfold bindH at 1, hv_call at 1. unfold bindH at 1, hv_call at 1 in Er.
  rewrite E0 in *. cbn [app] in *.
  destruct (create_made_rules ans sw base size vcpus Eb Es [(VmCreate, Some v0)] eq_refl) as (f & E & Q).
  destruct (create_made ans sw base size vcpus [(VmCreate, Some v0)]) as [l r] eqn:Ec. cbn [fst snd] in *. subst r. destruct Q as [_ V].
  exists l, f. split; [done|]. split; [done|]. split; [done|]. split; [intros v; cbn; by rewrite V|].
  intros -> Lv [w Ew] v. revert Ec. unfold create_made, bindH at 1, hv_call at 1. rewrite Ew. unfold hvf_create.
  destruct (Nat.ltb_spec 1 (Nat.max vcpus 1)); [|lia]. intros [= <- _]. cbn in E. rewrite Eb, Es in E. cbn in E. by injection E as <-.
Qed.

(** ** The in-kernel controller's state *)

(** a captured controller resumes on a VM of the same kind, software or
    in-kernel: restoring succeeds, and capturing again gives the same bytes. *)
Theorem hw_gic_roundtrip {G S : Type} `{HwGicLaws G S} (m m0 : VmShared * G) (b : list Z) :
  match swgic (fst m), swgic (fst m0) with
  | Some g, Some g0 => gic_wf g /\ Forall (fun b => (length (Gicv2.running b) <= 255)%nat) (Gicv2.cpus g) /\ (num_cpus g0 <= num_cpus g)%nat
  | None, None => True
  | _, _ => False
  end ->
  hvm_capture_gic m = inl b ->
  exists m1, hvm_restore_gic m0 b = (m1, None) /\ hvm_capture_gic m1 = inl b.
Proof.
  unfold hvm_capture_gic, hvm_restore_gic, hvf_capture_gic, hvf_restore_gic.
  destruct (swgic (fst m)) as [g|], (swgic (fst m0)) as [g0|] eqn:E0; try done; cbn [fmap option_fmap option_map].
  - intros (Wg & Rg & Lg) [= <-].
    assert (Rc : gic_restore g0 (gic_capture g) = g).
    { rewrite restore_capture by done. replace (num_cpus g0 - num_cpus g)%nat with O by lia. cbn. rewrite app_nil_r. by destruct g. }
    rewrite Rc. by eexists.
  - intros _ Hs. destruct (hw_set_captured _ (snd m0) _ Hs) as (g1 & E1 & Es). rewrite E1. eexists. split; [done|]. cbn. by rewrite E0.
Qed.

(** ** Instances *)

(** A framework that takes every call, with handles above the live ones. *)
Definition demo_answers : Answers := fun l c =>
  match c with
  | VcpuCreate _ => match fw_calls fw0 l with Some f => Some (1 + foldr Z.max 0 (map fst (fw_vcpus f))) | None => None end
  | GicDistSize => Some 0x10000
  | GicRedistSize => Some 0x20000
  | GicRedistAlign => Some 0x10000
  | _ => Some 0
  end.
Lemma above_max (l : list Z) (x : Z) : In x l -> x <= foldr Z.max 0 l.
Proof. induction l as [|y l IH]; cbn; [done|]. intros [->|I]; [lia|]. specialize (IH I). lia. Qed.
Lemma demo_sound : Sound demo_answers.
Proof.
  split; try by eexists. unfold demo_answers. intros l f t v E. rewrite E. intros [= <-] I%above_max. lia.
Qed.


(** AMBER_GIC=hw with two vcpus. *)
Lemma create_leaks_witness :
  exists l f, run_vm demo_answers false 0x40000000 0x8000000 2 [] true = l ++ [(Munmap, demo_answers l Munmap)] /\ fw_calls fw0 l = Some f
  /\ fw_vm f = true /\ (forall v, fw_call f VmCreate v = None) /\ (forall v, fw_call f Munmap v = None).
Proof.
  destruct (create_leaks demo_answers false 0x40000000 0x8000000 2 [] true EBackend) as (l & f & E & F & V & C & M);
    [reflexivity|reflexivity|by eexists|vm_compute; reflexivity|].
  exists l, f. repeat (split; [done|]). apply M; [done|lia|by eexists].
Defined.

(** A controller that is its own state: eight bytes. *)
#[local] Instance demo_gic : HwGic (list Z) (list Z) := {|
  hv_gic_set_spi g i b := Some (<[Z.to_nat i := Z.b2z b]> g);
  hv_gic_state_create g := Some g;
  hv_gic_state_get_size s := Some (zlen s);
  hv_gic_state_get_data s buf := if zlen buf =? zlen s then Some s else None;
  hv_gic_set_state _ bs := Some bs
|}.
#[local] Instance demo_gic_laws : HwGicLaws (list Z) (list Z).
Proof.
  split. intros g g0 b E. exists b. split; [done|]. revert E. unfold hw_state. cbn. destruct (_ =? _) eqn:El; [|done]. intros [= <-]. by rewrite El.
Qed.

Definition demo_hw (g : list Z) : VmShared * list Z := (mkShared [On] None false false 0, g).
Lemma hw_gic_roundtrip_witness :
  exists m1, hvm_restore_gic (demo_hw [0; 0; 0; 0]) [0; 1; 0; 0] = (m1, None) /\ hvm_capture_gic m1 = inl [0; 1; 0; 0].
Proof.
  destruct (hvm_set_irq (demo_hw [0; 0; 0; 0]) 1 true) as [m o] eqn:E. vm_compute in E. injection E as <- <-.
  apply (hw_gic_roundtrip (demo_hw [0; 1; 0; 0]) (demo_hw [0; 0; 0; 0]) [0; 1; 0; 0]); [exact I|vm_compute; reflexivity].
Defined.
