(* ===== verification/Run.v ===== *)
(** * Run: the threads of a running VM (crates/amber-core/src/vm.rs)

    [Vm::run] is one thread per vcpu plus the control reader, sharing a
    running flag, the pause gate and the multi-vcpu snapshot barrier. Each
    access to that shared state is one step; the interleaving is any order of
    steps. The second part is the control channel itself, from the daemon's
    writes to the operations the VM performs.

    [snapshot_consistent]; [stop_ends] and, for a paused VM, its failure
    [paused_orphan_stuck]; [control_channel_roundtrip] and
    [chunks_irrelevant]; [pause_releases_pooled]. *)

From S2P Require Import Prelude Proto Daemon.

Section Run.
(** A vcpu's architectural registers ([CpuSnapshot]). *)
Variable R : Type.

(** ** State *)

(** The primary loop: the [while running] test, the pause gate, the body past
    the gate, inside [vcpu.run], waiting for the barrier with its own
    registers captured, the snapshot written, leaving, gone. *)
Inductive Primary :=
| PTop | PGate | PBody | PGuest | PQuiesce (own : R) | PWrote (cpus : list R) | PExit | PDone.

(** [secondary_loop]: the [while running] test, the [want] test, the pause
    gate, inside [vcpu.run], gone. *)
Inductive Secondary := STop | SWant | SGate | SGuest | SDone.

Record RunState := mkRun {
  running : bool;
  paused : bool;
  want : bool;
  states : list (option R);
  prim : Primary;
  prim_regs : R;
  secs : list (Secondary * R);
  control_alive : bool
}.

Definition run_start (r : R) (rs : list R) : RunState :=
  mkRun true false false (replicate (length rs) None) PTop r (map (fun x => (STop, x)) rs) true.

Definition set_prim (s : RunState) (p : Primary) : RunState :=
  mkRun (running s) (paused s) (want s) (states s) p (prim_regs s) (secs s) (control_alive s).
Definition set_running (s : RunState) (b : bool) : RunState :=
  mkRun b (paused s) (want s) (states s) (prim s) (prim_regs s) (secs s) (control_alive s).
Definition set_pause (s : RunState) (b : bool) : RunState :=
  mkRun (running s) b (want s) (states s) (prim s) (prim_regs s) (secs s) (control_alive s).
Definition set_want (s : RunState) : RunState :=
  mkRun (running s) (paused s) true (states s) (prim s) (prim_regs s) (secs s) (control_alive s).
Definition set_prim_regs (s : RunState) (r : R) : RunState :=
  mkRun (running s) (paused s) (want s) (states s) (prim s) r (secs s) (control_alive s).
Definition set_sec (s : RunState) (i : nat) (p : Secondary) (r : R) : RunState :=
  mkRun (running s) (paused s) (want s) (states s) (prim s) (prim_regs s) (<[i := (p, r)]> (secs s)) (control_alive s).
Definition deposit (s : RunState) (i : nat) (r : R) : RunState :=
  mkRun (running s) (paused s) (want s) (<[i := Some r]> (states s)) (prim s) (prim_regs s) (secs s) (control_alive s).
Definition control_gone (s : RunState) : RunState :=
  mkRun (running s) (paused s) (want s) (states s) (prim s) (prim_regs s) (secs s) false.

Definition all_some (l : list (option R)) : option (list R) :=
  foldr (fun o acc => match o, acc with Some x, Some xs => Some (x :: xs) | _, _ => None end) (Some []) l.

(** ** Steps *)

Inductive run_step : RunState -> RunState -> Prop :=
(** primary vcpu *)
| p_top s : prim s = PTop -> run_step s (set_prim s (if running s then PGate else PExit))
| p_gate s : prim s = PGate -> paused s = false -> run_step s (set_prim s PBody)
| p_snapshot_one s : prim s = PBody -> secs s = [] -> run_step s (set_prim s (PWrote [prim_regs s]))
| p_snapshot_many s : prim s = PBody -> secs s <> [] -> run_step s (set_prim (set_want s) (PQuiesce (prim_regs s)))
| p_quiesced s own rs : prim s = PQuiesce own -> all_some (states s) = Some rs ->
    run_step s (set_prim s (PWrote (own :: rs)))
| p_deadline s own : prim s = PQuiesce own -> run_step s (set_prim s PExit)
| p_wrote s cpus : prim s = PWrote cpus -> run_step s (set_prim s PExit)
| p_enter s : prim s = PBody -> run_step s (set_prim s PGuest)
| p_guest s r : prim s = PGuest -> run_step s (set_prim_regs s r)
| p_mmio s : prim s = PGuest -> run_step s (set_prim s PTop)
| p_shutdown s : prim s = PGuest -> run_step s (set_prim s PExit)
| p_stop s : prim s = PExit -> run_step s (set_prim (set_running s false) PDone)
(** secondary vcpus *)
| s_top s i r : secs s !! i = Some (STop, r) ->
    run_step s (set_sec s i (if running s then SWant else SDone) r)
| s_no_snapshot s i r : secs s !! i = Some (SWant, r) -> want s = false -> run_step s (set_sec s i SGate r)
| s_deposit s i r : secs s !! i = Some (SWant, r) -> want s = true -> states s !! i = Some None ->
    run_step s (set_sec (deposit s i r) i STop r)
| s_capture_failed s i r : secs s !! i = Some (SWant, r) -> want s = true -> states s !! i = Some None ->
    run_step s (set_sec (set_running s false) i STop r)
| s_parked s i r x : secs s !! i = Some (SWant, r) -> want s = true -> states s !! i = Some (Some x) ->
    run_step s (set_sec s i STop r)
| s_gate s i r : secs s !! i = Some (SGate, r) -> paused s = false \/ running s = false ->
    run_step s (set_sec s i SGuest r)
| s_guest s i r r' : secs s !! i = Some (SGuest, r) -> run_step s (set_sec s i SGuest r')
| s_mmio s i r : secs s !! i = Some (SGuest, r) -> run_step s (set_sec s i STop r)
| s_stop s i r : secs s !! i = Some (SGuest, r) -> run_step s (set_sec (set_running s false) i STop r)
(** control reader *)
| c_pause s : control_alive s = true -> run_step s (set_pause s true)
| c_resume s : control_alive s = true -> run_step s (set_pause s false)
| c_eof s : control_alive s = true -> run_step s (control_gone (set_running s false))
| c_done s : control_alive s = true -> running s = false -> run_step s (control_gone s).

(** ** Invariant *)

Definition outside (p : Secondary) : Prop := p = STop \/ p = SWant \/ p = SDone.

(** A filled slot is its vcpu's registers, and that vcpu is out of the guest
    for good; a written snapshot is the slots. *)
Record run_ok (s : RunState) : Prop := {
  ro_len : length (states s) = length (secs s);
  ro_slot : forall i r, states s !! i = Some (Some r) ->
    want s = true /\ exists p, secs s !! i = Some (p, r) /\ outside p;
  ro_prim : match prim s with
    | PQuiesce own => own = prim_regs s
    | PWrote cpus => exists rs, cpus = prim_regs s :: rs /\ all_some (states s) = Some rs
    | _ => True
    end
}.

Lemma all_some_Some l rs : all_some l = Some rs -> l = map Some rs.
Proof.
  revert rs. induction l as [|[x|] l IH]; intros rs; cbn; [by intros [= <-]| |done].
  fold (all_some l). destruct (all_some l) as [xs|]; [|done]. intros [= <-]. cbn. f_equal. by apply IH.
Qed.

Lemma start_ok r rs : run_ok (run_start r rs).
Proof.
  split; cbn; [by rewrite length_replicate, length_map| |done].
  intros i x Hi. apply lookup_replicate in Hi as [? _]. done.
Qed.

(** A step of a secondary that has not deposited, or that stays outside. *)
Lemma set_sec_ok s i p r p' r' :
  run_ok s -> secs s !! i = Some (p, r) ->
  (forall x, states s !! i = Some (Some x) -> outside p' /\ r' = x) ->
  run_ok (set_sec s i p' r').
Proof.
  intros [Hl Hs Hp] Hi Hx. split; cbn; [by rewrite length_insert| |done].
  intros j x Hj. destruct (Hs j x Hj) as [Hw (q & Hq & Ho)]. split; [done|].
  destruct (decide (j = i)) as [->|Hne].
  - destruct (Hx x Hj) as [Ho' ->]. exists p'. rewrite list_lookup_insert_eq by (by eapply lookup_lt_Some). done.
  - exists q. by rewrite list_lookup_insert_ne.
Qed.

(** A secondary inside the guest, or about to enter it, has not deposited. *)
Lemma no_slot s i p r x :
  run_ok s -> secs s !! i = Some (p, r) -> p = SGate \/ p = SGuest -> states s !! i = Some (Some x) -> False.
Proof.
  intros [_ Hs _] Hi Hp Hx. destruct (Hs i x Hx) as [_ (q & Hq & [-> | [-> | -> ]])]; rewrite Hi in Hq;
    injection Hq as -> _; by destruct Hp.
Qed.

Lemma slot_regs s i p r x : run_ok s -> secs s !! i = Some (p, r) -> states s !! i = Some (Some x) -> r = x.
Proof. intros [_ Hs _] Hi Hx. destruct (Hs i x Hx) as [_ (q & Hq & _)]. rewrite Hi in Hq. by injection Hq. Qed.

Lemma run_step_ok s s' : run_ok s -> run_step s s' -> run_ok s'.
Proof.
  intros Hok Hst. pose proof Hok as [Hl Hs Hp].
  destruct Hst as [s Hpc|s Hpc Hpa|s Hpc He|s Hpc He|s own rs Hpc Ha|s own Hpc|s cpus Hpc|s Hpc|s r Hpc|s Hpc|s Hpc|s Hpc
    |s i r Hi|s i r Hi Hw|s i r Hi Hw Hx|s i r Hi Hw Hx|s i r x Hi Hw Hx|s i r Hi Hg|s i r r' Hi|s i r Hi|s i r Hi
    |s Hc|s Hc|s Hc|s Hc Hr]; try rewrite Hpc in Hp.
  - split; cbn; [done|done|]. by destruct (running s).
  - by split.
  - split; cbn; [done|done|]. exists []. split; [done|]. rewrite He in Hl. by apply length_zero_iff_nil in Hl as ->.
  - split; cbn; [done| |done]. intros i r Hi. destruct (Hs i r Hi) as [_ ?]. done.
  - split; cbn; [done|done|]. subst own. eauto.
  - by split.
  - by split.
  - by split.
  - split; cbn; [done|done|]. by rewrite Hpc.
  - by split.
  - by split.
  - by split.
  - apply (set_sec_ok s i STop r); [done|done|]. intros x Hx.
    split; [destruct (running s); unfold outside; auto|by eapply slot_regs].
  - apply (set_sec_ok s i SWant r); [done|done|]. intros x Hx. destruct (Hs i x Hx) as [Hw' _]. congruence.
  - apply (set_sec_ok (deposit s i r) i SWant r); [|done|].
    + split; cbn; [by rewrite length_insert| |].
      * intros j x Hj. destruct (decide (j = i)) as [->|Hne].
        -- rewrite list_lookup_insert_eq in Hj by (by eapply lookup_lt_Some). injection Hj as ->.
           split; [done|]. exists SWant. unfold outside. auto.
        -- rewrite list_lookup_insert_ne in Hj by done. by apply Hs.
      * destruct (prim s) as [| | | |own|cpus| |] eqn:E; try done. destruct Hp as (rs & -> & Ha).
        apply all_some_Some in Ha. rewrite Ha, list_lookup_fmap in Hx. by destruct (rs !! i).
    + cbn. intros x. rewrite list_lookup_insert_eq by (by eapply lookup_lt_Some). intros [= ->]. unfold outside. auto.
  - apply (set_sec_ok (set_running s false) i SWant r); [by split|done|]. cbn. intros x Hy. congruence.
  - apply (set_sec_ok s i SWant r); [done|done|]. intros y Hy. split; [unfold outside; auto|by eapply slot_regs].
  - apply (set_sec_ok s i SGate r); [done|done|]. intros x Hx. exfalso. eapply (no_slot s i); eauto.
  - apply (set_sec_ok s i SGuest r); [done|done|]. intros x Hx. exfalso. eapply (no_slot s i); eauto.
  - apply (set_sec_ok s i SGuest r); [done|done|]. intros x Hx. exfalso. eapply (no_slot s i); eauto.
  - apply (set_sec_ok (set_running s false) i SGuest r); [by split|done|]. cbn. intros x Hx. exfalso.
    eapply (no_slot s i); eauto.
  - by split.
  - by split.
  - by split.
  - by split.
Qed.

Lemma run_reach r rs s : rtc run_step (run_start r rs) s -> run_ok s.
Proof.
  intros Hr. pose proof (start_ok r rs) as H0. revert H0. generalize (run_start r rs), Hr. clear Hr.
  intros s0 Hr. induction Hr as [|s0 s1 s2 Hst _ IH]; intros H0; [done|]. apply IH. by eapply run_step_ok.
Qed.

(** Blocked at the gate with nobody left to open it. *)
Definition orphaned (s : RunState) : Prop :=
  prim s = PGate /\ paused s = true /\ control_alive s = false.

Lemma orphaned_step s s' : orphaned s -> run_step s s' -> orphaned s'.
Proof.
  intros (Hp & Hpa & Hc) Hst.
  destruct Hst; try congruence; unfold orphaned; cbn; auto.
Qed.

End Run.

(** ** Control channel *)

Inductive ControlOp := OpBalloon (mib : Z) | OpPause | OpResume.

(** One turn of [control_reader] over the bytes to come: an operation, an
    ignored opcode, or the end ([inl]: the channel closed between frames, or
    inside a balloon frame). *)
Definition control_step (bs : list Z) : unit + list Z * option ControlOp :=
  match bs with
  | [] => inl tt
  | op :: rest =>
      if op =? 1 then
        if zlen rest <? 8 then inl tt
        else inr (drop 8 rest, Some (OpBalloon (of_le_bytes (take 8 rest))))
      else if op =? 2 then inr (rest, Some OpPause)
      else if op =? 3 then inr (rest, Some OpResume)
      else inr (rest, None)
  end.

(** The operations of a whole stream; every turn consumes its opcode. *)
Fixpoint control_loop (fuel : nat) (bs : list Z) : list ControlOp :=
  match fuel with
  | O => []
  | S fuel' =>
      match control_step bs with
      | inl _ => []
      | inr (rest, o) => match o with Some op => [op] | None => [] end ++ control_loop fuel' rest
      end
  end.
Definition control_reader (bs : list Z) : list ControlOp := control_loop (length bs) bs.

(** The warm-pool gate: any first byte lets the guest go. *)
Definition gate (bs : list Z) : option (list Z) := match bs with [] => None | _ :: rest => Some rest end.

(** The frames the daemon sends for each operation. *)
Definition op_frame (op : ControlOp) : list Z :=
  match op with OpBalloon mib => balloon_frame mib | OpPause => pause_frame | OpResume => resume_frame end.
Definition op_wf (op : ControlOp) : Prop := match op with OpBalloon mib => fits 64 mib | _ => True end.

Lemma control_step_op op rest :
  op_wf op -> control_step (op_frame op ++ rest) = inr (rest, Some op).
Proof.
  intros Hop. destruct op as [mib| |]; [|done..]. unfold op_frame, balloon_frame. rewrite <- app_assoc.
  unfold control_step. cbn [app]. rewrite Z.eqb_refl, zlen_app, zlen_le_bytes.
  destruct (Z.ltb_spec (Z.of_nat 8 + zlen rest) 8); [pose proof (zlen_nonneg rest); lia|].
  rewrite drop_app_length' by (by rewrite length_le_bytes).
  rewrite take_app_length' by (by rewrite length_le_bytes).
  by rewrite of_le_bytes_le_bytes_id.
Qed.

Lemma control_loop_ops ops tail n :
  Forall op_wf ops -> (length ops <= n)%nat ->
  control_loop n (concat (map op_frame ops) ++ tail) = ops ++ control_loop (n - length ops) tail.
Proof.
  intros Hf. revert n. induction Hf as [|op ops Hop _ IH]; intros n Hn; [by rewrite Nat.sub_0_r|].
  destruct n as [|n]; [simpl in Hn; lia|]. cbn [map concat control_loop]. rewrite <- app_assoc, control_step_op by done.
  cbn [app]. rewrite IH by (simpl in Hn; lia). done.
Qed.

Lemma op_frames_length ops : (length ops <= length (concat (map op_frame ops)))%nat.
Proof.
  induction ops as [|op ops IH]; [done|]. cbn [map concat length]. rewrite length_app.
  assert (1 <= length (op_frame op))%nat by (destruct op; simpl; lia). lia.
Qed.

(** *** Reads *)

(** [read_exact_fd] of [n] bytes: [chunks] is what each [read] finds, at most
    what is asked of it being taken; an empty one, or none, is the end. *)
Fixpoint read_exact_fd (n : nat) (chunks : list (list Z)) : option (list Z * list (list Z)) :=
  match n, chunks with
  | O, _ => Some ([], chunks)
  | _, [] => None
  | _, c :: cs =>
      if (length c =? 0)%nat then None
      else if (length c <=? n)%nat then '(bs, rest) ← read_exact_fd (n - length c) cs; Some (c ++ bs, rest)
      else Some (take n c, drop n c :: cs)
  end.

(** ** Stopping *)

(** A vcpu that stays inside the guest; every other step is a thread's own. *)
Inductive dwells {R : Type} : RunState R -> RunState R -> Prop :=
| dwell_prim s r : prim R s = PGuest R -> dwells s (set_prim_regs R s r)
| dwell_sec s i r r' : secs R s !! i = Some (SGuest, r) -> dwells s (set_sec R s i SGuest r').
Definition thread_step {R : Type} (s s' : RunState R) : Prop := run_step R s s' /\ ~ dwells s s'.

(** The VM was told to stop, is not paused, and its control reader is gone. *)
Record stopping {R : Type} (s : RunState R) : Prop := {
  sp_running : running R s = false;
  sp_paused : paused R s = false;
  sp_control : control_alive R s = false
}.
Definition gone {R : Type} (s : RunState R) : Prop := prim R s = PDone R /\ Forall (fun p => fst p = SDone) (secs R s).

(** How many steps each thread has left at most. *)
Definition prim_left {R : Type} (p : Primary R) : nat :=
  match p with
  | PDone _ => 0 | PExit _ => 1 | PTop _ | PWrote _ _ => 2 | PGuest _ | PQuiesce _ _ => 3 | PBody _ => 4 | PGate _ => 5
  end.
Definition sec_left (p : Secondary) : nat := match p with SDone => 0 | STop => 1 | SGuest => 2 | SGate => 3 | SWant => 4 end.
Definition steps_left {R : Type} (s : RunState R) : nat :=
  prim_left (prim R s) + sum_list (map (fun p => sec_left (fst p)) (secs R s)).

Lemma sum_insert {A} (f : A -> nat) (l : list A) i x y : l !! i = Some x ->
  (sum_list (map f (<[i := y]> l)) + f x = sum_list (map f l) + f y)%nat.
Proof.
  revert i. induction l as [|z l IH]; intros [|i] E; try done.
  - injection E as ->. cbn. lia.
  - change (<[S i := y]> (z :: l)) with (z :: <[i := y]> l). specialize (IH i E). cbn [map sum_list]. unfold id in *. lia.
Qed.

Lemma sec_falls {R : Type} (s : RunState R) i p r p' r' : secs R s !! i = Some (p, r) -> (sec_left p' < sec_left p)%nat ->
  (steps_left (set_sec R s i p' r') < steps_left s)%nat.
Proof.
  intros E L. unfold steps_left. cbn [set_sec prim secs].
  pose proof (sum_insert (fun q => sec_left (fst q)) (secs R s) i (p, r) (p', r') E). cbn [fst] in *. lia.
Qed.

Lemma stopping_step {R : Type} (s s' : RunState R) : stopping s -> thread_step s s' ->
  stopping s' /\ (steps_left s' < steps_left s)%nat.
Proof.
  intros [Ru Pa Co] [St Nd]. destruct St as [s Hpc|s Hpc Hpa|s Hpc He|s Hpc He|s own rs Hpc Ha|s own Hpc|s cpus Hpc|s Hpc|s r Hpc|s Hpc|s Hpc|s Hpc
    |s i r Hi|s i r Hi Hw|s i r Hi Hw Hx|s i r Hi Hw Hx|s i r x Hi Hw Hx|s i r Hi Hg|s i r r' Hi|s i r Hi|s i r Hi
    |s Hc|s Hc|s Hc|s Hc Hr]; try congruence;
    try (split; [by split|]; unfold steps_left; cbn [set_prim set_want set_running prim secs]; rewrite Hpc, ?Ru; cbn [prim_left]; lia).
  - exfalso. by apply Nd, dwell_prim.
  - split; [by split|]. rewrite Ru. apply (sec_falls s i STop r); [done|cbn; lia].
  - split; [by split|]. apply (sec_falls s i SWant r); [done|cbn; lia].
  - split; [by split|]. apply (sec_falls (deposit R s i r) i SWant r); [done|cbn; lia].
  - split; [by split|]. apply (sec_falls (set_running R s false) i SWant r); [done|cbn; lia].
  - split; [by split|]. apply (sec_falls s i SWant r); [done|cbn; lia].
  - split; [by split|]. apply (sec_falls s i SGate r); [done|cbn; lia].
  - exfalso. by eapply Nd, dwell_sec.
  - split; [by split|]. apply (sec_falls s i SGuest r); [done|cbn; lia].
  - split; [by split|]. apply (sec_falls (set_running R s false) i SGuest r); [done|cbn; lia].
Qed.

(** A step that is no dwelling, by its effect on the threads. *)
Lemma moves_prim {R : Type} (s s' : RunState R) : prim R s' <> prim R s -> ~ dwells s s'.
Proof. intros N D. destruct D; by apply N. Qed.
Lemma moves_sec {R : Type} (s s' : RunState R) i p r q : secs R s !! i = Some (p, r) -> secs R s' !! i = Some q ->
  fst q <> p -> prim R s' = prim R s -> ~ dwells s s'.
Proof.
  intros E E' N P D. destruct D as [s x Hp|s j x x' Hj]; cbn in *.
  - rewrite E in E'. by injection E' as <-.
  - destruct (decide (j = i)) as [->|Ne].
    + rewrite list_lookup_insert_eq in E' by (by eapply lookup_lt_Some). injection E' as <-. rewrite E in Hj. injection Hj as -> _. done.
    + rewrite list_lookup_insert_ne in E' by done. rewrite E in E'. by injection E' as <-.
Qed.

Lemma stopping_progress {R : Type} (s : RunState R) : run_ok R s -> stopping s -> gone s \/ exists s', thread_step s s'.
Proof.
  intros [Ln _ _] [Ru Pa _].
  assert (P : forall q, q <> prim R s -> run_step R s (set_prim R s q) -> exists s', thread_step s s')
    by (intros q N S; exists (set_prim R s q); split; [done|by apply moves_prim]).
  destruct (prim R s) as [| | | |own|cpus| |] eqn:E.
  - right. apply (P (PExit R)); [done|]. pose proof (p_top R s E) as S. by rewrite Ru in S.
  - right. apply (P (PBody R)); [done|]. by apply p_gate.
  - right. apply (P (PGuest R)); [done|]. by apply p_enter.
  - right. apply (P (PTop R)); [done|]. by apply p_mmio.
  - right. apply (P (PExit R)); [done|]. by eapply p_deadline.
  - right. apply (P (PExit R)); [done|]. by eapply p_wrote.
  - right. exists (set_prim R (set_running R s false) (PDone R)). split; [by apply p_stop|]. apply moves_prim. cbn. by rewrite E.
  - destruct (decide (Forall (fun p => sec_left (fst p) = 0%nat) (secs R s))) as [F|N].
    + left. split; [done|]. eapply Forall_impl; [exact F|]. by intros [[] ?].
    + right. apply not_Forall_Exists in N; [|apply _]. apply Exists_exists in N as ([p r] & I & N).
      apply list_elem_of_lookup in I as [i Hi]. cbn [fst] in N.
      assert (M : forall p' t, p' <> p -> secs R t = secs R s -> prim R t = prim R s -> run_step R s (set_sec R t i p' r) -> exists s', thread_step s s').
      { intros p' t Np Et Ep S. exists (set_sec R t i p' r). split; [done|]. apply (moves_sec _ _ i p r (p', r)); [done| |done|done].
        cbn. rewrite Et. apply list_lookup_insert_eq. by eapply lookup_lt_Some. }
      destruct p; [| | | |by destruct (N eq_refl)].
      * apply (M SDone s); [done..|]. pose proof (s_top R s i r Hi) as S. by rewrite Ru in S.
      * destruct (want R s) eqn:W; [|apply (M SGate s); [done..|]; by apply s_no_snapshot].
        assert (L : (i < length (states R s))%nat) by (rewrite Ln; by eapply lookup_lt_Some).
        apply lookup_lt_is_Some_2 in L as [[x|] Hx].
        -- apply (M STop s); [done..|]. by eapply s_parked.
        -- apply (M STop (deposit R s i r)); [done..|]. by apply s_deposit.
      * apply (M SGuest s); [done..|]. apply s_gate; [done|by left].
      * apply (M STop s); [done..|]. by apply s_mmio.
Qed.

Lemma thread_run {R : Type} (s s' : RunState R) n : run_ok R s -> stopping s -> nsteps thread_step n s s' ->
  run_ok R s' /\ stopping s' /\ (n + steps_left s' <= steps_left s)%nat.
Proof.
  intros Ok Sp H. revert Ok Sp. induction H as [s|n s s1 s2 S _ IH]; intros Ok Sp; [by split; [|split; [|lia]]|].
  destruct (stopping_step s s1 Sp S) as [Sp1 L]. destruct IH as (Ok2 & Sp2 & L2); [by eapply run_step_ok; [exact Ok|apply S]|done|].
  split; [done|]. split; [done|lia].
Qed.

(** ** Properties *)

(** C5: multi-vcpu snapshots are consistent. Whatever the interleaving of the
    primary, the secondaries and the control reader, when the primary writes
    a snapshot every secondary is outside the guest, and the captured list is
    exactly the primary's and each secondary's current registers, one per
    vcpu; and no later step lets one of them back into the guest or changes
    its registers. *)
Theorem snapshot_consistent {R : Type} (r : R) (rs : list R) (s s' : RunState R) (cpus : list R) :
  rtc (run_step R) (run_start R r rs) s -> prim R s = PWrote R cpus -> rtc (run_step R) s s' ->
  cpus = prim_regs R s :: map snd (secs R s) /\
  Forall (fun p => fst p <> SGuest /\ fst p <> SGate) (secs R s') /\ map snd (secs R s') = map snd (secs R s).
Proof.
  intros Hr Hw Hr'. pose proof (run_reach R r rs s Hr) as Hok. pose proof Hok as [Hl _ Hp]. rewrite Hw in Hp.
  destruct Hp as (xs & -> & Ha). apply all_some_Some in Ha.
  assert (Hsnd : forall t, run_ok R t -> states R t = map Some xs ->
    map snd (secs R t) = xs /\ Forall (fun p => fst p <> SGuest /\ fst p <> SGate) (secs R t)).
  { intros t [Hlt Hst _] Hsts. rewrite Hsts, length_map in Hlt. split.
    - apply list_eq. intros i. rewrite list_lookup_fmap. destruct (secs R t !! i) as [[p x]|] eqn:Hi; cbn.
      + assert (Hlt' : (i < length xs)%nat) by (rewrite Hlt; by eapply lookup_lt_Some).
        apply lookup_lt_is_Some_2 in Hlt' as [y Hy]. rewrite Hy. f_equal.
        destruct (Hst i y) as [_ (q & Hq & _)]; [by rewrite Hsts, list_lookup_fmap, Hy|]. rewrite Hi in Hq. by injection Hq.
      + symmetry. apply lookup_ge_None. rewrite Hlt. by apply lookup_ge_None in Hi.
    - apply Forall_lookup. intros i [p x] Hi.
      assert (Hlt' : (i < length xs)%nat) by (rewrite Hlt; by eapply lookup_lt_Some).
      apply lookup_lt_is_Some_2 in Hlt' as [y Hy].
      destruct (Hst i y) as [_ (q & Hq & Ho)]; [by rewrite Hsts, list_lookup_fmap, Hy|]. rewrite Hi in Hq.
      injection Hq as -> _. cbn. by destruct Ho as [-> | [-> | -> ]]. }
  destruct (Hsnd s Hok Ha) as [E1 _].
  assert (Hkeep : run_ok R s' /\ states R s' = map Some xs).
  { clear -Hr' Hok Ha. induction Hr' as [|s s1 s2 Hst _ IH]; [done|]. apply IH; [by eapply run_step_ok|].
    destruct Hst; cbn; try done. exfalso.
    match goal with H : states R _ !! _ = Some None |- _ => rewrite Ha, list_lookup_fmap in H; by destruct (xs !! i) end. }
  destruct (Hsnd s' (proj1 Hkeep) (proj2 Hkeep)) as [E2 Hf].
  split; [by rewrite E1|]. split; [exact Hf|congruence].
Qed.

(** a VM paused when its daemon goes away never stops. From a state that
    a running VM reaches by a pause frame followed by the end of the control
    channel (the daemon's death), the primary stays blocked at the pause gate
    in every continuation: the stop that the control reader requested is
    never acted on, and the process is never released. *)
Theorem paused_orphan_stuck {R : Type} (r : R) (rs : list R) :
  exists s, rtc (run_step R) (run_start R r rs) s /\ running R s = false /\ paused R s = true /\ control_alive R s = false /\
    forall s', rtc (run_step R) s s' -> prim R s' = PGate R /\ running R s' = false.
Proof.
  set (s0 := run_start R r rs).
  exists (control_gone R (set_running R (set_pause R (set_prim R s0 (PGate R)) true) false)).
  split.
  { eapply rtc_l; [exact (p_top R s0 eq_refl)|].
    eapply rtc_l; [exact (c_pause R (set_prim R s0 (PGate R)) eq_refl)|].
    apply rtc_once. exact (c_eof R (set_pause R (set_prim R s0 (PGate R)) true) eq_refl). }
  do 3 (split; [done|]).
  assert (G : forall s s', rtc (run_step R) s s' -> orphaned R s -> running R s = false ->
    orphaned R s' /\ running R s' = false).
  { intros s s' Hr. induction Hr as [|s s1 s2 Hst _ IH]; intros Ho Hrun; [done|].
    apply IH; [by eapply orphaned_step|]. destruct Ho as (Hp & _ & Hc). by destruct Hst; cbn; try congruence. }
  intros s' Hr. destruct (G _ s' Hr) as [[Hp _] Hrun]; [done|done|]. by split.
Qed.


(** how the bytes arrive does not matter: whatever non-empty pieces they come
    in, a read of [n] bytes is the first [n] of them and leaves the rest, and
    fails exactly when the channel ends before. *)
Theorem chunks_irrelevant (n : nat) (chunks : list (list Z)) :
  Forall (fun c => c <> []) chunks ->
  match read_exact_fd n chunks with
  | Some (bs, rest) => (n <= length (concat chunks))%nat /\ bs = take n (concat chunks) /\ concat rest = drop n (concat chunks)
  | None => (length (concat chunks) < n)%nat
  end.
Proof.
  intros F. revert n. induction F as [|c cs Nc _ IH]; intros [|n]; [cbn; by split; [lia|]|cbn; lia|cbn; by split; [lia|]|].
  assert (L : (0 < length c)%nat) by (destruct c; [done|cbn; lia]).
  cbn [read_exact_fd concat]. rewrite length_app. destruct (Nat.eqb_spec (length c) 0); [lia|].
  destruct (Nat.leb_spec (length c) (S n)) as [Le|Gt].
  - specialize (IH (S n - length c)%nat). destruct (read_exact_fd (S n - length c) cs) as [[bs rest]|]; cbn [mbind option_bind]; [|lia].
    destruct IH as (Ln & -> & Er). split; [lia|]. rewrite take_app, drop_app, (take_ge c), (drop_ge c) by lia. by split.
  - split; [lia|]. rewrite take_app_le, drop_app_le by lia. by split.
Qed.

(** the control channel round trip: the frames the daemon writes for any
    sequence of balloon, pause and resume requests, after the go byte that
    releases a warm worker, are read back by the VM as exactly these
    operations in order; a frame cut short at the end is dropped. *)
Theorem control_channel_roundtrip (ops : list ControlOp) (go : Z) (cut : list Z) :
  Forall op_wf ops -> cut = [] \/ (hd 0 cut = 1 /\ zlen cut <= 8) ->
  control_reader <$> gate (go :: concat (map op_frame ops) ++ cut) = Some ops.
Proof.
  intros Hf Hcut. cbn. f_equal. unfold control_reader. pose proof (op_frames_length ops).
  rewrite control_loop_ops; [|done|rewrite length_app; lia].
  assert (Hc : forall n, control_loop n cut = []).
  { intros [|n]; [done|]. cbn [control_loop]. destruct Hcut as [-> |[Hh Hl]]; [done|].
    destruct cut as [|x cut]; [done|]. cbn [hd] in Hh. subst x. cbn [control_step].
    rewrite zlen_cons in Hl. destruct (Z.ltb_spec (zlen cut) 8); [done|lia]. }
  by rewrite Hc, app_nil_r.
Qed.

(** pausing a worker that waits in the warm pool starts it. The daemon
    accepts the request, reports the worker paused and sends one byte; the
    worker takes that byte for its release and runs, and the real release
    that follows is read as the start of a balloon frame, so no pause is ever
    seen. *)
Theorem pause_releases_pooled (d : Daemon) (id : string) (e : VmEntry) :
  reg d !! id = Some e -> e_control e = Some (mkChan true []) ->
  let '(d1, reply) := control_op d id pause_frame (Some true) in
  let '(d2, ok) := release d1 id in
  reply = ROk /\ ok = true /\
  (exists e1, reg d1 !! id = Some e1 /\ vi_paused (e_info e1) = true /\ e_control e1 = Some (mkChan true pause_frame) /\
     gate pause_frame = Some []) /\
  (exists e2, reg d2 !! id = Some e2 /\ vi_paused (e_info e2) = true /\
     exists sent, e_control e2 = Some (mkChan true sent) /\ control_reader <$> gate sent = Some []).
Proof.
  intros He Hc. unfold control_op. rewrite He, Hc. cbn [chan_write ch_open ch_sent app].
  assert (Hu : forall d0 e0 f, reg d0 !! id = Some e0 -> reg (upd_entry d0 id f) !! id = Some (f e0)).
  { intros d0 e0 f H0. cbn. by rewrite lookup_alter_eq, H0. }
  set (f1 := fun e0 => _). pose proof (Hu d e f1 He) as H1. set (d1 := upd_entry d id f1) in *.
  unfold release. rewrite H1. cbn [mbind option_bind f1 set_paused set_control e_control chan_write ch_open ch_sent].
  split; [done|]. split; [done|]. split.
  - exists (f1 e). split; [reflexivity|]. split; [done|]. split; done.
  - eexists. split; [by apply Hu|]. split; [done|]. eexists. split; [reflexivity|]. done.
Qed.

(** ** Witnesses *)

(** Two vcpus: the secondary deposits, the primary writes. *)
Definition snap_state : RunState Z :=
  mkRun Z true false true [Some 20] (PWrote Z [10; 20]) 10 [(STop, 20)] true.

Lemma snap_run : rtc (run_step Z) (run_start Z 10 [20]) snap_state.
Proof.
  eapply rtc_l; [by eapply p_top|].
  eapply rtc_l; [by eapply p_gate|].
  eapply rtc_l; [by eapply p_snapshot_many|].
  eapply rtc_l; [by eapply (s_top Z _ 0)|].
  eapply rtc_l; [by eapply (s_deposit Z _ 0)|].
  apply rtc_once. exact (p_quiesced Z (mkRun Z true false true [Some 20] (PQuiesce Z 10) 10 [(STop, 20)] true)
    10 [20] eq_refl eq_refl).
Qed.

Lemma snapshot_consistent_witness : [10; 20] = prim_regs Z snap_state :: map snd (secs Z snap_state).
Proof.
  exact (proj1 (snapshot_consistent 10 [20] snap_state snap_state [10; 20] snap_run eq_refl (rtc_refl _ _))).
Defined.

Lemma control_channel_roundtrip_witness :
  control_reader <$> gate [1; 1; 0; 1; 0; 0; 0; 0; 0; 0; 2; 3; 1; 7] = Some [OpBalloon 256; OpPause; OpResume].
Proof.
  apply (control_channel_roundtrip [OpBalloon 256; OpPause; OpResume] 1 [1; 7]).
  - repeat constructor; lia.
  - right. split; [done|]. vm_compute. discriminate.
Defined.

Lemma pause_releases_pooled_witness :
  vi_paused <$> (e_info <$> reg (fst (control_op demo_pool "vm1" pause_frame (Some true))) !! "vm1") = Some true.
Proof.
  assert (He : exists e, reg demo_pool !! "vm1" = Some e /\ e_control e = Some (mkChan true []))
    by (eexists; split; vm_compute; reflexivity).
  destruct He as (e & He & Hc). pose proof (pause_releases_pooled demo_pool "vm1" e He Hc) as Hp.
  destruct (control_op demo_pool "vm1" pause_frame (Some true)) as [d1 reply]. destruct (release d1 "vm1") as [d2 ok].
  destruct Hp as (_ & _ & (e1 & He1 & Hpa & _) & _). cbn [fst]. rewrite He1. cbn. by rewrite Hpa.
Defined.

(** Two vcpus, the daemon gone while the secondary is in the guest. *)
Definition stop_state : RunState Z := mkRun Z false false false [None] (PTop Z) 10 [(SGuest, 20)] false.
Lemma stop_run : rtc (run_step Z) (run_start Z 10 [20]) stop_state.
Proof.
  eapply rtc_l; [by eapply (s_top Z _ 0)|].
  eapply rtc_l; [by eapply (s_no_snapshot Z _ 0)|].
  eapply rtc_l; [eapply (s_gate Z _ 0); [done|by left]|].
  apply rtc_once. exact (c_eof Z (mkRun Z true false false [None] (PTop Z) 10 [(SGuest, 20)] true) eq_refl).
Qed.

Lemma chunks_irrelevant_witness :
  read_exact_fd 3 [[1]; [2; 3; 4]; [5]] = Some ([1; 2; 3], [[4]; [5]])
  /\ (length (concat [[1]; [2]]) < 3)%nat.
Proof.
  split; [vm_compute; reflexivity|].
  exact (chunks_irrelevant 3 [[1]; [2]] ltac:(repeat constructor; discriminate)).
Defined.
